(* ===== verification/_CoqProject ===== *)
-Q . S2P
Prelude.v
GoLib.v
Codec.v
Crypto.v
Json.v
Schema.v
Manifests.v
Common.v
Billing.v
Wallet.v
Registry.v
NetIP.v
Provisioning.v
Entitlements.v
Apps.v
Placement.v
Profiles.v
Devices.v
Recovery.v
Runtimes.v
Sessions.v
States.v
Hosts.v
Quota.v
Tron.v
Archive.v
Snapshots.v
NodeSessions.v
Requests.v
Replay.v
Notifications.v
Rationals.v
Deposits.v
Treasury.v
Provisioner.v
Fleet.v
