(* ===== verification/Prelude.v ===== *)
(** * Virtroid: verification development

    Virtroid runs Android phones on rented machines.  Its control plane (Go,
    src/backend) is a PostgreSQL store, src/backend/internal/store, behind HTTP
    handlers, src/backend/internal/httpapi.  Nodes run the phones and their agent,
    src/backend/cmd/virtnoded, keeps their data; a payments service,
    src/backend/cmd/virtroid-payments, finds deposits and spends them on what running
    Virtroid costs; a provisioner, src/backend/cmd/virtroid-provisioner, rents
    nodes.  This development models the store, the authentication of requests, what
    a node does with a phone's data, the payments service and the provisioner.

    ** The parts and their files

    Foundations:
    - [Prelude]: record update, the state-and-error monad [M] of operations, SQL on
      tables, reasoning rules ([stable], [wp]) and their automation (hint database
      [ops], tactics [stable_steps], [wp_steps]).
    - [GoLib]: the Go and PostgreSQL library functions used (TrimSpace, EqualFold,
      TRIM, runes, hexadecimal, UTC calendar, Contains, Join).
    - [Codec]: base64, byte orders, SHA-256.  [Crypto]: HMAC, HKDF, AES-256 and
      CTR, with published test vectors.  [Json]: encoding/json's grammar, for
      stored manifests.  [NetIP]: net.ParseIP and IsGlobalUnicast.

    The store (internal/store):
    - [Schema]: the tables (schema.sql) as records, the database [Db] and the
      store's errors [Err].  [Common]: helpers of store.go that operations share.
    - [Manifests]: snapshot manifests as the store reads them.
    - [Billing]: billing.go.  [Wallet]: wallet.go.  [Provisioning]: provisioning.go.
      [Apps]: app_selections.go.
    - [Registry]: operators, nodes, keys and their audit.
    - [Entitlements]: limits on creating and starting, and the summary of them.
    - [Placement]: the queries that choose a node for a runtime.  They depend on
      the registry through the class [NodeTrust]; [registry_trust] implements it.
    - [Profiles]: what clients may ask of a runtime (store.go, runtime_idle.go).
    - [Devices]: devices, request nonces, blob-key verifiers, account bootstrap and
      invitations.  [Recovery]: recovery credentials, login keys and challenges.
    - [Runtimes]: create, settings, start, stop, wipe, delete, account deletion,
      node reports and the assignment feed; [run_runtime] and [runtime_history] put
      them, metering, crediting and reconciling in sequence.
    - [Sessions]: viewer sessions, relay tokens, capabilities and the reaper.
    - [States]: what the app is shown of a runtime, and the runtime log.
    - [Hosts]: heartbeats, readiness and the leases that carry blob keys to nodes.
    - [Quota]: storage quota and closed accounts on top of [Runtimes].

    Around the store:
    - [Requests]: limits on requests and their authentication (internal/httpapi's
      api.go, request_budget.go and provisioner.go, internal/nodeauth,
      internal/callbackauth).  ECDSA, X.509 and PEM are the class [Signatures].
    - [Replay]: what becomes of used nonces, with [Requests] and the store's
      operations on devices, accounts and capabilities in any order.
    - [Notifications]: subscriptions, queues of encrypted notices, notification
      agents, security events and the stream to phones (store.go, aleph_credits.go,
      httpapi's notifications.go and operator_notices.go); their tables are a record
      of their own, [Notices].
    - [Tron]: internal/tron, addresses, derivation and transactions; base58, the
      curve and BIP32/BIP39 are classes.
    - [Deposits]: the deposit watcher of cmd/virtroid-payments (tronapi.go,
      watch.go) and the routes it calls (httpapi/wallet.go); the class
      [WatchServices] is what the watcher asks of the chain and the control plane,
      and [deployed_services] discharges it with [Requests] and [Wallet].
    - [Rationals]: math/big's rational numbers and decimal amounts.  [Treasury]: the
      treasury of cmd/virtroid-payments (treasury.go, treasury_chain.go,
      treasury_config.go, simpleswap.go) against the class [TreasuryServices].
    - [Provisioner]: the provisioner's rounds, its files and what it reads of the
      aleph command and of Aleph's API (reconcile.go, aleph.go, internal/alephapi),
      against the class [CloudServices] of calls, each of which may fail or be the
      last before the process stops.  [Fleet]: the loop of the two, the provisioner
      of [Provisioner] calling the control plane of [Provisioning]; the class
      [Upholds] carries an invariant of its world through a round.
    - [Archive]: packing and unpacking a data directory (virtnoded/blobstore.go).
    - [Snapshots]: keys, manifests, the encrypted snapshot file and the local store
      (virtnoded/blobstore.go); gzip and tar are the class [Packer].
    - [NodeSessions]: what starting, stopping, wiping and deleting a runtime do with
      its data (virtnoded/blobstore.go and main.go), against a control plane that
      may or may not get the node's reports.

    ** How the code is modelled

    A table is a map from key to row, or a list where only a serial number
    identifies rows; NULL is [None].  A store method is a function [Tx A]: it
    takes the database and returns the new one with a result or an error;
    BeginTx with a deferred Rollback is [atomically], statements outside a
    transaction stay done.  Each transaction runs alone: row locks, SKIP LOCKED
    and advisory locks are not modelled, nor are connection failures or bigint
    overflow in the database.  [now] stands for NOW() and time.Now() alike, in
    microseconds (nanoseconds in the services); random ids and tokens are
    arguments.  An INSERT on an existing key fails with [ErrUnique], a violated
    CHECK or foreign key with [ErrCheck].  Strings are bytes; case and white space
    are handled within ASCII; ORDER BY on text is byte order and ties keep the
    table's order.  Casts to UUID are not modelled.  Go's int64 arithmetic is
    written out with its bounds where the code tests for overflow or it could
    matter; other ints are unbounded.  Files and directories are a map from paths
    to inodes; calls that can fail for reasons outside the program take their
    outcome as an argument.

    Where this is coarser than the system: UUIDs, such as the ids of notices'
    events, compare as text; a failing AccountWallet does not use up a number of its
    sequence; the index that keeps viewer ports unique is not a CHECK of the model,
    since [viewer_ports_never_shared] shows it from the allocation; the law of
    [Packer] covers every header, where archive/tar turns an entry without a type
    flag into a plain file; the Tron node the deposits are
    checked with answers the same every time; the treasury's cap counts broadcasts the node acknowledged to one
    process; the histories of [NodeSessions] have automatic snapshots on and do not
    include the discarding of a tainted runtime, which is modelled and drops the
    data on purpose; a call of os.RemoveAll removes all or nothing.

    Loops over query results are [fold_each] and end with the list.  The fuelled
    functions are [split_loop] (one round per started hour, three to spare:
    [splitByHour_spec] shows that the parts cover the interval exactly),
    [spare_loop] (one round per missing spare: [reconcile_tops_up]), [first_port]
    (one per port of the range: [first_port_None]), the JSON parser (one per byte of
    the text), [transfer_pages] (the code's own bound of 50 pages), [walkDirectory]
    (the code's own bound on depth) and [read_chunks] (the code's own bound on
    chunks); where the bound is the code's, running out is its error.

    ** What is shown

    - Runtimes: a start happens only within entitlement, limits and balance, on
      a trusted node that may serve the account, and is idempotent; generations
      order operations and outdated reports are refused; deletion is final;
      stopping cuts off viewers; viewer ports are never shared; snapshots stay
      within quota and never roll back; a deleted account stays closed; the
      summary in the app agrees with the checks.
    - Sessions implement one lease per runtime; relay tokens work once; the reaper
      ends exactly what lapsed.
    - Money: metering charges exactly what is due, once, within rounding bounds,
      and stops what is used up; a transfer is credited once, in full, to the
      right account, and only when a second node confirmed it; what is signed for
      the chain says what was asked; the treasury sends only sweep fees, sweeps and
      payments of exchanges that buy for configured addresses, and never more than
      its daily cap.
    - Trust: at most two keys of an approved node authenticate, rotation and
      revocation take effect and are final, every change is audited, and
      placement uses only such nodes; blob keys reach only the holder of a lease;
      every accepted request was signed for exactly what it asks, and is accepted
      once even when nonces are deleted in between; guesses of a recovery login key are bounded and a phone is enrolled
      only with the right one.
    - Notices: a runtime's notifications are queued only for its owner's devices,
      stay queued until acknowledged, expired or unsubscribed, and the stream gets to
      each of them; security events are limited.
    - VMs: the fleet stays within its limit, an account holds one VM, a VM's
      life only goes forward, a deleted VM's node is cut off, runtimes of a
      deleted VM are freed, spares are topped up.  Whatever fails and wherever the
      provisioner stops, it creates, deletes and unlocks only what it has a reason
      to, and does not create a VM twice while the first create may still show up.
    - Data: what is packed, encrypted and stored is restored; a restore accepts
      only what the runtime's keys authenticate and follows no link; whatever fails
      while a node starts and stops a runtime, its last session is kept; snapshots
      only get newer, and no manifest older than the phone has seen is restored.

    Some theorems show behaviour that differs from what the code or its comments
    intend: [new_operator_needs_reason], [refused_unlocking_keeps_approval],
    [lapsed_session_delays_stop], [longest_directory_lost],
    [deletion_leaves_snapshot], [fee_sent_to_foreign_address],
    [empty_key_accepted], [legacy_ignores_floor] and [stream_starves].

    ** What is not modelled

    The remaining handlers of internal/httpapi (they decode JSON around one store
    operation), operator reports and the catalog refresh; of the node agent, Docker, adb, networks, the viewer relay and the
    renterd and Sia stores; the provisioner's HTTP clients, credit reports and
    readers of VMs' progress and boots; configuration, metrics, command-line tools; the Android client and the console,
    which are in other languages. *)

From stdpp Require Export base tactics numbers list gmap fin_maps strings relations.
From Stdlib Require Export ZArith Lia Sorted.
#[export] Set Default Goal Selector "!".

(** ** Record update *)

(** [r <| f := v |>] is [r] with the field [f] replaced; the setter of a field
    is found from an [Eta] instance of the record, which spells the record out
    in terms of its projections. *)
Class Eta (R : Type) : Type := eta_of : R → R.

Class Setter {R A : Type} (proj : R → A) : Type := set_field : (A → A) → R → R.
Arguments set_field {R A} proj {_} _ _.

Ltac find_setter :=
  lazymatch goal with
  | |- @Setter ?R ?A ?p =>
    let e := constr:(ltac:(typeclasses eauto) : Eta R) in
    let b := eval hnf in e in
    let f := fresh "f" in
    let r := fresh "r" in
    refine (λ (f : A → A) (r : R), _);
    let body := eval cbv beta in (b r) in
    let abs := eval pattern (p r) in body in
    lazymatch abs with
    | ?g _ => let res := eval cbv beta in (g (f (p r))) in exact res
    end
  end.

#[export] Hint Extern 1 (Setter _) => find_setter : typeclass_instances.

Declare Scope update_scope.
Delimit Scope update_scope with update.
#[warnings="-postfix-notation-not-level-1"]
Notation "r <| f := v |>" := (set_field f (λ _, v) r)
  (at level 12, left associativity, f at next level, v at level 200) : update_scope.
#[warnings="-postfix-notation-not-level-1"]
Notation "r <| f ::= g |>" := (set_field f g r)
  (at level 12, left associativity, f at next level, g at level 200) : update_scope.
Global Open Scope update_scope.

(** ** State and errors *)

(** A store operation reads and changes a state [S] and ends with an error or
    a result.  An operation that fails keeps what it already changed, as
    statements outside a transaction do; [atomically] is a transaction. *)
Definition M (S E A : Type) : Type := S → S * (E + A).

#[export] Instance M_ret {S E} : MRet (M S E) := λ A a s, (s, inr a).
#[export] Instance M_bind {S E} : MBind (M S E) := λ A B f m s,
  match m s with
  | (s', inr a) => f a s'
  | (s', inl e) => (s', inl e)
  end.

Definition throw {S E A} (e : E) : M S E A := λ s, (s, inl e).
Definition gets {S E A} (f : S → A) : M S E A := λ s, (s, inr (f s)).
Definition modify {S E} (f : S → S) : M S E unit := λ s, (f s, inr tt).

(** [refuse_if b e]: an early [return err]. *)
Definition refuse_if {S E} (b : bool) (e : E) : M S E unit :=
  if b then throw e else mret tt.

(** [require o e]: [sql.ErrNoRows] turned into the error [e]. *)
Definition require {S E A} (o : option A) (e : E) : M S E A :=
  match o with Some a => mret a | None => throw e end.

(** [BeginTx], a deferred [Rollback] and [Commit]: on an error every change is
    undone. *)
Definition atomically {S E A} (m : M S E A) : M S E A := λ s,
  match m s with
  | (s', inr a) => (s', inr a)
  | (_, inl e) => (s, inl e)
  end.

(** A [for] loop with an accumulator whose body may return an error. *)
Fixpoint fold_each {S E A B} (f : B → A → M S E B) (b : B) (xs : list A) : M S E B :=
  match xs with
  | [] => mret b
  | x :: xs' => b' ← f b x; fold_each f b' xs'
  end.

Definition for_each {S E A} (f : A → M S E unit) (xs : list A) : M S E unit :=
  fold_each (λ _ x, f x) tt xs.

(** ** SQL *)

(** A table maps primary keys to rows; the key is the row's [id] column. *)

(** [UPDATE t SET ... WHERE p]. *)
Definition update_where {K V} `{Countable K} (p : K → V → bool) (f : V → V) (t : gmap K V) : gmap K V :=
  map_imap (λ k r, Some (if p k r then f r else r)) t.

(** [DELETE FROM t WHERE p]. *)
Definition delete_where {K V} `{Countable K} (p : K → V → bool) (t : gmap K V) : gmap K V :=
  map_imap (λ k r, if p k r then None else Some r) t.

(** [SELECT ... FROM t WHERE p], in the table's own order. *)
Definition select {K V} `{Countable K} (p : K → V → bool) (t : gmap K V) : list (K * V) :=
  List.filter (λ kr, p kr.1 kr.2) (map_to_list t).

(** [SELECT COUNT( * ) FROM t WHERE p]. *)
Definition count_where {K V} `{Countable K} (p : K → V → bool) (t : gmap K V) : nat :=
  length (select p t).

(** [EXISTS (SELECT 1 FROM t WHERE p)]. *)
Definition exists_where {K V} `{Countable K} (p : K → V → bool) (t : gmap K V) : bool :=
  match select p t with [] => false | _ :: _ => true end.

#[global] Arguments update_where : simpl never.
#[global] Arguments delete_where : simpl never.
#[global] Arguments select : simpl never.
#[global] Arguments count_where : simpl never.
#[global] Arguments exists_where : simpl never.

(** [COALESCE] of two nullable values and of a nullable with a default. *)
Definition coalesce2 {A} (x y : option A) : option A :=
  match x with Some a => Some a | None => y end.
Definition coalesce {A} (x : option A) (d : A) : A :=
  match x with Some a => a | None => d end.

(** Three-valued comparisons used in WHERE: NULL makes the row not match. *)
Definition null_eqb (x : option string) (y : string) : bool :=
  match x with Some a => bool_decide (a = y) | None => false end.

Definition is_null {A} (x : option A) : bool := match x with Some _ => false | None => true end.
Definition not_null {A} (x : option A) : bool := negb (is_null x).

(** [ORDER BY key] with a total preorder given as a boolean comparison: stable
    insertion, so ties keep the table's order. *)
Fixpoint insert_by {A} (le : A → A → bool) (x : A) (l : list A) : list A :=
  match l with
  | [] => [x]
  | y :: l' => if le x y then x :: y :: l' else y :: insert_by le x l'
  end.
Definition order_by {A} (le : A → A → bool) (l : list A) : list A :=
  foldr (insert_by le) [] l.

(** ** Reasoning about operations *)

(** Every run of [m], failing or not, moves the state along [R]: with
    [R s s' := I s → I s'] an invariant, with [R s s' := f s = f s'] a frame,
    with an order a monotone counter. *)
Definition stable {S E A} (R : relation S) (m : M S E A) : Prop := ∀ s, R s (m s).1.

(** The result of [m] from [s] satisfies [Q], or its error satisfies [X]. *)
Definition wp {S E A} (m : M S E A) (Q : A → S → Prop) (X : E → S → Prop) (s : S) : Prop :=
  match m s with
  | (s', inr a) => Q a s'
  | (s', inl e) => X e s'
  end.

Definition holds_after {S} (I : S → Prop) : relation S := λ s s', I s → I s'.
Definition same {S A} (f : S → A) : relation S := λ s s', f s = f s'.
Definition grows {S} (f : S → Z) : relation S := λ s s', (f s ≤ f s')%Z.

#[export] Instance holds_after_preorder {S} (I : S → Prop) : PreOrder (holds_after I).
Proof. split; unfold holds_after; [intros ?; tauto | intros ???; tauto]. Qed.
#[export] Instance same_preorder {S A} (f : S → A) : PreOrder (same f).
Proof. split; [done | intros ??? H1 H2; unfold same in *; congruence]. Qed.
#[export] Instance grows_preorder {S} (f : S → Z) : PreOrder (grows f).
Proof. split; unfold grows; [intros ?; lia | intros ???; lia]. Qed.

Create HintDb ops discriminated.

Section stable_rules.
Context {S E : Type} (R : relation S) `{!PreOrder R}.
Implicit Types (s : S) (e : E).

Lemma stable_ret {A} (a : A) : stable R (mret a : M S E A).
Proof. intros s. cbn. reflexivity. Qed.
Lemma stable_throw {A} e : stable R (throw e : M S E A).
Proof. intros s. cbn. reflexivity. Qed.
Lemma stable_gets {A} (f : S → A) : stable R (gets f : M S E A).
Proof. intros s. cbn. reflexivity. Qed.
Lemma stable_refuse b e : stable R (refuse_if b e : M S E unit).
Proof. destruct b; intros s; cbn; reflexivity. Qed.
Lemma stable_require {A} (o : option A) e : stable R (require o e : M S E A).
Proof. destruct o; intros s; cbn; reflexivity. Qed.
Lemma stable_modify (f : S → S) : (∀ s, R s (f s)) → stable R (modify f : M S E unit).
Proof. intros H s. apply H. Qed.
Lemma stable_bind {A B} (m : M S E A) (f : A → M S E B) :
  stable R m → (∀ a, stable R (f a)) → stable R (m ≫= f).
Proof.
  intros Hm Hf s. specialize (Hm s). unfold mbind, M_bind.
  destruct (m s) as [s' [e|a]]; cbn in *; [done|].
  etransitivity; [exact Hm | apply Hf].
Qed.
Lemma stable_bind_refuse {B} b e (f : unit → M S E B) :
  (b = false → stable R (f tt)) → stable R (refuse_if b e ≫= f).
Proof. destruct b; intros H s; [cbn; reflexivity | by apply H]. Qed.
Lemma stable_bind_require {A B} (o : option A) e (f : A → M S E B) :
  (∀ a, o = Some a → stable R (f a)) → stable R (require o e ≫= f).
Proof. destruct o; intros H s; [by apply H | cbn; reflexivity]. Qed.
Lemma stable_atomically {A} (m : M S E A) : stable R m → stable R (atomically m).
Proof.
  intros H s. specialize (H s). unfold atomically.
  destruct (m s) as [s' [e|a]]; cbn in *; [reflexivity | done].
Qed.
Lemma stable_fold {A B} (f : B → A → M S E B) b xs :
  (∀ b x, stable R (f b x)) → stable R (fold_each f b xs).
Proof.
  intros H. revert b. induction xs as [|x xs IH]; intros b.
  - apply stable_ret.
  - apply stable_bind; [apply H | intros b'; apply IH].
Qed.
Lemma stable_for {A} (f : A → M S E unit) xs :
  (∀ x, stable R (f x)) → stable R (for_each f xs).
Proof. intros H. apply stable_fold. intros _ x. apply H. Qed.
Lemma stable_match_option {A B} (o : option A) (f : A → M S E B) (g : M S E B) :
  (∀ a, o = Some a → stable R (f a)) → (o = None → stable R g) →
  stable R (match o with Some a => f a | None => g end).
Proof. destruct o; auto. Qed.
Lemma stable_if {B} (b : bool) (f g : M S E B) :
  (b = true → stable R f) → (b = false → stable R g) → stable R (if b then f else g).
Proof. destruct b; auto. Qed.
End stable_rules.

(** The steps that change nothing; [ops] also collects the operations proved
    stable. *)
Ltac stable_atom :=
  first [ apply stable_ret | apply stable_throw | apply stable_gets | apply stable_refuse
        | apply stable_require ]; apply _.
#[export] Hint Extern 1 (stable _ _) => stable_atom : ops.

(** Weakest-precondition rules: equations, so [rewrite] drives them. *)
Section wp_rules.
Context {S E : Type}.
Implicit Types (s : S) (e : E).

Lemma wp_ret {A} (a : A) Q (X : E → S → Prop) s : wp (mret a) Q X s ↔ Q a s.
Proof. done. Qed.
Lemma wp_throw {A} e (Q : A → S → Prop) X s : wp (throw e) Q X s ↔ X e s.
Proof. done. Qed.
Lemma wp_gets {A} (f : S → A) Q (X : E → S → Prop) s : wp (gets f) Q X s ↔ Q (f s) s.
Proof. done. Qed.
Lemma wp_modify (f : S → S) Q (X : E → S → Prop) s : wp (modify f) Q X s ↔ Q tt (f s).
Proof. done. Qed.
Lemma wp_bind {A B} (m : M S E A) (f : A → M S E B) Q X s :
  wp (m ≫= f) Q X s ↔ wp m (λ a, wp (f a) Q X) X s.
Proof. unfold wp, mbind, M_bind. destruct (m s) as [s' [e|a]]; done. Qed.
Lemma wp_refuse b e Q X s :
  wp (refuse_if b e) Q X s ↔ (b = true → X e s) ∧ (b = false → Q tt s).
Proof. destruct b; cbn; split; intros H; try (destruct H; auto); split; auto; done. Qed.
Lemma wp_require {A} (o : option A) e Q X s :
  wp (require o e) Q X s ↔ (∀ a, o = Some a → Q a s) ∧ (o = None → X e s).
Proof.
  destruct o; cbn; split.
  - intros H. split; [intros ? [= <-]; done | done].
  - intros [H _]. by apply H.
  - intros H. split; [done | done].
  - intros [_ H]. by apply H.
Qed.
Lemma wp_atomically {A} (m : M S E A) Q X s :
  wp (atomically m) Q X s ↔ wp m Q (λ e _, X e s) s.
Proof. unfold wp, atomically. destruct (m s) as [s' [e|a]]; done. Qed.
Lemma wp_mono {A} (m : M S E A) (Q Q' : A → S → Prop) (X X' : E → S → Prop) s :
  wp m Q X s → (∀ a s', Q a s' → Q' a s') → (∀ e s', X e s' → X' e s') → wp m Q' X' s.
Proof. unfold wp. destruct (m s) as [s' [e|a]]; eauto. Qed.
Lemma wp_fold {A B} (f : B → A → M S E B) (Inv : B → list A → S → Prop) (X : E → S → Prop) b xs s :
  Inv b xs s →
  (∀ b x xs s, Inv b (x :: xs) s → wp (f b x) (λ b' s', Inv b' xs s') X s) →
  wp (fold_each f b xs) (λ b' s', Inv b' [] s') X s.
Proof.
  intros H0 Hstep. revert b s H0. induction xs as [|x xs IH]; intros b s H0; [done|].
  cbn [fold_each]. apply wp_bind. eapply wp_mono; [by apply Hstep | | done].
  intros b' s' H'. by apply IH.
Qed.
Lemma wp_if {B} (b : bool) (f g : M S E B) Q X s :
  wp (if b then f else g) Q X s ↔ (b = true → wp f Q X s) ∧ (b = false → wp g Q X s).
Proof. destruct b; split; [split; done | intros [H _]; auto | split; done | intros [_ H]; auto]. Qed.
(** A failed transaction changes nothing. *)
Lemma atomically_error {A} (m : M S E A) s s' e : atomically m s = (s', inl e) → s' = s.
Proof. unfold atomically. destruct (m s) as [? [?|?]]; congruence. Qed.
Lemma wp_of_run {A} (m : M S E A) Q X s s' a : m s = (s', inr a) → Q a s' → wp m Q X s.
Proof. unfold wp. by intros ->. Qed.
(** A run with a known outcome satisfies what every run satisfies. *)
Lemma wp_run {A} (m : M S E A) Q X s s' r :
  wp m Q X s → m s = (s', r) → match r with inr a => Q a s' | inl e => X e s' end.
Proof. unfold wp. intros H Hm. rewrite Hm in H. by destruct r. Qed.
End wp_rules.

Lemma for_each_cons {S E A} (f : A → M S E unit) x l s : for_each f (x :: l) s = (f x ≫= λ _, for_each f l) s.
Proof. unfold for_each. cbn. unfold mbind, M_bind. by destruct (f x s) as [s' [e|[]]]. Qed.
Lemma bind_ext {S E A B} (m m' : M S E A) (f f' : A → M S E B) s :
  m s = m' s → (∀ a s', f a s' = f' a s') → (m ≫= f) s = (m' ≫= f') s.
Proof. unfold mbind, M_bind. intros -> Hf. destruct (m' s) as [s' [e|a]]; [done | apply Hf]. Qed.
Lemma wp_for_cons {S E A} (f : A → M S E unit) x l Q X s :
  wp (for_each f (x :: l)) Q X s ↔ wp (f x) (λ _, wp (for_each f l) Q X) X s.
Proof. rewrite <-wp_bind. unfold wp. by rewrite for_each_cons. Qed.

Lemma stable_run {S E A} (R : relation S) (m : M S E A) s s' r :
  stable R m → m s = (s', r) → R s s'.
Proof. intros H E1. specialize (H s). by rewrite E1 in H. Qed.

(** A run from its result alone: what the samples evaluate. *)
Lemma run_of {S E A} (m : M S E A) s r : (m s).2 = r → m s = ((m s).1, r).
Proof. intros <-. apply surjective_pairing. Qed.

Lemma stable_of_wp {S E A} (R : relation S) (m : M S E A) :
  (∀ s, wp m (λ _ s', R s s') (λ _ s', R s s') s) → stable R m.
Proof. intros H s. specialize (H s). unfold wp in H. by destruct (m s) as [? [?|?]]. Qed.

(** What holds of every run and what holds of this one. *)
Lemma wp_stable {S E A} (R : relation S) (m : M S E A) Q X s :
  stable R m → wp m Q X s → wp m (λ a s', R s s' ∧ Q a s') (λ e s', R s s' ∧ X e s') s.
Proof. intros Hm H. specialize (Hm s). unfold wp in *. by destruct (m s) as [s' [e|a]]. Qed.

(** From a state already reached along [R], a stable operation goes on along it. *)
Lemma wp_continue {S E A} (R : relation S) `{!PreOrder R} (m : M S E A) (X : E → S → Prop) s0 s :
  R s0 s → stable R m → (∀ e s', R s0 s' → X e s') → wp m (λ _ s', R s0 s') X s.
Proof.
  intros H0 Hm HX. specialize (Hm s). unfold wp. destruct (m s) as [s' [e|a]]; cbn in Hm; [apply HX|]; by transitivity s.
Qed.

(** A read leaves the state and may return anything. *)
Lemma wp_read {S E A} (m : M S E A) (Q : A → S → Prop) (X : E → S → Prop) s :
  stable (same (λ s, s)) m → (∀ a, Q a s) → (∀ e, X e s) → wp m Q X s.
Proof.
  intros Hm HQ HX. specialize (Hm s). unfold wp, same in *.
  destruct (m s) as [s' [e|a]]; cbn in Hm; subst s'; auto.
Qed.

(** Running a bind whose first half is known. *)
Lemma bind_inr {S E A B} (m : M S E A) (f : A → M S E B) s s' a :
  m s = (s', inr a) → (m ≫= f) s = f a s'.
Proof. intros H. unfold mbind, M_bind. by rewrite H. Qed.
Lemma bind_inl {S E A B} (m : M S E A) (f : A → M S E B) s s' e :
  m s = (s', inl e) → (m ≫= f) s = (s', inl e).
Proof. intros H. unfold mbind, M_bind. by rewrite H. Qed.
Lemma bind_inv {S E A B} (m : M S E A) (f : A → M S E B) s s' b :
  (m ≫= f) s = (s', inr b) → ∃ s1 a, m s = (s1, inr a) ∧ f a s1 = (s', inr b).
Proof. unfold mbind, M_bind. destruct (m s) as [s1 [e|a]]; [done|]. eauto. Qed.

(** One step of symbolic execution, and as many as there are. *)
Ltac wp_step :=
  first [ rewrite wp_bind | rewrite wp_ret | rewrite wp_throw | rewrite wp_gets; unfold id
        | rewrite wp_modify | rewrite wp_atomically
        | rewrite wp_refuse; split; intros ?
        | rewrite wp_require; split; [intros ? ? | intros ?]
        | rewrite wp_if; split; intros ? ].
Ltac wp_steps := repeat (cbv beta zeta; wp_step).

(** Symbolic execution of an operation that is claimed to be [stable]. *)
Ltac stable_step :=
  lazymatch goal with
  | |- ∀ _, _ => intros ?
  | |- stable _ (match ?x with _ => _ end) => destruct x eqn:?
  | |- stable _ (let _ := _ in _) => cbv zeta
  | |- stable _ (modify _) => apply stable_modify; intros ?
  | |- stable _ (refuse_if _ _ ≫= _) => apply stable_bind_refuse; [apply _ | intros ?]
  | |- stable _ (require _ _ ≫= _) => apply stable_bind_require; [apply _ | intros ? ?]
  | |- stable _ (mbind _ _) => apply stable_bind; [apply _ | |]
  | |- stable _ (atomically _) => apply stable_atomically; [apply _ |]
  | |- stable _ (for_each _ _) => apply stable_for; [apply _ |]
  | |- stable _ (fold_each _ _ _) => apply stable_fold; [apply _ |]
  | |- stable _ _ => solve [eauto 2 with ops]
  end.
Ltac stable_steps := repeat stable_step.
(** The same, but leaving transactions whole. *)
Ltac stable_to_tx :=
  repeat lazymatch goal with |- stable _ (atomically _) => fail | _ => stable_step end.

(** ** Lemmas on tables *)
Lemma filter_perm {A} (f : A → bool) l l' : l ≡ₚ l' → List.filter f l ≡ₚ List.filter f l'.
Proof.
  induction 1 as [|x l l' _ IH|x y l|l1 l2 l3 _ IH1 _ IH2]; cbn; [done | | | by etransitivity].
  - destruct (f x); by rewrite IH.
  - destruct (f x), (f y); try done. apply Permutation_swap.
Qed.

Lemma filter_length_Permutation {A} (g : A → bool) l l' :
  l ≡ₚ l' → length (List.filter g l) = length (List.filter g l').
Proof.
  induction 1 as [|x l l' _ IH|x y l|l1 l2 l3 _ IH1 _ IH2]; cbn; try done.
  - destruct (g x); cbn; by rewrite IH.
  - by destruct (g x), (g y).
  - by rewrite IH1.
Qed.

Section tables.
Context {K V : Type} `{Countable K}.
Implicit Types (t : gmap K V) (p q : K → V → bool) (f : V → V) (k : K).

Lemma lookup_update_where p f t k :
  update_where p f t !! k = (λ r, if p k r then f r else r) <$> t !! k.
Proof. unfold update_where. rewrite map_lookup_imap. by destruct (t !! k). Qed.

Lemma update_where_Some p f t k r' :
  update_where p f t !! k = Some r' →
  ∃ r, t !! k = Some r ∧ r' = (if p k r then f r else r).
Proof. rewrite lookup_update_where, fmap_Some. naive_solver. Qed.

Lemma lookup_delete_where p t k r :
  delete_where p t !! k = Some r ↔ t !! k = Some r ∧ p k r = false.
Proof.
  unfold delete_where. rewrite map_lookup_imap. destruct (t !! k) as [r0|]; cbn; [|naive_solver].
  destruct (p k r0) eqn:E; split.
  - done.
  - intros [[= ->] Hf]. congruence.
  - by intros [= ->].
  - by intros [[= ->] _].
Qed.

Lemma elem_of_select p t k r : (k, r) ∈ select p t ↔ t !! k = Some r ∧ p k r = true.
Proof.
  unfold select. rewrite list_elem_of_In, filter_In, <-list_elem_of_In. cbn.
  by rewrite elem_of_map_to_list.
Qed.

Lemma select_NoDup p t : NoDup (select p t).*1.
Proof.
  unfold select. generalize (NoDup_fst_map_to_list t). generalize (map_to_list t) as l. induction l as [|x l IH]; cbn; [done|].
  intros [Hx Hl]%NoDup_cons. destruct (p _ _); cbn; [|by apply IH].
  apply NoDup_cons. split; [|by apply IH]. intros (y & Hy & Hin)%list_elem_of_fmap. apply Hx.
  apply list_elem_of_fmap. exists y. split; [done|]. apply list_elem_of_In.
  apply list_elem_of_In, filter_In in Hin. apply Hin.
Qed.
Lemma select_nil p t : (∀ k r, t !! k = Some r → p k r = false) → select p t = [].
Proof.
  intros Hf. destruct (select p t) as [|[k r] l] eqn:E; [done|]. exfalso.
  assert ((k, r) ∈ select p t) as [Hk Hp]%elem_of_select by (rewrite E; left).
  by rewrite (Hf k r Hk) in Hp.
Qed.

Lemma update_where_id p f t : (∀ k r, t !! k = Some r → p k r = false) → update_where p f t = t.
Proof.
  intros Hf. apply map_eq. intros k. rewrite lookup_update_where.
  destruct (t !! k) as [r|] eqn:E; cbn; [|done]. by rewrite (Hf k r E).
Qed.

Lemma exists_where_true p t :
  exists_where p t = true ↔ ∃ k r, t !! k = Some r ∧ p k r = true.
Proof.
  unfold exists_where. split.
  - destruct (select p t) as [|[k r] l] eqn:E; [done|]. intros _. exists k, r.
    apply elem_of_select. rewrite E. left.
  - intros (k & r & Hk). apply elem_of_select in Hk.
    destruct (select p t); [by apply not_elem_of_nil in Hk | done].
Qed.

Lemma exists_where_false p t :
  exists_where p t = false ↔ ∀ k r, t !! k = Some r → p k r = false.
Proof.
  rewrite <-not_true_iff_false, exists_where_true. split.
  - intros Hn k r Hk. apply not_true_iff_false. naive_solver.
  - intros Hf (k & r & Hk & Hp). by rewrite (Hf k r Hk) in Hp.
Qed.

Lemma count_where_empty p : count_where p (∅ : gmap K V) = 0.
Proof. unfold count_where, select. by rewrite map_to_list_empty. Qed.

Lemma count_where_insert p t k r :
  t !! k = None → count_where p (<[k:=r]> t) = (if p k r then 1 else 0) + count_where p t.
Proof.
  intros Hk. unfold count_where, select.
  rewrite (filter_length_Permutation _ _ _ (map_to_list_insert t k r Hk)).
  cbn. by destruct (p k r).
Qed.

Lemma update_where_insert p f t k r :
  update_where p f (<[k:=r]> t) = <[k:=if p k r then f r else r]> (update_where p f t).
Proof.
  apply map_eq. intros i. rewrite lookup_update_where, !lookup_insert.
  case_decide; subst; cbn; [done|]. by rewrite lookup_update_where.
Qed.

Lemma count_where_update p q f t :
  count_where p (update_where q f t) = count_where (λ k r, p k (if q k r then f r else r)) t.
Proof.
  induction t as [|k r t Hk IH] using map_ind.
  - unfold update_where. by rewrite map_imap_empty, !count_where_empty.
  - rewrite update_where_insert, !count_where_insert; [by rewrite IH | done |].
    by rewrite lookup_update_where, Hk.
Qed.

Lemma count_where_ext p q t :
  (∀ k r, t !! k = Some r → p k r = q k r) → count_where p t = count_where q t.
Proof.
  induction t as [|k r t Hk IH] using map_ind; intros Hpq.
  - by rewrite !count_where_empty.
  - rewrite !count_where_insert by done.
    rewrite (Hpq k r) by apply lookup_insert_eq. rewrite IH; [done|].
    intros k' r' Hk'. apply (Hpq k'). rewrite lookup_insert_ne; [done|]. naive_solver.
Qed.

Lemma count_where_mono p q t :
  (∀ k r, t !! k = Some r → p k r = true → q k r = true) → count_where p t ≤ count_where q t.
Proof.
  induction t as [|k r t Hk IH] using map_ind; intros Hpq.
  - by rewrite !count_where_empty.
  - rewrite !count_where_insert by done.
    assert (count_where p t ≤ count_where q t).
    { apply IH. intros k' r' Hk'. apply (Hpq k'). rewrite lookup_insert_ne; [done|]. naive_solver. }
    pose proof (Hpq k r (lookup_insert_eq _ _ _)) as Hkr.
    destruct (p k r); [rewrite Hkr by done|]; destruct (q k r); lia.
Qed.

Lemma count_where_pos p t k r : t !! k = Some r → p k r = true → 0 < count_where p t.
Proof.
  intros Hk Hp. unfold count_where.
  assert ((k, r) ∈ select p t) as Hin by (by apply elem_of_select).
  destruct (select p t); [by apply not_elem_of_nil in Hin | cbn; lia].
Qed.

Lemma count_where_replace p t k r r' :
  t !! k = Some r → p k r = p k r' → count_where p (<[k:=r']> t) = count_where p t.
Proof.
  intros Hk Hp. rewrite <-(insert_delete_eq t k r').
  rewrite <-(insert_id t k r Hk) at 2. rewrite <-(insert_delete_eq t k r).
  rewrite !count_where_insert by apply lookup_delete_eq. by rewrite Hp.
Qed.
End tables.

Lemma alter_fixed {K V} `{Countable K} (f : V → V) (k : K) (m : gmap K V) :
  (∀ v, m !! k = Some v → f v = v) → alter f k m = m.
Proof.
  intros Hf. apply map_eq. intros i. rewrite lookup_alter. case_decide; [subst|done].
  destruct (m !! i) eqn:E; cbn; [|done]. by rewrite Hf.
Qed.

(** Updating one row that is there is writing it. *)
Lemma alter_as_insert {K V} `{Countable K} (f : V → V) (k : K) (t : gmap K V) x :
  t !! k = Some x → alter f k t = <[k := f x]> t.
Proof.
  intros Hx. apply map_eq. intros i. rewrite lookup_alter, lookup_insert. case_decide; [|done].
  subst. by rewrite Hx.
Qed.

Lemma elem_of_insert_by {A} (le : A → A → bool) x y l : x ∈ insert_by le y l ↔ x = y ∨ x ∈ l.
Proof.
  induction l as [|z l IH]; cbn; [set_solver|].
  destruct (le y z); rewrite !elem_of_cons; [done|]. rewrite IH. tauto.
Qed.

Lemma elem_of_order_by {A} (le : A → A → bool) x l : x ∈ order_by le l ↔ x ∈ l.
Proof.
  induction l as [|y l IH]; cbn; [done|]. rewrite elem_of_insert_by, IH, elem_of_cons. done.
Qed.

Lemma insert_by_perm {A} (le : A → A → bool) x l : insert_by le x l ≡ₚ x :: l.
Proof.
  induction l as [|y l IH]; cbn; [done|]. destruct (le x y); [done|].
  rewrite IH. apply Permutation_swap.
Qed.

Lemma order_by_perm {A} (le : A → A → bool) l : order_by le l ≡ₚ l.
Proof. induction l as [|x l IH]; cbn; [done|]. by rewrite insert_by_perm, IH. Qed.

(** [ORDER BY] sorts when the comparison is a total preorder. *)
Section order_by.
Context {A : Type} (le : A → A → bool).
Hypothesis le_total : ∀ x y, le x y = true ∨ le y x = true.
Hypothesis le_trans : ∀ x y z, le x y = true → le y z = true → le x z = true.

Lemma order_by_sorted l : StronglySorted (λ x y, le x y = true) (order_by le l).
Proof.
  induction l as [|x l IH]; cbn; [constructor|].
  change (foldr (insert_by le) [] l) with (order_by le l). revert IH.
  generalize (order_by le l) as k. clear l.
  induction 1 as [|y k Hk IH Hall]; cbn; [by repeat constructor|].
  destruct (le x y) eqn:E.
  - constructor; [by constructor|]. constructor; [done|].
    eapply Forall_impl; [exact Hall|]. intros z Hz. by eapply le_trans.
  - constructor; [done|]. rewrite insert_by_perm. constructor; [|done].
    destruct (le_total x y); [congruence | done].
Qed.
End order_by.

Lemma StronglySorted_take {A} (R : relation A) n l : StronglySorted R l → StronglySorted R (take n l).
Proof.
  intros H. revert n. induction H as [|x l Hl IH Hall]; intros [|n]; cbn; try constructor; [done|].
  by apply Forall_take.
Qed.
