(* ===== verification/GoLib.v ===== *)
(** * What the sources use of Go's and PostgreSQL's libraries

    Strings are byte strings.  [strings.TrimSpace], [strings.ToLower] and
    [strings.EqualFold] are modelled on ASCII: white space and letters beyond
    ASCII are left alone.  Runes are counted by their leading UTF-8 byte, which
    is exact for valid UTF-8.  Times are whole microseconds since 1970-01-01
    UTC, the resolution of a PostgreSQL [TIMESTAMPTZ]; a [time.Duration] is a
    number of microseconds too.  Machine integers are [Z] with their range
    checks written out. *)

From Stdlib Require Import Ascii.
From S2P Require Import Prelude.
From stdpp Require Import pretty.
Open Scope Z_scope.

(** ** Integers *)

Definition max_int64 : Z := 2 ^ 63 - 1.
Definition min_int64 : Z := - 2 ^ 63.
Definition is_int64 (z : Z) : bool := (min_int64 <=? z) && (z <=? max_int64).

(** ** Bytes and strings *)

Abbreviation bytes_of := String.list_ascii_of_string.
Abbreviation of_bytes := String.string_of_list_ascii.

Fixpoint drop_while {A} (p : A → bool) (l : list A) : list A :=
  match l with
  | [] => []
  | x :: l' => if p x then drop_while p l' else l
  end.

Definition trim_list {A} (p : A → bool) (l : list A) : list A :=
  rev (drop_while p (rev (drop_while p l))).

(** White space of [unicode.IsSpace] within ASCII: tab to carriage return, space. *)
Definition is_space (c : ascii) : bool :=
  let n := N_of_ascii c in ((9 <=? n) && (n <=? 13))%N || (n =? 32)%N.

Definition TrimSpace (s : string) : string := of_bytes (trim_list is_space (bytes_of s)).
#[global] Arguments TrimSpace : simpl never.

(** PostgreSQL's [TRIM]: spaces only. *)
Definition pg_trim (s : string) : string :=
  of_bytes (trim_list (λ c, N_of_ascii c =? 32)%N (bytes_of s)).

Definition lower_ascii (c : ascii) : ascii :=
  let n := N_of_ascii c in
  if ((65 <=? n) && (n <=? 90))%N then ascii_of_N (n + 32) else c.

Definition ToLower (s : string) : string := of_bytes (lower_ascii <$> bytes_of s).

Definition EqualFold (s t : string) : bool := bool_decide (ToLower s = ToLower t).

Definition str_eqb (s t : string) : bool := bool_decide (s = t).
Infix "=?s" := str_eqb (at level 70).

Definition str_len (s : string) : Z := Z.of_nat (String.length s).

(** [NULLIF(TRIM(COALESCE(x, '')), '') IS NOT NULL]. *)
Definition present (x : option string) : bool := negb (pg_trim (coalesce x "") =?s "").

Definition is_hex (c : ascii) : bool :=
  let n := N_of_ascii c in
  ((48 <=? n) && (n <=? 57) || (65 <=? n) && (n <=? 70) || (97 <=? n) && (n <=? 102))%N.

(** [hex.DecodeString] succeeds. *)
Definition hex_ok (s : string) : bool :=
  Nat.even (String.length s) && forallb is_hex (bytes_of s).

Definition hex_digit (n : N) : ascii :=
  ascii_of_N (if (n <? 10)%N then 48 + n else 87 + n).

(** [hex.EncodeToString]. *)
Definition hex_encode (raw : list N) : string :=
  of_bytes (flat_map (λ b, [hex_digit (b / 16)%N; hex_digit (b mod 16)%N]) raw).

(** A byte that continues a UTF-8 sequence. *)
Definition continues_rune (c : ascii) : bool :=
  let n := N_of_ascii c in ((128 <=? n) && (n <? 192))%N.

Definition rune_count (l : list ascii) : nat := length (List.filter (λ c, negb (continues_rune c)) l).

(** The bytes of the first [n] runes. *)
Fixpoint take_runes (n : nat) (l : list ascii) : list ascii :=
  match l with
  | [] => []
  | c :: l' =>
    if continues_rune c then c :: take_runes n l'
    else match n with O => [] | S n' => c :: take_runes n' l' end
  end.

(** [fmt]'s [%d]. *)
Definition fmt_d (z : Z) : string :=
  if z <? 0 then "-" +:+ pretty (Z.to_N (- z)) else pretty (Z.to_N z).

(** ** Time *)

Definition second_us : Z := 1000000.
Definition minute_us : Z := 60 * second_us.
Definition hour_us : Z := 3600 * second_us.
Definition day_us : Z := 24 * hour_us.

(** [t.Truncate(time.Hour)] of a UTC time: Go truncates towards the zero time,
    which is a whole number of hours before 1970. *)
Definition truncate_hour (t : Z) : Z := t / hour_us * hour_us.

(** The UTC day a time falls on: [(t AT TIME ZONE 'UTC')::date]. *)
Definition utc_date (t : Z) : Z := t / day_us.

(** Day of an era of 400 years (counted from 1 March) to its year of the era,
    its month counted from March and its day of the month from 1. *)
Definition civil_of_doe (doe : Z) : Z * Z * Z :=
  let yoe := (doe - doe / 1460 + doe / 36524 - doe / 146096) / 365 in
  let doy := doe - (365 * yoe + yoe / 4 - yoe / 100) in
  let mp := (5 * doy + 2) / 153 in
  (yoe, mp, doy - (153 * mp + 2) / 5 + 1).

(** Its inverse. *)
Definition doe_of_civil (yoe mp d : Z) : Z :=
  yoe * 365 + yoe / 4 - yoe / 100 + (153 * mp + 2) / 5 + d - 1.

Definition era_days : Z := 146097.

(** The proleptic Gregorian year, month and day of a UTC day. *)
Definition civil_of_day (day : Z) : Z * Z * Z :=
  let z := day + 719468 in
  let '(yoe, mp, d) := civil_of_doe (z mod era_days) in
  let m := if mp <? 10 then mp + 3 else mp - 9 in
  (yoe + 400 * (z / era_days) + (if m <=? 2 then 1 else 0), m, d).

Definition dec_digit (n : Z) : ascii := ascii_of_N (Z.to_N (48 + n mod 10)).
Definition dec2 (n : Z) : string := of_bytes [dec_digit (n / 10); dec_digit n].
Definition dec4 (n : Z) : string :=
  of_bytes [dec_digit (n / 1000); dec_digit (n / 100); dec_digit (n / 10); dec_digit n].

(** [t.Format("2006-01-02T15")], for years 0 to 9999. *)
Definition format_hour (t : Z) : string :=
  let '(y, m, d) := civil_of_day (utc_date t) in
  dec4 y +:+ "-" +:+ dec2 m +:+ "-" +:+ dec2 d +:+ "T" +:+ dec2 (t / hour_us mod 24).

(** [to_char(t AT TIME ZONE 'UTC', 'YYYY-MM')], for years 0 to 9999. *)
Definition format_month (t : Z) : string :=
  let '(y, m, _) := civil_of_day (utc_date t) in dec4 y +:+ "-" +:+ dec2 m.

(** ** Facts *)

(** [strings.Join(parts, sep)] with a one-character separator. *)
Fixpoint Join (sep : ascii) (parts : list string) : list ascii :=
  match parts with
  | [] => []
  | [part] => bytes_of part
  | part :: parts' => bytes_of part ++ sep :: Join sep parts'
  end.

(** [strings.Contains]. *)
Fixpoint contains_list (needle l : list ascii) : bool :=
  bool_decide (take (length needle) l = needle) || match l with [] => false | _ :: l' => contains_list needle l' end.
Definition Contains (s needle : string) : bool := contains_list (bytes_of needle) (bytes_of s).
Definition HasSuffix (s suffix : string) : bool :=
  bool_decide (drop (length (bytes_of s) - length (bytes_of suffix)) (bytes_of s) = bytes_of suffix).

Lemma bytes_of_bytes l : bytes_of (of_bytes l) = l.
Proof. apply String.list_ascii_of_string_of_list_ascii. Qed.
Lemma of_bytes_of s : of_bytes (bytes_of s) = s.
Proof. apply String.string_of_list_ascii_of_string. Qed.
Create Rewrite HintDb golib.
#[export] Hint Rewrite bytes_of_bytes of_bytes_of : golib.

Lemma of_bytes_inj l l' : of_bytes l = of_bytes l' → l = l'.
Proof. intros E. rewrite <-(bytes_of_bytes l), E. apply bytes_of_bytes. Qed.

Lemma bytes_of_app s t : bytes_of (s +:+ t) = bytes_of s ++ bytes_of t.
Proof.
  induction s as [|c s IH]; [done|].
  change (c :: bytes_of (s +:+ t) = c :: bytes_of s ++ bytes_of t). by rewrite IH.
Qed.

Lemma str_eqb_eq s t : (s =?s t) = true ↔ s = t.
Proof. apply bool_decide_eq_true. Qed.
Lemma str_eqb_neq s t : (s =?s t) = false ↔ s ≠ t.
Proof. apply bool_decide_eq_false. Qed.
Lemma str_eqb_refl s : (s =?s s) = true.
Proof. by apply str_eqb_eq. Qed.

Lemma drop_while_head {A} (p : A → bool) l x l' : drop_while p l = x :: l' → p x = false.
Proof. induction l as [|y l IH]; cbn; [done|]. destruct (p y) eqn:E; [auto|congruence]. Qed.

Lemma drop_while_id {A} (p : A → bool) l :
  match l with [] => True | x :: _ => p x = false end → drop_while p l = l.
Proof. destruct l as [|x l]; cbn; [done|]. by intros ->. Qed.

Lemma drop_while_suffix {A} (p : A → bool) l : ∃ l0, l = l0 ++ drop_while p l.
Proof.
  induction l as [|x l [l0 IH]]; cbn; [by exists []|]. destruct (p x); [|by exists []].
  exists (x :: l0). cbn. by rewrite <-IH.
Qed.

Lemma trim_list_idemp {A} (p : A → bool) l : trim_list p (trim_list p l) = trim_list p l.
Proof.
  unfold trim_list. set (d := drop_while p l). set (e := drop_while p (rev d)).
  assert (He : match e with [] => True | x :: _ => p x = false end).
  { subst e. destruct (drop_while p (rev d)) eqn:E; [done|]. by apply drop_while_head in E. }
  assert (Hd : match rev e with [] => True | x :: _ => p x = false end).
  { destruct (drop_while_suffix p (rev d)) as [l0 Hl0]. fold e in Hl0.
    assert (Hde : d = rev e ++ rev l0) by (rewrite <-rev_app_distr, <-Hl0; by rewrite rev_involutive).
    destruct (rev e) as [|x r] eqn:E; [done|]. cbn in Hde. subst d.
    by apply drop_while_head in Hde. }
  rewrite (drop_while_id p (rev e)) by done. rewrite rev_involutive.
  by rewrite (drop_while_id p e).
Qed.

Lemma TrimSpace_idemp s : TrimSpace (TrimSpace s) = TrimSpace s.
Proof. unfold TrimSpace. by rewrite bytes_of_bytes, trim_list_idemp. Qed.

Lemma TrimSpace_id s : Forall (λ c, is_space c = false) (bytes_of s) → TrimSpace s = s.
Proof.
  intros H. unfold TrimSpace, trim_list. rewrite (drop_while_id _ (bytes_of s)), drop_while_id.
  - by rewrite rev_involutive, of_bytes_of.
  - rewrite <-(rev_involutive (bytes_of s)) in H. apply Forall_rev in H. rewrite rev_involutive in H.
    destruct H; done.
  - destruct H; done.
Qed.

Lemma drop_while_nil {A} (p : A → bool) l : drop_while p l = [] ↔ forallb p l = true.
Proof. induction l as [|x l IH]; cbn; [done|]. destruct (p x); cbn; [done | split; done]. Qed.

Lemma trim_list_nil {A} (p : A → bool) l : trim_list p l = [] ↔ forallb p l = true.
Proof.
  unfold trim_list. rewrite <-(drop_while_nil p l). split.
  - intros H. apply (f_equal (@rev A)) in H. rewrite rev_involutive in H. cbn in H.
    destruct (drop_while p l) as [|x k] eqn:E; [done|]. exfalso. apply drop_while_head in E as Hx.
    apply drop_while_nil in H. rewrite forallb_forall in H.
    specialize (H x). rewrite <-in_rev in H. rewrite H in Hx; [done | by left].
  - by intros ->.
Qed.

(** What [TrimSpace] leaves is no blank to SQL. *)
Lemma pg_trim_nonempty s : TrimSpace s ≠ ""%string → pg_trim (TrimSpace s) ≠ ""%string.
Proof.
  intros Hne H. apply Hne. rewrite <-TrimSpace_idemp. generalize dependent (TrimSpace s). clear s. intros s _ H.
  unfold TrimSpace. change ""%string with (of_bytes []) in H |- *. f_equal. apply trim_list_nil.
  unfold pg_trim in H. apply of_bytes_inj, trim_list_nil in H. rewrite forallb_forall in *. intros c Hc.
  specialize (H c Hc). unfold is_space. rewrite H. apply orb_true_r.
Qed.
#[export] Hint Rewrite TrimSpace_idemp : golib.

Lemma lower_ascii_idemp c : lower_ascii (lower_ascii c) = lower_ascii c.
Proof. destruct c as [[] [] [] [] [] [] [] []]; reflexivity. Qed.

Lemma ToLower_idemp s : ToLower (ToLower s) = ToLower s.
Proof.
  unfold ToLower. rewrite bytes_of_bytes. f_equal. rewrite <-list_fmap_compose.
  apply list_fmap_ext. intros i x _. apply lower_ascii_idemp.
Qed.
#[export] Hint Rewrite ToLower_idemp : golib.

Lemma take_runes_count n l : (rune_count (take_runes n l) ≤ n)%nat.
Proof.
  unfold rune_count. revert n. induction l as [|c l IH]; intros n; cbn; [lia|].
  destruct (continues_rune c) eqn:E; cbn; rewrite ?E; cbn; [apply IH|].
  destruct n as [|n]; cbn; [lia|]. rewrite E. cbn. specialize (IH n). lia.
Qed.

Lemma take_runes_all n l : (rune_count l ≤ n)%nat → take_runes n l = l.
Proof.
  unfold rune_count. revert n. induction l as [|c l IH]; intros n; cbn; [done|].
  destruct (continues_rune c) eqn:E; cbn; intros Hn; [by rewrite IH|].
  destruct n as [|n]; [lia|]. rewrite IH by lia. done.
Qed.

(** *** Dates *)

(** [lia] with division and remainder by constants. *)
Ltac dlia := intros; Z.div_mod_to_equations; lia.

Lemma civil_of_doe_ok doe yoe mp d :
  0 ≤ doe < era_days → civil_of_doe doe = (yoe, mp, d) →
  doe_of_civil yoe mp d = doe ∧ 0 ≤ mp ≤ 11 ∧ 1 ≤ d ≤ 31 ∧ 0 ≤ yoe ≤ 399.
Proof.
  unfold civil_of_doe, doe_of_civil, era_days. intros Hdoe [= Hyoe Hmp Hd].
  set (doy := doe - (365 * yoe + yoe / 4 - yoe / 100)).
  assert (0 ≤ doy ≤ 365 ∧ 0 ≤ yoe ≤ 399) as [Hdoy Hy] by (subst doy; rewrite <-Hyoe; dlia).
  rewrite Hyoe in Hmp, Hd. fold doy in Hmp, Hd.
  split_and!; try (subst mp; dlia); lia.
Qed.

Lemma civil_of_day_range day y m d :
  civil_of_day day = (y, m, d) → 1 ≤ m ≤ 12 ∧ 1 ≤ d ≤ 31.
Proof.
  unfold civil_of_day. set (z := day + 719468).
  destruct (civil_of_doe (z mod era_days)) as [[yoe mp] d'] eqn:E.
  apply civil_of_doe_ok in E as (_ & ? & ? & _); [|unfold era_days; dlia].
  intros [= <- <- <-]. split; [|lia]. destruct (mp <? 10) eqn:?; lia.
Qed.

Lemma civil_of_day_inj day day' : civil_of_day day = civil_of_day day' → day = day'.
Proof.
  unfold civil_of_day. set (z := day + 719468). set (z' := day' + 719468).
  destruct (civil_of_doe (z mod era_days)) as [[yoe mp] d] eqn:E.
  destruct (civil_of_doe (z' mod era_days)) as [[yoe' mp'] d'] eqn:E'.
  apply civil_of_doe_ok in E as (Hz & ? & ? & ?); [|unfold era_days; dlia].
  apply civil_of_doe_ok in E' as (Hz' & ? & ? & ?); [|unfold era_days; dlia].
  intros [= Hy Hm Hd].
  assert (mp = mp') by (destruct (mp <? 10) eqn:?, (mp' <? 10) eqn:?; lia). subst mp' d'.
  assert (yoe = yoe' ∧ z / era_days = z' / era_days) as [<- Hera] by lia.
  assert (z = z'); [|unfold z, z' in *; lia].
  rewrite (Z.div_mod z era_days), (Z.div_mod z' era_days) by (unfold era_days; lia). lia.
Qed.

Lemma dec_digit_inj a b : dec_digit a = dec_digit b → a mod 10 = b mod 10.
Proof.
  unfold dec_digit. intros E. apply (f_equal N_of_ascii) in E.
  rewrite !N_ascii_embedding in E by dlia. dlia.
Qed.

Lemma dec2_inj a b : 0 ≤ a < 100 → 0 ≤ b < 100 → dec2 a = dec2 b → a = b.
Proof.
  intros Ha Hb [= E1 E2].
  apply dec_digit_inj in E1, E2. dlia.
Qed.

Lemma dec4_inj a b : 0 ≤ a < 10000 → 0 ≤ b < 10000 → dec4 a = dec4 b → a = b.
Proof.
  intros Ha Hb [= E1 E2 E3 E4].
  apply dec_digit_inj in E1, E2, E3, E4. dlia.
Qed.

Definition year_of (t : Z) : Z := (civil_of_day (utc_date t)).1.1.

(** Two times format to the same hour only when they are in the same UTC hour. *)
Lemma format_hour_inj t t' :
  0 ≤ year_of t < 10000 → 0 ≤ year_of t' < 10000 →
  format_hour t = format_hour t' → t / hour_us = t' / hour_us.
Proof.
  unfold year_of, format_hour. intros Hy Hy'.
  destruct (civil_of_day (utc_date t)) as [[y m] d] eqn:E.
  destruct (civil_of_day (utc_date t')) as [[y' m'] d'] eqn:E'. cbn in Hy, Hy'.
  pose proof (civil_of_day_range _ _ _ _ E). pose proof (civil_of_day_range _ _ _ _ E').
  unfold dec4, dec2. cbn [of_bytes String.append]. intros [= Y1 Y2 Y3 Y4 M1 M2 D1 D2 H1 H2].
  assert (y = y') by (apply dec4_inj; [lia | lia | unfold dec4; congruence]).
  assert (m = m') by (apply dec2_inj; [lia | lia | unfold dec2; congruence]).
  assert (d = d') by (apply dec2_inj; [lia | lia | unfold dec2; congruence]).
  assert (Hh : t / hour_us mod 24 = t' / hour_us mod 24).
  { apply dec2_inj; [dlia | dlia | unfold dec2; congruence]. }
  assert (Hday : utc_date t = utc_date t') by (apply civil_of_day_inj; congruence).
  unfold utc_date, day_us in Hday. unfold hour_us, second_us in *. dlia.
Qed.

(** ** Decimal numbers *)

Definition decimals (l : list ascii) : N := foldl (λ acc c, acc * 10 + (N_of_ascii c - 48))%N 0%N l.
Definition decimal_char (c : ascii) : Prop := (48 ≤ N_of_ascii c ≤ 57)%N.

Lemma decimals_from acc l : foldl (λ acc c, acc * 10 + (N_of_ascii c - 48))%N acc l = (acc * 10 ^ N.of_nat (length l) + decimals l)%N.
Proof.
  unfold decimals. revert acc. induction l as [|c l IH]; intros acc; cbn [foldl length]; [cbn; lia|].
  rewrite IH, (IH (0 * 10 + _)%N), Nat2N.inj_succ, N.pow_succ_r'. lia.
Qed.

Lemma pretty_char_decimal x : (x < 10)%N → decimal_char (pretty_N_char x) ∧ (N_of_ascii (pretty_N_char x) - 48)%N = x.
Proof. intros Hx. assert (Hc : x ∈ (N.of_nat <$> seq 0 10)) by (apply list_elem_of_fmap; exists (N.to_nat x); split; [lia | apply elem_of_seq; lia]).
  cbn in Hc. repeat (apply elem_of_cons in Hc as [->|Hc]; [vm_compute; split; [split; congruence | reflexivity]|]). by apply not_elem_of_nil in Hc.
Qed.

Lemma pretty_go_decimals x : ∀ s, ∃ ds, bytes_of (pretty_N_go x s) = ds ++ bytes_of s ∧ decimals ds = x ∧ Forall decimal_char ds.
Proof.
  induction (N.lt_wf_0 x) as [x _ IH]. intros s. destruct (decide (x = 0%N)) as [->|Hx].
  { exists []. rewrite pretty_N_go_0. done. }
  rewrite pretty_N_go_step by lia. destruct (IH (x `div` 10)%N ltac:(apply N.div_lt; lia) (String (pretty_N_char (x `mod` 10)) s)) as (ds & E & Hv & Hd).
  pose proof (N.mod_lt x 10 ltac:(done)) as Hm. destruct (pretty_char_decimal _ Hm) as [Hc Hcv].
  exists (ds ++ [pretty_N_char (x `mod` 10)]). split_and!.
  - rewrite E, <-app_assoc. done.
  - unfold decimals. rewrite foldl_snoc. fold (decimals ds). rewrite Hv, Hcv. pose proof (N.div_mod x 10). lia.
  - apply Forall_app. split; [done|]. by constructor.
Qed.

Lemma pretty_decimals x : decimals (bytes_of (pretty x)) = x ∧ Forall decimal_char (bytes_of (pretty x)).
Proof.
  unfold pretty, pretty_N. destruct (decide _) as [->|Hx]; [split; [done | repeat constructor; done]|].
  destruct (pretty_go_decimals x "") as (ds & -> & Hv & Hd). by rewrite app_nil_r.
Qed.

Lemma padded_decimals k l x : decimals l = x → Forall decimal_char l →
  decimals (repeat "0"%char k ++ l) = x ∧ Forall decimal_char (repeat "0"%char k ++ l).
Proof.
  intros <- Hd. split.
  - unfold decimals. rewrite foldl_app. f_equal. induction k as [|k IH]; [done|]. exact IH.
  - apply Forall_app. split; [|done]. apply Forall_forall. intros c Hc%list_elem_of_In%repeat_spec. by subst.
Qed.

(** A number that is not zero does not start with a zero. *)
Lemma pretty_go_head x : ∀ s, x ≠ 0%N → ∃ c l, bytes_of (pretty_N_go x s) = c :: l ∧ N_of_ascii c ≠ 48%N.
Proof.
  induction (N.lt_wf_0 x) as [x _ IH]. intros s Hx. rewrite pretty_N_go_step by lia.
  destruct (decide (x `div` 10 = 0)%N) as [E|E]; [|apply IH; [apply N.div_lt; lia | done]].
  rewrite E, pretty_N_go_0. exists (pretty_N_char (x `mod` 10)), (bytes_of s). split; [done|].
  pose proof (N.div_mod x 10). pose proof (N.mod_lt x 10 ltac:(done)) as Hm. destruct (pretty_char_decimal _ Hm) as [Hc Hcv].
  unfold decimal_char in Hc. lia.
Qed.

Lemma pretty_head x : x ≠ 0%N → ∃ c l, bytes_of (pretty x) = c :: l ∧ N_of_ascii c ≠ 48%N.
Proof. intros Hx. unfold pretty, pretty_N. rewrite decide_False by done. by apply pretty_go_head. Qed.

Lemma pretty_length x (k : nat) : (x < 10 ^ N.of_nat k)%N → (0 < k)%nat → (length (bytes_of (pretty x)) ≤ k)%nat.
Proof.
  intros Hk H0. destruct (decide (x = 0%N)) as [->|Hx]; [done|]. destruct (pretty_head x Hx) as (c & l & E & Hc).
  destruct (pretty_decimals x) as [Hv Hd]. rewrite E in Hv, Hd |- *. apply Forall_cons in Hd as [Hd _]. unfold decimal_char in Hd.
  unfold decimals in Hv. cbn [foldl] in Hv. rewrite decimals_from in Hv.
  assert (Hl : (10 ^ N.of_nat (length l) < 10 ^ N.of_nat k)%N) by nia. apply N.pow_lt_mono_r_iff in Hl; [|lia]. cbn [length]. lia.
Qed.
