(* ===== verification/Codec.v ===== *)
(** * Byte encodings

    What the sources use of encoding/base64 (RawURLEncoding), encoding/hex,
    encoding/binary (uvarints, big-endian integers) and crypto/sha256.  Bytes are
    [N]s below 256 ([octets]); strings of bytes are lists of them. *)

From Stdlib Require Import Ascii.
From S2P Require Import Prelude.
From S2P Require Import GoLib.
Open Scope N_scope.

Definition octets (l : list N) : Prop := Forall (λ b, b < 256) l.

(** The bytes of a Go string. *)
Definition octets_of (s : string) : list N := N_of_ascii <$> bytes_of s.

(** ** base64.RawURLEncoding *)

(** The alphabet, both ways. *)
Definition base64url (c : ascii) : option N :=
  let n := N_of_ascii c in
  if (65 <=? n) && (n <=? 90) then Some (n - 65)
  else if (97 <=? n) && (n <=? 122) then Some (n - 71)
  else if (48 <=? n) && (n <=? 57) then Some (n + 4)
  else if n =? 45 then Some 62
  else if n =? 95 then Some 63 else None.

Definition base64url_char (n : N) : ascii :=
  ascii_of_N (if n <? 26 then n + 65 else if n <? 52 then n + 71 else if n <? 62 then n - 4
              else if n =? 62 then 45 else 95).

Fixpoint decode_sextets (l : list N) : option (list N) :=
  match l with
  | [] => Some []
  | [_] => None
  | [a; b] => Some [a * 4 + b / 16]
  | [a; b; c] => Some [a * 4 + b / 16; b mod 16 * 16 + c / 4]
  | a :: b :: c :: d :: l' =>
    rest ← decode_sextets l';
    Some ([a * 4 + b / 16; b mod 16 * 16 + c / 4; c mod 4 * 64 + d] ++ rest)
  end.

Fixpoint encode_sextets (l : list N) : list N :=
  match l with
  | [] => []
  | [x] => [x / 4; x mod 4 * 16]
  | [x; y] => [x / 4; x mod 4 * 16 + y / 16; y mod 16 * 4]
  | x :: y :: z :: l' =>
    [x / 4; x mod 4 * 16 + y / 16; y mod 16 * 4 + z / 64; z mod 64] ++ encode_sextets l'
  end.

(** [DecodeString]: no padding, line breaks skipped, spare bits of the last
    character ignored. *)
Definition raw_url_decode (value : string) : option (list N) :=
  sextets ← mapM base64url (List.filter (λ c, negb ((N_of_ascii c =? 10) || (N_of_ascii c =? 13))) (bytes_of value));
  decode_sextets sextets.

(** [EncodeToString]. *)
Definition raw_url_encode (raw : list N) : string := of_bytes (base64url_char <$> encode_sextets raw).

(** ** base64.StdEncoding *)

Definition base64std (c : ascii) : option N :=
  let n := N_of_ascii c in
  if n =? 43 then Some 62 else if n =? 47 then Some 63
  else if (n =? 45) || (n =? 95) then None else base64url c.

(** Groups of four characters; only the last may end in padding. *)
Definition is_pad (c : ascii) : bool := N_of_ascii c =? 61.
Fixpoint std_quads (l : list ascii) : option (list N) :=
  match l with
  | [] => Some []
  | a :: b :: c :: d :: l' =>
    if is_pad d then
      match l' with
      | [] => if is_pad c then x ← base64std a; y ← base64std b; decode_sextets [x; y]
              else x ← base64std a; y ← base64std b; z ← base64std c; decode_sextets [x; y; z]
      | _ => None
      end
    else
      x ← base64std a; y ← base64std b; z ← base64std c; w ← base64std d;
      group ← decode_sextets [x; y; z; w];
      rest ← std_quads l';
      Some (group ++ rest)
  | _ => None
  end.

(** [DecodeString]: line breaks skipped, padding required. *)
Definition std_decode (value : string) : option (list N) :=
  std_quads (List.filter (λ c, negb ((N_of_ascii c =? 10) || (N_of_ascii c =? 13))) (bytes_of value)).

Example std_decode_padded : std_decode "TWE=" = Some [77; 97] ∧ std_decode "TWFu" = Some [77; 97; 110]
  ∧ std_decode "TQ==" = Some [77] ∧ std_decode "TWE" = None ∧ std_decode "T=E=" = None.
Proof. vm_compute. done. Qed.

(** ** encoding/hex *)

Definition hex_value (c : ascii) : option N :=
  let n := N_of_ascii c in
  if (48 <=? n) && (n <=? 57) then Some (n - 48)
  else if (97 <=? n) && (n <=? 102) then Some (n - 87)
  else if (65 <=? n) && (n <=? 70) then Some (n - 55) else None.

Fixpoint hex_pairs (l : list N) : option (list N) :=
  match l with
  | [] => Some []
  | [_] => None
  | a :: b :: l' => rest ← hex_pairs l'; Some ((a * 16 + b) :: rest)
  end.

Definition hex_decode (s : string) : option (list N) := digits ← mapM hex_value (bytes_of s); hex_pairs digits.

(** ** encoding/binary *)

(** [n] bytes of a number, most significant first. *)
Fixpoint big_endian (n : nat) (v : N) : list N :=
  match n with O => [] | S n' => big_endian n' (v / 256) ++ [v mod 256] end.

Definition of_big_endian (l : list N) : N := foldl (λ acc b, acc * 256 + b) 0 l.

(** [binary.AppendUvarint] of a [uint64]: seven bits a byte, least significant
    first; ten bytes hold 64 bits. *)
Fixpoint uvarint (fuel : nat) (v : N) : list N :=
  match fuel with
  | O => []
  | S fuel' => if v <? 128 then [v] else (v mod 128 + 128) :: uvarint fuel' (v / 128)
  end.
Definition put_uvarint (v : N) : list N := uvarint 10 v.

(** ** crypto/sha256 *)

Definition mask32 (v : N) : N := N.land v 0xffffffff.
Definition add32 (x y : N) : N := mask32 (x + y).
Definition rotr (n x : N) : N := N.lor (N.shiftr x n) (mask32 (N.shiftl x (32 - n))).

Definition primes : list N :=
  [2; 3; 5; 7; 11; 13; 17; 19; 23; 29; 31; 37; 41; 43; 47; 53; 59; 61; 67; 71; 73; 79; 83; 89; 97; 101; 103; 107; 109; 113; 127; 131;
   137; 139; 149; 151; 157; 163; 167; 173; 179; 181; 191; 193; 197; 199; 211; 223; 227; 229; 233; 239; 241; 251; 257; 263; 269; 271; 277;
   281; 283; 293; 307; 311].
(** The root of [n], bit by bit from [k]. *)
Fixpoint root_from (degree n : N) (k : nat) (acc : N) : N :=
  match k with
  | O => acc
  | S k' => let next := acc + 2 ^ N.of_nat k' in root_from degree n k' (if next ^ degree <=? n then next else acc)
  end.
(** The first 32 bits of the fraction of a root of [p]. *)
Definition root_fraction (degree p : N) : N := mask32 (root_from degree (p * 2 ^ (32 * degree)) 40 0).

(** The round constants: of the cube roots of the first 64 primes. *)
Definition sha256_k : list N := Eval vm_compute in (root_fraction 3 <$> primes).

Record digest_state := MkDigest { sa : N; sb : N; sc : N; sd : N; se : N; sf : N; sg : N; sh : N }.

Definition sha256_init : digest_state :=
  MkDigest 0x6a09e667 0xbb67ae85 0x3c6ef372 0xa54ff53a 0x510e527f 0x9b05688c 0x1f83d9ab 0x5be0cd19.

Definition choose (e f g : N) : N := N.lxor (N.land e f) (N.land (N.lxor e 0xffffffff) g).
Definition majority (a b c : N) : N := N.lxor (N.lxor (N.land a b) (N.land a c)) (N.land b c).
Definition big_sigma0 (x : N) : N := N.lxor (N.lxor (rotr 2 x) (rotr 13 x)) (rotr 22 x).
Definition big_sigma1 (x : N) : N := N.lxor (N.lxor (rotr 6 x) (rotr 11 x)) (rotr 25 x).
Definition small_sigma0 (x : N) : N := N.lxor (N.lxor (rotr 7 x) (rotr 18 x)) (N.shiftr x 3).
Definition small_sigma1 (x : N) : N := N.lxor (N.lxor (rotr 17 x) (rotr 19 x)) (N.shiftr x 10).

(** One round on the next schedule word; the window holds sixteen words. *)
Definition sha256_round (st : digest_state * list N) (k : N) : digest_state * list N :=
  let '(s, window) := st in
  let w := nth 0 window 0 in
  let t1 := add32 (add32 (add32 s.(sh) (big_sigma1 s.(se))) (add32 (choose s.(se) s.(sf) s.(sg)) k)) w in
  let t2 := add32 (big_sigma0 s.(sa)) (majority s.(sa) s.(sb) s.(sc)) in
  let next := add32 (add32 w (small_sigma0 (nth 1 window 0))) (add32 (nth 9 window 0) (small_sigma1 (nth 14 window 0))) in
  (MkDigest (add32 t1 t2) s.(sa) s.(sb) s.(sc) (add32 s.(sd) t1) s.(se) s.(sf) s.(sg), drop 1 window ++ [next]).

Definition sha256_block (s : digest_state) (words : list N) : digest_state :=
  let r := (foldl sha256_round (s, words) sha256_k).1 in
  MkDigest (add32 s.(sa) r.(sa)) (add32 s.(sb) r.(sb)) (add32 s.(sc) r.(sc)) (add32 s.(sd) r.(sd))
    (add32 s.(se) r.(se)) (add32 s.(sf) r.(sf)) (add32 s.(sg) r.(sg)) (add32 s.(sh) r.(sh)).

(** Groups of [n]; [fuel] bounds their number. *)
Fixpoint chunks {A} (fuel n : nat) (l : list A) : list (list A) :=
  match fuel, l with
  | S fuel', _ :: _ => take n l :: chunks fuel' n (drop n l)
  | _, _ => []
  end.

Definition sha256_pad (msg : list N) : list N :=
  let len := N.of_nat (length msg) in
  msg ++ [128] ++ repeat 0 (N.to_nat ((119 - len mod 64) mod 64)) ++ big_endian 8 (len * 8).

Definition Sum256 (msg : list N) : list N :=
  let padded := sha256_pad msg in
  let blocks := chunks (length padded) 64 padded in
  let s := foldl (λ s b, sha256_block s (of_big_endian <$> chunks 16 4 b)) sha256_init blocks in
  flat_map (big_endian 4) [s.(sa); s.(sb); s.(sc); s.(sd); s.(se); s.(sf); s.(sg); s.(sh)].

(** Two digests of FIPS 180-4's examples. *)
Example Sum256_abc : hex_encode (Sum256 (octets_of "abc")) =
  "ba7816bf8f01cfea414140de5dae2223b00361a396177a9cb410ff61f20015ad"%string.
Proof. vm_compute. reflexivity. Qed.
Example Sum256_two_blocks : hex_encode (Sum256 (octets_of "abcdbcdecdefdefgefghfghighijhijkijkljklmklmnlmnomnopnopq")) =
  "248d6a61d20638b8e5c026930c3e6039a33ce45964ff2167f6ecedd419db06c1"%string.
Proof. vm_compute. reflexivity. Qed.

(** ** Facts *)

Ltac solve_divmod := zify; Z.to_euclidean_division_equations; lia.

Lemma octets_of_octets s : octets (octets_of s).
Proof. apply Forall_fmap, Forall_forall. intros c _. apply N_ascii_bounded. Qed.

(** A property of all numbers below a bound, checked one by one. *)
Lemma below_by_compute (p : N → bool) (bound : nat) :
  forallb (λ i, p (N.of_nat i)) (seq 0 bound) = true → ∀ n, n < N.of_nat bound → p n = true.
Proof.
  rewrite forallb_forall. intros H n Hn. rewrite <-(N2Nat.id n). apply H, in_seq. lia.
Qed.

Lemma base64url_alphabet n : n < 64 → base64url (base64url_char n) = Some n.
Proof.
  intros Hn. pose proof (below_by_compute (λ n, match base64url (base64url_char n) with Some m => m =? n | None => false end) 64
    ltac:(by vm_compute) n Hn) as H. cbv beta in H. destruct (base64url _); [|done]. by apply N.eqb_eq in H as ->.
Qed.

Lemma base64url_char_printable n :
  n < 64 → negb ((N_of_ascii (base64url_char n) =? 10) || (N_of_ascii (base64url_char n) =? 13)) = true.
Proof.
  apply (below_by_compute (λ n, negb ((N_of_ascii (base64url_char n) =? 10) || (N_of_ascii (base64url_char n) =? 13))) 64).
  by vm_compute.
Qed.

(** Recursion by groups of three bytes. *)
Lemma list_three_ind {A} (P : list A → Prop) :
  P [] → (∀ x, P [x]) → (∀ x y, P [x; y]) → (∀ x y z l, P l → P (x :: y :: z :: l)) → ∀ l, P l.
Proof.
  intros H0 H1 H2 H3. fix IH 1. intros [|x [|y [|z l]]]; [done | apply H1 | apply H2 | apply H3, IH].
Qed.

Lemma encode_sextets_bound l : octets l → Forall (λ s, s < 64) (encode_sextets l).
Proof.
  unfold octets. induction l as [|x|x y|x y z l IH] using list_three_ind; rewrite ?Forall_cons; intros H; cbn;
    rewrite ?Forall_cons; destruct_and?; repeat split; try apply IH; try done; solve_divmod.
Qed.

Lemma decode_encode_sextets l : octets l → decode_sextets (encode_sextets l) = Some l.
Proof.
  unfold octets. induction l as [|x|x y|x y z l IH] using list_three_ind; rewrite ?Forall_cons; intros H; destruct_and?.
  - done.
  - cbn. do 2 f_equal. solve_divmod.
  - cbn. f_equal. f_equal; [solve_divmod|]. f_equal. solve_divmod.
  - cbn [encode_sextets app decode_sextets]. rewrite IH by done. cbn. f_equal.
    f_equal; [solve_divmod|]. f_equal; [solve_divmod|]. f_equal. solve_divmod.
Qed.

(** Decoding an encoding gives the bytes back. *)
Lemma raw_url_roundtrip raw : octets raw → raw_url_decode (raw_url_encode raw) = Some raw.
Proof.
  intros H. unfold raw_url_decode, raw_url_encode. rewrite String.list_ascii_of_string_of_list_ascii.
  pose proof (encode_sextets_bound raw H) as Hb. rewrite <-(decode_encode_sextets raw H). revert Hb.
  generalize (encode_sextets raw). intros l Hb.
  assert (mapM base64url (List.filter (λ c, negb ((N_of_ascii c =? 10) || (N_of_ascii c =? 13))) (base64url_char <$> l)) = Some l)
    as ->; [|done].
  induction Hb as [|s l Hs _ IH]; [done|].
  cbn [fmap list_fmap List.filter]. rewrite base64url_char_printable by done.
  cbn [mapM]. rewrite base64url_alphabet by done. cbn. by rewrite IH.
Qed.

Lemma raw_url_encode_printable raw : octets raw →
  Forall (λ c, is_space c = false) (bytes_of (raw_url_encode raw)).
Proof.
  intros H. unfold raw_url_encode. rewrite String.list_ascii_of_string_of_list_ascii.
  apply Forall_fmap. eapply Forall_impl; [by apply encode_sextets_bound|].
  intros s Hs. cbn. apply negb_true_iff.
  by apply (below_by_compute (λ n, negb (is_space (base64url_char n))) 64).
Qed.

Lemma base64url_bound c n : base64url c = Some n → n < 64.
Proof.
  unfold base64url. repeat (case_match; [intros [= <-]; rewrite ?andb_true_iff, ?N.leb_le in *; lia|]). done.
Qed.

Lemma list_four_ind {A} (P : list A → Prop) :
  P [] → (∀ x, P [x]) → (∀ x y, P [x; y]) → (∀ x y z, P [x; y; z]) →
  (∀ w x y z l, P l → P (w :: x :: y :: z :: l)) → ∀ l, P l.
Proof.
  intros H0 H1 H2 H3 H4. fix IH 1.
  intros [|w [|x [|y [|z l]]]]; [done | apply H1 | apply H2 | apply H3 | apply H4, IH].
Qed.

(** What decodes is bytes. *)
Lemma decode_sextets_octets l raw : Forall (λ s, s < 64) l → decode_sextets l = Some raw → octets raw.
Proof.
  unfold octets. revert raw. induction l as [|x|x y|x y z|w x y z l IH] using list_four_ind; intros raw;
    rewrite ?Forall_cons; intros H; cbn; destruct_and?; try (intros [= <-]; repeat constructor; solve_divmod); try done.
  destruct (decode_sextets l) as [rest|]; [|done]. intros [= <-]. specialize (IH rest). repeat constructor; try solve_divmod. auto.
Qed.

Lemma raw_url_decode_octets s raw : raw_url_decode s = Some raw → octets raw.
Proof.
  unfold raw_url_decode. intros (l & Hl & Hd)%bind_Some. eapply decode_sextets_octets; [|done].
  apply mapM_Some in Hl. clear Hd. induction Hl; constructor; [by eapply base64url_bound | done].
Qed.

Lemma raw_url_encode_trim raw : octets raw → TrimSpace (raw_url_encode raw) = raw_url_encode raw.
Proof. intros H. by apply TrimSpace_id, raw_url_encode_printable. Qed.

Lemma raw_url_encode_inj raw raw' : octets raw → octets raw' → raw_url_encode raw = raw_url_encode raw' → raw = raw'.
Proof. intros H H' E. apply (f_equal raw_url_decode) in E. rewrite !raw_url_roundtrip in E by done. by simplify_eq. Qed.

Lemma big_endian_length n v : length (big_endian n v) = n.
Proof. revert v. induction n as [|n IH]; intros v; [done|]. cbn. rewrite length_app, IH. cbn. lia. Qed.

Lemma big_endian_octets n v : octets (big_endian n v).
Proof.
  unfold octets. revert v. induction n as [|n IH]; intros v; cbn [big_endian]; [done|].
  apply Forall_app_2; [done|]. repeat constructor. solve_divmod.
Qed.

Lemma big_endian_roundtrip n v : v < 256 ^ N.of_nat n → of_big_endian (big_endian n v) = v.
Proof.
  revert v. induction n as [|n IH]; intros v Hv; [cbn in *; lia|].
  cbn [big_endian]. unfold of_big_endian. rewrite foldl_app. fold (of_big_endian (big_endian n (v / 256))).
  rewrite Nat2N.inj_succ, N.pow_succ_r' in Hv. rewrite IH by (apply N.Div0.div_lt_upper_bound; lia). cbn. solve_divmod.
Qed.

Lemma Sum256_length msg : length (Sum256 msg) = 32%nat.
Proof. unfold Sum256. cbv zeta. cbn [flat_map]. by rewrite !length_app, !big_endian_length. Qed.

Lemma Sum256_octets msg : octets (Sum256 msg).
Proof.
  unfold Sum256, octets. cbv zeta. cbn [flat_map]. rewrite !Forall_app. split_and!; try apply big_endian_octets. constructor.
Qed.

Lemma uvarint_octets fuel v : octets (uvarint fuel v).
Proof.
  unfold octets. revert v. induction fuel as [|fuel IH]; intros v; cbn [uvarint]; [constructor|].
  destruct (N.ltb_spec v 128); constructor; [lia | constructor | solve_divmod | apply IH].
Qed.
