(* ===== verification/Crypto.v ===== *)
(** * Message authentication and encryption

    What the node agent uses of crypto/hmac (RFC 2104, with SHA-256),
    crypto/hkdf (RFC 5869), and crypto/aes with crypto/cipher's counter mode
    (FIPS 197 with 32-byte keys, SP 800-38A), on lists of bytes, each checked
    against a published example. *)

From S2P Require Import Prelude.
From S2P Require Import GoLib.
From S2P Require Import Codec.
Open Scope N_scope.

Definition xor_bytes (a b : list N) : list N := zip_with N.lxor a b.

(** ** crypto/hmac *)

Definition hmac_key (key : list N) : list N :=
  let key := if (64 <? length key)%nat then Sum256 key else key in
  key ++ repeat 0 (64 - length key).

(** [hmac.New(sha256.New, key)], written [msg], [Sum(nil)]. *)
Definition HMAC (key msg : list N) : list N :=
  let k := hmac_key key in
  Sum256 (((N.lxor 0x5c) <$> k) ++ Sum256 (((N.lxor 0x36) <$> k) ++ msg)).

(** RFC 4231, test case 2. *)
Example HMAC_rfc4231 : hex_encode (HMAC (octets_of "Jefe") (octets_of "what do ya want for nothing?"))
  = "5bdcc146bf60754e6a042426089575c75a003f089d2739839dec58b964ec3843"%string.
Proof. vm_compute. reflexivity. Qed.

(** ** crypto/hkdf *)

(** [hkdf.Key(sha256.New, secret, salt, info, 32)]. *)
Definition HKDF (secret salt info : list N) : list N := HMAC (HMAC salt secret) (info ++ [1]).

(** RFC 5869, the first 32 bytes of test case 1. *)
Example HKDF_rfc5869 :
  hex_encode (HKDF (repeat 11 22) [0;1;2;3;4;5;6;7;8;9;10;11;12] [240;241;242;243;244;245;246;247;248;249])
  = "3cb25f25faacd57a90434f64d0362f2a2d2d0a90cf1a5a4c5db02d56ecc4c5bf"%string.
Proof. vm_compute. reflexivity. Qed.

(** ** crypto/aes *)

Definition aes_sbox : list N :=
  [99; 124; 119; 123; 242; 107; 111; 197; 48; 1; 103; 43; 254; 215; 171; 118;
   202; 130; 201; 125; 250; 89; 71; 240; 173; 212; 162; 175; 156; 164; 114; 192;
   183; 253; 147; 38; 54; 63; 247; 204; 52; 165; 229; 241; 113; 216; 49; 21;
   4; 199; 35; 195; 24; 150; 5; 154; 7; 18; 128; 226; 235; 39; 178; 117;
   9; 131; 44; 26; 27; 110; 90; 160; 82; 59; 214; 179; 41; 227; 47; 132;
   83; 209; 0; 237; 32; 252; 177; 91; 106; 203; 190; 57; 74; 76; 88; 207;
   208; 239; 170; 251; 67; 77; 51; 133; 69; 249; 2; 127; 80; 60; 159; 168;
   81; 163; 64; 143; 146; 157; 56; 245; 188; 182; 218; 33; 16; 255; 243; 210;
   205; 12; 19; 236; 95; 151; 68; 23; 196; 167; 126; 61; 100; 93; 25; 115;
   96; 129; 79; 220; 34; 42; 144; 136; 70; 238; 184; 20; 222; 94; 11; 219;
   224; 50; 58; 10; 73; 6; 36; 92; 194; 211; 172; 98; 145; 149; 228; 121;
   231; 200; 55; 109; 141; 213; 78; 169; 108; 86; 244; 234; 101; 122; 174; 8;
   186; 120; 37; 46; 28; 166; 180; 198; 232; 221; 116; 31; 75; 189; 139; 138;
   112; 62; 181; 102; 72; 3; 246; 14; 97; 53; 87; 185; 134; 193; 29; 158;
   225; 248; 152; 17; 105; 217; 142; 148; 155; 30; 135; 233; 206; 85; 40; 223;
   140; 161; 137; 13; 191; 230; 66; 104; 65; 153; 45; 15; 176; 84; 187; 22].
Definition sub_byte (b : N) : N := nth (N.to_nat b) aes_sbox 0.

Definition xtime (b : N) : N := N.lxor (N.land (2 * b) 255) (if b <? 128 then 0 else 27).

(** The state is sixteen bytes, column by column. *)
Definition byte_at (s : list N) (i : nat) : N := nth i s 0.

Definition sub_bytes_shift_rows (s : list N) : list N :=
  (λ i, sub_byte (byte_at s ((i + 4 * (i mod 4)) mod 16)%nat)) <$> seq 0 16.

Definition mix_columns (s : list N) : list N :=
  (λ i, let col := (i - i mod 4)%nat in
        let at_row := λ r, byte_at s (col + (i + r) mod 4)%nat in
        let a := at_row 0%nat in let b := at_row 1%nat in
        N.lxor (N.lxor (xtime a) (N.lxor (xtime b) b)) (N.lxor (at_row 2%nat) (at_row 3%nat))) <$> seq 0 16.

Definition add_round_key (key s : list N) : list N := (λ i, N.lxor (byte_at s i) (byte_at key i)) <$> seq 0 16.

(** The next word of the key schedule; the words so far, the last first. *)
Definition next_word (words : list (list N)) (i : nat) : list (list N) :=
  let prev := nth 0 words [] in
  let temp := if (i mod 8 =? 0)%nat
              then xor_bytes (sub_byte <$> (drop 1 prev ++ take 1 prev)) [N.shiftl 1 (N.of_nat (i / 8 - 1)); 0; 0; 0]
              else if (i mod 8 =? 4)%nat then sub_byte <$> prev
              else prev in
  xor_bytes (nth 7 words []) temp :: words.
Definition round_keys (key : list N) : list (list N) :=
  chunks 15 16 (concat (rev (foldl next_word (rev (chunks 8 4 key)) (seq 8 52)))).

(** [block.Encrypt] of a 32-byte key: fourteen rounds. *)
Definition AES256 (key block : list N) : list N :=
  match round_keys key with
  | first :: rest =>
    let s := foldl (λ s k, add_round_key k (mix_columns (sub_bytes_shift_rows s))) (add_round_key first block) (take 13 rest) in
    add_round_key (nth 13 rest []) (sub_bytes_shift_rows s)
  | [] => add_round_key [] block
  end.

(** FIPS 197, appendix C.3. *)
Example AES256_fips197 :
  hex_encode (AES256 (N.of_nat <$> seq 0 32) ((λ i, 17 * N.of_nat i) <$> seq 0 16)) = "8ea2b7ca516745bfeafc49904b496089"%string.
Proof. vm_compute. reflexivity. Qed.

(** ** crypto/cipher *)

(** [cipher.NewCTR(block, nonce)]: a number that counts up from the nonce. *)
Definition counter_block (nonce : list N) (i : nat) : list N :=
  big_endian 16 ((of_big_endian nonce + N.of_nat i) mod 2 ^ 128).
Definition keystream (key nonce : list N) (n : nat) : list N :=
  flat_map (λ i, AES256 key (counter_block nonce i)) (seq 0 (n / 16 + 1)).
Definition CTR (key nonce data : list N) : list N := xor_bytes data (keystream key nonce (length data)).

(** SP 800-38A, F.5.5, the first two blocks. *)
Example CTR_sp800 :
  hex_encode (CTR (default [] (hex_decode "603deb1015ca71be2b73aef0857d77811f352c073b6108d72d9810a30914dff4"))
                  (default [] (hex_decode "f0f1f2f3f4f5f6f7f8f9fafbfcfdfeff"))
                  (default [] (hex_decode "6bc1bee22e409f96e93d7e117393172aae2d8a571e03ac9c9eb76fac45af8e51")))
  = "601ec313775789a5b7a7f504bbf3d228f443e3ca4d62b59aca84e990cacaf5c5"%string.
Proof. vm_compute. reflexivity. Qed.

(** ** Facts *)

Lemma HMAC_length key msg : length (HMAC key msg) = 32%nat.
Proof. apply Sum256_length. Qed.
Lemma HMAC_octets key msg : octets (HMAC key msg).
Proof. apply Sum256_octets. Qed.

Lemma AES256_length key block : length (AES256 key block) = 16%nat.
Proof. unfold AES256. destruct (round_keys key); unfold add_round_key; by rewrite length_fmap, length_seq. Qed.

Lemma keystream_length key nonce n : (n ≤ length (keystream key nonce n))%nat.
Proof.
  assert (H : ∀ l, length (flat_map (λ i, AES256 key (counter_block nonce i)) l) = (16 * length l)%nat).
  { induction l as [|i l IH]; [done|]. cbn [flat_map length]. rewrite length_app, AES256_length, IH. lia. }
  unfold keystream. rewrite H, length_seq. pose proof (Nat.div_mod_eq n 16). pose proof (Nat.mod_upper_bound n 16). lia.
Qed.

Lemma xor_bytes_twice a k : (length a ≤ length k)%nat → xor_bytes (xor_bytes a k) k = a.
Proof.
  revert k. induction a as [|x a IH]; intros [|y k] Hl; cbn in *; try done; [lia|]. unfold xor_bytes in *. cbn.
  rewrite IH by lia. f_equal. by rewrite N.lxor_assoc, N.lxor_nilpotent, N.lxor_0_r.
Qed.

Lemma CTR_length key nonce data : length (CTR key nonce data) = length data.
Proof. unfold CTR, xor_bytes. rewrite length_zip_with. pose proof (keystream_length key nonce (length data)). lia. Qed.

(** Decrypting is encrypting again. *)
Lemma CTR_twice key nonce data : CTR key nonce (CTR key nonce data) = data.
Proof. unfold CTR at 1. rewrite CTR_length. apply xor_bytes_twice, keystream_length. Qed.
