(* ===== verification/Json.v ===== *)
(** * encoding/json, as far as the store uses it

    A decoder for JSON text: values, the escapes of strings and number literals
    as in RFC 8259, and the conversion of a number literal to a Go [int] or
    [int64].  Go's replacement of invalid UTF-8 inside strings and its nesting
    limit of 10000 are not modelled. *)

From Stdlib Require Import Ascii.
From S2P Require Import Prelude.
From S2P Require Import GoLib.
Open Scope Z_scope.

#[warnings="-register-all"]
Inductive json :=
  | JNull
  | JBool (b : bool)
  | JNum (literal : list ascii)
  | JStr (s : string)
  | JArr (elements : list json)
  | JObj (members : list (string * json)).

Definition code (c : ascii) : N := N_of_ascii c.

(** The white space of JSON. *)
Definition json_space (c : ascii) : bool :=
  (code c =? 32)%N || (code c =? 9)%N || (code c =? 10)%N || (code c =? 13)%N.
Definition skip_ws (l : list ascii) : list ascii := drop_while json_space l.

Definition is_digit (c : ascii) : bool := ((48 <=? code c) && (code c <=? 57))%N.

Definition hex_value (c : ascii) : option N :=
  let n := code c in
  if ((48 <=? n) && (n <=? 57))%N then Some (n - 48)%N
  else if ((97 <=? n) && (n <=? 102))%N then Some (n - 87)%N
  else if ((65 <=? n) && (n <=? 70))%N then Some (n - 55)%N
  else None.

(** Four hexadecimal digits. *)
Definition hex4 (l : list ascii) : option (N * list ascii) :=
  match l with
  | a :: b :: c :: d :: l' =>
    match hex_value a, hex_value b, hex_value c, hex_value d with
    | Some a, Some b, Some c, Some d => Some (((a * 16 + b) * 16 + c) * 16 + d, l')%N
    | _, _, _, _ => None
    end
  | _ => None
  end.

(** The UTF-8 bytes of a code point. *)
Definition utf8 (n : N) : list ascii :=
  ascii_of_N <$>
  (if n <? 128 then [n]
   else if n <? 2048 then [192 + n / 64; 128 + n mod 64]
   else if n <? 65536 then [224 + n / 4096; 128 + n / 64 mod 64; 128 + n mod 64]
   else [240 + n / 262144; 128 + n / 4096 mod 64; 128 + n / 64 mod 64; 128 + n mod 64])%N.

Definition surrogate (n : N) : bool := ((55296 <=? n) && (n <? 57344))%N.

(** What a [\u] escape stands for, with the pair that may follow it: a lone or
    mismatched surrogate becomes U+FFFD. *)
Definition unicode_escape (l : list ascii) : option (list ascii * list ascii) :=
  match hex4 l with
  | None => None
  | Some (n, l') =>
    if negb (surrogate n) then Some (utf8 n, l')
    else match l' with
         | b :: u :: l'' =>
           if ((code b =? 92) && (code u =? 117))%N then
             match hex4 l'' with
             | Some (m, l3) =>
               if ((n <? 56320) && (56320 <=? m) && (m <? 57344))%N
               then Some (utf8 (65536 + (n - 55296) * 1024 + (m - 56320))%N, l3)
               else Some (utf8 65533, l')
             | None => Some (utf8 65533, l')
             end
           else Some (utf8 65533, l')
         | _ => Some (utf8 65533, l')
         end
  end.

(** A string after its opening quote. *)
Fixpoint parse_string (fuel : nat) (l : list ascii) : option (list ascii * list ascii) :=
  match fuel with
  | O => None
  | S fuel =>
    match l with
    | [] => None
    | c :: l' =>
      let n := code c in
      if (n =? 34)%N then Some ([], l')
      else if (n <? 32)%N then None
      else if (n =? 92)%N then
        match l' with
        | [] => None
        | e :: l'' =>
          let simple (x : N) :=
            '(s, rest) ← parse_string fuel l''; Some (ascii_of_N x :: s, rest) in
          let k := code e in
          if (k =? 34)%N then simple 34%N else if (k =? 92)%N then simple 92%N
          else if (k =? 47)%N then simple 47%N else if (k =? 98)%N then simple 8%N
          else if (k =? 102)%N then simple 12%N else if (k =? 110)%N then simple 10%N
          else if (k =? 114)%N then simple 13%N else if (k =? 116)%N then simple 9%N
          else if (k =? 117)%N then
            '(u, l3) ← unicode_escape l'';
            '(s, rest) ← parse_string fuel l3; Some (u ++ s, rest)
          else None
        end
      else '(s, rest) ← parse_string fuel l'; Some (c :: s, rest)
    end
  end.

Fixpoint take_while {A} (p : A → bool) (l : list A) : list A :=
  match l with
  | [] => []
  | x :: l' => if p x then x :: take_while p l' else []
  end.

(** A number literal: sign, integer part without a leading zero, fraction,
    exponent. *)
Definition parse_number (l : list ascii) : option (list ascii * list ascii) :=
  let '(sign, l1) :=
    match l with c :: l' => if (code c =? 45)%N then ([c], l') else ([], l) | [] => ([], l) end in
  let int := match l1 with
             | c :: _ => if (code c =? 48)%N then [c] else take_while is_digit l1
             | [] => [] end in
  if (length int =? 0)%nat then None else
  let l2 := drop (length int) l1 in
  '(frac, l3) ← match l2 with
    | c :: l' => if (code c =? 46)%N then
                   let ds := take_while is_digit l' in
                   if (length ds =? 0)%nat then None else Some (c :: ds, drop (length ds) l')
                 else Some ([], l2)
    | [] => Some ([], l2) end;
  '(exp, l4) ← match l3 with
    | c :: l' => if (code c =? 101)%N || (code c =? 69)%N then
                   let '(sg, l'') := match l' with
                     | d :: l'' => if (code d =? 43)%N || (code d =? 45)%N then ([d], l'') else ([], l')
                     | [] => ([], l') end in
                   let ds := take_while is_digit l'' in
                   if (length ds =? 0)%nat then None
                   else Some (c :: sg ++ ds, drop (length ds) l'')
                 else Some ([], l3)
    | [] => Some ([], l3) end;
  Some (sign ++ int ++ frac ++ exp, l4).

(** The rest of the input after a fixed word. *)
Fixpoint strip (w l : list ascii) : option (list ascii) :=
  match w, l with
  | [], _ => Some l
  | c :: w', d :: l' => if ascii_dec c d then strip w' l' else None
  | _, [] => None
  end.

Definition expect (n : N) (l : list ascii) : option (list ascii) :=
  match skip_ws l with
  | c :: l' => if (code c =? n)%N then Some l' else None
  | [] => None
  end.

Fixpoint parse_value (fuel : nat) (l : list ascii) : option (json * list ascii) :=
  match fuel with
  | O => None
  | S fuel =>
    let l := skip_ws l in
    match l with
    | [] => None
    | c :: l' =>
      let n := code c in
      if (n =? 34)%N then '(s, rest) ← parse_string (S (length l')) l'; Some (JStr (of_bytes s), rest)
      else if (n =? 123)%N then
        match expect 125 l' with
        | Some rest => Some (JObj [], rest)
        | None => '(ms, rest) ← parse_members fuel l'; Some (JObj ms, rest)
        end
      else if (n =? 91)%N then
        match expect 93 l' with
        | Some rest => Some (JArr [], rest)
        | None => '(es, rest) ← parse_elements fuel l'; Some (JArr es, rest)
        end
      else if (n =? 116)%N then rest ← strip (bytes_of "true") l; Some (JBool true, rest)
      else if (n =? 102)%N then rest ← strip (bytes_of "false") l; Some (JBool false, rest)
      else if (n =? 110)%N then rest ← strip (bytes_of "null") l; Some (JNull, rest)
      else '(lit, rest) ← parse_number l; Some (JNum lit, rest)
    end
  end
with parse_members (fuel : nat) (l : list ascii) : option (list (string * json) * list ascii) :=
  match fuel with
  | O => None
  | S fuel =>
    l1 ← expect 34 l;
    '(key, l2) ← parse_string (S (length l1)) l1;
    l3 ← expect 58 l2;
    '(v, l4) ← parse_value fuel l3;
    match expect 44 l4 with
    | Some l5 => '(ms, rest) ← parse_members fuel l5; Some ((of_bytes key, v) :: ms, rest)
    | None => rest ← expect 125 l4; Some ([(of_bytes key, v)], rest)
    end
  end
with parse_elements (fuel : nat) (l : list ascii) : option (list json * list ascii) :=
  match fuel with
  | O => None
  | S fuel =>
    '(v, l1) ← parse_value fuel l;
    match expect 44 l1 with
    | Some l2 => '(vs, rest) ← parse_elements fuel l2; Some (v :: vs, rest)
    | None => rest ← expect 93 l1; Some ([v], rest)
    end
  end.

(** A whole document: one value and nothing but white space after it.  Every
    call consumes a byte or is the first element of an array, so twice the
    length of the text is fuel enough. *)
Definition parse_json (text : string) : option json :=
  let l := bytes_of text in
  '(v, rest) ← parse_value (2 * length l + 2) l;
  match skip_ws rest with [] => Some v | _ :: _ => None end.

Definition digits_value (ds : list ascii) : Z :=
  fold_left (λ acc c, acc * 10 + (Z.of_N (code c) - 48)) ds 0.

(** [strconv.ParseInt(literal, 10, 64)] on a JSON number literal. *)
Definition number_int64 (lit : list ascii) : option Z :=
  let '(neg, ds) := match lit with
    | c :: l' => if (code c =? 45)%N then (true, l') else (false, lit)
    | [] => (false, []) end in
  if (length ds =? 0)%nat || negb (forallb is_digit ds) then None
  else let z := if neg : bool then - digits_value ds else digits_value ds in
       if is_int64 z then Some z else None.

(** ** Checks on concrete documents *)
Definition q : string := of_bytes [ascii_of_N 34].
Example parse_json_object :
  parse_json ("{" +:+ q +:+ "a" +:+ q +:+ ": [1, -20, null], " +:+ q +:+ "b" +:+ q +:+ ":{} }")
  = Some (JObj [("a", JArr [JNum (bytes_of "1"); JNum (bytes_of "-20"); JNull]); ("b", JObj [])])%string.
Proof. reflexivity. Qed.
Example parse_json_trailing : parse_json "1 2" = None.
Proof. reflexivity. Qed.
