(* ===== verification/Schema.v ===== *)
(** * The control plane's tables

    A table is a map from primary key to row ([id] is the key), or a list when
    rows only have a serial number; [NULL]able columns are options.  Columns
    keep their names, with two letters for their table in front.  The states
    that the schema restricts to a fixed list are inductive types; a runtime's
    status is free text, as in the schema.  [Db] is what the modelled
    operations read and change. *)

From S2P Require Import Prelude.
From S2P Require Import GoLib.
Open Scope Z_scope.

(** States of a provisioned VM (CHECK provisioned_vms_state). *)
Inductive VMState := Requested | Creating | Unlocking | Booting | Ready | Deleted.
(** What the control plane wants (CHECK provisioned_vms_desired). *)
Inductive Desired := Present | Absent.

#[export] Instance VMState_eq_dec : EqDecision VMState.
Proof. solve_decision. Defined.
#[export] Instance Desired_eq_dec : EqDecision Desired.
Proof. solve_decision. Defined.

(** accounts, schema.sql:1-22. *)
Record Account := MkAccount {
  ac_created_at : Z;
  ac_deleted_at : option Z;
  ac_runtime_region : string;
  ac_sia_registered_at : option Z;
  ac_sia_released_at : option Z;
  ac_deposit_index : option Z;
  ac_wallet_viewed_at : option Z;
  ac_storage_billed_on : option Z
}.
#[export] Instance Account_eta : Eta Account :=
  λ r, MkAccount (r.(ac_created_at)) (r.(ac_deleted_at)) (r.(ac_runtime_region))
    (r.(ac_sia_registered_at)) (r.(ac_sia_released_at)) (r.(ac_deposit_index))
    (r.(ac_wallet_viewed_at)) (r.(ac_storage_billed_on)).

(** account_entitlements, schema.sql:318-343. *)
Record Entitlement := MkEntitlement {
  en_source : string;
  en_status : string;
  en_runtime_limit : Z;
  en_active_runtime_limit : Z;
  en_runtime_starts_per_day : Z;
  en_storage_bytes_limit : Z;
  en_trial_runtime_seconds : Z;
  en_trial_runtime_seconds_used : Z;
  en_expires_at : option Z;
  en_created_at : Z;
  en_updated_at : Z
}.
#[export] Instance Entitlement_eta : Eta Entitlement :=
  λ r, MkEntitlement (r.(en_source)) (r.(en_status)) (r.(en_runtime_limit)) (r.(en_active_runtime_limit))
    (r.(en_runtime_starts_per_day)) (r.(en_storage_bytes_limit))
    (r.(en_trial_runtime_seconds)) (r.(en_trial_runtime_seconds_used)) (r.(en_expires_at))
    (r.(en_created_at)) (r.(en_updated_at)).

(** account_ledger, schema.sql:45-55. *)
Record LedgerRow := MkLedgerRow {
  le_account_id : string;
  le_kind : string;
  le_amount_micro : Z;
  le_reference : string;
  le_created_at : Z
}.
#[export] Instance LedgerRow_eta : Eta LedgerRow :=
  λ r, MkLedgerRow (r.(le_account_id)) (r.(le_kind)) (r.(le_amount_micro)) (r.(le_reference))
    (r.(le_created_at)).

(** usdt_deposits, schema.sql:30-38. *)
Record Deposit := MkDeposit {
  de_account_id : string;
  de_amount_micro : Z;
  de_block_time : Z;
  de_credited_at : Z
}.
#[export] Instance Deposit_eta : Eta Deposit :=
  λ r, MkDeposit (r.(de_account_id)) (r.(de_amount_micro)) (r.(de_block_time)) (r.(de_credited_at)).

(** runtimes, schema.sql:424-520. *)
Record Runtime := MkRuntime {
  rt_account_id : string;
  rt_name : string;
  rt_status : string;
  rt_desired_state : string;
  rt_connection_status : string;
  rt_host_id : option string;
  rt_persona_version : Z;
  rt_active_persona_json : option string;
  rt_android_image : string;
  rt_android_version : string;
  rt_width_px : Z;
  rt_height_px : Z;
  rt_density_dpi : Z;
  rt_audio_enabled : bool;
  rt_camera_mode : string;
  rt_file_mode : string;
  rt_blob_auto_snapshot : bool;
  rt_blob_retain_days : Z;
  rt_blob_store_kind : option string;
  rt_blob_manifest_json : option string;
  rt_blob_host_id : option string;
  rt_blob_last_snapshot_at : option Z;
  rt_started_at : option Z;
  rt_billed_through : option Z;
  rt_load_average : option Z;
  rt_container_name : option string;
  rt_adb_port : option Z;
  rt_viewer_port : option Z;
  rt_wipe_requested : bool;
  rt_cleanup_pending : bool;
  rt_operation_generation : Z;
  rt_last_error : option string;
  rt_deleted_at : option Z;
  rt_created_at : Z;
  rt_updated_at : Z;
  rt_blob_generation_floor : Z;
  rt_idle_timeout_seconds : Z;
  rt_egress_mode : string;
  rt_region_sealed : option string;
  rt_identity_reset_persona_version : option Z
}.
#[export] Instance Runtime_eta : Eta Runtime :=
  λ r, MkRuntime (r.(rt_account_id)) (r.(rt_name)) (r.(rt_status)) (r.(rt_desired_state))
    (r.(rt_connection_status)) (r.(rt_host_id)) (r.(rt_persona_version))
    (r.(rt_active_persona_json)) (r.(rt_android_image)) (r.(rt_android_version))
    (r.(rt_width_px)) (r.(rt_height_px)) (r.(rt_density_dpi)) (r.(rt_audio_enabled))
    (r.(rt_camera_mode)) (r.(rt_file_mode)) (r.(rt_blob_auto_snapshot))
    (r.(rt_blob_retain_days)) (r.(rt_blob_store_kind)) (r.(rt_blob_manifest_json))
    (r.(rt_blob_host_id)) (r.(rt_blob_last_snapshot_at)) (r.(rt_started_at))
    (r.(rt_billed_through)) (r.(rt_load_average)) (r.(rt_container_name)) (r.(rt_adb_port))
    (r.(rt_viewer_port)) (r.(rt_wipe_requested)) (r.(rt_cleanup_pending))
    (r.(rt_operation_generation)) (r.(rt_last_error)) (r.(rt_deleted_at))
    (r.(rt_created_at)) (r.(rt_updated_at)) (r.(rt_blob_generation_floor))
    (r.(rt_idle_timeout_seconds)) (r.(rt_egress_mode)) (r.(rt_region_sealed))
    (r.(rt_identity_reset_persona_version)).

(** runtime_logs, schema.sql:538-551. *)
Record RuntimeLog := MkRuntimeLog {
  lg_runtime_id : string;
  lg_source : string;
  lg_level : string;
  lg_message : string;
  lg_created_at : Z;
  lg_repeat_count : Z;
  lg_last_seen_at : option Z
}.
#[export] Instance RuntimeLog_eta : Eta RuntimeLog :=
  λ r, MkRuntimeLog (r.(lg_runtime_id)) (r.(lg_source)) (r.(lg_level)) (r.(lg_message)) (r.(lg_created_at))
    (r.(lg_repeat_count)) (r.(lg_last_seen_at)).

(** runtime_start_events, schema.sql:773-778. *)
Record StartEvent := MkStartEvent {
  ev_account_id : string;
  ev_runtime_id : string;
  ev_created_at : Z
}.
#[export] Instance StartEvent_eta : Eta StartEvent :=
  λ r, MkStartEvent (r.(ev_account_id)) (r.(ev_runtime_id)) (r.(ev_created_at)).

(** sessions, schema.sql:610-631. *)
Record Session := MkSession {
  se_runtime_id : string;
  se_device_id : option string;
  se_capability_id : option string;
  se_status : string;
  se_relay_token : string;
  se_created_at : Z;
  se_updated_at : Z;
  se_last_client_heartbeat_at : option Z;
  se_ended_at : option Z;
  se_end_reason : option string;
  se_expires_at : Z;
  se_relay_token_consumed_at : option Z
}.
#[export] Instance Session_eta : Eta Session :=
  λ r, MkSession (r.(se_runtime_id)) (r.(se_device_id)) (r.(se_capability_id)) (r.(se_status))
    (r.(se_relay_token)) (r.(se_created_at)) (r.(se_updated_at))
    (r.(se_last_client_heartbeat_at)) (r.(se_ended_at)) (r.(se_end_reason))
    (r.(se_expires_at)) (r.(se_relay_token_consumed_at)).

(** runtime_capabilities, schema.sql:583-600. *)
Record Capability := MkCapability {
  ca_account_id : string;
  ca_runtime_id : string;
  ca_public_key : string;
  ca_scopes : string;
  ca_created_at : Z;
  ca_updated_at : Z;
  ca_expires_at : Z;
  ca_revoked_at : option Z;
  ca_last_used_at : option Z
}.
#[export] Instance Capability_eta : Eta Capability :=
  λ r, MkCapability (r.(ca_account_id)) (r.(ca_runtime_id)) (r.(ca_public_key)) (r.(ca_scopes))
    (r.(ca_created_at)) (r.(ca_updated_at)) (r.(ca_expires_at)) (r.(ca_revoked_at))
    (r.(ca_last_used_at)).

(** devices, schema.sql:204-215. *)
Record Device := MkDevice {
  dv_account_id : string;
  dv_name : string;
  dv_public_key : string;
  dv_blob_key_verifier : option string;
  dv_revoked_at : option Z;
  dv_created_at : Z;
  dv_last_seen_at : option Z
}.
#[export] Instance Device_eta : Eta Device :=
  λ r, MkDevice (r.(dv_account_id)) (r.(dv_name)) (r.(dv_public_key)) (r.(dv_blob_key_verifier))
    (r.(dv_revoked_at)) (r.(dv_created_at)) (r.(dv_last_seen_at)).

(** hosts, schema.sql:81-124. *)
Record Host := MkHost {
  ho_name : string;
  ho_advertise_addr : string;
  ho_relay_port : Z;
  ho_docker_socket : bool;
  ho_binder : bool;
  ho_audio_streaming : bool;
  ho_file_import : bool;
  ho_camera_passthrough : bool;
  ho_camera_slots : Z;
  ho_public_key : string;
  ho_blob_store_kind : string;
  ho_public_addr : string;
  ho_tls_spki_sha256 : string;
  ho_region : string;
  ho_snp_attestation : string;
  ho_storage_preflight_kind : option string;
  ho_storage_preflight_status : option string;
  ho_storage_preflight_json : option string;
  ho_storage_preflight_at : option Z;
  ho_storage_wallet_address : option string;
  ho_created_at : Z;
  ho_updated_at : Z;
  ho_last_heartbeat_at : Z
}.
#[export] Instance Host_eta : Eta Host :=
  λ r, MkHost (r.(ho_name)) (r.(ho_advertise_addr)) (r.(ho_relay_port)) (r.(ho_docker_socket))
    (r.(ho_binder)) (r.(ho_audio_streaming)) (r.(ho_file_import))
    (r.(ho_camera_passthrough)) (r.(ho_camera_slots)) (r.(ho_public_key))
    (r.(ho_blob_store_kind)) (r.(ho_public_addr)) (r.(ho_tls_spki_sha256)) (r.(ho_region))
    (r.(ho_snp_attestation)) (r.(ho_storage_preflight_kind)) (r.(ho_storage_preflight_status))
    (r.(ho_storage_preflight_json)) (r.(ho_storage_preflight_at)) (r.(ho_storage_wallet_address))
    (r.(ho_created_at)) (r.(ho_updated_at))
    (r.(ho_last_heartbeat_at)).

(** node_operators, schema.sql:137-145. *)
Record NodeOperator := MkNodeOperator {
  op_name : string;
  op_status : string;
  op_approved_at : Z;
  op_revoked_at : option Z;
  op_created_at : Z;
  op_updated_at : Z
}.
#[export] Instance NodeOperator_eta : Eta NodeOperator :=
  λ r, MkNodeOperator (r.(op_name)) (r.(op_status)) (r.(op_approved_at)) (r.(op_revoked_at))
    (r.(op_created_at)) (r.(op_updated_at)).

(** approved_nodes, schema.sql:147-156. *)
Record ApprovedNode := MkApprovedNode {
  nd_operator_id : string;
  nd_status : string;
  nd_active_key_version : Z;
  nd_approved_at : Z;
  nd_revoked_at : option Z;
  nd_created_at : Z;
  nd_updated_at : Z
}.
#[export] Instance ApprovedNode_eta : Eta ApprovedNode :=
  λ r, MkApprovedNode (r.(nd_operator_id)) (r.(nd_status)) (r.(nd_active_key_version)) (r.(nd_approved_at))
    (r.(nd_revoked_at)) (r.(nd_created_at)) (r.(nd_updated_at)).

(** approved_node_keys, schema.sql:158-170. *)
Record NodeKey := MkNodeKey {
  nk_public_key : string;
  nk_fingerprint_sha256 : string;
  nk_state : string;
  nk_valid_from : Z;
  nk_valid_until : option Z;
  nk_retired_at : option Z;
  nk_created_at : Z
}.
#[export] Instance NodeKey_eta : Eta NodeKey :=
  λ r, MkNodeKey (r.(nk_public_key)) (r.(nk_fingerprint_sha256)) (r.(nk_state)) (r.(nk_valid_from))
    (r.(nk_valid_until)) (r.(nk_retired_at)) (r.(nk_created_at)).

(** node_registry_audit and operator_registry_audit, schema.sql:172-191. *)
Record AuditRow := MkAuditRow {
  au_node_id : option string;
  au_operator_id : string;
  au_action : string;
  au_actor : string;
  au_reason : string;
  au_key_version : option Z;
  au_fingerprint_sha256 : option string
}.
#[export] Instance AuditRow_eta : Eta AuditRow :=
  λ r, MkAuditRow (r.(au_node_id)) (r.(au_operator_id)) (r.(au_action)) (r.(au_actor)) (r.(au_reason))
    (r.(au_key_version)) (r.(au_fingerprint_sha256)).

(** provisioned_vms, schema.sql:820-848. *)
Record ProvisionedVM := MkProvisionedVM {
  vm_account_id : option string;
  vm_region : string;
  vm_state : VMState;
  vm_desired : Desired;
  vm_item_hash : string;
  vm_crn_hash : string;
  vm_public_ip : string;
  vm_node_public_key : string;
  vm_failure : string;
  vm_retire_reason : string;
  vm_progress : string;
  vm_refusal : string;
  vm_requested_at : Z;
  vm_state_changed_at : Z;
  vm_ready_at : option Z;
  vm_last_used_at : Z;
  vm_deleted_at : option Z
}.
#[export] Instance ProvisionedVM_eta : Eta ProvisionedVM :=
  λ r, MkProvisionedVM (r.(vm_account_id)) (r.(vm_region)) (r.(vm_state)) (r.(vm_desired)) (r.(vm_item_hash))
    (r.(vm_crn_hash)) (r.(vm_public_ip)) (r.(vm_node_public_key)) (r.(vm_failure))
    (r.(vm_retire_reason)) (r.(vm_progress)) (r.(vm_refusal)) (r.(vm_requested_at))
    (r.(vm_state_changed_at)) (r.(vm_ready_at)) (r.(vm_last_used_at)) (r.(vm_deleted_at)).

(** app_catalog, schema.sql:357-378, without the created_at and updated_at columns. *)
Record CatalogApp := MkCatalogApp {
  ap_source : string;
  ap_display_name : string;
  ap_summary : string;
  ap_icon_url : string;
  ap_version_name : string;
  ap_version_code : Z;
  ap_apk_url : string;
  ap_apk_sha256 : string;
  ap_apk_size_bytes : Z;
  ap_min_sdk : Z;
  ap_native_code : string;
  ap_license : string;
  ap_categories_json : string;
  ap_anti_features_json : string;
  ap_recommended : bool;
  ap_enabled : bool;
  ap_catalog_updated_at : Z
}.

(** runtime_blob_key_handoffs, schema.sql:739-751. *)
Record Handoff := MkHandoff {
  hf_account_id : string;
  hf_host_id : string;
  hf_operation : string;
  hf_lease_id : string;
  hf_envelope_json : option string;
  hf_blob_key_verifier : option string;
  hf_expires_at : Z;
  hf_activated_at : option Z;
  hf_created_at : Z;
  hf_updated_at : Z
}.
#[export] Instance Handoff_eta : Eta Handoff :=
  λ r, MkHandoff (r.(hf_account_id)) (r.(hf_host_id)) (r.(hf_operation)) (r.(hf_lease_id))
    (r.(hf_envelope_json)) (r.(hf_blob_key_verifier)) (r.(hf_expires_at)) (r.(hf_activated_at))
    (r.(hf_created_at)) (r.(hf_updated_at)).

(** bootstrap_invitations, schema.sql:60-76. *)
Record Invitation := MkInvitation {
  iv_token_sha256 : string;
  iv_label : string;
  iv_created_by : string;
  iv_expires_at : Z;
  iv_consumed_at : option Z;
  iv_consumed_account_id : option string;
  iv_created_at : Z
}.
#[export] Instance Invitation_eta : Eta Invitation :=
  λ r, MkInvitation (r.(iv_token_sha256)) (r.(iv_label)) (r.(iv_created_by)) (r.(iv_expires_at))
    (r.(iv_consumed_at)) (r.(iv_consumed_account_id)) (r.(iv_created_at)).

(** What a phone registers to recover its account (account_recovery_credentials,
    without the columns that count failures). *)
Record AccountRecoveryCredential := MkRecoveryCredential {
  rc_AccountID : string;
  rc_Version : Z;
  rc_KDFAlgorithm : string;
  rc_KDFSalt : string;
  rc_KDFIterations : Z;
  rc_EnvelopeAlgorithm : string;
  rc_EnvelopeIV : string;
  rc_EnvelopeCiphertext : string;
  rc_RecoveryPublicKey : string;
  rc_BlobKeyVerifier : string;
  rc_KDFMemoryKiB : Z;
  rc_AuthVerifier : string;
  rc_CreatedAt : Z;
  rc_UpdatedAt : Z
}.
#[export] Instance AccountRecoveryCredential_eta : Eta AccountRecoveryCredential :=
  λ r, MkRecoveryCredential (r.(rc_AccountID)) (r.(rc_Version)) (r.(rc_KDFAlgorithm)) (r.(rc_KDFSalt))
    (r.(rc_KDFIterations)) (r.(rc_EnvelopeAlgorithm)) (r.(rc_EnvelopeIV)) (r.(rc_EnvelopeCiphertext))
    (r.(rc_RecoveryPublicKey)) (r.(rc_BlobKeyVerifier)) (r.(rc_KDFMemoryKiB)) (r.(rc_AuthVerifier))
    (r.(rc_CreatedAt)) (r.(rc_UpdatedAt)).

(** account_recovery_credentials: the credential, [failed_auth_attempts] and
    [auth_locked_until]. *)
Record RecoveryRow := MkRecoveryRow {
  rr_credential : AccountRecoveryCredential;
  rr_failed_auth_attempts : Z;
  rr_auth_locked_until : option Z
}.
#[export] Instance RecoveryRow_eta : Eta RecoveryRow :=
  λ r, MkRecoveryRow (r.(rr_credential)) (r.(rr_failed_auth_attempts)) (r.(rr_auth_locked_until)).

(** account_recovery_challenges. *)
Record RecoveryChallenge := MkRecoveryChallenge {
  ch_account_id : string;
  ch_device_id : string;
  ch_device_name : string;
  ch_device_public_key : string;
  ch_nonce : string;
  ch_expires_at : Z;
  ch_consumed_at : option Z;
  ch_created_at : Z
}.
#[export] Instance RecoveryChallenge_eta : Eta RecoveryChallenge :=
  λ r, MkRecoveryChallenge (r.(ch_account_id)) (r.(ch_device_id)) (r.(ch_device_name)) (r.(ch_device_public_key))
    (r.(ch_nonce)) (r.(ch_expires_at)) (r.(ch_consumed_at)) (r.(ch_created_at)).

(** The database.  [app_selections] maps a runtime and a package
    (runtime_app_selections, schema.sql:570-575) to [selected_at].  [ledger], [runtime_logs], [start_events] and [audit] are in
    insertion order, the order of their serial numbers; [capability_nonces], [device_nonces] and
    [node_nonces] map a request nonce of a capability, of a device of an account and of a node
    to its expiry; [handoffs] is keyed by runtime, [recovery] by account. *)
Record Db := MkDb {
  db_accounts : gmap string Account;
  db_entitlements : gmap string Entitlement;
  db_ledger : list LedgerRow;
  db_deposits : gmap (string * string) Deposit;
  db_deposit_index_seq : Z;
  db_runtimes : gmap string Runtime;
  db_runtime_logs : list RuntimeLog;
  db_start_events : list StartEvent;
  db_sessions : gmap string Session;
  db_capabilities : gmap string Capability;
  db_capability_nonces : gmap (string * string) Z;
  db_devices : gmap string Device;
  db_hosts : gmap string Host;
  db_operators : gmap string NodeOperator;
  db_nodes : gmap string ApprovedNode;
  db_node_keys : gmap (string * Z) NodeKey;
  db_audit : list AuditRow;
  db_vms : gmap string ProvisionedVM;
  db_app_catalog : gmap string CatalogApp;
  db_app_selections : gmap (string * string) Z;
  db_device_nonces : gmap (string * string * string) Z;
  db_node_nonces : gmap (string * string) Z;
  db_handoffs : gmap string Handoff;
  db_invitations : gmap string Invitation;
  db_recovery : gmap string RecoveryRow;
  db_recovery_challenges : gmap string RecoveryChallenge
}.
#[export] Instance Db_eta : Eta Db :=
  λ r, MkDb (r.(db_accounts)) (r.(db_entitlements)) (r.(db_ledger)) (r.(db_deposits))
    (r.(db_deposit_index_seq)) (r.(db_runtimes)) (r.(db_runtime_logs))
    (r.(db_start_events)) (r.(db_sessions)) (r.(db_capabilities))
    (r.(db_capability_nonces)) (r.(db_devices)) (r.(db_hosts)) (r.(db_operators))
    (r.(db_nodes)) (r.(db_node_keys)) (r.(db_audit)) (r.(db_vms))
    (r.(db_app_catalog)) (r.(db_app_selections)) (r.(db_device_nonces)) (r.(db_node_nonces))
    (r.(db_handoffs)) (r.(db_invitations)) (r.(db_recovery)) (r.(db_recovery_challenges)).

Definition empty_db : Db :=
  MkDb ∅ ∅ [] ∅ 1 ∅ [] [] ∅ ∅ ∅ ∅ ∅ ∅ ∅ ∅ [] ∅ ∅ ∅ ∅ ∅ ∅ ∅ ∅ ∅.

(** ** Errors *)

(** The store's errors, by the names of their variables in [store.go],
    [billing.go], [wallet.go] and [provisioning.go].  [ErrText] is an error made
    on the spot with [errors.New] or [fmt.Errorf]; [ErrUnique] and [ErrCheck]
    are the database refusing a row that breaks a unique index or a CHECK. *)
Inductive Err :=
  | ErrNoReadyHost | ErrDeviceNotFound | ErrRuntimeNotFound | ErrRuntimeNotReady
  | ErrSessionNotFound | ErrSessionAlreadyActive | ErrHostNotFound
  | ErrRuntimeEntitlement | ErrRuntimeQuota | ErrRuntimeActiveQuota | ErrRuntimeStartQuota
  | ErrRuntimeTrialTimeQuota | ErrRuntimeStorageQuota | ErrRuntimeSnapshotRollback
  | ErrRuntimeMediaSettingsActive | ErrRuntimeEgressActive | ErrRuntimeRegion
  | ErrAppSelection (message : string)
  | ErrRuntimeBalance | ErrRuntimeProfile | ErrRuntimeIdleTimeout | ErrRuntimeEgressMode
  | ErrAccountNotFound | ErrDepositAccountNotFound | ErrRuntimeBlobOwner
  | ErrRuntimeCleanupPending | ErrRuntimeObservationStale
  | ErrRuntimeCapability | ErrRuntimeCapabilityReplay
  | ErrApprovedNodeNotFound | ErrApprovedNodeExists | ErrApprovedNodeRevoked
  | ErrNodeOperatorNotFound | ErrNodeOperatorRevoked | ErrNodeKeyRotationOverlap
  | ErrNodeKeyAlreadyActive
  | ErrProvisioningCapacity | ErrTrialVMCapacity | ErrTrialVMRate
  | ErrProvisionedVMNotFound | ErrProvisionedVMTransition
  | ErrLastActiveDevice | ErrDeviceRequestReplay | ErrNodeRequestReplay | ErrRuntimeBlobKeyHandoff
  | ErrBootstrapInviteInvalid | ErrIdentityKeyRequired | ErrIdentityAuthFailed | ErrIdentityAlreadySet
  | ErrIdentityNotFound
  | ErrRecoveryNotConfigured | ErrRecoveryAlreadyConfigured | ErrRecoveryChallengeInvalid | ErrRecoveryDeviceExists
  | ErrRecoveryLoginFailed | ErrRecoveryLoginRequired | ErrRecoveryLocked | ErrRecoveryUpgradeRequired
  | ErrRecoveryDowngrade
  | ErrNoRows | ErrText (message : string) | ErrUnique (index : string) | ErrCheck (column : string).

#[export] Instance Err_eq_dec : EqDecision Err.
Proof. solve_decision. Defined.

(** A store operation: it runs against the database and may fail. *)
Abbreviation Tx := (M Db Err).

(** A live row: [deleted_at IS NULL]. *)
Definition rt_live (r : Runtime) : bool := is_null r.(rt_deleted_at).

(** ** Column defaults *)

(** A new row of each table with the schema's defaults; columns without a
    default are arguments. *)
Definition default_account (now : Z) : Account := MkAccount now None "" None None None None None.
Definition default_entitlement (now : Z) : Entitlement :=
  MkEntitlement "trial" "active" 1 1 10 1073741824 3600 0 None now now.
Definition default_runtime (account status : string) (now : Z) : Runtime :=
  MkRuntime account "Primary runtime" status "stopped" "offline" None 1 None
    "redroid/redroid:14.0.0_64only-latest" "android-14" 720 1600 320 true "photo-import" "upload-only"
    true 7 None None None None None None None None None None false false 1 None None now now 0 1800
    "direct" None None.
Definition default_vm (account : option string) (region : string) (now : Z) : ProvisionedVM :=
  MkProvisionedVM account region Requested Present "" "" "" "" "" "" "" "" now now None now None.
Definition default_operator (name : string) (now : Z) : NodeOperator :=
  MkNodeOperator name "approved" now None now now.
