(* ===== verification/Manifests.v ===== *)
(** * Stored snapshot manifests

    What the store reads of a runtime's snapshot manifest: its size for storage
    quotas and charges ([storedBlobManifestBytes]), and whether a reported
    manifest may follow the stored one ([validateStoredBlobManifestAdvance]).
    Models store.go:7120-7169 and 7823-7943. *)

From Stdlib Require Import Ascii.
From S2P Require Import Prelude.
From S2P Require Import GoLib.
From S2P Require Import Json.
From S2P Require Import Schema.
Open Scope Z_scope.

Definition maxStoredBlobManifestBytes : Z := 2 * 2 ^ 20.
Definition maxStoredBlobSnapshotBytes : Z := 16 * 2 ^ 30.

(** A chunk only has its size. *)
#[warnings="-register-all"]
Inductive storedBlobManifestUsage := Manifest {
  mf_version : Z;
  mf_snapshot_id : string;
  mf_generation : Z;
  mf_total_bytes : Z;
  mf_chunks : list Z;
  mf_migration_fallback : option storedBlobManifestUsage
}.

#[export] Instance manifest_eta : Eta storedBlobManifestUsage :=
  λ r, Manifest (r.(mf_version)) (r.(mf_snapshot_id)) (r.(mf_generation)) (r.(mf_total_bytes))
         (r.(mf_chunks)) (r.(mf_migration_fallback)).

(** ** json.Unmarshal into the struct *)

(** A scalar member: [null] leaves the field as it was, another type is an error. *)
Definition decode_int (v : json) (old : Z) : option Z :=
  match v with JNull => Some old | JNum lit => number_int64 lit | _ => None end.
Definition decode_string (v : json) (old : string) : option string :=
  match v with JNull => Some old | JStr s => Some s | _ => None end.

(** A chunk object: only [size] is read. *)
Definition decode_chunk (v : json) : option Z :=
  match v with
  | JNull => Some 0
  | JObj ms =>
    fold_left (λ acc kv, size ← acc; if EqualFold kv.1 "size" then decode_int kv.2 size else Some size)
      ms (Some 0)
  | _ => None
  end.

Definition decode_chunks (v : json) : option (list Z) :=
  match v with JNull => Some [] | JArr vs => mapM decode_chunk vs | _ => None end.

Definition zero_manifest : storedBlobManifestUsage := Manifest 0 "" 0 0 [] None.

(** An object's members set the fields they name, whatever the case of the
    name; a repeated member replaces what the first one set. *)
Fixpoint decode_manifest (v : json) : option storedBlobManifestUsage :=
  match v with
  | JNull => Some zero_manifest
  | JObj ms =>
    (fix members (ms : list (string * json)) (m : storedBlobManifestUsage) :=
       match ms with
       | [] => Some m
       | (k, v) :: ms' =>
         m' ← (if EqualFold k "version" then
                 x ← decode_int v m.(mf_version); Some (m <| mf_version := x |>)
               else if EqualFold k "snapshot_id" then
                 x ← decode_string v m.(mf_snapshot_id); Some (m <| mf_snapshot_id := x |>)
               else if EqualFold k "generation" then
                 x ← decode_int v m.(mf_generation); Some (m <| mf_generation := x |>)
               else if EqualFold k "total_bytes" then
                 x ← decode_int v m.(mf_total_bytes); Some (m <| mf_total_bytes := x |>)
               else if EqualFold k "chunks" then
                 x ← decode_chunks v; Some (m <| mf_chunks := x |>)
               else if EqualFold k "migration_fallback" then
                 match v with
                 | JNull => Some (m <| mf_migration_fallback := None |>)
                 | _ => x ← decode_manifest v; Some (m <| mf_migration_fallback := Some x |>)
                 end
               else Some m);
         members ms' m'
       end) ms zero_manifest
  | _ => None
  end.

(** ** Sizes *)

(** The loop over the chunks: a size out of range or an overflow is an error. *)
Fixpoint chunk_total (chunks : list Z) (total : Z) : Err + Z :=
  match chunks with
  | [] => inr total
  | size :: rest =>
    if (size <=? 0) || (16 * 2 ^ 20 <? size) then inl (ErrText "blob manifest has invalid chunk size")
    else if max_int64 - size <? total then inl (ErrText "blob manifest chunk usage overflows")
    else chunk_total rest (total + size)
  end.

Fixpoint storedBlobManifestBytesAtDepth (m : storedBlobManifestUsage) (depth : nat) : Err + Z :=
  if (1 <? depth)%nat then inl (ErrText "blob manifest migration fallback is nested too deeply")
  else if (m.(mf_version) <? 1) || (3 <? m.(mf_version)) then
    inl (ErrText "blob manifest has unsupported version")
  else if TrimSpace m.(mf_snapshot_id) =?s "" then inl (ErrText "blob manifest has no snapshot id")
  else if m.(mf_generation) <? 0 then inl (ErrText "blob manifest has an invalid generation")
  else if (m.(mf_total_bytes) <=? 0) || (maxStoredBlobSnapshotBytes <? m.(mf_total_bytes)) then
    inl (ErrText "blob manifest has invalid total size")
  else if (length m.(mf_chunks) =? 0)%nat
          || (maxStoredBlobSnapshotBytes / (4 * 2 ^ 20) <? Z.of_nat (length m.(mf_chunks))) then
    inl (ErrText "blob manifest has invalid chunk count")
  else match chunk_total m.(mf_chunks) 0 with
  | inl e => inl e
  | inr chunkTotal =>
    if negb (chunkTotal =? m.(mf_total_bytes)) then
      inl (ErrText "blob manifest chunk total does not match total size")
    else match m.(mf_migration_fallback) with
    | None => inr m.(mf_total_bytes)
    | Some fb =>
      match storedBlobManifestBytesAtDepth fb (S depth) with
      | inl e => inl e
      | inr fallbackBytes =>
        if max_int64 - fallbackBytes <? m.(mf_total_bytes) then
          inl (ErrText "blob manifest storage usage overflows")
        else inr (m.(mf_total_bytes) + fallbackBytes)
      end
    end
  end.

(** [None] is the nil manifest of an empty column. *)
Definition parseStoredBlobManifestUsage (raw : string) : Err + option storedBlobManifestUsage :=
  let raw := TrimSpace raw in
  if raw =?s "" then inr None
  else if maxStoredBlobManifestBytes <? str_len raw then
    inl (ErrText "blob manifest exceeds the maximum encoded size")
  else match parse_json raw ≫= decode_manifest with
  | None => inl (ErrText "decode blob manifest storage usage")
  | Some m =>
    match storedBlobManifestBytesAtDepth m 0 with
    | inl e => inl e
    | inr _ => inr (Some m)
    end
  end.

Definition storedBlobManifestBytes (raw : string) : Err + Z :=
  match parseStoredBlobManifestUsage raw with
  | inl e => inl e
  | inr None => inr 0
  | inr (Some m) => storedBlobManifestBytesAtDepth m 0
  end.

(** The rows [accountStorageBytesUsed] and the quota check read: the account's
    live runtimes with a manifest. *)
Definition has_stored_blob (account : string) (r : Runtime) : bool :=
  (r.(rt_account_id) =?s account) && rt_live r && present r.(rt_blob_manifest_json).

(** Adds one runtime's stored bytes to a running total. *)
Definition add_stored_bytes (acc : Err + Z) (r : Runtime) : Err + Z :=
  match acc with
  | inl e => inl e
  | inr total =>
    match storedBlobManifestBytes (coalesce r.(rt_blob_manifest_json) "") with
    | inl e => inl e
    | inr b => if max_int64 - b <? total then inl (ErrText "account storage usage overflows")
               else inr (total + b)
    end
  end.

Definition accountStorageBytesUsed (accountID : string) (db : Db) : Err + Z :=
  fold_left add_stored_bytes
    (select (λ _ r, has_stored_blob (TrimSpace accountID) r) db.(db_runtimes)).*2 (inr 0).

(** ** Generations *)

Definition digits_18 (l : list ascii) : list ascii := take 18 (take_while is_digit l).

(** A match of ["generation"\s*:\s*([0-9]{1,18})] at the head of the text. *)
Definition generation_here (l : list ascii) : option Z :=
  l1 ← strip (ascii_of_N 34 :: bytes_of "generation" ++ [ascii_of_N 34]) l;
  l2 ← strip [":"%char] (drop_while is_space l1);
  match digits_18 (drop_while is_space l2) with
  | [] => None
  | ds => Some (digits_value ds)
  end.

(** [regexp_matches(..., 'g')]: no match can start inside another, so every
    position is tried. *)
Fixpoint generations (l : list ascii) : list Z :=
  match l with
  | [] => []
  | _ :: l' => match generation_here l with Some g => g :: generations l' | None => generations l' end
  end.

(** [COALESCE(MAX(...), 0)]. *)
Definition manifestGenerationSQL (manifest : option string) : Z :=
  foldr Z.max 0 (generations (bytes_of (coalesce manifest ""))).

Definition validateStoredBlobManifestAdvance (currentRaw : string)
    (incoming : option storedBlobManifestUsage) : Err + unit :=
  match incoming with
  | None => inl ErrRuntimeSnapshotRollback
  | Some inc =>
    if negb (inc.(mf_version) =? 3) || (inc.(mf_generation) <=? 0)
       || (TrimSpace inc.(mf_snapshot_id) =?s "") then inl ErrRuntimeSnapshotRollback
    else match parseStoredBlobManifestUsage currentRaw with
    | inl e => inl e
    | inr None =>
      if negb (inc.(mf_generation) =? 1) then inl ErrRuntimeSnapshotRollback else inr tt
    | inr (Some cur) =>
      if inc.(mf_snapshot_id) =?s cur.(mf_snapshot_id) then
        if negb (inc.(mf_generation) =? cur.(mf_generation)) then inl ErrRuntimeSnapshotRollback
        else inr tt
      else if (cur.(mf_generation) =? max_int64)
              || negb (inc.(mf_generation) =? cur.(mf_generation) + 1) then
        inl ErrRuntimeSnapshotRollback
      else inr tt
    end
  end.

(** ** Concrete documents *)

(** [jq s] is [s] as a JSON string literal, for examples. *)
Definition jq (s : string) : string := q +:+ s +:+ q.

Definition sample_manifest (snapshot : string) (generation : Z) (size : Z) : string :=
  "{" +:+ jq "version" +:+ ":3," +:+ jq "snapshot_id" +:+ ":" +:+ jq snapshot
  +:+ "," +:+ jq "generation" +:+ ":" +:+ fmt_d generation
  +:+ "," +:+ jq "total_bytes" +:+ ":" +:+ fmt_d size
  +:+ "," +:+ jq "chunks" +:+ ":[{" +:+ jq "size" +:+ ":" +:+ fmt_d size +:+ "}]}".

Example sample_bytes : storedBlobManifestBytes (sample_manifest "s1" 4 4096) = inr 4096.
Proof. vm_compute. reflexivity. Qed.
Example sample_generation : manifestGenerationSQL (Some (sample_manifest "s1" 41 4096)) = 41.
Proof. vm_compute. reflexivity. Qed.

(** ** Facts *)

Definition chunk_sum (chunks : list Z) : Z := foldr Z.add 0 chunks.

(** What a snapshot must look like to be accepted. *)
Definition valid_snapshot (m : storedBlobManifestUsage) : Prop :=
  1 ≤ m.(mf_version) ≤ 3 ∧ TrimSpace m.(mf_snapshot_id) ≠ "" ∧ 0 ≤ m.(mf_generation)
  ∧ (0 < length m.(mf_chunks) ≤ 4096)%nat
  ∧ Forall (λ size, 0 < size ≤ 16 * 2 ^ 20) m.(mf_chunks)
  ∧ chunk_sum m.(mf_chunks) = m.(mf_total_bytes) ∧ m.(mf_total_bytes) ≤ maxStoredBlobSnapshotBytes.

(** A manifest is a snapshot with at most one older one to fall back to. *)
Definition valid_manifest (m : storedBlobManifestUsage) : Prop :=
  valid_snapshot m
  ∧ match m.(mf_migration_fallback) with
    | None => True
    | Some fb => valid_snapshot fb ∧ fb.(mf_migration_fallback) = None
    end.

Definition stored_bytes (m : storedBlobManifestUsage) : Z :=
  m.(mf_total_bytes) + match m.(mf_migration_fallback) with None => 0 | Some fb => fb.(mf_total_bytes) end.

Lemma chunk_sum_bounds chunks :
  Forall (λ size, 0 < size ≤ 16 * 2 ^ 20) chunks →
  Z.of_nat (length chunks) ≤ chunk_sum chunks ≤ Z.of_nat (length chunks) * (16 * 2 ^ 20).
Proof. induction 1 as [|s l Hs _ IH]; cbn [length chunk_sum foldr]; unfold chunk_sum in *; lia. Qed.

(** The overflow test of the chunk loop never fires within the chunk count. *)
Lemma chunk_total_spec chunks total b :
  0 ≤ total → total + Z.of_nat (length chunks) * (16 * 2 ^ 20) ≤ max_int64 →
  chunk_total chunks total = inr b ↔
  Forall (λ size, 0 < size ≤ 16 * 2 ^ 20) chunks ∧ b = total + chunk_sum chunks.
Proof.
  revert total. induction chunks as [|s l IH]; intros total Ht Hmax; cbn [chunk_total chunk_sum foldr length] in *.
  - split; [intros [= ->]; split; [constructor | lia] | intros [_ ->]; f_equal; lia].
  - destruct (Z.leb_spec s 0); cbn [orb]; [split; [done | intros [[? _]%Forall_cons _]; lia]|].
    destruct (Z.ltb_spec (16 * 2 ^ 20) s); [split; [done | intros [[? _]%Forall_cons _]; lia]|].
    destruct (Z.ltb_spec (max_int64 - s) total); [lia|].
    rewrite IH by lia. rewrite Forall_cons. unfold chunk_sum. split.
    + intros [? ->]. split; [done | lia].
    + intros [[_ ?] ->]. split; [done | lia].
Qed.

(** Validation of one snapshot, whatever its fallback adds. *)
Lemma snapshot_checks m depth b :
  (depth ≤ 1)%nat →
  storedBlobManifestBytesAtDepth m depth = inr b ↔
  valid_snapshot m ∧
  match m.(mf_migration_fallback) with
  | None => b = m.(mf_total_bytes)
  | Some fb => ∃ f, storedBlobManifestBytesAtDepth fb (S depth) = inr f
                    ∧ f ≤ max_int64 - m.(mf_total_bytes) ∧ b = m.(mf_total_bytes) + f
  end.
Proof.
  intros Hd. destruct m as [v sid gen total chunks fb]. unfold valid_snapshot, maxStoredBlobSnapshotBytes.
  cbn [storedBlobManifestBytesAtDepth mf_version mf_snapshot_id mf_generation mf_total_bytes mf_chunks
       mf_migration_fallback].
  change (maxStoredBlobSnapshotBytes / (4 * 2 ^ 20)) with 4096. unfold maxStoredBlobSnapshotBytes.
  destruct (Nat.ltb_spec 1 depth); [lia|].
  destruct (Z.ltb_spec v 1); cbn [orb]; [split; [done | lia]|].
  destruct (Z.ltb_spec 3 v); [split; [done | lia]|].
  destruct (str_eqb (TrimSpace sid) "") eqn:Es.
  { apply str_eqb_eq in Es. split; [done | intros [(_ & Hs & _) _]; by destruct Hs]. }
  apply str_eqb_neq in Es. destruct (Z.ltb_spec gen 0); [split; [done | lia]|].
  destruct (Z.leb_spec total 0) as [Ht|Ht]; cbn [orb].
  { split; [done|]. intros ((_ & _ & _ & [Hl _] & Hf & <- & _) & _).
    pose proof (chunk_sum_bounds _ Hf). lia. }
  destruct (Z.ltb_spec (16 * 2 ^ 30) total); [split; [done | lia]|].
  destruct (Nat.eqb_spec (length chunks) 0); cbn [orb]; [split; [done | lia]|].
  destruct (Z.ltb_spec 4096 (Z.of_nat (length chunks))); [split; [done | lia]|].
  destruct (chunk_total chunks 0) as [e|ct] eqn:Ect.
  - split; [done|]. intros ((_ & _ & _ & _ & Hf & _) & _).
    assert (chunk_total chunks 0 = inr (0 + chunk_sum chunks)) as Ht' by (apply chunk_total_spec; [lia| unfold max_int64; lia | by split]).
    congruence.
  - apply chunk_total_spec in Ect as [Hf ->]; [|lia|unfold max_int64; lia]. rewrite Z.add_0_l.
    destruct (Z.eqb_spec (chunk_sum chunks) total) as [->|Hne]; cbn [negb]; [|split; [done | intros H'; destruct H'; tauto]].
    destruct fb as [fb|].
    + destruct (storedBlobManifestBytesAtDepth fb (S depth)) as [e|f]; [split; [done | by intros (_ & f & ? & _)]|].
      destruct (Z.ltb_spec (max_int64 - f) total); split.
      * done.
      * intros (_ & f' & [= <-] & ? & _). lia.
      * intros [= <-]. split; [split_and!; done || lia|]. exists f. split_and!; [done | lia | done].
      * intros (_ & f' & [= <-] & _ & ->). done.
    + split; [intros [= <-]; split; [split_and!; done || lia | done] | by intros (_ & ->)].
Qed.

Lemma too_deep m : ∃ e, storedBlobManifestBytesAtDepth m 2 = inl e.
Proof. destruct m. by eexists. Qed.

(** Accepted manifests in the order they replaced each other, starting from the
    text [cur]; [None] when one of them is refused. *)
Fixpoint accepted (cur : string) (incoming : list string) : option (list storedBlobManifestUsage) :=
  match incoming with
  | [] => Some []
  | raw :: rest =>
    match parseStoredBlobManifestUsage raw with
    | inr (Some m) =>
      match validateStoredBlobManifestAdvance cur (Some m) with
      | inr _ => cons m <$> accepted raw rest
      | inl _ => None
      end
    | _ => None
    end
  end.

(** [b] may stand where [a] stood: a newer generation, or the very same snapshot. *)
Definition not_older (a b : storedBlobManifestUsage) : Prop :=
  a.(mf_generation) < b.(mf_generation)
  ∨ a.(mf_generation) = b.(mf_generation) ∧ a.(mf_snapshot_id) = b.(mf_snapshot_id).

#[export] Instance not_older_trans : Transitive not_older.
Proof. unfold not_older. intros a b c [?|[? Hs]] [?|[? Hs']]; [left; lia..|right]. split; congruence. Qed.

Lemma advance_not_older cur c inc :
  parseStoredBlobManifestUsage cur = inr (Some c) →
  validateStoredBlobManifestAdvance cur (Some inc) = inr tt → not_older c inc.
Proof.
  intros Hc. unfold validateStoredBlobManifestAdvance. rewrite Hc. unfold not_older.
  destruct (_ || _ || _); [done|]. destruct (str_eqb (mf_snapshot_id inc) (mf_snapshot_id c)) eqn:Es.
  - apply str_eqb_eq in Es. destruct (Z.eqb_spec inc.(mf_generation) c.(mf_generation)); [|done].
    intros _. right. by rewrite Es.
  - destruct (Z.eqb_spec c.(mf_generation) max_int64); [done|]. cbn [orb].
    destruct (Z.eqb_spec inc.(mf_generation) (c.(mf_generation) + 1)); [|done]. left. lia.
Qed.

Lemma accepted_sorted incoming : ∀ cur ms, accepted cur incoming = Some ms →
  StronglySorted not_older ms
  ∧ ∀ c, parseStoredBlobManifestUsage cur = inr (Some c) → Forall (not_older c) ms.
Proof.
  induction incoming as [|raw rest IH]; intros cur ms; cbn [accepted].
  - intros [= <-]. split; [constructor | intros; constructor].
  - destruct (parseStoredBlobManifestUsage raw) as [|[m|]] eqn:Em; [done| |done].
    destruct (validateStoredBlobManifestAdvance cur (Some m)) as [|[]] eqn:Ev; [done|].
    intros (ms' & Hms & ->)%fmap_Some. destruct (IH raw ms' Hms) as [Hs Hall]. specialize (Hall m Em).
    split; [by constructor|]. intros c Hc. pose proof (advance_not_older cur c m Hc Ev) as Hcm.
    constructor; [done|]. eapply Forall_impl; [exact Hall|]. intros x Hx. by etransitivity.
Qed.

(** ** Properties *)

(** The size computed for a manifest is exactly the bytes of its chunks and
    of its fallback's, for precisely the well-formed manifests; the overflow
    tests on the way never reject one. *)
Theorem storedBlobManifestBytesAtDepth_spec m b :
  storedBlobManifestBytesAtDepth m 0 = inr b ↔ valid_manifest m ∧ b = stored_bytes m.
Proof.
  rewrite snapshot_checks by lia. unfold valid_manifest, stored_bytes.
  destruct m.(mf_migration_fallback) as [fb|]; [|rewrite Z.add_0_r; tauto].
  split.
  - intros (Hm & f & Hf & Hle & ->). apply snapshot_checks in Hf as [Hfb Hn]; [|lia].
    destruct fb.(mf_migration_fallback) as [fb'|]; [|by subst].
    destruct Hn as (f' & Hf' & _). destruct (too_deep fb') as [e He]. congruence.
  - intros ((Hm & Hfb & Hn) & ->). split; [done|]. exists fb.(mf_total_bytes). split_and!; [| |done].
    + apply snapshot_checks; [lia|]. by rewrite Hn.
    + destruct Hm as (_ & _ & _ & _ & _ & _ & Hm), Hfb as (_ & _ & _ & _ & _ & _ & Hfb).
      unfold maxStoredBlobSnapshotBytes, max_int64 in *. lia.
Qed.

(** A runtime's snapshots never roll back.  In any run of accepted manifest
    updates a later manifest has a newer generation, or is the same snapshot
    again; the store's manifest before the run is no exception. *)
Theorem snapshots_never_roll_back cur incoming ms (H : accepted cur incoming = Some ms) :
  StronglySorted not_older ms
  ∧ ∀ c, parseStoredBlobManifestUsage cur = inr (Some c) → Forall (not_older c) ms.
Proof. by apply (accepted_sorted incoming). Qed.

Lemma snapshots_never_roll_back_witness :
  (∃ ms, accepted "" [sample_manifest "s1" 1 10; sample_manifest "s1" 1 10; sample_manifest "s2" 2 20] = Some ms
         ∧ mf_generation <$> ms = [1; 1; 2] ∧ StronglySorted not_older ms)
  ∧ accepted "" [sample_manifest "s1" 1 10; sample_manifest "s2" 2 20; sample_manifest "s1" 1 10] = None.
Proof.
  split; [|vm_compute; reflexivity].
  destruct (accepted "" [sample_manifest "s1" 1 10; sample_manifest "s1" 1 10; sample_manifest "s2" 2 20])
    as [ms|] eqn:E; [|vm_compute in E; discriminate].
  exists ms. split; [done|]. split; [|apply (snapshots_never_roll_back _ _ _ E)].
  vm_compute in E. injection E as <-. vm_compute. reflexivity.
Defined.
