(* ===== verification/Common.v ===== *)
(** * Helpers the store's operations share

    Text normalisation (store.go:5389-5413, 8487-8550), runtime logs, sessions
    and capabilities of a runtime (store.go:7994-8090).  [now] is the
    transaction's [NOW()]; [time.Now()] inside a transaction is the same. *)

From Stdlib Require Import Ascii.
From S2P Require Import Prelude.
From S2P Require Import GoLib.
From S2P Require Import Schema.
Open Scope Z_scope.

(** ** Text *)

Definition defaultString (value fallback : string) : string :=
  let trimmed := TrimSpace value in if trimmed =?s "" then fallback else trimmed.

Definition truncateRunes (value : string) (limit : nat) : string :=
  let value := TrimSpace value in
  if (limit =? 0)%nat then ""
  else if (rune_count (bytes_of value) <=? limit)%nat then value
  else of_bytes (take_runes limit (bytes_of value)).

Definition boundedRegistryText (value : string) (maxRunes : nat) : string :=
  let value := TrimSpace value in
  if (maxRunes <? rune_count (bytes_of value))%nat then of_bytes (take_runes maxRunes (bytes_of value))
  else value.

Definition nullString (value : option string) : option string :=
  match value with
  | None => None
  | Some v => let trimmed := TrimSpace v in if trimmed =?s "" then None else Some trimmed
  end.

Definition valueOrEmpty (value : option string) : string :=
  match value with None => "" | Some v => TrimSpace v end.

Definition normalizeChoice (value fallback : string) (allowed : list string) : string :=
  let value := ToLower (TrimSpace value) in
  if existsb (λ candidate, value =?s candidate) allowed then value else fallback.

Definition containsString (values : list string) (target : string) : bool :=
  existsb (λ v, v =?s target) values.

(** A character of a registry identifier: its first one must be alphanumeric. *)
Definition registry_char (first : bool) (c : ascii) : bool :=
  let n := N_of_ascii c in
  ((97 <=? n) && (n <=? 122) || (65 <=? n) && (n <=? 90) || (48 <=? n) && (n <=? 57))%N
  || (negb first && ((n =? 46) || (n =? 95) || (n =? 58) || (n =? 45))%N).

Definition normalizeRegistryID (value : string) : option string :=
  let value := TrimSpace value in
  if (value =?s "") || (128 <? str_len value) then None
  else match bytes_of value with
       | [] => None
       | c :: rest => if registry_char true c && forallb (registry_char false) rest
                      then Some value else None
       end.

Definition validItemHash (value : string) : bool :=
  let value := TrimSpace value in (str_len value =? 64) && hex_ok value.

(** ** Runtime logs *)

Definition runtimeLogSourceRunes : nat := 64.
Definition runtimeLogLevelRunes : nat := 32.
Definition runtimeLogMessageRunes : nat := 4096.

(** The row [ORDER BY created_at DESC, id DESC LIMIT 1] picks for a runtime,
    with its position; [best] is the best row so far. *)
Fixpoint latest_log (rid : string) (i : nat) (best : option (nat * RuntimeLog)) (l : list RuntimeLog)
    : option (nat * RuntimeLog) :=
  match l with
  | [] => best
  | r :: l' =>
    let better := match best with None => true | Some (_, b) => b.(lg_created_at) <=? r.(lg_created_at) end in
    latest_log rid (S i) (if (r.(lg_runtime_id) =?s rid) && better then Some (i, r) else best) l'
  end.

Definition append_log (now : Z) (rid source level message : string) (logs : list RuntimeLog) : list RuntimeLog :=
  let fresh := logs ++ [MkRuntimeLog rid source level message now 1 None] in
  match latest_log rid 0 None logs with
  | Some (i, r) =>
    if (r.(lg_source) =?s source) && (r.(lg_level) =?s level) && (r.(lg_message) =?s message)
    then <[i := r <| lg_repeat_count ::= (λ n, n + 1) |> <| lg_last_seen_at := Some now |>]> logs
    else fresh
  | None => fresh
  end.

Definition appendRuntimeLogTX (now : Z) (runtimeID source level message : string) : Tx unit :=
  let source := truncateRunes (defaultString source "system") runtimeLogSourceRunes in
  let level := truncateRunes (defaultString level "info") runtimeLogLevelRunes in
  let message := truncateRunes (TrimSpace message) runtimeLogMessageRunes in
  modify (λ db, db <| db_runtime_logs ::= append_log now runtimeID source level message |>).

Definition appendRuntimeStartEventTX (now : Z) (accountID runtimeID : string) : Tx unit :=
  modify (λ db, db <| db_start_events ::= (λ l, l ++ [MkStartEvent accountID runtimeID now]) |>).

(** ** Sessions and capabilities of a runtime *)

(** [status IN ('pending', 'active')]. *)
Definition session_live (s : Session) : bool :=
  (s.(se_status) =?s "pending") || (s.(se_status) =?s "active").

Definition end_session (now : Z) (status reason : string) (s : Session) : Session :=
  s <| se_status := status |> <| se_updated_at := now |>
    <| se_ended_at := Some now |> <| se_end_reason := Some reason |>.

Definition closeRuntimeSessionsTX (now : Z) (runtimeID reason : string) : Tx unit :=
  modify (λ db, db <| db_sessions ::=
    update_where (λ _ s, (s.(se_runtime_id) =?s runtimeID) && session_live s)
      (end_session now "closed" (TrimSpace reason)) |>).

Definition revoke_capability (now : Z) (c : Capability) : Capability :=
  c <| ca_revoked_at := Some (coalesce c.(ca_revoked_at) now) |> <| ca_updated_at := now |>.

(** The three revocations return how many rows they changed. *)
Definition revoke_capabilities_where (now : Z) (p : string → Capability → bool) : Tx nat :=
  n ← gets (λ db, count_where p db.(db_capabilities));
  modify (λ db, db <| db_capabilities ::= update_where p (revoke_capability now) |>);;
  mret n.

Definition revokeRuntimeCapabilityTX (now : Z) (accountID capabilityID : string) : Tx nat :=
  revoke_capabilities_where now (λ id c,
    (c.(ca_account_id) =?s TrimSpace accountID) && (id =?s TrimSpace capabilityID)
    && is_null c.(ca_revoked_at)).

Definition revokeRuntimeCapabilitiesForRuntimeTX (now : Z) (runtimeID : string) : Tx nat :=
  revoke_capabilities_where now (λ _ c,
    (c.(ca_runtime_id) =?s TrimSpace runtimeID) && is_null c.(ca_revoked_at)).

Definition revokeExpiredRuntimeCapabilitiesTX (now : Z) : Tx nat :=
  revoke_capabilities_where now (λ _ c, is_null c.(ca_revoked_at) && (c.(ca_expires_at) <=? now)).

Definition revokeEndedSessionCapabilitiesTX (now : Z) : Tx nat :=
  db ← gets id;
  revoke_capabilities_where now (λ id c,
    is_null c.(ca_revoked_at)
    && exists_where (λ _ s, null_eqb s.(se_capability_id) id && not_null s.(se_ended_at)
         && containsString ["closed"; "expired"; "stale"; "revoked"] s.(se_status)) db.(db_sessions)
    && negb (exists_where (λ _ s, null_eqb s.(se_capability_id) id && session_live s
         && (now <? s.(se_expires_at))) db.(db_sessions))).

Definition pruneExpiredRuntimeCapabilityNoncesTX (now : Z) : Tx nat :=
  n ← gets (λ db, count_where (λ _ expires, expires <? now) db.(db_capability_nonces));
  modify (λ db, db <| db_capability_nonces ::= delete_where (λ _ expires, expires <? now) |>);;
  mret n.

Definition pruneExpiredBlobKeyHandoffsTX (now : Z) : Tx nat :=
  n ← gets (λ db, count_where (λ _ h, h.(hf_expires_at) <=? now) db.(db_handoffs));
  modify (λ db, db <| db_handoffs ::= delete_where (λ _ h, h.(hf_expires_at) <=? now) |>);;
  mret n.

(** ** Facts *)

Lemma boundedRegistryText_bound value n :
  (rune_count (bytes_of (boundedRegistryText value n)) ≤ n)%nat.
Proof.
  unfold boundedRegistryText. destruct (Nat.ltb_spec n (rune_count (bytes_of (TrimSpace value)))); [|lia].
  rewrite bytes_of_bytes. apply take_runes_count.
Qed.

Lemma truncateRunes_bound value n : (rune_count (bytes_of (truncateRunes value n)) ≤ n)%nat.
Proof.
  unfold truncateRunes. destruct (Nat.eqb_spec n 0); [cbn; lia|].
  destruct (Nat.leb_spec (rune_count (bytes_of (TrimSpace value))) n); [lia|].
  rewrite bytes_of_bytes. apply take_runes_count.
Qed.

Lemma normalizeRegistryID_idemp v v' : normalizeRegistryID v = Some v' → normalizeRegistryID v' = Some v'.
Proof.
  unfold normalizeRegistryID. case_match; [done|].
  destruct (bytes_of (TrimSpace v)) as [|c l] eqn:E; [done|]. case_match eqn:Ec; [|done].
  intros [= <-]. rewrite TrimSpace_idemp. case_match; [done|]. by rewrite E, Ec.
Qed.

Lemma revoke_capabilities_frame {A} (f : Db → A) now p :
  (∀ db g, f (db <| db_capabilities ::= g |>) = f db) →
  stable (same f) (revoke_capabilities_where now p).
Proof. intros Hf db. symmetry. apply Hf. Qed.

(** The helpers leave everything but their own table alone. *)
Lemma appendRuntimeLogTX_frame {A} (f : Db → A) now rid src lvl msg :
  (∀ db g, f (db <| db_runtime_logs ::= g |>) = f db) →
  stable (same f) (appendRuntimeLogTX now rid src lvl msg).
Proof. intros Hf db. symmetry. apply Hf. Qed.

Lemma closeRuntimeSessionsTX_frame {A} (f : Db → A) now rid reason :
  (∀ db g, f (db <| db_sessions ::= g |>) = f db) →
  stable (same f) (closeRuntimeSessionsTX now rid reason).
Proof. intros Hf db. symmetry. apply Hf. Qed.

Lemma end_session_not_live now status reason s :
  status ≠ "pending"%string → status ≠ "active"%string → session_live (end_session now status reason s) = false.
Proof.
  intros Hp Ha. unfold session_live, end_session. cbn.
  apply orb_false_iff. split; by apply str_eqb_neq.
Qed.
