(* ===== verification/Billing.v ===== *)
(** * Metering and charges

    Models internal/store/billing.go: what paid accounts are charged, the
    minute's metering pass, storage charges and the stops queued when a trial
    or a balance is used up.  Each pass is one transaction and runs alone
    ([FOR UPDATE SKIP LOCKED] is not modelled). *)

From S2P Require Import Prelude.
From S2P Require Import GoLib.
From S2P Require Import Schema.
From S2P Require Import Manifests.
From S2P Require Import Common.
Open Scope Z_scope.

(** ** Prices *)

Record Pricing := MkPricing { RuntimeHourMicro : Z; StorageGiBMonthMicro : Z }.

Definition Enabled (p : Pricing) : bool := (0 <? p.(RuntimeHourMicro)) || (0 <? p.(StorageGiBMonthMicro)).

(** Go's integer division truncates towards zero. *)
Definition MinimumStartMicro (p : Pricing) : Z := Z.quot p.(RuntimeHourMicro) 6.

(** ** Splitting time and money *)

Record hourPart := MkHourPart { hp_start : Z; hp_duration : Z }.

(** The loop of [splitByHour]; each round ends at an hour boundary or at [to]. *)
Fixpoint split_loop (fuel : nat) (from to : Z) : list hourPart :=
  match fuel with
  | O => []
  | S fuel =>
    if from <? to then
      let hour := truncate_hour from in
      let stop := hour + hour_us in
      let stop := if to <? stop then to else stop in
      MkHourPart hour (stop - from) :: split_loop fuel stop to
    else []
  end.

(** One round per started hour, and one to stop. *)
Definition splitByHour (from to : Z) : list hourPart :=
  split_loop (Z.to_nat ((to - from) / hour_us + 3)) from to.

(** [big.Int.Quo] truncates; here both sides are positive. *)
Definition mulDivRound (a b c : Z) : Z :=
  if (a <=? 0) || (b <=? 0) || (c <=? 0) then 0
  else let quotient := Z.quot (a * b + Z.quot c 2) c in
       if is_int64 quotient then quotient else 0.

(** ** The ledger *)

(** The rows under the unique index [idx_account_ledger_usage]. *)
Definition usage_kind (r : LedgerRow) : bool :=
  (r.(le_kind) =?s "runtime") || (r.(le_kind) =?s "storage").

Definition usage_entry (account reference : string) (r : LedgerRow) : bool :=
  usage_kind r && (r.(le_account_id) =?s account) && (r.(le_reference) =?s reference).

(** [INSERT ... ON CONFLICT (account_id, reference) DO UPDATE]. *)
Fixpoint upsert_usage (new : LedgerRow) (l : list LedgerRow) : list LedgerRow :=
  match l with
  | [] => [new]
  | r :: l' =>
    if usage_entry new.(le_account_id) new.(le_reference) r
    then r <| le_amount_micro ::= (λ a, a + new.(le_amount_micro)) |> :: l'
    else r :: upsert_usage new l'
  end.

Definition addUsageChargeTX (now : Z) (accountID kind reference : string) (amount : Z) : Tx unit :=
  modify (λ db, db <| db_ledger ::= upsert_usage (MkLedgerRow accountID kind (- amount) reference now) |>).

(** [SELECT COALESCE(SUM(amount_micro), 0) FROM account_ledger WHERE account_id = a]. *)
Definition ledger_sum (account : string) (l : list LedgerRow) : Z :=
  foldr (λ r s, (if r.(le_account_id) =?s account then r.(le_amount_micro) else 0) + s) 0 l.

Definition accountBalance (accountID : string) (db : Db) : Z :=
  ledger_sum (TrimSpace accountID) db.(db_ledger).

Definition paidBalanceCheck (pricing : Pricing) (accountID source : string) (minimum : Z) : Tx unit :=
  if negb (Enabled pricing) || negb (EqualFold (TrimSpace source) "paid") then mret tt
  else balance ← gets (accountBalance accountID);
       refuse_if ((balance <? minimum) || (balance <=? 0)) ErrRuntimeBalance.

(** ** Metering running time *)

Record due := MkDue { d_runtime : string; d_account : string; d_source : string; d_status : string; d_since : Z }.

(** A row of the join: [GREATEST(COALESCE(billed_through, started_at), started_at)]. *)
Definition due_of (db : Db) (id : string) (r : Runtime) : option due :=
  e ← db.(db_entitlements) !! r.(rt_account_id);
  started ← r.(rt_started_at);
  if ((e.(en_source) =?s "trial") || (e.(en_source) =?s "paid"))
     && rt_live r && (r.(rt_desired_state) =?s "running")
  then Some (MkDue id r.(rt_account_id) e.(en_source) r.(rt_status)
               (Z.max (coalesce r.(rt_billed_through) started) started))
  else None.

Definition due_rows (db : Db) : list due :=
  omap (λ kr, due_of db kr.1 kr.2) (map_to_list db.(db_runtimes)).

(** [math.Round(d.Seconds())] of a positive duration. *)
Definition round_seconds (us : Z) : Z := (us + 500000) / second_us.

Definition set_entitlement (account : string) (f : Entitlement → Entitlement) : Tx unit :=
  modify (λ db, db <| db_entitlements ::= alter f account |>).
Definition set_runtime (id : string) (f : Runtime → Runtime) : Tx unit :=
  modify (λ db, db <| db_runtimes ::= alter f id |>).

(** Charges each hour's part of the run; the count of ledger writes so far goes
    in and out. *)
Definition charge_parts (now hourMicro : Z) (d : due) : Z → list hourPart → Tx Z :=
  fold_each (λ charges part,
    let amount := mulDivRound part.(hp_duration) hourMicro hour_us in
    if amount <=? 0 then mret charges
    else addUsageChargeTX now d.(d_account) "runtime"
           ("runtime:" +:+ d.(d_runtime) +:+ ":" +:+ format_hour part.(hp_start)) amount;;
         mret (charges + 1)).

Definition meter_one (now hourMicro : Z) (acc : Z * Z) (d : due) : Tx (Z * Z) :=
  let '(charges, trialSeconds) := acc in
  acc' ← (if (d.(d_status) =?s "running") && (d.(d_since) <? now) then
            if d.(d_source) =?s "trial" then
              let seconds := round_seconds (now - d.(d_since)) in
              set_entitlement d.(d_account) (λ e,
                e <| en_trial_runtime_seconds_used ::= (λ u, u + seconds) |> <| en_updated_at := now |>);;
              mret (charges, trialSeconds + seconds)
            else if d.(d_source) =?s "paid" then
              charges ← charge_parts now hourMicro d charges (splitByHour d.(d_since) now);
              mret (charges, trialSeconds)
            else mret (charges, trialSeconds)
          else mret (charges, trialSeconds));
  set_runtime d.(d_runtime) (λ r, r <| rt_billed_through := Some now |>);;
  mret acc'.

Definition meterRuntimeTimeTX (now hourMicro : Z) : Tx (Z * Z) :=
  rows ← gets due_rows;
  fold_each (meter_one now hourMicro) (0, 0) rows.

(** ** Charging storage *)

(** The paid, live accounts not charged yet on [now]'s UTC day. *)
Definition storage_due (now : Z) (db : Db) : list string :=
  (select (λ id a,
     match db.(db_entitlements) !! id with
     | Some e => e.(en_source) =?s "paid"
     | None => false
     end
     && is_null a.(ac_deleted_at)
     && match a.(ac_storage_billed_on) with None => true | Some d => d <? utc_date now end)
   db.(db_accounts)).*1.

Definition set_account (id : string) (f : Account → Account) : Tx unit :=
  modify (λ db, db <| db_accounts ::= alter f id |>).

Definition charge_storage_one (now gibMonthMicro : Z) (charges : Z) (accountID : string) : Tx Z :=
  used ← gets (accountStorageBytesUsed accountID);
  match used with
  | inl e => throw e
  | inr used =>
    let amount := mulDivRound used gibMonthMicro (2 ^ 30 * 30) in
    charges' ← (if 0 <? amount then
                  addUsageChargeTX now accountID "storage" ("storage:" +:+ format_month now) amount;;
                  mret (charges + 1)
                else mret charges);
    set_account accountID (λ a, a <| ac_storage_billed_on := Some (utc_date now) |>);;
    mret charges'
  end.

Definition chargeStorageTX (now gibMonthMicro : Z) : Tx Z :=
  if gibMonthMicro <=? 0 then mret 0
  else accountIDs ← gets (storage_due now);
       fold_each (charge_storage_one now gibMonthMicro) 0 accountIDs.

(** ** Queueing stops *)

Definition queue_stop (now : Z) (r : Runtime) : Runtime :=
  let hostless := is_null r.(rt_host_id) in
  r <| rt_status := (if hostless then "stopped" else "stopping")%string |>
    <| rt_desired_state := "stopped"%string |>
    <| rt_operation_generation ::= (λ g, g + 1) |>
    <| rt_connection_status := (if hostless then "offline" else "disconnecting")%string |>
    <| rt_started_at := None |>
    <| rt_last_error := None |>
    <| rt_updated_at := now |>.

(** [candidates] is the subquery that selects the runtimes to stop. *)
Definition queueRuntimeStopsTX (now : Z) (candidates : Db → string → Runtime → bool)
    (sessionReason logMessage : string) : Tx (list string) :=
  db ← gets id;
  let runtimeIDs := (select (candidates db) db.(db_runtimes)).*1 in
  modify (λ db', db' <| db_runtimes ::= update_where (candidates db) (queue_stop now) |>);;
  for_each (λ runtimeID,
    closeRuntimeSessionsTX now runtimeID sessionReason;;
    appendRuntimeLogTX now runtimeID "system" "warn" logMessage;;
    revokeRuntimeCapabilitiesForRuntimeTX now runtimeID;;
    mret tt) runtimeIDs;;
  mret runtimeIDs.

Definition wants_running (r : Runtime) : bool :=
  rt_live r && (r.(rt_desired_state) =?s "running").

Definition trial_over (db : Db) (_ : string) (r : Runtime) : bool :=
  match db.(db_entitlements) !! r.(rt_account_id) with
  | Some e => (e.(en_source) =?s "trial") && wants_running r
              && (e.(en_trial_runtime_seconds) <=? e.(en_trial_runtime_seconds_used))
  | None => false
  end.

Definition without_balance (db : Db) (_ : string) (r : Runtime) : bool :=
  match db.(db_entitlements) !! r.(rt_account_id) with
  | Some e => (e.(en_source) =?s "paid") && wants_running r
              && (ledger_sum r.(rt_account_id) db.(db_ledger) <=? 0)
  | None => false
  end.

Record UsageResult := MkUsageResult {
  RuntimeCharges : Z; StorageCharges : Z; TrialSeconds : Z; StoppedRuntimeIDs : list string }.

Definition MeterUsage (pricing : Pricing) (now : Z) : Tx UsageResult := atomically (
  '(runtimeCharges, trialSeconds) ← meterRuntimeTimeTX now pricing.(RuntimeHourMicro);
  storageCharges ← (if Enabled pricing then chargeStorageTX now pricing.(StorageGiBMonthMicro) else mret 0);
  trialOver ← queueRuntimeStopsTX now trial_over "trial runtime time used up"
    "Runtime stop queued because the trial's hour of running time is used up.";
  withoutBalance ← (if Enabled pricing then
    queueRuntimeStopsTX now without_balance "USDT balance used up"
      "Runtime stop queued because the account's USDT balance is used up."
    else mret []);
  mret (MkUsageResult runtimeCharges storageCharges trialSeconds (trialOver ++ withoutBalance))).

#[global] Arguments ledger_sum : simpl never.
#[global] Arguments mulDivRound : simpl never.
#[global] Arguments splitByHour : simpl never.
#[global] Arguments format_hour : simpl never.
#[global] Arguments round_seconds : simpl never.

(** ** Splitting time: facts *)

(** The overlap of [from, to) with the UTC hour number [h]. *)
Definition hour_overlap (from to h : Z) : hourPart :=
  MkHourPart (h * hour_us) (Z.min to ((h + 1) * hour_us) - Z.max from (h * hour_us)).

Definition durations (parts : list hourPart) : Z := foldr (λ p s, p.(hp_duration) + s) 0 parts.

Lemma hour_us_pos : 0 < hour_us.
Proof. done. Qed.
#[local] Hint Resolve hour_us_pos : core.

(** [lia] knowing how long an hour is. *)
Ltac hlia := unfold hour_us, second_us in *; lia.

(** [h] is the hour of [t]. *)
Lemma div_hour t h : h * hour_us ≤ t < (h + 1) * hour_us → t / hour_us = h.
Proof. intros H. symmetry. apply Z.div_unique with (t - h * hour_us); hlia. Qed.
Lemma hour_bounds t : t / hour_us * hour_us ≤ t < (t / hour_us + 1) * hour_us.
Proof. pose proof (Z.div_mod t hour_us). pose proof (Z.mod_pos_bound t hour_us). hlia. Qed.

Lemma seqZ_one h : seqZ h 1 = [h].
Proof. rewrite seqZ_cons, seqZ_nil by lia. done. Qed.

Lemma split_loop_spec fuel from to :
  from < to → (to - 1) / hour_us - from / hour_us < Z.of_nat fuel →
  split_loop fuel from to =
    hour_overlap from to <$> seqZ (from / hour_us) ((to - 1) / hour_us - from / hour_us + 1).
Proof.
  revert from. induction fuel as [|fuel IH]; intros from Hlt Hfuel.
  { assert (from / hour_us ≤ (to - 1) / hour_us) by (apply Z.div_le_mono; hlia). lia. }
  cbn [split_loop]. rewrite (proj2 (Z.ltb_lt from to) Hlt). unfold truncate_hour.
  pose proof (hour_bounds from) as Hf. set (h := from / hour_us) in *.
  destruct (Z.ltb_spec to (h * hour_us + hour_us)) as [Hto|Hto].
  - rewrite (div_hour (to - 1) h) by hlia. replace (h - h + 1) with 1 by lia.
    rewrite seqZ_one. cbn. unfold hour_overlap. f_equal; [f_equal; hlia|]. destruct fuel; cbn; [done|].
    by rewrite Z.ltb_irrefl.
  - assert (Hstop : (h * hour_us + hour_us) / hour_us = h + 1) by (apply div_hour; hlia).
    assert (Hle : h ≤ (to - 1) / hour_us) by (apply Z.div_le_lower_bound; hlia).
    rewrite seqZ_cons by lia. cbn. f_equal; [unfold hour_overlap; f_equal; hlia|].
    destruct (decide (h * hour_us + hour_us < to)) as [Hmore|Hdone].
    + rewrite IH, Hstop by lia.
      replace (Z.pred ((to - 1) / hour_us - h + 1)) with ((to - 1) / hour_us - (h + 1) + 1) by lia.
      replace (Z.succ h) with (h + 1) by lia.
      apply list_fmap_ext. intros i x Hx. apply lookup_seqZ in Hx as [-> ?].
      unfold hour_overlap. f_equal. hlia.
    + rewrite (div_hour (to - 1) h) by hlia. replace (Z.pred (h - h + 1)) with 0 by lia.
      rewrite seqZ_nil by lia. destruct fuel; cbn; [done|]. by rewrite (proj2 (Z.ltb_ge _ _)) by lia.
Qed.

Lemma splitByHour_fuel from to :
  from < to → (to - 1) / hour_us - from / hour_us < Z.of_nat (Z.to_nat ((to - from) / hour_us + 3)).
Proof.
  intros Hlt. pose proof (hour_bounds (to - 1)). pose proof (hour_bounds from).
  pose proof (hour_bounds (to - from)). assert (0 ≤ (to - from) / hour_us) by (apply Z.div_pos; hlia).
  rewrite Z2Nat.id by lia. hlia.
Qed.

Lemma splitByHour_overlaps from to :
  from < to →
  splitByHour from to =
    hour_overlap from to <$> seqZ (from / hour_us) ((to - 1) / hour_us - from / hour_us + 1).
Proof. intros H. apply split_loop_spec; [done | by apply splitByHour_fuel]. Qed.

Lemma splitByHour_nil from to : to ≤ from → splitByHour from to = [].
Proof.
  intros H. unfold splitByHour. destruct (Z.to_nat _); cbn; [done|].
  by rewrite (proj2 (Z.ltb_ge _ _)).
Qed.

(** Consecutive hours from [h] on, of an interval that ends inside the last of them. *)
Lemma durations_seq n : ∀ from to h, 0 ≤ n →
  h * hour_us ≤ from < (h + 1) * hour_us → from < to →
  (h + n) * hour_us < to ≤ (h + n + 1) * hour_us →
  durations (hour_overlap from to <$> seqZ h (n + 1)) = to - from.
Proof.
  intros from to h Hn. revert from h. pattern n. apply natlike_ind; [| |done]; clear n Hn.
  - intros from h Hf Hlt Hto. rewrite seqZ_one. cbn. hlia.
  - intros n Hn IH from h Hf Hlt Hto. rewrite seqZ_cons by lia. cbn [fmap list_fmap durations foldr].
    replace (Z.pred (Z.succ n + 1)) with (n + 1) by lia.
    assert (Htl : hour_overlap from to <$> seqZ (Z.succ h) (n + 1)
                  = hour_overlap ((h + 1) * hour_us) to <$> seqZ (Z.succ h) (n + 1)).
    { apply list_fmap_ext. intros i x Hx. apply lookup_seqZ in Hx as [-> ?].
      unfold hour_overlap. f_equal. hlia. }
    rewrite Htl. fold (durations (hour_overlap ((h + 1) * hour_us) to <$> seqZ (Z.succ h) (n + 1))).
    rewrite IH by hlia. cbn. hlia.
Qed.

Lemma splitByHour_durations from to : durations (splitByHour from to) = Z.max 0 (to - from).
Proof.
  destruct (decide (from < to)) as [H|H]; [|rewrite splitByHour_nil by lia; cbn; lia].
  rewrite splitByHour_overlaps by done. pose proof (hour_bounds from). pose proof (hour_bounds (to - 1)).
  assert (from / hour_us ≤ (to - 1) / hour_us) by (apply Z.div_le_mono; hlia).
  rewrite (durations_seq ((to - 1) / hour_us - from / hour_us)); hlia.
Qed.

Lemma splitByHour_elem from to p :
  p ∈ splitByHour from to →
  (∃ h, p.(hp_start) = h * hour_us) ∧ 0 < p.(hp_duration) ≤ hour_us
  ∧ Z.max from p.(hp_start) + p.(hp_duration) ≤ to
  ∧ Z.max from p.(hp_start) + p.(hp_duration) ≤ p.(hp_start) + hour_us.
Proof.
  destruct (decide (from < to)) as [H|H]; [|rewrite splitByHour_nil by lia; by rewrite elem_of_nil].
  rewrite splitByHour_overlaps by done. rewrite list_elem_of_fmap. intros (h & -> & Hh).
  apply elem_of_seqZ in Hh. pose proof (hour_bounds from). pose proof (hour_bounds (to - 1)).
  cbn. split; [by exists h|]. hlia.
Qed.

(** ** Rounding *)

Lemma mulDivRound_exact a b c :
  0 < a → 0 < b → 0 < c → (a * b + c / 2) / c ≤ max_int64 →
  mulDivRound a b c = (a * b + c / 2) / c.
Proof.
  intros Ha Hb Hc Hfit. unfold mulDivRound.
  destruct (Z.leb_spec a 0), (Z.leb_spec b 0), (Z.leb_spec c 0); cbn; try lia.
  assert (0 ≤ c / 2) by (apply Z.div_pos; lia). assert (0 < a * b) by nia.
  rewrite (Z.quot_div_nonneg c 2), Z.quot_div_nonneg by lia. unfold is_int64. rewrite (proj2 (Z.leb_le _ _)), (proj2 (Z.leb_le _ _)); [done | done |].
  assert (0 ≤ (a * b + c / 2) / c) by (apply Z.div_pos; lia).
  unfold min_int64. lia.
Qed.

Lemma mulDivRound_range a b c : 0 ≤ mulDivRound a b c ≤ max_int64.
Proof.
  unfold mulDivRound.
  destruct (Z.leb_spec a 0), (Z.leb_spec b 0), (Z.leb_spec c 0); cbn; try (unfold max_int64; lia).
  destruct (is_int64 _) eqn:E; [|unfold max_int64; lia].
  unfold is_int64 in E. apply andb_true_iff in E as [_ E]. apply Z.leb_le in E. split; [|done].
  apply Z.quot_pos; [|lia]. assert (0 ≤ Z.quot c 2) by (apply Z.quot_pos; lia). nia.
Qed.

(** ** The ledger: facts *)

(** The unique index and the sign of charges: one usage entry per account and
    reference, and every usage entry is negative. *)
Definition usage_ok (l : list LedgerRow) : Prop :=
  (∀ a ref, (length (List.filter (usage_entry a ref) l) ≤ 1)%nat)
  ∧ (∀ r, r ∈ l → usage_kind r = true → r.(le_amount_micro) < 0).

Lemma usage_entry_amount a ref r f :
  usage_entry a ref (r <| le_amount_micro ::= f |>) = usage_entry a ref r.
Proof. done. Qed.

Lemma upsert_usage_sum a new l :
  ledger_sum a (upsert_usage new l)
  = ledger_sum a l + (if new.(le_account_id) =?s a then new.(le_amount_micro) else 0).
Proof.
  unfold ledger_sum. induction l as [|r l IH]; cbn [upsert_usage foldr]; [lia|].
  destruct (usage_entry _ _ r) eqn:E; cbn [foldr]; [|rewrite IH; lia].
  unfold usage_entry in E. apply andb_true_iff in E as [E _]. apply andb_true_iff in E as [_ E].
  apply str_eqb_eq in E. cbn. rewrite E. destruct (_ =?s a); lia.
Qed.

Lemma upsert_usage_entries a ref new l :
  usage_kind new = true →
  length (List.filter (usage_entry a ref) (upsert_usage new l))
  = if usage_entry a ref new
    then Nat.max 1 (length (List.filter (usage_entry a ref) l))
    else length (List.filter (usage_entry a ref) l).
Proof.
  intros Hk. assert (Hnew : usage_entry a ref new = true ↔ new.(le_account_id) = a ∧ new.(le_reference) = ref).
  { unfold usage_entry. rewrite Hk, andb_true_iff. cbn. by rewrite !str_eqb_eq. }
  induction l as [|r l IH]; cbn [upsert_usage]; [cbn; by destruct (usage_entry a ref new)|].
  destruct (usage_entry new.(le_account_id) new.(le_reference) r) eqn:Er; cbn [List.filter].
  - rewrite usage_entry_amount. destruct (usage_entry a ref new) eqn:En.
    + destruct (proj1 Hnew eq_refl) as [<- <-]. rewrite Er. cbn. lia.
    + by destruct (usage_entry a ref r).
  - destruct (usage_entry a ref r) eqn:Ear; cbn; rewrite IH.
    + destruct (usage_entry a ref new) eqn:En; [|done].
      destruct (proj1 Hnew eq_refl) as [<- <-]. congruence.
    + done.
Qed.

Lemma upsert_usage_elem new l r :
  r ∈ upsert_usage new l →
  r = new ∨ r ∈ l ∨ ∃ r0, r0 ∈ l ∧ usage_kind r0 = true
                          ∧ r = r0 <| le_amount_micro ::= (λ a, a + new.(le_amount_micro)) |>.
Proof.
  induction l as [|r1 l IH]; cbn [upsert_usage]; [intros ->%list_elem_of_singleton; auto|].
  destruct (usage_entry _ _ r1) eqn:E; rewrite !elem_of_cons; intros [->|Hin].
  - right. right. exists r1. split; [left|]. split; [|done].
    unfold usage_entry in E. by destruct (usage_kind r1).
  - auto.
  - auto.
  - destruct (IH Hin) as [?|[?|(r0 & ? & ?)]]; [auto | auto |].
    right. right. exists r0. split; [by right | done].
Qed.

Lemma upsert_usage_ok new l :
  usage_kind new = true → new.(le_amount_micro) < 0 → usage_ok l → usage_ok (upsert_usage new l).
Proof.
  intros Hk Hneg [Huniq Hsign]. split.
  - intros a ref. rewrite upsert_usage_entries by done. specialize (Huniq a ref).
    destruct (usage_entry a ref new); lia.
  - intros r Hr Hrk. apply upsert_usage_elem in Hr as [->|[Hr|(r0 & Hr0 & Hk0 & ->)]]; [done|auto|].
    pose proof (Hsign r0 Hr0 Hk0). cbn. lia.
Qed.

(** What a run of the runtime from [from] to [to] costs. *)
Definition run_charge (hourMicro from to : Z) : Z :=
  foldr (λ p s, mulDivRound p.(hp_duration) hourMicro hour_us + s) 0 (splitByHour from to).

Lemma charge_parts_spec now hm d parts : ∀ n db, ∃ L n',
  charge_parts now hm d n parts db = (db <| db_ledger := L |>, inr n')
  ∧ (∀ a, ledger_sum a L = ledger_sum a db.(db_ledger)
      - (if d.(d_account) =?s a then foldr (λ p s, mulDivRound p.(hp_duration) hm hour_us + s) 0 parts else 0))
  ∧ (usage_ok db.(db_ledger) → usage_ok L).
Proof.
  induction parts as [|p parts IH]; intros n db; unfold charge_parts in *; cbn [fold_each foldr].
  { exists db.(db_ledger), n. split; [by destruct db|]. split; [|done]. intros a. destruct (_ =?s a); lia. }
  pose proof (mulDivRound_range p.(hp_duration) hm hour_us).
  destruct (Z.leb_spec (mulDivRound p.(hp_duration) hm hour_us) 0) as [Hz|Hpos].
  - destruct (IH n db) as (L & n' & Hrun & Hsum & Hok). exists L, n'. split; [exact Hrun|].
    split; [|done]. intros a. rewrite Hsum. destruct (_ =?s a); lia.
  - set (new := MkLedgerRow d.(d_account) "runtime"
      (- mulDivRound p.(hp_duration) hm hour_us)
      ("runtime:" +:+ d.(d_runtime) +:+ ":" +:+ format_hour p.(hp_start)) now).
    destruct (IH (n + 1) (db <| db_ledger ::= upsert_usage new |>)) as (L & n' & Hrun & Hsum & Hok).
    exists L, n'. split; [|split].
    + etransitivity; [exact Hrun|]. by destruct db.
    + intros a. rewrite Hsum. cbn. rewrite upsert_usage_sum. cbn. destruct (_ =?s a); lia.
    + intros H0. apply Hok. cbn. apply upsert_usage_ok; [done | cbn; lia | done].
Qed.

(** What metering one runtime charges the account [a], and how many trial
    seconds it adds to it. *)
Definition due_runs (now : Z) (d : due) : bool := (d.(d_status) =?s "running") && (d.(d_since) <? now).
Definition due_charge (now hm : Z) (a : string) (d : due) : Z :=
  if due_runs now d && (d.(d_source) =?s "paid") && (d.(d_account) =?s a)
  then run_charge hm d.(d_since) now else 0.
Definition due_seconds (now : Z) (a : string) (d : due) : Z :=
  if due_runs now d && (d.(d_source) =?s "trial") && (d.(d_account) =?s a)
  then round_seconds (now - d.(d_since)) else 0.
Definition sumZ {A} (f : A → Z) (l : list A) : Z := foldr (λ x s, f x + s) 0 l.

(** An entitlement after metering: more trial time used, the terms the same. *)
Definition metered (secs : Z) (e e' : Entitlement) : Prop :=
  e'.(en_trial_runtime_seconds_used) = e.(en_trial_runtime_seconds_used) + secs
  ∧ e'.(en_source) = e.(en_source) ∧ e'.(en_trial_runtime_seconds) = e.(en_trial_runtime_seconds).

Definition billed (now : Z) (r : Runtime) : Runtime := r <| rt_billed_through := Some now |>.

Definition entitlements_metered (secs : string → Z) (E E' : gmap string Entitlement) : Prop :=
  ∀ a, option_relation (metered (secs a)) (λ _, False) (λ _, False) (E !! a) (E' !! a).

(** The state after metering [rows] from [db]. *)
Definition metered_db (now : Z) (rows : list due) (L : list LedgerRow) (E : gmap string Entitlement) (db : Db) : Db :=
  db <| db_ledger := L |> <| db_entitlements := E |>
     <| db_runtimes := foldl (λ t d, alter (billed now) d.(d_runtime) t) db.(db_runtimes) rows |>.

Lemma entitlements_metered_refl E : entitlements_metered (λ _, 0) E E.
Proof. intros a. destruct (E !! a); cbn; [|done]. split; [lia | done]. Qed.

Lemma entitlements_metered_trans f g E E' E'' :
  entitlements_metered f E E' → entitlements_metered g E' E'' →
  entitlements_metered (λ a, f a + g a) E E''.
Proof.
  intros H1 H2 a. specialize (H1 a). specialize (H2 a).
  destruct (E !! a), (E' !! a), (E'' !! a); cbn in *; try done.
  destruct H1 as (?&?&?), H2 as (?&?&?). split_and!; [lia | congruence | congruence].
Qed.

Lemma entitlements_metered_ext f g E E' :
  (∀ a, f a = g a) → entitlements_metered f E E' → entitlements_metered g E E'.
Proof. intros Hfg H a. specialize (H a). by rewrite Hfg in H. Qed.

Lemma meter_one_spec now hm acc d db : ∃ L E acc',
  meter_one now hm acc d db = (metered_db now [d] L E db, inr acc')
  ∧ (∀ a, ledger_sum a L = ledger_sum a db.(db_ledger) - due_charge now hm a d)
  ∧ (usage_ok db.(db_ledger) → usage_ok L)
  ∧ entitlements_metered (λ a, due_seconds now a d) db.(db_entitlements) E.
Proof.
  destruct acc as [n t]. unfold meter_one, due_charge, due_seconds, due_runs, metered_db.
  destruct (_ && (d.(d_since) <? now)) eqn:Hruns; cbn [andb].
  2:{ exists db.(db_ledger), db.(db_entitlements), (n, t). split; [by destruct db|].
      split; [intros; lia|]. split; [done | apply entitlements_metered_refl]. }
  destruct (d.(d_source) =?s "trial") eqn:Ht.
  - apply str_eqb_eq in Ht. rewrite Ht. cbn [andb].
    eexists db.(db_ledger), (alter _ d.(d_account) db.(db_entitlements)), _.
    split; [by destruct db|].
    split; [intros; change ("trial" =?s "paid")%string with false; cbn; lia|]. split; [done|].
    intros a. rewrite lookup_alter. destruct (str_eqb d.(d_account) a) eqn:Ea.
    + apply str_eqb_eq in Ea. subst a. rewrite decide_True by done.
      destruct (_ !! _); cbn; [|done]. split; done.
    + apply str_eqb_neq in Ea. rewrite decide_False by done.
      destruct (_ !! _); cbn; [|done]. split; [lia | done].
  - destruct (d.(d_source) =?s "paid") eqn:Hp; cbn [andb].
    + destruct (charge_parts_spec now hm d (splitByHour d.(d_since) now) n db) as (L & n' & Hrun & Hsum & Hok).
      exists L, db.(db_entitlements), (n', t).
      split; [erewrite bind_inr; [|erewrite bind_inr; [reflexivity | exact Hrun]]; by destruct db|]. split; [exact Hsum|]. split; [exact Hok|]. apply entitlements_metered_refl.
    + exists db.(db_ledger), db.(db_entitlements), (n, t). split; [by destruct db|].
      split; [intros; lia|]. split; [done | apply entitlements_metered_refl].
Qed.

Lemma meter_fold_spec now hm rows : ∀ acc db, ∃ L E acc',
  fold_each (meter_one now hm) acc rows db = (metered_db now rows L E db, inr acc')
  ∧ (∀ a, ledger_sum a L = ledger_sum a db.(db_ledger) - sumZ (due_charge now hm a) rows)
  ∧ (usage_ok db.(db_ledger) → usage_ok L)
  ∧ entitlements_metered (λ a, sumZ (due_seconds now a) rows) db.(db_entitlements) E.
Proof.
  induction rows as [|d rows IH]; intros acc db; cbn [fold_each].
  - exists db.(db_ledger), db.(db_entitlements), acc. split; [by destruct db|].
    split; [cbn; intros; lia|]. split; [done | apply entitlements_metered_refl].
  - destruct (meter_one_spec now hm acc d db) as (L & E & acc1 & Hrun & Hsum & Hok & HE).
    destruct (IH acc1 (metered_db now [d] L E db)) as (L' & E' & acc2 & Hrun' & Hsum' & Hok' & HE').
    exists L', E', acc2. split; [|split; [|split]].
    + erewrite bind_inr by exact Hrun. rewrite Hrun'. by destruct db.
    + intros a. rewrite Hsum'. cbn. rewrite Hsum. unfold sumZ. cbn. lia.
    + intros H. apply Hok'. by apply Hok.
    + eapply entitlements_metered_ext; [|by eapply entitlements_metered_trans]. done.
Qed.

Lemma meterRuntimeTimeTX_spec now hm db : ∃ L E res,
  meterRuntimeTimeTX now hm db = (metered_db now (due_rows db) L E db, inr res)
  ∧ (∀ a, ledger_sum a L = ledger_sum a db.(db_ledger) - sumZ (due_charge now hm a) (due_rows db))
  ∧ (usage_ok db.(db_ledger) → usage_ok L)
  ∧ entitlements_metered (λ a, sumZ (due_seconds now a) (due_rows db)) db.(db_entitlements) E.
Proof.
  destruct (meter_fold_spec now hm (due_rows db) (0, 0) db) as (L & E & res & Hrun & H).
  exists L, E, res. split; [exact Hrun | exact H].
Qed.

Lemma lookup_billed now rows (t : gmap string Runtime) id :
  foldl (λ t d, alter (billed now) d.(d_runtime) t) t rows !! id
  = if existsb (λ d, d.(d_runtime) =?s id) rows then billed now <$> t !! id else t !! id.
Proof.
  revert t. induction rows as [|d rows IH]; intros t; cbn [foldl existsb]; [done|].
  rewrite IH, lookup_alter. destruct (d.(d_runtime) =?s id) eqn:E; cbn.
  - apply str_eqb_eq in E. rewrite decide_True by done.
    rewrite E. by destruct (existsb _ rows), (t !! id).
  - apply str_eqb_neq in E. by rewrite decide_False by done.
Qed.

Lemma elem_of_due_rows db d :
  d ∈ due_rows db ↔ ∃ r, db.(db_runtimes) !! d.(d_runtime) = Some r ∧ due_of db d.(d_runtime) r = Some d.
Proof.
  unfold due_rows. rewrite list_elem_of_omap. split.
  - intros ([id r] & Hin & Hd). cbn in Hd. apply elem_of_map_to_list in Hin.
    assert (d.(d_runtime) = id) as ->; [|by exists r].
    unfold due_of in Hd. simplify_option_eq. destruct (_ && _); [by simplify_eq | done].
  - intros (r & Hr & Hd). exists (d.(d_runtime), r). split; [by apply elem_of_map_to_list | done].
Qed.

(** Whether a runtime is metered at all depends on these columns only. *)
Definition meterable (E : gmap string Entitlement) (r : Runtime) : bool :=
  match E !! r.(rt_account_id), r.(rt_started_at) with
  | Some e, Some _ => ((e.(en_source) =?s "trial") || (e.(en_source) =?s "paid")) && wants_running r
  | _, _ => false
  end.

Lemma due_of_meterable db id r :
  due_of db id r = if meterable db.(db_entitlements) r
    then match db.(db_entitlements) !! r.(rt_account_id), r.(rt_started_at) with
         | Some e, Some st => Some (MkDue id r.(rt_account_id) e.(en_source) r.(rt_status)
                                      (Z.max (coalesce r.(rt_billed_through) st) st))
         | _, _ => None end
    else None.
Proof.
  unfold due_of, meterable, wants_running.
  destruct (db_entitlements db !! rt_account_id r); cbn; [|done].
  destruct (rt_started_at r); cbn; [|done]. by rewrite <-andb_assoc.
Qed.

Lemma due_of_Some db id r d :
  due_of db id r = Some d →
  ∃ st, r.(rt_started_at) = Some st ∧ rt_live r = true ∧ d.(d_account) = r.(rt_account_id)
        ∧ d.(d_since) = Z.max (coalesce r.(rt_billed_through) st) st.
Proof.
  unfold due_of. intros Hd. simplify_option_eq.
  destruct (rt_live r); [|by rewrite andb_false_r in Hd]. destruct (_ && _); [|done]. simplify_eq. eauto.
Qed.

(** Every metered runtime has been billed through [now]. *)
Definition all_billed (now : Z) (db : Db) : Prop :=
  ∀ id r, db.(db_runtimes) !! id = Some r → meterable db.(db_entitlements) r = true →
    r.(rt_billed_through) = Some now.

Lemma meterable_metered f E E' r :
  entitlements_metered f E E' → meterable E' r = meterable E r.
Proof.
  intros H. specialize (H r.(rt_account_id)). unfold meterable.
  destruct (E !! _), (E' !! _); cbn in H; try done. destruct H as (_ & -> & _). done.
Qed.

Lemma metered_db_all_billed now rows L E db f :
  rows = due_rows db → entitlements_metered f db.(db_entitlements) E →
  all_billed now (metered_db now rows L E db).
Proof.
  intros -> HE id r Hr Hm. cbn in Hr, Hm. rewrite lookup_billed in Hr.
  rewrite (meterable_metered _ _ _ _ HE) in Hm.
  destruct (existsb _ _) eqn:Hex.
  - apply fmap_Some in Hr as (r0 & _ & ->). done.
  - exfalso. apply not_true_iff_false in Hex. apply Hex, existsb_exists.
    assert (∃ d, due_of db id r = Some d ∧ d.(d_runtime) = id) as (d & Hd & Hid).
    { rewrite due_of_meterable, Hm. unfold meterable in Hm.
      destruct (_ !! rt_account_id r); [|done]. destruct (rt_started_at r); [|done]. by eexists. }
    exists d. split; [|by apply str_eqb_eq]. apply list_elem_of_In, elem_of_due_rows.
    exists r. by rewrite Hid.
Qed.

(** Metering again when everything is billed through [now] changes nothing. *)
Lemma set_runtimes_id g db :
  g db.(db_runtimes) = db.(db_runtimes) → db <| db_runtimes ::= g |> = db.
Proof. destruct db. unfold set_field. cbn. by intros ->. Qed.

Lemma meter_settled now hm rows db acc :
  (∀ d, d ∈ rows → now ≤ d.(d_since)
     ∧ ∀ r, db.(db_runtimes) !! d.(d_runtime) = Some r → r.(rt_billed_through) = Some now) →
  fold_each (meter_one now hm) acc rows db = (db, inr acc).
Proof.
  revert acc. induction rows as [|d rows IH]; intros [n t] H; cbn [fold_each]; [done|].
  destruct (H d (list_elem_of_here _ _)) as [Hs Hb]. erewrite bind_inr; [apply IH; set_solver|].
  unfold meter_one. rewrite (proj2 (Z.ltb_ge _ _) Hs), andb_false_r.
  unfold set_runtime, modify, mbind, M_bind, mret, M_ret. rewrite set_runtimes_id; [done|].
  apply alter_fixed. intros r Hr. apply Hb in Hr. destruct r. cbn in *. by subst.
Qed.

Lemma meterRuntimeTimeTX_settled now hm db :
  all_billed now db → meterRuntimeTimeTX now hm db = (db, inr (0, 0)).
Proof.
  intros Hall. unfold meterRuntimeTimeTX. erewrite bind_inr by reflexivity.
  apply meter_settled. intros d Hd. apply elem_of_due_rows in Hd as (r & Hr & Hd).
  rewrite due_of_meterable in Hd. destruct (meterable _ r) eqn:Hm; [|done].
  pose proof (Hall _ _ Hr Hm) as Hb. split; [|congruence].
  destruct (_ !! rt_account_id r); [|done]. destruct (rt_started_at r); [|done].
  apply (f_equal (fmap d_since)) in Hd. cbn in Hd. rewrite Hb in Hd. cbn in Hd. injection Hd as Hd. lia.
Qed.

(** *** Storage *)

Definition storage_unbilled (now : Z) (db : Db) (id : string) (a : Account) : bool :=
  match db.(db_entitlements) !! id with
  | Some e => e.(en_source) =?s "paid"
  | None => false
  end
  && is_null a.(ac_deleted_at)
  && match a.(ac_storage_billed_on) with None => true | Some d => d <? utc_date now end.

Lemma elem_of_storage_due now db id :
  id ∈ storage_due now db ↔ ∃ a, db.(db_accounts) !! id = Some a ∧ storage_unbilled now db id a = true.
Proof.
  unfold storage_due. rewrite list_elem_of_fmap. split.
  - intros ([id' a] & -> & Hin). apply elem_of_select in Hin as [??]. by exists a.
  - intros (a & Ha & Hp). exists (id, a). split; [done|]. by apply elem_of_select.
Qed.

(** Charging one account's storage ends in an error, or leaves everything but
    the ledger and the account's billing day as it was. *)
Lemma charge_storage_one_spec now gib n id db :
  wp (charge_storage_one now gib n id)
     (λ _ db', ∃ L, db' = db <| db_ledger := L |>
                            <| db_accounts ::= alter (λ a, a <| ac_storage_billed_on := Some (utc_date now) |>) id |>
                    ∧ (usage_ok db.(db_ledger) → usage_ok L))
     (λ _ _, True) db.
Proof.
  unfold charge_storage_one. rewrite wp_bind, wp_gets.
  destruct (accountStorageBytesUsed id db) as [e|used]; [done|].
  destruct (Z.ltb_spec 0 (mulDivRound used gib (2 ^ 30 * 30))) as [Hpos|_].
  - eexists (upsert_usage _ _). split; [by destruct db|]. intros Hok. cbn.
    apply upsert_usage_ok; [done | cbn; lia | done].
  - exists db.(db_ledger). split; [by destruct db | done].
Qed.

Definition storage_frame (db : Db) :=
  (db.(db_runtimes), db.(db_entitlements), db.(db_sessions), db.(db_deposits)).

Lemma chargeStorageTX_spec now gib db :
  wp (chargeStorageTX now gib)
     (λ _ db', storage_frame db' = storage_frame db ∧ (usage_ok db.(db_ledger) → usage_ok db'.(db_ledger))
               ∧ (0 < gib → storage_due now db' = []))
     (λ _ _, True) db.
Proof.
  unfold chargeStorageTX. destruct (Z.leb_spec gib 0) as [Hg|Hg]; [split_and!; [done|done|lia]|].
  rewrite wp_bind, wp_gets.
  eapply wp_mono; [apply (wp_fold _ (λ _ xs db', storage_frame db' = storage_frame db
      ∧ (usage_ok db.(db_ledger) → usage_ok db'.(db_ledger))
      ∧ ∀ id, id ∈ storage_due now db' → id ∈ xs) (λ _ _, True)) | | done].
  - split_and!; [done | done | done].
  - intros n id ids db1 (Hfr & Hok & Hin). eapply wp_mono; [apply charge_storage_one_spec | | done].
    intros _ db2 (L & -> & HL). cbn. split; [exact Hfr|]. split; [auto|].
    intros id' Hid'. apply elem_of_storage_due in Hid' as (a & Ha & Hun). cbn in Ha.
    rewrite lookup_alter in Ha. case_decide as Hne.
    + apply fmap_Some in Ha as (a0 & _ & ->). unfold storage_unbilled in Hun. cbn in Hun.
      by rewrite Z.ltb_irrefl, andb_false_r in Hun.
    + assert (id' ∈ id :: ids) as [->|?]%elem_of_cons; [|done|done].
      apply Hin, elem_of_storage_due. exists a. split; [exact Ha | exact Hun].
  - intros n db' (Hfr & Hok & Hin). split_and!; [done | done |]. intros _.
    destruct (storage_due now db') as [|x l]; [done|]. exfalso.
    eapply not_elem_of_nil, Hin. left.
Qed.

Lemma chargeStorageTX_settled now gib db :
  (0 < gib → storage_due now db = []) → chargeStorageTX now gib db = (db, inr 0).
Proof.
  intros H. unfold chargeStorageTX. destruct (Z.leb_spec gib 0); [done|].
  erewrite bind_inr by reflexivity. by rewrite H.
Qed.

(** *** Stops *)

(** The state after stopping the candidates: their rows updated, and the
    sessions, logs and capabilities changed in some way. *)
Lemma queueRuntimeStopsTX_spec now cand reason msg db : ∃ S G C,
  queueRuntimeStopsTX now cand reason msg db
  = (db <| db_runtimes ::= update_where (cand db) (queue_stop now) |>
        <| db_sessions := S |> <| db_runtime_logs := G |> <| db_capabilities := C |>,
     inr (select (cand db) db.(db_runtimes)).*1).
Proof.
  unfold queueRuntimeStopsTX. erewrite bind_inr by reflexivity. cbv zeta.
  erewrite bind_inr by reflexivity.
  set (ids := (select (cand db) db.(db_runtimes)).*1).
  set (db1 := db <| db_runtimes ::= update_where (cand db) (queue_stop now) |>).
  assert (Hloop : ∀ ids db, ∃ S G C, for_each (λ runtimeID,
     closeRuntimeSessionsTX now runtimeID reason;;
     appendRuntimeLogTX now runtimeID "system" "warn" msg;;
     revokeRuntimeCapabilitiesForRuntimeTX now runtimeID;; mret tt) ids db
     = (db <| db_sessions := S |> <| db_runtime_logs := G |> <| db_capabilities := C |>, inr tt)).
  { clear. unfold for_each. induction ids as [|id ids IH]; intros db.
    - exists db.(db_sessions), db.(db_runtime_logs), db.(db_capabilities). by destruct db.
    - cbn [fold_each]. erewrite bind_inr by reflexivity.
      destruct (IH (db <| db_sessions ::= update_where (λ _ s, (s.(se_runtime_id) =?s id) && session_live s)
          (end_session now "closed" (TrimSpace reason)) |>
        <| db_runtime_logs ::= append_log now id
             (truncateRunes (defaultString "system" "system") runtimeLogSourceRunes)
             (truncateRunes (defaultString "warn" "info") runtimeLogLevelRunes)
             (truncateRunes (TrimSpace msg) runtimeLogMessageRunes) |>
        <| db_capabilities ::= update_where (λ _ c, (c.(ca_runtime_id) =?s TrimSpace id) && is_null c.(ca_revoked_at))
             (revoke_capability now) |>)) as (S & G & C & Hrun).
      exists S, G, C. etransitivity; [exact Hrun|]. by destruct db. }
  destruct (Hloop ids db1) as (S & G & C & Hrun). exists S, G, C.
  erewrite bind_inr by exact Hrun. done.
Qed.

Lemma queueRuntimeStopsTX_none now cand reason msg db :
  (∀ id r, db.(db_runtimes) !! id = Some r → cand db id r = false) →
  queueRuntimeStopsTX now cand reason msg db = (db, inr []).
Proof.
  intros Hn. unfold queueRuntimeStopsTX. erewrite bind_inr by reflexivity. cbv zeta.
  rewrite select_nil by done. erewrite bind_inr by reflexivity.
  rewrite set_runtimes_id by (by apply update_where_id). done.
Qed.

(** A stopped runtime is neither metered nor a candidate again. *)
Lemma queue_stop_not_running now r : wants_running (queue_stop now r) = false.
Proof. unfold wants_running. cbn. by rewrite andb_false_r. Qed.

Lemma not_running_not_meterable E r : wants_running r = false → meterable E r = false.
Proof.
  intros H. unfold meterable. destruct (_ !! _); [|done]. destruct (rt_started_at r); [|done].
  by rewrite H, andb_false_r.
Qed.

(** ** The metering pass *)

(** Nothing is left to do at [now]: running time is billed, the day's storage is
    charged, and no runtime runs on a used-up trial or balance. *)
Definition settled (p : Pricing) (now : Z) (db : Db) : Prop :=
  all_billed now db
  ∧ (Enabled p = true → 0 < p.(StorageGiBMonthMicro) → storage_due now db = [])
  ∧ (∀ id r, db.(db_runtimes) !! id = Some r → trial_over db id r = false)
  ∧ (Enabled p = true → ∀ id r, db.(db_runtimes) !! id = Some r → without_balance db id r = false).

Lemma atomically_inr {S E A} (m : M S E A) s s' a : atomically m s = (s', inr a) ↔ m s = (s', inr a).
Proof. unfold atomically. destruct (m s) as [? [?|?]]; naive_solver. Qed.

Lemma settled_noop p now db : settled p now db → MeterUsage p now db = (db, inr (MkUsageResult 0 0 0 [])).
Proof.
  intros (Hb & Hs & Ht & Hw). unfold MeterUsage. apply atomically_inr.
  erewrite bind_inr by (by apply meterRuntimeTimeTX_settled). cbv beta iota.
  erewrite bind_inr.
  2:{ destruct (Enabled p) eqn:He; [|reflexivity]. apply chargeStorageTX_settled. auto. }
  erewrite bind_inr by (by apply queueRuntimeStopsTX_none).
  erewrite bind_inr; [reflexivity|].
  destruct (Enabled p) eqn:He; [|reflexivity]. apply queueRuntimeStopsTX_none. auto.
Qed.

(** What one stop does to the parts of [settled]. *)
Lemma stopped_not_candidate now cand (db : Db) r' id :
  (∀ r, wants_running r = false → cand r = false) →
  update_where (λ _, cand) (queue_stop now) db.(db_runtimes) !! id = Some r' → cand r' = false.
Proof.
  intros Hc Hr. apply update_where_Some in Hr as (r & _ & ->).
  destruct (cand r) eqn:E; [|done]. apply Hc, queue_stop_not_running.
Qed.

Lemma all_billed_stops now cand reason msg db db' r :
  queueRuntimeStopsTX now cand reason msg db = (db', r) → all_billed now db → all_billed now db'.
Proof.
  destruct (queueRuntimeStopsTX_spec now cand reason msg db) as (S & G & C & ->). intros [= <- <-] Hb.
  intros id r' Hr' Hm. cbn in Hr', Hm. apply update_where_Some in Hr' as (r0 & Hr0 & ->).
  destruct (cand db id r0); [|by apply (Hb id)].
  by rewrite not_running_not_meterable in Hm by apply queue_stop_not_running.
Qed.

Lemma trial_over_running db id r : wants_running r = false → trial_over db id r = false.
Proof. intros H. unfold trial_over. destruct (_ !! _); [|done]. by rewrite H, andb_false_r. Qed.
Lemma without_balance_running db id r : wants_running r = false → without_balance db id r = false.
Proof. intros H. unfold without_balance. destruct (_ !! _); [|done]. by rewrite H, andb_false_r. Qed.

(** After queueing stops for [cand] no runtime is a candidate, and no other
    stopping condition that held nowhere starts to hold. *)
Lemma queue_stops_clears now cand cand' reason msg db db' res :
  (∀ db1 id r, wants_running r = false → cand' db1 id r = false) →
  (∀ db1 db2 id r, db1.(db_entitlements) = db2.(db_entitlements) → db1.(db_ledger) = db2.(db_ledger) →
     cand' db1 id r = cand' db2 id r) →
  queueRuntimeStopsTX now cand reason msg db = (db', res) →
  (∀ id r, db.(db_runtimes) !! id = Some r → cand db id r = false → cand' db id r = false) →
  ∀ id r, db'.(db_runtimes) !! id = Some r → cand' db' id r = false.
Proof.
  intros Hrun Hext. destruct (queueRuntimeStopsTX_spec now cand reason msg db) as (S & G & C & ->).
  intros [= <- <-] Hc id r Hr. cbn in Hr. rewrite (Hext _ db) by done.
  apply update_where_Some in Hr as (r0 & Hr0 & ->). destruct (cand db id r0) eqn:E; [|auto].
  apply Hrun, queue_stop_not_running.
Qed.

Lemma trial_over_ext db1 db2 id r :
  db1.(db_entitlements) = db2.(db_entitlements) → db1.(db_ledger) = db2.(db_ledger) →
  trial_over db1 id r = trial_over db2 id r.
Proof. unfold trial_over. by intros -> _. Qed.
Lemma without_balance_ext db1 db2 id r :
  db1.(db_entitlements) = db2.(db_entitlements) → db1.(db_ledger) = db2.(db_ledger) →
  without_balance db1 id r = without_balance db2 id r.
Proof. unfold without_balance. by intros -> ->. Qed.

Lemma storage_due_ext now db1 db2 :
  db1.(db_entitlements) = db2.(db_entitlements) → db1.(db_accounts) = db2.(db_accounts) →
  storage_due now db1 = storage_due now db2.
Proof. unfold storage_due. by intros -> ->. Qed.

(** The four stages of a pass that succeeds. *)
Lemma MeterUsage_stages p now db db' res :
  MeterUsage p now db = (db', inr res) → ∃ db1 db2 db3 a n ids ids',
    meterRuntimeTimeTX now p.(RuntimeHourMicro) db = (db1, inr a)
    ∧ (if Enabled p then chargeStorageTX now p.(StorageGiBMonthMicro) else mret 0) db1 = (db2, inr n)
    ∧ queueRuntimeStopsTX now trial_over "trial runtime time used up"
        "Runtime stop queued because the trial's hour of running time is used up." db2 = (db3, inr ids)
    ∧ (if Enabled p then queueRuntimeStopsTX now without_balance "USDT balance used up"
        "Runtime stop queued because the account's USDT balance is used up." else mret []) db3 = (db', inr ids').
Proof.
  unfold MeterUsage. rewrite atomically_inr.
  intros (db1 & [n t] & H1 & (db2 & m & H2 & (db3 & ids & H3 & (db4 & ids' & H4 & H5)%bind_inv)%bind_inv)%bind_inv)%bind_inv.
  injection H5 as <- _. by exists db1, db2, db3, (n, t), m, ids, ids'.
Qed.

Lemma storage_stage p now db1 db2 n :
  (if Enabled p then chargeStorageTX now p.(StorageGiBMonthMicro) else mret 0) db1 = (db2, inr n) →
  storage_frame db2 = storage_frame db1
  ∧ (usage_ok db1.(db_ledger) → usage_ok db2.(db_ledger))
  ∧ (Enabled p = true → 0 < p.(StorageGiBMonthMicro) → storage_due now db2 = []).
Proof.
  intros H. destruct (Enabled p).
  - pose proof (wp_run _ _ _ _ _ _ (chargeStorageTX_spec now _ db1) H) as (?&?&?). split_and!; auto.
  - injection H as -> <-. split_and!; done.
Qed.

Lemma balance_stage p now db3 db' ids' :
  (if Enabled p then queueRuntimeStopsTX now without_balance "USDT balance used up"
     "Runtime stop queued because the account's USDT balance is used up." else mret []) db3 = (db', inr ids') →
  db' = db3 ∧ Enabled p = false
  ∨ Enabled p = true ∧ queueRuntimeStopsTX now without_balance "USDT balance used up"
     "Runtime stop queued because the account's USDT balance is used up." db3 = (db', inr ids').
Proof. destruct (Enabled p); [auto|]. intros [= -> <-]. auto. Qed.

Lemma MeterUsage_settles p now db db' res : MeterUsage p now db = (db', inr res) → settled p now db'.
Proof.
  intros (db1 & db2 & db3 & a & n & ids & ids' & H1 & H2 & H3 & H4)%MeterUsage_stages.
  destruct (meterRuntimeTimeTX_spec now p.(RuntimeHourMicro) db) as (L & E & r & Hm & _ & _ & HE).
  rewrite Hm in H1. injection H1 as <- <-.
  pose proof (metered_db_all_billed now _ L E db _ eq_refl HE) as Hb.
  apply storage_stage in H2 as (Hfr & _ & Hs). unfold storage_frame in Hfr. injection Hfr as Hr He _ _.
  assert (all_billed now db2) as Hb2.
  { intros id r0. rewrite Hr, He. apply Hb. }
  assert (all_billed now db3) as Hb3 by (by eapply all_billed_stops).
  assert (Ht3 : ∀ id r0, db3.(db_runtimes) !! id = Some r0 → trial_over db3 id r0 = false).
  { eapply (queue_stops_clears now trial_over trial_over); [apply trial_over_running | apply trial_over_ext | exact H3 | done]. }
  assert (Hs3 : Enabled p = true → 0 < p.(StorageGiBMonthMicro) → storage_due now db3 = []).
  { destruct (queueRuntimeStopsTX_spec now trial_over "trial runtime time used up"
      "Runtime stop queued because the trial's hour of running time is used up." db2) as (?&?&?&Heq).
    rewrite Heq in H3. injection H3 as <- <-. intros. rewrite (storage_due_ext _ _ db2) by done. auto. }
  apply balance_stage in H4 as [[-> Hen]|[Hen H4]].
  - split; [done|]. split; [done|]. split; [done|]. congruence.
  - split; [by eapply all_billed_stops|]. split; [|split].
    + destruct (queueRuntimeStopsTX_spec now without_balance "USDT balance used up"
        "Runtime stop queued because the account's USDT balance is used up." db3) as (?&?&?&Heq).
      rewrite Heq in H4. injection H4 as <- <-. intros. rewrite (storage_due_ext _ _ db3) by done. auto.
    + eapply (queue_stops_clears now without_balance trial_over);
        [apply trial_over_running | apply trial_over_ext | exact H4 | auto].
    + intros _. eapply (queue_stops_clears now without_balance without_balance);
        [apply without_balance_running | apply without_balance_ext | exact H4 | done].
Qed.


(** The charge of one part of an hour, at most half a millionth off. *)
Lemma part_charge_close d hm :
  0 < d ≤ hour_us → 0 ≤ hm ≤ max_int64 →
  - hour_us ≤ 2 * (hour_us * mulDivRound d hm hour_us - d * hm) ≤ hour_us.
Proof.
  intros Hd Hhm. destruct (decide (hm = 0)) as [->|Hne].
  { unfold mulDivRound. rewrite orb_true_r. cbn [orb]. hlia. }
  assert (Hd2 : hour_us / 2 * 2 = hour_us) by done.
  assert (Hle : d * hm ≤ hour_us * hm) by nia.
  rewrite mulDivRound_exact; [|lia|lia|done|].
  - pose proof (Z.mul_div_le (d * hm + hour_us / 2) hour_us hour_us_pos).
    pose proof (Z.mul_succ_div_gt (d * hm + hour_us / 2) hour_us hour_us_pos). lia.
  - assert ((d * hm + hour_us / 2) / hour_us < hm + 1); [|lia].
    apply Z.div_lt_upper_bound; [done|]. pose proof hour_us_pos. lia.
Qed.

Lemma parts_charge_close hm parts :
  0 ≤ hm ≤ max_int64 → Forall (λ p, 0 < p.(hp_duration) ≤ hour_us) parts →
  2 * Z.abs (hour_us * foldr (λ p s, mulDivRound p.(hp_duration) hm hour_us + s) 0 parts
             - durations parts * hm) ≤ hour_us * Z.of_nat (length parts).
Proof.
  intros Hhm. induction 1 as [|p parts Hp _ IH]; cbn [durations foldr length]; [lia|].
  pose proof (part_charge_close _ _ Hp Hhm). fold (durations parts). hlia.
Qed.

(** ** A concrete database *)

(** One paid account with 3 USDT, whose runtime has run for two hours, and one
    account on trial that has 10 minutes left of its hour. *)
Definition sample_run (account : string) : Runtime :=
  default_runtime account "running" 0 <| rt_desired_state := "running"%string |>
    <| rt_connection_status := "online"%string |> <| rt_host_id := Some "node-1"%string |>
    <| rt_started_at := Some (1000 * hour_us) |>.
Definition sample_paid : Entitlement := default_entitlement 0 <| en_source := "paid"%string |>.
Definition sample_db : Db :=
  empty_db <| db_accounts := {["paid" := default_account 0; "trial" := default_account 0]} |>
    <| db_entitlements := {["paid" := sample_paid;
                           "trial" := default_entitlement 0 <| en_trial_runtime_seconds_used := 3000 |>]} |>
    <| db_runtimes := {["r1" := sample_run "paid"; "r2" := sample_run "trial"]} |>
    <| db_ledger := [MkLedgerRow "paid" "deposit" 3000000 "tron:aa" 0] |>.
Definition sample_pricing : Pricing := MkPricing 250000 50000.
(** The pass two hours and a half after the start, on the sample. *)
Definition sample_pass : Db * (Err + UsageResult) :=
  MeterUsage sample_pricing (1002 * hour_us + 30 * minute_us) sample_db.

(** ** Properties *)

(** C40: [splitByHour] returns exactly the overlaps of the interval with the UTC
    hours it touches, in order and each named by its hour; nothing for an
    empty interval. *)
Theorem splitByHour_spec from to :
  splitByHour from to =
    if from <? to
    then hour_overlap from to <$> seqZ (from / hour_us) ((to - 1) / hour_us - from / hour_us + 1)
    else [].
Proof.
  destruct (Z.ltb_spec from to); [by apply splitByHour_overlaps | by apply splitByHour_nil].
Qed.

(** What a paid account is charged for a run differs from the exact price
    of the time by at most half a millionth of a USDT per UTC hour touched. *)
Theorem run_charge_accurate hm from to (Hhm : 0 ≤ hm ≤ max_int64) (Hft : from ≤ to) :
  2 * Z.abs (hour_us * run_charge hm from to - (to - from) * hm)
  ≤ hour_us * Z.of_nat (length (splitByHour from to)).
Proof.
  unfold run_charge. replace (to - from) with (durations (splitByHour from to))
    by (rewrite splitByHour_durations; lia).
  apply parts_charge_close; [done|]. apply Forall_forall. intros p Hp.
  by apply splitByHour_elem in Hp as (_ & ? & _).
Qed.

Lemma run_charge_accurate_witness :
  2 * Z.abs (hour_us * run_charge 250000 1799999999 (5 * hour_us + 1) - (5 * hour_us + 1 - 1799999999) * 250000)
  ≤ hour_us * Z.of_nat (length (splitByHour 1799999999 (5 * hour_us + 1)))
  ∧ run_charge 250000 1799999999 (5 * hour_us + 1) = 1125000.
Proof. split; [apply run_charge_accurate; vm_compute; intuition congruence | vm_compute; reflexivity]. Defined.

(** [mulDivRound] is the half-up rounding of [a * b / c], computed without
    overflow, or 0 when the result does not fit an int64 or an argument is not
    positive. *)
Lemma mulDivRound_spec a b c :
  mulDivRound a b c =
    if (0 <? a) && (0 <? b) && (0 <? c) && ((2 * (a * b) + c) / (2 * c) <=? max_int64)
    then (2 * (a * b) + c) / (2 * c) else 0.
Proof.
  destruct (Z.ltb_spec 0 a) as [Ha|Ha], (Z.ltb_spec 0 b) as [Hb|Hb], (Z.ltb_spec 0 c) as [Hc|Hc]; cbn [andb];
    try (unfold mulDivRound; destruct (Z.leb_spec a 0), (Z.leb_spec b 0), (Z.leb_spec c 0); cbn; lia).
  assert (Heq : (2 * (a * b) + c) / (2 * c) = (a * b + c / 2) / c).
  { rewrite <-Z.div_div by lia. f_equal. rewrite <-Z.div_add_l by lia.
    f_equal. lia. }
  rewrite Heq. destruct (Z.leb_spec ((a * b + c / 2) / c) max_int64) as [Hfit|Hbig].
  - by apply mulDivRound_exact.
  - unfold mulDivRound. destruct (Z.leb_spec a 0), (Z.leb_spec b 0), (Z.leb_spec c 0); cbn; try lia.
    assert (0 ≤ c / 2) by (apply Z.div_pos; lia). assert (0 < a * b) by nia.
    rewrite (Z.quot_div_nonneg c 2), Z.quot_div_nonneg by lia. unfold is_int64.
    by rewrite (proj2 (Z.leb_gt _ max_int64)), andb_false_r.
Qed.

(** C10: metering charges each account exactly for the runs that are due: the
    balance falls by the sum of their charges, the trial time used rises by the
    sum of their rounded seconds, and the pass never fails. *)
Theorem meterRuntimeTimeTX_charges now hm db :
  ∃ db' res, meterRuntimeTimeTX now hm db = (db', inr res)
  ∧ (∀ a, ledger_sum a db'.(db_ledger) = ledger_sum a db.(db_ledger) - sumZ (due_charge now hm a) (due_rows db))
  ∧ entitlements_metered (λ a, sumZ (due_seconds now a) (due_rows db)) db.(db_entitlements) db'.(db_entitlements).
Proof.
  destruct (meterRuntimeTimeTX_spec now hm db) as (L & E & res & Hrun & Hsum & _ & HE).
  eexists _, res. split; [exact Hrun|]. split; [exact Hsum | exact HE].
Qed.

(** After a metering pass, passing again at the same time changes nothing:
    no charge, no trial time, no stop. *)
Theorem MeterUsage_idempotent p now db db' res (H : MeterUsage p now db = (db', inr res)) :
  MeterUsage p now db' = (db', inr (MkUsageResult 0 0 0 [])).
Proof. by eapply settled_noop, MeterUsage_settles. Qed.

(** C26: after a metering pass no runtime keeps running on a used-up trial, nor,
    while charging is on, on a balance that is not positive. *)
Theorem MeterUsage_stops p now db db' res (H : MeterUsage p now db = (db', inr res)) id r
    (Hr : db'.(db_runtimes) !! id = Some r) (Hrun : wants_running r = true) e
    (He : db'.(db_entitlements) !! r.(rt_account_id) = Some e) :
  (e.(en_source) = "trial"%string → e.(en_trial_runtime_seconds_used) < e.(en_trial_runtime_seconds))
  ∧ (Enabled p = true → e.(en_source) = "paid"%string → 0 < ledger_sum r.(rt_account_id) db'.(db_ledger)).
Proof.
  apply MeterUsage_settles in H as (_ & _ & Ht & Hw). split.
  - intros Hs. specialize (Ht id r Hr). unfold trial_over in Ht. rewrite He, Hs, Hrun, str_eqb_refl in Ht.
    cbn [andb] in Ht. by apply Z.leb_gt in Ht.
  - intros Hen Hs. specialize (Hw Hen id r Hr). unfold without_balance in Hw.
    rewrite He, Hs, Hrun, str_eqb_refl in Hw. cbn [andb] in Hw. by apply Z.leb_gt in Hw.
Qed.

Lemma MeterUsage_idempotent_witness :
  MeterUsage sample_pricing (1002 * hour_us + 30 * minute_us) sample_pass.1
  = (sample_pass.1, inr (MkUsageResult 0 0 0 []))
  ∧ ledger_sum "paid" sample_pass.1.(db_ledger) = 2375000.
Proof.
  split; [|vm_compute; reflexivity].
  apply (MeterUsage_idempotent _ _ sample_db _ (MkUsageResult 3 0 9000 ["r2"%string])).
  apply run_of. vm_compute. reflexivity.
Defined.

Lemma MeterUsage_stops_witness :
  (∃ r, sample_pass.1.(db_runtimes) !! "r2"%string = Some r ∧ wants_running r = false)
  ∧ 0 < ledger_sum "paid" sample_pass.1.(db_ledger).
Proof.
  split; [eexists; split; vm_compute; reflexivity|].
  apply (MeterUsage_stops sample_pricing (1002 * hour_us + 30 * minute_us) sample_db sample_pass.1
           (MkUsageResult 3 0 9000 ["r2"%string])
           ltac:(apply run_of; vm_compute; reflexivity) "r1"%string
           (billed (1002 * hour_us + 30 * minute_us) (sample_run "paid"))
           ltac:(vm_compute; reflexivity) ltac:(vm_compute; reflexivity)
           sample_paid ltac:(vm_compute; reflexivity)); reflexivity.
Defined.
