(* ===== verification/Wallet.v ===== *)
(** * USDT wallets

    Models internal/store/wallet.go: the deposit index an account gets the first
    time its wallet is opened, the list of addresses to watch, and the crediting
    of confirmed transfers.  The payments service (cmd/virtroid-payments) reports
    each transfer until it is acknowledged, so crediting must be idempotent. *)

From Stdlib Require Import Ascii.
From S2P Require Import Prelude.
From S2P Require Import GoLib.
From S2P Require Import Schema.
From S2P Require Import Common.
From S2P Require Import Manifests.
From S2P Require Import Billing.
Open Scope Z_scope.

Definition PaidRuntimeLimit : Z := 10.
Definition PaidRuntimeStartsPerDay : Z := 1000.
Definition PaidStorageBytesLimit : Z := Z.shiftl 64 30.

(** MAXVALUE of account_deposit_index_seq. *)
Definition max_deposit_index : Z := 2147483647.

Record WalletDeposit := MkWalletDeposit {
  wd_tx_id : string; wd_amount_micro : Z; wd_block_time : Z; wd_credited_at : Z }.
Record LedgerEntry := MkLedgerEntry {
  ent_kind : string; ent_amount_micro : Z; ent_reference : string; ent_created_at : Z }.
Record Wallet := MkWallet {
  wl_deposit_index : Z;
  wl_balance_micro : Z;
  wl_plan : string;
  wl_trial_seconds_left : Z;
  wl_deposits : list WalletDeposit;
  wl_entries : list LedgerEntry
}.

(** ** Opening a wallet *)

Definition ac_live (a : Account) : bool := is_null a.(ac_deleted_at).

(** The account's index: the one it has, or the sequence's next value; the
    column is unique and the sequence bounded. *)
Definition take_deposit_index (a : Account) : Tx Z :=
  match a.(ac_deposit_index) with
  | Some i => mret i
  | None =>
    db ← gets id;
    let i := db.(db_deposit_index_seq) in
    refuse_if (max_deposit_index <? i) (ErrText "nextval: reached maximum value of sequence");;
    refuse_if (exists_where (λ _ b, bool_decide (b.(ac_deposit_index) = Some i)) db.(db_accounts))
      (ErrUnique "accounts_deposit_index_key");;
    modify (λ db, db <| db_deposit_index_seq := i + 1 |>);;
    mret i
  end.

Definition wallet_deposits (accountID : string) (db : Db) : list WalletDeposit :=
  take 20 ((λ kd : (string * string) * Deposit,
      MkWalletDeposit kd.1.1 kd.2.(de_amount_micro) kd.2.(de_block_time) kd.2.(de_credited_at))
    <$> order_by (λ x y : (string * string) * Deposit, y.2.(de_block_time) <=? x.2.(de_block_time))
          (select (λ _ d, d.(de_account_id) =?s accountID) db.(db_deposits))).

Definition wallet_entries (accountID : string) (db : Db) : list LedgerEntry :=
  take 50 ((λ r, MkLedgerEntry r.(le_kind) r.(le_amount_micro) r.(le_reference) r.(le_created_at))
    <$> reverse (List.filter (λ r, r.(le_account_id) =?s accountID) db.(db_ledger))).

Definition AccountWallet (now : Z) (accountID : string) : Tx Wallet := atomically (
  let accountID := TrimSpace accountID in
  db ← gets id;
  a ← require (db.(db_accounts) !! accountID) ErrAccountNotFound;
  refuse_if (negb (ac_live a)) ErrAccountNotFound;;
  i ← take_deposit_index a;
  set_account accountID (λ a, a <| ac_deposit_index := Some i |> <| ac_wallet_viewed_at := Some now |>);;
  db ← gets id;
  let '(plan, seconds) :=
    match db.(db_entitlements) !! accountID with
    | None => ("none"%string, 0)
    | Some e => (e.(en_source), Z.max (e.(en_trial_runtime_seconds) - e.(en_trial_runtime_seconds_used)) 0)
    end in
  mret (MkWallet i (ledger_sum accountID db.(db_ledger)) plan
          (if plan =?s "trial" then seconds else 0)
          (wallet_deposits accountID db) (wallet_entries accountID db))).

(** ** The watch list *)

Record DepositWatch := MkDepositWatch { dw_index : Z; dw_viewed_at : option Z }.

(** [ORDER BY wallet_viewed_at DESC NULLS LAST, deposit_index]. *)
Definition watch_le (x y : DepositWatch) : bool :=
  match x.(dw_viewed_at), y.(dw_viewed_at) with
  | Some s, Some t => (t <? s) || ((t =? s) && (x.(dw_index) <=? y.(dw_index)))
  | Some _, None => true
  | None, Some _ => false
  | None, None => x.(dw_index) <=? y.(dw_index)
  end.

Definition watched (db : Db) : list DepositWatch :=
  omap (λ ka : string * Account,
      if ac_live ka.2 then (λ i, MkDepositWatch i ka.2.(ac_wallet_viewed_at)) <$> ka.2.(ac_deposit_index) else None)
    (map_to_list db.(db_accounts)).

Definition DepositWatchList (limit : Z) (db : Db) : list DepositWatch :=
  take (Z.to_nat (Z.max limit 1)) (order_by watch_le (watched db)).

(** ** Crediting *)

Record DepositCredit := MkDepositCredit {
  dc_tx_id : string; dc_address : string; dc_index : Z; dc_amount_micro : Z; dc_block_time : Z }.

(** CHECK (tx_id ~ '^[0-9a-f]{64}$'). *)
Definition valid_tx_id (id : string) : bool :=
  (str_len id =? 64) && hex_ok id && (ToLower id =?s id).

(** The live account that owns a deposit index. *)
Definition owns_index (i : Z) (_ : string) (a : Account) : bool :=
  bool_decide (a.(ac_deposit_index) = Some i) && ac_live a.

(** The first deposit's switch of the entitlement. *)
Definition to_paid (now : Z) (e : Entitlement) : Entitlement :=
  e <| en_source := "paid"%string |> <| en_expires_at := None |>
    <| en_runtime_limit ::= Z.max PaidRuntimeLimit |>
    <| en_runtime_starts_per_day ::= Z.max PaidRuntimeStartsPerDay |>
    <| en_storage_bytes_limit ::= Z.max PaidStorageBytesLimit |>
    <| en_updated_at := now |>.

Definition on_trial (e : Entitlement) : bool := e.(en_source) =?s "trial".

(** Which runtimes are billed from now on when the trial ends. *)
Definition started_of (accountID : string) (_ : string) (r : Runtime) : bool :=
  (r.(rt_account_id) =?s accountID) && not_null r.(rt_started_at) && rt_live r.

Definition end_trial (now : Z) (accountID : string) : Tx unit :=
  e ← gets (λ db, db.(db_entitlements) !! accountID);
  match e with
  | Some e =>
    if on_trial e then
      set_entitlement accountID (to_paid now);;
      modify (λ db, db <| db_runtimes ::=
        update_where (started_of accountID) (λ r, r <| rt_billed_through := Some now |>) |>)
    else mret tt
  | None => mret tt
  end.

Definition CreditDeposit (now : Z) (deposit : DepositCredit) : Tx bool :=
  refuse_if (deposit.(dc_amount_micro) <=? 0) (ErrText "deposit amount must be positive");;
  atomically (
    db ← gets id;
    owner ← require (head (select (owns_index deposit.(dc_index)) db.(db_accounts))) ErrDepositAccountNotFound;
    let accountID := owner.1 in
    let txid := ToLower deposit.(dc_tx_id) in
    refuse_if (negb (valid_tx_id txid)) (ErrCheck "usdt_deposits.tx_id");;
    match db.(db_deposits) !! (txid, deposit.(dc_address)) with
    | Some _ => mret false
    | None =>
      modify (λ db, db <| db_deposits ::= <[(txid, deposit.(dc_address)) :=
        MkDeposit accountID deposit.(dc_amount_micro) deposit.(dc_block_time) now]> |>);;
      modify (λ db, db <| db_ledger ::= (λ l, l ++
        [MkLedgerRow accountID "deposit" deposit.(dc_amount_micro) ("tron:" +:+ txid) now]) |>);;
      end_trial now accountID;;
      mret true
    end).

(** ** Facts *)

(** What the ledger says an account deposited, and what the chain says. *)
Definition ledger_deposits (account : string) (l : list LedgerRow) : Z :=
  foldr (λ r s, (if (r.(le_account_id) =?s account) && (r.(le_kind) =?s "deposit")
                 then r.(le_amount_micro) else 0) + s) 0 l.
Definition chain_deposits (account : string) (t : gmap (string * string) Deposit) : Z :=
  map_fold (λ _ d s, (if d.(de_account_id) =?s account then d.(de_amount_micro) else 0) + s) 0 t.

#[global] Arguments ledger_deposits : simpl never.
#[global] Arguments chain_deposits : simpl never.

(** Every deposit in the ledger is backed by transfers on the chain. *)
Definition backed (db : Db) : Prop :=
  ∀ a, ledger_deposits a db.(db_ledger) = chain_deposits a db.(db_deposits).

(** Deposit indexes come from the sequence and no two accounts share one. *)
Definition indexes_ok (db : Db) : Prop :=
  (∀ id a i, db.(db_accounts) !! id = Some a → a.(ac_deposit_index) = Some i → i < db.(db_deposit_index_seq))
  ∧ (∀ id id' a a' i, db.(db_accounts) !! id = Some a → db.(db_accounts) !! id' = Some a' →
       a.(ac_deposit_index) = Some i → a'.(ac_deposit_index) = Some i → id = id').

Lemma ledger_sum_app a l l' : ledger_sum a (l ++ l') = ledger_sum a l + ledger_sum a l'.
Proof. unfold ledger_sum. induction l as [|r l IH]; cbn [foldr app]; [lia|]. rewrite IH. lia. Qed.
Lemma ledger_deposits_app a l l' : ledger_deposits a (l ++ l') = ledger_deposits a l + ledger_deposits a l'.
Proof. unfold ledger_deposits. induction l as [|r l IH]; cbn [foldr app]; [lia|]. rewrite IH. lia. Qed.

Lemma chain_deposits_insert a t k d :
  t !! k = None →
  chain_deposits a (<[k:=d]> t)
  = (if d.(de_account_id) =?s a then d.(de_amount_micro) else 0) + chain_deposits a t.
Proof. intros Hk. unfold chain_deposits. rewrite map_fold_insert_L; [done | intros; lia | done]. Qed.

(** Usage charges are no deposits. *)
Lemma upsert_usage_deposits a new l :
  usage_kind new = true → ledger_deposits a (upsert_usage new l) = ledger_deposits a l.
Proof.
  intros Hk. assert (Hno : ∀ r, usage_kind r = true → (r.(le_kind) =?s "deposit") = false).
  { intros r [E|E]%orb_true_iff; apply str_eqb_eq in E; by rewrite E. }
  unfold ledger_deposits. induction l as [|r l IH]; cbn [upsert_usage foldr].
  - rewrite (Hno new Hk), andb_false_r. lia.
  - destruct (usage_entry _ _ r) eqn:E; cbn [foldr]; [|by rewrite IH].
    assert (Hr : usage_kind r = true) by (unfold usage_entry in E; by destruct (usage_kind r)).
    cbn. by rewrite !(Hno r Hr), andb_false_r.
Qed.

Lemma backed_ext db db' :
  db'.(db_ledger) = db.(db_ledger) → db'.(db_deposits) = db.(db_deposits) → backed db → backed db'.
Proof. intros E1 E2 H a. rewrite E1, E2. apply H. Qed.

Lemma addUsageChargeTX_backed now a kind ref amount :
  (kind =?s "runtime") || (kind =?s "storage") = true →
  stable (holds_after backed) (addUsageChargeTX now a kind ref amount).
Proof.
  intros Hk db Hb a'. unfold addUsageChargeTX. cbn. rewrite upsert_usage_deposits by done. apply Hb.
Qed.
#[export] Hint Resolve addUsageChargeTX_backed : ops.

(** Closes the goals of a change to other tables. *)
Ltac backed_frame := let H := fresh in intros H; eapply backed_ext; [| |exact H]; reflexivity.

Lemma queueRuntimeStopsTX_backed now cand reason msg :
  stable (holds_after backed) (queueRuntimeStopsTX now cand reason msg).
Proof.
  intros db. destruct (queueRuntimeStopsTX_spec now cand reason msg db) as (S & G & C & ->).
  backed_frame.
Qed.
#[export] Hint Resolve queueRuntimeStopsTX_backed : ops.

Lemma meterRuntimeTimeTX_backed now hm : stable (holds_after backed) (meterRuntimeTimeTX now hm).
Proof.
  unfold meterRuntimeTimeTX, meter_one, charge_parts, set_entitlement, set_runtime.
  stable_steps; try backed_frame.
Qed.

Lemma chargeStorageTX_backed now gib : stable (holds_after backed) (chargeStorageTX now gib).
Proof. unfold chargeStorageTX, charge_storage_one, set_account. stable_steps; try backed_frame. Qed.
#[export] Hint Resolve meterRuntimeTimeTX_backed chargeStorageTX_backed : ops.

Lemma MeterUsage_backed p now : stable (holds_after backed) (MeterUsage p now).
Proof. unfold MeterUsage. stable_steps. Qed.

(** Ending the trial touches entitlements and runtimes only. *)
Lemma end_trial_run now account db : ∃ E R,
  end_trial now account db = (db <| db_entitlements := E |> <| db_runtimes := R |>, inr tt)
  ∧ ((∃ e, db.(db_entitlements) !! account = Some e ∧ on_trial e = true)
     ∧ E = alter (to_paid now) account db.(db_entitlements)
     ∧ R = update_where (started_of account) (λ r, r <| rt_billed_through := Some now |>) db.(db_runtimes)
     ∨ (∀ e, db.(db_entitlements) !! account = Some e → on_trial e = false)
       ∧ E = db.(db_entitlements) ∧ R = db.(db_runtimes)).
Proof.
  unfold end_trial. erewrite bind_inr by reflexivity.
  destruct (db.(db_entitlements) !! account) as [e|] eqn:He; [destruct (on_trial e) eqn:Ht|].
  - eexists _, _. split; [reflexivity|]. left. eauto.
  - exists db.(db_entitlements), db.(db_runtimes). split; [by destruct db|]. right.
    split; [|done]. by intros ? [= <-].
  - exists db.(db_entitlements), db.(db_runtimes). split; [by destruct db|]. by right.
Qed.

(** The row and the ledger entry a credited transfer leaves. *)
Definition deposit_key (dep : DepositCredit) : string * string := (ToLower dep.(dc_tx_id), dep.(dc_address)).
Definition deposit_row (now : Z) (account : string) (dep : DepositCredit) : Deposit :=
  MkDeposit account dep.(dc_amount_micro) dep.(dc_block_time) now.
Definition deposit_entry (now : Z) (account : string) (dep : DepositCredit) : LedgerRow :=
  MkLedgerRow account "deposit" dep.(dc_amount_micro) ("tron:" +:+ ToLower dep.(dc_tx_id)) now.

Definition deposit_owner (dep : DepositCredit) (db : Db) : option string :=
  fst <$> head (select (owns_index dep.(dc_index)) db.(db_accounts)).

(** What a transfer must be to reach the tables. *)
Definition creditable (dep : DepositCredit) : Prop :=
  0 < dep.(dc_amount_micro) ∧ valid_tx_id (ToLower dep.(dc_tx_id)) = true.

Lemma CreditDeposit_run now dep db :
  wp (CreditDeposit now dep)
    (λ fresh db', ∃ account, deposit_owner dep db = Some account ∧ creditable dep
       ∧ if (fresh : bool)
         then db.(db_deposits) !! deposit_key dep = None
              ∧ db' = (end_trial now account
                   (db <| db_deposits ::= <[deposit_key dep := deposit_row now account dep]> |>
                       <| db_ledger ::= (λ l, l ++ [deposit_entry now account dep]) |>)).1
         else db' = db ∧ is_Some (db.(db_deposits) !! deposit_key dep))
    (λ e db', db' = db
       ∧ (e = ErrDepositAccountNotFound → deposit_owner dep db = None)) db.
Proof.
  unfold CreditDeposit, deposit_owner. wp_steps; try (split; [done | by inversion 1]).
  - rename a into owner, H0 into Ho. rewrite Ho. cbn [fmap option_fmap option_map].
    assert (Hc : creditable dep).
    { split; [by apply Z.leb_gt | by apply negb_false_iff]. }
    change (ToLower dep.(dc_tx_id), dep.(dc_address)) with (deposit_key dep).
    destruct (db.(db_deposits) !! deposit_key dep) eqn:Hd.
    + exists owner.1. split_and!; [done | done | done | by eexists].
    + wp_steps. destruct (end_trial_run now owner.1
        (db <| db_deposits ::= <[deposit_key dep := deposit_row now owner.1 dep]> |>
            <| db_ledger ::= (λ l, l ++ [deposit_entry now owner.1 dep]) |>)) as (E & R & Hrun & _).
      eapply wp_of_run; [exact Hrun|]. exists owner.1. split_and!; [done | done | done | by rewrite Hrun].
  - split; [done|]. by rewrite H0.
Qed.

(** Why a transfer is refused. *)
Lemma CreditDeposit_refused now dep db :
  wp (CreditDeposit now dep) (λ _ _, True)
    (λ e _, dep.(dc_amount_micro) ≤ 0 ∧ e = ErrText "deposit amount must be positive"
       ∨ 0 < dep.(dc_amount_micro) ∧ deposit_owner dep db = None ∧ e = ErrDepositAccountNotFound
       ∨ 0 < dep.(dc_amount_micro) ∧ (∃ account, deposit_owner dep db = Some account)
         ∧ valid_tx_id (ToLower dep.(dc_tx_id)) = false ∧ e = ErrCheck "usdt_deposits.tx_id") db.
Proof.
  unfold CreditDeposit, deposit_owner. wp_steps.
  - left. split; [by apply Z.leb_le | done].
  - right; right. apply Z.leb_gt in H. rewrite H0. apply negb_true_iff in H1. eauto.
  - destruct (db.(db_deposits) !! _); [done|]. wp_steps.
    match goal with |- wp (end_trial now ?a) _ _ ?d => destruct (end_trial_run now a d) as (E & R & Hrun & _) end.
    eapply wp_of_run; [exact Hrun | done].
  - right; left. apply Z.leb_gt in H. by rewrite H0.
Qed.

(** The accounts, and with them the owner of an index, never change. *)
Lemma credited_frame now account db : let db' := (end_trial now account db).1 in
  db'.(db_accounts) = db.(db_accounts) ∧ db'.(db_ledger) = db.(db_ledger)
  ∧ db'.(db_deposits) = db.(db_deposits).
Proof. cbv zeta. destruct (end_trial_run now account db) as (E & R & -> & _). done. Qed.

Lemma CreditDeposit_backed now dep : stable (holds_after backed) (CreditDeposit now dep).
Proof.
  intros db Hb. pose proof (CreditDeposit_run now dep db) as Hw. unfold wp in Hw.
  destruct (CreditDeposit now dep db) as [db' [e|[]]]; cbn [fst] in *.
  - by destruct Hw as [-> _].
  - destruct Hw as (account & _ & _ & Hnew & ->).
    match goal with |- backed ?d.1 => set (run := d) end. intros a.
    destruct (credited_frame now account
      (db <| db_deposits ::= <[deposit_key dep := deposit_row now account dep]> |>
          <| db_ledger ::= (λ l, l ++ [deposit_entry now account dep]) |>)) as (_ & HL & HD).
    subst run. rewrite HL, HD. cbn. rewrite ledger_deposits_app, chain_deposits_insert by done.
    rewrite (Hb a). unfold ledger_deposits. cbn. rewrite andb_true_r. destruct (account =?s a); lia.
  - by destruct Hw as (? & _ & _ & -> & _).
Qed.

Lemma indexes_ok_take db id a now :
  indexes_ok db → db.(db_accounts) !! id = Some a →
  wp (take_deposit_index a)
    (λ i db1, indexes_ok (db1 <| db_accounts ::= alter (λ a, a <| ac_deposit_index := Some i |>
                 <| ac_wallet_viewed_at := Some now |>) id |>)
       ∧ db1 = db <| db_deposit_index_seq := db1.(db_deposit_index_seq) |>
       ∧ (∀ j, a.(ac_deposit_index) = Some j → i = j)
       ∧ (∀ id' b, id' ≠ id → db.(db_accounts) !! id' = Some b → b.(ac_deposit_index) ≠ Some i))
    (λ _ _, True) db.
Proof.
  intros [Hlt Huniq] Ha. unfold take_deposit_index.
  assert (Hstep : ∀ i db1, db1.(db_accounts) = db.(db_accounts) →
    db.(db_deposit_index_seq) ≤ db1.(db_deposit_index_seq) → i < db1.(db_deposit_index_seq) →
    (∀ id' b, id' ≠ id → db.(db_accounts) !! id' = Some b → b.(ac_deposit_index) ≠ Some i) →
    indexes_ok (db1 <| db_accounts ::= alter (λ a, a <| ac_deposit_index := Some i |>
                 <| ac_wallet_viewed_at := Some now |>) id |>)).
  { intros i db1 Hacc Hseq Hi Hfree. split; cbn; rewrite Hacc.
    - intros id' b j Hb Hj. rewrite lookup_alter in Hb. case_decide; subst.
      + rewrite Ha in Hb. by simplify_eq/=.
      + specialize (Hlt id' b j Hb Hj). lia.
    - intros id1 id2 b1 b2 j H1 H2 Hj1 Hj2. rewrite lookup_alter in H1, H2.
      destruct (decide (id = id1)) as [<-|N1], (decide (id = id2)) as [<-|N2].
      + done.
      + rewrite Ha in H1. simplify_eq/=. exfalso. by eapply (Hfree id2 b2).
      + rewrite Ha in H2. simplify_eq/=. exfalso. by eapply (Hfree id1 b1).
      + by eauto. }
  destruct a.(ac_deposit_index) as [i|] eqn:Hi.
  - wp_steps. assert (Hfree : ∀ id' b, id' ≠ id → db.(db_accounts) !! id' = Some b → b.(ac_deposit_index) ≠ Some i)
      by (intros id' b Hne Hb Hbi; eauto).
    split_and!; [apply Hstep; [done | lia | by eauto | done] | by destruct db | by intros j [= ->] | done].
  - wp_steps; try done.
    assert (Hfree : ∀ id' b, id' ≠ id → db.(db_accounts) !! id' = Some b →
              b.(ac_deposit_index) ≠ Some db.(db_deposit_index_seq)).
    { intros id' b _ Hb Hbi. specialize (Hlt id' b _ Hb Hbi). lia. }
    split_and!; [apply Hstep; [done | cbn; lia | cbn; lia | done] | done | done | done].
Qed.

Lemma AccountWallet_backed now account : stable (holds_after backed) (AccountWallet now account).
Proof.
  unfold AccountWallet, take_deposit_index, set_account. stable_steps; backed_frame.
Qed.
#[export] Hint Resolve CreditDeposit_backed MeterUsage_backed AccountWallet_backed : ops.

Lemma watch_le_total x y : watch_le x y = true ∨ watch_le y x = true.
Proof.
  unfold watch_le. destruct x.(dw_viewed_at), y.(dw_viewed_at); auto.
  all: rewrite ?orb_true_iff, ?andb_true_iff, ?Z.ltb_lt, ?Z.eqb_eq, ?Z.leb_le; lia.
Qed.
Lemma watch_le_trans x y z : watch_le x y = true → watch_le y z = true → watch_le x z = true.
Proof.
  unfold watch_le. destruct x.(dw_viewed_at), y.(dw_viewed_at), z.(dw_viewed_at); auto; try done.
  all: rewrite ?orb_true_iff, ?andb_true_iff, ?Z.ltb_lt, ?Z.eqb_eq, ?Z.leb_le; lia.
Qed.

Lemma deposit_owner_elem dep db account :
  deposit_owner dep db = Some account → ∃ a, db.(db_accounts) !! account = Some a ∧ owns_index dep.(dc_index) account a = true.
Proof.
  unfold deposit_owner. destruct (select _ _) as [|[k a] l] eqn:E; [done|]. intros [= <-].
  exists a. apply elem_of_select. rewrite E. left.
Qed.

Lemma deposit_owner_None dep db :
  deposit_owner dep db = None → ∀ account a, db.(db_accounts) !! account = Some a → owns_index dep.(dc_index) account a = false.
Proof.
  unfold deposit_owner. intros Hno account a Ha. destruct (owns_index _ account a) eqn:Ho; [|done]. exfalso.
  assert ((account, a) ∈ select (owns_index dep.(dc_index)) db.(db_accounts)) as Hin by (by apply elem_of_select).
  destruct (select _ _); [by apply not_elem_of_nil in Hin | done].
Qed.

(** A sample: two accounts, one on trial with a runtime running since 0. *)
Definition sample_txid : string :=
  "00112233445566778899AABBCCDDEEFF00112233445566778899aabbccddeeff".
Definition sample_owner : Account := default_account 0 <| ac_deposit_index := Some 1 |>.
Definition sample_wallets : Db :=
  empty_db <| db_accounts := {["a" := sample_owner; "b" := default_account 0]} |>
    <| db_deposit_index_seq := 2 |>
    <| db_entitlements := {["a" := default_entitlement 0]} |>
    <| db_runtimes := {["r" := sample_run "a"]} |>.
Definition sample_credit : DepositCredit := MkDepositCredit sample_txid "TAddr" 1 5000000 10.
Definition sample_credited : Db := (CreditDeposit 50 sample_credit sample_wallets).1.

(** ** Properties *)

(** C11: a transfer is credited once.  Whatever the first report returned,
    reporting the transfer again (at any time, with the transaction id in any
    letter case) returns false and changes nothing. *)
Theorem CreditDeposit_once now now' dep dep' db db' fresh
    (Hrun : CreditDeposit now dep db = (db', inr fresh))
    (Hsame : deposit_key dep' = deposit_key dep) (Hidx : dep'.(dc_index) = dep.(dc_index))
    (Hpos : 0 < dep'.(dc_amount_micro)) :
  CreditDeposit now' dep' db' = (db', inr false).
Proof.
  destruct (wp_run _ _ _ _ _ _ (CreditDeposit_run now dep db) Hrun) as (account & Hown & Hc & Hfresh).
  assert (Hacc : deposit_owner dep' db' = Some account ∧ is_Some (db'.(db_deposits) !! deposit_key dep')).
  { rewrite Hsame. unfold deposit_owner in *. rewrite Hidx. destruct fresh.
    - destruct Hfresh as [_ ->]. destruct (credited_frame now account
        (db <| db_deposits ::= <[deposit_key dep := deposit_row now account dep]> |>
            <| db_ledger ::= (λ l, l ++ [deposit_entry now account dep]) |>)) as (-> & _ & ->).
      split; [exact Hown | cbn; rewrite lookup_insert_eq; by eexists].
    - by destruct Hfresh as [-> ?]. }
  assert (Htx : valid_tx_id (ToLower dep'.(dc_tx_id)) = true) by (injection Hsame; intros _ ->; apply Hc).
  pose proof (CreditDeposit_run now' dep' db') as Hw. unfold wp in Hw.
  destruct Hacc as [Hown' [d Hd]]. unfold CreditDeposit. unfold deposit_owner in Hown'.
  rewrite (proj2 (Z.leb_gt _ _) Hpos). erewrite bind_inr by reflexivity. unfold atomically.
  erewrite bind_inr by reflexivity. unfold id.
  destruct (head _) as [owner|]; [|done]. erewrite bind_inr by reflexivity. cbv zeta. rewrite Htx.
  erewrite bind_inr by reflexivity.
  change (ToLower dep'.(dc_tx_id), dep'.(dc_address)) with (deposit_key dep'). by rewrite Hd.
Qed.

Lemma CreditDeposit_once_witness :
  CreditDeposit 70 (MkDepositCredit (ToLower sample_txid) "TAddr" 1 5000000 10) sample_credited
  = (sample_credited, inr false) ∧ ledger_sum "a" sample_credited.(db_ledger) = 5000000.
Proof.
  split; [|vm_compute; reflexivity].
  apply (CreditDeposit_once 50 70 sample_credit _ sample_wallets sample_credited true);
    [apply run_of|..]; vm_compute; reflexivity.
Defined.

(** C12: what crediting a transfer does, case by case.  A transfer is known when
    one with its transaction id, in any letter case, to its address was credited.
    A transfer that is not known, of a positive amount, with a transaction id,
    to the address of a live account is credited: it is recorded, raises that
    account's balance by exactly its amount and leaves every other balance.  A
    known one is answered with false.  The errors are those of an amount that is
    not positive, an index no live account owns and a malformed transaction id,
    in this order, and only these.  All but the first case change nothing. *)
Theorem CreditDeposit_effect now dep db :
  let owned := ∃ account a, db.(db_accounts) !! account = Some a ∧ owns_index dep.(dc_index) account a = true in
  let valid := 0 < dep.(dc_amount_micro) ∧ owned ∧ valid_tx_id (ToLower dep.(dc_tx_id)) = true in
  match CreditDeposit now dep db with
  | (db', inr true) =>
    valid ∧ db.(db_deposits) !! deposit_key dep = None
    ∧ ∃ account a, db.(db_accounts) !! account = Some a ∧ owns_index dep.(dc_index) account a = true
      ∧ db'.(db_deposits) = <[deposit_key dep := deposit_row now account dep]> db.(db_deposits)
      ∧ ∀ x, ledger_sum x db'.(db_ledger)
             = ledger_sum x db.(db_ledger) + (if account =?s x then dep.(dc_amount_micro) else 0)
  | (db', inr false) => valid ∧ is_Some (db.(db_deposits) !! deposit_key dep) ∧ db' = db
  | (db', inl e) =>
    db' = db
    ∧ (dep.(dc_amount_micro) ≤ 0 ∧ e = ErrText "deposit amount must be positive"
       ∨ 0 < dep.(dc_amount_micro) ∧ ¬ owned ∧ e = ErrDepositAccountNotFound
       ∨ 0 < dep.(dc_amount_micro) ∧ owned ∧ valid_tx_id (ToLower dep.(dc_tx_id)) = false
         ∧ e = ErrCheck "usdt_deposits.tx_id")
  end.
Proof.
  cbv zeta. pose proof (CreditDeposit_run now dep db) as Hw. pose proof (CreditDeposit_refused now dep db) as Hr. unfold wp in *.
  destruct (CreditDeposit now dep db) as [db' [e|fresh]].
  - destruct Hw as [-> _]. split; [done|]. destruct Hr as [?|[(Hp & Hno & ->)|(Hp & [account Hown] & Hv & ->)]]; [by left | |].
    + right; left. split_and!; [done | | done]. intros (account & a & Ha & Ho).
      by rewrite (deposit_owner_None _ _ Hno _ _ Ha) in Ho.
    + right; right. apply deposit_owner_elem in Hown as (a & ? & ?). eauto 8.
  - destruct Hw as (account & (a & Ha & Hi)%deposit_owner_elem & [Hp Hv] & Hf).
    assert (Hval : 0 < dep.(dc_amount_micro) ∧ (∃ account a, db.(db_accounts) !! account = Some a ∧ owns_index dep.(dc_index) account a = true)
      ∧ valid_tx_id (ToLower dep.(dc_tx_id)) = true) by eauto 8.
    destruct fresh; [|by destruct Hf]. destruct Hf as [Hnew ->]. split_and!; [apply Hval | apply Hval | done | done |].
    exists account, a. destruct (credited_frame now account
      (db <| db_deposits ::= <[deposit_key dep := deposit_row now account dep]> |>
          <| db_ledger ::= (λ l, l ++ [deposit_entry now account dep]) |>)) as (_ & -> & ->).
    split_and!; [done | done | done |]. intros x. cbn. rewrite ledger_sum_app. unfold ledger_sum. cbn. lia.
Qed.

(** The first deposit ends the trial: the account becomes a paid one with
    at least the paid limits and no expiry, and its runtimes are charged from
    the moment of the deposit, never for time before it. *)
Theorem first_deposit_ends_trial now dep db db' account e
    (Hrun : CreditDeposit now dep db = (db', inr true)) (Hown : deposit_owner dep db = Some account)
    (He : db.(db_entitlements) !! account = Some e) (Htrial : e.(en_source) = "trial"%string) :
  db'.(db_entitlements) = <[account := to_paid now e]> db.(db_entitlements)
  ∧ ∀ d, d ∈ due_rows db' → d.(d_account) = account → now ≤ d.(d_since).
Proof.
  destruct (wp_run _ _ _ _ _ _ (CreditDeposit_run now dep db) Hrun) as (account' & Hown' & _ & _ & ->).
  simplify_eq. match goal with |- context [end_trial now account ?d] => set (db1 := d) end.
  destruct (end_trial_run now account db1) as (E & R & -> & [(_ & -> & ->)|(Hno & _)]).
  - cbn [db_entitlements db_runtimes fst]. split.
    + change (db_entitlements db1) with (db_entitlements db). unfold set_field. cbn.
      apply map_eq. intros i. rewrite lookup_alter, lookup_insert. case_decide; subst; [by rewrite He | done].
    + intros d (r & Hr & (st & Hst & Hlive & Hacc & ->)%due_of_Some)%elem_of_due_rows Ha.
      cbn [db_runtimes set_field] in Hr. apply update_where_Some in Hr as (r0 & _ & ->).
      destruct (started_of account _ r0) eqn:Hb; cbn in *; [lia|]. exfalso.
      unfold started_of in Hb. by rewrite <-Hacc, Ha, str_eqb_refl, Hst, Hlive in Hb.
  - specialize (Hno e He). unfold on_trial in Hno. by rewrite Htrial in Hno.
Qed.

Lemma first_deposit_ends_trial_witness :
  sample_credited.(db_entitlements) = {["a" := to_paid 50 (default_entitlement 0)]}
  ∧ due_rows sample_credited ≠ [] ∧ (∀ d, d ∈ due_rows sample_credited → d.(d_account) = "a"%string → 50 ≤ d.(d_since)).
Proof.
  destruct (first_deposit_ends_trial 50 sample_credit sample_wallets sample_credited "a" (default_entitlement 0)
    ltac:(apply run_of; vm_compute; reflexivity) ltac:(vm_compute; reflexivity)
    ltac:(vm_compute; reflexivity) eq_refl) as [H1 H2].
  split; [rewrite H1; vm_compute; reflexivity|]. split; [vm_compute; congruence | exact H2].
Defined.

(** Opening a wallet gives the account the index it has, or a new one that
    no other account has; indexes stay unique. *)
Theorem AccountWallet_index now account db (Hok : indexes_ok db) :
  wp (AccountWallet now account)
    (λ w db', indexes_ok db'
       ∧ (∃ a', db'.(db_accounts) !! TrimSpace account = Some a'
                ∧ a'.(ac_deposit_index) = Some w.(wl_deposit_index))
       ∧ (∀ a i, db.(db_accounts) !! TrimSpace account = Some a → a.(ac_deposit_index) = Some i →
                 w.(wl_deposit_index) = i)
       ∧ (∀ id b, id ≠ TrimSpace account → db'.(db_accounts) !! id = Some b →
                  b.(ac_deposit_index) ≠ Some w.(wl_deposit_index))
       ∧ w.(wl_balance_micro) = ledger_sum (TrimSpace account) db.(db_ledger))
    (λ _ db', db' = db) db.
Proof.
  unfold AccountWallet. wp_steps; try done.
  eapply wp_mono; [by eapply (indexes_ok_take _ (TrimSpace account) _ now) | | done].
  intros i db1 (Hok1 & Hdb1 & Hkeep & Hfree). unfold set_account. wp_steps.
  match goal with |- context [let '(_, _) := ?p in _] => destruct p as [plan seconds] end.
  wp_steps. assert (HA : db1.(db_accounts) = db.(db_accounts)) by (rewrite Hdb1; done).
  cbn. split_and!; [exact Hok1 | | | |].
  - eexists. rewrite lookup_alter_eq, HA, H. done.
  - intros a0 j Ha0 Hj. rewrite H in Ha0. simplify_eq. eauto.
  - intros id b Hne Hb. rewrite lookup_alter_ne in Hb by done. rewrite HA in Hb. by eapply Hfree.
  - rewrite Hdb1. done.
Qed.

Lemma AccountWallet_index_witness :
  wp (AccountWallet 60 " b ") (λ w db', w.(wl_deposit_index) = 2 ∧ indexes_ok db') (λ _ _, False) sample_wallets.
Proof.
  assert (Hok : indexes_ok sample_wallets).
  { split.
    - intros id a i Ha Hi. change (db_accounts sample_wallets) with
        ({["a" := sample_owner; "b" := default_account 0]} : gmap string Account) in Ha.
      rewrite lookup_insert in Ha. case_decide; [|apply lookup_singleton_Some in Ha as [_ <-]; done].
      simplify_eq. injection Hi as <-. done.
    - intros id id' a a' i Ha Ha' Hi Hi'. change (db_accounts sample_wallets) with
        ({["a" := sample_owner; "b" := default_account 0]} : gmap string Account) in Ha, Ha'.
      rewrite lookup_insert in Ha, Ha'. repeat case_decide; subst; try done.
      all: repeat match goal with H : {[ _ := _ ]} !! _ = Some _ |- _ =>
             apply lookup_singleton_Some in H as [<- <-] end; done. }
  pose proof (AccountWallet_index 60 " b " sample_wallets Hok) as Hw. unfold wp in *.
  destruct (AccountWallet 60 " b " sample_wallets) as [db' [e|w]] eqn:E; [vm_compute in E; discriminate|].
  split; [|apply Hw]. vm_compute in E. injection E as _ <-. reflexivity.
Defined.

(** The watch list holds live accounts with a deposit index only, the most
    recently opened wallets first, and all of them when the limit allows. *)
Theorem DepositWatchList_spec limit db :
  StronglySorted (λ x y, watch_le x y = true) (DepositWatchList limit db)
  ∧ (∀ w, w ∈ DepositWatchList limit db → ∃ id a, db.(db_accounts) !! id = Some a
       ∧ a.(ac_deleted_at) = None ∧ a.(ac_deposit_index) = Some w.(dw_index) ∧ a.(ac_wallet_viewed_at) = w.(dw_viewed_at))
  ∧ (Z.of_nat (length (watched db)) ≤ limit → DepositWatchList limit db ≡ₚ watched db).
Proof.
  unfold DepositWatchList. split_and!.
  - apply StronglySorted_take, order_by_sorted; [apply watch_le_total | apply watch_le_trans].
  - intros w Hw. apply (subseteq_take _ _) in Hw || (apply elem_of_take in Hw as (i & Hw & _); apply list_elem_of_lookup_2 in Hw).
    rewrite elem_of_order_by in Hw. unfold watched in Hw. apply list_elem_of_omap in Hw as ([id a] & Hin & Hw).
    apply elem_of_map_to_list in Hin. cbn in Hw. unfold ac_live in Hw.
    destruct (ac_deleted_at a) eqn:Hd; cbn in Hw; [done|].
    apply fmap_Some in Hw as (i & Hi & ->). by exists id, a.
  - intros Hlen. rewrite take_ge; [apply order_by_perm|]. rewrite (order_by_perm watch_le (watched db)). lia.
Qed.
