(* ===== verification/Registry.v ===== *)
(** * The node trust registry

    Models the registry of internal/store/store.go (677-763, 4632-5388): the
    operators and nodes an administrator approved, their key history, rotation
    with an overlap, revocation, and the keys that may authenticate a node.

    [NormalizePublicKey] (internal/nodeauth: X.509 parsing and SHA-256) is a
    parameter: it gives the canonical key and its fingerprint, or refuses. *)

From S2P Require Import Prelude.
From S2P Require Import GoLib.
From S2P Require Import Schema.
From S2P Require Import Common.
Open Scope Z_scope.

Definition MaxNodeKeyRotationOverlap : Z := 24 * hour_us.

Record ApproveOperatorInput := MkApproveOperatorInput {
  aoi_OperatorID : string; aoi_Name : string; aoi_Actor : string; aoi_Reason : string }.
Record RevokeOperatorInput := MkRevokeOperatorInput {
  roi_OperatorID : string; roi_Actor : string; roi_Reason : string }.
Record ApproveNodeInput := MkApproveNodeInput {
  ani_NodeID : string; ani_OperatorID : string; ani_OperatorName : string;
  ani_PublicKey : string; ani_Actor : string; ani_Reason : string }.
Record RotateNodeKeyInput := MkRotateNodeKeyInput {
  rki_NodeID : string; rki_PublicKey : string; rki_Overlap : Z; rki_Actor : string; rki_Reason : string }.
Record RevokeNodeInput := MkRevokeNodeInput {
  rni_NodeID : string; rni_Actor : string; rni_Reason : string }.

(** A node with its operator and key history, newest key first. *)
Record ApprovedNodeView := MkApprovedNodeView {
  av_node_id : string;
  av_operator_name : string;
  av_operator_status : string;
  av_node : ApprovedNode;
  av_keys : list (Z * NodeKey)
}.

(** ** Shared checks *)

Definition registry_id (label value : string) : Tx string :=
  match normalizeRegistryID value with
  | Some v => mret v
  | None =>
    if (TrimSpace value =?s "") || (128 <? str_len (TrimSpace value))
    then throw (ErrText (label +:+ " must contain 1..128 characters"))
    else throw (ErrText (label +:+ " contains an unsupported character"))
  end.

(** Bounded text that must not be empty. *)
Definition required_text (value : string) (maxRunes : nat) (message : string) : Tx string :=
  let text := boundedRegistryText value maxRunes in
  refuse_if (text =?s "") (ErrText message);;
  mret text.

Definition named (name fallback : string) : string :=
  let name := boundedRegistryText name 256 in if name =?s "" then fallback else name.

Definition appendNodeRegistryAuditTX (nodeID operatorID action actor reason : string)
    (keyVersion : Z) (fingerprint : string) : Tx unit :=
  modify (λ db, db <| db_audit ::= (λ l, l ++ [MkAuditRow (Some nodeID) operatorID action actor reason
    (Some keyVersion) (if fingerprint =?s "" then None else Some fingerprint)]) |>).

(** The operators' audit has CHECK (BTRIM(actor) <> '') and CHECK (BTRIM(reason) <> ''). *)
Definition appendOperatorRegistryAuditTX (operatorID action actor reason : string) : Tx unit :=
  refuse_if (pg_trim actor =?s "") (ErrCheck "operator_registry_audit.actor");;
  refuse_if (pg_trim reason =?s "") (ErrCheck "operator_registry_audit.reason");;
  modify (λ db, db <| db_audit ::= (λ l, l ++ [MkAuditRow None operatorID action actor reason None None]) |>).

(** ** Reading *)

Definition NodeOperatorOf (operatorID : string) : Tx (string * NodeOperator) :=
  match normalizeRegistryID operatorID with
  | None => throw ErrNodeOperatorNotFound
  | Some operatorID =>
    db ← gets id;
    op ← require (db.(db_operators) !! operatorID) ErrNodeOperatorNotFound;
    mret (operatorID, op)
  end.

(** [ORDER BY key_version DESC]. *)
Definition newest_first (x y : Z * NodeKey) : bool := y.1 <=? x.1.

(** A node's keys that satisfy [p], newest first. *)
Definition node_keys (p : Z → NodeKey → bool) (nodeID : string) (db : Db) : list (Z * NodeKey) :=
  order_by newest_first
    ((λ kr : (string * Z) * NodeKey, (kr.1.2, kr.2))
       <$> select (λ k r, (k.1 =?s nodeID) && p k.2 r) db.(db_node_keys)).

Definition listNodeKeys (nodeID : string) (db : Db) : list (Z * NodeKey) :=
  node_keys (λ _ _, true) nodeID db.

Definition node_view (nodeID : string) (n : ApprovedNode) (db : Db) : option ApprovedNodeView :=
  op ← db.(db_operators) !! n.(nd_operator_id);
  Some (MkApprovedNodeView nodeID op.(op_name) op.(op_status) n (listNodeKeys nodeID db)).

Definition ApprovedNodeOf (nodeID : string) : Tx ApprovedNodeView :=
  match normalizeRegistryID nodeID with
  | None => throw ErrApprovedNodeNotFound
  | Some nodeID =>
    db ← gets id;
    require (n ← db.(db_nodes) !! nodeID; node_view nodeID n db) ErrApprovedNodeNotFound
  end.

Definition ListApprovedNodes (db : Db) : list ApprovedNodeView :=
  omap (λ kn : string * ApprovedNode, node_view kn.1 kn.2 db)
    (order_by (λ x y : string * ApprovedNode, String.leb x.1 y.1) (map_to_list db.(db_nodes))).

(** Whether a key may authenticate at [now]. *)
Definition authorizes (now : Z) (n : ApprovedNode) (version : Z) (k : NodeKey) : bool :=
  (k.(nk_state) =?s "active") && (version =? n.(nd_active_key_version))
  || (k.(nk_state) =?s "overlap")
     && match k.(nk_valid_until) with Some u => now <? u | None => false end.

Definition authorized_keys (now : Z) (nodeID : string) (db : Db) : list (Z * NodeKey) :=
  match db.(db_nodes) !! nodeID with
  | None => []
  | Some n =>
    match db.(db_operators) !! n.(nd_operator_id) with
    | None => []
    | Some op =>
      if (n.(nd_status) =?s "approved") && (op.(op_status) =?s "approved")
      then node_keys (authorizes now n) nodeID db else []
    end
  end.

Definition AuthorizedNodeKeys (now : Z) (nodeID : string) : Tx (list (Z * NodeKey)) :=
  match normalizeRegistryID nodeID with
  | None => throw ErrApprovedNodeNotFound
  | Some nodeID =>
    keys ← gets (authorized_keys now nodeID);
    refuse_if (match keys with [] => true | _ => false end) ErrApprovedNodeNotFound;;
    mret keys
  end.

(** ** Operators *)

Definition set_operator (id : string) (f : NodeOperator → NodeOperator) : Tx unit :=
  modify (λ db, db <| db_operators ::= alter f id |>).

(** [INSERT ... ON CONFLICT DO NOTHING], then the row's status; says whether the
    row is new. *)
Definition ensure_operator (now : Z) (operatorID name : string) : Tx (bool * string) :=
  db ← gets id;
  match db.(db_operators) !! operatorID with
  | Some op => mret (false, op.(op_status))
  | None =>
    modify (λ db, db <| db_operators ::= <[operatorID := default_operator name now]> |>);;
    mret (true, "approved"%string)
  end.

Definition ApproveOperator (now : Z) (input : ApproveOperatorInput) : Tx (string * NodeOperator) :=
  operatorID ← registry_id "operator id" input.(aoi_OperatorID);
  let name := named input.(aoi_Name) operatorID in
  actor ← required_text input.(aoi_Actor) 256 "operator approval actor is required";
  reason ← required_text input.(aoi_Reason) 1024 "operator approval reason is required";
  atomically (
    '(inserted, status) ← ensure_operator now operatorID name;
    action ← (if negb inserted && (status =?s "revoked") then
                set_operator operatorID (λ op, op <| op_name := name |> <| op_status := "approved"%string |>
                  <| op_approved_at := now |> <| op_revoked_at := None |> <| op_updated_at := now |>);;
                mret "reactivate"%string
              else
                refuse_if (negb (status =?s "approved")) (ErrText "unsupported node operator status");;
                set_operator operatorID (λ op, op <| op_name := name |> <| op_updated_at := now |>);;
                mret "approve"%string);
    appendOperatorRegistryAuditTX operatorID action actor reason);;
  NodeOperatorOf operatorID.

Definition RevokeOperator (now : Z) (input : RevokeOperatorInput) : Tx (string * NodeOperator) :=
  operatorID ← registry_id "operator id" input.(roi_OperatorID);
  actor ← required_text input.(roi_Actor) 256 "operator revocation actor is required";
  reason ← required_text input.(roi_Reason) 1024 "operator revocation reason is required";
  atomically (
    db ← gets id;
    op ← require (db.(db_operators) !! operatorID) ErrNodeOperatorNotFound;
    if op.(op_status) =?s "revoked" then mret tt
    else
      refuse_if (negb (op.(op_status) =?s "approved")) (ErrText "unsupported node operator status");;
      set_operator operatorID (λ op, op <| op_status := "revoked"%string |>
        <| op_revoked_at := Some now |> <| op_updated_at := now |>);;
      appendOperatorRegistryAuditTX operatorID "revoke" actor reason);;
  NodeOperatorOf operatorID.

(** ** Nodes and keys *)

(** A key row's state changes. *)
Definition end_key (state : string) (now : Z) (k : NodeKey) : NodeKey :=
  k <| nk_state := state |> <| nk_valid_until := Some (coalesce k.(nk_valid_until) now) |>
    <| nk_retired_at := Some (coalesce k.(nk_retired_at) now) |>.
Definition overlap_key (until : Z) (k : NodeKey) : NodeKey :=
  k <| nk_state := "overlap"%string |> <| nk_valid_until := Some until |>.
Definition retire_key (now : Z) (k : NodeKey) : NodeKey :=
  k <| nk_state := "retired"%string |> <| nk_valid_until := Some now |> <| nk_retired_at := Some now |>.

Definition in_state (nodeID state : string) (k : string * Z) (r : NodeKey) : bool :=
  (k.1 =?s nodeID) && (r.(nk_state) =?s state).

Definition update_keys (p : string * Z → NodeKey → bool) (f : NodeKey → NodeKey) : Tx unit :=
  modify (λ db, db <| db_node_keys ::= update_where p f |>).

(** CHECK (fingerprint_sha256 ~ '^[0-9a-f]{64}$'). *)
Definition valid_fingerprint (f : string) : bool :=
  (str_len f =? 64) && hex_ok f && (ToLower f =?s f).

(** Inserts an active key: the table's primary key, its unique fingerprint and
    its single active key per node. *)
Definition insert_active_key (now : Z) (nodeID : string) (version : Z) (publicKey fingerprint : string) : Tx unit :=
  db ← gets id;
  refuse_if (version <=? 0) (ErrCheck "approved_node_keys.key_version");;
  refuse_if (negb (valid_fingerprint fingerprint)) (ErrCheck "approved_node_keys.fingerprint_sha256");;
  refuse_if (not_null (db.(db_node_keys) !! (nodeID, version))) (ErrUnique "approved_node_keys_pkey");;
  refuse_if (exists_where (λ _ k, k.(nk_fingerprint_sha256) =?s fingerprint) db.(db_node_keys))
    (ErrUnique "approved_node_keys_fingerprint_sha256_key");;
  refuse_if (exists_where (in_state nodeID "active") db.(db_node_keys))
    (ErrUnique "idx_approved_node_keys_one_active");;
  modify (λ db, db <| db_node_keys ::=
    <[(nodeID, version) := MkNodeKey publicKey fingerprint "active" now None None now]> |>).

Definition set_node (id : string) (f : ApprovedNode → ApprovedNode) : Tx unit :=
  modify (λ db, db <| db_nodes ::= alter f id |>).

(** The fingerprint of the node's active key. *)
Definition active_fingerprint (nodeID : string) (version : Z) : Tx string :=
  db ← gets id;
  k ← require (db.(db_node_keys) !! (nodeID, version)) ErrNoRows;
  refuse_if (negb (k.(nk_state) =?s "active")) ErrNoRows;;
  mret k.(nk_fingerprint_sha256).

Section keys.
Context (NormalizePublicKey : string → option (string * string)).

Definition normalize_key (material : string) : Tx (string * string) :=
  require (NormalizePublicKey material) (ErrText "normalize node public key").

(** The node's own row, under an approved operator: known with the same key and
    operator, or added. *)
Definition approve_node_row (now : Z) (nodeID operatorID publicKey fingerprint actor reason : string) : Tx unit :=
  db ← gets id;
  match db.(db_nodes) !! nodeID with
  | Some n =>
    refuse_if (negb (n.(nd_status) =?s "approved")) ErrApprovedNodeRevoked;;
    activeFingerprint ← active_fingerprint nodeID n.(nd_active_key_version);
    refuse_if (negb (n.(nd_operator_id) =?s operatorID) || negb (activeFingerprint =?s fingerprint))
      ErrApprovedNodeExists
  | None =>
    modify (λ db, db <| db_nodes ::=
      <[nodeID := MkApprovedNode operatorID "approved" 1 now None now now]> |>);;
    insert_active_key now nodeID 1 publicKey fingerprint;;
    appendNodeRegistryAuditTX nodeID operatorID "approve" actor reason 1 fingerprint
  end.

Definition ApproveNode (now : Z) (input : ApproveNodeInput) : Tx ApprovedNodeView :=
  nodeID ← registry_id "node id" input.(ani_NodeID);
  operatorID ← registry_id "operator id" input.(ani_OperatorID);
  let operatorName := named input.(ani_OperatorName) operatorID in
  actor ← required_text input.(ani_Actor) 256 "approval actor is required";
  let reason := boundedRegistryText input.(ani_Reason) 1024 in
  '(publicKey, fingerprint) ← normalize_key input.(ani_PublicKey);
  atomically (
    '(inserted, operatorStatus) ← ensure_operator now operatorID operatorName;
    refuse_if (negb (operatorStatus =?s "approved")) ErrNodeOperatorRevoked;;
    (if inserted : bool then appendOperatorRegistryAuditTX operatorID "approve" actor reason else mret tt);;
    approve_node_row now nodeID operatorID publicKey fingerprint actor reason);;
  ApprovedNodeOf nodeID.

Definition EnrollDevelopmentNode (now : Z) (nodeID publicKey : string) : Tx ApprovedNodeView :=
  ApproveNode now (MkApproveNodeInput nodeID "development" "Development auto-enrollment" publicKey
    "development-auto-enrollment" "development-only heartbeat enrollment").

Definition RotateNodeKey (now : Z) (input : RotateNodeKeyInput) : Tx ApprovedNodeView :=
  nodeID ← registry_id "node id" input.(rki_NodeID);
  refuse_if ((input.(rki_Overlap) <? 0) || (MaxNodeKeyRotationOverlap <? input.(rki_Overlap)))
    ErrNodeKeyRotationOverlap;;
  actor ← required_text input.(rki_Actor) 256 "rotation actor is required";
  let reason := boundedRegistryText input.(rki_Reason) 1024 in
  '(publicKey, fingerprint) ← normalize_key input.(rki_PublicKey);
  atomically (
    db ← gets id;
    n ← require (db.(db_nodes) !! nodeID) ErrApprovedNodeNotFound;
    op ← require (db.(db_operators) !! n.(nd_operator_id)) ErrApprovedNodeNotFound;
    refuse_if (negb (n.(nd_status) =?s "approved")) ErrApprovedNodeRevoked;;
    refuse_if (negb (op.(op_status) =?s "approved")) ErrNodeOperatorRevoked;;
    let activeKeyVersion := n.(nd_active_key_version) in
    activeFingerprint ← active_fingerprint nodeID activeKeyVersion;
    refuse_if (activeFingerprint =?s fingerprint) ErrNodeKeyAlreadyActive;;
    update_keys (in_state nodeID "overlap") (end_key "retired" now);;
    (if 0 <? input.(rki_Overlap)
     then update_keys (λ k r, in_state nodeID "active" k r && (k.2 =? activeKeyVersion))
            (overlap_key (now + input.(rki_Overlap)))
     else update_keys (λ k r, in_state nodeID "active" k r && (k.2 =? activeKeyVersion)) (retire_key now));;
    let newKeyVersion := activeKeyVersion + 1 in
    insert_active_key now nodeID newKeyVersion publicKey fingerprint;;
    set_node nodeID (λ n, n <| nd_active_key_version := newKeyVersion |> <| nd_updated_at := now |>);;
    appendNodeRegistryAuditTX nodeID n.(nd_operator_id) "rotate" actor reason newKeyVersion fingerprint);;
  ApprovedNodeOf nodeID.

Definition RevokeNode (now : Z) (input : RevokeNodeInput) : Tx ApprovedNodeView :=
  nodeID ← registry_id "node id" input.(rni_NodeID);
  actor ← required_text input.(rni_Actor) 256 "revocation actor is required";
  reason ← required_text input.(rni_Reason) 1024 "revocation reason is required";
  atomically (
    db ← gets id;
    n ← require (db.(db_nodes) !! nodeID) ErrApprovedNodeNotFound;
    if n.(nd_status) =?s "revoked" then mret tt
    else
      set_node nodeID (λ n, n <| nd_status := "revoked"%string |>
        <| nd_revoked_at := Some now |> <| nd_updated_at := now |>);;
      update_keys (λ k r, in_state nodeID "active" k r || in_state nodeID "overlap" k r) (end_key "revoked" now);;
      appendNodeRegistryAuditTX nodeID n.(nd_operator_id) "revoke" actor reason n.(nd_active_key_version) "");;
  ApprovedNodeOf nodeID.

(** ** Input checks without the database *)

Definition ValidateApproveOperatorInput (input : ApproveOperatorInput) : Tx unit :=
  registry_id "operator id" input.(aoi_OperatorID);;
  required_text input.(aoi_Actor) 256 "operator approval actor is required";;
  required_text input.(aoi_Reason) 1024 "operator approval reason is required";;
  mret tt.
Definition ValidateRevokeOperatorInput (input : RevokeOperatorInput) : Tx unit :=
  registry_id "operator id" input.(roi_OperatorID);;
  required_text input.(roi_Actor) 256 "operator revocation actor is required";;
  required_text input.(roi_Reason) 1024 "operator revocation reason is required";;
  mret tt.
Definition ValidateNodeRegistryID (nodeID : string) : Tx unit :=
  registry_id "node id" nodeID;; mret tt.
Definition ValidateApproveNodeInput (input : ApproveNodeInput) : Tx unit :=
  registry_id "node id" input.(ani_NodeID);;
  registry_id "operator id" input.(ani_OperatorID);;
  required_text input.(ani_Actor) 256 "approval actor is required";;
  normalize_key input.(ani_PublicKey);;
  mret tt.
Definition ValidateRotateNodeKeyInput (input : RotateNodeKeyInput) : Tx unit :=
  registry_id "node id" input.(rki_NodeID);;
  refuse_if ((input.(rki_Overlap) <? 0) || (MaxNodeKeyRotationOverlap <? input.(rki_Overlap)))
    ErrNodeKeyRotationOverlap;;
  required_text input.(rki_Actor) 256 "rotation actor is required";;
  normalize_key input.(rki_PublicKey);;
  mret tt.
Definition ValidateRevokeNodeInput (input : RevokeNodeInput) : Tx unit :=
  registry_id "node id" input.(rni_NodeID);;
  required_text input.(rni_Actor) 256 "revocation actor is required";;
  required_text input.(rni_Reason) 1024 "revocation reason is required";;
  mret tt.
End keys.

(** ** Steps of the registry *)

(** What the operations do to the tables, seen from outside: an operator's row is
    written, a node is added with its first key, its key is rotated, or it is
    revoked.  Each step leaves one audit row. *)
Definition audited (row : AuditRow) (db : Db) : Db := db <| db_audit ::= (λ l, l ++ [row]) |>.

Definition rotate_keys (now overlap : Z) (nodeID : string) (version : Z) (K : gmap (string * Z) NodeKey) :=
  update_where (λ k r, in_state nodeID "active" k r && (k.2 =? version))
    (if 0 <? overlap then overlap_key (now + overlap) else retire_key now)
    (update_where (in_state nodeID "overlap") (end_key "retired" now) K).

Definition revoke_keys (now : Z) (nodeID : string) (K : gmap (string * Z) NodeKey) :=
  update_where (λ k r, in_state nodeID "active" k r || in_state nodeID "overlap" k r) (end_key "revoked" now) K.

Definition new_key (now : Z) (publicKey fingerprint : string) : NodeKey :=
  MkNodeKey publicKey fingerprint "active" now None None now.

(** A key that can be added as the node's active one. *)
Definition key_fresh (fingerprint : string) (K : gmap (string * Z) NodeKey) : Prop :=
  ∀ k r, K !! k = Some r → r.(nk_fingerprint_sha256) ≠ fingerprint.

Inductive registry_step (now : Z) : relation Db :=
  | step_operator db id op row :
      row.(au_operator_id) = id →
      registry_step now db (audited row (db <| db_operators ::= <[id := op]> |>))
  | step_node db nodeID operatorID op publicKey fingerprint row :
      db.(db_operators) !! operatorID = Some op → op.(op_status) = "approved"%string →
      db.(db_nodes) !! nodeID = None → db.(db_node_keys) !! (nodeID, 1) = None →
      key_fresh fingerprint db.(db_node_keys) →
      row.(au_node_id) = Some nodeID →
      registry_step now db (audited row
        (db <| db_nodes ::= <[nodeID := MkApprovedNode operatorID "approved" 1 now None now now]> |>
            <| db_node_keys ::= <[(nodeID, 1) := new_key now publicKey fingerprint]> |>))
  | step_rotate db nodeID n op overlap publicKey fingerprint row :
      db.(db_nodes) !! nodeID = Some n → n.(nd_status) = "approved"%string →
      db.(db_operators) !! n.(nd_operator_id) = Some op → op.(op_status) = "approved"%string →
      0 ≤ overlap ≤ MaxNodeKeyRotationOverlap → 0 < n.(nd_active_key_version) + 1 →
      db.(db_node_keys) !! (nodeID, n.(nd_active_key_version) + 1) = None →
      key_fresh fingerprint db.(db_node_keys) →
      row.(au_node_id) = Some nodeID →
      registry_step now db (audited row
        (db <| db_node_keys ::= rotate_keys now overlap nodeID n.(nd_active_key_version) |>
            <| db_node_keys ::= <[(nodeID, n.(nd_active_key_version) + 1) := new_key now publicKey fingerprint]> |>
            <| db_nodes ::= alter (λ n', n' <| nd_active_key_version := n.(nd_active_key_version) + 1 |>
                                           <| nd_updated_at := now |>) nodeID |>))
  | step_revoke db nodeID n row :
      db.(db_nodes) !! nodeID = Some n → row.(au_node_id) = Some nodeID →
      registry_step now db (audited row
        (db <| db_nodes ::= alter (λ n', n' <| nd_status := "revoked"%string |>
                 <| nd_revoked_at := Some now |> <| nd_updated_at := now |>) nodeID |>
            <| db_node_keys ::= revoke_keys now nodeID |>)).

(** Reads change nothing. *)
Lemma NodeOperatorOf_stable (R : relation Db) `{!PreOrder R} id : stable R (NodeOperatorOf id).
Proof. unfold NodeOperatorOf. stable_steps. Qed.
Lemma ApprovedNodeOf_stable (R : relation Db) `{!PreOrder R} id : stable R (ApprovedNodeOf id).
Proof. unfold ApprovedNodeOf. stable_steps. Qed.
Lemma registry_id_stable (R : relation Db) `{!PreOrder R} label value : stable R (registry_id label value).
Proof. unfold registry_id. stable_steps. Qed.
Lemma required_text_stable (R : relation Db) `{!PreOrder R} v n msg : stable R (required_text v n msg).
Proof. unfold required_text. stable_steps. Qed.
#[export] Hint Extern 2 (stable _ (NodeOperatorOf _)) => apply NodeOperatorOf_stable; apply _ : ops.
#[export] Hint Extern 2 (stable _ (ApprovedNodeOf _)) => apply ApprovedNodeOf_stable; apply _ : ops.
#[export] Hint Extern 2 (stable _ (registry_id _ _)) => apply registry_id_stable; apply _ : ops.
#[export] Hint Extern 2 (stable _ (required_text _ _ _)) => apply required_text_stable; apply _ : ops.

(** An operator's row written and audited, as the operations do it. *)
Lemma operator_written now g id op row db :
  g db.(db_operators) = <[id := op]> db.(db_operators) → row.(au_operator_id) = id →
  rtc (registry_step now) db (db <| db_operators ::= g |> <| db_audit ::= (λ l, l ++ [row]) |>).
Proof.
  intros Hg Hrow. apply rtc_once.
  replace (db <| db_operators ::= g |>) with (db <| db_operators ::= <[id := op]> |>).
  - by apply (step_operator now db id op row).
  - unfold set_field. by rewrite Hg.
Qed.

Lemma alter_new_operator f id op (O : gmap string NodeOperator) :
  alter f id (<[id := op]> O) = <[id := f op]> O.
Proof. rewrite (alter_as_insert _ _ _ op) by apply lookup_insert_eq. apply insert_insert_eq. Qed.

Lemma ApproveOperator_steps now input : stable (rtc (registry_step now)) (ApproveOperator now input).
Proof.
  unfold ApproveOperator. stable_to_tx. apply stable_of_wp. intros db.
  unfold ensure_operator, set_operator, appendOperatorRegistryAuditTX. wp_steps.
  destruct (db_operators db !! _) as [op|] eqn:Hop; wp_steps; try reflexivity.
  - eapply operator_written; [by apply alter_as_insert | done].
  - eapply operator_written; [by apply alter_as_insert | done].
  - eapply (operator_written now (alter _ a ∘ <[a := _]>)); [apply alter_new_operator | done].
  - eapply (operator_written now (alter _ a ∘ <[a := _]>)); [apply alter_new_operator | done].
Qed.

Lemma RevokeOperator_steps now input : stable (rtc (registry_step now)) (RevokeOperator now input).
Proof.
  unfold RevokeOperator. stable_to_tx. apply stable_of_wp. intros db.
  unfold set_operator, appendOperatorRegistryAuditTX. wp_steps; try reflexivity.
  eapply operator_written; [by apply alter_as_insert | done].
Qed.

Lemma insert_active_key_wp now nodeID version publicKey fingerprint db :
  wp (insert_active_key now nodeID version publicKey fingerprint)
    (λ _ db', (0 < version ∧ db.(db_node_keys) !! (nodeID, version) = None
       ∧ key_fresh fingerprint db.(db_node_keys)
       ∧ ∀ k r, db.(db_node_keys) !! k = Some r → in_state nodeID "active" k r = false)
     ∧ db' = db <| db_node_keys ::= <[(nodeID, version) := new_key now publicKey fingerprint]> |>)
    (λ _ _, True) db.
Proof.
  unfold insert_active_key. wp_steps; try done. split; [|done].
  split_and!; [by apply Z.leb_gt | by destruct (db_node_keys db !! _) | | by apply exists_where_false].
  intros k r Hk. apply str_eqb_neq. by eapply exists_where_false in H2.
Qed.

Lemma approve_node_row_steps now nodeID operatorID publicKey fingerprint actor reason db op :
  db.(db_operators) !! operatorID = Some op → op.(op_status) = "approved"%string →
  wp (approve_node_row now nodeID operatorID publicKey fingerprint actor reason)
    (λ _ db', rtc (registry_step now) db db') (λ _ _, True) db.
Proof.
  intros Hop Hst. unfold approve_node_row, active_fingerprint, appendNodeRegistryAuditTX. wp_steps.
  destruct (db_nodes db !! nodeID) as [n|] eqn:Hn; wp_steps; try done.
  eapply wp_mono; [apply insert_active_key_wp | | done].
  intros _ db' ((_ & Hk & Hf & _) & ->). wp_steps. apply rtc_once.
  by eapply (step_node now db nodeID operatorID op publicKey fingerprint (MkAuditRow (Some nodeID) _ _ _ _ _ _)).
Qed.

(** What a rotation does to one key row. *)
Definition rotate_key (now overlap : Z) (nodeID : string) (version : Z) (k : string * Z) (r : NodeKey) : NodeKey :=
  if in_state nodeID "overlap" k r then end_key "retired" now r
  else if in_state nodeID "active" k r && (k.2 =? version)
       then (if 0 <? overlap then overlap_key (now + overlap) r else retire_key now r)
       else r.

Lemma lookup_rotate_keys now overlap nodeID version K k :
  rotate_keys now overlap nodeID version K !! k = rotate_key now overlap nodeID version k <$> K !! k.
Proof.
  unfold rotate_keys. rewrite !lookup_update_where. destruct (K !! k) as [r|]; cbn; [|done]. f_equal.
  unfold rotate_key. destruct (in_state nodeID "overlap" k r) eqn:E.
  - unfold in_state. cbn. by rewrite andb_false_r.
  - by destruct (in_state nodeID "active" k r && _), (0 <? overlap).
Qed.

Lemma rotate_key_fingerprint now overlap nodeID version k r :
  (rotate_key now overlap nodeID version k r).(nk_fingerprint_sha256) = r.(nk_fingerprint_sha256).
Proof. unfold rotate_key. repeat case_match; done. Qed.

Lemma key_rotated now db g nodeID n op overlap publicKey fingerprint row :
  g db.(db_node_keys) = rotate_keys now overlap nodeID n.(nd_active_key_version) db.(db_node_keys) →
  db.(db_nodes) !! nodeID = Some n → n.(nd_status) = "approved"%string →
  db.(db_operators) !! n.(nd_operator_id) = Some op → op.(op_status) = "approved"%string →
  0 ≤ overlap ≤ MaxNodeKeyRotationOverlap → row.(au_node_id) = Some nodeID →
  wp (insert_active_key now nodeID (n.(nd_active_key_version) + 1) publicKey fingerprint)
    (λ _ db', rtc (registry_step now) db (audited row
       (db' <| db_nodes ::= alter (λ n', n' <| nd_active_key_version := n.(nd_active_key_version) + 1 |>
                                           <| nd_updated_at := now |>) nodeID |>)))
    (λ _ _, True) (db <| db_node_keys ::= g |>).
Proof.
  intros Hg Hn Hst Hop Hopst Hov Hrow. replace (db <| db_node_keys ::= g |>)
    with (db <| db_node_keys ::= rotate_keys now overlap nodeID n.(nd_active_key_version) |>)
    by (unfold set_field; by rewrite Hg).
  eapply wp_mono; [apply insert_active_key_wp | | done].
  intros ? db' ((Hpos & Hk & Hf & _) & ->). cbn [db_node_keys set_field] in Hk, Hf.
  rewrite lookup_rotate_keys in Hk. apply rtc_once. apply (step_rotate now db nodeID n op); try done.
  - by destruct (db_node_keys db !! _).
  - intros k r Hr. specialize (Hf k (rotate_key now overlap nodeID n.(nd_active_key_version) k r)).
    rewrite lookup_rotate_keys, Hr, rotate_key_fingerprint in Hf. by apply Hf.
Qed.

Section key_steps.
Context (NormalizePublicKey : string → option (string * string)).

Lemma ApproveNode_steps now input : stable (rtc (registry_step now)) (ApproveNode NormalizePublicKey now input).
Proof.
  unfold ApproveNode, normalize_key. stable_to_tx. apply stable_of_wp. intros db.
  unfold ensure_operator, appendOperatorRegistryAuditTX. wp_steps.
  destruct (db_operators db !! _) as [op|] eqn:Hop; wp_steps; try reflexivity.
  - eapply wp_mono; [eapply approve_node_row_steps; [exact Hop|] | done | done].
    by apply str_eqb_eq, negb_false_iff.
  - eapply wp_mono; [eapply approve_node_row_steps; [apply lookup_insert_eq | done] | | done].
    intros ? db' Hsteps. etransitivity; [|exact Hsteps]. by eapply (operator_written now (<[a0 := _]>)).
Qed.

Lemma RotateNodeKey_steps now input : stable (rtc (registry_step now)) (RotateNodeKey NormalizePublicKey now input).
Proof.
  unfold RotateNodeKey, normalize_key. stable_to_tx. apply stable_of_wp. intros db.
  unfold active_fingerprint, update_keys, set_node, appendNodeRegistryAuditTX. wp_steps; try reflexivity.
  all: eapply wp_mono; [eapply (key_rotated now db (update_where _ _ ∘ update_where _ _) a a2 a3
         input.(rki_Overlap) _ _ (MkAuditRow (Some a) _ _ _ _ _ _)); try done
       | intros ? db' Hsteps; wp_steps; exact Hsteps | done].
  all: repeat match goal with
       | H : (_ || _) = false |- _ => apply orb_false_iff in H as [? ?]
       | H : negb (_ =?s _) = false |- _ => apply negb_false_iff, str_eqb_eq in H
       | H : (_ <? _) = false |- _ => apply Z.ltb_ge in H
       end; try done.
  - unfold rotate_keys. by rewrite H8.
  - unfold rotate_keys. by rewrite (proj2 (Z.ltb_ge _ _)).
Qed.

Lemma RevokeNode_steps now input : stable (rtc (registry_step now)) (RevokeNode now input).
Proof.
  unfold RevokeNode. stable_to_tx. apply stable_of_wp. intros db.
  unfold update_keys, set_node, appendNodeRegistryAuditTX. wp_steps; try reflexivity.
  apply rtc_once. by eapply (step_revoke now db _ _ (MkAuditRow (Some _) _ _ _ _ _ _)).
Qed.
End key_steps.

(** ** The registry's invariant *)

(** Of the operators, nodes and keys together. *)
Record reg_tables (O : gmap string NodeOperator) (N : gmap string ApprovedNode)
    (K : gmap (string * Z) NodeKey) : Prop := {
  reg_owner : ∀ id n, N !! id = Some n → is_Some (O !! n.(nd_operator_id));
  reg_version : ∀ id v k, K !! (id, v) = Some k → ∃ n, N !! id = Some n ∧ v ≤ n.(nd_active_key_version);
  reg_active : ∀ id v k n, K !! (id, v) = Some k → k.(nk_state) = "active"%string → N !! id = Some n →
    n.(nd_status) = "approved"%string ∧ v = n.(nd_active_key_version);
  reg_has_key : ∀ id n, N !! id = Some n → n.(nd_status) = "approved"%string →
    ∃ k, K !! (id, n.(nd_active_key_version)) = Some k ∧ k.(nk_state) = "active"%string;
  reg_overlap : ∀ id v v' k k', K !! (id, v) = Some k → K !! (id, v') = Some k' →
    k.(nk_state) = "overlap"%string → k'.(nk_state) = "overlap"%string → v = v';
  reg_fingerprint : ∀ x y k k', K !! x = Some k → K !! y = Some k' →
    k.(nk_fingerprint_sha256) = k'.(nk_fingerprint_sha256) → x = y
}.

Definition registry_ok (db : Db) : Prop := reg_tables db.(db_operators) db.(db_nodes) db.(db_node_keys).

Lemma in_state_true n st k r : in_state n st k r = true ↔ k.1 = n ∧ r.(nk_state) = st.
Proof. unfold in_state. by rewrite andb_true_iff, !str_eqb_eq. Qed.
Lemma in_state_false n st k r : in_state n st k r = false ↔ ¬ (k.1 = n ∧ r.(nk_state) = st).
Proof. by rewrite <-in_state_true, not_true_iff_false. Qed.

Lemma reg_operator O N K id op : reg_tables O N K → reg_tables (<[id := op]> O) N K.
Proof.
  intros [Ho Hv Ha Hk Hov Hf]. split; try done. intros i n Hn.
  rewrite lookup_insert. case_decide; [by eexists | by eapply Ho].
Qed.

Lemma reg_new_node O N K id n k :
  reg_tables O N K → N !! id = None → is_Some (O !! n.(nd_operator_id)) →
  n.(nd_status) = "approved"%string → n.(nd_active_key_version) = 1 → k.(nk_state) = "active"%string →
  key_fresh k.(nk_fingerprint_sha256) K →
  reg_tables O (<[id := n]> N) (<[(id, 1) := k]> K).
Proof.
  intros [Ho Hv Ha Hk Hov Hf] Hid Hop Hst Hver Hact Hfr.
  assert (Hnone : ∀ v k', K !! (id, v) ≠ Some k').
  { intros v k' E. destruct (Hv _ _ _ E) as (n' & Hn' & _). congruence. }
  split.
  - intros i n' [[<- <-]|[? Hn']]%lookup_insert_Some; [done | by eapply Ho].
  - intros i v k' [[[= <- <-] <-]|[? Hk']]%lookup_insert_Some.
    + exists n. rewrite lookup_insert_eq. split; [done | lia].
    + destruct (Hv _ _ _ Hk') as (n' & Hn' & ?). exists n'. rewrite lookup_insert_ne; [done|].
      intros <-. congruence.
  - intros i v k' n' Hk' Hs Hn'.
    apply lookup_insert_Some in Hk' as [[? <-]|[? Hk']], Hn' as [[? <-]|[? Hn']]; simplify_eq;
      [done | by apply Hnone in Hk' | by eapply Ha].
  - intros i n' [[<- <-]|[Hne Hn']]%lookup_insert_Some Hs.
    + exists k. rewrite Hver. by rewrite lookup_insert_eq.
    + destruct (Hk i n' Hn' Hs) as (k' & Hk' & ?). exists k'. rewrite lookup_insert_ne by congruence. done.
  - intros i v v' k1 k2 H1 H2 S1 S2.
    apply lookup_insert_Some in H1 as [[? <-]|[? H1]], H2 as [[? <-]|[? H2]]; simplify_eq;
      [congruence.. | by eapply Hov].
  - intros x y k1 k2 [[<- <-]|[? H1]]%lookup_insert_Some [[<- <-]|[? H2]]%lookup_insert_Some Hfp.
    + done.
    + exfalso. by eapply (Hfr y k2).
    + exfalso. by eapply (Hfr x k1).
    + by eapply Hf.
Qed.

Lemma rotate_key_state now overlap nodeID version k r :
  (rotate_key now overlap nodeID version k r).(nk_state) =
    if in_state nodeID "overlap" k r then "retired"%string
    else if in_state nodeID "active" k r && (k.2 =? version)
         then (if 0 <? overlap then "overlap"%string else "retired"%string) else r.(nk_state).
Proof. unfold rotate_key. repeat case_match; done. Qed.

Lemma reg_rotate O N K now overlap id n k :
  reg_tables O N K → N !! id = Some n → n.(nd_status) = "approved"%string →
  k.(nk_state) = "active"%string → key_fresh k.(nk_fingerprint_sha256) K →
  K !! (id, n.(nd_active_key_version) + 1) = None →
  reg_tables O (alter (λ n', n' <| nd_active_key_version := n.(nd_active_key_version) + 1 |>
                                <| nd_updated_at := now |>) id N)
    (<[(id, n.(nd_active_key_version) + 1) := k]> (rotate_keys now overlap id n.(nd_active_key_version) K)).
Proof.
  intros [Ho Hv Ha Hk Hov Hf] Hn Hst Hact Hfr Hnew.
  assert (Hother : ∀ k' r, k'.1 ≠ id → rotate_key now overlap id n.(nd_active_key_version) k' r = r).
  { intros k' r Hne. unfold rotate_key, in_state. by rewrite (proj2 (str_eqb_neq _ _) Hne). }
  rewrite (alter_as_insert _ _ _ n Hn).
  split.
  - intros i n' [[<- <-]|[? Hn']]%lookup_insert_Some; [by apply (Ho id n) | by eapply Ho].
  - intros i v k' [[[= <- <-] <-]|[? Hk']]%lookup_insert_Some.
    + eexists. rewrite lookup_insert_eq. split; [done|]. cbn. lia.
    + rewrite lookup_rotate_keys in Hk'. apply fmap_Some in Hk' as (k0 & Hk0 & ->).
      destruct (Hv _ _ _ Hk0) as (n0 & Hn0 & Hle). destruct (decide (id = i)) as [<-|Hne].
      * eexists. rewrite lookup_insert_eq. split; [done|]. simplify_eq. cbn. lia.
      * rewrite lookup_insert_ne by done. eauto.
  - intros i v k' n' [[[= <- <-] <-]|[? Hk']]%lookup_insert_Some Hs Hn'.
    { rewrite lookup_insert_eq in Hn'. by simplify_eq. }
    rewrite lookup_rotate_keys in Hk'. apply fmap_Some in Hk' as (k0 & Hk0 & ->).
    apply lookup_insert_Some in Hn' as [[<- <-]|[? Hn']]; [|rewrite Hother in Hs by (cbn; congruence); by eapply Ha].
    exfalso. rewrite rotate_key_state in Hs. case_match; [done|].
    destruct (in_state id "active" (id, v) k0) eqn:Ein.
    + apply in_state_true in Ein as [_ Hact0]. destruct (Ha _ _ _ _ Hk0 Hact0 Hn) as [_ ->].
      cbn in Hs. rewrite Z.eqb_refl in Hs. by case_match.
    + cbn in Hs. apply in_state_false in Ein. by apply Ein.
  - intros i n' [[<- <-]|[Hne Hn']]%lookup_insert_Some Hs.
    + exists k. cbn. by rewrite lookup_insert_eq.
    + destruct (Hk i n' Hn' Hs) as (k' & Hk' & ?). exists k'. rewrite lookup_insert_ne by congruence.
      rewrite lookup_rotate_keys, Hk'. cbn. rewrite Hother by (cbn; congruence). done.
  - intros i v v' k1 k2 H1 H2 S1 S2.
    assert (Hsole : ∀ w kw, <[(id, nd_active_key_version n + 1):=k]>
        (rotate_keys now overlap id (nd_active_key_version n) K) !! (i, w) = Some kw →
      kw.(nk_state) = "overlap"%string →
      i = id ∧ w = n.(nd_active_key_version)
      ∨ i ≠ id ∧ ∃ r, K !! (i, w) = Some r ∧ r.(nk_state) = "overlap"%string).
    { intros w kw [[[= <- <-] <-]|[_ Hw]]%lookup_insert_Some Hs; [congruence|].
      rewrite lookup_rotate_keys in Hw. apply fmap_Some in Hw as (r & Hr & ->).
      destruct (decide (i = id)) as [->|Hne]; [left|right; rewrite Hother in Hs by done; eauto].
      rewrite rotate_key_state in Hs. destruct (in_state id "overlap" (id, w) r) eqn:Eo; [done|].
      destruct (in_state id "active" (id, w) r && _) eqn:Ea.
      - by apply andb_true_iff in Ea as [_ Ea%Z.eqb_eq].
      - apply in_state_false in Eo. exfalso. by apply Eo. }
    destruct (Hsole _ _ H1 S1) as [[-> ->]|(? & ? & ? & ?)], (Hsole _ _ H2 S2) as [[? ->]|(? & ? & ? & ?)]; try done.
    by eapply Hov.
  - assert (Hfp : ∀ x kx, rotate_keys now overlap id (nd_active_key_version n) K !! x = Some kx →
      ∃ r, K !! x = Some r ∧ kx.(nk_fingerprint_sha256) = r.(nk_fingerprint_sha256)).
    { intros x kx Hx. rewrite lookup_rotate_keys in Hx. apply fmap_Some in Hx as (r & Hr & ->).
      exists r. by rewrite rotate_key_fingerprint. }
    intros x y k1 k2 [[<- <-]|[_ (r1 & H1 & E1)%Hfp]]%lookup_insert_Some
      [[<- <-]|[_ (r2 & H2 & E2)%Hfp]]%lookup_insert_Some E.
    + done.
    + exfalso. eapply Hfr; [exact H2 | congruence].
    + exfalso. eapply Hfr; [exact H1 | congruence].
    + eapply Hf; [exact H1 | exact H2 | congruence].
Qed.

Lemma reg_revoke O N K now id n :
  reg_tables O N K → N !! id = Some n →
  reg_tables O (alter (λ n', n' <| nd_status := "revoked"%string |>
      <| nd_revoked_at := Some now |> <| nd_updated_at := now |>) id N) (revoke_keys now id K).
Proof.
  intros [Ho Hv Ha Hk Hov Hf] Hn. rewrite (alter_as_insert _ _ _ n Hn).
  assert (Hkey : ∀ x kx, revoke_keys now id K !! x = Some kx → ∃ r, K !! x = Some r
    ∧ kx.(nk_fingerprint_sha256) = r.(nk_fingerprint_sha256)
    ∧ (kx.(nk_state) = "revoked"%string ∨ x.1 ≠ id ∧ kx = r
       ∨ kx = r ∧ r.(nk_state) ≠ "active"%string ∧ r.(nk_state) ≠ "overlap"%string)).
  { intros x kx Hx. unfold revoke_keys in Hx. apply update_where_Some in Hx as (r & Hr & ->).
    exists r. split; [done|]. destruct (_ || _) eqn:E; [auto|]. split; [done|]. right.
    apply orb_false_iff in E as [E1%in_state_false E2%in_state_false].
    destruct (decide (x.1 = id)); [right; split; [done|]; split; tauto | by left]. }
  split.
  - intros i n' [[<- <-]|[? Hn']]%lookup_insert_Some; [by apply (Ho id n) | by eapply Ho].
  - intros i v k' (r & Hr & _)%Hkey. destruct (Hv _ _ _ Hr) as (n' & Hn' & ?).
    destruct (decide (id = i)) as [<-|Hne]; [|rewrite lookup_insert_ne by done; eauto].
    rewrite lookup_insert_eq. eexists. split; [done|]. simplify_eq. done.
  - intros i v k' n' (r & Hr & _ & Hst)%Hkey Hs Hn'.
    destruct Hst as [?|[[Hne ->]|(-> & ? & _)]]; [congruence | | done].
    apply lookup_insert_Some in Hn' as [[<- _]|[_ Hn']]; [done | by eapply Ha].
  - intros i n' [[<- <-]|[Hne Hn']]%lookup_insert_Some Hs; [done|].
    destruct (Hk i n' Hn' Hs) as (k' & Hk' & ?). exists k'. split; [|done].
    unfold revoke_keys. rewrite lookup_update_where, Hk'. cbn. unfold in_state. cbn.
    by rewrite (proj2 (str_eqb_neq i id)).
  - intros i v v' k1 k2 (r1 & H1 & _ & E1)%Hkey (r2 & H2 & _ & E2)%Hkey S1 S2.
    destruct E1 as [?|[[? ->]|(-> & _ & ?)]]; [congruence | | done].
    destruct E2 as [?|[[? ->]|(-> & _ & ?)]]; [congruence | by eapply Hov | done].
  - intros x y k1 k2 (r1 & H1 & E1 & _)%Hkey (r2 & H2 & E2 & _)%Hkey E. eapply Hf; [exact H1 | exact H2 | congruence].
Qed.

Lemma registry_step_ok now db db' : registry_step now db db' → registry_ok db → registry_ok db'.
Proof.
  intros Hstep Hok. destruct Hstep; unfold registry_ok, audited; cbn.
  - by apply reg_operator.
  - by apply reg_new_node.
  - by apply reg_rotate.
  - by eapply reg_revoke.
Qed.

Lemma registry_steps_ok now db db' : rtc (registry_step now) db db' → registry_ok db → registry_ok db'.
Proof. induction 1; eauto using registry_step_ok. Qed.

(** ** The registry's interface *)

(** The administrator's operations, and one run of them. *)
Inductive RegistryOp :=
  | ApproveOperatorOp (input : ApproveOperatorInput)
  | RevokeOperatorOp (input : RevokeOperatorInput)
  | ApproveNodeOp (input : ApproveNodeInput)
  | EnrollDevelopmentNodeOp (nodeID publicKey : string)
  | RotateNodeKeyOp (input : RotateNodeKeyInput)
  | RevokeNodeOp (input : RevokeNodeInput).

Definition run_registry (NormalizePublicKey : string → option (string * string)) (now : Z) (op : RegistryOp)
    : Tx unit :=
  match op with
  | ApproveOperatorOp input => ApproveOperator now input;; mret tt
  | RevokeOperatorOp input => RevokeOperator now input;; mret tt
  | ApproveNodeOp input => ApproveNode NormalizePublicKey now input;; mret tt
  | EnrollDevelopmentNodeOp nodeID publicKey => EnrollDevelopmentNode NormalizePublicKey now nodeID publicKey;; mret tt
  | RotateNodeKeyOp input => RotateNodeKey NormalizePublicKey now input;; mret tt
  | RevokeNodeOp input => RevokeNode now input;; mret tt
  end.

Lemma run_registry_steps NP now op : stable (rtc (registry_step now)) (run_registry NP now op).
Proof.
  destruct op; unfold run_registry, EnrollDevelopmentNode; (apply stable_bind; [apply _ | | intros ?; stable_steps]).
  - apply ApproveOperator_steps.
  - apply RevokeOperator_steps.
  - apply ApproveNode_steps.
  - apply ApproveNode_steps.
  - apply RotateNodeKey_steps.
  - apply RevokeNode_steps.
Qed.

(** Any sequence of registry steps, at any times. *)
Definition registry_history : relation Db := rtc (λ db db', ∃ now, registry_step now db db').

Lemma registry_steps_history now db db' : rtc (registry_step now) db db' → registry_history db db'.
Proof. apply rtc_congruence with (f := λ x, x). eauto. Qed.

Lemma registry_step_audit now db db' : registry_step now db db' → ∃ row, db'.(db_audit) = db.(db_audit) ++ [row].
Proof. destruct 1; by eexists. Qed.

Lemma registry_history_audit db db' :
  registry_history db db' → db' = db ∨ ∃ row rows, db'.(db_audit) = db.(db_audit) ++ row :: rows.
Proof.
  induction 1 as [db|db1 db2 db3 [now (row & Hrow)%registry_step_audit] _ [->|(row' & rows & Hr)]]; [by left| |].
  - right. by exists row, [].
  - right. exists row, (row' :: rows). by rewrite Hr, Hrow, <-(assoc (++)).
Qed.

(** A revoked node stays revoked. *)
Definition node_revoked (nodeID : string) (db : Db) : Prop :=
  ∃ n, db.(db_nodes) !! nodeID = Some n ∧ n.(nd_status) = "revoked"%string.

Lemma registry_step_revoked nodeID now db db' :
  registry_step now db db' → node_revoked nodeID db → node_revoked nodeID db'.
Proof.
  intros Hstep (n & Hn & Hr). unfold node_revoked.
  destruct Hstep as [db id op row Hrow|db id opid op pk fp row Hop Hst Hnone _ _ _
    |db id n' op ov pk fp row Hn' Hst _ _ _ _ _ _ _|db id n' row Hn' _]; unfold audited; cbn.
  - eauto.
  - rewrite lookup_insert_ne by congruence. eauto.
  - destruct (decide (id = nodeID)) as [->|]; [congruence|]. rewrite lookup_alter_ne by done. eauto.
  - destruct (decide (id = nodeID)) as [->|]; [|rewrite lookup_alter_ne by done; eauto].
    rewrite lookup_alter_eq, Hn. by eexists.
Qed.

Lemma registry_history_revoked nodeID db db' :
  registry_history db db' → node_revoked nodeID db → node_revoked nodeID db'.
Proof. induction 1 as [|? ? ? [? ?]]; eauto using registry_step_revoked. Qed.

Lemma node_revoked_no_keys now nodeID db : node_revoked nodeID db → authorized_keys now nodeID db = [].
Proof.
  intros (n & Hn & Hr). unfold authorized_keys. rewrite Hn. destruct (_ !! nd_operator_id n); [|done].
  by rewrite Hr.
Qed.

(** *** Authorised keys *)

Lemma elem_of_node_keys p nodeID db v k :
  (v, k) ∈ node_keys p nodeID db ↔ db.(db_node_keys) !! (nodeID, v) = Some k ∧ p v k = true.
Proof.
  unfold node_keys. rewrite elem_of_order_by, list_elem_of_fmap. split.
  - intros ([[i w] r] & [= -> ->] & [Hk [Hi%str_eqb_eq Hp]%andb_true_iff]%elem_of_select). cbn in *. by subst.
  - intros [Hk Hp]. exists ((nodeID, v), k). split; [done|]. apply elem_of_select.
    cbn. by rewrite str_eqb_refl, Hp.
Qed.

Lemma node_keys_versions p nodeID db : NoDup (node_keys p nodeID db).*1.
Proof.
  unfold node_keys. rewrite (order_by_perm newest_first _), <-list_fmap_compose.
  assert (Hsub : NoDup (select (λ k r, (k.1 =?s nodeID) && p k.2 r) db.(db_node_keys)).*1) by apply select_NoDup.
  assert (Hnode : ∀ x, x ∈ select (λ k r, (k.1 =?s nodeID) && p k.2 r) db.(db_node_keys) → x.1.1 = nodeID).
  { intros [k r] [_ [Hi%str_eqb_eq _]%andb_true_iff]%elem_of_select. done. }
  revert Hsub Hnode. generalize (select (λ k r, (k.1 =?s nodeID) && p k.2 r) db.(db_node_keys)) as l.
  induction l as [|x l IH]; cbn; [constructor|]. intros [Hx Hl]%NoDup_cons Hnode.
  apply NoDup_cons. split; [|apply IH; [done | intros y Hy; apply Hnode; by right]].
  intros (y & Hy & Hin)%list_elem_of_fmap. apply Hx, list_elem_of_fmap. exists y. split; [|done].
  rewrite (surjective_pairing x.1), (surjective_pairing y.1), (Hnode x), (Hnode y); [by f_equal | by right | by left].
Qed.

Lemma newest_first_sorted p nodeID db :
  StronglySorted (λ x y, newest_first x y = true) (node_keys p nodeID db).
Proof. apply order_by_sorted; intros; unfold newest_first in *; rewrite ?Z.leb_le in *; lia. Qed.

Lemma authorized_keys_inv now nodeID db v k :
  (v, k) ∈ authorized_keys now nodeID db ↔
  ∃ n op, db.(db_nodes) !! nodeID = Some n ∧ db.(db_operators) !! n.(nd_operator_id) = Some op
    ∧ n.(nd_status) = "approved"%string ∧ op.(op_status) = "approved"%string
    ∧ db.(db_node_keys) !! (nodeID, v) = Some k ∧ authorizes now n v k = true.
Proof.
  unfold authorized_keys. destruct (db.(db_nodes) !! nodeID) as [n|]; [|set_solver].
  destruct (db.(db_operators) !! n.(nd_operator_id)) as [op|] eqn:Hop; [|set_solver].
  destruct (_ && _) eqn:E.
  - apply andb_true_iff in E as [E1%str_eqb_eq E2%str_eqb_eq]. rewrite elem_of_node_keys. split.
    + intros [? ?]. by exists n, op.
    + intros (n' & op' & [= <-] & Hop' & _ & _ & ? & ?). done.
  - split; [set_solver|]. intros (n' & op' & [= <-] & Hop' & E1 & E2 & _). simplify_eq.
    by rewrite E1, E2 in E.
Qed.

(** At most one active and one overlap key. *)
Lemma authorized_keys_two now nodeID db : registry_ok db → (length (authorized_keys now nodeID db) ≤ 2)%nat.
Proof.
  intros Hok. rewrite <-(length_fmap fst).
  assert (Hnd : NoDup (authorized_keys now nodeID db).*1).
  { unfold authorized_keys. repeat case_match; try (cbn; constructor). apply node_keys_versions. }
  assert (Hin : ∀ v, v ∈ (authorized_keys now nodeID db).*1 → ∃ k n,
    db.(db_nodes) !! nodeID = Some n ∧ db.(db_node_keys) !! (nodeID, v) = Some k
    ∧ (v = n.(nd_active_key_version) ∨ k.(nk_state) = "overlap"%string)).
  { intros v ([v' k] & -> & (n & op & Hn & _ & _ & _ & Hk & Ha)%authorized_keys_inv)%list_elem_of_fmap.
    exists k, n. cbn. split_and!; [done | done |]. unfold authorizes in Ha.
    apply orb_true_iff in Ha as [[_ ?%Z.eqb_eq]%andb_true_iff|[?%str_eqb_eq _]%andb_true_iff]; auto. }
  destruct ((authorized_keys now nodeID db).*1) as [|a [|b [|c l]]]; cbn; try lia. exfalso.
  apply NoDup_cons in Hnd as [Ha Hnd]. apply NoDup_cons in Hnd as [Hb _].
  destruct (Hin a) as (ka & n & Hn & Hka & Ca); [set_solver|].
  destruct (Hin b) as (kb & n' & Hn' & Hkb & Cb); [set_solver|].
  destruct (Hin c) as (kc & n'' & Hn'' & Hkc & Cc); [set_solver|]. simplify_eq.
  pose proof (reg_overlap _ _ _ Hok nodeID) as Hov.
  assert (a ≠ b ∧ a ≠ c ∧ b ≠ c) as (? & ? & ?) by set_solver.
  destruct Ca as [->|Ca], Cb as [->|Cb], Cc as [->|Cc]; try done; eauto.
Qed.

(** *** Rotation and revocation in detail *)

Lemma wp_registry_id label value Q (X : Err → Db → Prop) db :
  (∀ v, normalizeRegistryID value = Some v → Q v db) → (∀ e, X e db) → wp (registry_id label value) Q X db.
Proof. intros HQ HX. unfold registry_id. destruct (normalizeRegistryID value); [by apply HQ | case_match; apply HX]. Qed.

Lemma wp_ApprovedNodeOf nodeID Q (X : Err → Db → Prop) db :
  (∀ v, Q v db) → (∀ e, X e db) → wp (ApprovedNodeOf nodeID) Q X db.
Proof. apply wp_read. by apply ApprovedNodeOf_stable, _. Qed.

(** The state a rotation leaves. *)
Definition rotated (now overlap : Z) (nodeID publicKey fingerprint : string) (db db' : Db) : Prop :=
  0 ≤ overlap ≤ MaxNodeKeyRotationOverlap ∧
  ∃ n op k,
    db.(db_nodes) !! nodeID = Some n ∧ n.(nd_status) = "approved"%string
    ∧ db.(db_operators) !! n.(nd_operator_id) = Some op ∧ op.(op_status) = "approved"%string
    ∧ db.(db_node_keys) !! (nodeID, n.(nd_active_key_version)) = Some k ∧ k.(nk_state) = "active"%string
    ∧ db'.(db_operators) = db.(db_operators)
    ∧ db'.(db_nodes) = alter (λ n', n' <| nd_active_key_version := n.(nd_active_key_version) + 1 |>
                                       <| nd_updated_at := now |>) nodeID db.(db_nodes)
    ∧ db'.(db_node_keys) = <[(nodeID, n.(nd_active_key_version) + 1) := new_key now publicKey fingerprint]>
        (rotate_keys now overlap nodeID n.(nd_active_key_version) db.(db_node_keys)).

Lemma RotateNodeKey_wp NP now input db :
  wp (RotateNodeKey NP now input)
    (λ _ db', ∃ nodeID publicKey fingerprint, normalizeRegistryID input.(rki_NodeID) = Some nodeID
       ∧ NP input.(rki_PublicKey) = Some (publicKey, fingerprint)
       ∧ rotated now input.(rki_Overlap) nodeID publicKey fingerprint db db')
    (λ _ _, True) db.
Proof.
  unfold RotateNodeKey. rewrite wp_bind. apply wp_registry_id; [|done]. intros nodeID Hid.
  unfold required_text, normalize_key, active_fingerprint, update_keys, set_node, appendNodeRegistryAuditTX.
  wp_steps; try exact I. destruct a as [publicKey fingerprint]. wp_steps; try exact I.
  all: eapply wp_mono; [apply insert_active_key_wp | intros ? db' (_ & ->) | done]; wp_steps;
    apply wp_ApprovedNodeOf; [intros v; exists nodeID, publicKey, fingerprint; split; [done|]; split; [done|] | done].
  all: apply orb_false_iff in H as [?%Z.ltb_ge ?%Z.ltb_ge]; split; [done|];
    exists a, a0, a1; cbn; split_and!; try done; try (by apply str_eqb_eq, negb_false_iff);
    unfold rotate_keys; f_equal.
  - by rewrite H9.
  - by rewrite H9.
Qed.

Lemma RevokeNode_wp now input db :
  wp (RevokeNode now input)
    (λ _ db', ∃ nodeID, normalizeRegistryID input.(rni_NodeID) = Some nodeID ∧ node_revoked nodeID db')
    (λ e db', match e with ErrApprovedNodeNotFound | ErrApprovedNodeRevoked => True | _ => False end →
       ∃ nodeID, normalizeRegistryID input.(rni_NodeID) = Some nodeID
       ∧ (db'.(db_nodes) !! nodeID = None ∨ node_revoked nodeID db')) db.
Proof.
  unfold RevokeNode. rewrite wp_bind. unfold registry_id.
  destruct (normalizeRegistryID _) as [nodeID|] eqn:Hid; [|case_match; wp_steps; done].
  unfold required_text, update_keys, set_node, appendNodeRegistryAuditTX. wp_steps; try done.
  - apply wp_ApprovedNodeOf.
    + intros v. exists nodeID. split; [done|]. exists a. split; [done|]. by apply str_eqb_eq.
    + intros e _. exists nodeID. split; [done|]. right. exists a. split; [done|]. by apply str_eqb_eq.
  - assert (Hrev : ∀ D, D.(db_nodes) = alter (λ n, n <| nd_status := "revoked"%string |> <| nd_revoked_at := Some now |>
        <| nd_updated_at := now |>) nodeID db.(db_nodes) → node_revoked nodeID D).
    { intros D HD. unfold node_revoked. rewrite HD, lookup_alter_eq, H1. by eexists. }
    apply wp_ApprovedNodeOf; [intros v | intros e _].
    + exists nodeID. split; [done | by apply Hrev].
    + exists nodeID. split; [done | right; by apply Hrev].
  - intros _. exists nodeID. split; [done | by left].
Qed.

(** The state an approval leaves: the node is approved with the given key. *)
Definition node_approved (nodeID operatorID fingerprint : string) (db : Db) : Prop :=
  ∃ n op k, db.(db_nodes) !! nodeID = Some n ∧ n.(nd_status) = "approved"%string ∧ n.(nd_operator_id) = operatorID
    ∧ db.(db_operators) !! operatorID = Some op ∧ op.(op_status) = "approved"%string
    ∧ db.(db_node_keys) !! (nodeID, n.(nd_active_key_version)) = Some k
    ∧ k.(nk_state) = "active"%string ∧ k.(nk_fingerprint_sha256) = fingerprint.

Lemma node_approved_key now nodeID operatorID fingerprint db :
  node_approved nodeID operatorID fingerprint db →
  ∃ v k, (v, k) ∈ authorized_keys now nodeID db ∧ k.(nk_fingerprint_sha256) = fingerprint.
Proof.
  intros (n & op & k & Hn & Hs & <- & Hop & Hos & Hk & Ha & Hf). exists n.(nd_active_key_version), k. split; [|done].
  apply authorized_keys_inv. exists n, op. split_and!; try done. unfold authorizes. by rewrite Ha, Z.eqb_refl.
Qed.

Lemma approve_node_row_wp now nodeID operatorID publicKey fingerprint actor reason db op :
  db.(db_operators) !! operatorID = Some op → op.(op_status) = "approved"%string →
  wp (approve_node_row now nodeID operatorID publicKey fingerprint actor reason)
    (λ _ db', node_approved nodeID operatorID fingerprint db') (λ _ _, True) db.
Proof.
  intros Hop Hst. unfold approve_node_row, active_fingerprint, appendNodeRegistryAuditTX. wp_steps.
  destruct (db_nodes db !! nodeID) as [n|] eqn:Hn; wp_steps; try done.
  - apply orb_false_iff in H2 as [Ho Hf]. exists n, op, a.
    split_and!; try done; by apply str_eqb_eq, negb_false_iff.
  - eapply wp_mono; [apply insert_active_key_wp | | done]. intros ? db' (_ & ->). wp_steps.
    unfold node_approved. cbn. rewrite lookup_insert_eq.
    eexists _, op, (new_key now publicKey fingerprint). split_and!; try done. cbn. apply lookup_insert_eq.
Qed.

Lemma ApproveNode_wp NP now input db :
  wp (ApproveNode NP now input)
    (λ _ db', ∃ nodeID operatorID publicKey fingerprint,
       normalizeRegistryID input.(ani_NodeID) = Some nodeID
       ∧ normalizeRegistryID input.(ani_OperatorID) = Some operatorID
       ∧ NP input.(ani_PublicKey) = Some (publicKey, fingerprint)
       ∧ node_approved nodeID operatorID fingerprint db')
    (λ _ _, True) db.
Proof.
  unfold ApproveNode. rewrite wp_bind. apply wp_registry_id; [|done]. intros nodeID Hid.
  rewrite wp_bind. apply wp_registry_id; [|done]. intros operatorID Hopid.
  unfold required_text, normalize_key, ensure_operator, appendOperatorRegistryAuditTX. wp_steps; try done.
  destruct a as [publicKey fingerprint]. wp_steps.
  destruct (db_operators db !! operatorID) as [op|] eqn:Hop; wp_steps; try done.
  all: eapply wp_mono; [eapply approve_node_row_wp | intros u db' Happ | done].
  - exact Hop.
  - by apply str_eqb_eq, negb_false_iff.
  - apply wp_ApprovedNodeOf; [intros v | done]. by exists nodeID, operatorID, publicKey, fingerprint.
  - apply lookup_insert_eq.
  - done.
  - apply wp_ApprovedNodeOf; [intros v | done]. by exists nodeID, operatorID, publicKey, fingerprint.
Qed.

Lemma RevokeOperator_wp now input db :
  wp (RevokeOperator now input)
    (λ _ db', ∃ operatorID op, normalizeRegistryID input.(roi_OperatorID) = Some operatorID
       ∧ db'.(db_operators) !! operatorID = Some op ∧ op.(op_status) = "revoked"%string)
    (λ _ _, True) db.
Proof.
  unfold RevokeOperator. rewrite wp_bind. apply wp_registry_id; [|done]. intros id Hid.
  unfold required_text, set_operator, appendOperatorRegistryAuditTX. wp_steps; try exact I.
  all: apply wp_read; [by apply NodeOperatorOf_stable, _ | intros _; exists id | done].
  - exists a. split_and!; [done | done | by apply str_eqb_eq].
  - cbn. rewrite lookup_alter_eq, H1. by eexists.
Qed.

(** A registry with one operator and one node, and a stand-in for key parsing
    that takes the material as its own fingerprint. *)
Definition sample_parse (material : string) : option (string * string) := Some (material, material).
Definition sample_fp (c : string) : string :=
  c +:+ "0000000000000000000000000000000000000000000000000000000000000000".
Definition sample_key (c : string) : string := String.substring 0 64 (sample_fp c).
Definition sample_node : ApproveNodeInput :=
  MkApproveNodeInput "node-1" "acme" "Acme" (sample_key "a") "admin" "first node".
Definition sample_registry : Db := (ApproveNode sample_parse 10 sample_node empty_db).1.
Definition sample_rotation : RotateNodeKeyInput := MkRotateNodeKeyInput "node-1" (sample_key "b") hour_us "admin" "".

Lemma sample_registry_ok : registry_ok sample_registry.
Proof.
  eapply registry_steps_ok; [apply (ApproveNode_steps sample_parse 10 sample_node empty_db)|].
  split; intros *; cbn; rewrite ?lookup_empty; done.
Qed.

(** [op] fails wherever the check [v] does, with the same error. *)
Definition refuses_like {A B} (v : Tx A) (op : Tx B) : Prop :=
  ∀ db e, v db = (db, inl e) → op db = (db, inl e).

Lemma refuses_bind {A B C} (m : Tx A) (f : A → Tx B) (g : A → Tx C) :
  stable (same (λ db, db)) m → (∀ a, refuses_like (f a) (g a)) → refuses_like (m ≫= f) (m ≫= g).
Proof.
  intros Hm Hfg db e. specialize (Hm db). unfold same, mbind, M_bind in *.
  destruct (m db) as [db' [e'|a]]; cbn in Hm; subst db'; [congruence | apply Hfg].
Qed.

Lemma refuses_done {A} (op : Tx A) : refuses_like (mret tt) op.
Proof. intros db e. done. Qed.

Ltac refuses :=
  repeat (apply refuses_bind; [unfold normalize_key; stable_steps | intros ?]; cbv zeta); apply refuses_done.

(** ** Properties *)

(** The registry's operations keep the registry consistent: every node has
    a known operator; an approved node has its active key and no other active
    one; at most one key of a node overlaps; no key version is newer than the
    node's; no two keys share a fingerprint. *)
Theorem registry_invariant NP now op db (Hok : registry_ok db) : registry_ok (run_registry NP now op db).1.
Proof. eapply registry_steps_ok; [apply run_registry_steps | done]. Qed.

Lemma registry_invariant_witness :
  registry_ok (run_registry sample_parse 20 (RotateNodeKeyOp sample_rotation) sample_registry).1
  ∧ (run_registry sample_parse 20 (RotateNodeKeyOp sample_rotation) sample_registry).2 = inr tt.
Proof.
  split; [apply (registry_invariant sample_parse 20 (RotateNodeKeyOp sample_rotation) sample_registry), sample_registry_ok
         | vm_compute; reflexivity].
Defined.

(** Nothing in the registry changes without an audit row: the audit only
    grows, and an operation that adds no row changes nothing at all. *)
Theorem registry_audited NP now op db :
  let db' := (run_registry NP now op db).1 in
  db' = db ∨ ∃ row rows, db'.(db_audit) = db.(db_audit) ++ row :: rows.
Proof. apply registry_history_audit, (registry_steps_history now), run_registry_steps. Qed.

(** At any time a node has at most two keys that may authenticate it, of an
    approved node of an approved operator: the active one and an overlap key
    that has not expired; newest first. *)
Theorem AuthorizedNodeKeys_spec now nodeID db (Hok : registry_ok db) :
  wp (AuthorizedNodeKeys now nodeID)
    (λ keys db', db' = db ∧ (1 ≤ length keys ≤ 2)%nat
       ∧ StronglySorted (λ x y, newest_first x y = true) keys
       ∧ ∀ v k, (v, k) ∈ keys → ∃ id n op, normalizeRegistryID nodeID = Some id
           ∧ db.(db_node_keys) !! (id, v) = Some k
           ∧ db.(db_nodes) !! id = Some n ∧ n.(nd_status) = "approved"%string
           ∧ db.(db_operators) !! n.(nd_operator_id) = Some op ∧ op.(op_status) = "approved"%string
           ∧ (k.(nk_state) = "active"%string ∧ v = n.(nd_active_key_version)
              ∨ k.(nk_state) = "overlap"%string ∧ ∃ u, k.(nk_valid_until) = Some u ∧ now < u))
    (λ e db', e = ErrApprovedNodeNotFound ∧ db' = db) db.
Proof.
  unfold AuthorizedNodeKeys. destruct (normalizeRegistryID nodeID) as [id|] eqn:Hid; [|done]. wp_steps; [done|].
  pose proof (authorized_keys_two now id db Hok) as H2. split; [done|].
  split; [destruct (authorized_keys now id db); [done | cbn in *; lia]|]. split.
  - unfold authorized_keys. repeat case_match; solve [constructor | apply newest_first_sorted].
  - intros v k (n & op & Hn & Hop & Hs & Hos & Hk & Ha)%authorized_keys_inv. exists id, n, op. split_and!; try done.
    unfold authorizes in Ha. apply orb_true_iff in Ha as [[?%str_eqb_eq ?%Z.eqb_eq]%andb_true_iff|[?%str_eqb_eq Hu]%andb_true_iff].
    + by left.
    + right. split; [done|]. destruct (nk_valid_until k); [|done]. apply Z.ltb_lt in Hu. eauto.
Qed.

Lemma AuthorizedNodeKeys_spec_witness :
  wp (AuthorizedNodeKeys 30 "node-1") (λ keys _, (1 ≤ length keys ≤ 2)%nat) (λ _ _, False) sample_registry.
Proof.
  pose proof (AuthorizedNodeKeys_spec 30 "node-1" sample_registry sample_registry_ok) as H. unfold wp in *.
  destruct (AuthorizedNodeKeys 30 "node-1" sample_registry) as [db' [e|keys]] eqn:E; [|apply H].
  assert (match (AuthorizedNodeKeys 30 "node-1" sample_registry).2 with inl _ => True | inr _ => False end) as Hno
    by (by rewrite E).
  vm_compute in Hno. exact Hno.
Defined.

(** After a rotation exactly these keys authenticate: the new one, and the
    old one for the overlap (at most 24 hours); an older overlap ends at once. *)
Theorem RotateNodeKey_keys NP now input db db' view (Hok : registry_ok db)
    (Hrun : RotateNodeKey NP now input db = (db', inr view)) :
  ∃ nodeID n k publicKey fingerprint,
    normalizeRegistryID input.(rki_NodeID) = Some nodeID
    ∧ db.(db_nodes) !! nodeID = Some n
    ∧ db.(db_node_keys) !! (nodeID, n.(nd_active_key_version)) = Some k
    ∧ NP input.(rki_PublicKey) = Some (publicKey, fingerprint)
    ∧ 0 ≤ input.(rki_Overlap) ≤ 24 * hour_us
    ∧ ∀ later v key, (v, key) ∈ authorized_keys later nodeID db' ↔
        v = n.(nd_active_key_version) + 1 ∧ key = new_key now publicKey fingerprint
        ∨ v = n.(nd_active_key_version) ∧ key = overlap_key (now + input.(rki_Overlap)) k
          ∧ 0 < input.(rki_Overlap) ∧ later < now + input.(rki_Overlap).
Proof.
  destruct (wp_run _ _ _ _ _ _ (RotateNodeKey_wp NP now input db) Hrun)
    as (nodeID & publicKey & fingerprint & Hid & Hkey & Hov & n & op & k & Hn & Hst & Hop & Hopst & Hk & Hact & HO & HN & HK).
  exists nodeID, n, k, publicKey, fingerprint. split_and!; try done; try apply Hov.
  intros later v key. rewrite authorized_keys_inv. rewrite HO, HN, HK, lookup_alter_eq, Hn. cbn [fmap option_fmap option_map].
  split.
  - intros (n' & op' & [= <-] & _ & _ & _ & Hv & Ha). unfold authorizes in Ha. cbn in Ha.
    apply lookup_insert_Some in Hv as [[[= <-] <-]|[Hne Hv]]; [by left|].
    rewrite lookup_rotate_keys in Hv. apply fmap_Some in Hv as (r & Hr & ->).
    rewrite rotate_key_state in Ha. destruct (in_state nodeID "overlap" (nodeID, v) r) eqn:Eo; [done|].
    destruct (in_state nodeID "active" (nodeID, v) r && _) eqn:Ea.
    + apply andb_true_iff in Ea as [Ea%in_state_true Ev%Z.eqb_eq]. cbn in Ev. subst v. simplify_eq. right.
      unfold rotate_key in *. rewrite Eo, (proj2 (in_state_true _ _ _ _) Ea), Z.eqb_refl in *. cbn [andb] in *.
      destruct (Z.ltb_spec 0 input.(rki_Overlap)); [|done]. cbn in Ha. apply Z.ltb_lt in Ha. done.
    + exfalso. apply in_state_false in Eo. cbn in Eo. apply orb_true_iff in Ha as [[Hs%str_eqb_eq _]%andb_true_iff|[Hs%str_eqb_eq _]%andb_true_iff].
      * destruct (reg_active _ _ _ Hok _ _ _ _ Hr Hs Hn) as [_ ->]. by rewrite (proj2 (in_state_true _ _ _ _)), Z.eqb_refl in Ea.
      * tauto.
  - intros [[-> ->]|(-> & -> & Hpos & Hlt)]; eexists _, op; (split_and!; [done | done | done | done | |]).
    + apply lookup_insert_eq.
    + unfold authorizes. cbn. by rewrite Z.eqb_refl.
    + rewrite lookup_insert_ne by (intros [= ?]; lia). rewrite lookup_rotate_keys, Hk. cbn. f_equal.
      unfold rotate_key, in_state. cbn. rewrite Hact, str_eqb_refl, Z.eqb_refl. cbn.
      by rewrite (proj2 (Z.ltb_lt _ _)).
    + unfold authorizes. cbn. by apply Z.ltb_lt.
Qed.

Lemma RotateNodeKey_keys_witness :
  ∃ nodeID n, normalizeRegistryID "node-1" = Some nodeID ∧ sample_registry.(db_nodes) !! nodeID = Some n
    ∧ n.(nd_active_key_version) = 1.
Proof.
  destruct (RotateNodeKey sample_parse 20 sample_rotation sample_registry) as [db' [e|view]] eqn:E.
  - assert (match (RotateNodeKey sample_parse 20 sample_rotation sample_registry).2 with inl _ => True | inr _ => False end)
      as Hno by (by rewrite E). vm_compute in Hno. destruct Hno.
  - destruct (RotateNodeKey_keys sample_parse 20 sample_rotation sample_registry db' view sample_registry_ok E)
      as (nodeID & n & k & pk & fp & Hid & Hn & _).
    exists nodeID, n. split; [exact Hid|]. split; [exact Hn|]. vm_compute in Hid. injection Hid as <-.
    vm_compute in Hn. by injection Hn as <-.
Defined.

(** Revoking a node is final: whatever the registry does afterwards, none
    of the node's keys authenticates again. *)
Theorem node_revocation_final now input db db' view (Hrun : RevokeNode now input db = (db', inr view))
    later db'' (Hlater : registry_history db' db'') :
  AuthorizedNodeKeys later input.(rni_NodeID) db'' = (db'', inl ErrApprovedNodeNotFound).
Proof.
  destruct (wp_run _ _ _ _ _ _ (RevokeNode_wp now input db) Hrun) as (nodeID & Hid & Hrev).
  unfold AuthorizedNodeKeys. rewrite Hid. erewrite bind_inr by reflexivity.
  by rewrite (node_revoked_no_keys _ _ _ (registry_history_revoked _ _ _ Hlater Hrev)).
Qed.

Lemma node_revocation_final_witness :
  AuthorizedNodeKeys 99 "node-1" (RevokeNode 30 (MkRevokeNodeInput "node-1" "admin" "lost") sample_registry).1
  = ((RevokeNode 30 (MkRevokeNodeInput "node-1" "admin" "lost") sample_registry).1, inl ErrApprovedNodeNotFound)
  ∧ (AuthorizedNodeKeys 99 "node-1" sample_registry).2 ≠ inl ErrApprovedNodeNotFound.
Proof.
  split; [|vm_compute; congruence].
  destruct (RevokeNode 30 (MkRevokeNodeInput "node-1" "admin" "lost") sample_registry) as [db' [e|view]] eqn:E.
  - exfalso. assert (match (RevokeNode 30 (MkRevokeNodeInput "node-1" "admin" "lost") sample_registry).2
      with inl _ => True | inr _ => False end) as Hno by (by rewrite E). vm_compute in Hno. exact Hno.
  - apply (node_revocation_final 30 (MkRevokeNodeInput "node-1" "admin" "lost") sample_registry db' view E 99 db').
    apply rtc_refl.
Defined.

(** Revoking an operator cuts off every node it owns, at any later time,
    while its row stays revoked. *)
Theorem operator_revocation_cuts_off now input db db' r (Hrun : RevokeOperator now input db = (db', inr r))
    operatorID (Hid : normalizeRegistryID input.(roi_OperatorID) = Some operatorID)
    nodeID n (Hn : db'.(db_nodes) !! nodeID = Some n) (Hown : n.(nd_operator_id) = operatorID) later :
  authorized_keys later nodeID db' = [].
Proof.
  destruct (wp_run _ _ _ _ _ _ (RevokeOperator_wp now input db) Hrun) as (id & op & Hid' & Hop & Hst).
  unfold authorized_keys. rewrite Hn, Hown. simplify_eq. rewrite Hop, Hst. by rewrite andb_false_r.
Qed.

Lemma operator_revocation_cuts_off_witness :
  authorized_keys 99 "node-1" (RevokeOperator 30 (MkRevokeOperatorInput "acme" "admin" "left") sample_registry).1 = [].
Proof.
  destruct (RevokeOperator 30 (MkRevokeOperatorInput "acme" "admin" "left") sample_registry) as [db' [e|r]] eqn:E.
  - exfalso. assert (match (RevokeOperator 30 (MkRevokeOperatorInput "acme" "admin" "left") sample_registry).2
      with inl _ => True | inr _ => False end) as Hno by (by rewrite E). vm_compute in Hno. exact Hno.
  - destruct (db'.(db_nodes) !! "node-1") as [n|] eqn:En.
    + apply (operator_revocation_cuts_off 30 (MkRevokeOperatorInput "acme" "admin" "left") sample_registry db' r E
        "acme" eq_refl "node-1" n En).
      assert (db' = (RevokeOperator 30 (MkRevokeOperatorInput "acme" "admin" "left") sample_registry).1) as -> by (by rewrite E).
      vm_compute in En. by injection En as <-.
    + unfold fst, authorized_keys. by rewrite En.
Defined.

(** What the input checks refuse, the operations refuse with the same error
    before touching the database. *)
Theorem registry_validators NP now db :
  (∀ input e, ValidateApproveOperatorInput input db = (db, inl e) → ApproveOperator now input db = (db, inl e))
  ∧ (∀ input e, ValidateRevokeOperatorInput input db = (db, inl e) → RevokeOperator now input db = (db, inl e))
  ∧ (∀ input e, ValidateApproveNodeInput NP input db = (db, inl e) → ApproveNode NP now input db = (db, inl e))
  ∧ (∀ input e, ValidateRotateNodeKeyInput NP input db = (db, inl e) → RotateNodeKey NP now input db = (db, inl e))
  ∧ (∀ input e, ValidateRevokeNodeInput input db = (db, inl e) → RevokeNode now input db = (db, inl e)).
Proof.
  assert (Hall : ∀ A B (v : Tx A) (op : Tx B), refuses_like v op → ∀ e, v db = (db, inl e) → op db = (db, inl e))
    by (intros A B v op H; apply H).
  split_and!; intros input; apply Hall; refuses.
Qed.

(** The input check for a node approval lets an empty reason through, but
    approving a node under a new operator then fails on the audit table's CHECK:
    a new operator needs a reason. *)
Theorem new_operator_needs_reason NP now input db operatorID
    (Hvalid : ValidateApproveNodeInput NP input db = (db, inr tt))
    (Hop : normalizeRegistryID input.(ani_OperatorID) = Some operatorID)
    (Hnew : db.(db_operators) !! operatorID = None) (Hreason : TrimSpace input.(ani_Reason) = ""%string)
    (Hactor : pg_trim (boundedRegistryText input.(ani_Actor) 256) ≠ ""%string) :
  ApproveNode NP now input db = (db, inl (ErrCheck "operator_registry_audit.reason")).
Proof.
  assert (Hr : boundedRegistryText input.(ani_Reason) 1024 = ""%string) by (unfold boundedRegistryText; by rewrite Hreason).
  unfold ValidateApproveNodeInput in Hvalid. unfold ApproveNode.
  apply bind_inv in Hvalid as (db1 & nodeID & H1 & Hvalid).
  assert (db1 = db) as -> by (unfold registry_id, mret, M_ret, throw in H1; repeat case_match; by simplify_eq/=).
  erewrite bind_inr by exact H1. apply bind_inv in Hvalid as (db2 & opid & H2 & Hvalid).
  assert (db2 = db ∧ opid = operatorID) as [-> ->]
    by (unfold registry_id, mret, M_ret in H2; rewrite Hop in H2; by simplify_eq/=).
  erewrite bind_inr by exact H2. cbv zeta. apply bind_inv in Hvalid as (db3 & actor & H3 & Hvalid).
  assert (db3 = db ∧ actor = boundedRegistryText input.(ani_Actor) 256) as [-> ->]
    by (unfold required_text, refuse_if, mbind, M_bind, mret, M_ret, throw in H3; destruct (_ =?s _); by simplify_eq/=).
  erewrite bind_inr by exact H3. apply bind_inv in Hvalid as (db4 & [pk fp] & H4 & _).
  assert (db4 = db) as -> by (unfold normalize_key, require, mret, M_ret, throw in H4; destruct (NP _); by simplify_eq/=).
  erewrite bind_inr by exact H4. unfold ensure_operator, appendOperatorRegistryAuditTX.
  erewrite bind_inl; [done|]. unfold atomically, mbind, M_bind, gets, id. rewrite Hnew. cbn.
  by rewrite Hr, (proj2 (str_eqb_neq _ _) Hactor).
Qed.

Lemma new_operator_needs_reason_witness :
  ApproveNode sample_parse 10 (MkApproveNodeInput "node-2" "new-op" "" (sample_key "c") "admin" " ") sample_registry
  = (sample_registry, inl (ErrCheck "operator_registry_audit.reason")).
Proof.
  apply (new_operator_needs_reason sample_parse 10 _ sample_registry "new-op");
    [reflexivity | reflexivity | vm_compute; reflexivity | reflexivity | vm_compute; congruence].
Defined.
