(* ===== verification/NetIP.v ===== *)
(** * IP addresses

    What the control plane uses of Go's [net] package: [ParseIP], [IP.String]
    and [IP.IsGlobalUnicast].  An address is its 16 bytes, an IPv4 address in the
    IPv4-mapped form, as [net.ParseIP] returns it. *)

From Stdlib Require Import Ascii.
From S2P Require Import Prelude.
From S2P Require Import GoLib.
From S2P Require Import Json.
Open Scope Z_scope.

(** ** Parsing *)

Definition dec_value (c : ascii) : Z := Z.of_N (code c) - 48.
Definition dot : ascii := "."%char.
Definition colon : ascii := ":"%char.

(** A dotted quad: four fields of at most three digits, at most 255 each and
    without leading zeros.  [field] is the field read so far, newest first
    [fields] the finished ones. *)
Fixpoint parse_quad (l : list ascii) (field : option (Z * nat)) (fields : list Z) : option (list Z) :=
  match l with
  | [] =>
    match field with
    | Some (v, _) => if (length fields =? 3)%nat then Some (reverse (v :: fields)) else None
    | None => None
    end
  | c :: l' =>
    if is_digit c then
      match field with
      | None => parse_quad l' (Some (dec_value c, 1%nat)) fields
      | Some (v, n) =>
        if (n =? 1)%nat && (v =? 0) then None
        else let v' := v * 10 + dec_value c in
             if 255 <? v' then None else parse_quad l' (Some (v', S n)) fields
      end
    else if Ascii.eqb c dot then
      match field with
      | None => None
      | Some (v, _) => if (length fields =? 3)%nat then None else parse_quad l' None (v :: fields)
      end
    else None
  end.

Definition is_hex_digit (c : ascii) : bool := match hex_value c with Some _ => true | None => false end.
Definition hex_number (l : list ascii) : Z :=
  foldl (λ n c, n * 16 + Z.of_N (default 0%N (hex_value c))) 0 l.

(** Bytes read so far, and where the ellipsis "::" stood. *)
Fixpoint parse_groups (fuel : nat) (l : list ascii) (bytes : list Z) (ellipsis : option nat)
    : option (list Z * option nat) :=
  match fuel with
  | O => None
  | S fuel =>
    let digits := take_while is_hex_digit l in
    let rest := drop (length digits) l in
    if (length digits =? 0)%nat || (4 <? length digits)%nat then None
    else match rest with
    | [] =>
      if (16 <? length bytes + 2)%nat then None
      else Some (bytes ++ [hex_number digits / 256; hex_number digits mod 256], ellipsis)
    | c :: rest' =>
      if Ascii.eqb c dot then
        if is_null ellipsis && negb (length bytes =? 12)%nat then None
        else if (16 <? length bytes + 4)%nat then None
        else (λ q, (bytes ++ q, ellipsis)) <$> parse_quad l None []
      else if negb (Ascii.eqb c colon) then None
      else
        let bytes := bytes ++ [hex_number digits / 256; hex_number digits mod 256] in
        if (16 <? length bytes)%nat then None
        else match rest' with
        | [] => None
        | c' :: rest'' =>
          if Ascii.eqb c' colon then
            if not_null ellipsis then None
            else match rest'' with
                 | [] => Some (bytes, Some (length bytes))
                 | _ => if (16 <=? length bytes)%nat then None
                        else parse_groups fuel rest'' bytes (Some (length bytes))
                 end
          else if (16 <=? length bytes)%nat then None
          else parse_groups fuel rest' bytes ellipsis
        end
    end
  end.

(** Fills the ellipsis with zeros; it must stand for at least one group. *)
Definition expand (r : list Z * option nat) : option (list Z) :=
  let '(bytes, ellipsis) := r in
  match ellipsis with
  | None => if (length bytes =? 16)%nat then Some bytes else None
  | Some e =>
    if (length bytes <? 16)%nat
    then Some (take e bytes ++ replicate (16 - length bytes) 0 ++ drop e bytes) else None
  end.

Definition parse_v6 (l : list ascii) : option (list Z) :=
  match l with
  | c :: c' :: rest =>
    if Ascii.eqb c colon && Ascii.eqb c' colon then
      match rest with
      | [] => Some (replicate 16 0)
      | _ => parse_groups (S (length rest)) rest [] (Some 0%nat) ≫= expand
      end
    else parse_groups (S (length l)) l [] None ≫= expand
  | _ => None
  end.

(** The first '.' or ':' decides the family; a zone ('%') is refused. *)
Definition ParseIP (s : string) : option (list Z) :=
  let l := bytes_of s in
  match List.find (λ c, Ascii.eqb c dot || Ascii.eqb c colon || (code c =? 37)%N) l with
  | Some c =>
    if Ascii.eqb c dot then (λ q, replicate 10 0 ++ [255; 255] ++ q) <$> parse_quad l None []
    else if Ascii.eqb c colon then parse_v6 l
    else None
  | None => None
  end.

(** ** Printing *)

(** [IP.To4]. *)
Definition to4 (ip : list Z) : option (list Z) :=
  if forallb (λ b, b =? 0) (take 10 ip) && forallb (λ b, b =? 255) (take 2 (drop 10 ip))
  then Some (drop 12 ip) else None.

Definition hex16 (n : Z) : string :=
  of_bytes (drop_while (λ c, (code c =? 48)%N)
              (bytes_of (hex_encode [Z.to_N (n / 256); Z.to_N (n mod 256)]))).
Definition group_text (n : Z) : string := if n =? 0 then "0" else hex16 n.

Fixpoint groups16 (l : list Z) : list Z :=
  match l with a :: b :: l' => a * 256 + b :: groups16 l' | _ => [] end.

(** The longest run of at least two zero groups, the first of equals: its start
    and length. *)
Definition zero_run (gs : list Z) (i : nat) : nat := length (take_while (λ g, g =? 0) (drop i gs)).
Definition longest_run (gs : list Z) : option (nat * nat) :=
  foldl (λ best i, let n := zero_run gs i in
    if (2 <=? n)%nat && match best with None => true | Some (_, m) => (m <? n)%nat end
    then Some (i, n) else best) None (seq 0 8).

Fixpoint join_groups (i : nat) (skip : option (nat * nat)) (gs : list Z) : string :=
  match gs with
  | [] => ""
  | g :: gs' =>
    match skip with
    | Some (s, n) =>
      if (i =? s)%nat then "::" +:+ join_groups (S i) skip gs'
      else if (s <? i)%nat && (i <? s + n)%nat then join_groups (S i) skip gs'
      else (if (0 <? i)%nat && negb (i =? s + n)%nat then ":" else "") +:+ group_text g +:+ join_groups (S i) skip gs'
    | None => (if (0 <? i)%nat then ":" else "") +:+ group_text g +:+ join_groups (S i) skip gs'
    end
  end.

Definition ip_string (ip : list Z) : string :=
  match to4 ip with
  | Some [a; b; c; d] => fmt_d a +:+ "." +:+ fmt_d b +:+ "." +:+ fmt_d c +:+ "." +:+ fmt_d d
  | _ => let gs := groups16 ip in join_groups 0 (longest_run gs) gs
  end.

(** ** Classes *)

Definition starts_with (bits : list Z) (ip : list Z) : bool := bool_decide (take (length bits) ip = bits).

(** Not broadcast, unspecified, loopback, multicast or link-local. *)
Definition IsGlobalUnicast (ip : list Z) : bool :=
  match to4 ip with
  | Some q =>
    negb (starts_with [255; 255; 255; 255] q) && negb (starts_with [0; 0; 0; 0] q)
    && negb (starts_with [127] q)
    && match q with a :: _ => negb (Z.land a 240 =? 224) | [] => false end
    && negb (starts_with [169; 254] q)
  | None =>
    negb (forallb (λ b, b =? 0) ip)
    && negb (starts_with (replicate 15 0 ++ [1]) ip)
    && match ip with
       | a :: b :: _ => negb (a =? 255) && negb ((a =? 254) && (Z.land b 192 =? 128))
       | _ => false
       end
  end.

(** The check and the canonical form of a reported address. *)
Definition global_unicast (s : string) : option string :=
  ip ← ParseIP s;
  if IsGlobalUnicast ip then Some (ip_string ip) else None.

Example ip_v6 : global_unicast "2001:DB8:0:0:1:0:0:1" = Some "2001:db8::1:0:0:1"%string.
Proof. vm_compute. reflexivity. Qed.
Example ip_v4 : global_unicast "10.1.0.255" = Some "10.1.0.255"%string.
Proof. vm_compute. reflexivity. Qed.
Example ip_mapped : global_unicast "::ffff:1.2.3.4" = Some "1.2.3.4"%string.
Proof. vm_compute. reflexivity. Qed.
Example ip_refused :
  global_unicast <$> ["127.0.0.1"; "fe80::1"; "::"; "1.2.3.04"; "1::2::3"; "::1"; "2001:db8::%eth0"; "300.1.1.1";
                      "ff02::1"; "1:2:3:4:5:6:7:8:9"; "1:2:3:4:5:6:7::"%string]
  = [None; None; None; None; None; None; None; None; None; None; Some "1:2:3:4:5:6:7:0"%string].
Proof. vm_compute. reflexivity. Qed.
