(* ===== verification/Provisioning.v ===== *)
(** * Provisioned runtime VMs

    Models internal/store/provisioning.go: one dedicated VM per account, asked for
    and given up by the control plane, created and deleted by the provisioner
    service, which reports each step.  [fresh] gives the ids of new VMs
    ([newProvisionedVMID] draws them at random); the advisory lock that makes the
    capacity check safe is the atomicity of the transaction.  Reports are not a
    transaction: their statements stay done when a later one fails. *)

From Stdlib Require Import Ascii.
From S2P Require Import Prelude.
From S2P Require Import GoLib.
From S2P Require Import Schema.
From S2P Require Import Common.
From S2P Require Import Manifests.
From S2P Require Import Registry.
From S2P Require Import NetIP.
Open Scope Z_scope.

Definition ProvisionerOperatorID : string := "aleph-provisioner".
Definition maxProvisionerFailureRunes : nat := 1024.
Definition maxProvisionerRefusalRunes : nat := 512.
Definition spareNodeQuietAfter : Z := 5 * minute_us.

Record ProvisioningPolicy := MkProvisioningPolicy {
  pp_Regions : list string;
  pp_MaxVMs : Z;
  pp_TrialMaxVMs : Z;
  pp_WarmSpares : Z;
  pp_SetupTimeout : Z;
  pp_RetireAfter : Z;
  pp_NodeSilentAfter : Z;
  (** [None] is the zero time. *)
  pp_UpSince : option Z
}.

(** [vr_AllowTrialVM] is the answer of the callback, [None] when there is none. *)
Record VMRequest := MkVMRequest { vr_CleanupRuntimeID : string; vr_AllowTrialVM : option bool }.

Record ProvisionerReport := MkProvisionerReport {
  pr_State : string; pr_ItemHash : string; pr_CRNHash : string; pr_PublicIP : string;
  pr_NodePublicKey : string; pr_Failure : string; pr_Progress : string; pr_Refusal : string }.

Record ProvisioningSummary := MkProvisioningSummary {
  ps_TimedOut : nat; ps_AccountsGone : nat; ps_Retired : nat; ps_NodeSilent : nat;
  ps_NodeSilentHeld : nat; ps_SparesCreated : nat; ps_RuntimesReset : nat }.
#[export] Instance ProvisioningSummary_eta : Eta ProvisioningSummary := λ r,
  MkProvisioningSummary r.(ps_TimedOut) r.(ps_AccountsGone) r.(ps_Retired) r.(ps_NodeSilent)
    r.(ps_NodeSilentHeld) r.(ps_SparesCreated) r.(ps_RuntimesReset).

Definition lostRuntimeDataMessage : string :=
  "This runtime's private server was replaced, and the data stored on it could not be kept. It starts fresh next time.".

(** ** Reading *)

Definition vm_is (st : VMState) (v : ProvisionedVM) : bool := bool_decide (v.(vm_state) = st).
Definition vm_live (v : ProvisionedVM) : bool := negb (vm_is Deleted v).
Definition vm_wanted (v : ProvisionedVM) : bool := bool_decide (v.(vm_desired) = Present).

(** [account_id::text = $1]. *)
Definition vm_of (account : string) (v : ProvisionedVM) : bool := null_eqb v.(vm_account_id) account.

Definition ValidRegion (region : string) : bool :=
  (region =?s "") ||
  ((str_len region <=? 32)
   && match bytes_of region with c :: _ => negb (Ascii.eqb c "-"%char) | [] => false end
   && forallb (λ c, let n := N_of_ascii c in
        ((97 <=? n) && (n <=? 122) || (48 <=? n) && (n <=? 57) || (n =? 45))%N) (bytes_of region)).

Definition RegionIsProvisioned (p : ProvisioningPolicy) (region : string) : bool :=
  let region := ToLower (TrimSpace region) in
  if (region =?s "") || (p.(pp_MaxVMs) <=? 0) then false
  else existsb (λ candidate, EqualFold (TrimSpace candidate) region) p.(pp_Regions).

Definition AccountProvisionedRegion (accountID : string) (policy : ProvisioningPolicy) : Tx string :=
  db ← gets id;
  a ← require (db.(db_accounts) !! TrimSpace accountID) ErrAccountNotFound;
  refuse_if (not_null a.(ac_deleted_at)) ErrAccountNotFound;;
  mret (if RegionIsProvisioned policy a.(ac_runtime_region) then a.(ac_runtime_region) else ""%string).

(** The node's last heartbeat, or else when the VM became ready. *)
Definition provisionedVMLastSeen (db : Db) (id : string) (v : ProvisionedVM) : Z :=
  coalesce (coalesce2 (ho_last_heartbeat_at <$> db.(db_hosts) !! id) v.(vm_ready_at)) v.(vm_state_changed_at).

Definition by_requested (x y : string * ProvisionedVM) : bool := x.2.(vm_requested_at) <=? y.2.(vm_requested_at).

(** A VM with [NodeSeenAt], its node's last heartbeat. *)
Definition ProvisionerWork (db : Db) : list (string * ProvisionedVM * option Z) :=
  (λ kv : string * ProvisionedVM, (kv.1, kv.2, ho_last_heartbeat_at <$> db.(db_hosts) !! kv.1))
    <$> order_by by_requested (select (λ _ v, vm_live v) db.(db_vms)).

Definition ListProvisionedVMs (includeDeleted : bool) (db : Db) : list (string * ProvisionedVM) :=
  order_by (λ x y, by_requested y x) (select (λ _ v, includeDeleted || vm_live v) db.(db_vms)).

Definition ProvisionedVMOf (vmID : string) : Tx (string * ProvisionedVM) :=
  db ← gets id;
  v ← require (db.(db_vms) !! TrimSpace vmID) ErrProvisionedVMNotFound;
  mret (TrimSpace vmID, v).

Definition LiveProvisionedVM (nodeID : string) (db : Db) : option (string * ProvisionedVM) :=
  v ← db.(db_vms) !! TrimSpace nodeID;
  if vm_live v then Some (TrimSpace nodeID, v) else None.

(** A host that is a provisioned VM takes only runtimes of its account, and only
    while the VM is meant to exist. *)
Definition provisionedHostServesAccount (db : Db) (hostID accountID : string) : bool :=
  match db.(db_vms) !! hostID with
  | None => true
  | Some v => vm_of accountID v && vm_wanted v
  end.

(** ** Asking for a VM *)

(** How many VMs free trials hold; a VM whose account has no entitlement any
    more still counts. *)
Definition trial_vm (db : Db) (_ : string) (v : ProvisionedVM) : bool :=
  vm_live v &&
  match v.(vm_account_id) with
  | None => false
  | Some a => coalesce (en_source <$> db.(db_entitlements) !! a) "trial" =?s "trial"
  end.

Definition removes_data (db : Db) (accountID runtimeID : string) : bool :=
  negb (runtimeID =?s "") &&
  match db.(db_runtimes) !! runtimeID with
  | Some r => (r.(rt_account_id) =?s accountID) && rt_live r && present r.(rt_blob_manifest_json)
  | None => false
  end.

Definition checkTrialVMLimitsTX (accountID : string) (policy : ProvisioningPolicy) (request : VMRequest) : Tx unit :=
  db ← gets id;
  let trial := match db.(db_entitlements) !! accountID with
               | Some e => e.(en_source) =?s "trial"
               | None => true
               end in
  if negb trial then mret tt else
    let removesData := removes_data db accountID request.(vr_CleanupRuntimeID) in
    let limit := if removesData then Z.max (2 * policy.(pp_TrialMaxVMs)) 1 else policy.(pp_TrialMaxVMs) in
    refuse_if (limit <=? Z.of_nat (count_where (trial_vm db) db.(db_vms))) ErrTrialVMCapacity;;
    refuse_if (negb removesData && match request.(vr_AllowTrialVM) with Some b => negb b | None => false end)
      ErrTrialVMRate.

(** The spares that can be handed out: not a ready one whose node is quiet. *)
Definition claimable (now : Z) (db : Db) (region : string) (id : string) (v : ProvisionedVM) : bool :=
  is_null v.(vm_account_id) && vm_wanted v && vm_live v && (v.(vm_region) =?s region)
  && negb (vm_is Ready v && (provisionedVMLastSeen db id v <? now - spareNodeQuietAfter)).

(** [ORDER BY (state = 'ready') DESC, requested_at]. *)
Definition spare_le (x y : string * ProvisionedVM) : bool :=
  match vm_is Ready x.2, vm_is Ready y.2 with
  | true, false => true
  | false, true => false
  | _, _ => by_requested x y
  end.

Definition set_vm (vmID : string) (f : ProvisionedVM → ProvisionedVM) : Tx unit :=
  modify (λ db, db <| db_vms ::= alter f vmID |>).

Definition insert_vm (vmID : string) (v : ProvisionedVM) : Tx unit :=
  db ← gets id;
  refuse_if (not_null (db.(db_vms) !! vmID)) (ErrUnique "provisioned_vms_pkey");;
  modify (λ db, db <| db_vms ::= <[vmID := v]> |>).

(** [COUNT( * ) ... WHERE state <> 'deleted']. *)
Definition live_vms (db : Db) : Z := Z.of_nat (count_where (λ _ v, vm_live v) db.(db_vms)).

Definition EnsureAccountVM (now : Z) (freshID : string) (accountID region : string)
    (policy : ProvisioningPolicy) (request : VMRequest) : Tx (string * ProvisionedVM) :=
  let accountID := TrimSpace accountID in
  let region := ToLower (TrimSpace region) in
  refuse_if (negb (RegionIsProvisioned policy region)) (ErrText "region is not provisioned");;
  atomically (
    db ← gets id;
    match select (λ _ v, vm_of accountID v && vm_wanted v) db.(db_vms) with
    | (id, v) :: _ =>
      modify (λ db, db <| db_vms ::= update_where (λ _ v, vm_of accountID v && vm_wanted v)
        (λ v, v <| vm_last_used_at := now |>) |>);;
      mret (id, v <| vm_last_used_at := now |>)
    | [] =>
      checkTrialVMLimitsTX accountID policy request;;
      match order_by spare_le (select (claimable now db region) db.(db_vms)) with
      | (id, v) :: _ =>
        set_vm id (λ v, v <| vm_account_id := Some accountID |> <| vm_last_used_at := now |>);;
        mret (id, v <| vm_account_id := Some accountID |> <| vm_last_used_at := now |>)
      | [] =>
        refuse_if (policy.(pp_MaxVMs) <=? live_vms db) ErrProvisioningCapacity;;
        insert_vm freshID (default_vm (Some accountID) region now);;
        mret (freshID, default_vm (Some accountID) region now)
      end
    end).

Definition RetireProvisionedVM (vmID reason : string) : Tx (string * ProvisionedVM) :=
  let vmID := TrimSpace vmID in
  db ← gets id;
  v ← require (db.(db_vms) !! vmID) ErrProvisionedVMNotFound;
  let v' := v <| vm_desired := Absent |>
              <| vm_retire_reason ::= (λ r, if vm_wanted v then boundedRegistryText reason 256 else r) |> in
  set_vm vmID (λ _, v');;
  mret (vmID, v').

Definition MarkProvisionedVMReady (now : Z) (nodeID : string) : Tx unit :=
  modify (λ db, db <| db_vms ::= update_where
    (λ id v, (id =?s TrimSpace nodeID) && (vm_is Unlocking v || vm_is Booting v))
    (λ v, v <| vm_state := Ready |> <| vm_state_changed_at := now |>
            <| vm_ready_at := Some (coalesce v.(vm_ready_at) now) |>) |>).

(** ** Reports *)

(** Where a report may take a VM from; [None]: any state. *)
Definition allowed_from (st : VMState) : option (list VMState) :=
  match st with
  | Requested => Some [Requested; Creating]
  | Creating => Some [Requested; Creating]
  | Unlocking => Some [Creating; Unlocking]
  | Booting => Some [Unlocking; Booting]
  | Ready | Deleted => None
  end.

Definition vm_state_of (s : string) : option VMState :=
  if s =?s "requested" then Some Requested
  else if s =?s "creating" then Some Creating
  else if s =?s "unlocking" then Some Unlocking
  else if s =?s "booting" then Some Booting
  else if s =?s "ready" then Some Ready
  else if s =?s "deleted" then Some Deleted
  else None.

(** [$n = ''] keeps the column. *)
Definition or_keep (new old : string) : string := if new =?s "" then old else new.

(** The UPDATE of a report; [st] is [None] for a report without a state. *)
Definition apply_report (now : Z) (st : option VMState) (itemHash crnHash publicIP nodePublicKey failure progress
    refusal : string) (v : ProvisionedVM) : ProvisionedVM :=
  let failed := negb (failure =?s "") in
  let moves := match st with Some s => negb (vm_is s v) | None => false end in
  let back := bool_decide (st = Some Requested) in
  v <| vm_state := coalesce st v.(vm_state) |>
    <| vm_state_changed_at ::= (λ t, if moves then now else t) |>
    <| vm_item_hash ::= (λ h, if back then ""%string else or_keep itemHash h) |>
    <| vm_crn_hash ::= (λ h, if back then ""%string else or_keep crnHash h) |>
    <| vm_public_ip ::= or_keep publicIP |>
    <| vm_node_public_key ::= or_keep nodePublicKey |>
    <| vm_failure ::= or_keep failure |>
    <| vm_desired ::= (λ d, if failed then Absent else d) |>
    <| vm_retire_reason ::= (λ r, if failed && vm_wanted v then "failed"%string else r) |>
    <| vm_deleted_at ::= (λ d, if bool_decide (st = Some Deleted) then Some now else d) |>
    <| vm_progress ::= (λ p, if negb (progress =?s "") then progress else if moves then ""%string else p) |>
    <| vm_refusal ::= (λ r,
         if negb (refusal =?s "") && (back || is_null st && vm_is Requested v) then refusal
         else if not_null st then ""%string else r) |>.

(** The VM's node id revoked; a node that was never approved or is revoked
    already is fine. *)
Definition revoke_vm_node (now : Z) (vmID : string) : Tx unit := λ db,
  match RevokeNode now (MkRevokeNodeInput vmID "provisioner" "provisioned runtime VM deleted") db with
  | (db', inl ErrApprovedNodeNotFound) | (db', inl ErrApprovedNodeRevoked) => (db', inr tt)
  | (db', inl e) => (db', inl e)
  | (db', inr _) => (db', inr tt)
  end.

Section reports.
Context (NormalizePublicKey : string → option (string * string)).

(** What a report's state asks for before the row is touched: the address and
    the node key to record. *)
Definition report_checks (now : Z) (vmID : string) (current : ProvisionedVM) (st : option VMState)
    (report : ProvisionerReport) : Tx (string * string) :=
  match st with
  | None => mret (report.(pr_PublicIP), ""%string)
  | Some Deleted =>
    (if negb (current.(vm_node_public_key) =?s "") then revoke_vm_node now vmID else mret tt);;
    modify (λ db, db <| db_hosts ::= delete_where (λ h _, (h =?s vmID)
      && negb (exists_where (λ _ r, null_eqb r.(rt_host_id) vmID && rt_live r) db.(db_runtimes))) |>);;
    mret (report.(pr_PublicIP), ""%string)
  | Some Creating =>
    refuse_if (negb (validItemHash report.(pr_ItemHash)))
      (ErrText "item_hash must be a 64-character hex item hash");;
    refuse_if (negb (report.(pr_CRNHash) =?s "") && negb (validItemHash report.(pr_CRNHash)))
      (ErrText "crn_hash must be a 64-character hex node hash");;
    mret (report.(pr_PublicIP), ""%string)
  | Some Unlocking =>
    ip ← require (global_unicast (TrimSpace report.(pr_PublicIP)))
      (ErrText "public_ip must be a global unicast IP address");
    '(nodePublicKey, _) ← require (NormalizePublicKey report.(pr_NodePublicKey)) (ErrText "node_public_key");
    refuse_if (negb (current.(vm_node_public_key) =?s "")
               && negb (current.(vm_node_public_key) =?s nodePublicKey))
      (ErrText "a provisioned VM's node key cannot change");;
    refuse_if (negb (vm_wanted current)) ErrProvisionedVMTransition;;
    ApproveNode NormalizePublicKey now (MkApproveNodeInput vmID ProvisionerOperatorID "Aleph Cloud provisioner"
      nodePublicKey "provisioner" ("provisioned runtime VM " +:+ vmID));;
    mret (ip, nodePublicKey)
  | Some Requested =>
    refuse_if (TrimSpace report.(pr_Refusal) =?s "") ErrProvisionedVMTransition;;
    mret (report.(pr_PublicIP), ""%string)
  | Some Booting => mret (report.(pr_PublicIP), ""%string)
  | Some Ready => throw ErrProvisionedVMTransition
  end.

(** The checks, the state machine and the UPDATE. *)
Definition record_report (now : Z) (vmID : string) (current : ProvisionedVM) (st : option VMState)
    (report : ProvisionerReport) : Tx (string * ProvisionedVM) :=
  '(publicIP, nodePublicKey) ← report_checks now vmID current st report;
  refuse_if (match st ≫= allowed_from with
             | Some from => negb (bool_decide (current.(vm_state) ∈ from))
             | None => false
             end) ErrProvisionedVMTransition;;
  let v' := apply_report now st (ToLower (TrimSpace report.(pr_ItemHash))) (ToLower (TrimSpace report.(pr_CRNHash)))
    publicIP nodePublicKey (boundedRegistryText report.(pr_Failure) maxProvisionerFailureRunes)
    (boundedRegistryText report.(pr_Progress) 256)
    (boundedRegistryText report.(pr_Refusal) maxProvisionerRefusalRunes) current in
  set_vm vmID (λ _, v');;
  mret (vmID, v').

Definition ApplyProvisionerReport (now : Z) (vmID : string) (report : ProvisionerReport)
    : Tx (string * ProvisionedVM) :=
  let vmID := TrimSpace vmID in
  let state := TrimSpace report.(pr_State) in
  '(_, current) ← ProvisionedVMOf vmID;
  if vm_is Deleted current then mret (vmID, current) else
  st ← (if state =?s "" then mret None
        else s ← require (vm_state_of state) ErrProvisionedVMTransition; mret (Some s));
  record_report now vmID current st report.
End reports.

(** ** Reconciling with the policy *)

(** [UPDATE provisioned_vms SET ... WHERE p]; the count of rows changed. *)
Definition update_vms (p : Db → string → ProvisionedVM → bool) (f : ProvisionedVM → ProvisionedVM) : Tx nat :=
  db ← gets id;
  modify (λ db', db' <| db_vms ::= update_where (p db) f |>);;
  mret (count_where (p db) db.(db_vms)).

Definition retire_vm (reason : string) (v : ProvisionedVM) : ProvisionedVM :=
  v <| vm_desired := Absent |> <| vm_retire_reason := reason |>.

Definition setting_up (v : ProvisionedVM) : bool :=
  vm_is Requested v || vm_is Creating v || vm_is Unlocking v || vm_is Booting v.

Definition timed_out (now timeout : Z) (_ : Db) (_ : string) (v : ProvisionedVM) : bool :=
  vm_wanted v && setting_up v && (v.(vm_requested_at) <? now - timeout).
Definition retire_setup (v : ProvisionedVM) : ProvisionedVM :=
  retire_vm "setup-timeout" v <| vm_failure ::= (λ f,
    if negb (f =?s "") then f else if negb (v.(vm_refusal) =?s "") then v.(vm_refusal)
    else "setup did not finish in time"%string) |>.

(** A live runtime placed on the host, or with its data there. *)
Definition host_used (db : Db) (hostID : string) : bool :=
  exists_where (λ _ r, rt_live r && (null_eqb r.(rt_host_id) hostID || null_eqb r.(rt_blob_host_id) hostID))
    db.(db_runtimes).

Definition account_gone (db : Db) (_ : string) (v : ProvisionedVM) : bool :=
  vm_wanted v &&
  match v.(vm_account_id) with
  | None => false
  | Some a => match db.(db_accounts) !! a with Some acc => not_null acc.(ac_deleted_at) | None => true end
  end.

Definition unused (now retireAfter : Z) (db : Db) (id : string) (v : ProvisionedVM) : bool :=
  vm_wanted v && not_null v.(vm_account_id) && vm_is Ready v
  && (v.(vm_last_used_at) <? now - retireAfter) && negb (host_used db id).

(** The ready VMs meant to exist, and the quiet ones among them. *)
Definition ready_vm (v : ProvisionedVM) : bool := vm_wanted v && vm_is Ready v.
Definition silent_vm (now after : Z) (db : Db) (id : string) (v : ProvisionedVM) : bool :=
  ready_vm v && (provisionedVMLastSeen db id v <? now - after).

Definition retireSilentNodeVMsTX (now : Z) (policy : ProvisioningPolicy) (summary : ProvisioningSummary)
    : Tx ProvisioningSummary :=
  let after := policy.(pp_NodeSilentAfter) in
  if (after <=? 0) || match policy.(pp_UpSince) with None => true | Some up => now - up <? after end
  then mret summary else
  db ← gets id;
  let silent := count_where (silent_vm now after db) db.(db_vms) in
  let ready := count_where (λ _ v, ready_vm v) db.(db_vms) in
  if (silent =? 0)%nat then mret summary
  else if (3 <=? silent)%nat && (ready <? silent * 2)%nat
       then mret (summary <| ps_NodeSilentHeld := silent |>)
  else n ← update_vms (silent_vm now after) (λ v,
         retire_vm "node-silent" v <| vm_failure ::= (λ f, if f =?s "" then "its node stopped reporting"%string else f) |>);
       mret (summary <| ps_NodeSilent := n |>).

(** *** Runtimes of deleted VMs *)

Definition on_deleted_vm (db : Db) (host : option string) : bool :=
  match host with
  | None => false
  | Some h => match db.(db_vms) !! h with Some v => vm_is Deleted v | None => false end
  end.

Definition stranded (db : Db) (_ : string) (r : Runtime) : bool :=
  rt_live r && (on_deleted_vm db r.(rt_host_id) || on_deleted_vm db r.(rt_blob_host_id)).

(** A snapshot kept in a remote store. *)
Definition remote_data (r : Runtime) : bool :=
  present r.(rt_blob_manifest_json)
  && negb ((if pg_trim (coalesce r.(rt_blob_store_kind) "") =?s "" then "local-disk"%string
            else pg_trim (coalesce r.(rt_blob_store_kind) "")) =?s "local-disk").

Definition reset_runtime (now : Z) (r : Runtime) : Runtime :=
  let remote := remote_data r in
  let deleting := r.(rt_desired_state) =?s "deleted" in
  r <| rt_host_id := None |> <| rt_blob_host_id := None |>
    <| rt_blob_manifest_json ::= (λ m, if remote then m else None) |>
    <| rt_blob_generation_floor ::= (λ f, if remote then f else f + manifestGenerationSQL r.(rt_blob_manifest_json)) |>
    <| rt_blob_last_snapshot_at ::= (λ t, if remote then t else None) |>
    <| rt_cleanup_pending := false |> <| rt_container_name := None |> <| rt_adb_port := None |>
    <| rt_viewer_port ::= (λ p, if deleting && negb remote then None else p) |>
    <| rt_started_at := None |> <| rt_connection_status := "offline"%string |>
    <| rt_status := (if deleting && remote then "deleting"%string
                     else if deleting then "deleted"%string else "stopped"%string) |>
    <| rt_desired_state := (if deleting then "deleted"%string else "stopped"%string) |>
    <| rt_deleted_at := (if deleting && negb remote then Some now else None) |>
    <| rt_operation_generation ::= (λ g, g + 1) |>
    <| rt_updated_at := now |>.

(** Plain INSERT INTO runtime_logs. *)
Definition insert_log (now : Z) (runtimeID source level message : string) : Tx unit :=
  modify (λ db, db <| db_runtime_logs ::= (λ l, l ++ [MkRuntimeLog runtimeID source level message now 1 None]) |>).

(** Resets the stranded runtimes and logs the loss where data was lost; the
    count of runtimes reset. *)
Definition resetStrandedTX (now : Z) : Tx nat :=
  db ← gets id;
  let affected := select (stranded db) db.(db_runtimes) in
  modify (λ db', db' <| db_runtimes ::= update_where (stranded db) (reset_runtime now) |>);;
  let lost := List.filter (λ kr : string * Runtime,
    negb (kr.2.(rt_desired_state) =?s "deleted") && negb (remote_data kr.2)) affected in
  for_each (λ kr : string * Runtime, insert_log now kr.1 "control-plane" "warn" lostRuntimeDataMessage) lost;;
  mret (length affected).

(** *** Warm spares *)

Definition spare_in (region : string) (_ : string) (v : ProvisionedVM) : bool :=
  is_null v.(vm_account_id) && vm_wanted v && vm_live v && (v.(vm_region) =?s region).

(** The loop that tops up one region; [created] counts the ids drawn. *)
Fixpoint spare_loop (fuel : nat) (now : Z) (fresh : nat → string) (region : string) (warm maxVMs : Z)
    (spares live : Z) (created : nat) : Tx (Z * nat) :=
  match fuel with
  | O => mret (live, created)
  | S fuel =>
    if (spares <? warm) && (live <? maxVMs) then
      insert_vm (fresh created) (default_vm None region now);;
      spare_loop fuel now fresh region warm maxVMs (spares + 1) (live + 1) (S created)
    else mret (live, created)
  end.

Definition top_up_region (now : Z) (fresh : nat → string) (policy : ProvisioningPolicy) (acc : Z * nat)
    (region : string) : Tx (Z * nat) :=
  let region := ToLower (TrimSpace region) in
  if negb (ValidRegion region) || (region =?s "") then mret acc
  else
    db ← gets id;
    let spares := Z.of_nat (count_where (spare_in region) db.(db_vms)) in
    spare_loop (Z.to_nat (policy.(pp_WarmSpares) - spares)) now fresh region policy.(pp_WarmSpares)
      policy.(pp_MaxVMs) spares acc.1 acc.2.

Definition topUpSparesTX (now : Z) (fresh : nat → string) (policy : ProvisioningPolicy) : Tx nat :=
  if (0 <? policy.(pp_MaxVMs)) && (0 <? policy.(pp_WarmSpares)) then
    live ← gets live_vms;
    '(_, created) ← fold_each (top_up_region now fresh policy) (live, 0%nat) policy.(pp_Regions);
    mret created
  else mret 0%nat.

(** The VMs given up: setup that never finished, accounts that are gone, VMs out
    of use and nodes that fell silent. *)
Definition retireVMsTX (now : Z) (policy : ProvisioningPolicy) : Tx ProvisioningSummary :=
  timedOut ← update_vms (timed_out now (Z.max policy.(pp_SetupTimeout) minute_us)) retire_setup;
  update_vms (λ db id v, vm_live v && vm_wanted v && host_used db id) (λ v, v <| vm_last_used_at := now |>);;
  accountsGone ← update_vms account_gone (retire_vm "account-deleted");
  retired ← (if 0 <? policy.(pp_RetireAfter)
             then update_vms (unused now policy.(pp_RetireAfter)) (retire_vm "unused") else mret 0%nat);
  retireSilentNodeVMsTX now policy (MkProvisioningSummary timedOut accountsGone retired 0 0 0 0).

Definition ReconcileProvisionedVMs (now : Z) (fresh : nat → string) (policy : ProvisioningPolicy)
    : Tx ProvisioningSummary := atomically (
  summary ← retireVMsTX now policy;
  reset ← resetStrandedTX now;
  created ← topUpSparesTX now fresh policy;
  mret (summary <| ps_RuntimesReset := reset |> <| ps_SparesCreated := created |>)).

(** ** Facts on the table of VMs *)

Abbreviation VMs := (gmap string ProvisionedVM).

(** How far along a VM is. *)
Definition vm_rank (st : VMState) : Z :=
  match st with Requested => 0 | Creating => 1 | Unlocking => 2 | Booting => 3 | Ready => 4 | Deleted => 5 end.

(** What a VM's row may become: an unwanted VM is never wanted again, an
    account's VM never changes hands, its node key is set once, and once it was
    unlocked it only moves forward. *)
Record vm_evolves (v v' : ProvisionedVM) : Prop := {
  ev_desired : v.(vm_desired) = Absent → v'.(vm_desired) = Absent;
  ev_account : ∀ a, v.(vm_account_id) = Some a → v'.(vm_account_id) = Some a;
  ev_key : v.(vm_node_public_key) ≠ ""%string → v'.(vm_node_public_key) = v.(vm_node_public_key);
  ev_forward : vm_rank Unlocking ≤ vm_rank v.(vm_state) → vm_rank v.(vm_state) ≤ vm_rank v'.(vm_state);
  ev_region : v'.(vm_region) = v.(vm_region)
}.

#[export] Instance vm_evolves_preorder : PreOrder vm_evolves.
Proof.
  split; [by intros v; split|]. intros u v w [D1 A1 K1 F1 R1] [D2 A2 K2 F2 R2]. split; eauto.
  - intros Hk. rewrite <-(K1 Hk). apply K2. by rewrite (K1 Hk).
  - intros Hu. specialize (F1 Hu). etransitivity; [exact F1|]. apply F2. lia.
  - congruence.
Qed.

(** Every VM is still there and has evolved. *)
Definition evolves (V V' : VMs) : Prop :=
  ∀ id v, V !! id = Some v → ∃ v', V' !! id = Some v' ∧ vm_evolves v v'.
Definition db_evolves : relation Db := λ db db', evolves db.(db_vms) db'.(db_vms).

#[export] Instance evolves_preorder : PreOrder evolves.
Proof.
  split.
  - intros V id v Hv. exists v. split; [done | reflexivity].
  - intros V1 V2 V3 H12 H23 id v Hv. destruct (H12 id v Hv) as (v2 & Hv2 & E2).
    destruct (H23 id v2 Hv2) as (v3 & Hv3 & E3). exists v3. split; [done | by etransitivity].
Qed.
#[export] Instance db_evolves_preorder : PreOrder db_evolves.
Proof. split; [intros db; unfold db_evolves; reflexivity | intros ???; unfold db_evolves; by etransitivity]. Qed.

Lemma evolves_update p f (V : VMs) :
  (∀ id v, V !! id = Some v → p id v = true → vm_evolves v (f v)) → evolves V (update_where p f V).
Proof.
  intros Hf id v Hv. rewrite lookup_update_where, Hv. cbn. eexists. split; [done|].
  destruct (p id v) eqn:E; [by eapply Hf | reflexivity].
Qed.
Lemma evolves_insert id v (V : VMs) : V !! id = None → evolves V (<[id := v]> V).
Proof.
  intros Hid i u Hu. exists u. split; [|reflexivity]. rewrite lookup_insert_ne; [done|]. congruence.
Qed.
Lemma evolves_alter id f (V : VMs) :
  (∀ v, V !! id = Some v → vm_evolves v (f v)) → evolves V (alter f id V).
Proof.
  intros Hf i u Hu. rewrite lookup_alter. case_decide; [subst; rewrite Hu; cbn; eauto|].
  exists u. split; [done | reflexivity].
Qed.

(** At most one wanted VM per account: the unique index. *)
Definition one_present (V : VMs) : Prop :=
  ∀ id id' v v' a, V !! id = Some v → V !! id' = Some v' →
    v.(vm_account_id) = Some a → v'.(vm_account_id) = Some a →
    vm_wanted v = true → vm_wanted v' = true → id = id'.

Definition live_count (V : VMs) : Z := Z.of_nat (count_where (λ _ v, vm_live v) V).

Lemma vm_of_true a v : vm_of a v = true ↔ v.(vm_account_id) = Some a.
Proof.
  unfold vm_of, null_eqb. destruct v.(vm_account_id); [|done]. rewrite bool_decide_eq_true. naive_solver.
Qed.

(** A change of rows that hands no VM over and wants none again. *)
Lemma one_present_update p f (V : VMs) :
  (∀ id v, V !! id = Some v → p id v = true →
     (f v).(vm_account_id) = v.(vm_account_id) ∧ (vm_wanted (f v) = true → vm_wanted v = true)) →
  one_present V → one_present (update_where p f V).
Proof.
  intros Hf H1 id id' v v' a Hv Hv' Ha Ha' Hw Hw'.
  apply update_where_Some in Hv as (u & Hu & ->), Hv' as (u' & Hu' & ->).
  assert (Hback : ∀ i x, V !! i = Some x →
    (if p i x then f x else x).(vm_account_id) = x.(vm_account_id)
    ∧ (vm_wanted (if p i x then f x else x) = true → vm_wanted x = true)).
  { intros i x Hx. destruct (p i x) eqn:E; [by eapply Hf | done]. }
  destruct (Hback id u Hu) as [E1 W1], (Hback id' u' Hu') as [E2 W2].
  eapply (H1 id id' u u' a); try done; [congruence | congruence | by apply W1 | by apply W2].
Qed.

Lemma live_count_update p f (V : VMs) :
  (∀ id v, V !! id = Some v → p id v = true → vm_live (f v) = true → vm_live v = true) →
  live_count (update_where p f V) ≤ live_count V.
Proof.
  intros Hf. unfold live_count. rewrite count_where_update. apply Nat2Z.inj_le, count_where_mono.
  intros id v Hv. destruct (p id v) eqn:E; [by eapply Hf | done].
Qed.

(** Updating one row is an update of the table. *)
Lemma alter_update_where f id (V : VMs) : alter f id V = update_where (λ k _, k =?s id) f V.
Proof.
  apply map_eq. intros i. rewrite lookup_alter, lookup_update_where. case_decide as Hi.
  - subst. destruct (V !! i); cbn; [|done]. by rewrite str_eqb_refl.
  - destruct (V !! i); cbn; [|done]. by rewrite (proj2 (str_eqb_neq i id)).
Qed.

(** ** Asking for a VM: its three outcomes *)

Definition account_vms (account : string) (db : Db) : list (string * ProvisionedVM) :=
  select (λ _ v, vm_of account v && vm_wanted v) db.(db_vms).

Lemma account_vms_nil account db :
  account_vms account db = [] → ∀ id v, db.(db_vms) !! id = Some v → v.(vm_account_id) = Some account →
  vm_wanted v = false.
Proof.
  intros H id v Hv Ha. destruct (vm_wanted v) eqn:Hw; [|done]. exfalso.
  assert ((id, v) ∈ account_vms account db) as Hin.
  { apply elem_of_select. split; [done|]. by rewrite (proj2 (vm_of_true _ _) Ha). }
  rewrite H in Hin. by apply not_elem_of_nil in Hin.
Qed.

(** How a request ended: with the account's VM, a spare, or a new VM. *)
Inductive ensured (now : Z) (freshID account region : string) (policy : ProvisioningPolicy) (request : VMRequest)
    (db : Db) : string * ProvisionedVM → Db → Prop :=
  | ensured_own id v rest :
      account_vms account db = (id, v) :: rest →
      ensured now freshID account region policy request db (id, v <| vm_last_used_at := now |>)
        (db <| db_vms ::= update_where (λ _ v, vm_of account v && vm_wanted v)
                            (λ v, v <| vm_last_used_at := now |>) |>)
  | ensured_spare id v :
      account_vms account db = [] → (checkTrialVMLimitsTX account policy request db).2 = inr tt →
      db.(db_vms) !! id = Some v → claimable now db region id v = true →
      ensured now freshID account region policy request db
        (id, v <| vm_account_id := Some account |> <| vm_last_used_at := now |>)
        (db <| db_vms ::= alter (λ v, v <| vm_account_id := Some account |> <| vm_last_used_at := now |>) id |>)
  | ensured_new :
      account_vms account db = [] → (checkTrialVMLimitsTX account policy request db).2 = inr tt →
      live_vms db < policy.(pp_MaxVMs) → db.(db_vms) !! freshID = None →
      ensured now freshID account region policy request db (freshID, default_vm (Some account) region now)
        (db <| db_vms ::= <[freshID := default_vm (Some account) region now]> |>).

Lemma checkTrialVMLimitsTX_read a policy request : stable (same (λ db, db)) (checkTrialVMLimitsTX a policy request).
Proof. unfold checkTrialVMLimitsTX. stable_steps. Qed.

Lemma EnsureAccountVM_wp now freshID accountID region policy request db :
  wp (EnsureAccountVM now freshID accountID region policy request)
    (λ r db', ensured now freshID (TrimSpace accountID) (ToLower (TrimSpace region)) policy request db r db')
    (λ _ db', db' = db) db.
Proof.
  unfold EnsureAccountVM. wp_steps; [done|].
  fold (account_vms (TrimSpace accountID) db).
  destruct (account_vms (TrimSpace accountID) db) as [|[id v] rest] eqn:Hown.
  2: { wp_steps. by eapply ensured_own. }
  wp_steps. pose proof (checkTrialVMLimitsTX_read (TrimSpace accountID) policy request db) as Hread.
  destruct (checkTrialVMLimitsTX _ _ _ db) as [db1 [e|[]]] eqn:Hcheck; unfold same in Hread; cbn in Hread; subst db1.
  { unfold wp. by rewrite Hcheck. }
  eapply wp_of_run; [exact Hcheck|]. assert (Hok : (checkTrialVMLimitsTX (TrimSpace accountID) policy request db).2 = inr tt)
    by (by rewrite Hcheck).
  destruct (order_by spare_le _) as [|[id v] rest] eqn:Hspare.
  - unfold insert_vm. wp_steps; try done. apply ensured_new; try done; [by apply Z.leb_gt|].
    by destruct (db_vms db !! freshID).
  - unfold set_vm. wp_steps.
    assert ((id, v) ∈ order_by spare_le (select (claimable now db (ToLower (TrimSpace region))) db.(db_vms))) as Hin
      by (rewrite Hspare; left).
    apply elem_of_order_by, elem_of_select in Hin as [? ?]. by apply ensured_spare.
Qed.

(** ** Reports: facts *)

Lemma registry_step_vms now db db' : registry_step now db db' → db'.(db_vms) = db.(db_vms).
Proof. by destruct 1. Qed.
Lemma registry_steps_vms now db db' : rtc (registry_step now) db db' → db'.(db_vms) = db.(db_vms).
Proof. induction 1 as [|? ? ? ?%registry_step_vms]; [done | congruence]. Qed.

Lemma registry_stable_vms {A} now (m : Tx A) : stable (rtc (registry_step now)) m → stable (same db_vms) m.
Proof. intros H db. unfold same. symmetry. apply (registry_steps_vms now), H. Qed.

Lemma normalizeRegistryID_trim id id' : normalizeRegistryID id = Some id' → id' = TrimSpace id.
Proof. unfold normalizeRegistryID. case_match; [done|]. destruct (bytes_of _); [done|]. case_match; congruence. Qed.

Lemma revoke_vm_node_stable (R : relation Db) now id :
  stable R (RevokeNode now (MkRevokeNodeInput id "provisioner" "provisioned runtime VM deleted")) →
  stable R (revoke_vm_node now id).
Proof.
  intros H db. specialize (H db). unfold revoke_vm_node. destruct (RevokeNode _ _ _) as [db' [[]|]]; done.
Qed.

Lemma revoke_vm_node_wp now id db :
  wp (revoke_vm_node now id)
    (λ _ db', db'.(db_nodes) !! TrimSpace id = None ∨ node_revoked (TrimSpace id) db') (λ _ _, True) db.
Proof.
  pose proof (RevokeNode_wp now (MkRevokeNodeInput id "provisioner" "provisioned runtime VM deleted") db) as Hw.
  unfold wp, revoke_vm_node in *.
  destruct (RevokeNode _ _ db) as [db' [e|view]] eqn:E.
  - destruct e; try done; destruct (Hw I) as (nodeID & Hid & H); apply normalizeRegistryID_trim in Hid; by subst.
  - destruct Hw as (nodeID & Hid & H). apply normalizeRegistryID_trim in Hid. subst. by right.
Qed.

(** The checks of a report touch no VM. *)
Lemma report_checks_vms NP now id current st report : stable (same db_vms) (report_checks NP now id current st report).
Proof.
  unfold report_checks. destruct st as [[]|]; stable_steps; try done.
  - eapply registry_stable_vms, ApproveNode_steps.
  - eapply revoke_vm_node_stable, registry_stable_vms, RevokeNode_steps.
Qed.

(** A VM's node: known once its key is recorded, revoked once the VM is deleted. *)
Definition node_known (db : Db) (id : string) (v : ProvisionedVM) : Prop :=
  v.(vm_node_public_key) ≠ ""%string →
  is_Some (db.(db_nodes) !! id) ∧ (v.(vm_state) = Deleted → node_revoked id db).
Definition nodes_known (db : Db) : Prop := ∀ id v, db.(db_vms) !! id = Some v → node_known db id v.

(** Nodes are never removed and revocations are final. *)
Definition nodes_kept : relation Db := λ db db',
  ∀ id, (is_Some (db.(db_nodes) !! id) → is_Some (db'.(db_nodes) !! id))
        ∧ (node_revoked id db → node_revoked id db').
#[export] Instance nodes_kept_preorder : PreOrder nodes_kept.
Proof. split; [by intros db id|]. intros x y z H1 H2 id. destruct (H1 id), (H2 id). auto. Qed.

Lemma registry_step_nodes_kept now db db' : registry_step now db db' → nodes_kept db db'.
Proof.
  intros Hstep id. split; [|by apply (registry_step_revoked id now)].
  destruct Hstep; unfold audited; cbn; try done.
  - intros H'. rewrite lookup_insert. case_decide; [by eexists | done].
  - rewrite lookup_alter. case_decide; [|done]. subst. by intros [? ->].
  - rewrite lookup_alter. case_decide; [|done]. subst. by intros [? ->].
Qed.
Lemma registry_steps_nodes_kept now db db' : rtc (registry_step now) db db' → nodes_kept db db'.
Proof. induction 1 as [|? ? ? ?%registry_step_nodes_kept]; [reflexivity | by etransitivity]. Qed.

Lemma report_checks_nodes NP now id current st report : stable nodes_kept (report_checks NP now id current st report).
Proof.
  unfold report_checks. destruct st as [[]|]; stable_steps; try done.
  - intros db. apply (registry_steps_nodes_kept now), ApproveNode_steps.
  - apply revoke_vm_node_stable. intros db. apply (registry_steps_nodes_kept now), RevokeNode_steps.
Qed.

(** What a report whose checks pass relies on. *)
Lemma report_checks_wp NP now id current st report db :
  wp (report_checks NP now (TrimSpace id) current st report)
    (λ '(ip, key) db',
       (key = ""%string ∨ st = Some Unlocking) ∧ st ≠ Some Ready
       ∧ (st = Some Unlocking → vm_wanted current = true
          ∧ (current.(vm_node_public_key) = ""%string ∨ current.(vm_node_public_key) = key)
          ∧ ∃ fp, node_approved (TrimSpace id) ProvisionerOperatorID fp db')
       ∧ (st = Some Deleted → current.(vm_node_public_key) ≠ ""%string →
          db'.(db_nodes) !! TrimSpace id = None ∨ node_revoked (TrimSpace id) db'))
    (λ _ _, True) db.
Proof.
  unfold report_checks. destruct st as [[]|]; wp_steps; try done; try (split_and!; by auto).
  - destruct a0 as [key fp0]. wp_steps; try done.
    eapply wp_mono; [apply ApproveNode_wp | intros ? db' (nodeID & opid & pk & fp & Hid & Hop & _ & Happ) | done].
    wp_steps. apply normalizeRegistryID_trim in Hid. cbn [ani_NodeID] in Hid. rewrite TrimSpace_idemp in Hid. subst nodeID.
    vm_compute in Hop. injection Hop as <-. split; [by right|]. split; [done|]. split; [|done]. intros _. split_and!.
    + by apply negb_false_iff.
    + apply andb_false_iff in H1 as [?%negb_false_iff%str_eqb_eq|?%negb_false_iff%str_eqb_eq]; auto.
    + by exists fp.
  - eapply wp_mono; [apply revoke_vm_node_wp | intros ? db' Hrev | done]. wp_steps. rewrite TrimSpace_idemp in Hrev.
    split_and!; [by left | done | done | auto].
  - split_and!; [by left | done | done |]. intros _ Hk. exfalso. apply Hk. by apply str_eqb_eq, negb_false_iff.
Qed.

(** A report that went through moved the VM where the state machine allows. *)
Definition moved (now : Z) (current v' : ProvisionedVM) (st : option VMState) : Prop :=
  v'.(vm_state) = coalesce st current.(vm_state)
  ∧ match st ≫= allowed_from with Some from => current.(vm_state) ∈ from | None => True end
  ∧ st ≠ Some Ready
  ∧ (current.(vm_node_public_key) ≠ ""%string → v'.(vm_node_public_key) = current.(vm_node_public_key))
  ∧ v'.(vm_account_id) = current.(vm_account_id) ∧ v'.(vm_region) = current.(vm_region)
  ∧ (current.(vm_desired) = Absent → v'.(vm_desired) = Absent)
  ∧ (v'.(vm_node_public_key) ≠ current.(vm_node_public_key) → st = Some Unlocking).

(** How a report ended. *)
Definition reported (now : Z) (st : option VMState) (vmID : string) (current : ProvisionedVM) (db : Db)
    (r : string * ProvisionedVM) (db' : Db) : Prop :=
  r.1 = vmID ∧ moved now current r.2 st
    ∧ db'.(db_vms) = <[vmID := r.2]> db.(db_vms)
    ∧ (st = Some Unlocking → vm_wanted current = true ∧ ∃ fp, node_approved vmID ProvisionerOperatorID fp db')
    ∧ (st = Some Deleted → current.(vm_node_public_key) ≠ ""%string →
       db'.(db_nodes) !! vmID = None ∨ node_revoked vmID db').

Lemma record_report_wp NP now vmID current st report db :
  db.(db_vms) !! TrimSpace vmID = Some current →
  wp (record_report NP now (TrimSpace vmID) current st report)
    (λ r db', nodes_kept db db' ∧ reported now st (TrimSpace vmID) current db r db')
    (λ _ db', nodes_kept db db' ∧ db'.(db_vms) = db.(db_vms)) db.
Proof.
  intros Hcur. unfold record_report. rewrite wp_bind.
  eapply wp_mono.
  { apply (wp_stable nodes_kept); [apply report_checks_nodes|]. apply (wp_stable (same db_vms)); [apply report_checks_vms|].
    apply report_checks_wp. }
  2: { intros e db' (Hk & Hv & _). by split. }
  intros [ip key] db' (Hkept & Hvms & Hkey & Hready & Hun & Hdel). unfold same in Hvms. unfold set_vm. wp_steps.
  { split; [done | by rewrite Hvms]. }
  split; [exact Hkept|]. unfold reported. cbn. split; [done|]. split.
  - split; [done|]. split; [|split; [done|]].
    { destruct (st ≫= allowed_from); [|done]. by apply negb_false_iff, bool_decide_eq_true in H. }
    cbn. unfold or_keep. split_and!; try done.
    + intros Hne. destruct (key =?s "") eqn:Ek; [done|]. destruct Hkey as [->|Hst]; [done|].
      destruct (Hun Hst) as (_ & [?|?] & _); congruence.
    + intros Hd. rewrite Hd. by destruct (negb _).
    + destruct (key =?s "") eqn:Ek; [done|]. intros _. destruct Hkey as [->|?]; done.
  - split_and!; [| | done].
    + rewrite <-Hvms. apply map_eq. intros i. rewrite lookup_alter, lookup_insert. case_decide; [|done].
      subst. by rewrite Hcur.
    + intros Hst. destruct (Hun Hst) as (? & _ & ?). done.
Qed.

(** The state a report carries, if any. *)
Definition report_state (report : ProvisionerReport) : option VMState :=
  let s := TrimSpace report.(pr_State) in if s =?s "" then None else vm_state_of s.

Lemma ApplyProvisionerReport_wp NP now vmID report db :
  wp (ApplyProvisionerReport NP now vmID report)
    (λ r db', nodes_kept db db' ∧ ∃ current, db.(db_vms) !! TrimSpace vmID = Some current
       ∧ (current.(vm_state) = Deleted ∧ db' = db
          ∨ current.(vm_state) ≠ Deleted
            ∧ reported now (report_state report) (TrimSpace vmID) current db r db'))
    (λ _ db', nodes_kept db db' ∧ db'.(db_vms) = db.(db_vms)) db.
Proof.
  unfold ApplyProvisionerReport, ProvisionedVMOf. rewrite TrimSpace_idemp. wp_steps; try (split; [reflexivity | done]).
  { split; [reflexivity|]. exists a. split; [done|]. left. by apply bool_decide_eq_true in H0. }
  all: eapply wp_mono; [by apply record_report_wp | | done].
  all: intros r db' [Hk Hr]; split; [done|]; exists a; split; [done|]; right;
    split; [by apply bool_decide_eq_false in H0|]; unfold report_state; by rewrite H1, ?H2.
Qed.

(** ** Evolution of VMs under every operation *)

Lemma evolves_same_vms db db' : db'.(db_vms) = db.(db_vms) → db_evolves db db'.
Proof. intros H. unfold db_evolves. by rewrite H. Qed.

Lemma moved_evolves now v v' st : v.(vm_state) ≠ Deleted → moved now v v' st → vm_evolves v v'.
Proof.
  intros Hnd (Hs & Hfrom & Hready & Hk & Ha & Hr & Hd & _). split; [done | congruence | done | | done].
  intros Hu. rewrite Hs. destruct st as [[]|]; cbn in *; try lia; try done;
    destruct v.(vm_state); cbn in *; try lia; set_solver.
Qed.

Lemma update_vms_evolves p f : (∀ v, vm_evolves v (f v)) → stable db_evolves (update_vms p f).
Proof. intros Hf db. apply evolves_update. auto. Qed.
Lemma insert_vm_evolves id v : stable db_evolves (insert_vm id v).
Proof.
  unfold insert_vm. apply stable_of_wp. intros db. wp_steps; [reflexivity|].
  apply evolves_insert. by destruct (db_vms db !! id).
Qed.
(** Closes the goals of a change that keeps state, account, key and region. *)
Ltac evolve := split; cbn; [done | done | done | lia | done].
#[export] Hint Resolve insert_vm_evolves : ops.

Lemma spare_loop_evolves fuel : ∀ now fresh region warm maxVMs spares live created,
  stable db_evolves (spare_loop fuel now fresh region warm maxVMs spares live created).
Proof.
  induction fuel as [|fuel IH]; intros *; cbn [spare_loop]; [stable_steps|].
  apply stable_if; intros _; [|stable_steps]. apply stable_bind; [apply _ | apply insert_vm_evolves | intros _; apply IH].
Qed.
#[export] Hint Resolve spare_loop_evolves : ops.

Lemma resetStrandedTX_vms now : stable (same db_vms) (resetStrandedTX now).
Proof. unfold resetStrandedTX, insert_log. stable_steps; done. Qed.

Lemma stable_same_evolves {A} (m : Tx A) : stable (same db_vms) m → stable db_evolves m.
Proof. intros H db. apply evolves_same_vms. symmetry. apply H. Qed.

Lemma touch_evolves now v : vm_evolves v (v <| vm_last_used_at := now |>).
Proof. evolve. Qed.

Lemma ReconcileProvisionedVMs_evolves now fresh policy : stable db_evolves (ReconcileProvisionedVMs now fresh policy).
Proof.
  unfold ReconcileProvisionedVMs, retireVMsTX, retireSilentNodeVMsTX, topUpSparesTX, top_up_region.
  stable_steps; try (apply update_vms_evolves; intros v; evolve).
  apply stable_same_evolves, resetStrandedTX_vms.
Qed.

Lemma EnsureAccountVM_evolves now freshID a region policy request :
  stable db_evolves (EnsureAccountVM now freshID a region policy request).
Proof.
  apply stable_of_wp. intros db. eapply wp_mono; [apply EnsureAccountVM_wp | | by intros ? ? ->].
  intros r db' [id v rest Hown|id v Hnone Hlim Hv Hcl|Hnone Hlim Hlive Hfresh]; unfold db_evolves; cbn.
  - apply evolves_update. intros _ u _ _. apply touch_evolves.
  - apply evolves_alter. intros u Hu. simplify_eq. unfold claimable in Hcl.
    assert (v.(vm_account_id) = None) as Ha by (by destruct v.(vm_account_id)).
    split; cbn; [done | congruence | done | lia | done].
  - by apply evolves_insert.
Qed.

Lemma ApplyProvisionerReport_evolves NP now vmID report : stable db_evolves (ApplyProvisionerReport NP now vmID report).
Proof.
  apply stable_of_wp. intros db. eapply wp_mono; [apply ApplyProvisionerReport_wp | |].
  - intros r db' (_ & cur & Hcur & [[_ ->]|(Hnd & _ & Hmoved & Hvms & _)]); [reflexivity|].
    unfold db_evolves. rewrite Hvms. intros id v Hv. destruct (decide (id = TrimSpace vmID)) as [->|Hne].
    + simplify_eq. rewrite lookup_insert_eq. eexists. split; [done|]. by eapply moved_evolves.
    + rewrite lookup_insert_ne by done. exists v. split; [done | reflexivity].
  - intros e db' [_ Hv]. by apply evolves_same_vms.
Qed.

Lemma RetireProvisionedVM_evolves id reason : stable db_evolves (RetireProvisionedVM id reason).
Proof.
  apply stable_of_wp. intros db. unfold RetireProvisionedVM, set_vm. wp_steps; [|reflexivity].
  apply evolves_alter. intros v Hv. simplify_eq. evolve.
Qed.

Lemma MarkProvisionedVMReady_evolves now nodeID : stable db_evolves (MarkProvisionedVMReady now nodeID).
Proof.
  intros db. apply evolves_update. intros id v _ Hp. split; cbn; try done.
  intros _. apply andb_true_iff in Hp as [_ [H|H]%orb_true_iff]; apply bool_decide_eq_true in H; rewrite H; cbn; lia.
Qed.

(** *** The operations together *)

Inductive ProvisioningOp :=
  | EnsureAccountVMOp (freshID accountID region : string) (request : VMRequest)
  | ProvisionerReportOp (vmID : string) (report : ProvisionerReport)
  | RetireProvisionedVMOp (vmID reason : string)
  | MarkProvisionedVMReadyOp (nodeID : string)
  | ReconcileProvisionedVMsOp (fresh : nat → string).

Definition run_provisioning (NP : string → option (string * string)) (policy : ProvisioningPolicy) (now : Z)
    (op : ProvisioningOp) : Tx unit :=
  match op with
  | EnsureAccountVMOp freshID accountID region request =>
    EnsureAccountVM now freshID accountID region policy request;; mret tt
  | ProvisionerReportOp vmID report => ApplyProvisionerReport NP now vmID report;; mret tt
  | RetireProvisionedVMOp vmID reason => RetireProvisionedVM vmID reason;; mret tt
  | MarkProvisionedVMReadyOp nodeID => MarkProvisionedVMReady now nodeID
  | ReconcileProvisionedVMsOp fresh => ReconcileProvisionedVMs now fresh policy;; mret tt
  end.

Lemma run_provisioning_evolves NP policy now op : stable db_evolves (run_provisioning NP policy now op).
Proof.
  destruct op; unfold run_provisioning; [| | | apply MarkProvisionedVMReady_evolves |];
    (apply stable_bind; [apply _ | | intros ?; stable_steps]).
  - apply EnsureAccountVM_evolves.
  - apply ApplyProvisionerReport_evolves.
  - apply RetireProvisionedVM_evolves.
  - apply ReconcileProvisionedVMs_evolves.
Qed.

(** ** Capacity and ownership under every operation *)

(** The fleet stays within [max], or does not grow, and no account gets a second
    wanted VM. *)
Definition fleet_kept (max : Z) : relation Db := λ db db',
  (one_present db.(db_vms) → one_present db'.(db_vms)) ∧ live_vms db' ≤ Z.max (live_vms db) max.
#[export] Instance fleet_kept_preorder max : PreOrder (fleet_kept max).
Proof.
  split; [intros db; split; [done | lia]|].
  intros x y z [H1 L1] [H2 L2]. split; [auto | lia].
Qed.

Lemma fleet_kept_same_vms max db db' : db'.(db_vms) = db.(db_vms) → fleet_kept max db db'.
Proof. intros H. unfold fleet_kept, live_vms. rewrite H. split; [done | lia]. Qed.
Lemma stable_same_fleet {A} max (m : Tx A) : stable (same db_vms) m → stable (fleet_kept max) m.
Proof. intros H db. apply fleet_kept_same_vms. symmetry. apply H. Qed.

(** A change of a row that cannot hand it over, want it again or revive it. *)
Definition tame (v v' : ProvisionedVM) : Prop :=
  v'.(vm_account_id) = v.(vm_account_id) ∧ (vm_wanted v' = true → vm_wanted v = true)
  ∧ (vm_live v' = true → vm_live v = true).

Lemma fleet_update max p f db :
  (∀ id v, db.(db_vms) !! id = Some v → p id v = true → tame v (f v)) →
  fleet_kept max db (db <| db_vms ::= update_where p f |>).
Proof.
  intros Hf. split.
  - apply one_present_update. intros id v Hv Hp. destruct (Hf id v Hv Hp) as (? & ? & _). done.
  - assert (live_count (update_where p f db.(db_vms)) ≤ live_count db.(db_vms)) as Hle.
    { apply live_count_update. intros id v Hv Hp. by destruct (Hf id v Hv Hp) as (_ & _ & ?). }
    change (live_count (update_where p f db.(db_vms)) ≤ Z.max (live_count db.(db_vms)) max). lia.
Qed.

Lemma update_vms_fleet max p f : (∀ v, tame v (f v)) → stable (fleet_kept max) (update_vms p f).
Proof. intros Hf db. apply fleet_update. auto. Qed.

(** A new row. *)
Lemma fleet_insert max id v db :
  db.(db_vms) !! id = None → (vm_live v = true → live_vms db < max) →
  (∀ a, v.(vm_account_id) = Some a → account_vms a db = []) →
  fleet_kept max db (db <| db_vms ::= <[id := v]> |>).
Proof.
  intros Hid Hmax Hnone. split; cbn.
  - intros H1 i j x y a Hx Hy Ha Hb Hw Hw'.
    apply lookup_insert_Some in Hx as [[<- <-]|[? Hx]], Hy as [[<- <-]|[? Hy]].
    + done.
    + rewrite (account_vms_nil a db (Hnone a Ha) j y Hy Hb) in Hw'. done.
    + rewrite (account_vms_nil a db (Hnone a Hb) i x Hx Ha) in Hw. done.
    + by eapply (H1 i j x y a).
  - unfold live_vms in *. cbn. rewrite count_where_insert by done. destruct (vm_live v); [specialize (Hmax eq_refl)|]; lia.
Qed.

Lemma EnsureAccountVM_fleet now freshID a region policy request :
  stable (fleet_kept policy.(pp_MaxVMs)) (EnsureAccountVM now freshID a region policy request).
Proof.
  apply stable_of_wp. intros db. eapply wp_mono; [apply EnsureAccountVM_wp | | by intros ? ? ->].
  intros r db' [id v rest Hown|id v Hnone Hlim Hv Hcl|Hnone Hlim Hlive Hfresh].
  - by apply fleet_update.
  - split; cbn.
    + intros H1 i j x y b Hx Hy Ha Hb Hw Hw'.
      rewrite (alter_as_insert _ _ _ v Hv) in Hx, Hy.
      apply lookup_insert_Some in Hx as [[<- <-]|[? Hx]], Hy as [[<- <-]|[? Hy]]; cbn in *.
      * done.
      * simplify_eq. rewrite (account_vms_nil _ db Hnone j y Hy Hb) in Hw'. done.
      * simplify_eq. rewrite (account_vms_nil _ db Hnone i x Hx Ha) in Hw. done.
      * by eapply (H1 i j x y b).
    + assert (Hle : ∀ f, (∀ u, vm_live (f u) = vm_live u) → live_count (alter f id db.(db_vms)) ≤ live_count db.(db_vms)).
      { intros f Hf. rewrite alter_update_where. apply live_count_update. intros k u _ _. by rewrite Hf. }
      unfold live_count, live_vms in *. cbn. etransitivity; [by apply Hle | lia].
  - apply fleet_insert; [done | done|]. cbn. by intros ? [= <-].
Qed.

Lemma ApplyProvisionerReport_fleet max NP now vmID report :
  stable (fleet_kept max) (ApplyProvisionerReport NP now vmID report).
Proof.
  apply stable_of_wp. intros db. eapply wp_mono; [apply ApplyProvisionerReport_wp | |].
  - intros r db' (_ & cur & Hcur & [[_ ->]|(Hnd & _ & Hmoved & Hvms & _)]); [reflexivity|].
    destruct Hmoved as (_ & _ & _ & _ & Ha & _ & Hd & _).
    transitivity (db <| db_vms ::= update_where (λ k _, k =?s TrimSpace vmID) (λ _, r.2) |>).
    + apply fleet_update. intros id v Hv ->%str_eqb_eq. rewrite Hcur in Hv. injection Hv as <-. split_and!; [done | |].
      * unfold vm_wanted. rewrite !bool_decide_eq_true. destruct cur.(vm_desired); [done|]. rewrite Hd; done.
      * intros _. unfold vm_live, vm_is. by apply negb_true_iff, bool_decide_eq_false.
    + apply fleet_kept_same_vms. cbn. rewrite Hvms, <-alter_update_where. symmetry. by apply (alter_as_insert _ _ _ cur).
  - intros e db' [_ Hv]. by apply fleet_kept_same_vms.
Qed.

Lemma RetireProvisionedVM_fleet max id reason : stable (fleet_kept max) (RetireProvisionedVM id reason).
Proof.
  apply stable_of_wp. intros db. unfold RetireProvisionedVM, set_vm. wp_steps; [|reflexivity].
  transitivity (db <| db_vms ::= update_where (λ k _, k =?s TrimSpace id)
    (λ _, a <| vm_desired := Absent |> <| vm_retire_reason ::= (λ r, if vm_wanted a then boundedRegistryText reason 256 else r) |>) |>).
  - apply fleet_update. intros i v Hv ->%str_eqb_eq. simplify_eq. done.
  - apply fleet_kept_same_vms. cbn. by rewrite alter_update_where.
Qed.

Lemma MarkProvisionedVMReady_fleet max now nodeID : stable (fleet_kept max) (MarkProvisionedVMReady now nodeID).
Proof.
  intros db. apply fleet_update. intros id v _ Hp. split_and!; try done. intros _.
  apply andb_true_iff in Hp as [_ [H|H]%orb_true_iff]; apply bool_decide_eq_true in H; unfold vm_live, vm_is; by rewrite H.
Qed.

(** *** Warm spares *)

Definition spares (region : string) (db : Db) : Z := Z.of_nat (count_where (spare_in region) db.(db_vms)).

(** What topping up does on the way: the fleet grows, within the limit. *)
Definition topped_up (max : Z) : relation Db := λ db db',
  fleet_kept max db db' ∧ live_vms db ≤ live_vms db' ∧ ∀ region, spares region db ≤ spares region db'.
#[export] Instance topped_up_preorder max : PreOrder (topped_up max).
Proof.
  split; [intros db; split_and!; [reflexivity | lia | intros; lia]|].
  intros x y z (H1 & L1 & S1) (H2 & L2 & S2). split_and!; [by etransitivity | lia |].
  intros region. specialize (S1 region). specialize (S2 region). lia.
Qed.

Lemma new_vm_live a region now : vm_live (default_vm a region now) = true.
Proof. done. Qed.
Lemma new_vm_spare region id now : spare_in region id (default_vm None region now) = true.
Proof. unfold spare_in. cbn. apply str_eqb_refl. Qed.

Lemma insert_spare_wp max now id region db :
  live_vms db < max →
  wp (insert_vm id (default_vm None region now))
    (λ _ db', topped_up max db db' ∧ live_vms db' = live_vms db + 1 ∧ spares region db' = spares region db + 1)
    (λ _ _, True) db.
Proof.
  intros Hlt. unfold insert_vm. wp_steps; [done|].
  assert (Hid : db.(db_vms) !! id = None) by (by destruct (db.(db_vms) !! id)).
  split; [split_and!|].
  - by apply fleet_insert.
  - unfold live_vms. cbn. rewrite count_where_insert, new_vm_live by done. lia.
  - intros region'. unfold spares. cbn. rewrite count_where_insert by done. destruct (spare_in _ _ _); lia.
  - unfold live_vms, spares. cbn. rewrite !count_where_insert, new_vm_live, new_vm_spare by done. split; lia.
Qed.

Lemma spare_loop_wp fuel : ∀ now fresh region warm max n live created db,
  live = live_vms db → n = spares region db → warm - n ≤ Z.of_nat fuel →
  wp (spare_loop fuel now fresh region warm max n live created)
    (λ r db', topped_up max db db' ∧ r.1 = live_vms db' ∧ (warm ≤ spares region db' ∨ max ≤ live_vms db'))
    (λ _ _, True) db.
Proof.
  induction fuel as [|fuel IH]; intros * -> -> Hfuel; cbn [spare_loop].
  - wp_steps. split_and!; [reflexivity | done | left; lia].
  - rewrite wp_if. split; intros Hc.
    + apply andb_true_iff in Hc as [Hw%Z.ltb_lt Hm%Z.ltb_lt]. rewrite wp_bind.
      eapply wp_mono; [by apply insert_spare_wp | | done]. intros _ db1 (Htop & Hl & Hs).
      eapply wp_mono; [apply IH; [by rewrite Hl | by rewrite Hs | lia] | | done].
      intros r db2 (Htop2 & Hr). split; [by etransitivity | exact Hr].
    + wp_steps. split_and!; [reflexivity | done |].
      apply andb_false_iff in Hc as [Hc%Z.ltb_ge|Hc%Z.ltb_ge]; [by left | by right].
Qed.

(** Whether a region is topped up at all. *)
Definition region_counts (region : string) : bool :=
  ValidRegion (ToLower (TrimSpace region)) && negb (ToLower (TrimSpace region) =?s "").

(** The region has its spares, or the fleet is full. *)
Definition region_served (policy : ProvisioningPolicy) (db : Db) (region : string) : Prop :=
  region_counts region = true →
  policy.(pp_WarmSpares) ≤ spares (ToLower (TrimSpace region)) db ∨ policy.(pp_MaxVMs) ≤ live_vms db.

Lemma region_served_mono policy db db' region :
  topped_up policy.(pp_MaxVMs) db db' → region_served policy db region → region_served policy db' region.
Proof.
  intros (_ & L & S) H Hr. specialize (S (ToLower (TrimSpace region))). destruct (H Hr); [left | right]; lia.
Qed.

Lemma topUpSparesTX_wp now fresh policy db :
  wp (topUpSparesTX now fresh policy)
    (λ _ db', topped_up policy.(pp_MaxVMs) db db'
       ∧ (0 < policy.(pp_MaxVMs) → 0 < policy.(pp_WarmSpares) → Forall (region_served policy db') policy.(pp_Regions)))
    (λ _ _, True) db.
Proof.
  unfold topUpSparesTX. rewrite wp_if. split; intros Hc.
  2: { wp_steps. split; [reflexivity|]. intros H1 H2. apply andb_false_iff in Hc as [Hc%Z.ltb_ge|Hc%Z.ltb_ge]; lia. }
  wp_steps. eapply wp_mono; [apply (wp_fold _ (λ acc todo db', topped_up policy.(pp_MaxVMs) db db' ∧ acc.1 = live_vms db'
      ∧ ∃ before, policy.(pp_Regions) = before ++ todo ∧ Forall (region_served policy db') before) (λ _ _, True)) | | done].
  - split_and!; [reflexivity | done | by exists []].
  - intros [live created] region todo db1 (Htop & Hl & before & Hsplit & Hall). unfold top_up_region. rewrite wp_if.
    split; intros Hr; [|rewrite wp_bind, wp_gets; unfold id].
    + wp_steps. split_and!; [done | done |]. exists (before ++ [region]). rewrite <-(assoc_L (++)). split; [done|].
      apply Forall_app. split; [done|]. apply Forall_singleton. intros Hrc. unfold region_counts in Hrc.
      apply orb_true_iff in Hr as [Hr|Hr]; [apply negb_true_iff in Hr|]; rewrite Hr in Hrc; [done|]. by rewrite andb_false_r in Hrc.
    + eapply wp_mono; [apply spare_loop_wp; [exact Hl | done | unfold spares; lia] | | done].
      intros r db2 (Htop2 & Hr1 & Hserved). split_and!; [by etransitivity | done |].
      exists (before ++ [region]). rewrite <-(assoc_L (++)). split; [done|]. apply Forall_app. split.
      * eapply Forall_impl; [exact Hall|]. intros x Hx. by eapply region_served_mono.
      * apply Forall_singleton. by intros _.
  - intros [live created] db' (Htop & _ & before & Hsplit & Hall). wp_steps. split; [done|]. intros _ _.
    rewrite Hsplit, app_nil_r. done.
Qed.


(** *** The reconcile pass *)

(** The retiring half keeps runtimes, VM states and owners. *)
Definition states_kept : relation Db := λ db db',
  db'.(db_runtimes) = db.(db_runtimes)
  ∧ ∀ id, vm_state <$> db'.(db_vms) !! id = vm_state <$> db.(db_vms) !! id.
#[export] Instance states_kept_preorder : PreOrder states_kept.
Proof.
  split; [done|]. intros x y z [R1 H1] [R2 H2]. split; [congruence|]. intros id. by rewrite H2, H1.
Qed.

Lemma update_vms_states p f : (∀ v, (f v).(vm_state) = v.(vm_state)) → stable states_kept (update_vms p f).
Proof.
  intros Hf db. split; [done|]. intros id.
  change (db_vms (update_vms p f db).1) with (update_where (p db) f db.(db_vms)). rewrite lookup_update_where.
  destruct (db.(db_vms) !! id) as [v|]; cbn; [|done]. by destruct (p db id v); rewrite ?Hf.
Qed.

Lemma retireVMsTX_states now policy : stable states_kept (retireVMsTX now policy).
Proof. unfold retireVMsTX, retireSilentNodeVMsTX. stable_steps; by apply update_vms_states. Qed.

Lemma retireVMsTX_fleet max now policy : stable (fleet_kept max) (retireVMsTX now policy).
Proof. unfold retireVMsTX, retireSilentNodeVMsTX. stable_steps; by apply update_vms_fleet. Qed.

Lemma retireVMsTX_total now policy db : ∃ db' s, retireVMsTX now policy db = (db', inr s).
Proof.
  unfold retireVMsTX, retireSilentNodeVMsTX, update_vms, mbind, M_bind, gets, modify, mret, M_ret, id.
  destruct (0 <? _); cbn; repeat (case_match; cbn); eauto.
Qed.

(** New spares are requested VMs. *)
Definition spares_added : relation Db := λ db db',
  db'.(db_runtimes) = db.(db_runtimes)
  ∧ ∀ id v', db'.(db_vms) !! id = Some v' → db.(db_vms) !! id = Some v' ∨ v'.(vm_state) = Requested.
#[export] Instance spares_added_preorder : PreOrder spares_added.
Proof.
  split; [split; [done | by left]|]. intros x y z [R1 H1] [R2 H2]. split; [congruence|].
  intros id v' Hv'. destruct (H2 id v' Hv'); auto.
Qed.

Lemma insert_spare_added id region now : stable spares_added (insert_vm id (default_vm None region now)).
Proof.
  unfold insert_vm. stable_steps. split; [done|]. intros i v' Hv'. cbn in Hv'.
  apply lookup_insert_Some in Hv' as [[_ <-]|[_ ?]]; [by right | by left].
Qed.
Lemma spare_loop_added fuel : ∀ now fresh region warm max n live created,
  stable spares_added (spare_loop fuel now fresh region warm max n live created).
Proof.
  induction fuel as [|fuel IH]; intros *; cbn [spare_loop]; [stable_steps|].
  apply stable_if; intros _; [|stable_steps]. apply stable_bind; [apply _ | apply insert_spare_added | intros _; apply IH].
Qed.
#[export] Hint Resolve insert_spare_added spare_loop_added : ops.
Lemma topUpSparesTX_added now fresh policy : stable spares_added (topUpSparesTX now fresh policy).
Proof. unfold topUpSparesTX, top_up_region. stable_steps. Qed.

Lemma insert_logs_run now lost db : ∃ L,
  for_each (λ kr : string * Runtime, insert_log now kr.1 "control-plane" "warn" lostRuntimeDataMessage) lost db
  = (db <| db_runtime_logs := L |>, inr tt).
Proof.
  unfold for_each. revert db. induction lost as [|kr lost IH]; intros db; cbn [fold_each].
  - exists db.(db_runtime_logs). by destruct db.
  - erewrite bind_inr by reflexivity. destruct (IH (db <| db_runtime_logs ::= (λ l, l ++
      [MkRuntimeLog kr.1 "control-plane" "warn" lostRuntimeDataMessage now 1 None]) |>)) as [L HL].
    exists L. etransitivity; [exact HL|]. by destruct db.
Qed.

Lemma resetStrandedTX_run now db : ∃ L,
  resetStrandedTX now db
  = (db <| db_runtimes ::= update_where (stranded db) (reset_runtime now) |> <| db_runtime_logs := L |>,
     inr (count_where (stranded db) db.(db_runtimes))).
Proof.
  unfold resetStrandedTX. erewrite bind_inr by reflexivity. cbv zeta. erewrite bind_inr by reflexivity.
  match goal with |- context [for_each _ ?l] => destruct (insert_logs_run now l
    (db <| db_runtimes ::= update_where (stranded db) (reset_runtime now) |>)) as [L HL] end.
  exists L. erewrite bind_inr by exact HL. done.
Qed.

Lemma stranded_states db db' id r :
  (∀ h, vm_state <$> db'.(db_vms) !! h = vm_state <$> db.(db_vms) !! h) → stranded db' id r = stranded db id r.
Proof.
  intros H. unfold stranded, on_deleted_vm, vm_is.
  assert (Hh : ∀ h, match db'.(db_vms) !! h with Some v => bool_decide (v.(vm_state) = Deleted) | None => false end
             = match db.(db_vms) !! h with Some v => bool_decide (v.(vm_state) = Deleted) | None => false end).
  { intros h. specialize (H h). destruct (db'.(db_vms) !! h), (db.(db_vms) !! h); cbn in H; try done.
    injection H as H. by rewrite H. }
  f_equal. f_equal; destruct (_ r) as [h|]; auto.
Qed.

(** The whole pass: who it retires, what it resets and what it tops up. *)
Definition reconciled (now : Z) (policy : ProvisioningPolicy) (db db' : Db) : Prop :=
  fleet_kept policy.(pp_MaxVMs) db db'
  ∧ db'.(db_runtimes) = update_where (stranded db) (reset_runtime now) db.(db_runtimes)
  ∧ (∀ id r, db'.(db_runtimes) !! id = Some r → stranded db' id r = false)
  ∧ (0 < policy.(pp_MaxVMs) → 0 < policy.(pp_WarmSpares) → Forall (region_served policy db') policy.(pp_Regions)).

Lemma reset_not_stranded now db id r : stranded db id (reset_runtime now r) = false.
Proof. unfold stranded. cbn. by rewrite andb_false_r. Qed.

Lemma ReconcileProvisionedVMs_wp now fresh policy db :
  wp (ReconcileProvisionedVMs now fresh policy) (λ _ db', reconciled now policy db db') (λ _ db', db' = db) db.
Proof.
  unfold ReconcileProvisionedVMs. rewrite wp_atomically, wp_bind.
  destruct (retireVMsTX_total now policy db) as (db1 & s & H1). eapply wp_of_run; [exact H1|].
  pose proof (stable_run _ _ _ _ _ (retireVMsTX_states now policy) H1) as [HR HS].
  pose proof (stable_run _ _ _ _ _ (retireVMsTX_fleet policy.(pp_MaxVMs) now policy) H1) as HF.
  rewrite wp_bind. destruct (resetStrandedTX_run now db1) as [L H2]. eapply wp_of_run; [exact H2|].
  set (db2 := db1 <| db_runtimes ::= update_where (stranded db1) (reset_runtime now) |> <| db_runtime_logs := L |>).
  rewrite wp_bind. eapply wp_mono.
  { apply (wp_stable spares_added); [apply topUpSparesTX_added | apply topUpSparesTX_wp]. }
  2: done.
  intros created db3 ((HR3 & HV3) & (HF3 & _) & Hserved). wp_steps.
  assert (Hrt : db3.(db_runtimes) = update_where (stranded db) (reset_runtime now) db.(db_runtimes)).
  { rewrite HR3. cbn. rewrite HR. apply map_eq. intros i. rewrite !lookup_update_where.
    destruct (db.(db_runtimes) !! i) as [r|]; [|done]. cbn. by rewrite (stranded_states db db1). }
  split_and!; [| done | | done].
  - etransitivity; [exact HF|]. etransitivity; [|exact HF3]. by apply fleet_kept_same_vms.
  - intros i r Hi. rewrite Hrt in Hi. apply update_where_Some in Hi as (r0 & Hr0 & ->).
    assert (Hmono : ∀ r', stranded db i r' = false → stranded db3 i r' = false).
    { intros r' Hno. unfold stranded in *. apply andb_false_iff in Hno as [->|Hno]; [done|].
      apply orb_false_iff in Hno as [Ha Hb]. apply andb_false_iff. right. apply orb_false_iff.
      assert (Hh : ∀ h, on_deleted_vm db h = false → on_deleted_vm db3 h = false).
      { intros [h|]; [|done]. cbn. intros Hd. destruct (db3.(db_vms) !! h) as [v|] eqn:Ev; [|done].
        destruct (HV3 h v Ev) as [Hv1|Hreq]; [|unfold vm_is; by rewrite Hreq].
        specialize (HS h). change (db_vms db2) with (db_vms db1) in Hv1. rewrite Hv1 in HS.
        destruct (db.(db_vms) !! h) as [v0|]; cbn in HS; [|done]. unfold vm_is in *. injection HS as ->. done. }
      split; by apply Hh. }
    apply Hmono. destruct (stranded db i r0) eqn:Es; [apply reset_not_stranded | done].
Qed.

Lemma ReconcileProvisionedVMs_fleet now fresh policy :
  stable (fleet_kept policy.(pp_MaxVMs)) (ReconcileProvisionedVMs now fresh policy).
Proof.
  apply stable_of_wp. intros db. eapply wp_mono; [apply ReconcileProvisionedVMs_wp | by intros ? ? (? & _) | by intros ? ? ->].
Qed.

Lemma run_provisioning_fleet NP policy now op : stable (fleet_kept policy.(pp_MaxVMs)) (run_provisioning NP policy now op).
Proof.
  destruct op; unfold run_provisioning; [| | | apply MarkProvisionedVMReady_fleet |];
    (apply stable_bind; [apply _ | | intros ?; stable_steps]).
  - apply EnsureAccountVM_fleet.
  - apply ApplyProvisionerReport_fleet.
  - apply RetireProvisionedVM_fleet.
  - apply ReconcileProvisionedVMs_fleet.
Qed.

(** *** Node keys of VMs *)

(** A VM's recorded key and its state change only in a report. *)
Definition keys_kept : relation Db := λ db db',
  nodes_kept db db'
  ∧ ∀ id v', db'.(db_vms) !! id = Some v' → v'.(vm_node_public_key) = ""%string
    ∨ ∃ v, db.(db_vms) !! id = Some v ∧ v.(vm_node_public_key) = v'.(vm_node_public_key)
           ∧ (v'.(vm_state) = Deleted → v.(vm_state) = Deleted).
#[export] Instance keys_kept_preorder : PreOrder keys_kept.
Proof.
  split.
  - intros db. split; [reflexivity|]. intros id v' Hv'. right. by exists v'.
  - intros x y z [N1 H1] [N2 H2]. split; [by etransitivity|]. intros id v'' Hv''.
    destruct (H2 id v'' Hv'') as [?|(v' & Hv' & E & D)]; [by left|].
    destruct (H1 id v' Hv') as [?|(v & Hv & E' & D')]; [left; congruence|]. right. exists v. split_and!; [done | congruence | auto].
Qed.

Lemma keys_kept_known db db' : keys_kept db db' → nodes_known db → nodes_known db'.
Proof.
  intros [HN HV] Hok id v' Hv' Hk. destruct (HV id v' Hv') as [?|(v & Hv & E & D)]; [done|].
  destruct (Hok id v Hv) as [H1 H2]; [congruence|]. destruct (HN id) as [N1 N2]. auto.
Qed.

Lemma keys_kept_update p f db :
  (∀ v, (f v).(vm_node_public_key) = v.(vm_node_public_key) ∧ ((f v).(vm_state) = Deleted → v.(vm_state) = Deleted)) →
  keys_kept db (db <| db_vms ::= update_where p f |>).
Proof.
  intros Hf. split; [by intros id|]. intros id v' Hv'. cbn in Hv'. apply update_where_Some in Hv' as (v & Hv & ->).
  right. exists v. destruct (p id v); [|done]. by destruct (Hf v).
Qed.
Lemma keys_kept_insert id a region now db :
  keys_kept db (db <| db_vms ::= <[id := default_vm a region now]> |>).
Proof.
  split; [by intros i|]. intros i v' Hv'. cbn in Hv'. apply lookup_insert_Some in Hv' as [[_ <-]|[_ ?]]; [by left|].
  right. by exists v'.
Qed.
Lemma update_vms_keys p f :
  (∀ v, (f v).(vm_node_public_key) = v.(vm_node_public_key) ∧ ((f v).(vm_state) = Deleted → v.(vm_state) = Deleted)) →
  stable keys_kept (update_vms p f).
Proof. intros Hf db. by apply keys_kept_update. Qed.
Lemma insert_vm_keys id a region now : stable keys_kept (insert_vm id (default_vm a region now)).
Proof. unfold insert_vm. stable_steps. apply keys_kept_insert. Qed.
Lemma spare_loop_keys fuel : ∀ now fresh region warm max n live created,
  stable keys_kept (spare_loop fuel now fresh region warm max n live created).
Proof.
  induction fuel as [|fuel IH]; intros *; cbn [spare_loop]; [stable_steps|].
  apply stable_if; intros _; [|stable_steps]. apply stable_bind; [apply _ | apply insert_vm_keys | intros _; apply IH].
Qed.
#[export] Hint Resolve insert_vm_keys spare_loop_keys : ops.

Lemma keys_kept_same db db' : db'.(db_vms) = db.(db_vms) → nodes_kept db db' → keys_kept db db'.
Proof. intros E HN. split; [done|]. rewrite E. intros id v' Hv'. right. by exists v'. Qed.

Lemma ReconcileProvisionedVMs_keys now fresh policy : stable keys_kept (ReconcileProvisionedVMs now fresh policy).
Proof.
  unfold ReconcileProvisionedVMs, retireVMsTX, retireSilentNodeVMsTX, topUpSparesTX, top_up_region, resetStrandedTX, insert_log.
  stable_steps; try (by apply update_vms_keys); by apply keys_kept_same.
Qed.

Lemma EnsureAccountVM_keys now freshID a region policy request :
  stable keys_kept (EnsureAccountVM now freshID a region policy request).
Proof.
  unfold EnsureAccountVM, set_vm. stable_steps; try (by apply keys_kept_update).
  - intros db. apply keys_kept_same; [symmetry; by apply (f_equal db_vms (checkTrialVMLimitsTX_read _ _ _ db))|].
    pose proof (checkTrialVMLimitsTX_read (TrimSpace a) policy request db) as E. unfold same in E. by rewrite <-E.
  - match goal with |- keys_kept ?d _ => rename d into db end.
    split; [by intros i|]. intros i v' Hv'. cbn in Hv'. right. rewrite lookup_alter in Hv'. case_decide.
    + subst. apply fmap_Some in Hv' as (v & Hv & ->). by exists v.
    + by exists v'.
Qed.

Lemma ApplyProvisionerReport_known NP now vmID report :
  stable (holds_after nodes_known) (ApplyProvisionerReport NP now vmID report).
Proof.
  apply stable_of_wp. intros db. eapply wp_mono; [apply ApplyProvisionerReport_wp | |].
  - intros r db' (HN & cur & Hcur & [[_ ->]|(Hnd & _ & Hmoved & Hvms & Hun & Hdel)]); [done|].
    intros Hok id v Hv Hk. rewrite Hvms in Hv. destruct Hmoved as (Hs & _ & _ & Hkey & _ & _ & _ & Hset).
    apply lookup_insert_Some in Hv as [[<- <-]|[_ Hv]].
    2: { destruct (Hok id v Hv Hk) as [H1 H2]. destruct (HN id) as [N1 N2]. auto. }
    assert (Hknown : is_Some (db'.(db_nodes) !! TrimSpace vmID)).
    { destruct (decide (cur.(vm_node_public_key) = "")) as [E|E].
      - destruct (Hun (Hset ltac:(congruence))) as (_ & fp & n & _ & _ & Hn & _). by exists n.
      - destruct (Hok _ cur Hcur E) as [H1 _]. by apply HN. }
    split; [done|]. intros Hd. destruct (decide (cur.(vm_node_public_key) = "")) as [E|E].
    + rewrite Hset in Hs by congruence. cbn in Hs. congruence.
    + destruct (report_state report) as [st|]; cbn in Hs; [|congruence]. rewrite Hd in Hs. subst st.
      destruct (Hdel eq_refl E) as [Hno|?]; [|done]. rewrite Hno in Hknown. by destruct Hknown.
  - intros e db' [HN Hv] Hok. eapply keys_kept_known; [by apply keys_kept_same | done].
Qed.

Lemma RetireProvisionedVM_keys id reason : stable keys_kept (RetireProvisionedVM id reason).
Proof.
  apply stable_of_wp. intros db. unfold RetireProvisionedVM, set_vm. wp_steps; [|reflexivity].
  split; [by intros i|]. intros i v' Hv'. right. cbn in Hv'. rewrite lookup_alter in Hv'. case_decide.
  - subst. rewrite H in Hv'. cbn in Hv'. injection Hv' as <-. by exists a.
  - by exists v'.
Qed.

Lemma MarkProvisionedVMReady_keys now nodeID : stable keys_kept (MarkProvisionedVMReady now nodeID).
Proof. intros db. by apply keys_kept_update. Qed.

Lemma run_provisioning_known NP policy now op : stable (holds_after nodes_known) (run_provisioning NP policy now op).
Proof.
  assert (Hkeys : ∀ A (m : Tx A), stable keys_kept m → stable (holds_after nodes_known) m).
  { intros A m H db Hok. eapply keys_kept_known; [apply H | done]. }
  destruct op; unfold run_provisioning; [| | | apply Hkeys, MarkProvisionedVMReady_keys |];
    (apply stable_bind; [apply _ | | intros ?; stable_steps]).
  - apply Hkeys, EnsureAccountVM_keys.
  - apply ApplyProvisionerReport_known.
  - apply Hkeys, RetireProvisionedVM_keys.
  - apply Hkeys, ReconcileProvisionedVMs_keys.
Qed.

(** *** Trials *)

Definition trial_vms (db : Db) : Z := Z.of_nat (count_where (trial_vm db) db.(db_vms)).

(** What a trial account may go up to: twice the limit for removing stored data. *)
Definition trial_limit (policy : ProvisioningPolicy) (request : VMRequest) (account : string) (db : Db) : Z :=
  if removes_data db account request.(vr_CleanupRuntimeID)
  then Z.max (2 * policy.(pp_TrialMaxVMs)) 1 else policy.(pp_TrialMaxVMs).

Definition is_trial (db : Db) (account : string) : bool :=
  coalesce (en_source <$> db.(db_entitlements) !! account) "trial" =?s "trial".

Lemma checkTrialVMLimitsTX_wp account policy request db :
  wp (checkTrialVMLimitsTX account policy request)
    (λ _ _, is_trial db account = true →
       trial_vms db < trial_limit policy request account db
       ∧ (removes_data db account request.(vr_CleanupRuntimeID) = false → request.(vr_AllowTrialVM) ≠ Some false))
    (λ _ _, True) db.
Proof.
  unfold checkTrialVMLimitsTX, trial_limit, trial_vms, is_trial. wp_steps; try done.
  - intros Ht. exfalso. destruct (db.(db_entitlements) !! account); cbn in *; [by rewrite Ht in H | done].
  - intros _. split; [by apply Z.leb_gt|]. intros Hr Hno. rewrite Hr, Hno in H1. done.
Qed.

Lemma checkTrialVMLimitsTX_pass account policy request db :
  (checkTrialVMLimitsTX account policy request db).2 = inr tt → is_trial db account = true →
  trial_vms db < trial_limit policy request account db.
Proof.
  intros Hok Ht. pose proof (checkTrialVMLimitsTX_wp account policy request db) as Hw. unfold wp in Hw.
  destruct (checkTrialVMLimitsTX _ _ _ _) as [db' [e|[]]]; [done | by apply Hw].
Qed.

(** Giving a VM to an account adds at most one trial VM. *)
Lemma trial_vms_alter db id f :
  (∀ v, vm_live (f v) = vm_live v) →
  Z.of_nat (count_where (trial_vm db) (alter f id db.(db_vms))) ≤ trial_vms db + 1.
Proof.
  intros Hf. unfold trial_vms. destruct (db.(db_vms) !! id) as [v|] eqn:Hv.
  - rewrite (alter_as_insert _ _ _ v Hv), <-(insert_delete_eq _ id (f v)).
    rewrite <-(insert_id db.(db_vms) id v Hv) at 2. rewrite <-(insert_delete_eq db.(db_vms) id v).
    rewrite !count_where_insert by apply lookup_delete_eq.
    destruct (trial_vm db id (f v)), (trial_vm db id v); lia.
  - rewrite alter_fixed; [lia|]. by rewrite Hv.
Qed.

(** ** Samples *)

Definition sample_policy : ProvisioningPolicy :=
  MkProvisioningPolicy ["eu"%string] 3 1 1 (30 * minute_us) (24 * hour_us) (10 * minute_us) (Some 0).
Definition sample_request : VMRequest := MkVMRequest "" None.
Definition sample_ids (n : nat) : string := "pvm-spare" +:+ fmt_d (Z.of_nat n).
(** A VM asked for by account [a], created and being unlocked. *)
Definition sample_hash : string := String.substring 0 64 (sample_fp "c").
Definition sample_creating : ProvisionerReport := MkProvisionerReport "creating" sample_hash "" "" "" "" "" "".
Definition sample_unlocking : ProvisionerReport :=
  MkProvisionerReport "unlocking" "" "" "2001:db8::7" (sample_key "d") "" "" "".
Definition sample_deleted : ProvisionerReport := MkProvisionerReport "deleted" "" "" "" "" "" "" "".
Definition sample_asked : Db := (EnsureAccountVM 100 "pvm-1" "a" "EU" sample_policy sample_request empty_db).1.
Definition sample_created : Db := (ApplyProvisionerReport sample_parse 200 "pvm-1" sample_creating sample_asked).1.
Definition sample_unlocked : Db := (ApplyProvisionerReport sample_parse 300 "pvm-1" sample_unlocking sample_created).1.

(** ** Properties *)

(** C35: no operation takes the fleet past the limit: the number of VMs that are
    not deleted never exceeds the larger of [MaxVMs] and what it was. *)
Theorem fleet_within_limit NP policy now op db :
  live_vms (run_provisioning NP policy now op db).1 ≤ Z.max (live_vms db) policy.(pp_MaxVMs).
Proof. apply run_provisioning_fleet. Qed.

(** No account ever gets a second wanted VM, whatever operation runs: the
    table's unique index never has to refuse a row. *)
Theorem one_vm_per_account NP policy now op db (Hok : one_present db.(db_vms)) :
  one_present (run_provisioning NP policy now op db).1.(db_vms).
Proof. by apply (run_provisioning_fleet NP policy now op db). Qed.

Lemma one_vm_per_account_witness :
  one_present (run_provisioning sample_parse sample_policy 150 (EnsureAccountVMOp "pvm-2" "b" "eu" sample_request)
     sample_asked).1.(db_vms).
Proof.
  apply (one_vm_per_account sample_parse sample_policy 150 (EnsureAccountVMOp "pvm-2" "b" "eu" sample_request) sample_asked).
  apply (run_provisioning_fleet sample_parse sample_policy 100 (EnsureAccountVMOp "pvm-1" "a" "EU" sample_request) empty_db).
  intros i j v v' a Hv. cbn in Hv. by rewrite lookup_empty in Hv.
Defined.

(** C37: what may happen to a VM's row, whatever operation runs: it is never
    removed; unwanted stays unwanted; its account and its node key, once set,
    never change; from unlocking on it only moves forward, and a deleted VM
    stays deleted. *)
Theorem vm_lifecycle NP policy now op db id v (Hv : db.(db_vms) !! id = Some v) :
  ∃ v', (run_provisioning NP policy now op db).1.(db_vms) !! id = Some v' ∧ vm_evolves v v'
        ∧ (v.(vm_state) = Deleted → v'.(vm_state) = Deleted).
Proof.
  destruct (run_provisioning_evolves NP policy now op db id v Hv) as (v' & Hv' & Hev).
  exists v'. split_and!; [done | done |]. intros Hd. pose proof (ev_forward _ _ Hev) as Hf. rewrite Hd in Hf.
  specialize (Hf ltac:(cbn; lia)). destruct v'.(vm_state); cbn in Hf; (done || lia).
Qed.

Lemma vm_lifecycle_witness :
  ∃ v', (run_provisioning sample_parse sample_policy 400 (ProvisionerReportOp "pvm-1" sample_deleted)
           sample_unlocked).1.(db_vms) !! "pvm-1"%string = Some v' ∧ v'.(vm_account_id) = Some "a"%string.
Proof.
  destruct (sample_unlocked.(db_vms) !! "pvm-1"%string) as [v|] eqn:E; [|vm_compute in E; discriminate].
  destruct (vm_lifecycle sample_parse sample_policy 400 (ProvisionerReportOp "pvm-1" sample_deleted) sample_unlocked
    "pvm-1" v E) as (v' & Hv' & Hev & _).
  exists v'. split; [exact Hv'|]. apply (ev_account _ _ Hev). vm_compute in E. by injection E as <-.
Defined.

(** A VM that is deleted has lost its node's trust: as long as the VM's
    key was recorded, its node is revoked and no key of it authenticates; no
    operation can leave a deleted VM with a working key. *)
Theorem deleted_vm_cut_off NP policy now op db (Hok : nodes_known db) :
  let db' := (run_provisioning NP policy now op db).1 in
  nodes_known db' ∧ ∀ id v later, db'.(db_vms) !! id = Some v → v.(vm_state) = Deleted →
    v.(vm_node_public_key) ≠ ""%string → authorized_keys later id db' = [].
Proof.
  pose proof (run_provisioning_known NP policy now op db Hok) as Hok'. split; [done|].
  intros id v later Hv Hd Hk. apply node_revoked_no_keys. by apply (Hok' id v Hv Hk).
Qed.

Lemma deleted_vm_cut_off_witness :
  authorized_keys 999 "pvm-1" (run_provisioning sample_parse sample_policy 400 (ProvisionerReportOp "pvm-1" sample_deleted)
    sample_unlocked).1 = [] ∧ authorized_keys 350 "pvm-1" sample_unlocked ≠ [].
Proof.
  split; [|vm_compute; congruence].
  assert (Hok : nodes_known sample_unlocked).
  { unfold sample_unlocked. apply ApplyProvisionerReport_known. unfold sample_created. apply ApplyProvisionerReport_known.
    eapply keys_kept_known; [apply EnsureAccountVM_keys|]. intros i v Hv. cbn in Hv. by rewrite lookup_empty in Hv. }
  destruct (deleted_vm_cut_off sample_parse sample_policy 400 (ProvisionerReportOp "pvm-1" sample_deleted)
    sample_unlocked Hok) as [_ H].
  destruct ((run_provisioning sample_parse sample_policy 400 (ProvisionerReportOp "pvm-1" sample_deleted)
    sample_unlocked).1.(db_vms) !! "pvm-1"%string) as [v|] eqn:E; [|vm_compute in E; discriminate].
  apply (H "pvm-1"%string v 999 E); vm_compute in E; injection E as <-; [reflexivity | vm_compute; congruence].
Defined.

(** A report that takes a VM to unlocking has approved its node: the report
    is accepted only for a wanted VM that is being created, and from then on the
    node's key authenticates. *)
Theorem unlocking_approves_node NP now vmID report db db' r
    (Hrun : ApplyProvisionerReport NP now vmID report db = (db', inr r))
    (Hst : TrimSpace report.(pr_State) = "unlocking"%string)
    cur (Hcur : db.(db_vms) !! TrimSpace vmID = Some cur) (Hlive : cur.(vm_state) ≠ Deleted) :
  r.2.(vm_state) = Unlocking ∧ (cur.(vm_state) = Creating ∨ cur.(vm_state) = Unlocking) ∧ vm_wanted cur = true
  ∧ ∀ later, ∃ version key, (version, key) ∈ authorized_keys later (TrimSpace vmID) db'.
Proof.
  destruct (wp_run _ _ _ _ _ _ (ApplyProvisionerReport_wp NP now vmID report db) Hrun)
    as (_ & cur' & Hcur' & [[? _]|(_ & _ & (Hs & Hfrom & _) & _ & Hun & _)]); [congruence|].
  rewrite Hcur in Hcur'. injection Hcur' as <-.
  assert (Hrs : report_state report = Some Unlocking) by (unfold report_state; by rewrite Hst).
  rewrite Hrs in *. destruct (Hun eq_refl) as (Hw & fp & Happ). split; [done|]. split; [|split; [done|]].
  - cbn in Hfrom. set_solver.
  - intros later. destruct (node_approved_key later _ _ _ _ Happ) as (v & k & Hin & _). eauto.
Qed.

Lemma unlocking_approves_node_witness :
  ∃ version key, (version, key) ∈ authorized_keys 999 "pvm-1" sample_unlocked.
Proof.
  destruct (sample_created.(db_vms) !! "pvm-1"%string) as [v|] eqn:E; [|vm_compute in E; discriminate].
  destruct (ApplyProvisionerReport sample_parse 300 "pvm-1" sample_unlocking sample_created) as [db' [e|r]] eqn:R.
  - exfalso. assert (match (ApplyProvisionerReport sample_parse 300 "pvm-1" sample_unlocking sample_created).2
      with inl _ => True | inr _ => False end) as Hno by (by rewrite R). vm_compute in Hno. exact Hno.
  - replace sample_unlocked with db' by (unfold sample_unlocked; by rewrite R).
    apply (unlocking_approves_node sample_parse 300 "pvm-1" sample_unlocking sample_created db' r R eq_refl v E).
    vm_compute in E. injection E as <-. discriminate.
Defined.

(** The reconcile pass leaves no live runtime on a deleted VM.  Exactly the
    runtimes that were on one are reset; where the snapshot was kept remotely it
    is kept, and otherwise the generation floor rises by the lost generation, so
    floor plus generation never falls. *)
Theorem reconcile_frees_runtimes now fresh policy db :
  wp (ReconcileProvisionedVMs now fresh policy)
    (λ _ db', (∀ id r, db'.(db_runtimes) !! id = Some r → stranded db' id r = false)
       ∧ ∀ id r, db.(db_runtimes) !! id = Some r →
           db'.(db_runtimes) !! id = Some (if stranded db id r then reset_runtime now r else r)
           ∧ (remote_data r = true → (reset_runtime now r).(rt_blob_manifest_json) = r.(rt_blob_manifest_json))
           ∧ (reset_runtime now r).(rt_blob_generation_floor)
             + manifestGenerationSQL (reset_runtime now r).(rt_blob_manifest_json)
             = r.(rt_blob_generation_floor) + manifestGenerationSQL r.(rt_blob_manifest_json)
           ∧ r.(rt_operation_generation) < (reset_runtime now r).(rt_operation_generation))
    (λ _ db', db' = db) db.
Proof.
  eapply wp_mono; [apply ReconcileProvisionedVMs_wp | | done].
  intros _ db' (_ & Hrt & Hfree & _). split; [done|]. intros id r Hr.
  split; [by rewrite Hrt, lookup_update_where, Hr|]. cbn.
  destruct (remote_data r); cbn; split_and!; try done; try lia.
Qed.

(** The reconcile pass tops up the spares: afterwards every region it
    serves has its warm spares, or the fleet is at its limit. *)
Theorem reconcile_tops_up now fresh policy db
    (Hmax : 0 < policy.(pp_MaxVMs)) (Hwarm : 0 < policy.(pp_WarmSpares)) :
  wp (ReconcileProvisionedVMs now fresh policy)
    (λ _ db', Forall (λ region, region_counts region = true →
         policy.(pp_WarmSpares) ≤ spares (ToLower (TrimSpace region)) db' ∨ policy.(pp_MaxVMs) ≤ live_vms db')
       policy.(pp_Regions))
    (λ _ db', db' = db) db.
Proof.
  eapply wp_mono; [apply ReconcileProvisionedVMs_wp | | done].
  intros _ db' (_ & _ & _ & Hserved). by apply Hserved.
Qed.

Lemma reconcile_tops_up_witness :
  wp (ReconcileProvisionedVMs 100 sample_ids sample_policy)
    (λ _ db', Forall (λ region, region_counts region = true →
         1 ≤ spares (ToLower (TrimSpace region)) db' ∨ 3 ≤ live_vms db') ["eu"%string])
    (λ _ db', db' = sample_asked) sample_asked
  ∧ (ReconcileProvisionedVMs 100 sample_ids sample_policy sample_asked).2
    = inr (MkProvisioningSummary 0 1 0 0 0 1 0).
Proof.
  split; [apply (reconcile_tops_up 100 sample_ids sample_policy sample_asked); reflexivity | vm_compute; reflexivity].
Defined.

(** A trial account gets a VM only while trials hold fewer than they may:
    the number of VMs trials hold never exceeds the larger of the limit and what
    it was, and only removing stored data may use the doubled limit. *)
Theorem trial_vms_within_limit now freshID accountID region policy request db
    (Htrial : is_trial db (TrimSpace accountID) = true) :
  wp (EnsureAccountVM now freshID accountID region policy request)
    (λ _ db', trial_vms db' ≤ Z.max (trial_vms db) (trial_limit policy request (TrimSpace accountID) db))
    (λ _ db', db' = db) db.
Proof.
  eapply wp_mono; [apply EnsureAccountVM_wp | | done].
  intros r db' [id v rest Hown|id v Hnone Hlim Hv Hcl|Hnone Hlim Hlive Hfresh].
  - unfold trial_vms. cbn. rewrite count_where_update.
    rewrite (count_where_ext _ (trial_vm db)); [lia|]. intros k u _. by destruct (vm_of _ u && _).
  - apply checkTrialVMLimitsTX_pass in Hlim; [|done].
    etransitivity; [apply (trial_vms_alter db id (λ v, v <| vm_account_id := Some (TrimSpace accountID) |>
      <| vm_last_used_at := now |>)); done | lia].
  - apply checkTrialVMLimitsTX_pass in Hlim; [|done].
    assert (Hle : ∀ v, Z.of_nat (count_where (trial_vm db) (<[freshID := v]> db.(db_vms))) ≤ trial_vms db + 1).
    { intros v. unfold trial_vms. rewrite count_where_insert by done. destruct (trial_vm db freshID v); lia. }
    etransitivity; [apply Hle | lia].
Qed.

Lemma trial_vms_within_limit_witness :
  wp (EnsureAccountVM 100 "pvm-1" "a" "eu" sample_policy sample_request)
    (λ _ db', trial_vms db' ≤ 1) (λ _ db', db' = empty_db) empty_db.
Proof. apply (trial_vms_within_limit 100 "pvm-1" "a" "eu" sample_policy sample_request empty_db). reflexivity. Defined.

(** An unlocking report is checked against the VM's state only after its node
    was approved.  Sent for a VM that is only requested, it is refused, yet the
    node's key authenticates from then on; since the VM's row never learnt the
    key, deleting the VM does not revoke it either. *)
Theorem refused_unlocking_keeps_approval :
  let refused := ApplyProvisionerReport sample_parse 300 "pvm-1" sample_unlocking sample_asked in
  let deleted := ApplyProvisionerReport sample_parse 400 "pvm-1" sample_deleted refused.1 in
  refused.2 = inl ErrProvisionedVMTransition
  ∧ (vm_state <$> deleted.1.(db_vms) !! "pvm-1"%string) = Some Deleted
  ∧ length (authorized_keys 500 "pvm-1" deleted.1) = 1%nat.
Proof. split_and!; vm_compute; reflexivity. Qed.
