(* ===== verification/Entitlements.v ===== *)
(** * What an account may create and start

    Models the entitlement checks of internal/store/store.go (7653-7990), the
    check made before a VM is prepared for a start
    ([CheckRuntimeStartEntitlement]) and the summary the app shows
    ([GetAccountEntitlementSummary]): limits on runtimes, on running runtimes
    and on starts per day, trial time and the paid balance. *)

From S2P Require Import Prelude.
From S2P Require Import GoLib.
From S2P Require Import Schema.
From S2P Require Import Manifests.
From S2P Require Import Common.
From S2P Require Import Billing.
Open Scope Z_scope.

(** ** Reads *)

Definition accountEntitlementTX (accountID : string) : Tx Entitlement :=
  e ← gets (λ db, db.(db_entitlements) !! accountID);
  require e ErrRuntimeEntitlement.

Definition entitlementActive (now : Z) (e : Entitlement) : bool :=
  (TrimSpace e.(en_status) =?s "active")
  && match e.(en_expires_at) with None => true | Some t => now <? t end.

(** The rows the runtime limit counts and those the running limit counts. *)
Definition kept_runtime (accountID : string) (_ : string) (r : Runtime) : bool :=
  (r.(rt_account_id) =?s accountID) && rt_live r && negb (r.(rt_desired_state) =?s "deleted").
Definition active_runtime (accountID : string) (_ : string) (r : Runtime) : bool :=
  (r.(rt_account_id) =?s accountID) && rt_live r && (r.(rt_desired_state) =?s "running").

Definition runtime_count (accountID : string) (db : Db) : Z :=
  Z.of_nat (count_where (kept_runtime accountID) db.(db_runtimes)).
Definition active_count (accountID : string) (db : Db) : Z :=
  Z.of_nat (count_where (active_runtime accountID) db.(db_runtimes)).
(** The same without one runtime ([id <> $2]). *)
Definition other_active_count (accountID runtimeID : string) (db : Db) : Z :=
  Z.of_nat (count_where (λ id r, negb (id =?s runtimeID) && active_runtime accountID id r) db.(db_runtimes)).

Definition starts_today (now : Z) (accountID : string) (db : Db) : Z :=
  Z.of_nat (length (List.filter
    (λ e, (e.(ev_account_id) =?s accountID) && (now - day_us <=? e.(ev_created_at))) db.(db_start_events))).

Definition trialRuntimeSecondsUsed (accountID : string) (db : Db) : Z :=
  coalesce (en_trial_runtime_seconds_used <$> db.(db_entitlements) !! TrimSpace accountID) 0.

Definition trialRuntimeTimeExhausted (e : Entitlement) (used : Z) : bool :=
  EqualFold (TrimSpace e.(en_source)) "trial"
  && ((e.(en_trial_runtime_seconds) <=? 0) || (e.(en_trial_runtime_seconds) <=? used)).

(** ** Checks *)

Definition ensureRuntimeCreateEntitlementTX (now : Z) (accountID : string) : Tx unit :=
  e ← accountEntitlementTX accountID;
  refuse_if (negb (entitlementActive now e)) ErrRuntimeEntitlement;;
  refuse_if (e.(en_runtime_limit) <=? 0) ErrRuntimeQuota;;
  runtimeCount ← gets (runtime_count accountID);
  refuse_if (e.(en_runtime_limit) <=? runtimeCount) ErrRuntimeQuota.

Definition ensureRuntimeStartEntitlementTX (pricing : Pricing) (now : Z) (accountID runtimeID : string) : Tx unit :=
  e ← accountEntitlementTX accountID;
  refuse_if (negb (entitlementActive now e)) ErrRuntimeEntitlement;;
  refuse_if (e.(en_active_runtime_limit) <=? 0) ErrRuntimeActiveQuota;;
  activeRuntimeCount ← gets (other_active_count accountID runtimeID);
  refuse_if (e.(en_active_runtime_limit) <=? activeRuntimeCount) ErrRuntimeActiveQuota;;
  refuse_if (e.(en_runtime_starts_per_day) <=? 0) ErrRuntimeStartQuota;;
  startsToday ← gets (starts_today now accountID);
  refuse_if (e.(en_runtime_starts_per_day) <=? startsToday) ErrRuntimeStartQuota;;
  trialSecondsUsed ← gets (trialRuntimeSecondsUsed accountID);
  refuse_if (trialRuntimeTimeExhausted e trialSecondsUsed) ErrRuntimeTrialTimeQuota;;
  paidBalanceCheck pricing accountID e.(en_source) (MinimumStartMicro pricing).

(** The row that [account_id = $1 AND id = $2 AND deleted_at IS NULL AND
    desired_state <> 'deleted'] selects. *)
Definition own_runtime (accountID runtimeID : string) (db : Db) : option Runtime :=
  r ← db.(db_runtimes) !! runtimeID;
  if kept_runtime accountID runtimeID r then Some r else None.

(** [strings.EqualFold(strings.TrimSpace(current.DesiredState), ...)]. *)
Definition wants_state (state : string) (r : Runtime) : bool :=
  EqualFold (TrimSpace r.(rt_desired_state)) state.

Definition CheckRuntimeStartEntitlement (pricing : Pricing) (now : Z) (accountID runtimeID : string) : Tx unit :=
  atomically (
    db ← gets id;
    r ← require (own_runtime accountID runtimeID db) ErrRuntimeNotFound;
    if wants_state "running" r || r.(rt_cleanup_pending) then mret tt
    else ensureRuntimeStartEntitlementTX pricing now accountID runtimeID).

(** ** The summary *)

Definition RuntimeEntitlementRequiredCode : string := "runtime_entitlement_required".
Definition RuntimeQuotaExceededCode : string := "runtime_quota_exceeded".
Definition ActiveRuntimeQuotaExceededCode : string := "active_runtime_quota_exceeded".
Definition RuntimeStartQuotaExceededCode : string := "runtime_start_quota_exceeded".
Definition RuntimeTrialTimeExceededCode : string := "runtime_trial_time_exceeded".
Definition RuntimeBalanceInsufficientCode : string := "runtime_balance_insufficient".

Record AccountEntitlementSummary := MkSummary {
  su_AccountID : string;
  su_Source : string;
  su_Status : string;
  su_RuntimeLimit : Z;
  su_RuntimeCount : Z;
  su_RuntimeRemaining : Z;
  su_ActiveRuntimeLimit : Z;
  su_ActiveRuntimeCount : Z;
  su_ActiveRuntimeRemaining : Z;
  su_RuntimeStartsPerDay : Z;
  su_RuntimeStartsUsedToday : Z;
  su_RuntimeStartsRemainingToday : Z;
  su_StorageBytesLimit : Z;
  su_StorageBytesUsed : Z;
  su_StorageBytesRemaining : Z;
  su_TrialRuntimeSeconds : Z;
  su_TrialRuntimeSecondsUsed : Z;
  su_TrialRuntimeSecondsRemaining : Z;
  su_ExpiresAt : option Z;
  su_BalanceMicro : option Z;
  su_MinimumStartBalanceMicro : option Z;
  su_CanCreateRuntime : bool;
  su_CanStartRuntime : bool;
  su_CreateRuntimeBlockedCode : string;
  su_CreateRuntimeBlockedReason : string;
  su_StartRuntimeBlockedCode : string;
  su_StartRuntimeBlockedReason : string
}.
#[export] Instance AccountEntitlementSummary_eta : Eta AccountEntitlementSummary :=
  λ r, MkSummary (r.(su_AccountID)) (r.(su_Source)) (r.(su_Status)) (r.(su_RuntimeLimit)) (r.(su_RuntimeCount))
    (r.(su_RuntimeRemaining)) (r.(su_ActiveRuntimeLimit)) (r.(su_ActiveRuntimeCount))
    (r.(su_ActiveRuntimeRemaining)) (r.(su_RuntimeStartsPerDay)) (r.(su_RuntimeStartsUsedToday))
    (r.(su_RuntimeStartsRemainingToday)) (r.(su_StorageBytesLimit)) (r.(su_StorageBytesUsed))
    (r.(su_StorageBytesRemaining)) (r.(su_TrialRuntimeSeconds)) (r.(su_TrialRuntimeSecondsUsed))
    (r.(su_TrialRuntimeSecondsRemaining)) (r.(su_ExpiresAt)) (r.(su_BalanceMicro))
    (r.(su_MinimumStartBalanceMicro)) (r.(su_CanCreateRuntime)) (r.(su_CanStartRuntime))
    (r.(su_CreateRuntimeBlockedCode)) (r.(su_CreateRuntimeBlockedReason))
    (r.(su_StartRuntimeBlockedCode)) (r.(su_StartRuntimeBlockedReason)).

(** The texts of the errors the summary shows ([err.Error()]). *)
Definition refusal_text (e : Err) : string :=
  match e with
  | ErrRuntimeEntitlement => "runtime entitlement is required"
  | ErrRuntimeQuota => "runtime quota exceeded"
  | ErrRuntimeActiveQuota => "active runtime quota exceeded"
  | ErrRuntimeStartQuota => "runtime start quota exceeded"
  | ErrRuntimeTrialTimeQuota => "trial runtime time quota exceeded"
  | ErrRuntimeBalance => "the account's USDT balance is too low"
  | _ => ""
  end.

Definition blockCreate (code : string) (e : Err) (s : AccountEntitlementSummary) : AccountEntitlementSummary :=
  let s := s <| su_CanCreateRuntime := false |> in
  if s.(su_CreateRuntimeBlockedCode) =?s ""
  then s <| su_CreateRuntimeBlockedCode := code |> <| su_CreateRuntimeBlockedReason := refusal_text e |> else s.

Definition blockStart (code : string) (e : Err) (s : AccountEntitlementSummary) : AccountEntitlementSummary :=
  let s := s <| su_CanStartRuntime := false |> in
  if s.(su_StartRuntimeBlockedCode) =?s ""
  then s <| su_StartRuntimeBlockedCode := code |> <| su_StartRuntimeBlockedReason := refusal_text e |> else s.

(** [if b { summary.block...() }]. *)
Definition when {A} (b : bool) (f : A → A) (a : A) : A := if b then f a else a.

Definition remaining (limit used : Z) : Z := let value := limit - used in if value <? 0 then 0 else value.
Definition remainingInt64 (limit used : Z) : Z := remaining limit used.

Definition zero_summary (accountID source status : string) : AccountEntitlementSummary :=
  MkSummary accountID source status 0 0 0 0 0 0 0 0 0 0 0 0 0 0 0 None None None false false "" "" "" "".

Definition missingEntitlementSummary (accountID : string) : AccountEntitlementSummary :=
  blockStart RuntimeEntitlementRequiredCode ErrRuntimeEntitlement
    (blockCreate RuntimeEntitlementRequiredCode ErrRuntimeEntitlement (zero_summary accountID "none" "missing")).

(** The counts before any block. *)
Definition summary_counts (accountID : string) (e : Entitlement) (runtimes active starts trialUsed stored : Z)
    : AccountEntitlementSummary :=
  MkSummary accountID e.(en_source) e.(en_status)
    e.(en_runtime_limit) runtimes (remaining e.(en_runtime_limit) runtimes)
    e.(en_active_runtime_limit) active (remaining e.(en_active_runtime_limit) active)
    e.(en_runtime_starts_per_day) starts (remaining e.(en_runtime_starts_per_day) starts)
    e.(en_storage_bytes_limit) stored (remainingInt64 e.(en_storage_bytes_limit) stored)
    e.(en_trial_runtime_seconds) trialUsed (remainingInt64 e.(en_trial_runtime_seconds) trialUsed)
    e.(en_expires_at) None None true true "" "" "" "".

Definition summary_blocks (e : Entitlement) (s : AccountEntitlementSummary) : AccountEntitlementSummary :=
  when (trialRuntimeTimeExhausted e s.(su_TrialRuntimeSecondsUsed))
    (blockStart RuntimeTrialTimeExceededCode ErrRuntimeTrialTimeQuota)
  (when ((s.(su_RuntimeStartsPerDay) <=? 0) || (s.(su_RuntimeStartsPerDay) <=? s.(su_RuntimeStartsUsedToday)))
    (blockStart RuntimeStartQuotaExceededCode ErrRuntimeStartQuota)
  (when ((s.(su_ActiveRuntimeLimit) <=? 0) || (s.(su_ActiveRuntimeLimit) <=? s.(su_ActiveRuntimeCount)))
    (blockStart ActiveRuntimeQuotaExceededCode ErrRuntimeActiveQuota)
  (when ((s.(su_RuntimeLimit) <=? 0) || (s.(su_RuntimeLimit) <=? s.(su_RuntimeCount)))
    (blockCreate RuntimeQuotaExceededCode ErrRuntimeQuota) s))).

(** [paidBalanceCheck(...) != nil]. *)
Definition fails {A} (m : Tx A) : Tx bool := λ db, (db, inr (match (m db).2 with inl _ => true | inr _ => false end)).

Definition GetAccountEntitlementSummary (pricing : Pricing) (now : Z) (accountID : string)
    : Tx AccountEntitlementSummary :=
  let accountID := TrimSpace accountID in
  refuse_if (accountID =?s "") (ErrText "account id is required");;
  db ← gets id;
  match db.(db_entitlements) !! accountID with
  | None => mret (missingEntitlementSummary accountID)
  | Some e =>
    match accountStorageBytesUsed accountID db with
    | inl err => throw err
    | inr stored =>
      let s := summary_counts accountID e (runtime_count accountID db) (active_count accountID db)
                 (starts_today now accountID db) (trialRuntimeSecondsUsed accountID db) stored in
      if negb (entitlementActive now e) then
        mret (blockStart RuntimeEntitlementRequiredCode ErrRuntimeEntitlement
                (blockCreate RuntimeEntitlementRequiredCode ErrRuntimeEntitlement s))
      else
        let s := summary_blocks e s in
        if EqualFold (TrimSpace e.(en_source)) "paid" then
          let s := s <| su_BalanceMicro := Some (accountBalance accountID db) |> in
          if Enabled pricing then
            let minimum := MinimumStartMicro pricing in
            short ← fails (paidBalanceCheck pricing accountID e.(en_source) minimum);
            mret (when short (blockStart RuntimeBalanceInsufficientCode ErrRuntimeBalance)
                    (s <| su_MinimumStartBalanceMicro := Some minimum |>))
          else mret s
        else mret s
    end
  end.

(** ** Facts *)

(** Why a start is refused, if it is: the first reason in the code's order. *)
Definition start_refusal (pricing : Pricing) (now : Z) (accountID runtimeID : string) (db : Db) : option Err :=
  match db.(db_entitlements) !! accountID with
  | None => Some ErrRuntimeEntitlement
  | Some e =>
    if negb (entitlementActive now e) then Some ErrRuntimeEntitlement
    else if (e.(en_active_runtime_limit) <=? 0)
            || (e.(en_active_runtime_limit) <=? other_active_count accountID runtimeID db)
         then Some ErrRuntimeActiveQuota
    else if (e.(en_runtime_starts_per_day) <=? 0)
            || (e.(en_runtime_starts_per_day) <=? starts_today now accountID db)
         then Some ErrRuntimeStartQuota
    else if trialRuntimeTimeExhausted e (trialRuntimeSecondsUsed accountID db) then Some ErrRuntimeTrialTimeQuota
    else if Enabled pricing && EqualFold (TrimSpace e.(en_source)) "paid"
            && ((accountBalance accountID db <? MinimumStartMicro pricing) || (accountBalance accountID db <=? 0))
         then Some ErrRuntimeBalance
    else None
  end.

Definition answer (o : option Err) : Err + unit := match o with Some e => inl e | None => inr tt end.

Lemma paidBalanceCheck_run pricing account source minimum db :
  paidBalanceCheck pricing account source minimum db =
  (db, answer (if Enabled pricing && EqualFold (TrimSpace source) "paid"
                  && ((accountBalance account db <? minimum) || (accountBalance account db <=? 0))
               then Some ErrRuntimeBalance else None)).
Proof.
  unfold paidBalanceCheck.
  destruct (Enabled pricing), (EqualFold (TrimSpace source) "paid"); cbn; try done.
  unfold mbind, M_bind, gets, refuse_if. by destruct (_ || _).
Qed.

(** The start check decides exactly [start_refusal] and changes nothing. *)
Lemma ensureRuntimeStart_run pricing now account id db :
  ensureRuntimeStartEntitlementTX pricing now account id db = (db, answer (start_refusal pricing now account id db)).
Proof.
  unfold ensureRuntimeStartEntitlementTX, accountEntitlementTX, start_refusal.
  unfold mbind, M_bind, gets, require, refuse_if, mret, M_ret, throw, negb.
  destruct (db.(db_entitlements) !! account) as [e|]; [|done].
  destruct (entitlementActive now e); [|done].
  destruct (en_active_runtime_limit e <=? 0); [done|].
  cbv beta iota. destruct (en_active_runtime_limit e <=? other_active_count account id db); [done|].
  destruct (en_runtime_starts_per_day e <=? 0); [done|].
  cbv beta iota. destruct (en_runtime_starts_per_day e <=? starts_today now account db); [done|].
  cbv beta iota. destruct (trialRuntimeTimeExhausted e (trialRuntimeSecondsUsed account db)); [done|]. cbv beta iota. apply paidBalanceCheck_run.
Qed.

(** Likewise for creating. *)
Definition create_refusal (now : Z) (accountID : string) (db : Db) : option Err :=
  match db.(db_entitlements) !! accountID with
  | None => Some ErrRuntimeEntitlement
  | Some e =>
    if negb (entitlementActive now e) then Some ErrRuntimeEntitlement
    else if (e.(en_runtime_limit) <=? 0) || (e.(en_runtime_limit) <=? runtime_count accountID db)
    then Some ErrRuntimeQuota else None
  end.

Lemma ensureRuntimeCreate_run now account db :
  ensureRuntimeCreateEntitlementTX now account db = (db, answer (create_refusal now account db)).
Proof.
  unfold ensureRuntimeCreateEntitlementTX, accountEntitlementTX, create_refusal.
  unfold mbind, M_bind, gets, require, refuse_if, mret, M_ret, throw, negb.
  destruct (db.(db_entitlements) !! account) as [e|]; [|done].
  destruct (entitlementActive now e); [|done].
  destruct (en_runtime_limit e <=? 0); [done|]. cbn. by destruct (_ <=? _).
Qed.

(** A runtime that does not run is not counted as running. *)
Lemma other_active_all account id r db :
  db.(db_runtimes) !! id = Some r → r.(rt_desired_state) ≠ "running"%string →
  other_active_count account id db = active_count account db.
Proof.
  intros Hr Hd. unfold other_active_count, active_count. f_equal. apply count_where_ext.
  intros id' r' Hr'. destruct (id' =?s id) eqn:E; [|done]. apply str_eqb_eq in E as ->. simplify_eq.
  unfold active_runtime. apply str_eqb_neq in Hd. rewrite Hd. by rewrite andb_false_r.
Qed.

Lemma own_runtime_Some account id db r :
  own_runtime account id db = Some r ↔ db.(db_runtimes) !! id = Some r ∧ kept_runtime account id r = true.
Proof.
  unfold own_runtime. destruct (db.(db_runtimes) !! id) as [r'|]; cbn; [|split; [done | by intros [? _]]].
  destruct (kept_runtime account id r') eqn:E; split.
  - by intros [= <-].
  - by intros [[= <-] _].
  - done.
  - intros [[= <-] ?]. congruence.
Qed.

Lemma wants_running_neq r : wants_state "running" r = false → r.(rt_desired_state) ≠ "running"%string.
Proof. intros H E. unfold wants_state in H. rewrite E in H. vm_compute in H. done. Qed.

(** ** A concrete database *)

Definition sample_entitled : Db :=
  empty_db <| db_accounts := {["acct" := default_account 0]} |>
    <| db_entitlements := {["acct" := default_entitlement 0]} |>
    <| db_runtimes := {["rt" := default_runtime "acct" "stopped" 0]} |>.

(** ** Properties *)

(** The code and text the app shows for a refusal. *)
Definition notice (e : Err) : option (string * string) :=
  match e with
  | ErrRuntimeEntitlement => Some (RuntimeEntitlementRequiredCode, refusal_text e)
  | ErrRuntimeQuota => Some (RuntimeQuotaExceededCode, refusal_text e)
  | ErrRuntimeActiveQuota => Some (ActiveRuntimeQuotaExceededCode, refusal_text e)
  | ErrRuntimeStartQuota => Some (RuntimeStartQuotaExceededCode, refusal_text e)
  | ErrRuntimeTrialTimeQuota => Some (RuntimeTrialTimeExceededCode, refusal_text e)
  | ErrRuntimeBalance => Some (RuntimeBalanceInsufficientCode, refusal_text e)
  | _ => None
  end.

(** What the summary says of creating and of starting, as an answer. *)
Definition create_notice (s : AccountEntitlementSummary) : option (string * string) :=
  if s.(su_CanCreateRuntime) then None
  else Some (s.(su_CreateRuntimeBlockedCode), s.(su_CreateRuntimeBlockedReason)).
Definition start_notice (s : AccountEntitlementSummary) : option (string * string) :=
  if s.(su_CanStartRuntime) then None
  else Some (s.(su_StartRuntimeBlockedCode), s.(su_StartRuntimeBlockedReason)).

Definition refused (r : Err + unit) : option (string * string) :=
  match r with inl e => notice e | inr _ => None end.

Lemma start_refusal_notice pricing now account id db e :
  start_refusal pricing now account id db = Some e → is_Some (notice e).
Proof. unfold start_refusal. intros H. repeat case_match; simplify_eq; cbn; eauto. Qed.

(** The notices of a summary whose entitlement is active, in the code's order. *)
Lemma summary_notices pricing now account id e db stored :
  db.(db_entitlements) !! account = Some e → entitlementActive now e = true →
  other_active_count account id db = active_count account db →
  let s := summary_blocks e (summary_counts account e (runtime_count account db) (active_count account db)
             (starts_today now account db) (trialRuntimeSecondsUsed account db) stored) in
  let short := Enabled pricing && EqualFold (TrimSpace e.(en_source)) "paid"
    && ((accountBalance account db <? MinimumStartMicro pricing) || (accountBalance account db <=? 0)) in
  start_notice (when short (blockStart RuntimeBalanceInsufficientCode ErrRuntimeBalance) s)
    = start_refusal pricing now account id db ≫= notice
  ∧ create_notice s = create_refusal now account db ≫= notice.
Proof.
  intros He Ha Hc s short. unfold start_refusal, create_refusal. rewrite He, Ha, Hc.
  fold short. clearbody short. subst s. unfold summary_blocks, summary_counts, when.
  cbn [negb su_TrialRuntimeSecondsUsed su_RuntimeStartsPerDay su_RuntimeStartsUsedToday su_ActiveRuntimeLimit
       su_ActiveRuntimeCount su_RuntimeLimit su_RuntimeCount].
  set (b1 := _ || (en_active_runtime_limit e <=? _)). set (b2 := _ || (en_runtime_starts_per_day e <=? _)).
  set (b3 := trialRuntimeTimeExhausted e _). set (b4 := _ || (en_runtime_limit e <=? _)).
  clearbody b1 b2 b3 b4. destruct b1, b2, b3, b4, short; split; reflexivity.
Qed.

(** What a returned summary says, against what the checks would answer. *)
Lemma summary_answers pricing now account id db s :
  TrimSpace account = account →
  (GetAccountEntitlementSummary pricing now account db).2 = inr s →
  other_active_count account id db = active_count account db →
  start_notice s = start_refusal pricing now account id db ≫= notice
  ∧ create_notice s = create_refusal now account db ≫= notice.
Proof.
  intros Htrim Hs Hc. unfold GetAccountEntitlementSummary in Hs. rewrite Htrim in Hs. cbv zeta in Hs.
  unfold mbind, M_bind, gets, refuse_if, throw, mret, M_ret, Datatypes.id in Hs.
  destruct (account =?s ""); [done|]. cbv beta iota in Hs.
  destruct (db.(db_entitlements) !! account) as [e|] eqn:He.
  2:{ apply (inj inr) in Hs. rewrite <-Hs. unfold start_refusal, create_refusal. rewrite He. done. }
  destruct (accountStorageBytesUsed account db) as [err|stored]; [done|].
  destruct (entitlementActive now e) eqn:Ha; cbn [negb] in Hs.
  2:{ apply (inj inr) in Hs. rewrite <-Hs. unfold start_refusal, create_refusal. rewrite He, Ha. done. }
  pose proof (summary_notices pricing now account id e db stored He Ha Hc) as Hn. cbv zeta in Hn.
  revert Hn Hs. generalize (summary_blocks e (summary_counts account e (runtime_count account db)
    (active_count account db) (starts_today now account db) (trialRuntimeSecondsUsed account db) stored)) as s0.
  intros s0 [Hst Hcr]. rewrite <-Hcr, <-Hst. clear Hst Hcr. unfold fails.
  destruct (EqualFold (TrimSpace (en_source e)) "paid") eqn:Ep, (Enabled pricing) eqn:Een; cbn [andb snd];
    rewrite ?paidBalanceCheck_run, ?Ep, ?Een; cbn [andb snd]; intros Hs%(inj inr); rewrite <-Hs; clear Hs; try done.
  destruct (_ || _); [|done]. unfold start_notice, create_notice, when, blockStart. cbn -[str_eqb].
  by destruct (su_StartRuntimeBlockedCode s0 =?s "").
Qed.

(** C38: The app's summary and the store's checks agree.  For a runtime that is
    neither running nor waiting for cleanup, the summary offers a start exactly
    when [CheckRuntimeStartEntitlement] lets it pass and otherwise shows the code
    and text of the very error the check returns; likewise for creating a
    runtime. *)
Theorem summary_agrees_with_checks pricing now account id db s r
  (Htrim : TrimSpace account = account)
  (Hs : (GetAccountEntitlementSummary pricing now account db).2 = inr s)
  (Hr : own_runtime account id db = Some r)
  (Hidle : wants_state "running" r || r.(rt_cleanup_pending) = false) :
  (s.(su_CanStartRuntime) = true ↔ (CheckRuntimeStartEntitlement pricing now account id db).2 = inr tt)
  ∧ start_notice s = refused (CheckRuntimeStartEntitlement pricing now account id db).2
  ∧ (s.(su_CanCreateRuntime) = true ↔ (ensureRuntimeCreateEntitlementTX now account db).2 = inr tt)
  ∧ create_notice s = refused (ensureRuntimeCreateEntitlementTX now account db).2.
Proof.
  assert (Hcheck : (CheckRuntimeStartEntitlement pricing now account id db).2
                   = answer (start_refusal pricing now account id db)).
  { unfold CheckRuntimeStartEntitlement, atomically, mbind, M_bind, gets, require, Datatypes.id. rewrite Hr.
    unfold mret, M_ret. rewrite Hidle, ensureRuntimeStart_run.
    by destruct (start_refusal pricing now account id db). }
  rewrite Hcheck, ensureRuntimeCreate_run. cbn [snd].
  apply own_runtime_Some in Hr as [Hr _]. apply orb_false_iff in Hidle as [Hidle%wants_running_neq _].
  destruct (summary_answers pricing now account id db s Htrim Hs (other_active_all _ _ _ _ Hr Hidle)) as [Hst Hcr].
  unfold start_notice, create_notice in *. split_and!.
  - destruct (start_refusal pricing now account id db) as [e|] eqn:E; cbn in *; [|by destruct s.(su_CanStartRuntime)].
    apply start_refusal_notice in E as [n En]. rewrite En in Hst. by destruct s.(su_CanStartRuntime).
  - by destruct (start_refusal pricing now account id db).
  - unfold create_refusal in *. repeat case_match; cbn in *; simplify_eq; done.
  - by destruct (create_refusal now account db).
Qed.

Lemma summary_agrees_with_checks_witness : ∃ s,
  (GetAccountEntitlementSummary (MkPricing 0 0) 5 "acct" sample_entitled).2 = inr s
  ∧ start_notice s = refused (CheckRuntimeStartEntitlement (MkPricing 0 0) 5 "acct" "rt" sample_entitled).2.
Proof.
  eexists. split; [vm_compute; reflexivity|].
  eapply (summary_agrees_with_checks (MkPricing 0 0) 5 "acct" "rt" sample_entitled);
    [vm_compute; reflexivity | vm_compute; reflexivity | vm_compute; reflexivity | reflexivity].
Defined.
