(* ===== verification/Apps.v ===== *)
(** * The apps a runtime's node installs

    Models internal/store/app_selections.go: checking a selection against the
    catalog and writing it for one runtime or for all of an account's.
    Browsing the catalog ([ListAppCatalogPage]) is not modelled. *)

From Stdlib Require Import Ascii.
From S2P Require Import Prelude.
From S2P Require Import GoLib.
From S2P Require Import Schema.
Open Scope Z_scope.

Definition maxRuntimeAppSelections : nat := 32.

Definition package_char (c : ascii) : bool :=
  let n := N_of_ascii c in
  ((97 <=? n) && (n <=? 122) || (65 <=? n) && (n <=? 90) || (48 <=? n) && (n <=? 57)
   || (n =? 46) || (n =? 95))%N.

(** The loop over the names; [normalized] is the result so far, which is also
    the set [seen]. *)
Fixpoint normalize_packages (names normalized : list string) : string + list string :=
  match names with
  | [] => inr normalized
  | packageName :: names' =>
    let value := TrimSpace packageName in
    if value =?s "" then normalize_packages names' normalized
    else if 200 <? str_len value then inl "app package name is too long"%string
    else if negb (forallb package_char (bytes_of value))
         then inl ("app package name contains unsupported characters: " +:+ value)
    else if existsb (str_eqb value) normalized then normalize_packages names' normalized
    else normalize_packages names' (normalized ++ [value])
  end.

Definition normalizeAppPackageSelections (packageNames : list string) : string + list string :=
  if (50 <? length packageNames)%nat then inl "too many app selections"%string
  else normalize_packages packageNames [].

Definition app_enabled (db : Db) (packageName : string) : bool :=
  match db.(db_app_catalog) !! packageName with Some a => a.(ap_enabled) | None => false end.

Definition validRuntimeAppSelectionsTX (packageNames : list string) : Tx (list string) :=
  match normalizeAppPackageSelections packageNames with
  | inl err => throw (ErrAppSelection err)
  | inr normalized =>
    refuse_if (maxRuntimeAppSelections <? length normalized)%nat (ErrAppSelection "select at most 32 apps");;
    for_each (λ packageName,
      exist ← gets (λ db, app_enabled db packageName);
      refuse_if (negb exist) (ErrAppSelection ("app package is not available: " +:+ packageName))) normalized;;
    mret normalized
  end.

(** [INSERT ... ON CONFLICT DO NOTHING]. *)
Definition select_app (now : Z) (runtimeID packageName : string) (t : gmap (string * string) Z)
    : gmap (string * string) Z :=
  match t !! (runtimeID, packageName) with Some _ => t | None => <[(runtimeID, packageName) := now]> t end.

Definition writeRuntimeAppSelectionsTX (now : Z) (runtimeID : string) (packageNames : list string) : Tx unit :=
  modify (λ db, db <| db_app_selections ::= delete_where (λ k _,
    (k.1 =?s runtimeID) && negb (existsb (str_eqb k.2) packageNames)) |>);;
  for_each (λ packageName, modify (λ db, db <| db_app_selections ::= select_app now runtimeID packageName |>))
    packageNames.

Definition replaceRuntimeAppSelectionsTX (now : Z) (runtimeID : string) (packageNames : list string) : Tx unit :=
  normalized ← validRuntimeAppSelectionsTX packageNames;
  writeRuntimeAppSelectionsTX now runtimeID normalized.

(** [ORDER BY recommended DESC, LOWER(display_name), package_name]. *)
Definition app_le (x y : string * CatalogApp * Z) : bool :=
  let '(px, ax, _) := x in let '(py, ay, _) := y in
  if negb (Bool.eqb ax.(ap_recommended) ay.(ap_recommended)) then ax.(ap_recommended)
  else let nx := ToLower ax.(ap_display_name) in let ny := ToLower ay.(ap_display_name) in
       if nx =?s ny then String.leb px py else String.leb nx ny.

(** The join of a runtime's selections with the enabled catalog; each entry is
    a package, its catalog row and when it was selected. *)
Definition selectedAppsForRuntime (runtimeID : string) (db : Db) : list (string * CatalogApp * Z) :=
  take maxRuntimeAppSelections (order_by app_le
    (omap (λ kt : string * string * Z,
       match db.(db_app_catalog) !! kt.1.2 with
       | Some a => if a.(ap_enabled) then Some (kt.1.2, a, kt.2) else None
       | None => None
       end) (select (λ k _, k.1 =?s runtimeID) db.(db_app_selections)))).

Definition runtime_of (accountID : string) (r : Runtime) : bool :=
  (r.(rt_account_id) =?s accountID) && rt_live r.

Definition RuntimeAppSelections (accountID runtimeID : string) : Tx (list (string * CatalogApp * Z)) :=
  db ← gets id;
  refuse_if (negb match db.(db_runtimes) !! TrimSpace runtimeID with
                  | Some r => runtime_of (TrimSpace accountID) r | None => false end) ErrRuntimeNotFound;;
  mret (selectedAppsForRuntime runtimeID db).

Definition ReplaceRuntimeAppSelections (now : Z) (accountID runtimeID : string) (packageNames : list string)
    : Tx (list (string * CatalogApp * Z)) :=
  let rid := TrimSpace runtimeID in
  atomically (
    db ← gets id;
    r ← require (db.(db_runtimes) !! rid) ErrRuntimeNotFound;
    refuse_if (negb (runtime_of (TrimSpace accountID) r)) ErrRuntimeNotFound;;
    replaceRuntimeAppSelectionsTX now rid packageNames);;
  gets (selectedAppsForRuntime rid).

(** The same apps on every runtime of the account; the catalog page it returns
    is not modelled. *)
Definition ReplaceAccountAppSelections (now : Z) (accountID : string) (packageNames : list string) : Tx unit :=
  let accountID := TrimSpace accountID in
  refuse_if (accountID =?s "") (ErrText "account id is required");;
  atomically (
    normalized ← validRuntimeAppSelectionsTX packageNames;
    db ← gets id;
    for_each (λ rid, writeRuntimeAppSelectionsTX now rid normalized)
      (select (λ _ r, runtime_of accountID r) db.(db_runtimes)).*1).

(** ** Facts *)

(** A normalized selection: distinct package names of the allowed shape. *)
Definition package_name (value : string) : Prop :=
  value ≠ ""%string ∧ str_len value ≤ 200 ∧ forallb package_char (bytes_of value) = true.

Lemma existsb_str v l : existsb (str_eqb v) l = true ↔ v ∈ l.
Proof.
  rewrite existsb_exists. setoid_rewrite str_eqb_eq. setoid_rewrite <-list_elem_of_In. split.
  - by intros (? & ? & ->).
  - eauto.
Qed.

Lemma normalize_packages_spec names : ∀ acc l,
  normalize_packages names acc = inr l → NoDup acc → Forall package_name acc → NoDup l ∧ Forall package_name l.
Proof.
  induction names as [|v names IH]; intros acc l; cbn; [by intros [= ->]|].
  destruct (TrimSpace v =?s "") eqn:Ee; [apply IH|]. apply str_eqb_neq in Ee.
  destruct (200 <? str_len (TrimSpace v)) eqn:El; [done|]. apply Z.ltb_ge in El.
  destruct (forallb package_char (bytes_of (TrimSpace v))) eqn:Ec; [|done]. cbn [negb].
  destruct (existsb (str_eqb (TrimSpace v)) acc) eqn:Ed; [apply IH|].
  intros H Hnd Hall. eapply IH; [exact H | |].
  - apply NoDup_app. split; [done|]. split; [|by apply NoDup_singleton].
    intros x Hx ->%list_elem_of_singleton. apply existsb_str in Hx. congruence.
  - apply Forall_app. split; [done|]. by apply Forall_singleton.
Qed.

(** A write leaves exactly the given packages on the runtime, keeps when each
    was first selected and touches no other runtime. *)
Definition selections_written (now : Z) (rid : string) (names : list string) (t t' : gmap (string * string) Z) : Prop :=
  ∀ r p, t' !! (r, p) = if r =?s rid then
                          if existsb (str_eqb p) names then Some (coalesce (t !! (r, p)) now) else None
                        else t !! (r, p).

Lemma select_apps_run now rid names : ∀ db, ∃ t',
  for_each (λ p, modify (λ db, db <| db_app_selections ::= select_app now rid p |>)) names db
  = (db <| db_app_selections := t' |>, inr tt : Err + unit)
  ∧ ∀ r p, t' !! (r, p) = if (r =?s rid) && existsb (str_eqb p) names
                          then Some (coalesce (db.(db_app_selections) !! (r, p)) now)
                          else db.(db_app_selections) !! (r, p).
Proof.
  induction names as [|n names IH]; intros db.
  - exists db.(db_app_selections). split; [by destruct db|]. intros r p. by rewrite andb_false_r.
  - destruct (IH (db <| db_app_selections ::= select_app now rid n |>)) as (t' & Hrun & Ht').
    exists t'. split.
    + unfold for_each in *. cbn [fold_each]. erewrite bind_inr by reflexivity. rewrite Hrun. by destruct db.
    + intros r p. rewrite Ht'. cbn [existsb]. unfold select_app.
      change (db_app_selections (set_field db_app_selections ?g db)) with (g db.(db_app_selections)).
      set (t := db.(db_app_selections)).
      destruct (r =?s rid) eqn:Er; cbn [andb].
      2:{ cbn. fold t. destruct (t !! (rid, n)); [done|]. apply lookup_insert_ne. intros [= -> _].
          by rewrite str_eqb_refl in Er. }
      apply str_eqb_eq in Er as ->. cbn. fold t. destruct (p =?s n) eqn:Ep; cbn [orb].
      * apply str_eqb_eq in Ep as ->. destruct (t !! (rid, n)) as [z|] eqn:Et.
        -- rewrite Et. cbn. by destruct (existsb _ _).
        -- rewrite lookup_insert_eq. cbn. by destruct (existsb _ _).
      * apply str_eqb_neq in Ep. destruct (t !! (rid, n)); [done|]. by rewrite lookup_insert_ne by congruence.
Qed.

Lemma write_selections_run now rid names db : ∃ t',
  writeRuntimeAppSelectionsTX now rid names db = (db <| db_app_selections := t' |>, inr tt)
  ∧ selections_written now rid names db.(db_app_selections) t'.
Proof.
  unfold writeRuntimeAppSelectionsTX. erewrite bind_inr by reflexivity.
  destruct (select_apps_run now rid names (db <| db_app_selections ::= delete_where (λ k _,
    (k.1 =?s rid) && negb (existsb (str_eqb k.2) names)) |>)) as (t' & Hrun & Ht').
  exists t'. split; [rewrite Hrun; by destruct db|]. intros r p. rewrite Ht'. cbn.
  assert (Hdel : ∀ t : gmap (string * string) Z,
    delete_where (λ k _, (k.1 =?s rid) && negb (existsb (str_eqb k.2) names)) t !! (r, p)
    = if (r =?s rid) && negb (existsb (str_eqb p) names) then None else t !! (r, p)).
  { intros t. unfold delete_where. rewrite map_lookup_imap. cbn.
    destruct (t !! (r, p)); cbn; by destruct (_ && _). }
  rewrite Hdel. destruct (r =?s rid), (existsb (str_eqb p) names); done.
Qed.

(** The catalog check passes only for enabled apps and changes nothing. *)
Lemma apps_enabled_wp names db :
  wp (for_each (λ p, exist ← gets (λ db, app_enabled db p);
                     refuse_if (negb exist) (ErrAppSelection ("app package is not available: " +:+ p))) names)
     (λ _ db', db' = db ∧ Forall (λ p, app_enabled db p = true) names) (λ _ _, True) db.
Proof.
  unfold for_each. induction names as [|n names IH]; cbn [fold_each]; [rewrite wp_ret; by split|].
  wp_steps; [done|]. eapply wp_mono; [exact IH | | done]. intros [] ? [-> HF]. split; [done|].
  constructor; [|done]. by apply negb_false_iff.
Qed.

Lemma validRuntimeAppSelections_wp names db :
  wp (validRuntimeAppSelectionsTX names)
     (λ l db', db' = db ∧ normalizeAppPackageSelections names = inr l ∧ (length l ≤ maxRuntimeAppSelections)%nat
               ∧ NoDup l ∧ Forall package_name l ∧ Forall (λ p, app_enabled db p = true) l)
     (λ _ _, True) db.
Proof.
  unfold validRuntimeAppSelectionsTX. destruct (normalizeAppPackageSelections names) as [|l] eqn:E.
  { by rewrite wp_throw. }
  assert (NoDup l ∧ Forall package_name l) as [Hnd Hall].
  { unfold normalizeAppPackageSelections in E. case_match; [done|].
    eapply normalize_packages_spec; [exact E | constructor | constructor]. }
  wp_steps; [done|]. eapply wp_mono; [apply apps_enabled_wp | | done]. intros [] ? [-> HF]. wp_steps.
  split_and!; try done. by apply Nat.ltb_ge.
Qed.

(** ** A concrete database *)

Definition sample_app (recommended : bool) : CatalogApp :=
  MkCatalogApp "fdroid" "App" "" "" "" 1 "" "" 1 21 "" "" "[]" "[]" recommended true 0.
Definition sample_apps : Db :=
  empty_db <| db_runtimes := {["rt" := default_runtime "acct" "stopped" 0]} |>
    <| db_app_catalog := {["org.a" := sample_app false; "org.b" := sample_app true]} |>
    <| db_app_selections := {[("rt", "org.a") := 3; ("other", "org.a") := 4]} |>.

(** ** Properties *)

(** A replaced selection is what was asked for.  When
    [ReplaceRuntimeAppSelections] succeeds the runtime belongs to the account,
    its selection is exactly the normalized names (at most 32, distinct, all
    enabled in the catalog), an app that stays selected keeps its first
    selection time, a new one gets [now], no other runtime's selection changes
    and nothing else of the database does. *)
Theorem ReplaceRuntimeAppSelections_spec now account runtime names db db' apps
  (H : ReplaceRuntimeAppSelections now account runtime names db = (db', inr apps)) :
  ∃ r l, db.(db_runtimes) !! TrimSpace runtime = Some r ∧ runtime_of (TrimSpace account) r = true
  ∧ normalizeAppPackageSelections names = inr l ∧ (length l ≤ 32)%nat ∧ NoDup l
  ∧ Forall (λ p, app_enabled db p = true) l
  ∧ db' = db <| db_app_selections := db'.(db_app_selections) |>
  ∧ selections_written now (TrimSpace runtime) l db.(db_app_selections) db'.(db_app_selections).
Proof.
  eapply (wp_run _ (λ _ db', ∃ r l, _ ∧ _ ∧ _ ∧ _ ∧ _ ∧ _ ∧ _ ∧ _) (λ _ _, True)) in H; [exact H|].
  unfold ReplaceRuntimeAppSelections. cbv zeta. wp_steps; try done.
  match goal with H : negb _ = false |- _ => apply negb_false_iff in H end.
  unfold replaceRuntimeAppSelectionsTX. wp_steps.
  eapply wp_mono; [apply validRuntimeAppSelections_wp | | done].
  intros l ? (-> & Hl & Hlen & Hnd & Hall & Hen).
  destruct (write_selections_run now (TrimSpace runtime) l db) as (t' & Hrun & Ht').
  eapply wp_of_run; [exact Hrun|]. wp_steps. exists a, l. split_and!; try done.
Qed.

Lemma ReplaceRuntimeAppSelections_spec_witness : ∃ db' apps,
  ReplaceRuntimeAppSelections 9 "acct" "rt" ["org.b"; " org.a "] sample_apps = (db', inr apps)
  ∧ db'.(db_app_selections) !! ("rt"%string, "org.a"%string) = Some 3
  ∧ db'.(db_app_selections) !! ("rt"%string, "org.b"%string) = Some 9.
Proof.
  destruct (ReplaceRuntimeAppSelections 9 "acct" "rt" ["org.b"; " org.a "] sample_apps) as [db' [e|apps]] eqn:E.
  { assert (Hr : match (ReplaceRuntimeAppSelections 9 "acct" "rt" ["org.b"; " org.a "] sample_apps).2 with
                 | inl _ => False | inr _ => True end) by (vm_compute; exact I). by rewrite E in Hr. }
  exists db', apps. split; [done|].
  destruct (ReplaceRuntimeAppSelections_spec _ _ _ _ _ _ _ E) as (r & l & _ & _ & Hl & _ & _ & _ & _ & Hw).
  vm_compute in Hl. injection Hl as <-. split; rewrite Hw; vm_compute; reflexivity.
Defined.
