(* ===== verification/Placement.v ===== *)
(** * Choosing a node for a runtime

    Models the placement queries of internal/store/store.go (7378-7650): which
    nodes may run, stop or wipe a runtime.  A node must be trusted by the
    registry, able to run Android, recently heard from and, when the control
    plane provisioned it for one account, that account's.  [FOR UPDATE] and
    [SKIP LOCKED] are not modelled.

    The queries join the registry's tables; what placement relies on from the
    registry is the class [NodeTrust], which [Registry]'s lemmas discharge. *)

From S2P Require Import Prelude.
From S2P Require Import GoLib.
From S2P Require Import Schema.
From S2P Require Import Common.
From S2P Require Import Registry.
From S2P Require Import Provisioning.
Open Scope Z_scope.

(** ** What the registry promises *)

(** [trusts now db node key]: the join [approved_nodes n JOIN node_operators o
    JOIN approved_node_keys k] holds a row for this node and this public key
    that authorizes at [now].  Only keys that may authenticate are trusted, and
    none of a revoked node. *)
Class NodeTrust := {
  trusts : Z → Db → string → string → bool;
  trusts_authorized : ∀ now db node key, trusts now db node key = true →
    ∃ v k, (v, k) ∈ authorized_keys now node db ∧ k.(nk_public_key) = key;
  trusts_revoked : ∀ now db node key, node_revoked node db → trusts now db node key = false
}.

(** ** The queries *)

Section placement.
Context `{Trust : NodeTrust}.

Definition heartbeat_window : Z := 2 * minute_us.

(** The conditions every query shares: trusted, [docker_socket], [binder] and a
    heartbeat in the last two minutes. *)
Definition host_ready (now : Z) (db : Db) (hostID : string) (h : Host) : bool :=
  trusts now db hostID h.(ho_public_key)
  && h.(ho_docker_socket) && h.(ho_binder) && (now - heartbeat_window <=? h.(ho_last_heartbeat_at)).

(** What the runtime needs of its node.  The queries can also ask for a camera;
    both callers ask for none. *)
Definition requireFiles (r : Runtime) : bool :=
  EqualFold r.(rt_file_mode) "upload-only" || EqualFold r.(rt_file_mode) "bidirectional".
Definition requireCamera : bool := false.

Definition cameras_in_use (db : Db) (hostID runtimeID : string) : Z :=
  Z.of_nat (count_where (λ id r, null_eqb r.(rt_host_id) hostID && negb (id =?s runtimeID) && rt_live r
    && (r.(rt_desired_state) =?s "running") && (r.(rt_camera_mode) =?s "passthrough")) db.(db_runtimes)).

Definition host_suits (db : Db) (runtimeID : string) (r : Runtime) (hostID : string) (h : Host) : bool :=
  (negb r.(rt_audio_enabled) || h.(ho_audio_streaming))
  && (negb (requireFiles r) || h.(ho_file_import))
  && (negb requireCamera || h.(ho_camera_passthrough) && (cameras_in_use db hostID runtimeID <? h.(ho_camera_slots))).

(** [COALESCE((SELECT runtime_region FROM accounts WHERE id = a), '')]. *)
Definition account_region (db : Db) (accountID : string) : string :=
  coalesce (ac_runtime_region <$> db.(db_accounts) !! accountID) "".

(** [ORDER BY last_heartbeat_at DESC LIMIT 1]. *)
Definition newest_host (p : string → Host → bool) (db : Db) : option string :=
  fst <$> head (order_by (λ x y : string * Host, y.2.(ho_last_heartbeat_at) <=? x.2.(ho_last_heartbeat_at))
                  (select p db.(db_hosts))).

Definition requireReadyRuntimeHostTX (now : Z) (hostID runtimeID : string) (r : Runtime) : Tx string :=
  let hostID := TrimSpace hostID in
  refuse_if (hostID =?s "") ErrNoReadyHost;;
  db ← gets id;
  h ← require (db.(db_hosts) !! hostID) ErrNoReadyHost;
  refuse_if (negb (host_ready now db hostID h && host_suits db runtimeID r hostID h
                   && provisionedHostServesAccount db hostID r.(rt_account_id))) ErrNoReadyHost;;
  mret hostID.

(** The nodes a new placement chooses from. *)
Definition placeable (now : Z) (db : Db) (runtimeID : string) (r : Runtime) (hostID : string) (h : Host) : bool :=
  host_ready now db hostID h && host_suits db runtimeID r hostID h
  && (h.(ho_region) =?s account_region db r.(rt_account_id))
  && provisionedHostServesAccount db hostID r.(rt_account_id).

(** [if err == nil return; if err != ErrNoReadyHost return err]. *)
Definition unless_ready {A} (m alternative : Tx A) : Tx A := λ db,
  match m db with
  | (db', inl e) => if bool_decide (e = ErrNoReadyHost) then alternative db' else (db', inl e)
  | res => res
  end.

Definition pickReadyRuntimeHostTX (now : Z) (preferredHostID runtimeID : string) (r : Runtime) : Tx string :=
  let query := (db ← gets id; require (newest_host (placeable now db runtimeID r) db) ErrNoReadyHost) in
  if TrimSpace preferredHostID =?s "" then query
  else unless_ready (requireReadyRuntimeHostTX now preferredHostID runtimeID r) query.

Definition runtimeUsesNodeLocalBlob (r : Runtime) : bool :=
  if valueOrEmpty r.(rt_blob_manifest_json) =?s "" then false
  else let kind := ToLower (valueOrEmpty r.(rt_blob_store_kind)) in (kind =?s "") || (kind =?s "local-disk").

Definition runtimeStartHostTX (now : Z) (runtimeID : string) (r : Runtime) : Tx string :=
  let currentHostID := valueOrEmpty r.(rt_host_id) in
  if negb (currentHostID =?s "") then pickReadyRuntimeHostTX now currentHostID runtimeID r
  else if runtimeUsesNodeLocalBlob r then
    let blobHostID := valueOrEmpty r.(rt_blob_host_id) in
    refuse_if (blobHostID =?s "") ErrRuntimeBlobOwner;;
    requireReadyRuntimeHostTX now blobHostID runtimeID r
  else pickReadyRuntimeHostTX now "" runtimeID r.

Definition cleanup_candidate (now : Z) (db : Db) (accountID : string) (hostID : string) (h : Host) : bool :=
  host_ready now db hostID h && (h.(ho_region) =?s account_region db accountID)
  && provisionedHostServesAccount db hostID accountID.

Definition pickCleanupHostTX (now : Z) (r : Runtime) : Tx string :=
  db ← gets id;
  require (newest_host (cleanup_candidate now db r.(rt_account_id)) db) ErrNoReadyHost.

Definition runtimeCleanupHostTX (now : Z) (r : Runtime) : Tx string :=
  let currentHostID := valueOrEmpty r.(rt_host_id) in
  if negb (currentHostID =?s "") then mret currentHostID
  else
    let blobHostID := valueOrEmpty r.(rt_blob_host_id) in
    if negb (blobHostID =?s "") then mret blobHostID
    else if runtimeUsesNodeLocalBlob r then throw ErrRuntimeBlobOwner
    else pickCleanupHostTX now r.

Definition requireReadyHostTX (now : Z) (hostID : string) : Tx string :=
  let hostID := TrimSpace hostID in
  refuse_if (hostID =?s "") ErrNoReadyHost;;
  db ← gets id;
  h ← require (db.(db_hosts) !! hostID) ErrNoReadyHost;
  refuse_if (negb (host_ready now db hostID h)) ErrNoReadyHost;;
  mret hostID.

Definition getBlobKeyHostTX (now : Z) (hostID : string) : Tx (string * Host) :=
  let hostID := TrimSpace hostID in
  db ← gets id;
  h ← require (db.(db_hosts) !! hostID) ErrHostNotFound;
  refuse_if (negb (trusts now db hostID h.(ho_public_key))) ErrHostNotFound;;
  mret (hostID, h).

(** ** Facts *)

(** A node that may receive a runtime of the account. *)
Definition may_serve (now : Z) (db : Db) (runtimeID : string) (r : Runtime) (hostID : string) (h : Host) : Prop :=
  db.(db_hosts) !! hostID = Some h ∧ host_ready now db hostID h = true ∧ host_suits db runtimeID r hostID h = true
  ∧ provisionedHostServesAccount db hostID r.(rt_account_id) = true.

Lemma newest_host_Some p db id :
  newest_host p db = Some id →
  ∃ h, db.(db_hosts) !! id = Some h ∧ p id h = true
       ∧ ∀ id' h', db.(db_hosts) !! id' = Some h' → p id' h' = true →
                   h'.(ho_last_heartbeat_at) ≤ h.(ho_last_heartbeat_at).
Proof.
  unfold newest_host. intros ([id0 h] & Hhd & ->)%fmap_Some. cbn [fst].
  set (le := λ x y : string * Host, y.2.(ho_last_heartbeat_at) <=? x.2.(ho_last_heartbeat_at)) in *.
  assert (Hs : StronglySorted (λ x y, le x y = true) (order_by le (select p db.(db_hosts)))).
  { apply order_by_sorted; unfold le; intros; rewrite ?Z.leb_le in *; lia. }
  destruct (order_by le (select p db.(db_hosts))) as [|x l] eqn:E; [done|]. cbn in Hhd. injection Hhd as ->.
  assert (Hin : ∀ y, y ∈ select p db.(db_hosts) → y ∈ (id0, h) :: l).
  { intros y Hy. rewrite <-E. by apply elem_of_order_by. }
  assert ((id0, h) ∈ select p db.(db_hosts)) as [Hid Hp]%elem_of_select.
  { apply (elem_of_order_by le). rewrite E. left. }
  exists h. split_and!; try done. intros id' h' Hid' Hp'.
  assert ((id', h') ∈ (id0, h) :: l) as Hmem by (apply Hin, elem_of_select; done).
  apply StronglySorted_inv in Hs as [_ Hall]. rewrite Forall_forall in Hall.
  apply elem_of_cons in Hmem as [[= -> ->]|Hl]; [lia|]. specialize (Hall _ Hl). unfold le in Hall. cbn in Hall. lia.
Qed.

Lemma newest_host_None p db :
  newest_host p db = None ↔ ∀ id h, db.(db_hosts) !! id = Some h → p id h = false.
Proof.
  unfold newest_host. split.
  - intros H id h Hh. destruct (p id h) eqn:Ep; [|done]. exfalso.
    assert ((id, h) ∈ select p db.(db_hosts)) as Hin by (by apply elem_of_select).
    apply (elem_of_order_by (λ x y : string * Host, y.2.(ho_last_heartbeat_at) <=? x.2.(ho_last_heartbeat_at))) in Hin.
    destruct (order_by _ _); [by apply not_elem_of_nil in Hin | done].
  - intros Hf. by rewrite (select_nil _ _ Hf).
Qed.

Lemma requireReadyRuntimeHost_run now hostID rid r db :
  (∃ h, may_serve now db rid r (TrimSpace hostID) h ∧ TrimSpace hostID ≠ ""%string
        ∧ requireReadyRuntimeHostTX now hostID rid r db = (db, inr (TrimSpace hostID)))
  ∨ (TrimSpace hostID = ""%string ∨ ∀ h, ¬ may_serve now db rid r (TrimSpace hostID) h)
    ∧ requireReadyRuntimeHostTX now hostID rid r db = (db, inl ErrNoReadyHost).
Proof.
  unfold requireReadyRuntimeHostTX, may_serve, mbind, M_bind, gets, refuse_if, require, mret, M_ret, throw. cbv zeta.
  destruct (TrimSpace hostID =?s "") eqn:Ee.
  { right. apply str_eqb_eq in Ee. eauto. }
  apply str_eqb_neq in Ee. unfold Datatypes.id.
  destruct (db.(db_hosts) !! TrimSpace hostID) as [h|] eqn:Eh.
  2:{ right. split; [right; by intros h [? _] | done]. }
  destruct (_ && _ && _) eqn:Eok; cbn [negb].
  - left. exists h. apply andb_true_iff in Eok as [[? ?]%andb_true_iff ?]. split_and!; done.
  - right. split; [|done]. right. intros h' (E' & H1 & H2 & H3). simplify_eq. by rewrite H1, H2, H3 in Eok.
Qed.
End placement.

(** The registry keeps its promise. *)
Definition registry_trusts (now : Z) (db : Db) (node key : string) : bool :=
  match db.(db_nodes) !! node with
  | None => false
  | Some n =>
    match db.(db_operators) !! n.(nd_operator_id) with
    | None => false
    | Some op =>
      (n.(nd_status) =?s "approved") && (op.(op_status) =?s "approved")
      && exists_where (λ nk k, (nk.1 =?s node) && (k.(nk_public_key) =?s key) && authorizes now n nk.2 k) db.(db_node_keys)
    end
  end.

#[export] Program Instance registry_trust : NodeTrust := {| trusts := registry_trusts |}.
Next Obligation.
  intros now db node key H. unfold registry_trusts in H.
  destruct (db.(db_nodes) !! node) as [n|] eqn:En; [|done].
  destruct (db.(db_operators) !! n.(nd_operator_id)) as [op|] eqn:Eo; [|done].
  apply andb_true_iff in H as [[Hn%str_eqb_eq Ho%str_eqb_eq]%andb_true_iff ([node' v] & k & Hk & Hp)%exists_where_true].
  apply andb_true_iff in Hp as [[Hnode%str_eqb_eq Hkey%str_eqb_eq]%andb_true_iff Ha]. cbn in Hnode, Ha. subst node'.
  exists v, k. split; [|done]. apply authorized_keys_inv. exists n, op. split_and!; try done.
Qed.
Next Obligation.
  intros now db node key (n & Hn & Hr). unfold registry_trusts. rewrite Hn.
  destruct (db.(db_operators) !! n.(nd_operator_id)); [|done]. rewrite Hr. done.
Qed.

(** ** Properties *)

Section placed.
Context `{Trust : NodeTrust}.

(** The node's key is one that may authenticate now, and the node is not
    revoked. *)
Definition trusted_node (now : Z) (db : Db) (hostID : string) (h : Host) : Prop :=
  (∃ v k, (v, k) ∈ authorized_keys now hostID db ∧ k.(nk_public_key) = h.(ho_public_key))
  ∧ ¬ node_revoked hostID db.

Lemma host_ready_trusted now db hostID h : host_ready now db hostID h = true → trusted_node now db hostID h.
Proof.
  unfold host_ready. intros Hr. apply andb_true_iff in Hr as [[[Ht _]%andb_true_iff _]%andb_true_iff _].
  split; [by apply trusts_authorized|]. intros Hrev. by rewrite (trusts_revoked _ _ _ _ Hrev) in Ht.
Qed.

Lemma may_serve_trusted now db rid r hostID h : may_serve now db rid r hostID h → trusted_node now db hostID h.
Proof. intros (_ & Hr & _). by apply host_ready_trusted. Qed.

Lemma placeable_may_serve now db rid r hostID h :
  db.(db_hosts) !! hostID = Some h →
  placeable now db rid r hostID h = true ↔
  may_serve now db rid r hostID h ∧ h.(ho_region) = account_region db r.(rt_account_id).
Proof.
  intros Hh. unfold placeable, may_serve. rewrite !andb_true_iff, str_eqb_eq. tauto.
Qed.

(** The host a pick ends with: the preferred one if it can serve, else the most
    recently heard of those that can in the account's region. *)
Definition picked (now : Z) (db : Db) (preferred rid : string) (r : Runtime) (hostID : string) : Prop :=
  ∃ h, may_serve now db rid r hostID h ∧ trusted_node now db hostID h
  ∧ (hostID = TrimSpace preferred
     ∨ (TrimSpace preferred = ""%string ∨ ∀ h', ¬ may_serve now db rid r (TrimSpace preferred) h')
       ∧ h.(ho_region) = account_region db r.(rt_account_id)
       ∧ ∀ id' h', may_serve now db rid r id' h' → h'.(ho_region) = account_region db r.(rt_account_id) →
                   h'.(ho_last_heartbeat_at) ≤ h.(ho_last_heartbeat_at)).

(** No node can take the runtime: not the preferred one, nor any in the
    account's region. *)
Definition unplaceable (now : Z) (db : Db) (preferred rid : string) (r : Runtime) : Prop :=
  (TrimSpace preferred = ""%string ∨ ∀ h, ¬ may_serve now db rid r (TrimSpace preferred) h)
  ∧ ∀ id h, may_serve now db rid r id h → h.(ho_region) ≠ account_region db r.(rt_account_id).

Lemma placement_query now preferred rid r db :
  (TrimSpace preferred = ""%string ∨ ∀ h, ¬ may_serve now db rid r (TrimSpace preferred) h) →
  match newest_host (placeable now db rid r) db with
  | Some hostID => picked now db preferred rid r hostID
  | None => unplaceable now db preferred rid r
  end.
Proof.
  intros Hpref. destruct (newest_host _ db) as [hostID|] eqn:E.
  - apply newest_host_Some in E as (h & Hh & Hp & Hnew). apply placeable_may_serve in Hp as [Hs Hreg]; [|done].
    exists h. split; [done|]. split; [by eapply may_serve_trusted|]. right. split_and!; [done | done |].
    intros id' h' Hs' Hreg'. apply (Hnew id'); [apply Hs'|]. apply placeable_may_serve; [apply Hs' | done].
  - split; [done|]. intros id' h' Hs' Hreg'. rewrite newest_host_None in E.
    assert (placeable now db rid r id' h' = true) as Hp by (apply placeable_may_serve; [apply Hs' | done]).
    rewrite E in Hp; [done | apply Hs'].
Qed.

(** Every run of a pick. *)
Lemma pickReadyRuntimeHost_run now preferred rid r db :
  match pickReadyRuntimeHostTX now preferred rid r db with
  | (db', inr hostID) => db' = db ∧ picked now db preferred rid r hostID
  | (db', inl e) => db' = db ∧ e = ErrNoReadyHost ∧ unplaceable now db preferred rid r
  end.
Proof.
  unfold pickReadyRuntimeHostTX, unless_ready. cbv zeta.
  assert (Hquery : (TrimSpace preferred = ""%string ∨ ∀ h, ¬ may_serve now db rid r (TrimSpace preferred) h) →
    match (db ← gets Datatypes.id; require (newest_host (placeable now db rid r) db) ErrNoReadyHost : Tx string) db with
    | (db', inr hostID) => db' = db ∧ picked now db preferred rid r hostID
    | (db', inl e) => db' = db ∧ e = ErrNoReadyHost ∧ unplaceable now db preferred rid r
    end).
  { intros Hp%placement_query. unfold mbind, M_bind, gets, require, Datatypes.id. by destruct (newest_host _ db). }
  destruct (TrimSpace preferred =?s "") eqn:Ep.
  { apply Hquery. left. by apply str_eqb_eq. }
  destruct (requireReadyRuntimeHost_run now preferred rid r db) as [(h & Hs & _ & ->)|[Hno ->]].
  - split; [done|]. exists h. split; [done|]. split; [by eapply may_serve_trusted | by left].
  - rewrite bool_decide_eq_true_2 by done. by apply Hquery.
Qed.

(** The same for a node the caller requires, and for the start of a runtime. *)
Lemma requireReadyRuntimeHost_ok now hostID rid r db db' found :
  requireReadyRuntimeHostTX now hostID rid r db = (db', inr found) →
  db' = db ∧ ∃ h, may_serve now db rid r found h ∧ trusted_node now db found h.
Proof.
  destruct (requireReadyRuntimeHost_run now hostID rid r db) as [(h & Hs & _ & ->)|[_ ->]]; intros [= <- <-].
  split; [done|]. exists h. split; [done | by eapply may_serve_trusted].
Qed.
(** Placement picks only nodes that may serve the runtime.  A pick
    changes nothing; a returned node is registered with a key that may
    authenticate now and is not revoked, runs Docker and binder, was heard from
    in the last two minutes, has what the runtime needs and, if provisioned for
    one account, is this account's; it is the preferred node when that one
    qualifies, otherwise the most recently heard node of the account's region.
    The only error is [ErrNoReadyHost], returned exactly when no node qualifies.
    A node picked to clean up is trusted, in the region and the account's too. *)
Theorem placement_spec now preferred rid r db :
  match pickReadyRuntimeHostTX now preferred rid r db with
  | (db', inr hostID) => db' = db ∧ picked now db preferred rid r hostID
  | (db', inl e) => db' = db ∧ e = ErrNoReadyHost ∧ unplaceable now db preferred rid r
  end
  ∧ match pickCleanupHostTX now r db with
    | (db', inr hostID) => db' = db ∧ ∃ h, db.(db_hosts) !! hostID = Some h ∧ trusted_node now db hostID h
        ∧ h.(ho_region) = account_region db r.(rt_account_id)
        ∧ provisionedHostServesAccount db hostID r.(rt_account_id) = true
    | (db', inl e) => db' = db ∧ e = ErrNoReadyHost
        ∧ ∀ id h, db.(db_hosts) !! id = Some h → cleanup_candidate now db r.(rt_account_id) id h = false
    end.
Proof.
  split; [apply pickReadyRuntimeHost_run|].
  unfold pickCleanupHostTX, mbind, M_bind, gets, require, Datatypes.id.
  destruct (newest_host _ db) as [hostID|] eqn:E; cbn.
  - split; [done|]. apply newest_host_Some in E as (h & Hh & Hc & _). exists h. split; [done|].
    unfold cleanup_candidate in Hc. apply andb_true_iff in Hc as [[Hr Hreg%str_eqb_eq]%andb_true_iff Hs].
    split_and!; [by apply host_ready_trusted | done | done].
  - split_and!; [done | done | by apply newest_host_None].
Qed.
End placed.
