(* ===== verification/Profiles.v ===== *)
(** * Runtime profiles

    Models how internal/store/store.go checks and completes what a client asks
    for when it creates a runtime or changes its settings (1794-1890,
    8262-8500) and runtime_idle.go: display, media, egress, inactivity period
    and the sealed region.  [int] values are unbounded integers. *)

From Stdlib Require Import Ascii.
From S2P Require Import Prelude.
From S2P Require Import GoLib.
From S2P Require Import Codec.
From S2P Require Import Schema.
From S2P Require Import Common.
Open Scope Z_scope.

(** ** Android versions and inactivity periods *)

Definition defaultAndroidImage : string := "redroid/redroid:14.0.0_64only-latest".
Definition defaultRuntimeAndroidVersion : string := "android-14".
Definition runtimeAndroidImages : list (string * string) :=
  [("android-14", defaultAndroidImage); ("android-16", "redroid/redroid:16.0.0_64only-250627")]%string.

(** [runtimeAndroidImages[version]]. *)
Definition android_image (version : string) : option string :=
  snd <$> List.find (λ p, p.1 =?s version) runtimeAndroidImages.

(** [runtimeAndroidVersion] is the store's setting, "" until
    [SetRuntimeAndroidVersion] ran. *)
Definition SetRuntimeAndroidVersion (version : string) : Err + string :=
  if is_null (android_image version) then inl (ErrText ("unknown runtime Android version " +:+ version)) else inr version.
Definition deployedAndroidVersion (runtimeAndroidVersion : string) : string :=
  if runtimeAndroidVersion =?s "" then defaultRuntimeAndroidVersion else runtimeAndroidVersion.

Definition RuntimeIdleTimeouts : list Z :=
  [30 * 60; 60 * 60; 3 * 60 * 60; 6 * 60 * 60; 8 * 60 * 60; 12 * 60 * 60; 24 * 60 * 60;
   3 * 24 * 60 * 60; 7 * 24 * 60 * 60].
Definition DefaultRuntimeIdleTimeout : Z := 30 * 60.
Definition validRuntimeIdleTimeout (seconds : Z) : bool :=
  existsb (λ allowed, seconds =? allowed) RuntimeIdleTimeouts.

(** ** Inputs *)

Record CreateRuntimeInput := MkCreateRuntimeInput {
  ci_Name : string;
  ci_AndroidImage : string;
  ci_AndroidVersion : string;
  ci_WidthPx : Z;
  ci_HeightPx : Z;
  ci_DensityDpi : Z;
  ci_AudioEnabled : bool;
  ci_AudioEnabledSet : bool;
  ci_CameraMode : string;
  ci_FileMode : string;
  ci_BlobAutoSnapshot : bool;
  ci_BlobRetainDays : Z;
  ci_AppPackages : list string;
  ci_IdleTimeoutSeconds : Z;
  ci_EgressMode : string
}.
#[export] Instance CreateRuntimeInput_eta : Eta CreateRuntimeInput :=
  λ r, MkCreateRuntimeInput (r.(ci_Name)) (r.(ci_AndroidImage)) (r.(ci_AndroidVersion)) (r.(ci_WidthPx))
    (r.(ci_HeightPx)) (r.(ci_DensityDpi)) (r.(ci_AudioEnabled)) (r.(ci_AudioEnabledSet))
    (r.(ci_CameraMode)) (r.(ci_FileMode)) (r.(ci_BlobAutoSnapshot)) (r.(ci_BlobRetainDays))
    (r.(ci_AppPackages)) (r.(ci_IdleTimeoutSeconds)) (r.(ci_EgressMode)).

Record UpdateRuntimeInput := MkUpdateRuntimeInput {
  ui_Name : option string;
  ui_AndroidImage : option string;
  ui_AndroidVersion : option string;
  ui_WidthPx : option Z;
  ui_HeightPx : option Z;
  ui_DensityDpi : option Z;
  ui_AudioEnabled : option bool;
  ui_CameraMode : option string;
  ui_FileMode : option string;
  ui_BlobAutoSnapshot : option bool;
  ui_BlobRetainDays : option Z;
  ui_IdleTimeoutSeconds : option Z;
  ui_EgressMode : option string;
  ui_RegionSealed : option string
}.

(** ** Checks *)

Definition validateClientAndroidImage (image : string) : Tx unit :=
  let image := TrimSpace image in
  refuse_if (negb ((image =?s "") || existsb (λ known, image =?s known.2) runtimeAndroidImages)) ErrRuntimeProfile.

Definition validateClientAndroidVersion (version : string) : Tx unit :=
  let version := TrimSpace version in
  refuse_if (negb (version =?s "") && is_null (android_image version)) ErrRuntimeProfile.

(** The conditions of [validateRuntimeProfile]; Go's [%] on positive numbers. *)
Definition profile_ok (version : string) (width height density : Z) (camera files : string) : bool :=
  not_null (android_image version)
  && (480 <=? width) && (width <=? 1600) && (480 <=? height) && (height <=? 1600)
  && (width mod 8 =? 0) && (height mod 8 =? 0)
  && (240 <=? density) && (density <=? 640) && (density mod 20 =? 0)
  && ((camera =?s "disabled") || (camera =?s "photo-import"))
  && (files =?s "upload-only").

Definition validateRuntimeProfile (i : CreateRuntimeInput) : Tx unit :=
  refuse_if (negb (profile_ok i.(ci_AndroidVersion) i.(ci_WidthPx) i.(ci_HeightPx) i.(ci_DensityDpi)
                     i.(ci_CameraMode) i.(ci_FileMode))) ErrRuntimeProfile.

Definition normalizeEgressMode (value : string) : Tx string :=
  let mode := ToLower (TrimSpace value) in
  if mode =?s "" then mret "direct"%string
  else if (mode =?s "direct") || (mode =?s "tor") then mret mode
  else throw ErrRuntimeEgressMode.

Definition cameraModes : list string := ["disabled"; "photo-import"]%string.
Definition fileModes : list string := ["upload-only"; "download-only"; "bidirectional"]%string.

(** [if x <= 0 { x = d }]. *)
Definition positive_or (x d : Z) : Z := if x <=? 0 then d else x.

Definition normalizedCreateInput (input : CreateRuntimeInput) (androidVersion : string) : Tx CreateRuntimeInput :=
  let input := if TrimSpace input.(ci_Name) =?s "" then input <| ci_Name := "My runtime"%string |> else input in
  let input := if input.(ci_IdleTimeoutSeconds) =? 0
               then input <| ci_IdleTimeoutSeconds := DefaultRuntimeIdleTimeout |> else input in
  refuse_if (negb (validRuntimeIdleTimeout input.(ci_IdleTimeoutSeconds))) ErrRuntimeIdleTimeout;;
  egressMode ← normalizeEgressMode input.(ci_EgressMode);
  validateClientAndroidImage input.(ci_AndroidImage);;
  validateClientAndroidVersion input.(ci_AndroidVersion);;
  let input := input <| ci_EgressMode := egressMode |>
    <| ci_AndroidVersion := androidVersion |> <| ci_AndroidImage := coalesce (android_image androidVersion) ""%string |>
    <| ci_WidthPx ::= (λ x, positive_or x 720) |> <| ci_HeightPx ::= (λ x, positive_or x 1600) |>
    <| ci_DensityDpi ::= (λ x, positive_or x 320) |>
    <| ci_AudioEnabled := (if input.(ci_AudioEnabledSet) then input.(ci_AudioEnabled) else true) |>
    <| ci_CameraMode ::= (λ c, normalizeChoice c "photo-import" cameraModes) |>
    <| ci_FileMode ::= (λ f, normalizeChoice f "upload-only" fileModes) |>
    <| ci_BlobAutoSnapshot := true |>
    <| ci_BlobRetainDays ::= (λ d, positive_or d 7) |> in
  validateRuntimeProfile input;;
  mret input.

(** ** The sealed region *)

Definition sealedRegionMagic : list N := [86; 82; 84; 82; 69; 71; 49; 10]%N.
Definition maxSealedRegionBytes : Z := 2048.

(** [RawURLEncoding.EncodedLen]. *)
Definition encoded_len (n : Z) : Z := n / 3 * 4 + (n mod 3 * 8 + 5) / 6.

Definition validRegionSealed (value : string) : bool :=
  if encoded_len maxSealedRegionBytes <? str_len value then false
  else match raw_url_decode value with
       | None => false
       | Some sealed => (length sealedRegionMagic + 12 + 16 <=? length sealed)%nat
                        && bool_decide (take (length sealedRegionMagic) sealed = sealedRegionMagic)
       end.

(** ** Settings *)

(** The row with the requested settings, or the first refusal; [current] is the
    row as read. *)
Definition changed_settings (androidVersion : string) (current : Runtime) (input : UpdateRuntimeInput) : Tx Runtime :=
  match input.(ui_AndroidImage) with Some image => validateClientAndroidImage image | None => mret tt end;;
  match input.(ui_AndroidVersion) with Some version => validateClientAndroidVersion version | None => mret tt end;;
  let camera := match input.(ui_CameraMode) with
                | Some c => normalizeChoice c current.(rt_camera_mode) cameraModes | None => current.(rt_camera_mode) end in
  let files := match input.(ui_FileMode) with
               | Some f => normalizeChoice f current.(rt_file_mode) fileModes | None => current.(rt_file_mode) end in
  let audio := coalesce input.(ui_AudioEnabled) current.(rt_audio_enabled) in
  let stopped := EqualFold (TrimSpace current.(rt_desired_state)) "stopped" in
  let mediaSettingsChanged := negb (Bool.eqb audio current.(rt_audio_enabled))
    || negb (camera =?s current.(rt_camera_mode)) || negb (files =?s current.(rt_file_mode)) in
  refuse_if (mediaSettingsChanged && negb stopped) ErrRuntimeMediaSettingsActive;;
  egress ← match input.(ui_EgressMode) with
           | Some mode => normalizeEgressMode mode
           | None => mret current.(rt_egress_mode)
           end;
  refuse_if (negb (egress =?s current.(rt_egress_mode)) && negb stopped) ErrRuntimeEgressActive;;
  let sealed := match input.(ui_RegionSealed) with
                | Some s => let s := TrimSpace s in if s =?s "" then None else Some s
                | None => current.(rt_region_sealed) end in
  refuse_if (match input.(ui_RegionSealed) with
             | Some s => negb (TrimSpace s =?s "") && negb (validRegionSealed (TrimSpace s)) | None => false end)
    ErrRuntimeRegion;;
  refuse_if (match input.(ui_IdleTimeoutSeconds) with Some t => negb (validRuntimeIdleTimeout t) | None => false end)
    ErrRuntimeIdleTimeout;;
  let positive := (λ (o : option Z) (old : Z), match o with Some x => if 0 <? x then x else old | None => old end) in
  let width := positive input.(ui_WidthPx) current.(rt_width_px) in
  let height := positive input.(ui_HeightPx) current.(rt_height_px) in
  let density := positive input.(ui_DensityDpi) current.(rt_density_dpi) in
  refuse_if (negb (profile_ok androidVersion width height density camera files)) ErrRuntimeProfile;;
  mret (current
    <| rt_name := match input.(ui_Name) with Some n => defaultString n current.(rt_name) | None => current.(rt_name) end |>
    <| rt_android_image := coalesce (android_image androidVersion) ""%string |> <| rt_android_version := androidVersion |>
    <| rt_width_px := width |> <| rt_height_px := height |> <| rt_density_dpi := density |>
    <| rt_audio_enabled := audio |> <| rt_camera_mode := camera |> <| rt_file_mode := files |>
    <| rt_blob_auto_snapshot := coalesce input.(ui_BlobAutoSnapshot) current.(rt_blob_auto_snapshot) |>
    <| rt_blob_retain_days := positive input.(ui_BlobRetainDays) current.(rt_blob_retain_days) |>
    <| rt_idle_timeout_seconds := coalesce input.(ui_IdleTimeoutSeconds) current.(rt_idle_timeout_seconds) |>
    <| rt_egress_mode := egress |> <| rt_region_sealed := sealed |>).

#[global] Arguments android_image : simpl never.
#[global] Arguments profile_ok : simpl never.
#[global] Arguments validRuntimeIdleTimeout : simpl never.

(** ** Facts *)

(** A runtime row whose profile the store accepts. *)
Definition profiled (r : Runtime) : Prop :=
  profile_ok r.(rt_android_version) r.(rt_width_px) r.(rt_height_px) r.(rt_density_dpi)
    r.(rt_camera_mode) r.(rt_file_mode) = true
  ∧ Some r.(rt_android_image) = android_image r.(rt_android_version)
  ∧ validRuntimeIdleTimeout r.(rt_idle_timeout_seconds) = true
  ∧ (r.(rt_egress_mode) = "direct"%string ∨ r.(rt_egress_mode) = "tor"%string).

Lemma normalizeEgressMode_wp value (s : Db) :
  wp (normalizeEgressMode value) (λ m s', s' = s ∧ (m = "direct"%string ∨ m = "tor"%string))
     (λ e s', s' = s ∧ e = ErrRuntimeEgressMode) s.
Proof.
  unfold normalizeEgressMode. cbv zeta. destruct (_ =?s ""); [rewrite wp_ret; auto|].
  destruct (_ || _) eqn:E; [rewrite wp_ret | by rewrite wp_throw].
  split; [done|]. apply orb_true_iff in E as [E%str_eqb_eq|E%str_eqb_eq]; rewrite E; auto.
Qed.

Lemma profile_ok_image version w h d c f : profile_ok version w h d c f = true → is_Some (android_image version).
Proof. unfold profile_ok, not_null, is_null. intros H. destruct (android_image version); [eauto | done]. Qed.

(** A completed input makes a profiled row. *)
Definition input_profiled (i : CreateRuntimeInput) : Prop :=
  profile_ok i.(ci_AndroidVersion) i.(ci_WidthPx) i.(ci_HeightPx) i.(ci_DensityDpi) i.(ci_CameraMode) i.(ci_FileMode) = true
  ∧ Some i.(ci_AndroidImage) = android_image i.(ci_AndroidVersion)
  ∧ validRuntimeIdleTimeout i.(ci_IdleTimeoutSeconds) = true
  ∧ (i.(ci_EgressMode) = "direct"%string ∨ i.(ci_EgressMode) = "tor"%string).

Lemma normalizedCreateInput_wp input version (s : Db) :
  wp (normalizedCreateInput input version) (λ i s', s' = s ∧ input_profiled i) (λ _ s', s' = s) s.
Proof.
  unfold normalizedCreateInput. cbv zeta. set (i0 := if TrimSpace _ =?s "" then _ else _).
  set (i := if ci_IdleTimeoutSeconds i0 =? 0 then _ else i0). clearbody i. wp_steps; [done|].
  eapply wp_mono; [apply normalizeEgressMode_wp | | by intros ? ? [-> _]]. intros egress ? [-> Hegress].
  unfold validateClientAndroidImage, validateClientAndroidVersion, validateRuntimeProfile. wp_steps; try done.
  split; [done|].
  repeat match goal with Hneg : negb _ = false |- _ => apply negb_false_iff in Hneg end.
  match goal with Hp : profile_ok _ _ _ _ _ _ = true |- _ => pose proof (profile_ok_image _ _ _ _ _ _ Hp) as [im Him] end.
  cbn in Him. split_and!; cbn; try done. by rewrite Him.
Qed.

(** Settings keep a profiled row profiled and change neither its owner nor its
    state; media and egress change only while it is stopped. *)
Definition settings_changed (androidVersion : string) (r r' : Runtime) : Prop :=
  r'.(rt_android_version) = androidVersion
  ∧ (profiled r → profiled r')
  ∧ (EqualFold (TrimSpace r.(rt_desired_state)) "stopped" = false →
     r'.(rt_audio_enabled) = r.(rt_audio_enabled) ∧ r'.(rt_camera_mode) = r.(rt_camera_mode)
     ∧ r'.(rt_file_mode) = r.(rt_file_mode) ∧ r'.(rt_egress_mode) = r.(rt_egress_mode))
  ∧ (∀ s, r'.(rt_region_sealed) = Some s → r.(rt_region_sealed) = Some s ∨ validRegionSealed s = true).

Lemma changed_settings_wp version current input (s : Db) :
  wp (changed_settings version current input)
     (λ r' s', s' = s ∧ settings_changed version current r') (λ _ s', s' = s) s.
Proof.
  unfold changed_settings, validateClientAndroidImage, validateClientAndroidVersion. cbv zeta.
  set (camera := match ui_CameraMode input with Some _ => _ | None => _ end).
  set (files := match ui_FileMode input with Some _ => _ | None => _ end).
  set (audio := coalesce (ui_AudioEnabled input) _).
  set (stopped := EqualFold _ "stopped"). clearbody camera files audio.
  rewrite wp_bind. eapply (wp_mono _ (λ _ s', s' = s) _ (λ _ s', s' = s)); [by destruct (ui_AndroidImage input); wp_steps | | done].
  intros _ ? ->. rewrite wp_bind.
  eapply (wp_mono _ (λ _ s', s' = s) _ (λ _ s', s' = s)); [by destruct (ui_AndroidVersion input); wp_steps | | done].
  intros _ ? ->. wp_steps; [done|]. rename H into Hmedia.
  eapply (wp_mono _ (λ m s', s' = s ∧ (m = "direct"%string ∨ m = "tor"%string ∨ m = rt_egress_mode current)) _ (λ _ s', s' = s)).
  { destruct (ui_EgressMode input); [|rewrite wp_ret; auto].
    eapply wp_mono; [apply normalizeEgressMode_wp | | by intros ? ? [-> _]]. intros m ? [-> [->| ->]]; auto. }
  2: done.
  intros egress ? [-> Hegress]. wp_steps; try done. split; [done|]. rename H into Heg, H0 into Hseal, H1 into Hidle, H2 into Hprof.
  apply negb_false_iff in Hprof. destruct (profile_ok_image _ _ _ _ _ _ Hprof) as [im Him].
  split; [done|]. split_and!.
  - intros (_ & _ & Hi & He). split_and!; cbn; [done | by rewrite Him | | intuition congruence].
    destruct (ui_IdleTimeoutSeconds input); [by apply negb_false_iff in Hidle | done].
  - intros Hst. fold stopped in Hst. rewrite Hst in Hmedia, Heg. cbn in *. rewrite andb_true_r in Hmedia, Heg.
    apply orb_false_iff in Hmedia as [[Ha Hc]%orb_false_iff Hf]. apply negb_false_iff in Ha, Hc, Hf, Heg.
    apply Bool.eqb_prop in Ha. apply str_eqb_eq in Hc, Hf, Heg. done.
  - cbn. intros z Hz. destruct (ui_RegionSealed input) as [v|]; [|by left].
    destruct (TrimSpace v =?s ""); [done|]. injection Hz as <-. right. cbn in Hseal. by apply negb_false_iff in Hseal.
Qed.
