(* ===== verification/Devices.v ===== *)
(** * Accounts' devices

    Models internal/store/store.go on devices: opening an account with its
    first device, through an invitation or not (952-1175), listing and revoking
    devices (1283-1519), a device's key (3190) and blob-key verifier (2095-2190,
    3910-3990, 8711), and the request nonces of devices, nodes and capabilities
    (3566-3643, 3746-3783).  New ids are arguments; [uuid.Parse] (a third-party
    package) is a parameter. *)

From Stdlib Require Import Ascii.
From S2P Require Import Prelude.
From S2P Require Import GoLib.
From S2P Require Import Codec.
From S2P Require Import Schema.
From S2P Require Import Common.
From S2P Require Import Entitlements.
Open Scope Z_scope.

(** ** Devices *)

Definition own_device (accountID deviceID : string) (db : Db) : option Device :=
  d ← db.(db_devices) !! deviceID;
  if (d.(dv_account_id) =?s accountID) && is_null d.(dv_revoked_at) then Some d else None.

Definition live_account (accountID : string) (db : Db) : bool :=
  match db.(db_accounts) !! accountID with Some a => is_null a.(ac_deleted_at) | None => false end.

Definition active_device (accountID : string) (_ : string) (d : Device) : bool :=
  (d.(dv_account_id) =?s accountID) && is_null d.(dv_revoked_at).

(** [ORDER BY COALESCE(last_seen_at, created_at) DESC, created_at DESC]. *)
Definition recent_first (x y : string * Device) : bool :=
  let seen d := coalesce d.(dv_last_seen_at) d.(dv_created_at) in
  (seen y.2 <? seen x.2) || ((seen y.2 =? seen x.2) && (y.2.(dv_created_at) <=? x.2.(dv_created_at))).

Definition ListDevices (accountID : string) : Tx (list (string * Device)) :=
  let accountID := TrimSpace accountID in
  if accountID =?s "" then mret []
  else
    db ← gets Datatypes.id;
    mret (if live_account accountID db
          then order_by recent_first (select (active_device accountID) db.(db_devices)) else []).

Definition DevicePublicKey (accountID deviceID : string) : Tx string :=
  db ← gets Datatypes.id;
  refuse_if (negb (live_account accountID db)) ErrDeviceNotFound;;
  d ← require (own_device accountID deviceID db) ErrDeviceNotFound;
  mret (TrimSpace d.(dv_public_key)).

(** *** Revoking *)

Definition revoke_device_row (now : Z) (d : Device) : Device :=
  d <| dv_revoked_at := Some now |> <| dv_last_seen_at := Some now |>.

(** The sessions the device or any capability of the account holds. *)
Definition revoked_with_device (accountID deviceID : string) (db : Db) (_ : string) (s : Session) : bool :=
  (null_eqb s.(se_device_id) deviceID
   || match s.(se_capability_id) with
      | Some c => match db.(db_capabilities) !! c with
                  | Some c => c.(ca_account_id) =?s accountID | None => false end
      | None => false end)
  && match db.(db_runtimes) !! s.(se_runtime_id) with
     | Some r => r.(rt_account_id) =?s accountID | None => false end
  && session_live s.

(** A runtime one of those sessions showed, with no other device watching. *)
Definition left_by_device (now : Z) (accountID deviceID : string) (db : Db) (rid : string) (r : Runtime) : bool :=
  exists_where (λ sid s, revoked_with_device accountID deviceID db sid s && (s.(se_runtime_id) =?s rid)) db.(db_sessions)
  && (r.(rt_account_id) =?s accountID) && rt_live r && (r.(rt_desired_state) =?s "running")
  && negb (exists_where (λ _ s, (s.(se_runtime_id) =?s rid)
       && match s.(se_device_id) with Some d => negb (d =?s deviceID) | None => false end
       && session_live s && (now <? s.(se_expires_at))) db.(db_sessions)).

Definition device_stop_row (now : Z) (r : Runtime) : Runtime :=
  let hostless := is_null r.(rt_host_id) in
  r <| rt_status := (if hostless then "stopped"%string else "stopping"%string) |>
    <| rt_desired_state := "stopped"%string |> <| rt_operation_generation ::= (λ g, g + 1) |>
    <| rt_connection_status := (if hostless then "offline"%string else "disconnecting"%string) |>
    <| rt_started_at := None |> <| rt_last_error := None |> <| rt_updated_at := now |>.

(** All parts of the last statement read the database as it was before it. *)
Definition RevokeDevice (now : Z) (accountID targetDeviceID : string) : Tx (Device * list string) :=
  let accountID := TrimSpace accountID in
  let targetDeviceID := TrimSpace targetDeviceID in
  refuse_if ((accountID =?s "") || (targetDeviceID =?s "")) ErrDeviceNotFound;;
  atomically (
    db ← gets Datatypes.id;
    refuse_if (negb (live_account accountID db)) ErrDeviceNotFound;;
    d ← require (own_device accountID targetDeviceID db) ErrDeviceNotFound;
    refuse_if (count_where (active_device accountID) db.(db_devices) <=? 1)%nat ErrLastActiveDevice;;
    modify (λ db, db <| db_devices ::= <[targetDeviceID := revoke_device_row now d]> |>);;
    modify (λ db, db <| db_device_nonces ::=
      delete_where (λ k _, (k.1.1 =?s accountID) && (k.1.2 =?s targetDeviceID)) |>);;
    modify (λ db, db <| db_capabilities ::=
      update_where (λ _ c, (c.(ca_account_id) =?s accountID) && is_null c.(ca_revoked_at))
        (λ c, c <| ca_revoked_at := Some now |> <| ca_updated_at := now |>) |>);;
    db ← gets Datatypes.id;
    let stopped := (select (left_by_device now accountID targetDeviceID db) db.(db_runtimes)).*1 in
    modify (λ db0, db0 <| db_sessions ::=
        update_where (revoked_with_device accountID targetDeviceID db) (end_session now "revoked" "device revoked") |>
      <| db_runtimes ::= update_where (left_by_device now accountID targetDeviceID db) (device_stop_row now) |>);;
    for_each (λ rid, appendRuntimeLogTX now rid "system" "warn"
      "Runtime stop queued because a linked device was revoked.") stopped;;
    mret (revoke_device_row now d, stopped)).

(** ** Request nonces *)

(** [DELETE ... WHERE expires_at < NOW()], then [INSERT ... ON CONFLICT DO
    NOTHING]: a nonce that is still there is a replay. *)
Definition remember {K} `{Countable K} (now expiresAt : Z) (key : K) (t : gmap K Z) : option (gmap K Z) :=
  let t := delete_where (λ _ e, e <? now) t in
  match t !! key with Some _ => None | None => Some (<[key := expiresAt]> t) end.

Definition RememberDeviceRequestNonce (now : Z) (accountID deviceID nonce : string) (expiresAt : Z) : Tx unit :=
  let accountID := TrimSpace accountID in
  let deviceID := TrimSpace deviceID in
  let nonce := TrimSpace nonce in
  refuse_if ((accountID =?s "") || (deviceID =?s "") || (nonce =?s "")) ErrDeviceRequestReplay;;
  atomically (
    db ← gets Datatypes.id;
    refuse_if (is_null (db.(db_devices) !! deviceID) || is_null (db.(db_accounts) !! accountID))
      (ErrCheck "device_request_nonces");;
    t ← require (remember now expiresAt (accountID, deviceID, nonce) db.(db_device_nonces)) ErrDeviceRequestReplay;
    modify (λ db, db <| db_device_nonces := t |>)).

Definition RememberNodeRequestNonce (now : Z) (nodeID nonce : string) (expiresAt : Z) : Tx unit :=
  let nodeID := TrimSpace nodeID in
  let nonce := TrimSpace nonce in
  refuse_if ((nodeID =?s "") || (nonce =?s "")) ErrNodeRequestReplay;;
  atomically (
    db ← gets Datatypes.id;
    t ← require (remember now expiresAt (nodeID, nonce) db.(db_node_nonces)) ErrNodeRequestReplay;
    modify (λ db, db <| db_node_nonces := t |>)).

Definition RememberRuntimeCapabilityNonce (now : Z) (capabilityID nonce : string) (expiresAt : Z) : Tx unit :=
  let capabilityID := TrimSpace capabilityID in
  let nonce := TrimSpace nonce in
  refuse_if ((capabilityID =?s "") || (nonce =?s "")) ErrRuntimeCapabilityReplay;;
  atomically (
    db ← gets Datatypes.id;
    refuse_if (is_null (db.(db_capabilities) !! capabilityID)) (ErrCheck "runtime_capability_nonces");;
    t ← require (remember now expiresAt (capabilityID, nonce) db.(db_capability_nonces)) ErrRuntimeCapabilityReplay;
    modify (λ db, db <| db_capability_nonces := t |>)).

(** ** Blob-key verifiers *)

(** A verifier is 32 bytes in base64url; its canonical encoding is kept. *)
Definition normalizeBlobKeyVerifier (blobKeyVerifier : string) : Err + string :=
  let trimmed := TrimSpace blobKeyVerifier in
  if trimmed =?s "" then inl ErrIdentityKeyRequired
  else match raw_url_decode trimmed with
       | None => inl ErrIdentityAuthFailed
       | Some raw => if (length raw =? 32)%nat then inr (raw_url_encode raw) else inl ErrIdentityAuthFailed
       end.

(** [return err] of a sum. *)
Definition check {A} (r : Err + A) : Tx A := match r with inl e => throw e | inr a => mret a end.
(** The same with the error replaced. *)
Definition check_as {A} (e : Err) (r : Err + A) : Tx A := match r with inl _ => throw e | inr a => mret a end.

Definition blank (v : option string) : bool := TrimSpace (coalesce v ""%string) =?s "".

Definition setDeviceBlobKeyVerifier (now : Z) (accountID deviceID blobKeyVerifier currentBlobKeyVerifier : string)
    (requireCurrentVerifier : bool) : Tx unit :=
  verifier ← check (normalizeBlobKeyVerifier blobKeyVerifier);
  atomically (
    db ← gets Datatypes.id;
    d ← require (own_device accountID deviceID db) ErrDeviceNotFound;
    (if negb (blank d.(dv_blob_key_verifier)) then
       refuse_if (negb requireCurrentVerifier) ErrIdentityAlreadySet;;
       stored ← check_as ErrIdentityAuthFailed (normalizeBlobKeyVerifier (coalesce d.(dv_blob_key_verifier) ""%string));
       current ← check (normalizeBlobKeyVerifier currentBlobKeyVerifier);
       refuse_if (negb (current =?s stored)) ErrIdentityAuthFailed
     else refuse_if requireCurrentVerifier ErrIdentityNotFound);;
    modify (λ db, db <| db_devices ::=
      alter (λ d, d <| dv_blob_key_verifier := Some verifier |> <| dv_last_seen_at := Some now |>) deviceID |>)).

Definition RegisterDeviceBlobKeyVerifier (now : Z) (accountID deviceID blobKeyVerifier : string) : Tx unit :=
  setDeviceBlobKeyVerifier now accountID deviceID blobKeyVerifier "" false.
Definition ChangeDeviceBlobKeyVerifier (now : Z) (accountID deviceID blobKeyVerifier currentBlobKeyVerifier : string)
    : Tx unit :=
  setDeviceBlobKeyVerifier now accountID deviceID blobKeyVerifier currentBlobKeyVerifier true.

Definition VerifiedDeviceBlobKeyVerifier (accountID deviceID blobKeyVerifier : string) : Tx string :=
  db ← gets Datatypes.id;
  d ← require (own_device accountID deviceID db) ErrDeviceNotFound;
  refuse_if (blank d.(dv_blob_key_verifier)) ErrIdentityNotFound;;
  stored ← check_as ErrIdentityAuthFailed (normalizeBlobKeyVerifier (coalesce d.(dv_blob_key_verifier) ""%string));
  verifier ← check (normalizeBlobKeyVerifier blobKeyVerifier);
  refuse_if (negb (verifier =?s stored)) ErrIdentityAuthFailed;;
  mret stored.

Definition VerifyDeviceBlobKeyVerifier (accountID deviceID blobKeyVerifier : string) : Tx unit :=
  VerifiedDeviceBlobKeyVerifier accountID deviceID blobKeyVerifier;; mret tt.

(** The loop over the account's devices: a match ends it, an unreadable
    verifier is skipped. *)
Fixpoint match_verifier (verifier : string) (rows : list (string * Device)) (found : bool) : Err + string :=
  match rows with
  | [] => inl (if found then ErrIdentityAuthFailed else ErrIdentityNotFound)
  | (_, d) :: rows' =>
    match normalizeBlobKeyVerifier (coalesce d.(dv_blob_key_verifier) ""%string) with
    | inl _ => match_verifier verifier rows' found
    | inr stored => if verifier =?s stored then inr stored else match_verifier verifier rows' true
    end
  end.

Definition VerifiedAccountBlobKeyVerifier (accountID blobKeyVerifier : string) : Tx string :=
  let accountID := TrimSpace accountID in
  refuse_if (accountID =?s "") ErrIdentityNotFound;;
  verifier ← check (normalizeBlobKeyVerifier blobKeyVerifier);
  db ← gets Datatypes.id;
  check (match_verifier verifier
    (select (λ id d, active_device accountID id d && not_null d.(dv_blob_key_verifier)) db.(db_devices)) false).

(** ** Opening an account *)

Definition automaticBootstrapActor : string := "virtroidd:auto-provision".
Definition automaticBootstrapTTL : Z := minute_us.

Section bootstrap.
(** [uuid.Parse] followed by [String]: the canonical form, or an error. *)
Variable uuid_parse : string → option string.

(** [fresh] is what [uuid.NewString] returns. *)
Definition normalizeBootstrapUUID (fresh value field : string) : Err + string :=
  let value := TrimSpace value in
  if value =?s "" then inr fresh
  else match uuid_parse value with
       | Some parsed => inr parsed
       | None => inl (ErrText (field +:+ " must be a valid uuid"))
       end.

(** How the account is paid for with an invitation. *)
Inductive invitation := NoInvitation | GivenInvitation (tokenSHA256 : string) | IssuedInvitation (tokenSHA256 : string).

Definition insert_invitation (invitationID : string) (i : Invitation) : Tx unit :=
  db ← gets Datatypes.id;
  refuse_if (not_null (db.(db_invitations) !! invitationID)) (ErrUnique "bootstrap_invitations_pkey");;
  refuse_if (exists_where (λ _ j, j.(iv_token_sha256) =?s i.(iv_token_sha256)) db.(db_invitations))
    (ErrUnique "bootstrap_invitations_token_sha256_key");;
  refuse_if (negb (str_len i.(iv_token_sha256) =? 32) || (pg_trim i.(iv_created_by) =?s "")
             || negb (i.(iv_created_at) <? i.(iv_expires_at))) (ErrCheck "bootstrap_invitations");;
  modify (λ db, db <| db_invitations ::= <[invitationID := i]> |>).

Definition usable (now : Z) (i : Invitation) : bool := is_null i.(iv_consumed_at) && (now <? i.(iv_expires_at)).

(** [Scan(&invitationID)] of the unique row with this digest. *)
Definition find_invitation (now : Z) (tokenSHA256 : string) (db : Db) : option string :=
  match select (λ _ i, (i.(iv_token_sha256) =?s tokenSHA256) && usable now i) db.(db_invitations) with
  | (k, _) :: _ => Some k
  | [] => None
  end.

Record BootstrapResult := MkBootstrapResult { br_AccountID : string; br_DeviceID : string; br_Device : Device }.

Definition take_invitation (now : Z) (freshInvitation deviceID : string) (how : invitation) : Tx string :=
  match how with
  | NoInvitation => mret ""%string
  | IssuedInvitation token =>
    insert_invitation freshInvitation
      (MkInvitation token ("device:" +:+ deviceID) automaticBootstrapActor (now + automaticBootstrapTTL) None None now);;
    mret freshInvitation
  | GivenInvitation token =>
    db ← gets Datatypes.id;
    require (find_invitation now token db) ErrBootstrapInviteInvalid
  end.

Definition consume_invitation (now : Z) (accountID invitationID : string) : Tx unit :=
  db ← gets Datatypes.id;
  i ← require (db.(db_invitations) !! invitationID) ErrBootstrapInviteInvalid;
  refuse_if (negb (usable now i)) ErrBootstrapInviteInvalid;;
  modify (λ db, db <| db_invitations ::=
    <[invitationID := i <| iv_consumed_at := Some now |> <| iv_consumed_account_id := Some accountID |>]> |>).

Definition bootstrapAccountWithIdentity (now : Z) (newAccountRegion freshAccount freshDevice freshInvitation
    accountID deviceID deviceName publicKey : string) (how : invitation) : Tx BootstrapResult :=
  refuse_if (TrimSpace deviceName =?s "") (ErrText "device name is required");;
  refuse_if (TrimSpace publicKey =?s "") (ErrText "device public key is required");;
  accountID ← check (normalizeBootstrapUUID freshAccount accountID "account id");
  deviceID ← check (normalizeBootstrapUUID freshDevice deviceID "device id");
  atomically (
    invitationID ← take_invitation now freshInvitation deviceID how;
    db ← gets Datatypes.id;
    refuse_if (not_null (db.(db_accounts) !! accountID)) (ErrUnique "accounts_pkey");;
    modify (λ db, db <| db_accounts ::= <[accountID := default_account now <| ac_runtime_region := newAccountRegion |>]> |>);;
    modify (λ db, db <| db_entitlements ::= (λ t, match t !! accountID with
      | Some _ => t | None => <[accountID := default_entitlement now]> t end) |>);;
    refuse_if (not_null (db.(db_devices) !! deviceID)) (ErrUnique "devices_pkey");;
    let d := MkDevice accountID (TrimSpace deviceName) (TrimSpace publicKey) None None now None in
    modify (λ db, db <| db_devices ::= <[deviceID := d]> |>);;
    (if negb (invitationID =?s "") then consume_invitation now accountID invitationID else mret tt);;
    mret (MkBootstrapResult accountID deviceID d)).

Definition BootstrapAccountWithIdentity (now : Z) (newAccountRegion freshAccount freshDevice
    accountID deviceID deviceName publicKey : string) : Tx BootstrapResult :=
  bootstrapAccountWithIdentity now newAccountRegion freshAccount freshDevice "" accountID deviceID deviceName publicKey
    NoInvitation.

Definition BootstrapAccountWithInvitation (now : Z) (newAccountRegion freshAccount freshDevice
    accountID deviceID deviceName publicKey invitationTokenSHA256 : string) : Tx BootstrapResult :=
  refuse_if (negb (str_len invitationTokenSHA256 =? 32)) ErrBootstrapInviteInvalid;;
  bootstrapAccountWithIdentity now newAccountRegion freshAccount freshDevice "" accountID deviceID deviceName publicKey
    (GivenInvitation invitationTokenSHA256).

(** [randomToken] is what [rand.Read] filled in. *)
Definition BootstrapAccountWithAutomaticInvitation (now : Z) (newAccountRegion freshAccount freshDevice freshInvitation
    accountID deviceID deviceName publicKey : string) (randomToken : list N) : Tx BootstrapResult :=
  bootstrapAccountWithIdentity now newAccountRegion freshAccount freshDevice freshInvitation accountID deviceID
    deviceName publicKey (IssuedInvitation (of_bytes (ascii_of_N <$> Sum256 randomToken))).
End bootstrap.

Definition CreateBootstrapInvitation (now : Z) (freshInvitation tokenSHA256 label createdBy : string) (expiresAt : Z)
    : Tx (string * Invitation) :=
  let label := TrimSpace label in
  let createdBy := TrimSpace createdBy in
  refuse_if (negb (str_len tokenSHA256 =? 32)) (ErrText "bootstrap invitation token digest must be 32 bytes");;
  refuse_if (createdBy =?s "") (ErrText "bootstrap invitation actor is required");;
  refuse_if (128 <? rune_count (bytes_of createdBy))%nat (ErrText "bootstrap invitation actor is too long");;
  refuse_if (128 <? rune_count (bytes_of label))%nat (ErrText "bootstrap invitation label is too long");;
  refuse_if (negb (now <? expiresAt)) (ErrText "bootstrap invitation expiry must be in the future");;
  let i := MkInvitation tokenSHA256 label createdBy expiresAt None None now in
  insert_invitation freshInvitation i;;
  mret (freshInvitation, i).

(** ** Facts *)

Lemma normalizeBlobKeyVerifier_bytes v v' :
  normalizeBlobKeyVerifier v = inr v' ↔
  ∃ raw, raw_url_decode (TrimSpace v) = Some raw ∧ length raw = 32%nat ∧ v' = raw_url_encode raw.
Proof.
  unfold normalizeBlobKeyVerifier. destruct (TrimSpace v =?s "") eqn:E.
  - apply str_eqb_eq in E. rewrite E. split; [done|]. intros (raw & Hd & Hl & _). vm_compute in Hd. by simplify_eq.
  - destruct (raw_url_decode (TrimSpace v)) as [raw|]; [|split; [done | by intros (? & ? & _)]].
    destruct (Nat.eqb_spec (length raw) 32); (split; [|intros (raw' & [= <-] & ? & ->)]); try done.
    intros [= <-]. eauto.
Qed.

Lemma own_device_Some a did db d :
  own_device a did db = Some d ↔ db.(db_devices) !! did = Some d ∧ active_device a did d = true.
Proof.
  unfold own_device, active_device. destruct (db.(db_devices) !! did) as [d'|]; cbn; [|split; [done | by intros [? _]]].
  destruct (_ && _) eqn:E; (split; [|intros [[= <-] ?]]); try done; [by intros [= <-] | congruence].
Qed.

(** *** Verifiers *)

(** Two verifiers stand for the same key: both are 32 bytes, the same ones. *)
Definition same_key (v w : string) : Prop :=
  ∃ raw, raw_url_decode (TrimSpace v) = Some raw ∧ raw_url_decode (TrimSpace w) = Some raw ∧ length raw = 32%nat.

Lemma normalize_same_key v w : (∃ k, normalizeBlobKeyVerifier v = inr k ∧ normalizeBlobKeyVerifier w = inr k) ↔ same_key v w.
Proof.
  split.
  - intros (k & (raw & Hv & Hl & ->)%normalizeBlobKeyVerifier_bytes & (raw' & Hw & Hl' & E)%normalizeBlobKeyVerifier_bytes).
    apply raw_url_encode_inj in E as <-; try (by eapply raw_url_decode_octets). by exists raw.
  - intros (raw & Hv & Hw & Hl). exists (raw_url_encode raw). split; apply normalizeBlobKeyVerifier_bytes; eauto.
Qed.

Lemma normalize_canonical v k :
  normalizeBlobKeyVerifier v = inr k → TrimSpace k = k ∧ normalizeBlobKeyVerifier k = inr k ∧ same_key v k.
Proof.
  intros (raw & Hv & Hl & ->)%normalizeBlobKeyVerifier_bytes. pose proof (raw_url_decode_octets _ _ Hv) as Ho.
  assert (Hk : normalizeBlobKeyVerifier (raw_url_encode raw) = inr (raw_url_encode raw)).
  { apply normalizeBlobKeyVerifier_bytes. exists raw. by rewrite raw_url_encode_trim, raw_url_roundtrip. }
  split_and!; [by apply raw_url_encode_trim | done |].
  apply normalize_same_key. exists (raw_url_encode raw). split; [|done]. apply normalizeBlobKeyVerifier_bytes. eauto.
Qed.

(** Who passes a device's check. *)
Lemma Verified_run a did w db k :
  VerifiedDeviceBlobKeyVerifier a did w db = (db, inr k) ↔
  ∃ d v, own_device a did db = Some d ∧ d.(dv_blob_key_verifier) = Some v
         ∧ normalizeBlobKeyVerifier v = inr k ∧ normalizeBlobKeyVerifier w = inr k.
Proof.
  unfold VerifiedDeviceBlobKeyVerifier, check, check_as, blank.
  unfold mbind, M_bind, gets, require, refuse_if, mret, M_ret, throw, Datatypes.id.
  destruct (own_device a did db) as [d|]; [|split; [done | by intros (? & ? & ? & _)]].
  destruct (dv_blob_key_verifier d) as [v|] eqn:Ev; cbn [coalesce].
  - destruct (TrimSpace v =?s "") eqn:Eb.
    { split; [done|]. intros (? & ? & [= <-] & E & Hn & _). simplify_eq. unfold normalizeBlobKeyVerifier in Hn. by rewrite Eb in Hn. }
    destruct (normalizeBlobKeyVerifier v) as [e|stored] eqn:Es.
    { split; [done|]. intros (? & ? & [= <-] & E & Hn & _). congruence. }
    destruct (normalizeBlobKeyVerifier w) as [e|given] eqn:Eg.
    { split; [done|]. by intros (? & ? & _ & _ & _ & ?). }
    destruct (given =?s stored) eqn:E; cbn [negb].
    + apply str_eqb_eq in E as ->. split; [intros [= <-]; eauto 10|]. intros (? & ? & [= <-] & ? & ? & ?). by simplify_eq.
    + apply str_eqb_neq in E. split; [done|]. intros (? & ? & [= <-] & ? & ? & ?). congruence.
  - split; [by vm_compute (TrimSpace ""%string =?s "")|]. intros (? & ? & [= <-] & ? & _). congruence.
Qed.

Lemma setVerifier_wp now a did v current req db :
  wp (setDeviceBlobKeyVerifier now a did v current req)
     (λ _ db', ∃ k d, normalizeBlobKeyVerifier v = inr k ∧ own_device a did db = Some d
        ∧ db' = db <| db_devices ::= <[did := d <| dv_blob_key_verifier := Some k |> <| dv_last_seen_at := Some now |>]> |>
        ∧ match d.(dv_blob_key_verifier) with
          | Some old => if TrimSpace old =?s "" then req = false else req = true ∧ same_key current old
          | None => req = false end)
     (λ _ db', db' = db) db.
Proof.
  unfold setDeviceBlobKeyVerifier, check, check_as.
  destruct (normalizeBlobKeyVerifier v) as [e|k] eqn:Ek; wp_steps; try done; rename a0 into d, H into Hd.
  - destruct (normalizeBlobKeyVerifier (coalesce (dv_blob_key_verifier d) "")) as [e|stored] eqn:Es; wp_steps; [done|].
    destruct (normalizeBlobKeyVerifier current) as [e|c] eqn:Ec; wp_steps; [done | done |].
    exists k, d. pose proof Hd as [Hrow _]%own_device_Some. split_and!; try done.
    + unfold set_field at 1 2. cbn. by rewrite (alter_as_insert _ _ _ _ Hrow).
    + destruct (dv_blob_key_verifier d) as [old|]; cbn in *; [|by vm_compute in H0]. unfold blank in H0. cbn in H0.
      apply negb_true_iff in H0. rewrite H0. apply negb_false_iff in H1. split; [done|].
      apply normalize_same_key. exists c. apply negb_false_iff, str_eqb_eq in H as ->. done.
  - exists k, d. pose proof Hd as [Hrow _]%own_device_Some. split_and!; try done.
    + unfold set_field at 1 2. cbn. by rewrite (alter_as_insert _ _ _ _ Hrow).
    + unfold blank in H0. destruct (dv_blob_key_verifier d) as [old|]; cbn in *; [|done]. apply negb_false_iff in H0. by rewrite H0.
Qed.

(** *** Nonces *)

Lemma remember_keeps {K} `{Countable K} now e (k k' : K) t t' e' :
  remember now e k t = Some t' → t !! k' = Some e' → now ≤ e' → t' !! k' = Some e'.
Proof.
  unfold remember. intros Hr Hk' Hn. destruct (_ !! k) as [?|] eqn:Hk in Hr; [done|]. injection Hr as <-.
  assert (delete_where (λ _ e, e <? now) t !! k' = Some e') as Hd.
  { apply lookup_delete_where. split; [done|]. apply Z.ltb_ge. lia. }
  rewrite lookup_insert_ne; [done|]. intros ->. by rewrite Hk in Hd.
Qed.

Lemma remember_refuses {K} `{Countable K} now e (k : K) t e' : t !! k = Some e' → now ≤ e' → remember now e k t = None.
Proof.
  intros Hk Hn. unfold remember.
  assert (delete_where (λ _ e, e <? now) t !! k = Some e') as ->; [|done].
  apply lookup_delete_where. split; [done|]. apply Z.ltb_ge. lia.
Qed.

Lemma remember_adds {K} `{Countable K} now e (k : K) t t' : remember now e k t = Some t' → t' !! k = Some e.
Proof. unfold remember. destruct (_ !! k); [done|]. intros [= <-]. apply lookup_insert_eq. Qed.

(** The three kinds of signed requests. *)
Inductive request := DeviceRequest (account device nonce : string) | NodeRequest (node nonce : string)
  | CapabilityRequest (capability nonce : string).

Definition accept (now expiresAt : Z) (q : request) : Tx unit :=
  match q with
  | DeviceRequest account device nonce => RememberDeviceRequestNonce now account device nonce expiresAt
  | NodeRequest node nonce => RememberNodeRequestNonce now node nonce expiresAt
  | CapabilityRequest capability nonce => RememberRuntimeCapabilityNonce now capability nonce expiresAt
  end.

Definition replay (q : request) : Err :=
  match q with
  | DeviceRequest _ _ _ => ErrDeviceRequestReplay
  | NodeRequest _ _ => ErrNodeRequestReplay
  | CapabilityRequest _ _ => ErrRuntimeCapabilityReplay
  end.

(** When the request's nonce runs out, if it is remembered. *)
Definition remembered (q : request) (db : Db) : option Z :=
  match q with
  | DeviceRequest a d n => db.(db_device_nonces) !! (TrimSpace a, TrimSpace d, TrimSpace n)
  | NodeRequest h n => db.(db_node_nonces) !! (TrimSpace h, TrimSpace n)
  | CapabilityRequest c n => db.(db_capability_nonces) !! (TrimSpace c, TrimSpace n)
  end.

(** Requests and passes of the reaper's pruning, all by the time [until]. *)
Inductive requests (until : Z) : Db → Db → Prop :=
  | requests_none db : requests until db db
  | requests_more db db' now e q :
      requests until db db' → now ≤ until → requests until db (accept now e q db').1
  | requests_pruned db db' now :
      requests until db db' → now ≤ until → requests until db (pruneExpiredRuntimeCapabilityNoncesTX now db').1.

(** The devices, accounts and capabilities that nonces refer to. *)
Definition principals (db : Db) := (db.(db_accounts), db.(db_devices), db.(db_capabilities)).

Lemma accept_wp now e q db :
  wp (accept now e q)
     (λ _ db', remembered q db' = Some e ∧ principals db' = principals db
        ∧ ∀ q' e', remembered q' db = Some e' → now ≤ e' → remembered q' db' = Some e')
     (λ _ db', db' = db) db.
Proof.
  destruct q; cbn [accept]; unfold RememberDeviceRequestNonce, RememberNodeRequestNonce, RememberRuntimeCapabilityNonce;
    wp_steps; try done.
  all: lazymatch goal with Hr : remember _ _ _ _ = Some _ |- _ => rename Hr into Hrem end.
  all: split_and!; [cbn; by eapply remember_adds | done |].
  all: intros [] e' Hq Hn; cbn in *; try done; by eapply remember_keeps.
Qed.

Lemma requests_keep until db db' q e :
  requests until db db' → remembered q db = Some e → until ≤ e →
  remembered q db' = Some e ∧ principals db' = principals db.
Proof.
  intros H Hq Hu. induction H as [db|db db' now e' q' _ IH Hn|db db' now _ IH Hn]; [done| |]; destruct (IH Hq) as [IH1 IH2].
  - pose proof (accept_wp now e' q' db') as Hw. unfold wp in Hw. destruct (accept now e' q' db') as [db2 [err|[]]]; cbn.
    + by subst.
    + destruct Hw as (_ & Hp & Hk). split; [|congruence]. apply Hk; [done | lia].
  - split; [|done]. destruct q; cbn in *; try done. apply lookup_delete_where. split; [done|]. apply Z.ltb_ge. lia.
Qed.

Lemma accept_replay now e q db e' :
  remembered q db = Some e' → now ≤ e' →
  match q with
  | DeviceRequest a d _ => db.(db_devices) !! TrimSpace d ≠ None ∧ db.(db_accounts) !! TrimSpace a ≠ None
  | NodeRequest _ _ => True
  | CapabilityRequest c _ => db.(db_capabilities) !! TrimSpace c ≠ None
  end → accept now e q db = (db, inl (replay q)).
Proof.
  intros Hq Hn Hp. destruct q; cbn in *;
    unfold RememberDeviceRequestNonce, RememberNodeRequestNonce, RememberRuntimeCapabilityNonce;
    unfold mbind, M_bind, refuse_if, atomically, gets, require, throw, Datatypes.id, mret, M_ret;
    (destruct (_ || _); [done|]); cbv beta iota.
  - destruct Hp as [Hd Ha].
    destruct (db_devices db !! TrimSpace device); [|done]. destruct (db_accounts db !! TrimSpace account); [|done]. cbn.
    by erewrite remember_refuses.
  - by erewrite remember_refuses.
  - destruct (db_capabilities db !! TrimSpace capability); [|done]. cbn. by erewrite remember_refuses.
Qed.

(** An accepted request's principals exist. *)
Lemma accept_principals now e q db db' :
  accept now e q db = (db', inr tt) →
  match q with
  | DeviceRequest a d _ => db.(db_devices) !! TrimSpace d ≠ None ∧ db.(db_accounts) !! TrimSpace a ≠ None
  | NodeRequest _ _ => True
  | CapabilityRequest c _ => db.(db_capabilities) !! TrimSpace c ≠ None
  end.
Proof.
  destruct q; cbn; unfold RememberDeviceRequestNonce, RememberRuntimeCapabilityNonce; [|done|];
    unfold mbind, M_bind, refuse_if, atomically, gets, require, throw, Datatypes.id, mret, M_ret;
    (destruct (_ || _); [done|]); cbv beta iota.
  - destruct (db_devices db !! TrimSpace device); [|done]. destruct (db_accounts db !! TrimSpace account); done.
  - destruct (db_capabilities db !! TrimSpace capability); done.
Qed.

(** *** Invitations *)

(** The unique index on the digest. *)
Definition invitations_ok (db : Db) : Prop :=
  ∀ k k' i i', db.(db_invitations) !! k = Some i → db.(db_invitations) !! k' = Some i' →
               i.(iv_token_sha256) = i'.(iv_token_sha256) → k = k'.

(** The invitation with this digest was used, by this account. *)
Definition spent (token account : string) (db : Db) : Prop :=
  ∃ k i, db.(db_invitations) !! k = Some i ∧ i.(iv_token_sha256) = token
         ∧ i.(iv_consumed_at) ≠ None ∧ i.(iv_consumed_account_id) = Some account.

Definition invitations_move (db db' : Db) : Prop :=
  invitations_ok db → invitations_ok db' ∧ ∀ token account, spent token account db → spent token account db'.
#[export] Instance invitations_move_preorder : PreOrder invitations_move.
Proof. split; [by intros db | intros x y z H1 H2 Hx]. destruct (H1 Hx) as [Hy S1], (H2 Hy) as [Hz S2]. auto. Qed.

Lemma invitations_move_same db db' : db'.(db_invitations) = db.(db_invitations) → invitations_move db db'.
Proof. intros E Hok. unfold invitations_ok, spent in *. rewrite E. auto. Qed.

Lemma insert_invitation_move k i : stable invitations_move (insert_invitation k i).
Proof.
  apply stable_of_wp. intros db. unfold insert_invitation. wp_steps; try reflexivity. intros Hok.
  apply negb_false_iff in H. rename H into Hk, H0 into Htok. pose proof (proj1 (exists_where_false _ _) Htok) as Hno.
  assert (Hk' : db_invitations db !! k = None) by (by destruct (db_invitations db !! k)).
  split.
  - intros k1 k2 i1 i2. cbn. rewrite !lookup_insert_Some. intros [[<- <-]|[_ H1']] [[<- <-]|[_ H2']] E; try done.
    + specialize (Hno _ _ H2'). by rewrite E, str_eqb_refl in Hno.
    + specialize (Hno _ _ H1'). by rewrite <-E, str_eqb_refl in Hno.
    + by eapply Hok.
  - intros token account (k0 & i0 & H0' & ?). exists k0, i0. split; [|done]. cbn. rewrite lookup_insert_ne; [done|]. congruence.
Qed.

Lemma consume_invitation_move now a k : stable invitations_move (consume_invitation now a k).
Proof.
  apply stable_of_wp. intros db. unfold consume_invitation. wp_steps; try reflexivity. rename a0 into i, H into Hi, H0 into Hu.
  apply negb_false_iff, andb_true_iff in Hu as [Hu _]. intros Hok. split.
  - intros k1 k2 i1 i2. cbn. rewrite !lookup_insert_Some. intros [[<- <-]|[_ H1']] [[<- <-]|[_ H2']] E; try done; by eapply Hok.
  - intros token account (k0 & i0 & H0' & Ht & Hc & Ha). exists k0, i0. split; [|done]. cbn.
    rewrite lookup_insert_ne; [done|]. intros ->. simplify_eq. by destruct (iv_consumed_at i).
Qed.

Lemma take_invitation_move now fresh d how : stable invitations_move (take_invitation now fresh d how).
Proof. destruct how; cbn; stable_steps; apply insert_invitation_move. Qed.

Lemma find_invitation_spent now token account db :
  invitations_ok db → spent token account db → find_invitation now token db = None.
Proof.
  intros Hok (k & i & Hi & Ht & Hc & _). unfold find_invitation. rewrite select_nil; [done|].
  intros k' i' Hi'. destruct (iv_token_sha256 i' =?s token) eqn:E; [|done]. apply str_eqb_eq in E.
  assert (k' = k) as -> by (eapply Hok; eauto; congruence). simplify_eq. unfold usable. by destruct (iv_consumed_at i).
Qed.

Section bootstrap_facts.
Variable uuid_parse : string → option string.

(** Calls that open accounts or issue invitations. *)
Inductive account_op :=
  | OpBootstrap (region freshAccount freshDevice freshInvitation account device name key : string) (how : invitation)
  | OpInvite (freshInvitation token label actor : string) (expiresAt : Z).

Definition run_account (now : Z) (op : account_op) : Tx unit :=
  match op with
  | OpBootstrap region fa fd fi account device name key how =>
    bootstrapAccountWithIdentity uuid_parse now region fa fd fi account device name key how;; mret tt
  | OpInvite fi token label actor expiresAt => CreateBootstrapInvitation now fi token label actor expiresAt;; mret tt
  end.

Inductive account_history : Db → Db → Prop :=
  | account_start db : account_history db db
  | account_step db db' now op : account_history db db' → account_history db (run_account now op db').1.

Ltac move_frame := apply invitations_move_same; reflexivity.

Lemma run_account_move now op : stable invitations_move (run_account now op).
Proof.
  destruct op; cbn [run_account].
  - unfold bootstrapAccountWithIdentity, check. stable_steps;
      try (apply take_invitation_move || apply consume_invitation_move || move_frame).
  - unfold CreateBootstrapInvitation. stable_steps. apply insert_invitation_move.
Qed.

Lemma account_history_move db db' : account_history db db' → invitations_move db db'.
Proof.
  induction 1 as [db|db db' now op _ IH]; [reflexivity|]. etransitivity; [exact IH|]. apply run_account_move.
Qed.

(** What opening an account does. *)
Definition opened (now : Z) (region : string) (db : Db) (res : BootstrapResult) (db' : Db) : Prop :=
  db.(db_accounts) !! res.(br_AccountID) = None
  ∧ db'.(db_accounts) = <[res.(br_AccountID) := default_account now <| ac_runtime_region := region |>]> db.(db_accounts)
  ∧ db.(db_devices) !! res.(br_DeviceID) = None
  ∧ db'.(db_devices) = <[res.(br_DeviceID) := res.(br_Device)]> db.(db_devices)
  ∧ res.(br_Device).(dv_account_id) = res.(br_AccountID) ∧ res.(br_Device).(dv_revoked_at) = None
  ∧ (db.(db_entitlements) !! res.(br_AccountID) = None →
     db'.(db_entitlements) = <[res.(br_AccountID) := default_entitlement now]> db.(db_entitlements)).

Lemma take_invitation_wp now fresh d how db :
  wp (take_invitation now fresh d how)
     (λ k db', db'.(db_accounts) = db.(db_accounts) ∧ db'.(db_devices) = db.(db_devices)
               ∧ db'.(db_entitlements) = db.(db_entitlements)
               ∧ match how with
                 | GivenInvitation token => db' = db ∧ ∃ i, db.(db_invitations) !! k = Some i ∧ i.(iv_token_sha256) = token
                 | _ => True end)
     (λ _ _, True) db.
Proof.
  destruct how as [|token|token]; cbn; unfold insert_invitation; wp_steps; try done.
  split_and!; try done. revert H. unfold find_invitation.
  destruct (select _ _) as [|[k i] l] eqn:E; [done|]. intros [= ->].
  assert ((a, i) ∈ select (λ _ i, (iv_token_sha256 i =?s token) && usable now i) db.(db_invitations)) as [Hi Hp]%elem_of_select
    by (rewrite E; left).
  exists i. split; [done|]. by apply andb_true_iff in Hp as [->%str_eqb_eq _].
Qed.

Lemma bootstrap_wp now region fa fd fi a d name key how db :
  wp (bootstrapAccountWithIdentity uuid_parse now region fa fd fi a d name key how)
     (λ res db', opened now region db res db'
        ∧ match how with
          | GivenInvitation token => (∀ k, db.(db_invitations) !! k ≠ None → k ≠ ""%string) → spent token res.(br_AccountID) db'
          | _ => True end)
     (λ _ db', db' = db) db.
Proof.
  unfold bootstrapAccountWithIdentity, check.
  destruct (normalizeBootstrapUUID uuid_parse fa a _) as [e|aid]; [by wp_steps|].
  destruct (normalizeBootstrapUUID uuid_parse fd d _) as [e|did]; [by wp_steps|].
  wp_steps; try done. eapply wp_mono; [apply take_invitation_wp | | done]. intros k db1 (HA & HD & HE & Hhow).
  wp_steps; try done; apply negb_false_iff in H1, H2; rewrite HA in H1; rewrite HD in H2;
    (assert (Ha : db.(db_accounts) !! aid = None) by (by destruct (db.(db_accounts) !! aid)));
    (assert (Hd : db.(db_devices) !! did = None) by (by destruct (db.(db_devices) !! did))).
  - unfold consume_invitation. wp_steps; try done. split.
    + unfold opened. cbn. rewrite HA, HD, HE. split_and!; try done. by intros ->.
    + destruct how as [|token|token]; try done. destruct Hhow as (-> & i & Hi & Ht). cbn in H4. rewrite Hi in H4. simplify_eq.
      intros _. exists k. eexists. split; [cbn; apply lookup_insert_eq|]. done.
  - split.
    + unfold opened. cbn. rewrite HA, HD, HE. split_and!; try done. by intros ->.
    + destruct how as [|token|token]; try done. destruct Hhow as (-> & i & Hi & Ht). intros Hne.
      apply negb_false_iff, str_eqb_eq in H3 as ->. destruct (Hne ""%string); [by rewrite Hi | done].
Qed.
End bootstrap_facts.

(** *** Revoking *)

(** The device is cut off: its requests fail, and with it every capability of
    the account and every session either of them held on the account's runtimes. *)
Definition device_cut_off (a did : string) (db : Db) : Prop :=
  own_device a did db = None
  ∧ (∀ cid c, db.(db_capabilities) !! cid = Some c → c.(ca_account_id) = a → c.(ca_revoked_at) ≠ None)
  ∧ (∀ sid s r, db.(db_sessions) !! sid = Some s → session_live s = true →
       db.(db_runtimes) !! s.(se_runtime_id) = Some r → r.(rt_account_id) = a →
       s.(se_device_id) ≠ Some did
       ∧ ∀ cid c, s.(se_capability_id) = Some cid → db.(db_capabilities) !! cid = Some c → c.(ca_account_id) ≠ a).

Lemma for_log_wp {X} (f : X → string) now source level message xs db (Q : unit → Db → Prop) X0 :
  (∀ G, Q tt (db <| db_runtime_logs := G |>)) →
  wp (for_each (λ x, appendRuntimeLogTX now (f x) source level message) xs) Q X0 db.
Proof.
  intros HQ. eapply wp_mono; [apply (wp_fold _ (λ _ _ db', ∃ G, db' = db <| db_runtime_logs := G |>) X0) | |done].
  - exists db.(db_runtime_logs). by destruct db.
  - intros [] x l db' [G ->]. unfold appendRuntimeLogTX. wp_steps. eexists. reflexivity.
  - intros [] db' [G ->]. apply HQ.
Qed.

Lemma count_devices_revoked now a did d (t : gmap string Device) :
  t !! did = Some d → active_device a did d = true →
  count_where (active_device a) (<[did := revoke_device_row now d]> t) = Nat.pred (count_where (active_device a) t).
Proof.
  intros Hd Ha. rewrite <-(insert_delete_eq t did (revoke_device_row now d)).
  rewrite <-(insert_id t did d Hd) at 2. rewrite <-(insert_delete_eq t did d).
  rewrite !count_where_insert by apply lookup_delete_eq. rewrite Ha.
  assert (active_device a did (revoke_device_row now d) = false) as -> by (unfold active_device; cbn; apply andb_false_r).
  done.
Qed.

(** The state a revocation leaves, but for the log. *)
Definition device_revoked (now : Z) (a did : string) (d : Device) (db db' : Db) : Prop :=
  ∃ mid G, mid = db <| db_devices ::= <[did := revoke_device_row now d]> |>
      <| db_device_nonces ::= delete_where (λ k _, (k.1.1 =?s a) && (k.1.2 =?s did)) |>
      <| db_capabilities ::= update_where (λ _ c, (c.(ca_account_id) =?s a) && is_null c.(ca_revoked_at))
           (λ c, c <| ca_revoked_at := Some now |> <| ca_updated_at := now |>) |>
    ∧ db' = mid <| db_sessions ::= update_where (revoked_with_device a did mid) (end_session now "revoked" "device revoked") |>
      <| db_runtimes ::= update_where (left_by_device now a did mid) (device_stop_row now) |>
      <| db_runtime_logs := G |>.

Lemma RevokeDevice_wp now a0 did0 db :
  let a := TrimSpace a0 in let did := TrimSpace did0 in
  wp (RevokeDevice now a0 did0)
     (λ res db', ∃ d, own_device a did db = Some d ∧ live_account a db = true
        ∧ (1 < count_where (active_device a) db.(db_devices))%nat
        ∧ res.1 = revoke_device_row now d ∧ device_revoked now a did d db db'
        ∧ ∀ rid, rid ∈ res.2 → ∃ r, db.(db_runtimes) !! rid = Some r ∧ db'.(db_runtimes) !! rid = Some (device_stop_row now r))
     (λ e db', db' = db ∧ (e = ErrLastActiveDevice ∧ count_where (active_device a) db.(db_devices) = 1%nat
                           ∨ e = ErrDeviceNotFound ∧ (a = ""%string ∨ did = ""%string ∨ live_account a db = false ∨ own_device a did db = None))) db.
Proof.
  intros a did. unfold RevokeDevice. fold a did. rewrite wp_bind, wp_refuse. split.
  { intros [?%str_eqb_eq|?%str_eqb_eq]%orb_true_iff; split; auto. }
  intros _. rewrite wp_atomically. wp_steps.
  - split; [done|]. right. split; [done|]. do 2 right. left. by apply negb_true_iff.
  - rename a1 into d, H into Hl, H0 into Hd. apply negb_false_iff in Hl. split; [done|]. left. split; [done|].
    apply Nat.leb_le in H1. apply own_device_Some in Hd as [Hd Ha].
    pose proof (count_where_pos (active_device a) _ _ _ Hd Ha). lia.
  - rename a1 into d, H into Hl, H0 into Hd. apply negb_false_iff in Hl. apply Nat.leb_gt in H1.
    apply (for_log_wp (λ rid, rid)). intros G. rewrite wp_ret. exists d. split_and!; try done.
    + by eexists _, G.
    + cbn -[device_stop_row left_by_device]. intros rid ([? r] & -> & [Hr Hp]%elem_of_select)%list_elem_of_fmap.
      cbn [fst] in *. exists r. split; [done|]. rewrite lookup_update_where.
      setoid_rewrite Hr. cbn -[device_stop_row left_by_device]. by rewrite Hp.
  - split; [done|]. auto 10.
Qed.

Lemma device_revoked_cut_off now a did d db db' :
  own_device a did db = Some d → device_revoked now a did d db db' → device_cut_off a did db'.
Proof.
  intros Hd (mid & G & Hm & ->). split_and!; cbn -[end_session device_stop_row revoked_with_device left_by_device].
  - subst mid. unfold own_device. cbn. rewrite lookup_insert_eq. cbn. by rewrite andb_false_r.
  - subst mid. cbn. intros cid c (c0 & _ & ->)%update_where_Some. destruct (_ && _) eqn:E; [done|].
    intros Hca. rewrite Hca, str_eqb_refl in E. by destruct (ca_revoked_at c0).
  - intros sid s r (s0 & Hs0 & ->)%update_where_Some. destruct (revoked_with_device a did mid sid s0) eqn:E.
    { intros Hlive. by rewrite end_session_not_live in Hlive. }
    intros Hlive (r0 & Hr0 & ->)%update_where_Some Ha.
    assert (Hacc : rt_account_id r0 = a) by (by destruct (left_by_device _ _ _ _ _ _) in Ha).
    unfold revoked_with_device in E. rewrite Hr0, Hacc, str_eqb_refl, Hlive, !andb_true_r in E.
    apply orb_false_iff in E as [E1 E2]. split.
    + intros E. rewrite E in E1. cbn in E1. by apply bool_decide_eq_false in E1.
    + intros cid c E Hc Hca. rewrite E, Hc, Hca, str_eqb_refl in E2. done.
Qed.

(** ** A concrete database *)

(** Two devices of one account; an invitation whose digest is 32 bytes. *)
Definition sample_device : Device := MkDevice "acct" "phone" "pk" None None 0 None.
Definition sample_token : string := "0123456789abcdef0123456789abcdef".
Definition sample_devices : Db :=
  empty_db <| db_accounts := {["acct" := default_account 0]} |>
    <| db_devices := <["d1" := sample_device]> {["d2" := sample_device]} |>
    <| db_runtimes := {["rt" := default_runtime "acct" "running" 0 <| rt_desired_state := "running"%string |>]} |>
    <| db_capabilities := {["cap" := MkCapability "acct" "rt" "pk" "runtime" 0 0 1000 None None]} |>
    <| db_sessions := {["s" := MkSession "rt" (Some "d1"%string) None "active" "" 0 0 None None None 1000 None]} |>
    <| db_invitations := {["inv" := MkInvitation sample_token "" "admin" 1000 None None 0]} |>.
(** A verifier: 32 zero bytes. *)
Definition sample_verifier : string := raw_url_encode (repeat 0%N 32).
Definition sample_bootstrapped : Db :=
  (BootstrapAccountWithInvitation Some 100 "" "new" "dev" "" "" "phone" "pk" sample_token sample_devices).1.

(** ** Properties *)

(** Verifiers make a round trip.  Encoding 32 bytes and normalising gives
    the encoding back, and the bytes decode from it; normalising is idempotent;
    two texts normalise alike exactly when they stand for the same 32 bytes.
    Once a device's verifier is set (as its first one, or over an old one that
    the caller proved to know), the device's check accepts exactly the texts of
    those bytes, and answers with their canonical text. *)
Theorem verifier_roundtrip :
  (∀ raw, octets raw → length raw = 32%nat →
     normalizeBlobKeyVerifier (raw_url_encode raw) = inr (raw_url_encode raw)
     ∧ raw_url_decode (raw_url_encode raw) = Some raw)
  ∧ (∀ v k, normalizeBlobKeyVerifier v = inr k → normalizeBlobKeyVerifier k = inr k)
  ∧ (∀ v w, (∃ k, normalizeBlobKeyVerifier v = inr k ∧ normalizeBlobKeyVerifier w = inr k) ↔ same_key v w)
  ∧ (∀ now a did v current req db db', setDeviceBlobKeyVerifier now a did v current req db = (db', inr tt) →
       (∀ w k, VerifiedDeviceBlobKeyVerifier a did w db' = (db', inr k) ↔ normalizeBlobKeyVerifier v = inr k ∧ same_key v w)
       ∧ ∀ d old, own_device a did db = Some d → d.(dv_blob_key_verifier) = Some old → TrimSpace old ≠ ""%string →
           req = true ∧ same_key current old).
Proof.
  split_and!.
  - intros raw Ho Hl. split; [|by apply raw_url_roundtrip]. apply normalizeBlobKeyVerifier_bytes. exists raw.
    by rewrite raw_url_encode_trim, raw_url_roundtrip.
  - intros v k Hk. by apply (normalize_canonical v).
  - apply normalize_same_key.
  - intros now a did v current req db db' H. eapply wp_run in H; [|apply setVerifier_wp]. cbn in H.
    destruct H as (k0 & d & Hk0 & Hd & -> & Hold). pose proof Hd as [Hrow Hact]%own_device_Some. split.
    + intros w k. rewrite Verified_run. unfold own_device. cbn. rewrite lookup_insert_eq. cbn.
      unfold active_device in Hact. rewrite Hact. destruct (normalize_canonical _ _ Hk0) as (_ & Hkk & _). split.
      * intros (? & v' & [= <-] & [= <-] & Hv & Hw). rewrite Hkk in Hv. injection Hv as <-. split; [done|].
        apply normalize_same_key. eauto.
      * intros (Hk & (k1 & Hk1 & Hw)%normalize_same_key). eexists _, k0. split_and!; [done | done | congruence | congruence].
    + intros d' old Hd' Hv Hne. rewrite Hd in Hd'. injection Hd' as <-. rewrite Hv in Hold.
      apply str_eqb_neq in Hne. by rewrite Hne in Hold.
Qed.

(** No signed request is accepted twice.  A device's, node's or
    capability's request whose nonce was accepted with an expiry is refused as a
    replay at every time up to that expiry, whatever other requests came in
    between and however often expired nonces were pruned. *)
Theorem replayed_requests_refused now expiresAt q db db1 db2 later e'
  (H : accept now expiresAt q db = (db1, inr tt)) (Hreq : requests expiresAt db1 db2) (Hl : later ≤ expiresAt) :
  accept later e' q db2 = (db2, inl (replay q)).
Proof.
  pose proof (accept_principals _ _ _ _ _ H) as Hp. eapply wp_run in H; [|apply accept_wp]. destruct H as (Hrem & Hsame & _).
  destruct (requests_keep _ _ _ _ _ Hreq Hrem ltac:(lia)) as [Hrem2 Hsame2].
  eapply accept_replay; [done | done |]. rewrite Hsame in Hsame2. injection Hsame2 as Ha Hd Hc.
  destruct q; [by rewrite Hd, Ha | done | by rewrite Hc].
Qed.

Definition sample_request : request := DeviceRequest "acct" "d1" "n".
Lemma replayed_requests_refused_witness :
  accept 150 400 sample_request (accept 100 300 sample_request sample_devices).1
  = ((accept 100 300 sample_request sample_devices).1, inl (replay sample_request)).
Proof.
  apply (replayed_requests_refused 100 300 sample_request sample_devices _ _ 150 400
    (run_of (accept 100 300 sample_request) sample_devices (inr tt) eq_refl)); [|lia].
  apply requests_none.
Defined.

(** Invitations are single-use.  An account opened with an invitation is
    new, with one active device and the trial entitlement; the invitation is
    spent by it.  After any further bootstraps and new invitations, a bootstrap
    with the same invitation fails and changes nothing. *)
Theorem invitation_single_use uuid_parse now region fa fd a d name key token db db' res
  (Hok : invitations_ok db) (Hids : db.(db_invitations) !! ""%string = None)
  (H : BootstrapAccountWithInvitation uuid_parse now region fa fd a d name key token db = (db', inr res)) :
  opened now region db res db' ∧ spent token res.(br_AccountID) db'
  ∧ ∀ db'' now2 region2 fa2 fd2 a2 d2 name2 key2, account_history uuid_parse db' db'' →
      ∃ e, BootstrapAccountWithInvitation uuid_parse now2 region2 fa2 fd2 a2 d2 name2 key2 token db'' = (db'', inl e).
Proof.
  unfold BootstrapAccountWithInvitation in *. destruct (str_len token =? 32) eqn:El; [|done].
  change (bootstrapAccountWithIdentity uuid_parse now region fa fd "" a d name key (GivenInvitation token) db = (db', inr res)) in H.
  assert (Hmove : invitations_move db db').
  { pose proof (run_account_move uuid_parse now (OpBootstrap region fa fd "" a d name key (GivenInvitation token)) db) as Hm.
    cbn [run_account] in Hm. by rewrite (bind_inr _ _ _ _ _ H) in Hm. }
  eapply wp_run in H; [|apply bootstrap_wp]. destruct H as [Hopen Hspent].
  assert (Hs : spent token (br_AccountID res) db') by (apply Hspent; intros k Hk ->; by rewrite Hids in Hk).
  split_and!; [done | done |]. intros db'' now2 region2 fa2 fd2 a2 d2 name2 key2 Hh.
  destruct (account_history_move _ _ _ Hh (proj1 (Hmove Hok))) as [Hok2 Hspent2].
  pose proof (find_invitation_spent now2 _ _ _ Hok2 (Hspent2 _ _ Hs)) as Hnone.
  assert (Hw : wp (bootstrapAccountWithIdentity uuid_parse now2 region2 fa2 fd2 "" a2 d2 name2 key2 (GivenInvitation token))
                  (λ _ _, False) (λ _ db2, db2 = db'') db'').
  { unfold bootstrapAccountWithIdentity, check.
    destruct (normalizeBootstrapUUID uuid_parse fa2 a2 _); [by wp_steps|].
    destruct (normalizeBootstrapUUID uuid_parse fd2 d2 _); [by wp_steps|]. cbn [take_invitation]. wp_steps; try done; congruence. }
  unfold wp in Hw. cbn. unfold mbind at 1, M_bind at 1. cbn.
  destruct (bootstrapAccountWithIdentity _ _ _ _ _ _ _ _ _ _ _ _) as [db2 [e|?]]; [|done]. subst. eauto.
Qed.

Lemma invitation_single_use_witness :
  spent sample_token "new" sample_bootstrapped
  ∧ ∃ e, BootstrapAccountWithInvitation Some 200 "" "new2" "dev2" "" "" "phone" "pk" sample_token sample_bootstrapped
         = (sample_bootstrapped, inl e).
Proof.
  destruct (invitation_single_use Some 100 "" "new" "dev" "" "" "phone" "pk" sample_token sample_devices sample_bootstrapped
    (MkBootstrapResult "new" "dev" (MkDevice "new" "phone" "pk" None None 100 None))) as (_ & Hs & Hfail).
  - assert (Hone : ∀ k i, sample_devices.(db_invitations) !! k = Some i → "inv"%string = k).
    { intros k i Hk. unfold sample_devices in Hk. cbn -[lookup] in Hk. by apply lookup_singleton_Some in Hk as [? _]. }
    intros k k' i i' Hk%Hone Hk'%Hone. congruence.
  - reflexivity.
  - apply run_of. vm_compute. reflexivity.
  - split; [exact Hs|]. apply Hfail, account_start.
Defined.

(** Revoking a device.  It succeeds only for an active device that is not
    the account's last one; then the device's key and sessions, every capability
    of the account and the sessions they held are cut off, the account keeps one
    device less but at least one, its running runtimes that lose their viewer
    are stopped under a new generation, and nothing else of runtimes changes.
    Otherwise nothing changes, and the error says which condition failed. *)
Theorem RevokeDevice_spec now a0 did0 db :
  let a := TrimSpace a0 in let did := TrimSpace did0 in
  match RevokeDevice now a0 did0 db with
  | (db', inr (d', stopped)) =>
    device_cut_off a did db' ∧ DevicePublicKey a did db' = (db', inl ErrDeviceNotFound)
    ∧ (1 ≤ count_where (active_device a) db'.(db_devices))%nat
    ∧ count_where (active_device a) db.(db_devices) = S (count_where (active_device a) db'.(db_devices))
    ∧ (∀ rid, rid ∈ stopped → ∃ r, db.(db_runtimes) !! rid = Some r
         ∧ db'.(db_runtimes) !! rid = Some (device_stop_row now r))
    ∧ (∀ rid r, db.(db_runtimes) !! rid = Some r →
         db'.(db_runtimes) !! rid = Some r
         ∨ r.(rt_account_id) = a ∧ r.(rt_desired_state) = "running"%string
           ∧ db'.(db_runtimes) !! rid = Some (device_stop_row now r))
  | (db', inl e) =>
    db' = db ∧ (e = ErrLastActiveDevice ∧ count_where (active_device a) db.(db_devices) = 1%nat
                ∨ e = ErrDeviceNotFound
                  ∧ (a = ""%string ∨ did = ""%string ∨ live_account a db = false ∨ own_device a did db = None))
  end.
Proof.
  intros a did. pose proof (RevokeDevice_wp now a0 did0 db) as Hw. fold a did in Hw. unfold wp in Hw.
  destruct (RevokeDevice now a0 did0 db) as [db' [e|[d' stopped]]]; [exact Hw|].
  destruct Hw as (d & Hd & Hl & Hc & _ & Hrev & Hst). pose proof Hd as [Hrow Hact]%own_device_Some.
  pose proof (device_revoked_cut_off _ _ _ _ _ _ Hd Hrev) as Hcut.
  destruct Hrev as (mid & G & Hmid & Hdb').
  assert (Hdev : db'.(db_devices) = <[did := revoke_device_row now d]> db.(db_devices)) by (by subst).
  split_and!; [done | | | | done |].
  - unfold DevicePublicKey, mbind, M_bind, gets, require, refuse_if, Datatypes.id. rewrite (proj1 Hcut).
    by destruct (negb (live_account a db')).
  - rewrite Hdev, (count_devices_revoked now a did d) by done. lia.
  - rewrite Hdev, (count_devices_revoked now a did d) by done. lia.
  - intros rid r Hr. rewrite Hdb', Hmid. cbn -[device_stop_row left_by_device]. rewrite lookup_update_where, Hr.
    cbn -[device_stop_row left_by_device]. destruct (left_by_device _ _ _ _ _ _) eqn:E; [right|by left]. split_and!; [| |done].
    all: unfold left_by_device in E; apply andb_true_iff in E as [[[[_ E1%str_eqb_eq]%andb_true_iff _]%andb_true_iff E2%str_eqb_eq]%andb_true_iff _]; done.
Qed.
