(* ===== verification/Recovery.v ===== *)
(** * Account recovery

    Models internal/store/store.go on account recovery: checking and storing
    recovery credentials (191-245, 2191-2475), and enrolling a new phone with
    the login key of the account's password (2477-2738).

    [uuid.Parse] and the check that a DER public key is a P-256 one are
    parameters; the login key's hash is computed (crypto/sha256, encoding/base64).
    Random nonces and ids are arguments. *)

From S2P Require Import Prelude.
From S2P Require Import GoLib.
From S2P Require Import Codec.
From S2P Require Import Schema.
From S2P Require Import Common.
From S2P Require Import Entitlements.
From S2P Require Import Devices.
Open Scope Z_scope.

(** ** Credentials *)

Definition AccountRecoveryVersion : Z := 2.
Definition AccountRecoveryKDFAlgorithm : string := "PBKDF2_HMAC_SHA256_V2".
Definition AccountRecoveryEnvelopeAlgorithm : string := "AES_GCM_256_V1".
Definition AccountRecoveryMinIterations : Z := 600000.
Definition AccountRecoveryMaxIterations : Z := 2000000.
Definition AccountRecoveryArgonVersion : Z := 3.
Definition AccountRecoveryArgonKDFAlgorithm : string := "ARGON2ID_V3".
Definition AccountRecoveryArgonMinPasses : Z := 3.
Definition AccountRecoveryArgonMaxPasses : Z := 10.
Definition AccountRecoveryArgonMinMemoryKiB : Z := Z.shiftl 64 10.
Definition AccountRecoveryArgonMaxMemoryKiB : Z := Z.shiftl 256 10.
Definition accountRecoveryMaxFailedAuth : Z := 10.
Definition accountRecoveryAuthLockout : Z := hour_us.
Definition accountRecoveryChallengeTTL : Z := 10 * minute_us.

Definition WithoutAuthVerifier (c : AccountRecoveryCredential) : AccountRecoveryCredential :=
  c <| rc_AuthVerifier := ""%string |>.

Definition trim_credential (c : AccountRecoveryCredential) : AccountRecoveryCredential :=
  c <| rc_AccountID ::= TrimSpace |> <| rc_KDFAlgorithm ::= TrimSpace |> <| rc_KDFSalt ::= TrimSpace |>
    <| rc_EnvelopeAlgorithm ::= TrimSpace |> <| rc_EnvelopeIV ::= TrimSpace |> <| rc_EnvelopeCiphertext ::= TrimSpace |>
    <| rc_RecoveryPublicKey ::= TrimSpace |> <| rc_AuthVerifier ::= TrimSpace |>.

(** [validateRecoveryBase64URL]: nothing, or the error. *)
Definition validateRecoveryBase64URL (value : string) (minBytes maxBytes : nat) (label : string) : option Err :=
  match raw_url_decode (TrimSpace value) with
  | Some raw => if (length raw <? minBytes)%nat || (maxBytes <? length raw)%nat
                then Some (ErrText ("account recovery " +:+ label +:+ " is invalid")) else None
  | None => Some (ErrText ("account recovery " +:+ label +:+ " is invalid"))
  end.

(** The [switch] on the version: nothing, or the error. *)
Definition validate_kdf (c : AccountRecoveryCredential) : option Err :=
  if (c.(rc_Version) =? AccountRecoveryVersion) && (c.(rc_KDFAlgorithm) =?s AccountRecoveryKDFAlgorithm) then
    if (c.(rc_KDFIterations) <? AccountRecoveryMinIterations) || (AccountRecoveryMaxIterations <? c.(rc_KDFIterations))
    then Some (ErrText "account recovery KDF iterations are outside the allowed range")
    else if negb (c.(rc_KDFMemoryKiB) =? 0) || negb (c.(rc_AuthVerifier) =?s "")
    then Some (ErrText "a version 2 account recovery credential has no login key")
    else None
  else if (c.(rc_Version) =? AccountRecoveryArgonVersion) && (c.(rc_KDFAlgorithm) =?s AccountRecoveryArgonKDFAlgorithm) then
    if (c.(rc_KDFIterations) <? AccountRecoveryArgonMinPasses) || (AccountRecoveryArgonMaxPasses <? c.(rc_KDFIterations))
       || (c.(rc_KDFMemoryKiB) <? AccountRecoveryArgonMinMemoryKiB) || (AccountRecoveryArgonMaxMemoryKiB <? c.(rc_KDFMemoryKiB))
    then Some (ErrText "account recovery Argon2id cost is outside the allowed range")
    else validateRecoveryBase64URL c.(rc_AuthVerifier) 32 32 "login key verifier"
  else Some (ErrText "unsupported account recovery credential").

(** The first of two errors. *)
Definition or_err (e e' : option Err) : option Err := match e with Some _ => e | None => e' end.

Section recovery.
(** [uuid.Parse] succeeds. *)
Variable uuid_ok : string → bool.
(** [x509.ParsePKIXPublicKey] gives an ECDSA key on P-256. *)
Variable is_p256 : list N → bool.

Definition validate_public_key (key : string) : option Err :=
  match std_decode key with
  | Some der =>
    if (length der <? 64)%nat || (512 <? length der)%nat then Some (ErrText "account recovery public key is invalid")
    else if is_p256 der then None else Some (ErrText "account recovery public key must be P-256")
  | None => Some (ErrText "account recovery public key is invalid")
  end.

(** What the checks before the verifier's find wrong. *)
Definition credential_refusal (input : AccountRecoveryCredential) : option Err :=
  if negb (input.(rc_EnvelopeAlgorithm) =?s AccountRecoveryEnvelopeAlgorithm)
  then Some (ErrText "unsupported account recovery credential")
  else or_err (validate_kdf input)
      (or_err (validateRecoveryBase64URL input.(rc_KDFSalt) 32 32 "KDF salt")
      (or_err (validateRecoveryBase64URL input.(rc_EnvelopeIV) 12 12 "envelope IV")
      (or_err (validateRecoveryBase64URL input.(rc_EnvelopeCiphertext) 64 4096 "envelope ciphertext")
              (validate_public_key input.(rc_RecoveryPublicKey))))).

Definition ValidateAccountRecoveryCredential (input : AccountRecoveryCredential) : Err + AccountRecoveryCredential :=
  let input := trim_credential input in
  match credential_refusal input with
  | Some e => inl e
  | None => match normalizeBlobKeyVerifier input.(rc_BlobKeyVerifier) with
            | inl e => inl e
            | inr verifier => inr (input <| rc_BlobKeyVerifier := verifier |>)
            end
  end.

Definition sameAccountRecoveryCredential (l r : AccountRecoveryCredential) : bool :=
  (l.(rc_AccountID) =?s r.(rc_AccountID)) && (l.(rc_Version) =? r.(rc_Version))
  && (l.(rc_KDFAlgorithm) =?s r.(rc_KDFAlgorithm)) && (l.(rc_KDFSalt) =?s r.(rc_KDFSalt))
  && (l.(rc_KDFIterations) =? r.(rc_KDFIterations)) && (l.(rc_EnvelopeAlgorithm) =?s r.(rc_EnvelopeAlgorithm))
  && (l.(rc_EnvelopeIV) =?s r.(rc_EnvelopeIV)) && (l.(rc_EnvelopeCiphertext) =?s r.(rc_EnvelopeCiphertext))
  && (l.(rc_RecoveryPublicKey) =?s r.(rc_RecoveryPublicKey)) && (l.(rc_BlobKeyVerifier) =?s r.(rc_BlobKeyVerifier))
  && (l.(rc_KDFMemoryKiB) =? r.(rc_KDFMemoryKiB)) && (l.(rc_AuthVerifier) =?s r.(rc_AuthVerifier)).

(** The table's CHECKs. *)
Definition credential_check (c : AccountRecoveryCredential) : bool :=
  (c.(rc_EnvelopeAlgorithm) =?s "AES_GCM_256_V1")
  && ((c.(rc_Version) =? 2) && (c.(rc_KDFAlgorithm) =?s "PBKDF2_HMAC_SHA256_V2")
      && (600000 <=? c.(rc_KDFIterations)) && (c.(rc_KDFIterations) <=? 2000000) && (c.(rc_AuthVerifier) =?s "")
      || (c.(rc_Version) =? 3) && (c.(rc_KDFAlgorithm) =?s "ARGON2ID_V3")
      && (3 <=? c.(rc_KDFIterations)) && (c.(rc_KDFIterations) <=? 10)
      && (65536 <=? c.(rc_KDFMemoryKiB)) && (c.(rc_KDFMemoryKiB) <=? 262144) && negb (c.(rc_AuthVerifier) =?s "")).

Definition getAccountRecoveryCredential (accountID : string) : Tx AccountRecoveryCredential :=
  db ← gets Datatypes.id;
  row ← require (db.(db_recovery) !! TrimSpace accountID) ErrRecoveryNotConfigured;
  mret row.(rr_credential).

Definition RegisterAccountRecoveryCredential (now : Z) (accountID deviceID : string) (input : AccountRecoveryCredential)
    : Tx AccountRecoveryCredential :=
  let accountID := TrimSpace accountID in
  let deviceID := TrimSpace deviceID in
  validated ← check (ValidateAccountRecoveryCredential (input <| rc_AccountID := accountID |>));
  atomically (
    db ← gets Datatypes.id;
    d ← require (own_device accountID deviceID db) ErrDeviceNotFound;
    (if blank d.(dv_blob_key_verifier) then
       modify (λ db, db <| db_devices ::= alter (λ d, d <| dv_blob_key_verifier := Some validated.(rc_BlobKeyVerifier) |>
                                                       <| dv_last_seen_at := Some now |>) deviceID |>)
     else
       current ← check_as ErrIdentityAuthFailed (normalizeBlobKeyVerifier (coalesce d.(dv_blob_key_verifier) ""%string));
       refuse_if (negb (current =?s validated.(rc_BlobKeyVerifier))) ErrIdentityAuthFailed);;
    match db.(db_recovery) !! accountID with
    | None =>
      let created := validated <| rc_AccountID := accountID |> <| rc_CreatedAt := now |> <| rc_UpdatedAt := now |> in
      refuse_if (negb (credential_check created) || is_null (db.(db_accounts) !! accountID))
        (ErrCheck "account_recovery_credentials");;
      modify (λ db, db <| db_recovery ::= <[accountID := MkRecoveryRow created 0 None]> |>);;
      mret created
    | Some row =>
      refuse_if (negb (sameAccountRecoveryCredential row.(rr_credential) validated)) ErrRecoveryAlreadyConfigured;;
      mret row.(rr_credential)
    end).

(** The new envelope under the same keys. *)
Definition rewrapped (now : Z) (current v : AccountRecoveryCredential) : AccountRecoveryCredential :=
  current <| rc_Version := v.(rc_Version) |> <| rc_KDFAlgorithm := v.(rc_KDFAlgorithm) |> <| rc_KDFSalt := v.(rc_KDFSalt) |>
    <| rc_KDFIterations := v.(rc_KDFIterations) |> <| rc_EnvelopeAlgorithm := v.(rc_EnvelopeAlgorithm) |>
    <| rc_EnvelopeIV := v.(rc_EnvelopeIV) |> <| rc_EnvelopeCiphertext := v.(rc_EnvelopeCiphertext) |>
    <| rc_KDFMemoryKiB := v.(rc_KDFMemoryKiB) |> <| rc_AuthVerifier := v.(rc_AuthVerifier) |> <| rc_UpdatedAt := now |>.

Definition RewrapAccountRecoveryCredential (now : Z) (accountID deviceID : string) (input : AccountRecoveryCredential)
    : Tx AccountRecoveryCredential :=
  let accountID := TrimSpace accountID in
  let deviceID := TrimSpace deviceID in
  validated ← check (ValidateAccountRecoveryCredential (input <| rc_AccountID := accountID |>));
  atomically (
    db ← gets Datatypes.id;
    refuse_if (is_null (own_device accountID deviceID db)) ErrDeviceNotFound;;
    row ← require (db.(db_recovery) !! accountID) ErrRecoveryNotConfigured;
    let current := row.(rr_credential) in
    refuse_if (negb (current.(rc_RecoveryPublicKey) =?s validated.(rc_RecoveryPublicKey))
               || negb (current.(rc_BlobKeyVerifier) =?s validated.(rc_BlobKeyVerifier))) ErrIdentityAuthFailed;;
    refuse_if (validated.(rc_Version) <? current.(rc_Version)) ErrRecoveryDowngrade;;
    let updated := rewrapped now current validated in
    refuse_if (negb (credential_check updated)) (ErrCheck "account_recovery_credentials");;
    modify (λ db, db <| db_recovery ::= <[accountID := MkRecoveryRow updated 0 None]> |>);;
    mret updated).

Record RecoveryParameters := MkRecoveryParameters {
  rp_Version : Z; rp_KDFAlgorithm : string; rp_KDFSalt : string; rp_KDFIterations : Z; rp_KDFMemoryKiB : Z }.

Definition AccountRecoveryParameters (accountID : string) : Tx RecoveryParameters :=
  refuse_if (negb (uuid_ok (TrimSpace accountID))) ErrRecoveryNotConfigured;;
  c ← getAccountRecoveryCredential accountID;
  refuse_if (c.(rc_Version) <? AccountRecoveryArgonVersion) ErrRecoveryUpgradeRequired;;
  mret (MkRecoveryParameters c.(rc_Version) c.(rc_KDFAlgorithm) c.(rc_KDFSalt) c.(rc_KDFIterations) c.(rc_KDFMemoryKiB)).

(** ** Enrolling a phone *)

Definition RecoveryLoginKeyVerifier (authKey : list N) : string :=
  raw_url_encode (Sum256 (octets_of "VIRTROID-ACCOUNT-RECOVERY-LOGIN-V3" ++ [10%N] ++ authKey)).

Definition login_key_matches (c : AccountRecoveryCredential) (authKey : list N) : bool :=
  (length authKey =? 32)%nat && (RecoveryLoginKeyVerifier authKey =?s c.(rc_AuthVerifier)).

(** A wrong login key is counted; the tenth in a row locks recovery. *)
Definition count_failure (now : Z) (row : RecoveryRow) : RecoveryRow :=
  let failures := row.(rr_failed_auth_attempts) + 1 in
  if accountRecoveryMaxFailedAuth <=? failures
  then row <| rr_failed_auth_attempts := 0 |> <| rr_auth_locked_until := Some (now + accountRecoveryAuthLockout) |>
  else row <| rr_failed_auth_attempts := failures |> <| rr_auth_locked_until := None |>.

Definition locked (now : Z) (row : RecoveryRow) : bool :=
  match row.(rr_auth_locked_until) with Some until => now <? until | None => false end.

(** Whether the key is right; [false] stands for ErrRecoveryLoginFailed. *)
Definition checkRecoveryLoginKey (now : Z) (accountID : string) (c : AccountRecoveryCredential) (authKey : list N) : Tx bool :=
  db ← gets Datatypes.id;
  row ← require (db.(db_recovery) !! accountID) ErrNoRows;
  refuse_if (locked now row) ErrRecoveryLocked;;
  if login_key_matches c authKey then
    modify (λ db, db <| db_recovery ::= <[accountID := row <| rr_failed_auth_attempts := 0 |> <| rr_auth_locked_until := None |>]> |>);;
    mret true
  else
    modify (λ db, db <| db_recovery ::= <[accountID := count_failure now row]> |>);;
    mret false.

Definition recoverable (accountID : string) (authKey : list N) : Tx AccountRecoveryCredential :=
  c ← getAccountRecoveryCredential accountID;
  refuse_if (c.(rc_Version) <? AccountRecoveryArgonVersion) ErrRecoveryUpgradeRequired;;
  refuse_if (length authKey =? 0)%nat ErrRecoveryLoginRequired;;
  mret c.

Definition insert_challenge (now : Z) (challengeID : string) (ch : RecoveryChallenge) : Tx unit :=
  db ← gets Datatypes.id;
  refuse_if (not_null (db.(db_recovery_challenges) !! challengeID)) (ErrUnique "account_recovery_challenges_pkey");;
  refuse_if (is_null (db.(db_accounts) !! ch.(ch_account_id))) (ErrCheck "account_recovery_challenges.account_id");;
  modify (λ db, db <| db_recovery_challenges ::= <[challengeID := ch]> |>);;
  modify (λ db, db <| db_recovery_challenges ::= delete_where (λ _ c, (c.(ch_account_id) =?s ch.(ch_account_id))
    && ((c.(ch_expires_at) <=? now) || not_null c.(ch_consumed_at))) |>).

(** [challengeID] and [nonce] are what [uuid.NewString] and [rand.Read] return.
    The transaction commits when the login key is wrong, so that the failure
    count sticks, and rolls back on every other error. *)
Definition CreateAccountRecoveryChallenge (now : Z) (challengeID : string) (nonce : list N)
    (accountID deviceID deviceName devicePublicKey : string) (authKey : list N)
    : Tx (AccountRecoveryCredential * RecoveryChallenge) :=
  let accountID := TrimSpace accountID in
  let deviceID := TrimSpace deviceID in
  let deviceName := TrimSpace deviceName in
  let devicePublicKey := TrimSpace devicePublicKey in
  refuse_if ((accountID =?s "") || (deviceID =?s "") || (deviceName =?s "") || (devicePublicKey =?s ""))
    (ErrText "complete recovery device identity is required");;
  refuse_if (negb (uuid_ok accountID)) ErrRecoveryNotConfigured;;
  refuse_if (negb (uuid_ok deviceID)) (ErrText "recovery device id is invalid");;
  refuse_if ((120 <? rune_count (bytes_of deviceName))%nat || (2048 <? str_len devicePublicKey))
    (ErrText "recovery device identity is too large");;
  enrolled ← atomically (
    c ← recoverable accountID authKey;
    proved ← checkRecoveryLoginKey now accountID c authKey;
    if (proved : bool) then
      db ← gets Datatypes.id;
      refuse_if (not_null (db.(db_devices) !! deviceID)) ErrRecoveryDeviceExists;;
      let ch := MkRecoveryChallenge accountID deviceID deviceName devicePublicKey (raw_url_encode nonce)
                  (now + accountRecoveryChallengeTTL) None now in
      insert_challenge now challengeID ch;;
      mret (Some (c, ch))
    else mret None);
  require enrolled ErrRecoveryLoginFailed.

Definition challenge_open (now : Z) (ch : RecoveryChallenge) : bool :=
  is_null ch.(ch_consumed_at) && (now <? ch.(ch_expires_at)).

Definition GetAccountRecoveryChallenge (now : Z) (challengeID : string) : Tx RecoveryChallenge :=
  db ← gets Datatypes.id;
  ch ← require (db.(db_recovery_challenges) !! TrimSpace challengeID) ErrRecoveryChallengeInvalid;
  refuse_if (negb (challenge_open now ch)) ErrRecoveryChallengeInvalid;;
  mret ch.

Definition CompleteAccountRecoveryEnrollment (now : Z) (challengeID : string) : Tx (string * Device) :=
  let challengeID := TrimSpace challengeID in
  atomically (
    db ← gets Datatypes.id;
    ch ← require (db.(db_recovery_challenges) !! challengeID) ErrRecoveryChallengeInvalid;
    refuse_if (negb (challenge_open now ch)) ErrRecoveryChallengeInvalid;;
    c ← getAccountRecoveryCredential ch.(ch_account_id);
    refuse_if (is_null (db.(db_accounts) !! ch.(ch_account_id))) ErrNoRows;;
    refuse_if (not_null (db.(db_devices) !! ch.(ch_device_id))) (ErrUnique "devices_pkey");;
    let d := MkDevice ch.(ch_account_id) ch.(ch_device_name) ch.(ch_device_public_key) (Some c.(rc_BlobKeyVerifier))
               None now (Some now) in
    modify (λ db, db <| db_devices ::= <[ch.(ch_device_id) := d]> |>);;
    modify (λ db, db <| db_recovery_challenges ::= <[challengeID := ch <| ch_consumed_at := Some now |>]> |>);;
    mret (ch.(ch_account_id), d)).
End recovery.

(** ** Histories *)

Inductive RecoveryOp :=
| OpRegister (now : Z) (accountID deviceID : string) (input : AccountRecoveryCredential)
| OpRewrap (now : Z) (accountID deviceID : string) (input : AccountRecoveryCredential)
| OpChallenge (now : Z) (challengeID : string) (nonce : list N) (accountID deviceID deviceName devicePublicKey : string)
    (authKey : list N)
| OpComplete (now : Z) (challengeID : string).

Definition run_recovery (uuid_ok : string → bool) (is_p256 : list N → bool) (op : RecoveryOp) (db : Db) : Db :=
  match op with
  | OpRegister now a d c => (RegisterAccountRecoveryCredential is_p256 now a d c db).1
  | OpRewrap now a d c => (RewrapAccountRecoveryCredential is_p256 now a d c db).1
  | OpChallenge now cid nonce a d name pk key => (CreateAccountRecoveryChallenge uuid_ok now cid nonce a d name pk key db).1
  | OpComplete now cid => (CompleteAccountRecoveryEnrollment now cid db).1
  end.

Definition recovery_history uuid_ok is_p256 (ops : list RecoveryOp) (db : Db) : Db :=
  foldl (λ db op, run_recovery uuid_ok is_p256 op db) db ops.

Definition op_time (op : RecoveryOp) : Z :=
  match op with
  | OpRegister now _ _ _ | OpRewrap now _ _ _ | OpChallenge now _ _ _ _ _ _ _ | OpComplete now _ => now
  end.

(** The operations run in order, between [t] and [until]. *)
Fixpoint ordered_within (t until : Z) (ops : list RecoveryOp) : Prop :=
  match ops with
  | [] => t ≤ until
  | op :: ops' => t ≤ op_time op ∧ ordered_within (op_time op) until ops'
  end.

(** A login key of account [a] that was refused as wrong. *)
Definition wrong_guess uuid_ok (a : string) (op : RecoveryOp) (db : Db) : bool :=
  match op with
  | OpChallenge now cid nonce a' d name pk key =>
    (TrimSpace a' =?s a) && match (CreateAccountRecoveryChallenge uuid_ok now cid nonce a' d name pk key db).2 with
                            | inl ErrRecoveryLoginFailed => true
                            | _ => false
                            end
  | _ => false
  end.

(** The right login key of account [a], or a new password set from a phone of
    the account: what clears the count of failures. *)
Definition clears_failures uuid_ok is_p256 (a : string) (op : RecoveryOp) (db : Db) : bool :=
  match op with
  | OpChallenge now cid nonce a' d name pk key =>
    (TrimSpace a' =?s a) && match (CreateAccountRecoveryChallenge uuid_ok now cid nonce a' d name pk key db).2 with
                            | inr _ => true
                            | inl _ => false
                            end
  | OpRewrap now a' d c =>
    (TrimSpace a' =?s a) && match (RewrapAccountRecoveryCredential is_p256 now a' d c db).2 with
                            | inr _ => true
                            | inl _ => false
                            end
  | _ => false
  end.

(** How many operations of a history satisfy [p], a test of the operation and
    of the state it starts from. *)
Fixpoint count_ops uuid_ok is_p256 (p : RecoveryOp → Db → bool) (ops : list RecoveryOp) (db : Db) : Z :=
  match ops with
  | [] => 0
  | op :: ops' => (if p op db then 1 else 0) + count_ops uuid_ok is_p256 p ops' (run_recovery uuid_ok is_p256 op db)
  end.

Definition failures_of (o : option RecoveryRow) : Z := match o with Some row => row.(rr_failed_auth_attempts) | None => 0 end.
Definition lock_of (o : option RecoveryRow) : option Z := match o with Some row => row.(rr_auth_locked_until) | None => None end.

(** ** Facts *)

Definition forgiven (row : RecoveryRow) : RecoveryRow := row <| rr_failed_auth_attempts := 0 |> <| rr_auth_locked_until := None |>.

(** The transaction of a challenge. *)
Lemma challenge_wp uuid_ok now cid nonce account device name key authKey db :
  let a := TrimSpace account in
  wp (CreateAccountRecoveryChallenge uuid_ok now cid nonce account device name key authKey)
     (λ res db', ∃ row, db.(db_recovery) !! a = Some row ∧ res.1 = row.(rr_credential)
        ∧ AccountRecoveryArgonVersion ≤ res.1.(rc_Version) ∧ locked now row = false ∧ login_key_matches res.1 authKey = true
        ∧ db.(db_devices) !! TrimSpace device = None
        ∧ res.2 = MkRecoveryChallenge a (TrimSpace device) (TrimSpace name) (TrimSpace key) (raw_url_encode nonce)
                    (now + accountRecoveryChallengeTTL) None now
        ∧ db'.(db_recovery) = <[a := forgiven row]> db.(db_recovery) ∧ db'.(db_devices) = db.(db_devices)
        ∧ db.(db_recovery_challenges) !! cid = None
        ∧ db'.(db_recovery_challenges) = delete_where (λ _ c, (c.(ch_account_id) =?s a)
            && ((c.(ch_expires_at) <=? now) || not_null c.(ch_consumed_at))) (<[cid := res.2]> db.(db_recovery_challenges)))
     (λ e db', e = ErrRecoveryLoginFailed ∧ (∃ row, db.(db_recovery) !! a = Some row ∧ locked now row = false
           ∧ login_key_matches row.(rr_credential) authKey = false
           ∧ db' = db <| db_recovery ::= <[a := count_failure now row]> |>)
        ∨ e ≠ ErrRecoveryLoginFailed ∧ db' = db) db.
Proof.
  intros a. unfold CreateAccountRecoveryChallenge, recoverable, getAccountRecoveryCredential, checkRecoveryLoginKey,
    insert_challenge. rewrite TrimSpace_idemp. fold a. wp_steps; try (by right).
  - simplify_eq/=. eexists; split_and!; try done; [lia | by destruct (db_devices db !! _)
      | by destruct (db_recovery_challenges db !! _)].
  - done.
  - left. simplify_eq/=. split; [done|]. by eexists.
Qed.

(** The checks of a challenge in their order, each with its error. *)
Definition challenge_checks (uuid_ok : string → bool) (now : Z) (cid a device name pk : string) (key : list N) (db : Db)
    : list (bool * Err) :=
  let credential (p : RecoveryRow → bool) := match db.(db_recovery) !! a with Some row => p row | None => true end in
  [ ((a =?s "") || (device =?s "") || (name =?s "") || (pk =?s ""), ErrText "complete recovery device identity is required");
    (negb (uuid_ok a), ErrRecoveryNotConfigured);
    (negb (uuid_ok device), ErrText "recovery device id is invalid");
    ((120 <? rune_count (bytes_of name))%nat || (2048 <? str_len pk), ErrText "recovery device identity is too large");
    (is_null (db.(db_recovery) !! a), ErrRecoveryNotConfigured);
    (credential (λ row, row.(rr_credential).(rc_Version) <? 3), ErrRecoveryUpgradeRequired);
    ((length key =? 0)%nat, ErrRecoveryLoginRequired);
    (credential (locked now), ErrRecoveryLocked);
    (credential (λ row, negb ((length key =? 32)%nat && (RecoveryLoginKeyVerifier key =?s row.(rr_credential).(rc_AuthVerifier)))),
     ErrRecoveryLoginFailed);
    (not_null (db.(db_devices) !! device), ErrRecoveryDeviceExists);
    (not_null (db.(db_recovery_challenges) !! cid), ErrUnique "account_recovery_challenges_pkey");
    (is_null (db.(db_accounts) !! a), ErrCheck "account_recovery_challenges.account_id") ].

(** The error of the first check that fails. *)
Fixpoint first_failing (checks : list (bool * Err)) : option Err :=
  match checks with
  | [] => None
  | (fails, e) :: rest => if fails then Some e else first_failing rest
  end.

Lemma challenge_answers uuid_ok now cid nonce account device name pk key db :
  let checks := challenge_checks uuid_ok now cid (TrimSpace account) (TrimSpace device) (TrimSpace name) (TrimSpace pk) key db in
  wp (CreateAccountRecoveryChallenge uuid_ok now cid nonce account device name pk key)
     (λ _ _, first_failing checks = None) (λ e _, first_failing checks = Some e) db.
Proof.
  cbv zeta. unfold CreateAccountRecoveryChallenge, recoverable, getAccountRecoveryCredential, checkRecoveryLoginKey, insert_challenge,
    login_key_matches. rewrite TrimSpace_idemp. unfold challenge_checks. wp_steps; simplify_eq/=.
  all: change AccountRecoveryArgonVersion with 3 in *.
  all: repeat match goal with
       | Hb : ?b = ?v |- context [if ?b then _ else _] => rewrite Hb
       | Hb : ?b = ?v |- context [if negb ?b then _ else _] => rewrite Hb
       | Hr : db_recovery ?d !! _ = _ |- context [db_recovery ?d !! _] => rewrite Hr
       end; cbn [first_failing is_null negb]; try done.
Qed.

(** *** Validation *)

Section validation.
Variable is_p256 : list N → bool.
Notation Validate := (ValidateAccountRecoveryCredential is_p256).

(** What validation leaves as it is. *)
Definition validated (c : AccountRecoveryCredential) : Prop :=
  trim_credential c = c ∧ credential_refusal is_p256 c = None ∧ normalizeBlobKeyVerifier c.(rc_BlobKeyVerifier) = inr c.(rc_BlobKeyVerifier).

Lemma trim_fields c :
  trim_credential c = MkRecoveryCredential (TrimSpace c.(rc_AccountID)) c.(rc_Version) (TrimSpace c.(rc_KDFAlgorithm))
    (TrimSpace c.(rc_KDFSalt)) c.(rc_KDFIterations) (TrimSpace c.(rc_EnvelopeAlgorithm)) (TrimSpace c.(rc_EnvelopeIV))
    (TrimSpace c.(rc_EnvelopeCiphertext)) (TrimSpace c.(rc_RecoveryPublicKey)) c.(rc_BlobKeyVerifier) c.(rc_KDFMemoryKiB)
    (TrimSpace c.(rc_AuthVerifier)) c.(rc_CreatedAt) c.(rc_UpdatedAt).
Proof. reflexivity. Qed.

Lemma trim_credential_idemp c : trim_credential (trim_credential c) = trim_credential c.
Proof. rewrite !trim_fields. cbn -[TrimSpace]. by rewrite !TrimSpace_idemp. Qed.

Lemma Validate_validated c v : Validate c = inr v → validated v ∧ v.(rc_AccountID) = TrimSpace c.(rc_AccountID).
Proof.
  unfold ValidateAccountRecoveryCredential. pose proof (trim_credential_idemp c) as Hi.
  assert (Ha : (trim_credential c).(rc_AccountID) = TrimSpace c.(rc_AccountID)) by done.
  destruct (trim_credential c) as [f1 f2 f3 f4 f5 f6 f7 f8 f9 f10 f11 f12 f13 f14].
  destruct (credential_refusal is_p256 _) eqn:Er; [done|].
  destruct (normalizeBlobKeyVerifier _) as [?|k] eqn:Ek; [done|]. intros [= <-]. split; [|done].
  apply normalize_canonical in Ek as (_ & Hk & _). split_and!; [|done|done].
  rewrite !trim_fields in *. unfold set_field. cbn -[TrimSpace] in *. congruence.
Qed.

Lemma validated_Validate c : validated c → Validate c = inr c.
Proof.
  intros (Ht & Hr & Hn). unfold ValidateAccountRecoveryCredential. rewrite Ht, Hr, Hn. by destruct c.
Qed.

Lemma validated_stamped c t t' : validated c → validated (c <| rc_CreatedAt := t |> <| rc_UpdatedAt := t' |>).
Proof.
  intros (Ht & Hr & Hn). split_and!; [|done|done]. rewrite !trim_fields in *. unfold set_field. destruct c; cbn -[TrimSpace] in *. congruence.
Qed.
End validation.

(** *** What the operations do to the stored credentials *)

Lemma wp_check_as {A} e (r : Err + A) (Q : A → Db → Prop) X s :
  (∀ a, r = inr a → Q a s) → X e s → wp (check_as e r) Q X s.
Proof. destruct r; intros HQ HX; [done | by apply HQ]. Qed.

Section rows.
Variables (uuid_ok : string → bool) (is_p256 : list N → bool).

Definition stored (a : string) (c : AccountRecoveryCredential) : Prop := c.(rc_AccountID) = a ∧ validated is_p256 c.

Definition same_recovery_keys (c c' : AccountRecoveryCredential) : Prop :=
  c'.(rc_RecoveryPublicKey) = c.(rc_RecoveryPublicKey) ∧ c'.(rc_BlobKeyVerifier) = c.(rc_BlobKeyVerifier)
  ∧ c.(rc_Version) ≤ c'.(rc_Version).

Inductive row_step (a : string) : option RecoveryRow → option RecoveryRow → Prop :=
| row_kept o : row_step a o o
| row_created c : stored a c → row_step a None (Some (MkRecoveryRow c 0 None))
| row_rewrapped row c : same_recovery_keys row.(rr_credential) c → (stored a row.(rr_credential) → stored a c) →
    row_step a (Some row) (Some (MkRecoveryRow c 0 None))
| row_counted row f l : row_step a (Some row) (Some (MkRecoveryRow row.(rr_credential) f l)).

Definition rows_step (t t' : gmap string RecoveryRow) : Prop := ∀ a, row_step a (t !! a) (t' !! a).

Lemma rows_step_insert t b row' : row_step b (t !! b) (Some row') → rows_step t (<[b := row']> t).
Proof.
  intros H a. destruct (decide (b = a)) as [->|Hne]; [by rewrite lookup_insert_eq|].
  rewrite lookup_insert_ne by done. constructor.
Qed.
Lemma rows_step_refl t : rows_step t t.
Proof. intros a. constructor. Qed.

Lemma validated_credential now accountID c v :
  ValidateAccountRecoveryCredential is_p256 (c <| rc_AccountID := TrimSpace accountID |>) = inr v →
  stored (TrimSpace accountID) v
  ∧ stored (TrimSpace accountID) (v <| rc_AccountID := TrimSpace accountID |> <| rc_CreatedAt := now |> <| rc_UpdatedAt := now |>).
Proof.
  intros [Hv Ha]%Validate_validated. cbn -[TrimSpace] in Ha. rewrite TrimSpace_idemp in Ha.
  split; [by split|]. split; [done|].
  assert (E : v <| rc_AccountID := TrimSpace accountID |> = v) by (unfold set_field; rewrite <-Ha; by destruct v).
  rewrite E. by apply validated_stamped.
Qed.

Lemma rewrapped_stored a now current v : stored a v → stored a current →
  current.(rc_RecoveryPublicKey) = v.(rc_RecoveryPublicKey) → current.(rc_BlobKeyVerifier) = v.(rc_BlobKeyVerifier) →
  stored a (rewrapped now current v).
Proof.
  intros [Ha Hv] [Ha' _] Hp Hb. split; [done|].
  apply (validated_stamped _ v current.(rc_CreatedAt) now) in Hv.
  assert (E : rewrapped now current v = v <| rc_CreatedAt := current.(rc_CreatedAt) |> <| rc_UpdatedAt := now |>); [|by rewrite E].
  unfold rewrapped. destruct v, current; cbn in *; subst. reflexivity.
Qed.

Lemma register_wp now a0 d c db :
  let a := TrimSpace a0 in
  wp (RegisterAccountRecoveryCredential is_p256 now a0 d c)
     (λ _ db', db'.(db_recovery) = db.(db_recovery)
        ∨ db.(db_recovery) !! a = None
          ∧ ∃ c', stored a c' ∧ db'.(db_recovery) = <[a := MkRecoveryRow c' 0 None]> db.(db_recovery))
     (λ _ db', db' = db) db.
Proof.
  unfold RegisterAccountRecoveryCredential. cbv zeta.
  destruct (ValidateAccountRecoveryCredential _ _) as [e|v] eqn:Ev; [by wp_steps|].
  apply (validated_credential now) in Ev as [_ Hs]. unfold check at 1.
  wp_steps; try (apply wp_check_as; [intros ? _; wp_steps|]); try done.
  all: destruct (db_recovery db !! TrimSpace a0) eqn:Er; wp_steps; solve [done | by left | right; eauto].
Qed.

Lemma rewrap_wp now a0 d c db :
  let a := TrimSpace a0 in
  wp (RewrapAccountRecoveryCredential is_p256 now a0 d c)
     (λ c' db', ∃ row, db.(db_recovery) !! a = Some row ∧ same_recovery_keys row.(rr_credential) c'
        ∧ (stored a row.(rr_credential) → stored a c')
        ∧ db'.(db_recovery) = <[a := MkRecoveryRow c' 0 None]> db.(db_recovery))
     (λ _ db', db' = db) db.
Proof.
  unfold RewrapAccountRecoveryCredential. cbv zeta.
  destruct (ValidateAccountRecoveryCredential _ _) as [e|v] eqn:Ev; [by wp_steps|].
  apply (validated_credential now) in Ev as [Hs _]. unfold check. wp_steps; try done.
  match goal with H : db_recovery db !! _ = Some ?r |- _ => rename H into Hr; exists r end.
  match goal with H : _ || _ = false |- _ => apply orb_false_iff in H as [Hp%negb_false_iff%str_eqb_eq Hb%negb_false_iff%str_eqb_eq] end.
  split_and!; [done | split_and!; [done | done |]; cbn; lia | | done].
  intros Hc. by apply rewrapped_stored.
Qed.

Lemma register_rows now a d c db :
  rows_step db.(db_recovery) (RegisterAccountRecoveryCredential is_p256 now a d c db).1.(db_recovery).
Proof.
  destruct (RegisterAccountRecoveryCredential _ _ _ _ _ _) as [db' r] eqn:E.
  pose proof (wp_run _ _ _ _ _ _ (register_wp now a d c db) E) as Hw. clear E.
  destruct r as [e|v]; cbn [fst]; [subst; apply rows_step_refl|]. destruct Hw as [->|(Hn & c' & Hc & ->)]; [apply rows_step_refl|]. apply rows_step_insert. rewrite Hn. by constructor.
Qed.

Lemma rewrap_rows now a d c db :
  rows_step db.(db_recovery) (RewrapAccountRecoveryCredential is_p256 now a d c db).1.(db_recovery).
Proof.
  destruct (RewrapAccountRecoveryCredential _ _ _ _ _ _) as [db' r] eqn:E.
  pose proof (wp_run _ _ _ _ _ _ (rewrap_wp now a d c db) E) as Hw. clear E.
  destruct r as [e|v]; cbn [fst]; [subst; apply rows_step_refl|]. destruct Hw as (row & Hr & Hk & Hs & ->). apply rows_step_insert. rewrite Hr. by constructor.
Qed.

Lemma challenge_rows now cid nonce a d name pk key db :
  rows_step db.(db_recovery) (CreateAccountRecoveryChallenge uuid_ok now cid nonce a d name pk key db).1.(db_recovery).
Proof.
  destruct (CreateAccountRecoveryChallenge _ _ _ _ _ _ _ _ _ _) as [db' r] eqn:E.
  pose proof (wp_run _ _ _ _ _ _ (challenge_wp uuid_ok now cid nonce a d name pk key db) E) as Hw. clear E.
  destruct r as [e|res]; cbn [fst].
  - destruct Hw as [[_ (row & Hr & _ & _ & ->)]|[_ ->]]; [|apply rows_step_refl].
    apply rows_step_insert. rewrite Hr. unfold count_failure. destruct (_ <=? _); apply (row_counted _ row).
  - destruct Hw as (row & Hr & _ & _ & _ & _ & _ & _ & -> & _). apply rows_step_insert. rewrite Hr. apply (row_counted _ row).
Qed.

Lemma complete_rows now cid : stable (same db_recovery) (CompleteAccountRecoveryEnrollment now cid).
Proof. unfold CompleteAccountRecoveryEnrollment, getAccountRecoveryCredential. by stable_steps. Qed.

Lemma run_recovery_rows op db : rows_step db.(db_recovery) (run_recovery uuid_ok is_p256 op db).(db_recovery).
Proof.
  destruct op; cbn [run_recovery]; auto using register_rows, rewrap_rows, challenge_rows.
  rewrite <-(complete_rows now challengeID db). apply rows_step_refl.
Qed.

(** Along a history, with [R] kept by every step. *)
Lemma recovery_history_ind (R : relation Db) `{!PreOrder R} ops db :
  (∀ op db, op ∈ ops → R db (run_recovery uuid_ok is_p256 op db)) → R db (recovery_history uuid_ok is_p256 ops db).
Proof.
  revert db. induction ops as [|op ops IH]; intros db H; cbn; [done|].
  etransitivity; [apply H; by left|]. apply IH. intros op' db' Hin. apply H. by right.
Qed.
End rows.

(** *** Counting wrong login keys *)

Section guesses.
Variables (uuid_ok : string → bool) (is_p256 : list N → bool) (a : string).
Notation run := (run_recovery uuid_ok is_p256).
Notation wrong := (wrong_guess uuid_ok a).
Notation clears := (clears_failures uuid_ok is_p256 a).

(** What an operation does to the count and the lock of account [a]. *)
Lemma guess_step op db :
  let o := db.(db_recovery) !! a in let o' := (run op db).(db_recovery) !! a in
  match wrong op db, clears op db with
  | true, _ => ∃ row, o = Some row ∧ locked (op_time op) row = false ∧ o' = Some (count_failure (op_time op) row)
  | false, true => failures_of o' = 0 ∧ lock_of o' = None
  | false, false => failures_of o' = failures_of o ∧ lock_of o' = lock_of o
  end.
Proof.
  cbv zeta. destruct op as [now a' d c|now a' d c|now cid nonce a' d name pk key|now cid]; cbn [wrong_guess clears_failures run_recovery op_time].
  - destruct (RegisterAccountRecoveryCredential _ _ _ _ _ _) as [db' r] eqn:Er.
    pose proof (wp_run _ _ _ _ _ _ (register_wp is_p256 now a' d c db) Er) as Hw. clear Er.
    destruct r as [e|v]; cbn [fst]; [by subst|].
    destruct Hw as [->|(Hn & c' & Hc & ->)]; [done|].
    destruct (decide (TrimSpace a' = a)) as [<-|Hne]; [by rewrite Hn, lookup_insert_eq | by rewrite lookup_insert_ne].
  - destruct (RewrapAccountRecoveryCredential _ _ _ _ _ _) as [db' r] eqn:Er.
    pose proof (wp_run _ _ _ _ _ _ (rewrap_wp is_p256 now a' d c db) Er) as Hw. clear Er.
    destruct r as [e|v]; cbn [fst snd]; [subst; by rewrite andb_false_r|].
    destruct Hw as (row & _ & _ & _ & ->). rewrite andb_true_r.
    destruct (TrimSpace a' =?s a) eqn:E; [apply str_eqb_eq in E as ->; by rewrite lookup_insert_eq|].
    apply str_eqb_neq in E. by rewrite lookup_insert_ne.
  - destruct (CreateAccountRecoveryChallenge _ _ _ _ _ _ _ _ _ _) as [db' r] eqn:Er.
    pose proof (wp_run _ _ _ _ _ _ (challenge_wp uuid_ok now cid nonce a' d name pk key db) Er) as Hw. clear Er.
    destruct r as [e|v]; cbn [fst snd].
    + rewrite andb_false_r. destruct Hw as [[-> (row & Hr & Hl & _ & ->)]|[He ->]].
      * rewrite andb_true_r. destruct (TrimSpace a' =?s a) eqn:E.
        -- apply str_eqb_eq in E. rewrite E in *. exists row. split_and!; [done | done |]. cbn. by rewrite lookup_insert_eq.
        -- apply str_eqb_neq in E. cbn. by rewrite lookup_insert_ne.
      * destruct e; try done; by rewrite andb_false_r.
    + rewrite andb_false_r, andb_true_r. destruct Hw as (row & _ & _ & _ & _ & _ & _ & _ & -> & _).
      destruct (TrimSpace a' =?s a) eqn:E; [apply str_eqb_eq in E as ->; by rewrite lookup_insert_eq|].
      apply str_eqb_neq in E. by rewrite lookup_insert_ne.
  - by rewrite <-(complete_rows now cid db).
Qed.

(** The account: [n] wrong keys so far, [p] of them before the last clearing at
    [s], [k] locks since, [r] clearings in all, at time [t]. *)
Definition within_budget (t0 s t k p r n : Z) (o : option RecoveryRow) : Prop :=
  t0 ≤ s ≤ t ∧ 0 ≤ k ∧ p ≤ 10 * ((s - t0) / hour_us + r) ∧ n ≤ p + 10 * k + failures_of o ∧ 0 ≤ failures_of o < 10
  ∧ (1 ≤ k → failures_of o = 0 → s + (k - 1) * hour_us ≤ t ∧ ∃ u, lock_of o = Some u ∧ s + k * hour_us ≤ u)
  ∧ (1 ≤ k → 1 ≤ failures_of o → s + k * hour_us ≤ t).

Lemma hours_elapsed t0 s t k : t0 ≤ s → 0 ≤ k → s + k * hour_us ≤ t → (s - t0) / hour_us + k ≤ (t - t0) / hour_us.
Proof.
  intros H0 Hk Ht. rewrite <-Z.div_add by done. apply Z.div_le_mono; [done | lia].
Qed.

Lemma budget_bound t0 s t k p r n o : within_budget t0 s t k p r n o → n ≤ 10 * ((t - t0) / hour_us + 1 + r).
Proof.
  intros ((H0 & Hs) & Hk & Hp & Hn & Hf & H1 & H2).
  destruct (decide (k = 0)) as [->|Hk0].
  { pose proof (hours_elapsed t0 s t 0). lia. }
  destruct (decide (failures_of o = 0)) as [E|E].
  - destruct H1 as [H1 _]; [lia | done |]. pose proof (hours_elapsed t0 s t (k - 1)). lia.
  - specialize (H2 ltac:(lia) ltac:(lia)). pose proof (hours_elapsed t0 s t k). lia.
Qed.

Lemma budget_wait t0 s t t' k p r n o : t ≤ t' → within_budget t0 s t k p r n o → within_budget t0 s t' k p r n o.
Proof.
  intros Ht (Hs & Hk & Hp & Hn & Hf & H1 & H2). split_and!; try lia.
  - intros Hk1 E. destruct (H1 Hk1 E) as [? (u & Hu & ?)]. split; [lia | by exists u].
Qed.

Lemma budget_wrong t0 s t k p r n row : locked t row = false → within_budget t0 s t k p r n (Some row) →
  ∃ k', within_budget t0 s t k' p r (n + 1) (Some (count_failure t row)).
Proof.
  intros Hl (Hs & Hk & Hp & Hn & Hf & H1 & H2). cbn [failures_of lock_of] in *.
  assert (Ht : 1 ≤ k → s + k * hour_us ≤ t).
  { intros Hk1. destruct (decide (row.(rr_failed_auth_attempts) = 0)) as [E|E]; [|apply H2; lia].
    destruct (H1 Hk1 E) as [_ (u & Hu & ?)]. unfold locked in Hl. rewrite Hu in Hl. lia. }
  unfold count_failure, accountRecoveryMaxFailedAuth. destruct (Z.leb_spec 10 (row.(rr_failed_auth_attempts) + 1)).
  - exists (k + 1). split_and!; cbn; try lia.
    intros _ _. unfold accountRecoveryAuthLockout. assert (s + k * hour_us ≤ t) by (destruct (decide (k = 0)); [subst; lia | apply Ht; lia]).
    split; [lia|]. eexists; split; [done | lia].
  - exists k. split_and!; cbn; try lia.
Qed.

Lemma wrong_guesses_bound ops t0 s t until k p r n db :
  ordered_within t until ops → within_budget t0 s t k p r n (db.(db_recovery) !! a) →
  n + count_ops uuid_ok is_p256 wrong ops db
    ≤ 10 * ((until - t0) / hour_us + 1 + (r + count_ops uuid_ok is_p256 clears ops db)).
Proof.
  revert s t k p r n db. induction ops as [|op ops IH]; intros s t k p r n db Ho Hb; cbn [count_ops ordered_within] in *.
  { rewrite !Z.add_0_r. eapply budget_bound, budget_wait; eauto. }
  destruct Ho as [Ht Ho]. pose proof (guess_step op db) as Hg. cbv zeta in Hg.
  apply (budget_wait _ _ _ _ _ _ _ _ _ Ht) in Hb. destruct (wrong op db).
  - destruct Hg as (row & Hr & Hl & Hr'). rewrite Hr in Hb. destruct (budget_wrong _ _ _ _ _ _ _ _ Hl Hb) as [k' Hb'].
    rewrite <-Hr' in Hb'. specialize (IH _ _ _ _ _ _ _ Ho Hb'). destruct (clears op db); lia.
  - destruct (clears op db).
    + pose proof (budget_bound _ _ _ _ _ _ _ _ Hb) as Hn. destruct Hg as [Hf Hl]. destruct Hb as ((H0 & Hs) & _).
      assert (Hb' : within_budget t0 (op_time op) (op_time op) 0 n (r + 1) n ((run op db).(db_recovery) !! a)).
      { unfold within_budget. rewrite Hf. split_and!; lia. }
      specialize (IH _ _ _ _ _ _ _ Ho Hb'). lia.
    + assert (Hb' : within_budget t0 s (op_time op) k p r n ((run op db).(db_recovery) !! a)).
      { unfold within_budget in *. destruct Hg as [-> ->]. exact Hb. }
      specialize (IH _ _ _ _ _ _ _ Ho Hb'). lia.
Qed.
End guesses.

(** *** Challenges *)

Definition enrolled_device (now : Z) (ch : RecoveryChallenge) (c : AccountRecoveryCredential) : Device :=
  MkDevice ch.(ch_account_id) ch.(ch_device_name) ch.(ch_device_public_key) (Some c.(rc_BlobKeyVerifier)) None now (Some now).

Lemma complete_wp now cid0 db :
  let cid := TrimSpace cid0 in
  wp (CompleteAccountRecoveryEnrollment now cid0)
     (λ res db', ∃ ch row, db.(db_recovery_challenges) !! cid = Some ch ∧ challenge_open now ch = true
        ∧ db.(db_recovery) !! TrimSpace ch.(ch_account_id) = Some row ∧ db.(db_devices) !! ch.(ch_device_id) = None
        ∧ res = (ch.(ch_account_id), enrolled_device now ch row.(rr_credential))
        ∧ db'.(db_devices) = <[ch.(ch_device_id) := res.2]> db.(db_devices)
        ∧ db'.(db_recovery_challenges) = <[cid := ch <| ch_consumed_at := Some now |>]> db.(db_recovery_challenges))
     (λ _ db', db' = db) db.
Proof.
  unfold CompleteAccountRecoveryEnrollment, getAccountRecoveryCredential. wp_steps; try done.
  do 2 eexists. split_and!; try done; [by apply negb_false_iff | by destruct (db_devices db !! _)].
Qed.

Lemma register_challenges is_p256 now a d c :
  stable (same db_recovery_challenges) (RegisterAccountRecoveryCredential is_p256 now a d c).
Proof. unfold RegisterAccountRecoveryCredential, check, check_as. by stable_steps. Qed.
Lemma rewrap_challenges is_p256 now a d c :
  stable (same db_recovery_challenges) (RewrapAccountRecoveryCredential is_p256 now a d c).
Proof. unfold RewrapAccountRecoveryCredential, check. by stable_steps. Qed.

Section challenges.
Variables (uuid_ok : string → bool) (is_p256 : list N → bool).
Notation run := (run_recovery uuid_ok is_p256).
Notation history := (recovery_history uuid_ok is_p256).

(** The operation [op], run on [db], issued the challenge [ch] under [cid]. *)
Definition issues (op : RecoveryOp) (db : Db) (cid : string) (ch : RecoveryChallenge) : Prop :=
  match op with
  | OpChallenge now cid' nonce a d name pk key =>
    cid' = cid ∧ ∃ c, (CreateAccountRecoveryChallenge uuid_ok now cid nonce a d name pk key db).2 = inr (c, ch)
  | _ => False
  end.

(** After an operation a challenge not used yet was there before or is new. *)
Lemma open_challenge_step op db cid ch :
  (run op db).(db_recovery_challenges) !! cid = Some ch → ch.(ch_consumed_at) = None →
  db.(db_recovery_challenges) !! cid = Some ch ∨ issues op db cid ch.
Proof.
  destruct op as [now a' d c|now a' d c|now cid' nonce a' d name pk key|now cid']; cbn [run_recovery issues].
  - rewrite <-(register_challenges is_p256 now a' d c db). by left.
  - rewrite <-(rewrap_challenges is_p256 now a' d c db). by left.
  - destruct (CreateAccountRecoveryChallenge uuid_ok now cid' nonce a' d name pk key db) as [db' r] eqn:Er.
    pose proof (wp_run _ _ _ _ _ _ (challenge_wp uuid_ok now cid' nonce a' d name pk key db) Er) as Hw.
    destruct r as [e|[c ch']]; cbn [fst].
    + destruct Hw as [[_ (row & _ & _ & _ & ->)]|[_ ->]]; by left.
    + destruct Hw as (_ & _ & _ & _ & _ & _ & _ & _ & _ & _ & _ & Hc). rewrite Hc. cbn [snd].
      intros Hl _. apply lookup_delete_where in Hl as [Hl _].
      destruct (decide (cid' = cid)) as [->|Hne]; [|left; by rewrite lookup_insert_ne in Hl].
      right. rewrite lookup_insert_eq in Hl. injection Hl as ->. split; [done|]. exists c. by rewrite Er.
  - destruct (CompleteAccountRecoveryEnrollment now cid' db) as [db' r] eqn:Er.
    pose proof (wp_run _ _ _ _ _ _ (complete_wp now cid' db) Er) as Hw. clear Er.
    destruct r as [e|res]; cbn [fst]; [subst; by left|]. destruct Hw as (ch' & row & _ & _ & _ & _ & _ & _ & ->).
    intros Hl Hc. left. destruct (decide (TrimSpace cid' = cid)) as [<-|Hne]; [|by rewrite lookup_insert_ne in Hl].
    rewrite lookup_insert_eq in Hl. injection Hl as <-. done.
Qed.

(** Every open challenge was issued in the history. *)
Lemma open_challenge_issued ops db cid ch :
  db.(db_recovery_challenges) = ∅ → (history ops db).(db_recovery_challenges) !! cid = Some ch → ch.(ch_consumed_at) = None →
  ∃ pre op post, ops = pre ++ op :: post ∧ issues op (history pre db) cid ch.
Proof.
  intros H0. revert cid ch. induction ops as [|op ops IH] using rev_ind; intros cid ch.
  { cbn. rewrite H0. by rewrite lookup_empty. }
  unfold recovery_history. rewrite foldl_snoc. intros Hl Hc.
  destruct (open_challenge_step op _ _ _ Hl Hc) as [Hl'|Hi].
  - destruct (IH _ _ Hl' Hc) as (pre & op' & post & -> & Hi). exists pre, op', (post ++ [op]). by rewrite <-app_assoc.
  - exists ops, op, []. done.
Qed.

(** The stored keys stay, whatever happens. *)
Lemma history_keys ops db a row : db.(db_recovery) !! a = Some row →
  ∃ row', (history ops db).(db_recovery) !! a = Some row' ∧ same_recovery_keys row.(rr_credential) row'.(rr_credential).
Proof.
  revert db row. induction ops as [|op ops IH]; intros db row Hr; [exists row; split; [done | split_and!; [done | done | lia]]|].
  pose proof (run_recovery_rows uuid_ok is_p256 op db a) as Hs. rewrite Hr in Hs.
  assert (∃ row1, (run op db).(db_recovery) !! a = Some row1 ∧ same_recovery_keys row.(rr_credential) row1.(rr_credential))
    as (row1 & Hr1 & Hk1 & Hk2 & Hk3).
  { inversion Hs; subst; eexists; split; try done; split_and!; try done; lia. }
  destruct (IH _ _ Hr1) as (row' & Hr' & Hk1' & Hk2' & Hk3'). exists row'. split; [done|].
  split_and!; [by rewrite Hk1' | by rewrite Hk2' | lia].
Qed.

Definition used_up (cid : string) (db : Db) : Prop :=
  ∀ ch, db.(db_recovery_challenges) !! cid = Some ch → ch.(ch_consumed_at) ≠ None.

Definition new_challenge_ids (cid : string) (ops : list RecoveryOp) : Prop :=
  ∀ now cid' nonce a d name pk key, OpChallenge now cid' nonce a d name pk key ∈ ops → cid' ≠ cid.

Lemma used_up_history ops db cid : new_challenge_ids cid ops → used_up cid db → used_up cid (history ops db).
Proof.
  intros Hn. apply (recovery_history_ind uuid_ok is_p256 (holds_after (used_up cid))). intros op db1 Hin Hu ch Hl Hc.
  destruct (open_challenge_step op db1 cid ch Hl Hc) as [Hl'|Hi]; [by eapply Hu|].
  destruct op; try done. destruct Hi as [-> _]. by eapply Hn.
Qed.
End challenges.

(** ** Properties *)

(** C21: Handing out a recovery envelope.  The checks are, in this order: the
    identity is complete, the account and device ids are UUIDs, the identity is
    not too large, the account has a credential of version 3 or later, a login
    key is given, the login lock is over, the key has 32 bytes and hashes to the
    stored verifier, the device id is not in use, and the challenge id is new for
    an existing account.  The first check that fails decides the error; a wrong
    login key is counted and changes nothing else, every other error changes
    nothing.  When none fails, and only then, the account's envelope and a
    challenge are returned; the challenge names that device, holds the nonce and
    expires after ten minutes, the failure count is cleared and the account's
    used and expired challenges are removed. *)
Theorem CreateAccountRecoveryChallenge_spec uuid_ok now cid nonce account device name pk key db :
  let a := TrimSpace account in
  let run := CreateAccountRecoveryChallenge uuid_ok now cid nonce account device name pk key db in
  match first_failing (challenge_checks uuid_ok now cid a (TrimSpace device) (TrimSpace name) (TrimSpace pk) key db) with
  | Some ErrRecoveryLoginFailed =>
    ∃ row, db.(db_recovery) !! a = Some row ∧ locked now row = false
    ∧ ~ (length key = 32%nat ∧ row.(rr_credential).(rc_AuthVerifier) = RecoveryLoginKeyVerifier key)
    ∧ run = (db <| db_recovery ::= <[a := count_failure now row]> |>, inl ErrRecoveryLoginFailed)
  | Some e => run = (db, inl e)
  | None =>
    ∃ row db', let c := row.(rr_credential) in
    let ch := MkRecoveryChallenge a (TrimSpace device) (TrimSpace name) (TrimSpace pk) (raw_url_encode nonce)
                (now + 10 * minute_us) None now in
    run = (db', inr (c, ch))
    ∧ db.(db_recovery) !! a = Some row ∧ 3 ≤ c.(rc_Version) ∧ locked now row = false
    ∧ length key = 32%nat ∧ c.(rc_AuthVerifier) = RecoveryLoginKeyVerifier key
    ∧ db.(db_devices) !! TrimSpace device = None ∧ db'.(db_devices) = db.(db_devices)
    ∧ db'.(db_recovery_challenges) !! cid = Some ch
    ∧ (∀ cid' ch', db'.(db_recovery_challenges) !! cid' = Some ch' → ch'.(ch_account_id) = a →
         challenge_open now ch' = true)
    ∧ db'.(db_recovery) = <[a := forgiven row]> db.(db_recovery)
  end.
Proof.
  intros a run. pose proof (challenge_answers uuid_ok now cid nonce account device name pk key db) as Hans. cbv zeta in Hans. fold a in Hans.
  pose proof (challenge_wp uuid_ok now cid nonce account device name pk key db) as Hw. cbv zeta in Hw. fold a in Hw.
  unfold wp in Hans, Hw. fold run in Hans, Hw. destruct run as [db' [e|[c ch]]]; rewrite Hans.
  - destruct Hw as [[-> (row & Hr & Hl & Hk & ->)]|[He ->]]; [|by destruct e].
    exists row. split_and!; try done. intros [Hlen Hv]. unfold login_key_matches in Hk.
    by rewrite Hlen, Hv, str_eqb_refl in Hk.
  - destruct Hw as (row & Hr & Hc & Hv & Hl & Hk & Hd & Hch & Hrec & Hdev & _ & Hcs). cbn [fst snd] in *. subst c.
    unfold login_key_matches in Hk. apply andb_true_iff in Hk as [Hlen%Nat.eqb_eq Hk%str_eqb_eq].
    exists row, db'. split_and!; try done.
    + by rewrite Hch.
    + rewrite Hcs. apply lookup_delete_where. rewrite lookup_insert_eq. rewrite Hch. split; [done|]. cbn.
      rewrite orb_false_r. apply andb_false_iff. right. apply Z.leb_gt. change minute_us with 60000000. lia.
    + rewrite Hcs. intros cid' ch' [_ Hp]%lookup_delete_where Ha. rewrite Ha, str_eqb_refl in Hp. cbn in Hp.
      apply orb_false_iff in Hp as [He%Z.leb_gt Hn]. unfold challenge_open. unfold not_null in Hn.
      apply negb_false_iff in Hn. rewrite Hn. by apply Z.ltb_lt.
Qed.

(** C19: Guessing the login key.  In any history of recovery operations in time
    order, the wrong login keys that are tried on an account's credential are at
    most ten for the start, ten for each full hour that passes, and ten for each
    time its owner proves the right key or sets a new password. *)
Theorem login_guesses_bounded uuid_ok is_p256 a ops db t until :
  ordered_within t until ops → 0 ≤ failures_of (db.(db_recovery) !! a) < accountRecoveryMaxFailedAuth →
  count_ops uuid_ok is_p256 (wrong_guess uuid_ok a) ops db
    ≤ 10 * ((until - t) / hour_us + 1 + count_ops uuid_ok is_p256 (clears_failures uuid_ok is_p256 a) ops db).
Proof.
  intros Ho Hf. pose proof (wrong_guesses_bound uuid_ok is_p256 a ops t t t until 0 0 0 0 db Ho) as H.
  rewrite !Z.add_0_l in H. apply H. unfold within_budget, accountRecoveryMaxFailedAuth in *. rewrite Z.sub_diag. change (0 / hour_us) with 0. split_and!; lia.
Qed.

(** The keys behind a password.  Whatever sequence of recovery operations
    runs, an account that has a recovery credential keeps it, with the same
    recovery key and the same blob-key verifier, and its version never falls: a
    new password re-wraps the same keys. *)
Theorem recovery_keys_fixed uuid_ok is_p256 ops db a row :
  db.(db_recovery) !! a = Some row →
  ∃ row', (recovery_history uuid_ok is_p256 ops db).(db_recovery) !! a = Some row'
    ∧ row'.(rr_credential).(rc_RecoveryPublicKey) = row.(rr_credential).(rc_RecoveryPublicKey)
    ∧ row'.(rr_credential).(rc_BlobKeyVerifier) = row.(rr_credential).(rc_BlobKeyVerifier)
    ∧ row.(rr_credential).(rc_Version) ≤ row'.(rr_credential).(rc_Version).
Proof. apply history_keys. Qed.

(** C20: Enrolling a phone needs the login key.  From a state with no challenges,
    a phone is enrolled only within ten minutes of a call that proved the login
    key of the account's credential for that very device id, name and key; it is
    new, and holds the blob-key verifier of the credential that was proved. *)
Theorem enrollment_needs_login_key uuid_ok is_p256 ops db0 now cid db' acct d :
  db0.(db_recovery_challenges) = ∅ →
  CompleteAccountRecoveryEnrollment now cid (recovery_history uuid_ok is_p256 ops db0) = (db', inr (acct, d)) →
  ∃ pre post t nonce a dev name pk key row,
    ops = pre ++ OpChallenge t (TrimSpace cid) nonce a dev name pk key :: post
    ∧ now < t + accountRecoveryChallengeTTL ∧ acct = TrimSpace a
    ∧ (recovery_history uuid_ok is_p256 pre db0).(db_recovery) !! acct = Some row
    ∧ AccountRecoveryArgonVersion ≤ row.(rr_credential).(rc_Version)
    ∧ login_key_matches row.(rr_credential) key = true ∧ locked t row = false
    ∧ d = MkDevice acct (TrimSpace name) (TrimSpace pk) (Some row.(rr_credential).(rc_BlobKeyVerifier)) None now (Some now)
    ∧ (recovery_history uuid_ok is_p256 ops db0).(db_devices) !! TrimSpace dev = None
    ∧ db'.(db_devices) = <[TrimSpace dev := d]> (recovery_history uuid_ok is_p256 ops db0).(db_devices).
Proof.
  intros H0 Hrun. apply (wp_run _ _ _ _ _ _ (complete_wp now cid _)) in Hrun.
  destruct Hrun as (ch & row' & Hch & Ho & Hr' & Hd & [= -> ->] & Hdev & _). cbn [snd] in Hdev.
  unfold challenge_open in Ho. apply andb_true_iff in Ho as [Hcons Hexp%Z.ltb_lt].
  destruct (open_challenge_issued uuid_ok is_p256 ops db0 _ _ H0 Hch) as (pre & op & post & Hops & Hi).
  { by destruct (ch_consumed_at ch). }
  destruct op as [| |t cid' nonce a dev name pk key|]; try done. destruct Hi as [-> (c & Hi)]. apply run_of in Hi.
  apply (wp_run _ _ _ _ _ _ (challenge_wp uuid_ok t _ nonce a dev name pk key _)) in Hi.
  destruct Hi as (row & Hr & Hc & Hv & Hl & Hk & _ & Hch' & Hrec & _). cbn [fst snd] in *. subst c.
  exists pre, post, t, nonce, a, dev, name, pk, key, row. subst ch. cbn [ch_account_id ch_device_id ch_device_name ch_device_public_key ch_expires_at] in *.
  rewrite TrimSpace_idemp in Hr'.
  assert (Hsame : same_recovery_keys row.(rr_credential) row'.(rr_credential)).
  { destruct (history_keys uuid_ok is_p256 (OpChallenge t (TrimSpace cid) nonce a dev name pk key :: post) _ _ _ Hr)
      as (row2 & Hr2 & Hs). rewrite Hops in Hr'. unfold recovery_history in *. rewrite foldl_app in Hr'.
    rewrite Hr' in Hr2. by injection Hr2 as ->. }
  destruct Hsame as (_ & Hb & _). unfold enrolled_device in *. cbn in Hdev |- *. rewrite Hb in *. split_and!; done.
Qed.

(** A challenge enrolls one phone.  Once it has enrolled a phone, no later
    history of recovery operations makes it usable again, provided that new
    challenges get new ids. *)
Theorem challenge_enrolls_once uuid_ok is_p256 now cid db db1 res ops now' :
  CompleteAccountRecoveryEnrollment now cid db = (db1, inr res) → new_challenge_ids (TrimSpace cid) ops →
  CompleteAccountRecoveryEnrollment now' cid (recovery_history uuid_ok is_p256 ops db1)
  = (recovery_history uuid_ok is_p256 ops db1, inl ErrRecoveryChallengeInvalid).
Proof.
  intros Hrun Hn. apply (wp_run _ _ _ _ _ _ (complete_wp now cid _)) in Hrun.
  destruct Hrun as (ch & row' & _ & _ & _ & _ & _ & _ & Hch).
  assert (Hu : used_up (TrimSpace cid) db1).
  { intros ch'. rewrite Hch, lookup_insert_eq. by intros [= <-]. }
  apply (used_up_history uuid_ok is_p256 ops _ _ Hn) in Hu. generalize dependent (recovery_history uuid_ok is_p256 ops db1).
  intros db2 Hu. unfold CompleteAccountRecoveryEnrollment, atomically, mbind, M_bind, gets, Datatypes.id. cbn -[TrimSpace].
  destruct (db_recovery_challenges db2 !! TrimSpace cid) as [ch2|] eqn:E; [|done]. cbn -[TrimSpace].
  apply Hu in E. unfold challenge_open. destruct (ch_consumed_at ch2); [|done]. done.
Qed.

Lemma or_err_None e e' : or_err e e' = None → e = None ∧ e' = None.
Proof. by destruct e, e'. Qed.

Lemma validated_storable is_p256 c : validated is_p256 c → credential_check c = true.
Proof.
  intros (_ & Hr & _). unfold credential_refusal in Hr.
  destruct (negb _) eqn:Ee in Hr; [done|]. apply negb_false_iff in Ee. apply or_err_None in Hr as [Hk _].
  unfold credential_check. unfold AccountRecoveryEnvelopeAlgorithm in Ee. rewrite Ee. cbn [andb]. unfold validate_kdf in Hk.
  unfold AccountRecoveryVersion, AccountRecoveryKDFAlgorithm, AccountRecoveryMinIterations, AccountRecoveryMaxIterations,
    AccountRecoveryArgonVersion, AccountRecoveryArgonKDFAlgorithm, AccountRecoveryArgonMinPasses, AccountRecoveryArgonMaxPasses in Hk.
  change AccountRecoveryArgonMinMemoryKiB with 65536 in Hk. change AccountRecoveryArgonMaxMemoryKiB with 262144 in Hk.
  destruct (_ && _) eqn:E2 in Hk.
  - destruct (_ || _) eqn:Ei in Hk; [done|]. destruct (_ || _) eqn:Em in Hk; [done|].
    apply orb_false_iff in Ei as [Ei1 Ei2], Em as [_ Em%negb_false_iff]. rewrite E2, Em. cbn [andb].
    apply orb_true_iff. left. rewrite !andb_true_iff. lia.
  - destruct (_ && _) eqn:E3 in Hk; [|done]. destruct (_ || _) eqn:Ei in Hk; [done|].
    rewrite !orb_false_iff in Ei. destruct Ei as [[[? ?] ?] ?]. rewrite E3. cbn [andb].
    apply orb_true_iff. right. rewrite !andb_true_iff. split_and!; try lia.
    apply negb_true_iff, str_eqb_neq. intros E. rewrite E in Hk. by vm_compute in Hk.
Qed.

(** C39: What a stored credential looks like.  If every recovery credential in
    the database belongs to its account, is what validation returns, and meets
    the table's constraints, then so it is after any sequence of recovery
    operations; what validation returns always meets the constraints. *)
Theorem stored_credentials_valid uuid_ok is_p256 ops db :
  let well_formed (db : Db) := ∀ a row, db.(db_recovery) !! a = Some row →
    row.(rr_credential).(rc_AccountID) = a
    ∧ ValidateAccountRecoveryCredential is_p256 row.(rr_credential) = inr row.(rr_credential)
    ∧ credential_check row.(rr_credential) = true in
  (∀ c c', ValidateAccountRecoveryCredential is_p256 c = inr c' → credential_check c' = true)
  ∧ (well_formed db → well_formed (recovery_history uuid_ok is_p256 ops db)).
Proof.
  intros wf. split; [intros c c' [Hv _]%Validate_validated; by eapply validated_storable|].
  assert (Hs : ∀ db, wf db ↔ ∀ a row, db.(db_recovery) !! a = Some row → stored is_p256 a row.(rr_credential)).
  { intros db1. split; intros H a row Hr.
    - destruct (H a row Hr) as (Ha & [Hv _]%Validate_validated & _). by split.
    - destruct (H a row Hr) as [Ha Hv]. split_and!; [done | by apply validated_Validate | by eapply validated_storable]. }
  rewrite !Hs. apply (recovery_history_ind uuid_ok is_p256
    (holds_after (λ db, ∀ a row, db.(db_recovery) !! a = Some row → stored is_p256 a row.(rr_credential)))).
  intros op db1 _ H a row Hr. pose proof (run_recovery_rows uuid_ok is_p256 op db1 a) as Hstep. rewrite Hr in Hstep.
  inversion Hstep as [o Ho E|c Hc E|row1 c _ Hc E|row1 f l E]; subst; cbn; eauto.
Qed.

(** *** Witnesses *)

Definition any_uuid (s : string) : bool := true.
Definition any_key (der : list N) : bool := true.
Definition sample_login_key : list N := repeat 7%N 32.
Definition sample_credential : AccountRecoveryCredential :=
  MkRecoveryCredential "acct" 3 "ARGON2ID_V3" (raw_url_encode (repeat 1%N 32)) 3 "AES_GCM_256_V1"
    (raw_url_encode (repeat 2%N 12)) (raw_url_encode (repeat 3%N 64))
    "AAAAAAAAAAAAAAAAAAAAAAAAAAAAAAAAAAAAAAAAAAAAAAAAAAAAAAAAAAAAAAAAAAAAAAAAAAAAAAAAAAAAAAAA"
    sample_verifier 65536 (RecoveryLoginKeyVerifier sample_login_key) 0 0.
Definition sample_recovery : Db := sample_devices <| db_recovery := {["acct" := MkRecoveryRow sample_credential 0 None]} |>.
Definition sample_login : RecoveryOp := OpChallenge 100 "ch" (repeat 9%N 32) "acct" "new-phone" "Phone" "pk" sample_login_key.
Definition sample_guess (t : Z) : RecoveryOp := OpChallenge t "gu" (repeat 9%N 32) "acct" "other-phone" "Phone" "pk" [1%N].

Definition is_inr {A B} (r : A + B) : bool := match r with inr _ => true | inl _ => false end.

Example sample_credential_valid : is_inr (ValidateAccountRecoveryCredential any_key sample_credential) = true.
Proof. vm_compute. reflexivity. Qed.

Lemma sample_device_known :
  first_failing (challenge_checks any_uuid 100 "ch" (TrimSpace "acct") (TrimSpace "d1") (TrimSpace "Phone") (TrimSpace "pk")
    sample_login_key sample_recovery) = Some ErrRecoveryDeviceExists.
Proof. vm_compute. reflexivity. Qed.
Lemma sample_device_new :
  first_failing (challenge_checks any_uuid 100 "ch" (TrimSpace "acct") (TrimSpace "new-phone") (TrimSpace "Phone") (TrimSpace "pk")
    sample_login_key sample_recovery) = None.
Proof. vm_compute. reflexivity. Qed.

Lemma CreateAccountRecoveryChallenge_spec_witness :
  CreateAccountRecoveryChallenge any_uuid 100 "ch" (repeat 9%N 32) "acct" "d1" "Phone" "pk" sample_login_key sample_recovery
    = (sample_recovery, inl ErrRecoveryDeviceExists)
  ∧ ∃ row db', CreateAccountRecoveryChallenge any_uuid 100 "ch" (repeat 9%N 32) "acct" "new-phone" "Phone" "pk" sample_login_key
      sample_recovery = (db', inr (row.(rr_credential), MkRecoveryChallenge "acct" "new-phone" "Phone" "pk"
        (raw_url_encode (repeat 9%N 32)) (100 + 10 * minute_us) None 100)).
Proof.
  split.
  - pose proof (CreateAccountRecoveryChallenge_spec any_uuid 100 "ch" (repeat 9%N 32) "acct" "d1" "Phone" "pk" sample_login_key
      sample_recovery) as Hs. cbv zeta in Hs. rewrite sample_device_known in Hs. exact Hs.
  - pose proof (CreateAccountRecoveryChallenge_spec any_uuid 100 "ch" (repeat 9%N 32) "acct" "new-phone" "Phone" "pk" sample_login_key
      sample_recovery) as Hs. cbv zeta in Hs. rewrite sample_device_new in Hs. destruct Hs as (row & db' & Hrun & _).
    exists row, db'. exact Hrun.
Defined.

Lemma sample_row : sample_recovery.(db_recovery) !! "acct"%string = Some (MkRecoveryRow sample_credential 0 None).
Proof. apply lookup_singleton_eq. Qed.

Lemma login_guesses_bounded_witness :
  count_ops any_uuid any_key (wrong_guess any_uuid "acct") (repeat (sample_guess 100) 12) sample_recovery = 10
  ∧ count_ops any_uuid any_key (wrong_guess any_uuid "acct") (repeat (sample_guess 100) 12) sample_recovery
    ≤ 10 * ((200 - 50) / hour_us + 1
            + count_ops any_uuid any_key (clears_failures any_uuid any_key "acct") (repeat (sample_guess 100) 12) sample_recovery).
Proof.
  split; [vm_compute; reflexivity|]. apply (login_guesses_bounded any_uuid any_key "acct" (repeat (sample_guess 100) 12) sample_recovery 50 200).
  - cbn. lia.
  - rewrite sample_row. split; vm_compute; congruence.
Defined.

Lemma recovery_keys_fixed_witness :
  ∃ row', (recovery_history any_uuid any_key [sample_guess 90; sample_login; OpComplete 110 "ch"] sample_recovery).(db_recovery)
            !! "acct"%string = Some row'
    ∧ row'.(rr_credential).(rc_BlobKeyVerifier) = sample_verifier.
Proof.
  destruct (recovery_keys_fixed any_uuid any_key [sample_guess 90; sample_login; OpComplete 110 "ch"] sample_recovery _ _ sample_row)
    as (row' & Hr & _ & Hb & _). exists row'. split; [exact Hr | exact Hb].
Defined.

Definition sample_challenged : Db := recovery_history any_uuid any_key [sample_guess 90; sample_login] sample_recovery.
Definition sample_phone : Device := MkDevice "acct" "Phone" "pk" (Some sample_verifier) None 110 (Some 110).

Lemma sample_enrolls : (CompleteAccountRecoveryEnrollment 110 "ch" sample_challenged).2 = inr ("acct"%string, sample_phone).
Proof. vm_compute. reflexivity. Qed.

Lemma enrollment_needs_login_key_witness :
  ∃ pre post t nonce a dev name pk key row,
    [sample_guess 90; sample_login] = pre ++ OpChallenge t (TrimSpace "ch") nonce a dev name pk key :: post
    ∧ 110 < t + accountRecoveryChallengeTTL ∧ login_key_matches row.(rr_credential) key = true.
Proof.
  destruct (enrollment_needs_login_key any_uuid any_key [sample_guess 90; sample_login] sample_recovery 110 "ch" _ _ _
    eq_refl (run_of _ _ _ sample_enrolls)) as (pre & post & t & nonce & a & dev & name & pk & key & row & H1 & H2 & _ & _ & _ & H3 & _).
  exists pre, post, t, nonce, a, dev, name, pk, key, row. split; [exact H1 | split; [exact H2 | exact H3]].
Defined.

Lemma challenge_enrolls_once_witness :
  CompleteAccountRecoveryEnrollment 120 "ch" (recovery_history any_uuid any_key [sample_guess 115]
      (CompleteAccountRecoveryEnrollment 110 "ch" sample_challenged).1)
  = (recovery_history any_uuid any_key [sample_guess 115] (CompleteAccountRecoveryEnrollment 110 "ch" sample_challenged).1,
     inl ErrRecoveryChallengeInvalid).
Proof.
  apply (challenge_enrolls_once any_uuid any_key 110 "ch" _ _ _ [sample_guess 115] 120 (run_of _ _ _ sample_enrolls)).
  intros now cid' nonce a d name pk key H. apply list_elem_of_singleton in H. unfold sample_guess in H. injection H as -> -> _. done.
Defined.

Lemma stored_credentials_valid_witness :
  ∃ row, (recovery_history any_uuid any_key [sample_guess 90; sample_login] sample_recovery).(db_recovery) !! "acct"%string = Some row
    ∧ credential_check row.(rr_credential) = true.
Proof.
  set (db := recovery_history any_uuid any_key [sample_guess 90; sample_login] sample_recovery).
  assert (E : bool_decide (is_Some (db.(db_recovery) !! "acct"%string)) = true) by (vm_compute; reflexivity).
  apply bool_decide_eq_true in E as [row Hr]. exists row. split; [exact Hr|].
  eapply (stored_credentials_valid any_uuid any_key [sample_guess 90; sample_login] sample_recovery); [|exact Hr].
  intros a' row'. unfold sample_recovery. cbn -[lookup ValidateAccountRecoveryCredential credential_check].
  intros [<- <-]%lookup_singleton_Some. split_and!; [reflexivity | | vm_compute; reflexivity].
  apply validated_Validate. split_and!; vm_compute; reflexivity.
Defined.
