(* ===== verification/Runtimes.v ===== *)
(** * The life of a runtime

    Models the operations of internal/store/store.go on runtimes: creating
    (1561), settings (1794), starting (4035), stopping (4155), wiping (4231),
    deleting (1972), deleting the account (1176) and what a node reports about
    a runtime it holds (6882-7130).  [operation_generation] orders them: each
    operation that changes what a node must do raises it, and a report counts
    only with the current one.  Random ids are arguments; deleting an account
    cascades as the schema's foreign keys say. *)

From S2P Require Import Prelude.
From S2P Require Import GoLib.
From S2P Require Import Schema.
From S2P Require Import Manifests.
From S2P Require Import Common.
From S2P Require Import Billing.
From S2P Require Import Wallet.
From S2P Require Import Registry.
From S2P Require Import Provisioning.
From S2P Require Import Entitlements.
From S2P Require Import Apps.
From S2P Require Import Placement.
From S2P Require Import Profiles.
Open Scope Z_scope.

(** [RETURNING] of a row that the update matched. *)
Definition read_runtime (runtimeID : string) : Tx Runtime :=
  r ← gets (λ db, db.(db_runtimes) !! runtimeID);
  require r ErrRuntimeNotFound.

(** ** Creating *)

Definition CreateRuntime (now : Z) (runtimeID androidVersion accountID : string) (input : CreateRuntimeInput)
    : Tx Runtime :=
  let accountID := TrimSpace accountID in
  refuse_if (accountID =?s "") (ErrText "account id is required");;
  input ← normalizedCreateInput input androidVersion;
  atomically (
    (* SELECT 1 FROM accounts ... through ExecContext reads nothing *)
    ensureRuntimeCreateEntitlementTX now accountID;;
    db ← gets id;
    refuse_if (is_null (db.(db_accounts) !! accountID)) (ErrCheck "runtimes.account_id");;
    refuse_if (not_null (db.(db_runtimes) !! runtimeID)) (ErrUnique "runtimes_pkey");;
    let row := default_runtime accountID "stopped" now
      <| rt_name := input.(ci_Name) |> <| rt_android_image := input.(ci_AndroidImage) |>
      <| rt_android_version := input.(ci_AndroidVersion) |> <| rt_width_px := input.(ci_WidthPx) |>
      <| rt_height_px := input.(ci_HeightPx) |> <| rt_density_dpi := input.(ci_DensityDpi) |>
      <| rt_audio_enabled := input.(ci_AudioEnabled) |> <| rt_camera_mode := input.(ci_CameraMode) |>
      <| rt_file_mode := input.(ci_FileMode) |> <| rt_blob_auto_snapshot := input.(ci_BlobAutoSnapshot) |>
      <| rt_blob_retain_days := input.(ci_BlobRetainDays) |>
      <| rt_idle_timeout_seconds := input.(ci_IdleTimeoutSeconds) |> <| rt_egress_mode := input.(ci_EgressMode) |> in
    modify (λ db, db <| db_runtimes ::= <[runtimeID := row]> |>);;
    (if (0 <? length input.(ci_AppPackages))%nat
     then replaceRuntimeAppSelectionsTX now runtimeID input.(ci_AppPackages) else mret tt);;
    appendRuntimeLogTX now runtimeID "user" "info"
      "Runtime profile created. A fresh container will be assigned when a session starts.";;
    mret row).

(** ** Settings *)

Definition GetRuntime (accountID runtimeID : string) : Tx Runtime :=
  db ← gets id;
  r ← require (db.(db_runtimes) !! runtimeID) ErrRuntimeNotFound;
  refuse_if (negb (runtime_of accountID r)) ErrRuntimeNotFound;;
  mret r.

Definition settings_message (r : Runtime) : string :=
  "Settings updated. image=" +:+ r.(rt_android_image) +:+ " version=" +:+ r.(rt_android_version)
  +:+ " display=" +:+ fmt_d r.(rt_width_px) +:+ "x" +:+ fmt_d r.(rt_height_px) +:+ "@" +:+ fmt_d r.(rt_density_dpi)
  +:+ "dpi camera=" +:+ r.(rt_camera_mode) +:+ " files=" +:+ r.(rt_file_mode)
  +:+ " snapshots=" +:+ (if r.(rt_blob_auto_snapshot) then "true"%string else "false"%string)
  +:+ "/" +:+ fmt_d r.(rt_blob_retain_days) +:+ "d egress=" +:+ r.(rt_egress_mode)
  +:+ " region=" +:+ (if not_null r.(rt_region_sealed) then "sealed"%string else "off"%string).

(** The columns the UPDATE writes, taken from [s]. *)
Definition write_settings (now : Z) (s r : Runtime) : Runtime :=
  r <| rt_name := s.(rt_name) |> <| rt_android_image := s.(rt_android_image) |>
    <| rt_android_version := s.(rt_android_version) |> <| rt_width_px := s.(rt_width_px) |>
    <| rt_height_px := s.(rt_height_px) |> <| rt_density_dpi := s.(rt_density_dpi) |>
    <| rt_audio_enabled := s.(rt_audio_enabled) |> <| rt_camera_mode := s.(rt_camera_mode) |>
    <| rt_file_mode := s.(rt_file_mode) |> <| rt_blob_auto_snapshot := s.(rt_blob_auto_snapshot) |>
    <| rt_blob_retain_days := s.(rt_blob_retain_days) |> <| rt_idle_timeout_seconds := s.(rt_idle_timeout_seconds) |>
    <| rt_egress_mode := s.(rt_egress_mode) |> <| rt_region_sealed := s.(rt_region_sealed) |>
    <| rt_updated_at := now |>.

Definition UpdateRuntimeSettings (now : Z) (androidVersion accountID runtimeID : string) (input : UpdateRuntimeInput)
    : Tx Runtime :=
  current ← GetRuntime accountID runtimeID;
  changed ← changed_settings androidVersion current input;
  atomically (
    db ← gets id;
    r ← require (own_runtime accountID runtimeID db) ErrRuntimeNotFound;
    set_runtime runtimeID (write_settings now changed);;
    runtime ← read_runtime runtimeID;
    appendRuntimeLogTX now runtimeID "user" "info" (settings_message runtime);;
    mret runtime).

(** ** Starting *)

Definition viewerPortStart : Z := 46000.
Definition viewerPortEnd : Z := 46099.

(** [viewer_port IS NOT NULL AND deleted_at IS NULL]. *)
Definition port_used (db : Db) (port : Z) : bool :=
  exists_where (λ _ r, rt_live r && bool_decide (r.(rt_viewer_port) = Some port)) db.(db_runtimes).

(** The first free port from [port] on; [fuel] counts the ports left. *)
Fixpoint first_port (fuel : nat) (db : Db) (port : Z) : option Z :=
  match fuel with
  | O => None
  | S fuel => if port_used db port then first_port fuel db (port + 1) else Some port
  end.

Definition allocateViewerPortTX : Tx Z :=
  db ← gets id;
  require (first_port (Z.to_nat (viewerPortEnd - viewerPortStart + 1)) db viewerPortStart)
    (ErrText "no viewer ports available").

Definition start_row (now : Z) (hostID : string) (viewerPort : Z) (freshIdentity : bool) (r : Runtime) : Runtime :=
  r <| rt_host_id := Some hostID |> <| rt_status := "starting"%string |> <| rt_desired_state := "running"%string |>
    <| rt_operation_generation ::= (λ g, g + 1) |> <| rt_connection_status := "connecting"%string |>
    <| rt_viewer_port := Some viewerPort |> <| rt_wipe_requested := false |> <| rt_last_error := None |>
    <| rt_identity_reset_persona_version ::= (λ v, if freshIdentity then Some (r.(rt_persona_version) + 1) else v) |>
    <| rt_persona_version ::= (λ v, v + 1) |>
    <| rt_active_persona_json := None |> <| rt_container_name := None |> <| rt_adb_port := None |>
    <| rt_started_at := Some now |> <| rt_deleted_at := None |> <| rt_updated_at := now |>.

Definition start_message (r : Runtime) (freshIdentity : bool) : string :=
  "Runtime start requested. persona_version=" +:+ fmt_d r.(rt_persona_version) +:+ "."
  +:+ (if freshIdentity then " Apps get new device IDs."%string else ""%string).

Definition startRuntime (pricing : Pricing) (now : Z) (accountID runtimeID requiredHostID : string)
    (freshIdentity : bool) : Tx Runtime :=
  atomically (
    db ← gets id;
    current ← require (own_runtime accountID runtimeID db) ErrRuntimeNotFound;
    if wants_state "running" current then mret current
    else
      refuse_if current.(rt_cleanup_pending) ErrRuntimeCleanupPending;;
      ensureRuntimeStartEntitlementTX pricing now accountID runtimeID;;
      hostID ← (if requiredHostID =?s ""
                then pickReadyRuntimeHostTX now (valueOrEmpty current.(rt_host_id)) runtimeID current
                else requireReadyRuntimeHostTX now requiredHostID runtimeID current);
      viewerPort ← match current.(rt_viewer_port) with
                   | Some port => mret port
                   | None => allocateViewerPortTX
                   end;
      set_runtime runtimeID (start_row now hostID viewerPort freshIdentity);;
      runtime ← read_runtime runtimeID;
      appendRuntimeLogTX now runtimeID "user" "info" (start_message runtime freshIdentity);;
      appendRuntimeStartEventTX now accountID runtimeID;;
      mret runtime).

Definition StartRuntime (pricing : Pricing) (now : Z) (accountID runtimeID : string) : Tx Runtime :=
  startRuntime pricing now accountID runtimeID "" false.
Definition StartRuntimeOnHost (pricing : Pricing) (now : Z) (accountID runtimeID hostID : string)
    (freshIdentity : bool) : Tx Runtime :=
  startRuntime pricing now accountID runtimeID (TrimSpace hostID) freshIdentity.

(** ** Stopping, wiping, deleting *)

(** Ends every viewing session of the runtime and revokes its capabilities. *)
Definition cut_off_viewers (now : Z) (runtimeID reason : string) : Tx unit :=
  closeRuntimeSessionsTX now runtimeID reason;;
  revokeRuntimeCapabilitiesForRuntimeTX now runtimeID;;
  mret tt.

Definition stop_row (now : Z) (r : Runtime) : Runtime :=
  r <| rt_status := "stopping"%string |> <| rt_desired_state := "stopped"%string |>
    <| rt_operation_generation ::= (λ g, g + 1) |> <| rt_connection_status := "disconnecting"%string |>
    <| rt_started_at := None |> <| rt_updated_at := now |>.

Definition StopRuntime (now : Z) (accountID runtimeID : string) : Tx Runtime :=
  atomically (
    db ← gets id;
    current ← require (own_runtime accountID runtimeID db) ErrRuntimeNotFound;
    if wants_state "stopped" current then mret current
    else
      set_runtime runtimeID (stop_row now);;
      runtime ← read_runtime runtimeID;
      cut_off_viewers now runtimeID "runtime stopped";;
      appendRuntimeLogTX now runtimeID "user" "info" "Runtime stop requested.";;
      mret runtime).

(** [COALESCE(NULLIF(TRIM(kind), ''), 'local-disk')]. *)
Definition store_kind (kind : option string) : string :=
  let kind := pg_trim (coalesce kind "") in if kind =?s "" then "local-disk"%string else kind.

(** [NULLIF(x, '')]. *)
Definition nullif_empty (x : string) : option string := if x =?s "" then None else Some x.

(** Whether the node [hostID] may take over the clean-up; any may when it is "". *)
Definition host_may_clean (hostID : string) (r : Runtime) : bool :=
  (hostID =?s "") || null_eqb r.(rt_host_id) hostID
  || is_null r.(rt_host_id)
     && (null_eqb r.(rt_blob_host_id) hostID
         || is_null r.(rt_blob_host_id)
            && (negb (present r.(rt_blob_manifest_json))
                || negb (store_kind r.(rt_blob_store_kind) =?s "local-disk"))).

Definition wipe_row (now : Z) (hostID : string) (r : Runtime) : Runtime :=
  r <| rt_host_id ::= (λ h, coalesce2 h (nullif_empty hostID)) |>
    <| rt_status := "wiping"%string |> <| rt_desired_state := "stopped"%string |>
    <| rt_operation_generation ::= (λ g, if r.(rt_wipe_requested) || (r.(rt_status) =?s "wiping") then g else g + 1) |>
    <| rt_connection_status := "offline"%string |> <| rt_started_at := None |> <| rt_wipe_requested := true |>
    <| rt_last_error := None |> <| rt_updated_at := now |>.

Definition wipeRuntime (now : Z) (accountID runtimeID hostID : string) : Tx Runtime :=
  atomically (
    db ← gets id;
    r ← require (own_runtime accountID runtimeID db) ErrRuntimeNotFound;
    refuse_if (negb (host_may_clean hostID r)) ErrRuntimeNotFound;;
    set_runtime runtimeID (wipe_row now hostID);;
    runtime ← read_runtime runtimeID;
    cut_off_viewers now runtimeID "runtime wiped";;
    appendRuntimeLogTX now runtimeID "user" "warn" "Runtime wipe requested. User data will be removed.";;
    mret runtime).

Definition delete_row (now : Z) (hostID : string) (r : Runtime) : Runtime :=
  let host := coalesce2 r.(rt_host_id) (nullif_empty hostID) in
  let gone := is_null host in
  r <| rt_host_id := host |>
    <| rt_operation_generation ::= (λ g, if r.(rt_desired_state) =?s "deleted" then g else g + 1) |>
    <| rt_status := (if gone then "deleted"%string else "deleting"%string) |>
    <| rt_desired_state := "deleted"%string |> <| rt_connection_status := "offline"%string |>
    <| rt_started_at := None |>
    <| rt_active_persona_json ::= (λ v, if gone then None else v) |>
    <| rt_blob_store_kind ::= (λ v, if gone then None else v) |>
    <| rt_blob_manifest_json ::= (λ v, if gone then None else v) |>
    <| rt_blob_host_id ::= (λ v, if gone then None else v) |>
    <| rt_wipe_requested := false |>
    <| rt_container_name ::= (λ v, if gone then None else v) |>
    <| rt_adb_port ::= (λ v, if gone then None else v) |>
    <| rt_viewer_port ::= (λ v, if gone then None else v) |>
    <| rt_deleted_at ::= (λ v, if gone then Some now else v) |>
    <| rt_updated_at := now |>.

(** The second UPDATE, for a runtime no node holds. *)
Definition delete_hostless_row (now : Z) (r : Runtime) : Runtime :=
  r <| rt_status := "deleted"%string |> <| rt_deleted_at := Some now |> <| rt_container_name := None |>
    <| rt_adb_port := None |> <| rt_viewer_port := None |> <| rt_started_at := None |> <| rt_updated_at := now |>.

Definition deleteRuntime (now : Z) (accountID runtimeID hostID : string) : Tx Runtime :=
  atomically (
    r ← GetRuntime accountID runtimeID;
    refuse_if (negb (host_may_clean hostID r)) ErrRuntimeNotFound;;
    set_runtime runtimeID (delete_row now hostID);;
    runtime ← read_runtime runtimeID;
    runtime ← (if is_null runtime.(rt_host_id)
               then set_runtime runtimeID (delete_hostless_row now);; read_runtime runtimeID
               else mret runtime);
    cut_off_viewers now runtimeID "runtime deleted";;
    appendRuntimeLogTX now runtimeID "user" "warn" "Runtime scheduled for deletion.";;
    mret runtime).

Definition WipeRuntime (now : Z) (accountID runtimeID : string) : Tx Runtime := wipeRuntime now accountID runtimeID "".
Definition WipeRuntimeOnHost (now : Z) (accountID runtimeID hostID : string) : Tx Runtime :=
  wipeRuntime now accountID runtimeID (TrimSpace hostID).
Definition DeleteRuntime (now : Z) (accountID runtimeID : string) : Tx Runtime := deleteRuntime now accountID runtimeID "".
Definition DeleteRuntimeOnHost (now : Z) (accountID runtimeID hostID : string) : Tx Runtime :=
  deleteRuntime now accountID runtimeID (TrimSpace hostID).

(** ** Deleting an account *)

(** [DELETE FROM accounts] with the cascades of the schema: deposits, ledger,
    devices, entitlement, runtimes, start events and capabilities of the account
    and, through them, logs, app selections, nonces, blob-key handoffs and
    sessions.  Sessions of other runtimes only lose a capability. *)
Definition delete_account (accountID : string) (db : Db) : Db :=
  let owned (id : string) := match db.(db_runtimes) !! id with
                             | Some r => r.(rt_account_id) =?s accountID | None => false end in
  let own_device (d : option string) := match d with
    | Some id => match db.(db_devices) !! id with Some v => v.(dv_account_id) =?s accountID | None => false end
    | None => false end in
  let own_capability (c : string) := match db.(db_capabilities) !! c with
    | Some v => (v.(ca_account_id) =?s accountID) || owned v.(ca_runtime_id) | None => false end in
  db <| db_accounts ::= delete accountID |>
     <| db_deposits ::= delete_where (λ _ d, d.(de_account_id) =?s accountID) |>
     <| db_ledger ::= List.filter (λ l, negb (l.(le_account_id) =?s accountID)) |>
     <| db_devices ::= delete_where (λ _ d, d.(dv_account_id) =?s accountID) |>
     <| db_entitlements ::= delete accountID |>
     <| db_recovery ::= delete accountID |>
     <| db_recovery_challenges ::= delete_where (λ _ c, c.(ch_account_id) =?s accountID) |>
     <| db_runtimes ::= delete_where (λ _ r, r.(rt_account_id) =?s accountID) |>
     <| db_start_events ::= List.filter (λ e, negb (e.(ev_account_id) =?s accountID)) |>
     <| db_runtime_logs ::= List.filter (λ l, negb (owned l.(lg_runtime_id))) |>
     <| db_app_selections ::= delete_where (λ k _, owned k.1) |>
     <| db_capabilities ::= delete_where (λ c _, own_capability c) |>
     <| db_capability_nonces ::= delete_where (λ k _, own_capability k.1) |>
     <| db_device_nonces ::= delete_where (λ k _, (k.1.1 =?s accountID) || own_device (Some k.1.2)) |>
     <| db_handoffs ::= delete_where (λ id h, (h.(hf_account_id) =?s accountID) || owned id) |>
     <| db_sessions ::= (λ t, update_where (λ _ _, true)
          (λ s, s <| se_capability_id ::= (λ c, match c with
                       | Some c => if own_capability c then None else Some c | None => None end) |>)
          (delete_where (λ _ s, owned s.(se_runtime_id) || own_device s.(se_device_id)) t)) |>.

Definition deleteAccountIfRuntimeCleanupDoneTX (accountID : string) : Tx unit :=
  let accountID := TrimSpace accountID in
  if accountID =?s "" then mret tt
  else
    db ← gets id;
    match db.(db_accounts) !! accountID with
    | None => mret tt
    | Some a =>
      if is_null a.(ac_deleted_at) then mret tt
      else if (0 <? count_where (λ _ r, runtime_of accountID r) db.(db_runtimes))%nat then mret tt
      else modify (delete_account accountID)
    end.

Definition delete_with_account (now : Z) (r : Runtime) : Runtime :=
  let host := coalesce2 r.(rt_host_id) r.(rt_blob_host_id) in
  let hostless := is_null host in
  let gone := hostless && negb (present r.(rt_blob_manifest_json)) in
  r <| rt_host_id := host |>
    <| rt_operation_generation ::= (λ g, if r.(rt_desired_state) =?s "deleted" then g else g + 1) |>
    <| rt_status := (if gone then "deleted"%string else "deleting"%string) |>
    <| rt_desired_state := "deleted"%string |> <| rt_connection_status := "offline"%string |>
    <| rt_started_at := None |>
    <| rt_container_name ::= (λ v, if hostless then None else v) |>
    <| rt_adb_port ::= (λ v, if hostless then None else v) |>
    <| rt_viewer_port ::= (λ v, if hostless then None else v) |>
    <| rt_deleted_at ::= (λ v, if gone then Some now else v) |>
    <| rt_updated_at := now |>.

(** [DELETE FROM devices WHERE account_id = a], which cascades to sessions and
    to the devices' request nonces. *)
Definition delete_devices (accountID : string) (db : Db) : Db :=
  let own_device (d : option string) := match d with
    | Some id => match db.(db_devices) !! id with Some v => v.(dv_account_id) =?s accountID | None => false end
    | None => false end in
  db <| db_devices ::= delete_where (λ _ d, d.(dv_account_id) =?s accountID) |>
     <| db_device_nonces ::= delete_where (λ k _, own_device (Some k.1.2)) |>
     <| db_sessions ::= delete_where (λ _ s, own_device s.(se_device_id)) |>.

(** [account_storage], which it also clears, is not modelled. *)
Definition DeleteAccount (now : Z) (accountID : string) : Tx unit :=
  let accountID := TrimSpace accountID in
  refuse_if (accountID =?s "") ErrAccountNotFound;;
  atomically (
    db ← gets id;
    a ← require (db.(db_accounts) !! accountID) ErrAccountNotFound;
    refuse_if (not_null a.(ac_deleted_at)) ErrAccountNotFound;;
    let affected := select (λ _ r, runtime_of accountID r) db.(db_runtimes) in
    modify (λ db, db <| db_runtimes ::= update_where (λ _ r, runtime_of accountID r) (delete_with_account now) |>);;
    let queuedRuntimeIDs := (List.filter (λ kr : string * Runtime,
      match (delete_with_account now kr.2).(rt_host_id) with
      | Some h => negb (TrimSpace h =?s "") | None => false end) affected).*1 in
    for_each (λ runtimeID, appendRuntimeLogTX now runtimeID "system" "warn"
      "Account deletion requested; runtime cleanup queued.") queuedRuntimeIDs;;
    modify (λ db, db <| db_device_nonces ::= delete_where (λ k _, k.1.1 =?s accountID) |>);;
    modify (delete_devices accountID);;
    modify (λ db, db <| db_entitlements ::= delete accountID |>);;
    modify (λ db, db <| db_accounts ::= alter (λ a, a <| ac_deleted_at := Some now |>) accountID |>);;
    deleteAccountIfRuntimeCleanupDoneTX accountID).

(** ** What a node reports *)

Record RuntimeObservation := MkRuntimeObservation {
  ob_HostID : string;
  ob_Status : string;
  ob_ConnectionStatus : string;
  ob_ContainerName : option string;
  ob_ADBPort : option Z;
  ob_LastError : option string;
  ob_BlobStoreKind : option string;
  ob_BlobManifestJSON : option string;
  ob_BlobLastSnapshotAt : option Z;
  ob_LoadAverage : option Z;
  ob_ClearWipeRequested : bool;
  ob_ActivePersonaJSON : option string;
  ob_ClearActivePersona : bool;
  ob_ClearBlobManifest : bool;
  ob_CleanupComplete : bool;
  ob_OperationGeneration : Z;
  ob_Deleted : bool
}.

(** [int32(v)] of an [int]. *)
Definition to_int32 (v : Z) : Z := (v + 2 ^ 31) mod 2 ^ 32 - 2 ^ 31.

Definition nullInt (value : option Z) : option Z := to_int32 <$> value.

(** [host_id = $2 AND operation_generation = $n AND deleted_at IS NULL]. *)
Definition observes (o : RuntimeObservation) (r : Runtime) : bool :=
  null_eqb r.(rt_host_id) o.(ob_HostID) && (r.(rt_operation_generation) =? o.(ob_OperationGeneration)) && rt_live r.

Definition deleted_row (now : Z) (o : RuntimeObservation) (r : Runtime) : Runtime :=
  r <| rt_status := "deleted"%string |> <| rt_desired_state := "deleted"%string |>
    <| rt_connection_status := "offline"%string |> <| rt_host_id := None |> <| rt_active_persona_json := None |>
    <| rt_blob_store_kind := None |> <| rt_blob_manifest_json := None |> <| rt_blob_host_id := None |>
    <| rt_container_name := None |> <| rt_adb_port := None |> <| rt_viewer_port := None |> <| rt_started_at := None |>
    <| rt_wipe_requested := false |> <| rt_last_error := nullString o.(ob_LastError) |>
    <| rt_deleted_at := Some now |> <| rt_updated_at := now |>.

Definition observed_row (now : Z) (o : RuntimeObservation) (r : Runtime) : Runtime :=
  let status := defaultString o.(ob_Status) "stopped" in
  let connection := defaultString o.(ob_ConnectionStatus) "offline" in
  let manifest := nullString o.(ob_BlobManifestJSON) in
  let kind := nullString o.(ob_BlobStoreKind) in
  let running := r.(rt_desired_state) =?s "running" in
  r <| rt_status := status |> <| rt_connection_status := connection |>
    <| rt_host_id ::= (λ h, if negb (r.(rt_desired_state) =?s "deleted")
         && ((status =?s "provisioned")
             || o.(ob_CleanupComplete) && negb running && ((status =?s "stopped") || (status =?s "error")))
       then None else h) |>
    <| rt_container_name := nullString o.(ob_ContainerName) |> <| rt_adb_port := nullInt o.(ob_ADBPort) |>
    <| rt_viewer_port ::= (λ p, if (status =?s "stopped") || (status =?s "provisioned")
                                   || (status =?s "error") && negb running then None else p) |>
    <| rt_last_error := nullString o.(ob_LastError) |>
    <| rt_blob_last_snapshot_at ::= coalesce2 o.(ob_BlobLastSnapshotAt) |>
    <| rt_wipe_requested ::= (λ w, if o.(ob_ClearWipeRequested) then false else w) |>
    <| rt_active_persona_json ::= (λ p, if o.(ob_ClearActivePersona) then None
                                        else coalesce2 (nullString o.(ob_ActivePersonaJSON)) p) |>
    <| rt_blob_store_kind ::= (λ k, if o.(ob_ClearBlobManifest) then None else coalesce2 kind k) |>
    <| rt_blob_manifest_json ::= (λ m, if o.(ob_ClearBlobManifest) then None else coalesce2 manifest m) |>
    <| rt_blob_generation_floor ::= (λ f, if o.(ob_ClearBlobManifest)
                                          then f + manifestGenerationSQL r.(rt_blob_manifest_json) else f) |>
    <| rt_blob_host_id ::= (λ h, if o.(ob_ClearBlobManifest) then None
         else if present manifest && negb (store_kind (coalesce2 kind r.(rt_blob_store_kind)) =?s "local-disk") then None
         else if present manifest then Some o.(ob_HostID) else h) |>
    <| rt_started_at ::= (λ t, if (status =?s "running") && (connection =?s "online") then Some (coalesce t now)
         else if (status =?s "stopped") || (status =?s "provisioned") || (status =?s "deleted")
                 || (status =?s "error") && negb running then None else t) |>
    <| rt_load_average ::= coalesce2 o.(ob_LoadAverage) |>
    <| rt_cleanup_pending ::= (λ c, if o.(ob_CleanupComplete) then false
                                    else if (status =?s "stopped") && negb running then true else c) |>
    <| rt_updated_at := now |>.

Definition updateRuntimeObservationRecord (now : Z) (runtimeID : string) (o : RuntimeObservation) : Tx unit :=
  db ← gets id;
  r ← require (db.(db_runtimes) !! runtimeID) ErrRuntimeObservationStale;
  refuse_if (negb (observes o r)) ErrRuntimeObservationStale;;
  set_runtime runtimeID (observed_row now o).

(** The loop over the account's other runtimes with a manifest. *)
Definition add_other_bytes (acc : Err + Z) (kr : string * Runtime) : Err + Z :=
  match acc with
  | inl e => inl e
  | inr total =>
    match storedBlobManifestBytes (coalesce kr.2.(rt_blob_manifest_json) "") with
    | inl e => inl (ErrText ("runtime " +:+ kr.1 +:+ " has invalid blob storage metadata"))
    | inr b => if max_int64 - b <? total then inl (ErrText "account storage usage overflows") else inr (total + b)
    end
  end.

Definition other_rows (accountID runtimeID : string) (db : Db) : list (string * Runtime) :=
  select (λ id r, has_stored_blob accountID r && negb (id =?s runtimeID)) db.(db_runtimes).

Definition updateRuntimeObservationWithStorageQuota (now : Z) (runtimeID : string) (o : RuntimeObservation)
    (incomingManifest : option storedBlobManifestUsage) (incomingManifestBytes : Z) : Tx unit :=
  atomically (
    db ← gets id;
    r ← require (db.(db_runtimes) !! runtimeID) ErrRuntimeObservationStale;
    refuse_if (negb (observes o r)) ErrRuntimeObservationStale;;
    match validateStoredBlobManifestAdvance (coalesce r.(rt_blob_manifest_json) "") incomingManifest with
    | inl e => throw e
    | inr _ =>
      e ← require (db.(db_entitlements) !! r.(rt_account_id)) ErrRuntimeEntitlement;
      match fold_left add_other_bytes (other_rows r.(rt_account_id) runtimeID db) (inr 0) with
      | inl e => throw e
      | inr otherRuntimeBytes =>
        refuse_if ((e.(en_storage_bytes_limit) <=? 0)
                   || (e.(en_storage_bytes_limit) - otherRuntimeBytes <? incomingManifestBytes)) ErrRuntimeStorageQuota;;
        updateRuntimeObservationRecord now runtimeID o
      end
    end).

Definition UpdateRuntimeObservation (now : Z) (runtimeID : string) (o : RuntimeObservation) : Tx unit :=
  refuse_if (o.(ob_HostID) =?s "") (ErrText "host id is required");;
  refuse_if (o.(ob_OperationGeneration) <=? 0) ErrRuntimeObservationStale;;
  if o.(ob_Deleted) then
    atomically (
      db ← gets id;
      r ← require (db.(db_runtimes) !! runtimeID) ErrRuntimeObservationStale;
      refuse_if (negb (observes o r)) ErrRuntimeObservationStale;;
      set_runtime runtimeID (deleted_row now o);;
      deleteAccountIfRuntimeCleanupDoneTX r.(rt_account_id))
  else
    let manifestRaw := TrimSpace (valueOrEmpty o.(ob_BlobManifestJSON)) in
    refuse_if (o.(ob_ClearBlobManifest) && negb (manifestRaw =?s ""))
      (ErrText "blob manifest cannot be set and cleared in the same observation");;
    if negb (manifestRaw =?s "") then
      match parseStoredBlobManifestUsage manifestRaw with
      | inl e => throw e
      | inr manifest =>
        match match manifest with None => inr 0 | Some m => storedBlobManifestBytesAtDepth m 0 end with
        | inl e => throw e
        | inr manifestBytes => updateRuntimeObservationWithStorageQuota now runtimeID o manifest manifestBytes
        end
      end
    else updateRuntimeObservationRecord now runtimeID o.

(** ** The assignment feed *)

Definition needs_port (hostID : string) (_ : string) (r : Runtime) : bool :=
  null_eqb r.(rt_host_id) hostID && (r.(rt_desired_state) =?s "running") && rt_live r && is_null r.(rt_viewer_port).

Definition restore_port (now : Z) (hostID runtimeID : string) : Tx unit :=
  viewerPort ← allocateViewerPortTX;
  set_runtime runtimeID (λ r, if needs_port hostID runtimeID r
    then r <| rt_viewer_port := Some viewerPort |> <| rt_last_error := None |> <| rt_updated_at := now |> else r);;
  appendRuntimeLogTX now runtimeID "system" "info"
    ("Viewer port " +:+ fmt_d viewerPort +:+ " restored for running runtime assignment.").

Definition allocateMissingViewerPortsForHostTX (now : Z) (hostID : string) : Tx unit :=
  let hostID := TrimSpace hostID in
  if hostID =?s "" then mret tt
  else
    db ← gets id;
    let runtimeIDs := (order_by (λ x y : string * Runtime, x.2.(rt_updated_at) <=? y.2.(rt_updated_at))
                         (select (needs_port hostID) db.(db_runtimes))).*1 in
    for_each (restore_port now hostID) runtimeIDs.

Definition assigned (hostID : string) (_ : string) (r : Runtime) : bool :=
  null_eqb r.(rt_host_id) hostID && rt_live r
  && (containsString ["running"; "stopped"; "deleted"] r.(rt_desired_state)
      || containsString ["starting"; "running"; "stopping"; "stopped"; "wiping"; "deleting"; "error"] r.(rt_status)).

(** A runtime as its node sees it: the row, its apps, and the account's storage
    limit and use unless it is being deleted. *)
Record AssignedRuntime := MkAssignedRuntime {
  as_id : string;
  as_runtime : Runtime;
  as_SelectedApps : list (string * CatalogApp * Z);
  as_storage : option (Z * Z)
}.

(** [attachStorageQuotaToRuntimesTX] for one runtime; reading an account twice
    gives the same, so its cache is not modelled. *)
Definition storage_quota (db : Db) (r : Runtime) : Err + option (Z * Z) :=
  if wants_state "deleted" r || EqualFold (TrimSpace r.(rt_status)) "deleting" then inr None
  else
    let accountID := TrimSpace r.(rt_account_id) in
    match db.(db_entitlements) !! accountID with
    | None => inl ErrRuntimeEntitlement
    | Some e => match accountStorageBytesUsed accountID db with
                | inl err => inl err
                | inr used => inr (Some (e.(en_storage_bytes_limit), used))
                end
    end.

Definition ListAssignedRuntimes (now : Z) (hostID : string) : Tx (list AssignedRuntime) :=
  atomically (
    allocateMissingViewerPortsForHostTX now hostID;;
    db ← gets id;
    let rows := order_by (λ x y : string * Runtime, y.2.(rt_updated_at) <=? x.2.(rt_updated_at))
                  (select (assigned hostID) db.(db_runtimes)) in
    fold_each (λ acc kr,
      match storage_quota db kr.2 with
      | inl err => throw err
      | inr quota => mret (acc ++ [MkAssignedRuntime kr.1 kr.2 (selectedAppsForRuntime kr.1 db) quota])
      end) [] rows).

Definition RequireRuntimeAssignedToHost (runtimeID hostID : string) : Tx unit :=
  let runtimeID := TrimSpace runtimeID in
  let hostID := TrimSpace hostID in
  refuse_if ((runtimeID =?s "") || (hostID =?s "")) ErrRuntimeNotFound;;
  db ← gets id;
  r ← require (db.(db_runtimes) !! runtimeID) ErrRuntimeNotFound;
  refuse_if (negb (null_eqb r.(rt_host_id) hostID && rt_live r && negb (r.(rt_desired_state) =?s "deleted")))
    ErrRuntimeNotFound.

#[global] Arguments delete_account : simpl never.
#[global] Arguments observed_row : simpl never.

(** ** How a runtime's row changes *)

Abbreviation Runtimes := (gmap string Runtime).

(** What a row may become: it keeps its owner, its generation, persona version
    and snapshot floor never fall, and deletion is final. *)
Record rt_evolves (r r' : Runtime) : Prop := {
  re_account : r'.(rt_account_id) = r.(rt_account_id);
  re_created : r'.(rt_created_at) = r.(rt_created_at);
  re_generation : r.(rt_operation_generation) ≤ r'.(rt_operation_generation);
  re_persona : r.(rt_persona_version) ≤ r'.(rt_persona_version);
  re_floor : r.(rt_blob_generation_floor) ≤ r'.(rt_blob_generation_floor);
  re_deleting : r.(rt_desired_state) = "deleted"%string → r'.(rt_desired_state) = "deleted"%string;
  re_deleted : rt_live r = false →
    r'.(rt_deleted_at) = r.(rt_deleted_at) ∧ r'.(rt_operation_generation) = r.(rt_operation_generation)
    ∧ r'.(rt_status) = r.(rt_status)
}.

#[export] Instance rt_evolves_preorder : PreOrder rt_evolves.
Proof.
  split.
  - intros r. by split.
  - intros x y z [] []. split; try congruence; try lia; [auto|].
    intros Hd. destruct (re_deleted0 Hd) as (D1 & D2 & D3).
    assert (rt_live y = false) as Hy by (unfold rt_live in *; by rewrite D1).
    destruct (re_deleted1 Hy) as (? & ? & ?). split_and!; congruence.
Qed.

(** The row gets no viewer port it did not have. *)
Definition keeps_port (r r' : Runtime) : Prop :=
  ∀ p, rt_live r' = true → r'.(rt_viewer_port) = Some p → rt_live r = true ∧ r.(rt_viewer_port) = Some p.
Definition row_tame (r r' : Runtime) : Prop := rt_evolves r r' ∧ keeps_port r r'.

#[export] Instance row_tame_preorder : PreOrder row_tame.
Proof.
  split.
  - intros r. split; [reflexivity | by intros p].
  - intros x y z [H1 H2] [H3 H4]. split; [by transitivity y|]. intros p Hl Hp.
    destruct (H4 p Hl Hp) as [Hl' Hp']. by apply H2.
Qed.

(** Accounts and entitlements are not created. *)
Definition closed_stays (db db' : Db) : Prop :=
  (∀ a, db.(db_accounts) !! a = None → db'.(db_accounts) !! a = None)
  ∧ (∀ a, db.(db_entitlements) !! a = None → db'.(db_entitlements) !! a = None).
#[export] Instance closed_stays_preorder : PreOrder closed_stays.
Proof. split; [by intros ? | intros ??? [? ?] [? ?]; split; auto]. Qed.

Ltac closed_solve :=
  split; cbn; intros ? Hnone; try exact Hnone; first [rewrite lookup_alter | rewrite lookup_delete];
  case_decide; subst; rewrite ?Hnone; done.

(** Rows change as [row_tame] says or go with their account. *)
Definition db_tame (db db' : Db) : Prop :=
  closed_stays db db'
  ∧ (∀ id r', db'.(db_runtimes) !! id = Some r' → ∃ r, db.(db_runtimes) !! id = Some r ∧ row_tame r r')
  ∧ (∀ id r, db.(db_runtimes) !! id = Some r → db'.(db_runtimes) !! id = None →
             db'.(db_accounts) !! r.(rt_account_id) = None).

#[export] Instance db_tame_preorder : PreOrder db_tame.
Proof.
  split.
  - intros db. split_and!; [done | | congruence]. intros id r' Hr'. exists r'. split; [done | reflexivity].
  - intros x y z (A1 & R1 & N1) (A2 & R2 & N2). split_and!; [by transitivity y | |].
    + intros id r'' H''. destruct (R2 _ _ H'') as (r' & H' & E'). destruct (R1 _ _ H') as (r & H & E).
      exists r. split; [done | by transitivity r'].
    + intros id r Hx Hz. destruct (y.(db_runtimes) !! id) as [r'|] eqn:Hy; [|by eapply (proj1 A2), N1].
      destruct (R1 _ _ Hy) as (r0 & H0 & [[Hacc _ _ _ _ _ _] _]). simplify_eq. rewrite <-Hacc. by eapply N2.
Qed.

Lemma db_tame_same db db' : closed_stays db db' → db'.(db_runtimes) = db.(db_runtimes) → db_tame db db'.
Proof.
  intros HA HR. unfold db_tame. rewrite HR. split_and!; [done | | congruence].
  intros id r' Hr'. exists r'. split; [done | reflexivity].
Qed.

Lemma db_tame_update p f db db' :
  closed_stays db db' →
  db'.(db_runtimes) = update_where p f db.(db_runtimes) →
  (∀ id r, db.(db_runtimes) !! id = Some r → p id r = true → row_tame r (f r)) → db_tame db db'.
Proof.
  intros HA HR Hf. unfold db_tame. rewrite HR. split_and!; [done | |].
  - intros id r' (r & Hr & ->)%update_where_Some. exists r. split; [done|].
    destruct (p id r) eqn:E; [by eapply Hf | reflexivity].
  - intros id r Hr. by rewrite lookup_update_where, Hr.
Qed.

Lemma db_tame_alter id f db db' :
  closed_stays db db' →
  db'.(db_runtimes) = alter f id db.(db_runtimes) →
  (∀ r, db.(db_runtimes) !! id = Some r → row_tame r (f r)) → db_tame db db'.
Proof.
  intros HA HR Hf. apply (db_tame_update (λ i _, i =?s id) f); [done | |].
  - rewrite HR. apply map_eq. intros i. rewrite lookup_update_where, lookup_alter.
    destruct (i =?s id) eqn:E; [apply str_eqb_eq in E as -> | apply str_eqb_neq in E].
    + rewrite decide_True by done. done.
    + rewrite decide_False by congruence. by destruct (_ !! i).
  - intros i r Hr ->%str_eqb_eq. by apply Hf.
Qed.

(** An account is gone with all its runtimes. *)
Lemma delete_account_tame a db : db_tame db (delete_account a db).
Proof.
  unfold delete_account. split_and!; cbn.
  - closed_solve.
  - intros id r' [Hr' _]%lookup_delete_where. exists r'. split; [done | reflexivity].
  - intros id r Hr Hn. destruct (r.(rt_account_id) =?s a) eqn:E.
    + apply str_eqb_eq in E as ->. by rewrite lookup_delete_eq.
    + exfalso. assert (delete_where (λ _ r, r.(rt_account_id) =?s a) db.(db_runtimes) !! id = Some r) as Hs
        by (by apply lookup_delete_where). by rewrite Hs in Hn.
Qed.

(** *** The row each operation writes *)

(** For a live row finality is no concern. *)
Lemma row_tame_live r r' :
  rt_live r = true →
  r'.(rt_account_id) = r.(rt_account_id) → r'.(rt_created_at) = r.(rt_created_at) →
  r.(rt_operation_generation) ≤ r'.(rt_operation_generation) → r.(rt_persona_version) ≤ r'.(rt_persona_version) →
  r.(rt_blob_generation_floor) ≤ r'.(rt_blob_generation_floor) →
  (r.(rt_desired_state) = "deleted"%string → r'.(rt_desired_state) = "deleted"%string) →
  (r'.(rt_viewer_port) = None ∨ r'.(rt_viewer_port) = r.(rt_viewer_port)) → row_tame r r'.
Proof.
  intros Hl Ha Hc Hg Hp Hf Hd Hport. split; [split; try done; congruence|].
  intros p _ Hs. split; [done|]. destruct Hport as [E|E]; congruence.
Qed.

Lemma manifestGenerationSQL_nonneg m : 0 ≤ manifestGenerationSQL m.
Proof. unfold manifestGenerationSQL. induction (generations _) as [|g l IH]; cbn -[Z.max]; lia. Qed.

Ltac row_solve :=
  apply row_tame_live; try done; cbn; repeat case_match; try done; try lia; auto;
  try (pose proof (manifestGenerationSQL_nonneg None); lia).

Lemma billed_row_tame t r : row_tame r (r <| rt_billed_through := t |>).
Proof. by split. Qed.

Lemma write_settings_tame now s r : row_tame r (write_settings now s r).
Proof. by split. Qed.

Lemma kept_runtime_live a id r :
  kept_runtime a id r = true → rt_live r = true ∧ r.(rt_desired_state) ≠ "deleted"%string ∧ r.(rt_account_id) = a.
Proof.
  intros [[?%str_eqb_eq ?]%andb_true_iff Hd]%andb_true_iff. split_and!; [done | | done].
  apply str_eqb_neq. by apply negb_true_iff.
Qed.

Lemma queue_stop_tame now r : wants_running r = true → row_tame r (queue_stop now r).
Proof.
  intros [Hl Hd%str_eqb_eq]%andb_true_iff. unfold queue_stop. row_solve. rewrite Hd. done.
Qed.

Lemma stop_row_tame now a id r : kept_runtime a id r = true → row_tame r (stop_row now r).
Proof. intros (Hl & Hd & _)%kept_runtime_live. unfold stop_row. row_solve. Qed.

Lemma wipe_row_tame now h a id r : kept_runtime a id r = true → row_tame r (wipe_row now h r).
Proof. intros (Hl & Hd & _)%kept_runtime_live. unfold wipe_row. row_solve. Qed.

Lemma delete_row_tame now h r : rt_live r = true → row_tame r (delete_row now h r).
Proof. intros Hl. unfold delete_row. row_solve. Qed.

Lemma delete_hostless_row_tame now h r :
  rt_live r = true → row_tame r (delete_hostless_row now (delete_row now h r)).
Proof. intros Hl. unfold delete_row, delete_hostless_row. row_solve. Qed.

Lemma delete_with_account_tame now r : rt_live r = true → row_tame r (delete_with_account now r).
Proof. intros Hl. unfold delete_with_account. row_solve. Qed.

Lemma reset_runtime_tame now r : rt_live r = true → row_tame r (reset_runtime now r).
Proof.
  intros Hl. pose proof (manifestGenerationSQL_nonneg r.(rt_blob_manifest_json)). unfold reset_runtime. row_solve.
  intros E. by rewrite E in *.
Qed.

Lemma deleted_row_tame now o r : rt_live r = true → row_tame r (deleted_row now o r).
Proof. intros Hl. unfold deleted_row. row_solve. Qed.

Lemma observed_row_tame now o r : rt_live r = true → row_tame r (observed_row now o r).
Proof.
  intros Hl. pose proof (manifestGenerationSQL_nonneg r.(rt_blob_manifest_json)). unfold observed_row.
  apply row_tame_live; try done; cbn.
  - destruct (ob_ClearBlobManifest o); lia.
  - destruct (_ || _); auto.
Qed.

(** *** The operations *)

(** Steps that leave runtimes alone and open no account. *)
Ltac tame_frame := apply db_tame_same; [closed_solve | done].
#[local] Hint Extern 1 (db_tame _ _) => tame_frame : ops.

Lemma cut_off_viewers_tame now rid reason : stable db_tame (cut_off_viewers now rid reason).
Proof.
  unfold cut_off_viewers, closeRuntimeSessionsTX, revokeRuntimeCapabilitiesForRuntimeTX, revoke_capabilities_where.
  stable_steps; tame_frame.
Qed.
Lemma appendRuntimeLogTX_tame now rid s l m : stable db_tame (appendRuntimeLogTX now rid s l m).
Proof. unfold appendRuntimeLogTX. stable_steps. tame_frame. Qed.
#[local] Hint Resolve cut_off_viewers_tame appendRuntimeLogTX_tame : ops.

Lemma meterRuntimeTimeTX_tame now hm : stable db_tame (meterRuntimeTimeTX now hm).
Proof.
  unfold meterRuntimeTimeTX, meter_one, charge_parts, addUsageChargeTX, set_entitlement, set_runtime.
  stable_steps; try tame_frame; (eapply db_tame_alter; [done | done |]; intros; apply billed_row_tame).
Qed.
Lemma chargeStorageTX_tame now gib : stable db_tame (chargeStorageTX now gib).
Proof.
  unfold chargeStorageTX, charge_storage_one, addUsageChargeTX, set_account.
  stable_steps; tame_frame.
Qed.
Lemma queueRuntimeStopsTX_tame now cand sr lm :
  (∀ db id r, cand db id r = true → wants_running r = true) → stable db_tame (queueRuntimeStopsTX now cand sr lm).
Proof.
  intros Hc. unfold queueRuntimeStopsTX, closeRuntimeSessionsTX, revokeRuntimeCapabilitiesForRuntimeTX,
    revoke_capabilities_where. stable_steps; try tame_frame.
  eapply db_tame_update; [done | done |]. intros id r _ Hp. by eapply queue_stop_tame, Hc.
Qed.
Lemma stops_running db id r : trial_over db id r = true ∨ without_balance db id r = true → wants_running r = true.
Proof.
  unfold trial_over, without_balance. destruct (_ !! _); [|by intros [?|?]].
  by intros [[[_ ?]%andb_true_iff _]%andb_true_iff|[[_ ?]%andb_true_iff _]%andb_true_iff].
Qed.
Lemma MeterUsage_tame pricing now : stable db_tame (MeterUsage pricing now).
Proof.
  unfold MeterUsage. apply stable_atomically; [apply _|].
  repeat first [ apply meterRuntimeTimeTX_tame | apply chargeStorageTX_tame | apply queueRuntimeStopsTX_tame | stable_step ].
  all: by eapply stops_running; eauto.
Qed.

Lemma CreditDeposit_tame now dep : stable db_tame (CreditDeposit now dep).
Proof.
  unfold CreditDeposit, end_trial, set_entitlement. stable_steps; try tame_frame.
  all: eapply db_tame_update; [done | done |]; intros; apply billed_row_tame.
Qed.

Lemma spare_loop_tame fuel now fresh region warm maxVMs spares live created :
  stable db_tame (spare_loop fuel now fresh region warm maxVMs spares live created).
Proof.
  revert spares live created. induction fuel as [|fuel IH]; intros; cbn [spare_loop]; [apply stable_ret; apply _|].
  unfold insert_vm. stable_steps; tame_frame.
Qed.

Lemma ReconcileProvisionedVMs_tame now fresh policy : stable db_tame (ReconcileProvisionedVMs now fresh policy).
Proof.
  unfold ReconcileProvisionedVMs. apply stable_atomically; [apply _|].
  apply stable_bind; [apply _ | |intros summary; apply stable_bind; [apply _ | |intros n; apply stable_bind; [apply _ | |]]].
  - unfold retireVMsTX, retireSilentNodeVMsTX, update_vms. stable_steps; try tame_frame.
  - unfold resetStrandedTX, insert_log. stable_steps; try tame_frame.
    eapply db_tame_update; [done | done |]. intros id r _ [Hl _]%andb_true_iff. by apply reset_runtime_tame.
  - unfold topUpSparesTX, top_up_region. stable_steps; try tame_frame. apply spare_loop_tame.
  - intros. stable_steps.
Qed.

(** One row is rewritten, then nothing else of the runtimes or accounts. *)
Lemma set_then_tame {A} rid f r (m : Tx A) (X : Err → Db → Prop) db :
  db.(db_runtimes) !! rid = Some r → row_tame r (f r) → stable db_tame m →
  (∀ e db', db_tame db db' → X e db') → wp (set_runtime rid f;; m) (λ _ db', db_tame db db') X db.
Proof.
  intros Hr Hf Hm HX. unfold set_runtime. wp_steps. apply (wp_continue db_tame); [ | done | done].
  eapply db_tame_alter; [done | done |]. intros ? Hr'. cbn in Hr'. by simplify_eq.
Qed.

Lemma StopRuntime_tame now a rid : stable db_tame (StopRuntime now a rid).
Proof.
  apply stable_of_wp. intros db. unfold StopRuntime. wp_steps; try reflexivity.
  rename H into Hr. apply own_runtime_Some in Hr as [Hr Hk].
  eapply set_then_tame; [done | by eapply stop_row_tame | | done]. unfold read_runtime. stable_steps.
Qed.

Lemma wipeRuntime_tame now a rid h : stable db_tame (wipeRuntime now a rid h).
Proof.
  apply stable_of_wp. intros db. unfold wipeRuntime. wp_steps; try reflexivity.
  apply own_runtime_Some in H as [Hr Hk].
  eapply set_then_tame; [done | by eapply wipe_row_tame | | done]. unfold read_runtime. stable_steps.
Qed.

Lemma GetRuntime_wp a rid db :
  wp (GetRuntime a rid) (λ r db', db' = db ∧ db.(db_runtimes) !! rid = Some r ∧ runtime_of a r = true)
     (λ e db', db' = db ∧ e = ErrRuntimeNotFound) db.
Proof. unfold GetRuntime. wp_steps; try done. split_and!; try done. by apply negb_false_iff. Qed.

Lemma runtime_of_live a r : runtime_of a r = true → rt_live r = true.
Proof. by intros [_ ?]%andb_true_iff. Qed.

Lemma deleteRuntime_tame now a rid h : stable db_tame (deleteRuntime now a rid h).
Proof.
  apply stable_of_wp. intros db. unfold deleteRuntime. wp_steps.
  eapply wp_mono; [apply GetRuntime_wp | | by intros e ? _]. intros r ? (-> & Hr & Hl%runtime_of_live).
  wp_steps; [reflexivity|]. unfold set_runtime, read_runtime. wp_steps; try reflexivity.
  all: apply (wp_continue db_tame); [|stable_steps | done].
  - eapply (db_tame_alter rid (λ r, delete_hostless_row now (delete_row now h r))); [done | |].
    + cbn. by rewrite alter_alter_eq.
    + intros ? Hr'. simplify_eq. by apply delete_hostless_row_tame.
  - eapply db_tame_alter; [done | done |]. intros ? Hr'. simplify_eq. by apply delete_row_tame.
Qed.

Lemma deleteAccountIfRuntimeCleanupDone_tame a : stable db_tame (deleteAccountIfRuntimeCleanupDoneTX a).
Proof. unfold deleteAccountIfRuntimeCleanupDoneTX. stable_steps. apply delete_account_tame. Qed.
#[local] Hint Resolve deleteAccountIfRuntimeCleanupDone_tame : ops.

Lemma DeleteAccount_tame now a : stable db_tame (DeleteAccount now a).
Proof.
  unfold DeleteAccount. stable_steps; try tame_frame.
  eapply db_tame_update; [done | done |]. intros id r _ Hl%runtime_of_live. by apply delete_with_account_tame.
Qed.

Lemma UpdateRuntimeSettings_tame now v a rid input : stable db_tame (UpdateRuntimeSettings now v a rid input).
Proof.
  apply stable_of_wp. intros db. unfold UpdateRuntimeSettings. wp_steps.
  eapply wp_mono; [apply GetRuntime_wp | | by intros e ? [-> _]]. intros r ? (-> & Hr & Hl). wp_steps.
  eapply wp_mono; [apply changed_settings_wp | | by intros ? ? ->]. intros r' ? [-> _]. wp_steps; [|reflexivity].
  eapply set_then_tame; [done | apply write_settings_tame | | done]. unfold read_runtime. stable_steps.
Qed.

Lemma observes_live o r : observes o r = true → rt_live r = true.
Proof. by intros [_ ?]%andb_true_iff. Qed.

Lemma updateRuntimeObservationRecord_tame now rid o : stable db_tame (updateRuntimeObservationRecord now rid o).
Proof.
  apply stable_of_wp. intros db. unfold updateRuntimeObservationRecord, set_runtime. wp_steps; try reflexivity.
  eapply db_tame_alter; [done | done |]. intros r Hr. simplify_eq. apply observed_row_tame.
  by eapply observes_live, negb_false_iff.
Qed.
#[local] Hint Resolve updateRuntimeObservationRecord_tame : ops.

Lemma UpdateRuntimeObservation_tame now rid o : stable db_tame (UpdateRuntimeObservation now rid o).
Proof.
  unfold UpdateRuntimeObservation, updateRuntimeObservationWithStorageQuota. stable_to_tx; try apply stable_atomically; try apply _.
  all: try (stable_steps; fail).
  apply stable_of_wp. intros db. wp_steps; try reflexivity.
  eapply set_then_tame; [done | apply deleted_row_tame | | done].
  - by eapply observes_live, negb_false_iff.
  - apply deleteAccountIfRuntimeCleanupDone_tame.
Qed.

(** ** Histories *)

(** The rows under ids in [used] change as [rt_evolves] says or go with their
    account, and a used id is not used again. *)
Definition history_ok (used : string → Prop) (db db' : Db) : Prop :=
  closed_stays db db'
  ∧ ∀ id, used id →
    match db.(db_runtimes) !! id, db'.(db_runtimes) !! id with
    | Some r, Some r' => rt_evolves r r'
    | Some r, None => db'.(db_accounts) !! r.(rt_account_id) = None
    | None, Some _ => False
    | None, None => True
    end.

#[export] Instance history_ok_preorder used : PreOrder (history_ok used).
Proof.
  split.
  - intros db. split; [done|]. intros id _. destruct (db.(db_runtimes) !! id); [reflexivity | done].
  - intros x y z [A1 R1] [A2 R2]. split; [by transitivity y|]. intros id Hu. specialize (R1 id Hu). specialize (R2 id Hu).
    destruct (x.(db_runtimes) !! id) as [r|], (y.(db_runtimes) !! id) as [r'|], (z.(db_runtimes) !! id) as [r''|]; try done.
    + by transitivity r'.
    + destruct R1 as [Ha _ _ _ _ _ _]. by rewrite Ha in R2.
    + by apply (proj1 A2).
Qed.

Lemma db_tame_history used db db' : db_tame db db' → history_ok used db db'.
Proof.
  intros (HA & HR & HN). split; [done|]. intros id _.
  destruct (db'.(db_runtimes) !! id) as [r'|] eqn:E'.
  - destruct (HR _ _ E') as (r & -> & [Hev _]). done.
  - destruct (db.(db_runtimes) !! id) as [r|] eqn:E; [by eapply HN | done].
Qed.

Lemma stable_history {A} used (m : Tx A) : stable db_tame m → stable (history_ok used) m.
Proof. intros H db. apply db_tame_history, H. Qed.

Lemma history_alter used id f db db' :
  closed_stays db db' → db'.(db_runtimes) = alter f id db.(db_runtimes) →
  (∀ r, db.(db_runtimes) !! id = Some r → rt_evolves r (f r)) → history_ok used db db'.
Proof.
  intros HA HR Hf. unfold history_ok. rewrite HR. split; [done|]. intros i _. rewrite lookup_alter.
  case_decide; [subst i; destruct (db.(db_runtimes) !! id) as [r|] eqn:E; [by apply Hf | done]|].
  destruct (db.(db_runtimes) !! i); [reflexivity | done].
Qed.

(** *** Viewer ports *)

(** Viewer ports of live runtimes are in the range and never shared. *)
Definition ports_ok (db : Db) : Prop :=
  (∀ id r p, db.(db_runtimes) !! id = Some r → rt_live r = true → r.(rt_viewer_port) = Some p →
             viewerPortStart ≤ p ≤ viewerPortEnd)
  ∧ ∀ id1 id2 r1 r2 p, db.(db_runtimes) !! id1 = Some r1 → db.(db_runtimes) !! id2 = Some r2 →
      rt_live r1 = true → rt_live r2 = true → r1.(rt_viewer_port) = Some p → r2.(rt_viewer_port) = Some p → id1 = id2.

Lemma db_tame_ports db db' : db_tame db db' → ports_ok db → ports_ok db'.
Proof.
  intros (_ & HR & _) [Hrange Hd]. split.
  - intros id r' p Hr' Hl Hp. destruct (HR _ _ Hr') as (r & Hr & _ & Hk).
    destruct (Hk p Hl Hp) as [Hl0 Hp0]. by eapply Hrange.
  - intros id1 id2 r1' r2' p H1 H2 L1 L2 P1 P2.
    destruct (HR _ _ H1) as (r1 & Hr1 & _ & K1), (HR _ _ H2) as (r2 & Hr2 & _ & K2).
    destruct (K1 p L1 P1), (K2 p L2 P2). by eapply Hd.
Qed.

Lemma stable_ports {A} (m : Tx A) : stable db_tame m → stable (holds_after ports_ok) m.
Proof. intros H db. exact (db_tame_ports _ _ (H db)). Qed.

Lemma first_port_spec fuel db port p :
  first_port fuel db port = Some p → port_used db p = false ∧ port ≤ p < port + Z.of_nat fuel.
Proof.
  revert port. induction fuel as [|fuel IH]; intros port; cbn [first_port]; [done|].
  destruct (port_used db port) eqn:E.
  - intros H%IH. split; [apply H | lia].
  - intros [= <-]. split; [done | lia].
Qed.

(** An allocation returns a free port of the range and fails only when none is. *)
Lemma first_port_None fuel db port :
  first_port fuel db port = None → ∀ p, port ≤ p < port + Z.of_nat fuel → port_used db p = true.
Proof.
  revert port. induction fuel as [|fuel IH]; intros port; cbn [first_port]; [lia|].
  destruct (port_used db port) eqn:E; [|done]. intros H p Hp.
  destruct (Z.eq_dec p port) as [->|]; [done|]. apply (IH (port + 1)); [done | lia].
Qed.

Lemma allocateViewerPort_wp db :
  wp allocateViewerPortTX (λ p db', db' = db ∧ viewerPortStart ≤ p ≤ viewerPortEnd ∧ port_used db p = false)
     (λ e db', db' = db ∧ e = ErrText "no viewer ports available"
               ∧ ∀ p, viewerPortStart ≤ p ≤ viewerPortEnd → port_used db p = true) db.
Proof.
  unfold allocateViewerPortTX. wp_steps.
  - apply first_port_spec in H as [Hu Hr]. unfold viewerPortStart, viewerPortEnd in *. split_and!; try done; lia.
  - split_and!; [done | done |]. intros p Hp. eapply first_port_None; [exact H|].
    unfold viewerPortStart, viewerPortEnd in *. lia.
Qed.

Lemma port_used_false db p id r :
  port_used db p = false → db.(db_runtimes) !! id = Some r → rt_live r = true → r.(rt_viewer_port) ≠ Some p.
Proof.
  intros Hu Hr Hl Hp. unfold port_used in Hu. rewrite exists_where_false in Hu.
  specialize (Hu id r Hr). rewrite Hl, bool_decide_eq_true_2 in Hu; done.
Qed.

(** Writing one row whose port is none, its own or a free one. *)
Lemma ports_write id f r db db' :
  ports_ok db → db.(db_runtimes) !! id = Some r → db'.(db_runtimes) = alter f id db.(db_runtimes) →
  (∀ p, rt_live (f r) = true → (f r).(rt_viewer_port) = Some p →
     (rt_live r = true ∧ r.(rt_viewer_port) = Some p)
     ∨ (viewerPortStart ≤ p ≤ viewerPortEnd ∧ port_used db p = false)) → ports_ok db'.
Proof.
  intros [Hrange Hd] Hr HR Hf. rewrite (alter_as_insert _ _ _ _ Hr) in HR.
  assert (Hinv : ∀ i x p, db'.(db_runtimes) !! i = Some x → rt_live x = true → x.(rt_viewer_port) = Some p →
    (∃ x0, db.(db_runtimes) !! i = Some x0 ∧ rt_live x0 = true ∧ x0.(rt_viewer_port) = Some p)
    ∨ i = id ∧ viewerPortStart ≤ p ≤ viewerPortEnd ∧ port_used db p = false).
  { intros i x p Hx Hl Hp. rewrite HR in Hx. apply lookup_insert_Some in Hx as [[<- <-]|[_ Hx]]; [|eauto].
    destruct (Hf p Hl Hp) as [[? ?]|[? ?]]; eauto. }
  split.
  - intros i x p Hx Hl Hp. destruct (Hinv i x p Hx Hl Hp) as [(x0 & ? & ? & ?)|(_ & ? & _)]; [by eapply Hrange | done].
  - intros i1 i2 x1 x2 p H1 H2 L1 L2 P1 P2.
    destruct (Hinv _ _ _ H1 L1 P1) as [(y1 & Y1 & LY1 & PY1)|(-> & _ & U1)],
      (Hinv _ _ _ H2 L2 P2) as [(y2 & Y2 & LY2 & PY2)|(-> & _ & U2)]; [by eapply Hd | | |done].
    + by edestruct (port_used_false _ _ _ _ U2 Y1 LY1).
    + by edestruct (port_used_false _ _ _ _ U1 Y2 LY2).
Qed.

(** ** Starting: facts *)

(** The node a start ends on. *)
Lemma start_host_wp now req rid r db :
  wp (if req =?s "" then pickReadyRuntimeHostTX now (valueOrEmpty r.(rt_host_id)) rid r
      else requireReadyRuntimeHostTX now req rid r)
     (λ hostID db', db' = db ∧ ∃ h, may_serve now db rid r hostID h ∧ trusted_node now db hostID h
                    ∧ (req ≠ ""%string → hostID = TrimSpace req))
     (λ e db', db' = db ∧ e = ErrNoReadyHost) db.
Proof.
  unfold wp. destruct (req =?s "") eqn:Ereq.
  - apply str_eqb_eq in Ereq as ->. pose proof (pickReadyRuntimeHost_run now (valueOrEmpty r.(rt_host_id)) rid r db) as Hp.
    destruct (pickReadyRuntimeHostTX _ _ _ _ _) as [db' [e|hostID]]; [naive_solver|].
    destruct Hp as [-> (h & Hs & Ht & _)]. split; [done|]. exists h. by split_and!.
  - destruct (requireReadyRuntimeHost_run now req rid r db) as [(h & Hs & _ & ->)|[_ ->]]; [|done].
    split; [done|]. exists h. split_and!; [done | by eapply may_serve_trusted | done].
Qed.

(** The port a start uses: the runtime's own, else a free one. *)
Definition start_port (db : Db) (r : Runtime) (port : Z) : Prop :=
  r.(rt_viewer_port) = Some port
  ∨ r.(rt_viewer_port) = None ∧ viewerPortStart ≤ port ≤ viewerPortEnd ∧ port_used db port = false.

Lemma start_port_wp r db :
  wp (match r.(rt_viewer_port) with Some port => mret port | None => allocateViewerPortTX end)
     (λ port db', db' = db ∧ start_port db r port)
     (λ e db', db' = db ∧ e = ErrText "no viewer ports available"
               ∧ r.(rt_viewer_port) = None ∧ ∀ p, viewerPortStart ≤ p ≤ viewerPortEnd → port_used db p = true) db.
Proof.
  unfold start_port. destruct (rt_viewer_port r) as [p|]; [rewrite wp_ret; auto|].
  eapply wp_mono; [apply allocateViewerPort_wp | |]; naive_solver.
Qed.

(** What a start that takes effect leaves behind. *)
Definition started (pricing : Pricing) (now : Z) (a rid req : string) (fresh : bool) (db : Db) (r r' : Runtime) (db' : Db)
    : Prop :=
  wants_state "running" r = false ∧ r.(rt_cleanup_pending) = false ∧ start_refusal pricing now a rid db = None
  ∧ ∃ hostID h port,
    may_serve now db rid r hostID h ∧ trusted_node now db hostID h ∧ (req ≠ ""%string → hostID = TrimSpace req)
    ∧ start_port db r port
    ∧ r' = start_row now hostID port fresh r
    ∧ db' = db <| db_runtimes := <[rid := r']> db.(db_runtimes) |>
               <| db_runtime_logs := db'.(db_runtime_logs) |>
               <| db_start_events := db.(db_start_events) ++ [MkStartEvent a rid now] |>.

(** Why a start fails. *)
Definition start_fails (pricing : Pricing) (now : Z) (a rid : string) (db : Db) (e : Err) : Prop :=
  (own_runtime a rid db = None ∧ e = ErrRuntimeNotFound)
  ∨ ∃ r, own_runtime a rid db = Some r ∧ wants_state "running" r = false
    ∧ (r.(rt_cleanup_pending) = true ∧ e = ErrRuntimeCleanupPending
       ∨ r.(rt_cleanup_pending) = false
         ∧ (start_refusal pricing now a rid db = Some e
            ∨ start_refusal pricing now a rid db = None
              ∧ (e = ErrNoReadyHost
                 ∨ e = ErrText "no viewer ports available" ∧ r.(rt_viewer_port) = None
                   ∧ ∀ p, viewerPortStart ≤ p ≤ viewerPortEnd → port_used db p = true))).

Lemma startRuntime_wp pricing now a rid req fresh db :
  wp (startRuntime pricing now a rid req fresh)
     (λ r' db', ∃ r, own_runtime a rid db = Some r
        ∧ (wants_state "running" r = true ∧ r' = r ∧ db' = db ∨ started pricing now a rid req fresh db r r' db'))
     (λ e db', db' = db ∧ start_fails pricing now a rid db e) db.
Proof.
  unfold startRuntime. wp_steps.
  - exists a0. auto.
  - split; [done|]. right. exists a0. auto 10.
  - rename a0 into r, H into Hr, H0 into Hw, H1 into Hc. unfold wp at 1. rewrite ensureRuntimeStart_run.
    destruct (start_refusal pricing now a rid db) as [e|] eqn:Href; cbn [answer].
    { split; [done|]. right. exists r. auto 10. }
    rewrite wp_bind. eapply wp_mono; [apply start_host_wp | |].
    2:{ intros e ? [_ ->]. split; [done|]. right. exists r. auto 10. }
    intros hostID ? (-> & h & Hs & Ht & Hq). rewrite wp_bind. eapply wp_mono; [apply start_port_wp | |].
    2:{ intros e ? (_ & -> & Hnone & Hall). split; [done|]. right. exists r. auto 12. }
    intros port ? (-> & Hport). unfold set_runtime, read_runtime, appendRuntimeLogTX, appendRuntimeStartEventTX. wp_steps.
    + exists r. split; [done|]. right. split_and!; try done. exists hostID, h, port.
      apply own_runtime_Some in Hr as [Hr _].
      change (alter (start_row now hostID port fresh) rid db.(db_runtimes) !! rid = Some a0) in H.
      rewrite lookup_alter_eq, Hr in H. cbn in H. injection H as <-. split_and!; try done.
      rewrite <-(alter_as_insert _ _ _ _ Hr). by destruct db.
    + exfalso. apply own_runtime_Some in Hr as [Hr _].
      change (alter (start_row now hostID port fresh) rid db.(db_runtimes) !! rid = None) in H.
      by rewrite lookup_alter_eq, Hr in H.
  - split; [done|]. left. auto.
Qed.

Lemma start_row_evolves now h p fresh a id r : kept_runtime a id r = true → rt_evolves r (start_row now h p fresh r).
Proof. intros (Hl & Hd & _)%kept_runtime_live. split; cbn; try done; try lia; congruence. Qed.

Lemma startRuntime_history used pricing now a rid req fresh : stable (history_ok used) (startRuntime pricing now a rid req fresh).
Proof.
  apply stable_of_wp. intros db. eapply wp_mono; [apply startRuntime_wp | | by intros ? ? [-> _]].
  intros r' db' (r & [Hr Hk]%own_runtime_Some & [(_ & _ & ->)|(_ & _ & _ & h & ? & p & _ & _ & _ & _ & -> & ->)]); [reflexivity|].
  eapply (history_alter _ rid (start_row now h p fresh)); [done | cbn; symmetry; by apply alter_as_insert |].
  intros ? Hr'. simplify_eq. by eapply start_row_evolves.
Qed.

Lemma startRuntime_ports pricing now a rid req fresh : stable (holds_after ports_ok) (startRuntime pricing now a rid req fresh).
Proof.
  apply stable_of_wp. intros db. eapply wp_mono; [apply startRuntime_wp | | by intros ? ? [-> _]].
  intros r' db' (r & [Hr Hk]%own_runtime_Some & [(_ & _ & ->)|(_ & _ & _ & h & ? & p & _ & _ & _ & Hport & -> & ->)]) Hok; [done|].
  apply kept_runtime_live in Hk as (Hl & _ & _).
  eapply (ports_write rid (start_row now h p fresh)); [done | done | cbn; symmetry; by apply alter_as_insert |].
  intros p' _ [= <-]. destruct Hport as [?|(_ & ? & ?)]; auto.
Qed.

(** What creating leaves behind. *)
Definition created (now : Z) (rid a : string) (db : Db) (r : Runtime) (db' : Db) : Prop :=
  db.(db_runtimes) !! rid = None ∧ create_refusal now a db = None
  ∧ db'.(db_runtimes) = <[rid := r]> db.(db_runtimes) ∧ db'.(db_accounts) = db.(db_accounts)
  ∧ db'.(db_entitlements) = db.(db_entitlements)
  ∧ r.(rt_account_id) = a ∧ r.(rt_desired_state) = "stopped"%string ∧ r.(rt_viewer_port) = None ∧ rt_live r = true
  ∧ r.(rt_operation_generation) = 1 ∧ profiled r.

(** App selections and logs are all that follows the insert. *)
Definition same_core (db db' : Db) : Prop :=
  db'.(db_runtimes) = db.(db_runtimes) ∧ db'.(db_accounts) = db.(db_accounts)
  ∧ db'.(db_entitlements) = db.(db_entitlements).
#[export] Instance same_core_preorder : PreOrder same_core.
Proof. split; [by intros ? | intros ??? (? & ? & ?) (? & ? & ?); split_and!; congruence]. Qed.

Lemma replaceRuntimeAppSelections_core now rid names : stable same_core (replaceRuntimeAppSelectionsTX now rid names).
Proof.
  unfold replaceRuntimeAppSelectionsTX, validRuntimeAppSelectionsTX, writeRuntimeAppSelectionsTX. by stable_steps.
Qed.

Lemma CreateRuntime_wp now rid version a input db :
  wp (CreateRuntime now rid version a input)
     (λ r db', created now rid (TrimSpace a) db r db') (λ _ db', db' = db) db.
Proof.
  unfold CreateRuntime. cbv zeta. wp_steps; [done|].
  eapply wp_mono; [apply normalizedCreateInput_wp | | by intros ? ? ->].
  intros i ? (-> & Hp & Him & Hidle & Heg). rewrite wp_atomically, wp_bind. unfold wp at 1. rewrite ensureRuntimeCreate_run.
  destruct (create_refusal now (TrimSpace a) db) as [e|] eqn:Href; cbn [answer]; [done|].
  rewrite wp_bind, wp_gets, wp_bind, wp_refuse. split; [done|]. intros _. cbv beta.
  rewrite wp_bind, wp_refuse. split; [done|]. intros Hrid. cbv beta. rewrite wp_bind, wp_modify.
  match goal with |- wp _ _ _ ?D => set (D0 := D) end.
  assert (Hnone : db.(db_runtimes) !! rid = None).
  { unfold Datatypes.id, not_null, is_null in Hrid. by destruct (db.(db_runtimes) !! rid). }
  (* the row is returned at the end *)
  rewrite wp_bind. eapply wp_mono.
  { eapply (wp_continue same_core _ (λ _ _, True) D0 D0); [reflexivity | | done].
    stable_steps. apply replaceRuntimeAppSelections_core. }
  2: done.
  intros [] db1 H1. rewrite wp_bind. unfold appendRuntimeLogTX. rewrite wp_modify, wp_ret.
  destruct H1 as (HR & HA & HE). unfold created. cbn. rewrite HR, HA, HE. split_and!; try done.
Qed.

Lemma CreateRuntime_history used now rid version a input :
  ¬ used rid → stable (history_ok used) (CreateRuntime now rid version a input).
Proof.
  intros Hu. apply stable_of_wp. intros db. eapply wp_mono; [apply CreateRuntime_wp | | by intros ? ? ->].
  intros r db' (Hn & _ & HR & HA & HE & _). unfold history_ok, closed_stays. rewrite HR, HA, HE.
  split; [done|]. intros id Hid.
  rewrite lookup_insert_ne by (by intros ->). destruct (db.(db_runtimes) !! id); [reflexivity | done].
Qed.

Lemma CreateRuntime_ports now rid version a input : stable (holds_after ports_ok) (CreateRuntime now rid version a input).
Proof.
  apply stable_of_wp. intros db. eapply wp_mono; [apply CreateRuntime_wp | | by intros ? ? ->].
  intros r db' (Hn & _ & HR & _ & _ & _ & _ & Hp & _) [Hrange Hd]. unfold ports_ok. rewrite HR. split.
  - intros id x p [[<- <-]|[_ Hx]]%lookup_insert_Some; [congruence | by eapply Hrange].
  - intros i1 i2 x1 x2 p [[<- <-]|[_ H1]]%lookup_insert_Some [[<- <-]|[_ H2]]%lookup_insert_Some; try congruence.
    by eapply Hd.
Qed.

(** Restoring a port writes one row at most, with a free port. *)
Lemma restore_port_wp now h rid db :
  wp (restore_port now h rid) (λ _ db', (∀ used, history_ok used db db') ∧ (ports_ok db → ports_ok db'))
     (λ _ db', db' = db) db.
Proof.
  unfold restore_port. rewrite wp_bind. eapply wp_mono; [apply allocateViewerPort_wp | | by intros ? ? [-> _]].
  intros p ? (-> & Hrange & Hfree). unfold set_runtime, appendRuntimeLogTX. wp_steps.
  assert (Hev : ∀ r, rt_evolves r (if needs_port h rid r
      then r <| rt_viewer_port := Some p |> <| rt_last_error := None |> <| rt_updated_at := now |> else r)).
  { intros r. by destruct (needs_port h rid r). }
  split; [intros used; eapply history_alter; [done | done | by intros ? _]|].
  intros Hok. destruct (db.(db_runtimes) !! rid) as [r|] eqn:Er.
  - eapply ports_write; [done | done | done |]. cbn. intros p'. destruct (needs_port h rid r); [|auto].
    intros _ [= <-]. auto.
  - destruct Hok as [H1 H2]. unfold ports_ok. cbn. rewrite alter_fixed; [done|]. by rewrite Er.
Qed.

Lemma ListAssignedRuntimes_moves now h : stable (λ db db', (∀ used, history_ok used db db') ∧ (ports_ok db → ports_ok db'))
  (ListAssignedRuntimes now h).
Proof.
  assert (HP : PreOrder (λ db db', (∀ used, history_ok used db db') ∧ (ports_ok db → ports_ok db'))).
  { split; [intros db; split; [intros; reflexivity | done]|].
    intros x y z [H1 P1] [H2 P2]. split; [intros used; by transitivity y | auto]. }
  unfold ListAssignedRuntimes, allocateMissingViewerPortsForHostTX. stable_steps.
  apply stable_of_wp. intros db. eapply wp_mono; [apply restore_port_wp | done |].
  intros e db' ->. split; [intros; reflexivity | done].
Qed.

(** *** Steps *)

(** The modelled calls that touch runtimes. *)
Inductive runtime_op :=
  | OpCreate (rid version account : string) (input : CreateRuntimeInput)
  | OpSettings (version account rid : string) (input : UpdateRuntimeInput)
  | OpStart (account rid host : string) (freshIdentity : bool)
  | OpStop (account rid : string)
  | OpWipe (account rid host : string)
  | OpDelete (account rid host : string)
  | OpDeleteAccount (account : string)
  | OpObserve (rid : string) (o : RuntimeObservation)
  | OpAssigned (host : string)
  | OpMeter
  | OpCredit (deposit : DepositCredit)
  | OpReconcile (fresh : nat → string) (policy : ProvisioningPolicy).

Definition ignore {A} (m : Tx A) : Tx unit := m;; mret tt.

Definition run_runtime (pricing : Pricing) (now : Z) (op : runtime_op) : Tx unit :=
  match op with
  | OpCreate rid version account input => ignore (CreateRuntime now rid version account input)
  | OpSettings version account rid input => ignore (UpdateRuntimeSettings now version account rid input)
  | OpStart account rid host freshIdentity => ignore (startRuntime pricing now account rid host freshIdentity)
  | OpStop account rid => ignore (StopRuntime now account rid)
  | OpWipe account rid host => ignore (wipeRuntime now account rid host)
  | OpDelete account rid host => ignore (deleteRuntime now account rid host)
  | OpDeleteAccount account => DeleteAccount now account
  | OpObserve rid o => UpdateRuntimeObservation now rid o
  | OpAssigned host => ignore (ListAssignedRuntimes now host)
  | OpMeter => ignore (MeterUsage pricing now)
  | OpCredit deposit => ignore (CreditDeposit now deposit)
  | OpReconcile fresh policy => ignore (ReconcileProvisionedVMs now fresh policy)
  end.

Definition op_creates (op : runtime_op) (rid : string) : Prop :=
  match op with OpCreate rid' _ _ _ => rid' = rid | _ => False end.

(** A history of calls, each at its own time; none of them creates a runtime
    under a [used] id. *)
Inductive runtime_history (pricing : Pricing) (used : string → Prop) : Db → Db → Prop :=
  | history_start db : runtime_history pricing used db db
  | history_step db db' db'' now op :
      runtime_history pricing used db db' → (∀ rid, op_creates op rid → ¬ used rid) →
      (run_runtime pricing now op db').1 = db'' → runtime_history pricing used db db''.

Lemma stable_ignore {A} (R : relation Db) `{!PreOrder R} (m : Tx A) : stable R m → stable R (ignore m).
Proof. intros H. unfold ignore. stable_steps. Qed.

Lemma run_runtime_history pricing used now op :
  (∀ rid, op_creates op rid → ¬ used rid) → stable (history_ok used) (run_runtime pricing now op).
Proof.
  intros Hu. destruct op; cbn [run_runtime]; try (apply stable_ignore; [apply _|]).
  - apply CreateRuntime_history. by apply Hu.
  - apply stable_history, UpdateRuntimeSettings_tame.
  - apply startRuntime_history.
  - apply stable_history, StopRuntime_tame.
  - apply stable_history, wipeRuntime_tame.
  - apply stable_history, deleteRuntime_tame.
  - apply stable_history, DeleteAccount_tame.
  - apply stable_history, UpdateRuntimeObservation_tame.
  - intros db. apply ListAssignedRuntimes_moves.
  - apply stable_history, MeterUsage_tame.
  - apply stable_history, CreditDeposit_tame.
  - apply stable_history, ReconcileProvisionedVMs_tame.
Qed.

Lemma run_runtime_ports pricing now op : stable (holds_after ports_ok) (run_runtime pricing now op).
Proof.
  destruct op; cbn [run_runtime]; try (apply stable_ignore; [apply _|]).
  - apply CreateRuntime_ports.
  - apply stable_ports, UpdateRuntimeSettings_tame.
  - apply startRuntime_ports.
  - apply stable_ports, StopRuntime_tame.
  - apply stable_ports, wipeRuntime_tame.
  - apply stable_ports, deleteRuntime_tame.
  - apply stable_ports, DeleteAccount_tame.
  - apply stable_ports, UpdateRuntimeObservation_tame.
  - intros db. exact (proj2 (ListAssignedRuntimes_moves now host db)).
  - apply stable_ports, MeterUsage_tame.
  - apply stable_ports, CreditDeposit_tame.
  - apply stable_ports, ReconcileProvisionedVMs_tame.
Qed.

Lemma runtime_history_ok pricing used db db' : runtime_history pricing used db db' → history_ok used db db'.
Proof.
  induction 1 as [db|db db' db'' now op _ IH Hu <-]; [reflexivity|].
  etransitivity; [exact IH|]. by apply run_runtime_history.
Qed.

(** ** Limits *)

Lemma count_others (p : string → Runtime → bool) rid (t : Runtimes) :
  count_where (λ id r, negb (id =?s rid) && p id r) t = count_where p (delete rid t).
Proof.
  transitivity (count_where (λ id r, negb (id =?s rid) && p id r) (delete rid t)).
  - destruct (t !! rid) as [r|] eqn:E; [|by rewrite delete_id].
    rewrite <-(insert_delete_id t rid r E) at 1. rewrite count_where_insert by apply lookup_delete_eq.
    by rewrite str_eqb_refl.
  - apply count_where_ext. intros id r Hr. destruct (id =?s rid) eqn:E; [|done].
    apply str_eqb_eq in E as ->. by rewrite lookup_delete_eq in Hr.
Qed.

Lemma count_with (p : string → Runtime → bool) rid r (t : Runtimes) :
  count_where p (<[rid := r]> t)
  = ((if p rid r then 1 else 0) + count_where (λ id r, negb (id =?s rid) && p id r) t)%nat.
Proof.
  rewrite <-(insert_delete_eq t rid r). rewrite count_where_insert by apply lookup_delete_eq. by rewrite count_others.
Qed.

(** A start stays within the limits it was checked against. *)
Lemma started_limits pricing now a rid req fresh db r r' db' :
  own_runtime a rid db = Some r → started pricing now a rid req fresh db r r' db' →
  ∃ e, db.(db_entitlements) !! a = Some e ∧ entitlementActive now e = true
  ∧ active_count a db' ≤ e.(en_active_runtime_limit) ∧ starts_today now a db' ≤ e.(en_runtime_starts_per_day)
  ∧ trialRuntimeTimeExhausted e (trialRuntimeSecondsUsed a db) = false.
Proof.
  intros [Hr Hk]%own_runtime_Some (_ & _ & Href & h & ? & p & _ & _ & _ & _ & -> & ->).
  unfold start_refusal in Href. destruct (db.(db_entitlements) !! a) as [e|] eqn:He; [|done].
  destruct (entitlementActive now e) eqn:Ha; [|done]. cbn [negb] in Href.
  destruct (_ || _) eqn:E1 in Href; [done|]. destruct (_ || _) eqn:E2 in Href; [done|].
  destruct (trialRuntimeTimeExhausted _ _) eqn:E3; [done|].
  apply orb_false_iff in E1 as [_ E1%Z.leb_gt], E2 as [_ E2%Z.leb_gt].
  exists e. split_and!; try done.
  - unfold active_count. cbn -[start_row]. rewrite count_with. unfold other_active_count in E1.
    destruct (active_runtime a rid _); lia.
  - unfold starts_today in *. cbn. rewrite List.filter_app, length_app. cbn. rewrite str_eqb_refl.
    assert ((now - day_us <=? now) = true) as -> by (apply Z.leb_le; unfold day_us, hour_us, second_us; lia). cbn. lia.
Qed.

Lemma created_limit now rid a db r db' :
  created now rid a db r db' →
  ∃ e, db.(db_entitlements) !! a = Some e ∧ entitlementActive now e = true ∧ runtime_count a db' ≤ e.(en_runtime_limit).
Proof.
  intros (Hn & Href & HR & _). unfold create_refusal in Href.
  destruct (db.(db_entitlements) !! a) as [e|]; [|done]. destruct (entitlementActive now e) eqn:Ha; [|done]. cbn in Href.
  destruct (_ || _) eqn:E in Href; [done|]. apply orb_false_iff in E as [_ E%Z.leb_gt].
  exists e. split_and!; try done. unfold runtime_count in *. rewrite HR, count_where_insert by done.
  destruct (kept_runtime a rid r); lia.
Qed.

(** ** Cutting off viewers *)

(** No viewing session of the runtime is open and none of its capabilities is
    valid. *)
Definition viewers_gone (rid : string) (db : Db) : Prop :=
  (∀ sid s, db.(db_sessions) !! sid = Some s → s.(se_runtime_id) = rid → session_live s = false)
  ∧ (∀ cid c, db.(db_capabilities) !! cid = Some c → c.(ca_runtime_id) = rid → c.(ca_revoked_at) ≠ None).

Lemma cut_off_viewers_run now rid reason db :
  TrimSpace rid = rid → ∃ S C, cut_off_viewers now rid reason db
    = (db <| db_sessions := S |> <| db_capabilities := C |>, inr tt)
    ∧ viewers_gone rid (db <| db_sessions := S |> <| db_capabilities := C |>).
Proof.
  intros Hid. unfold cut_off_viewers, closeRuntimeSessionsTX, revokeRuntimeCapabilitiesForRuntimeTX, revoke_capabilities_where.
  rewrite Hid. eexists _, _. split; [by destruct db|]. split; cbn.
  - intros sid s Hs Hrt. destruct (update_where_Some _ _ _ _ _ Hs) as (s0 & _ & ->).
    destruct (_ && _) eqn:E in Hrt |- *; [by apply end_session_not_live|]. by rewrite Hrt, str_eqb_refl in E.
  - intros cid c Hc Hrt. destruct (update_where_Some _ _ _ _ _ Hc) as (c0 & _ & ->).
    destruct (_ && _) eqn:E in Hrt |- *; [done|]. rewrite Hrt, str_eqb_refl in E. cbn in E. by destruct (ca_revoked_at c0).
Qed.

(** What ends each of the three operations. *)
Lemma cut_off_and_log_wp {A} now rid reason source level message (r : A) db :
  TrimSpace rid = rid →
  wp (cut_off_viewers now rid reason;; appendRuntimeLogTX now rid source level message;; mret r)
     (λ r' db', r' = r ∧ viewers_gone rid db' ∧ db'.(db_runtimes) = db.(db_runtimes)) (λ _ _, False) db.
Proof.
  intros Hid. destruct (cut_off_viewers_run now rid reason db Hid) as (S & C & Hrun & Hgone).
  rewrite wp_bind. eapply wp_of_run; [exact Hrun|]. unfold appendRuntimeLogTX. wp_steps. done.
Qed.

(** A row is written and read back, then the viewers are cut off. *)
Lemma write_and_cut_wp now rid f r reason source level message db :
  TrimSpace rid = rid → db.(db_runtimes) !! rid = Some r →
  wp (set_runtime rid f;; runtime ← read_runtime rid; cut_off_viewers now rid reason;;
      appendRuntimeLogTX now rid source level message;; mret runtime)
     (λ r' db', r' = f r ∧ viewers_gone rid db' ∧ db'.(db_runtimes) = <[rid := f r]> db.(db_runtimes))
     (λ _ _, False) db.
Proof.
  intros Hid Hr. unfold set_runtime, read_runtime. rewrite wp_bind, wp_modify, wp_bind, wp_bind, wp_gets, wp_require.
  cbn [db_runtimes set_field]. split; intros *; cbn; rewrite lookup_alter_eq, Hr; [|done].
  intros [= <-]. eapply wp_mono; [by apply cut_off_and_log_wp | | by intros ? ? []].
  intros ? db' (-> & Hg & HR). split_and!; [done | done |]. rewrite HR. cbn. by apply alter_as_insert.
Qed.

(** ** Reports: facts *)

Lemma updateRuntimeObservationRecord_wp now rid o db :
  wp (updateRuntimeObservationRecord now rid o)
     (λ _ db', ∃ r, db.(db_runtimes) !! rid = Some r ∧ observes o r = true
               ∧ db' = db <| db_runtimes := <[rid := observed_row now o r]> db.(db_runtimes) |>)
     (λ _ db', db' = db) db.
Proof.
  unfold updateRuntimeObservationRecord, set_runtime. wp_steps; try done. exists a.
  split_and!; [done | by apply negb_false_iff |]. rewrite <-(alter_as_insert _ _ _ _ H). by destruct db.
Qed.

(** A report that carries a snapshot: the manifest that was checked, the room
    there was and the row it left. *)
Definition stored (now : Z) (rid : string) (o : RuntimeObservation) (m : option storedBlobManifestUsage) (bytes : Z)
    (db db' : Db) : Prop :=
  ∃ r e others, db.(db_runtimes) !! rid = Some r ∧ observes o r = true
  ∧ validateStoredBlobManifestAdvance (coalesce r.(rt_blob_manifest_json) "") m = inr tt
  ∧ db.(db_entitlements) !! r.(rt_account_id) = Some e
  ∧ fold_left add_other_bytes (other_rows r.(rt_account_id) rid db) (inr 0) = inr others
  ∧ 0 < e.(en_storage_bytes_limit) ∧ bytes ≤ e.(en_storage_bytes_limit) - others
  ∧ db' = db <| db_runtimes := <[rid := observed_row now o r]> db.(db_runtimes) |>.

Lemma updateWithStorageQuota_wp now rid o m bytes db :
  wp (updateRuntimeObservationWithStorageQuota now rid o m bytes)
     (λ _ db', stored now rid o m bytes db db') (λ _ db', db' = db) db.
Proof.
  unfold updateRuntimeObservationWithStorageQuota. wp_steps; try done.
  rename a into r, H into Hr, H0 into Hobs. apply negb_false_iff in Hobs.
  destruct (validateStoredBlobManifestAdvance _ m) as [e|[]] eqn:Hv; [done|]. wp_steps; [|done].
  destruct (fold_left add_other_bytes _ _) as [e|others] eqn:Ho; [done|]. wp_steps; [done|].
  apply orb_false_iff in H0 as [H0%Z.leb_gt H1%Z.ltb_ge].
  eapply wp_mono; [apply updateRuntimeObservationRecord_wp | | done].
  intros _ db' (r' & Hr' & _ & ->). assert (r' = r) as -> by congruence. exists r, a, others. by split_and!.
Qed.

(** The three ways a report takes effect. *)
Definition reported (now : Z) (rid : string) (o : RuntimeObservation) (db db' : Db) : Prop :=
  ∃ r, db.(db_runtimes) !! rid = Some r ∧ observes o r = true
  ∧ (o.(ob_Deleted) = true
     ∨ o.(ob_Deleted) = false
       ∧ db' = db <| db_runtimes := <[rid := observed_row now o r]> db.(db_runtimes) |>
       ∧ (valueOrEmpty o.(ob_BlobManifestJSON) = ""%string
          ∨ o.(ob_ClearBlobManifest) = false
            ∧ ∃ m bytes, parseStoredBlobManifestUsage (valueOrEmpty o.(ob_BlobManifestJSON)) = inr (Some m)
              ∧ storedBlobManifestBytesAtDepth m 0 = inr bytes ∧ stored now rid o (Some m) bytes db db')).

Lemma valueOrEmpty_trim v : TrimSpace (valueOrEmpty v) = valueOrEmpty v.
Proof. destruct v; cbn; [apply TrimSpace_idemp | done]. Qed.

Lemma UpdateRuntimeObservation_wp now rid o db :
  wp (UpdateRuntimeObservation now rid o) (λ _ db', reported now rid o db db') (λ _ db', db' = db) db.
Proof.
  unfold UpdateRuntimeObservation. rewrite valueOrEmpty_trim. cbv zeta.
  rewrite wp_bind, wp_refuse. split; [done|]. intros _. cbv beta.
  rewrite wp_bind, wp_refuse. split; [done|]. intros _. cbv beta.
  destruct (ob_Deleted o) eqn:Hdel.
  - wp_steps; try done. apply negb_false_iff in H0.
    unfold set_runtime. rewrite wp_modify. unfold wp.
    destruct (deleteAccountIfRuntimeCleanupDoneTX _ _) as [db' [e|[]]]; [done|]. exists a. auto.
  - rewrite wp_bind, wp_refuse. split; [done|]. intros Hclear. cbv beta.
    destruct (valueOrEmpty (ob_BlobManifestJSON o) =?s "") eqn:Hm; cbn [negb] in *.
    + eapply wp_mono; [apply updateRuntimeObservationRecord_wp | | done]. intros _ db' (r & Hr & Ho & ->).
      apply str_eqb_eq in Hm. exists r. auto 10.
    + rewrite andb_true_r in Hclear.
      destruct (parseStoredBlobManifestUsage _) as [e|[m|]] eqn:Hp; [by rewrite wp_throw | |].
      * destruct (storedBlobManifestBytesAtDepth m 0) as [e|bytes] eqn:Hb; [by rewrite wp_throw|].
        eapply wp_mono; [apply updateWithStorageQuota_wp | | done]. intros [] db' Hst.
        pose proof Hst as (r & e & others & Hr & Ho & ? & ? & ? & ? & ? & Hdb). exists r. split_and!; [done | done |].
        right. split_and!; [done | done |]. right. split; [done|]. exists m, bytes. by split_and!.
      * eapply wp_mono; [apply updateWithStorageQuota_wp | | done].
        by intros _ db' (r & e & others & _ & _ & Hv & _).
Qed.

(** ** Profiles: facts *)

Lemma write_settings_changed version now r s : settings_changed version r s → settings_changed version r (write_settings now s r).
Proof. done. Qed.

Lemma UpdateRuntimeSettings_wp now version a rid input db :
  wp (UpdateRuntimeSettings now version a rid input)
     (λ r' db', ∃ r, own_runtime a rid db = Some r ∧ settings_changed version r r'
                ∧ db'.(db_runtimes) = <[rid := r']> db.(db_runtimes))
     (λ _ db', db' = db) db.
Proof.
  unfold UpdateRuntimeSettings. rewrite wp_bind. eapply wp_mono; [apply GetRuntime_wp | | by intros ? ? [-> _]].
  intros r ? (-> & Hr & _). rewrite wp_bind. eapply wp_mono; [apply changed_settings_wp | | by intros ? ? ->].
  intros s ? [-> Hs]. unfold set_runtime, read_runtime, appendRuntimeLogTX. wp_steps; try done.
  pose proof H as [Hr' _]%own_runtime_Some. assert (a0 = r) as -> by congruence.
  cbn in H0. rewrite lookup_alter_eq, Hr in H0. injection H0 as <-. exists r. split_and!; [done | |].
  - by apply write_settings_changed.
  - cbn. by apply alter_as_insert.
Qed.

(** ** A concrete database *)

Definition sample_host : Host :=
  MkHost "node" "10.0.0.1" 1 true true true true false 0 "pk" "local-disk" "" "" "" ""
    None None None None None 0 0 100.
Definition sample_runtimes : Db :=
  empty_db <| db_accounts := {["acct" := default_account 0]} |>
    <| db_entitlements := {["acct" := default_entitlement 0]} |>
    <| db_runtimes := {["rt" := default_runtime "acct" "stopped" 0]} |>
    <| db_operators := {["op" := default_operator "op" 0]} |>
    <| db_nodes := {["node-1" := MkApprovedNode "op" "approved" 1 0 None 0 0]} |>
    <| db_node_keys := {[("node-1", 1) := MkNodeKey "pk" "fp" "active" 0 None None 0]} |>
    <| db_hosts := {["node-1" := sample_host]} |>.
Definition sample_pricing : Pricing := MkPricing 0 0.
Definition sample_started : Db := (startRuntime sample_pricing 100 "acct" "rt" "" false sample_runtimes).1.

(** A report from the node that holds the sample runtime. *)
Definition sample_report (generation : Z) (manifest : option string) : RuntimeObservation :=
  MkRuntimeObservation "node-1" "running" "online" None (Some 5555) None (Some "sia-renterd"%string) manifest None None
    false None false false false generation false.

(** The sample start succeeds. *)
Lemma sample_starts : ∃ db' r', startRuntime sample_pricing 100 "acct" "rt" "" false sample_runtimes = (db', inr r').
Proof.
  assert (Hr : match (startRuntime sample_pricing 100 "acct" "rt" "" false sample_runtimes).2 with
               | inl _ => False | inr _ => True end) by (vm_compute; exact I).
  destruct (startRuntime sample_pricing 100 "acct" "rt" "" false sample_runtimes) as [db' [e|r']]; [done|]. eauto.
Qed.

(** ** Properties *)

(** C2: Starting a runtime.  A start of a runtime that is to run already
    returns it and changes nothing.  Any other start that succeeds had an
    active entitlement with trial time or balance left; the runtime goes, under
    a new generation and a new persona, to a node that is trusted, ready and may
    serve the account (the required one, if any), with its own or a free viewer
    port; one start event and the log are all else that changes, and afterwards
    the account is within its limits on running runtimes and on starts per day.
    A failed start changes nothing and fails for the first reason in the code's
    order. *)
Theorem startRuntime_spec pricing now a rid req fresh db :
  match startRuntime pricing now a rid req fresh db with
  | (db', inr r') => ∃ r, own_runtime a rid db = Some r
      ∧ (wants_state "running" r = true ∧ r' = r ∧ db' = db
         ∨ started pricing now a rid req fresh db r r' db'
           ∧ r'.(rt_operation_generation) = r.(rt_operation_generation) + 1
           ∧ r'.(rt_persona_version) = r.(rt_persona_version) + 1
           ∧ ∃ e, db.(db_entitlements) !! a = Some e ∧ entitlementActive now e = true
             ∧ active_count a db' ≤ e.(en_active_runtime_limit) ∧ starts_today now a db' ≤ e.(en_runtime_starts_per_day)
             ∧ trialRuntimeTimeExhausted e (trialRuntimeSecondsUsed a db) = false)
  | (db', inl e) => db' = db ∧ start_fails pricing now a rid db e
  end.
Proof.
  pose proof (startRuntime_wp pricing now a rid req fresh db) as H. unfold wp in H.
  destruct (startRuntime pricing now a rid req fresh db) as [db' [e|r']]; [done|].
  destruct H as (r & Hr & [Hrun|Hst]); exists r; split; try done; [by left|]. right. split; [done|].
  pose proof (started_limits _ _ _ _ _ _ _ _ _ _ Hr Hst) as Hlim.
  destruct Hst as (_ & _ & _ & h & ? & p & _ & _ & _ & _ & -> & _). done.
Qed.

(** C27: Stopping, wiping and deleting cut viewers off.  When one of them takes
    effect, every viewing session of the runtime is closed and every capability
    on it revoked, in the same transaction that changes the row; stop and wipe
    leave the runtime to be stopped, delete leaves it to be deleted (at once if
    no node holds it), and a stop of a stopped runtime changes nothing. *)
Theorem viewers_cut_off now a rid host db (Hid : TrimSpace rid = rid) :
  (∀ db' r', StopRuntime now a rid db = (db', inr r') → ∃ r, own_runtime a rid db = Some r
     ∧ (wants_state "stopped" r = true ∧ r' = r ∧ db' = db
        ∨ viewers_gone rid db' ∧ r' = stop_row now r ∧ db'.(db_runtimes) = <[rid := r']> db.(db_runtimes)))
  ∧ (∀ db' r', wipeRuntime now a rid host db = (db', inr r') → ∃ r, own_runtime a rid db = Some r
     ∧ host_may_clean host r = true ∧ viewers_gone rid db'
     ∧ r' = wipe_row now host r ∧ db'.(db_runtimes) = <[rid := r']> db.(db_runtimes))
  ∧ (∀ db' r', deleteRuntime now a rid host db = (db', inr r') → viewers_gone rid db'
     ∧ db'.(db_runtimes) !! rid = Some r' ∧ r'.(rt_desired_state) = "deleted"%string
     ∧ (rt_live r' = false ↔ r'.(rt_host_id) = None)).
Proof.
  split_and!; intros db' r' H.
  - eapply (wp_run _ (λ r' db', ∃ r, _ ∧ (_ ∨ _)) (λ _ _, True)) in H; [exact H|].
    unfold StopRuntime. wp_steps; try done; [exists a0; auto|]. rename a0 into r, H0 into Hr.
    pose proof Hr as [Hrow _]%own_runtime_Some. rewrite <-wp_bind.
    eapply wp_mono; [by apply write_and_cut_wp | | done]. intros ? ? (-> & ? & ?). exists r. auto.
  - eapply (wp_run _ (λ r' db', ∃ r, _ ∧ _ ∧ _ ∧ _ ∧ _) (λ _ _, True)) in H; [exact H|].
    unfold wipeRuntime. wp_steps; try done. rename a0 into r, H0 into Hr, H1 into Hm. apply negb_false_iff in Hm.
    pose proof Hr as [Hrow _]%own_runtime_Some. rewrite <-wp_bind.
    eapply wp_mono; [by apply write_and_cut_wp | | done]. intros ? ? (-> & ? & ?). exists r. auto.
  - eapply (wp_run _ (λ r' db', _ ∧ _ ∧ _ ∧ _) (λ _ _, True)) in H; [exact H|].
    unfold deleteRuntime. wp_steps. eapply wp_mono; [apply GetRuntime_wp | | done].
    intros r ? (-> & Hr & Hl%runtime_of_live). wp_steps; [done|]. unfold set_runtime, read_runtime.
    wp_steps; try done; rewrite <-wp_bind; (eapply wp_mono; [by apply cut_off_and_log_wp | | done]);
      intros ? db1 (-> & Hg & HR); rewrite HR; cbn in *; rewrite ?alter_alter_eq, ?lookup_alter_eq, ?Hr in *; cbn in *;
      simplify_eq; split_and!; try done.
    all: unfold rt_live in *; cbn in *; by destruct (coalesce2 _ _), (rt_deleted_at r).
Qed.

Lemma viewers_cut_off_witness : ∃ db' r' r, StopRuntime 200 "acct" "rt" sample_started = (db', inr r')
  ∧ own_runtime "acct" "rt" sample_started = Some r
  ∧ (wants_state "stopped" r = true ∧ r' = r ∧ db' = sample_started
     ∨ viewers_gone "rt" db' ∧ r' = stop_row 200 r ∧ db'.(db_runtimes) = <["rt"%string := r']> sample_started.(db_runtimes)).
Proof.
  assert (match (StopRuntime 200 "acct" "rt" sample_started).2 with inr _ => true | inl _ => false end = true) as Hok
    by (vm_compute; reflexivity).
  destruct (StopRuntime 200 "acct" "rt" sample_started) as [db' [e|r']] eqn:E; [discriminate Hok|].
  destruct (proj1 (viewers_cut_off 200 "acct" "rt" "" sample_started eq_refl) _ _ E) as (r & Hr & Hcase).
  exists db', r', r. auto.
Defined.

(** C8: What calls can do to a runtime.  Over any sequence of the calls in
    [runtime_op], failed ones included, a runtime keeps its owner, its operation generation,
    persona version and snapshot floor never fall, deletion is final (a
    deleted row keeps its state and generation, a runtime to be deleted stays
    so), and its row disappears only together with its account. *)
Theorem runtime_history_evolves pricing used db db' rid r
  (H : runtime_history pricing used db db') (Hu : used rid) (Hr : db.(db_runtimes) !! rid = Some r) :
  match db'.(db_runtimes) !! rid with
  | Some r' => rt_evolves r r'
  | None => db'.(db_accounts) !! r.(rt_account_id) = None
  end.
Proof.
  destruct (runtime_history_ok _ _ _ _ H) as [_ Hh]. specialize (Hh rid Hu). rewrite Hr in Hh.
  by destruct (db'.(db_runtimes) !! rid).
Qed.

(** The sample history: a start, then a stop. *)
Definition sample_stopped : Db := (run_runtime sample_pricing 200 (OpStop "acct" "rt")
  (run_runtime sample_pricing 100 (OpStart "acct" "rt" "" false) sample_runtimes).1).1.

Lemma sample_history used : runtime_history sample_pricing used sample_runtimes sample_stopped.
Proof.
  apply (history_step _ _ _ (run_runtime sample_pricing 100 (OpStart "acct" "rt" "" false) sample_runtimes).1 _ 200
           (OpStop "acct" "rt")); [|by intros ? [] | reflexivity].
  apply (history_step _ _ _ sample_runtimes _ 100 (OpStart "acct" "rt" "" false)); [|by intros ? [] | reflexivity].
  apply history_start.
Qed.

Lemma runtime_history_evolves_witness :
  match sample_stopped.(db_runtimes) !! "rt"%string with
  | Some r' => rt_evolves (default_runtime "acct" "stopped" 0) r'
  | None => sample_stopped.(db_accounts) !! "acct"%string = None
  end.
Proof.
  apply (runtime_history_evolves sample_pricing (λ id, id = "rt"%string) sample_runtimes sample_stopped "rt"
           (default_runtime "acct" "stopped" 0)); [apply sample_history | reflexivity | reflexivity].
Defined.

(** C24: Reports of an earlier operation never count.  Once a runtime's
    generation has reached [g], whatever calls of [runtime_op] follow, a node's report with a
    generation below [g] is refused and changes nothing.  (Starting, stopping,
    wiping and deleting raise the generation.) *)
Theorem old_reports_refused pricing used db db' rid r now o
  (H : runtime_history pricing used db db') (Hu : used rid) (Hr : db.(db_runtimes) !! rid = Some r)
  (Hold : o.(ob_OperationGeneration) < r.(rt_operation_generation)) :
  ∃ e, UpdateRuntimeObservation now rid o db' = (db', inl e).
Proof.
  pose proof (UpdateRuntimeObservation_wp now rid o db') as Hw. unfold wp in Hw.
  destruct (UpdateRuntimeObservation now rid o db') as [db'' [e|[]]]; [exists e; by rewrite Hw|].
  destruct Hw as (r' & Hr' & Hobs & _). exfalso.
  destruct (runtime_history_ok _ _ _ _ H) as [_ Hh]. specialize (Hh rid Hu). rewrite Hr, Hr' in Hh.
  destruct Hh as [_ _ Hg _ _ _ _]. unfold observes in Hobs.
  apply andb_true_iff in Hobs as [[_ Hgen%Z.eqb_eq]%andb_true_iff _]. lia.
Qed.

Lemma old_reports_refused_witness : ∃ e,
  UpdateRuntimeObservation 300 "rt" (sample_report 1 None) sample_started = (sample_started, inl e).
Proof.
  apply (old_reports_refused sample_pricing (λ id, id = "rt"%string) sample_started sample_started "rt"
           (start_row 100 "node-1" 46000 false (default_runtime "acct" "stopped" 0)));
    [apply history_start | reflexivity | vm_compute; reflexivity | vm_compute; reflexivity].
Defined.

(** C36: Viewer ports are never shared.  From a database where the viewer ports
    of live runtimes are distinct and in range, every sequence of the calls in
    [runtime_op] leads to another such database; in particular a start allocates only a free
    port. *)
Theorem viewer_ports_never_shared pricing used db db'
  (H : runtime_history pricing used db db') (Hok : ports_ok db) : ports_ok db'.
Proof.
  induction H as [db|db db' db'' now op _ IH Hu <-]; [done|]. apply run_runtime_ports. by apply IH.
Qed.

Lemma viewer_ports_never_shared_witness : ports_ok sample_stopped.
Proof.
  apply (viewer_ports_never_shared sample_pricing (λ _, False) sample_runtimes); [apply sample_history|].
  split; intros *; cbn; rewrite ?lookup_singleton_Some; naive_solver.
Defined.

(** Creating a runtime and changing its settings.  A created runtime has a
    fresh row with a profile the store allows (display, density, media, egress
    and inactivity period), is stopped, and leaves the account within its limit
    of runtimes.  Settings that are accepted keep a valid profile valid, change
    audio, camera, files and egress only while the runtime is to be stopped, set
    a region only in its sealed form and write that row alone.  Refused calls
    change nothing. *)
Theorem runtime_profiles now rid version a input settings db :
  match CreateRuntime now rid version a input db with
  | (db', inr r) => created now rid (TrimSpace a) db r db'
      ∧ ∃ e, db.(db_entitlements) !! TrimSpace a = Some e ∧ entitlementActive now e = true
             ∧ runtime_count (TrimSpace a) db' ≤ e.(en_runtime_limit)
  | (db', inl _) => db' = db
  end
  ∧ match UpdateRuntimeSettings now version a rid settings db with
    | (db', inr r') => ∃ r, own_runtime a rid db = Some r ∧ settings_changed version r r'
        ∧ db'.(db_runtimes) = <[rid := r']> db.(db_runtimes)
    | (db', inl _) => db' = db
    end.
Proof.
  split.
  - pose proof (CreateRuntime_wp now rid version a input db) as H. unfold wp in H.
    destruct (CreateRuntime now rid version a input db) as [db' [e|r]]; [done|]. split; [done|]. by eapply created_limit.
  - exact (UpdateRuntimeSettings_wp now version a rid settings db).
Qed.
