(* ===== verification/Sessions.v ===== *)
(** * Viewing sessions

    Models the sessions a phone opens on a running runtime and the
    capabilities that stand for it (internal/store/store.go:3646-3780,
    5746-6610, 7171-7375, 8557-8580, 8811-8831): opening, attaching the relay
    with a one-time token, heartbeats, resuming, closing, and the pass that
    ends abandoned sessions and stops idle runtimes.  A session belongs to a
    device or to a capability; most operations come in both forms.  New session
    ids and relay tokens ([uuid.NewString], [generateRelayToken]) are arguments;
    only a token's hash is stored. *)

From Stdlib Require Import Ascii.
From S2P Require Import Prelude.
From S2P Require Import GoLib.
From S2P Require Import Codec.
From S2P Require Import Schema.
From S2P Require Import Manifests.
From S2P Require Import Common.
From S2P Require Import Billing.
From S2P Require Import Wallet.
From S2P Require Import Registry.
From S2P Require Import Provisioning.
From S2P Require Import Entitlements.
From S2P Require Import Apps.
From S2P Require Import Profiles.
From S2P Require Import Devices.
From S2P Require Import Runtimes.
Open Scope Z_scope.

(** ** Tokens and times *)

Definition hashRelayToken (relayToken : string) : string :=
  raw_url_encode (Sum256 (octets_of ("virtroid-relay-token-v1:" +:+ TrimSpace relayToken))).
#[global] Arguments hashRelayToken : simpl never.

Definition sessionAttachTTL : Z := 2 * minute_us.
Definition runtimeCapabilityTTL : Z := 24 * hour_us.
(** [INTERVAL '2 minutes'] in the statements that renew a session. *)
Definition renewal : Z := 2 * minute_us.

(** [postgresInterval]: the duration in whole seconds, half a second rounded
    up, and at least one second. *)
Definition postgresInterval (d : Z) : Z :=
  let seconds := Z.quot (d + (if d <? 0 then - 500000 else 500000)) second_us in
  (if seconds <? 1 then 1 else seconds) * second_us.

(** ** Who holds a session *)

(** A session with its runtime ([r.id = s.runtime_id]). *)
Definition session_runtime (sessionID : string) (db : Db) : option (Session * Runtime) :=
  s ← db.(db_sessions) !! sessionID;
  r ← db.(db_runtimes) !! s.(se_runtime_id);
  Some (s, r).

(** [c.revoked_at IS NULL AND c.expires_at > NOW()] for a capability of this
    runtime and its account. *)
Definition capability_serves (now : Z) (capabilityID runtimeID : string) (r : Runtime) (db : Db) : bool :=
  match db.(db_capabilities) !! capabilityID with
  | Some c => (c.(ca_runtime_id) =?s runtimeID) && (c.(ca_account_id) =?s r.(rt_account_id))
              && is_null c.(ca_revoked_at) && (now <? c.(ca_expires_at))
  | None => false
  end.

Definition held_by_device (accountID deviceID : string) (s : Session) (r : Runtime) : bool :=
  null_eqb s.(se_device_id) deviceID && (r.(rt_account_id) =?s accountID).

Definition held_by_capability (now : Z) (db : Db) (accountID capabilityID : string) (s : Session) (r : Runtime) : bool :=
  null_eqb s.(se_capability_id) capabilityID && (r.(rt_account_id) =?s accountID)
  && capability_serves now capabilityID s.(se_runtime_id) r db.

(** The runtime takes viewers: [deleted_at IS NULL], running, online, with a
    node and a viewer port. *)
Definition viewable (r : Runtime) : bool :=
  rt_live r && (r.(rt_desired_state) =?s "running") && (r.(rt_status) =?s "running")
  && (r.(rt_connection_status) =?s "online") && not_null r.(rt_host_id) && not_null r.(rt_viewer_port).

(** [s.status IN ('pending', 'active') AND s.expires_at > NOW()]. *)
Definition session_open (now : Z) (s : Session) : bool := session_live s && (now <? s.(se_expires_at)).

(** [UPDATE sessions ... WHERE s.id = $1 AND p RETURNING ...], [e] when no row
    matches. *)
Definition update_session (sessionID : string) (p : Db → Session → Runtime → bool) (f : Session → Session) (e : Err)
    : Tx (Session * Runtime) :=
  db ← gets Datatypes.id;
  sr ← require (session_runtime sessionID db) e;
  refuse_if (negb (p db sr.1 sr.2)) e;;
  modify (λ db, db <| db_sessions ::= <[sessionID := f sr.1]> |>);;
  mret (f sr.1, sr.2).

(** A session as the API returns it. *)
Record SessionReply := MkSessionReply { sr_ID : string; sr_row : Session; sr_RelayToken : string }.

(** ** Opening *)

(** [ensureSessionTimeAvailable]. *)
Definition ensureSessionTimeAvailable (pricing : Pricing) (accountID : string) : Tx unit :=
  db ← gets Datatypes.id;
  e ← require (db.(db_entitlements) !! TrimSpace accountID) ErrRuntimeEntitlement;
  if negb (EqualFold (TrimSpace e.(en_source)) "trial")
  then paidBalanceCheck pricing accountID e.(en_source) 1
  else
    let used := trialRuntimeSecondsUsed accountID db in
    refuse_if ((e.(en_trial_runtime_seconds) <=? 0) || (e.(en_trial_runtime_seconds) <=? used)) ErrRuntimeTrialTimeQuota.

Definition ready_to_view (r : Runtime) : bool :=
  (r.(rt_desired_state) =?s "running") && (r.(rt_status) =?s "running") && (r.(rt_connection_status) =?s "online").

(** The live session of a runtime, which idx_sessions_one_live_per_runtime
    makes unique. *)
Definition live_sessions (runtimeID : string) (db : Db) : list (string * Session) :=
  select (λ _ s, (s.(se_runtime_id) =?s runtimeID) && session_live s) db.(db_sessions).

(** [INSERT ... ON CONFLICT (runtime_id) ... DO UPDATE ... WHERE
    sessions.expires_at <= NOW()]: a new row, or the live row of the runtime
    taken over once it has expired. *)
Definition open_session (now : Z) (sessionID runtimeID : string) (device capability : option string) (tokenHash : string)
    : Tx (string * Session) :=
  db ← gets Datatypes.id;
  match live_sessions runtimeID db with
  | [] =>
    refuse_if (not_null (db.(db_sessions) !! sessionID)) (ErrUnique "sessions_pkey");;
    let s := MkSession runtimeID device capability "pending" tokenHash now now (Some now) None None
               (now + sessionAttachTTL) None in
    modify (λ db, db <| db_sessions ::= <[sessionID := s]> |>);;
    mret (sessionID, s)
  | (sid, s) :: _ =>
    refuse_if (now <? s.(se_expires_at)) ErrSessionAlreadyActive;;
    let s' := s <| se_device_id := device |> <| se_capability_id := capability |>
                <| se_status := (if s.(se_expires_at) <=? now then "pending"%string else s.(se_status)) |>
                <| se_relay_token := tokenHash |> <| se_relay_token_consumed_at := None |>
                <| se_expires_at := now + sessionAttachTTL |>
                <| se_created_at := (if s.(se_expires_at) <=? now then now else s.(se_created_at)) |>
                <| se_last_client_heartbeat_at := Some now |> <| se_ended_at := None |> <| se_end_reason := None |>
                <| se_updated_at := now |> in
    modify (λ db, db <| db_sessions ::= <[sid := s']> |>);;
    mret (sid, s')
  end.

(** The runtime of an unrevoked device's account. *)
Definition device_runtime (deviceID runtimeID : string) (db : Db) : option Runtime :=
  r ← db.(db_runtimes) !! runtimeID;
  d ← db.(db_devices) !! deviceID;
  if (d.(dv_account_id) =?s r.(rt_account_id)) && is_null d.(dv_revoked_at) && rt_live r
     && negb (r.(rt_desired_state) =?s "deleted")
  then Some r else None.

Definition CreateSession (pricing : Pricing) (now : Z) (sessionID relayToken deviceID runtimeID : string)
    : Tx SessionReply :=
  db ← gets Datatypes.id;
  r ← require (device_runtime deviceID runtimeID db) ErrRuntimeNotFound;
  refuse_if (negb (ready_to_view r)) ErrRuntimeNotReady;;
  ensureSessionTimeAvailable pricing r.(rt_account_id);;
  s ← open_session now sessionID runtimeID (Some deviceID) None (hashRelayToken relayToken);
  mret (MkSessionReply s.1 s.2 relayToken).

Definition CreateSessionWithCapability (pricing : Pricing) (now : Z)
    (sessionID relayToken accountID capabilityID runtimeID : string) : Tx SessionReply :=
  let accountID := TrimSpace accountID in
  let capabilityID := TrimSpace capabilityID in
  let runtimeID := TrimSpace runtimeID in
  refuse_if ((accountID =?s "") || (capabilityID =?s "") || (runtimeID =?s "")) ErrRuntimeCapability;;
  db ← gets Datatypes.id;
  r ← require (own_runtime accountID runtimeID db) ErrRuntimeNotFound;
  refuse_if (negb (capability_serves now capabilityID runtimeID r db)) ErrRuntimeNotFound;;
  refuse_if (negb (ready_to_view r)) ErrRuntimeNotReady;;
  ensureSessionTimeAvailable pricing accountID;;
  s ← open_session now sessionID runtimeID None (Some capabilityID) (hashRelayToken relayToken);
  mret (MkSessionReply s.1 s.2 relayToken).

(** [AbortPendingSession]: whether a row matched. *)
Definition AbortPendingSession (now : Z) (sessionID relayToken reason : string) : Tx bool :=
  let sessionID := TrimSpace sessionID in
  let relayToken := TrimSpace relayToken in
  if (sessionID =?s "") || (relayToken =?s "") then mret false
  else
    let reason := TrimSpace reason in
    let reason := if reason =?s "" then "session setup aborted"%string else reason in
    db ← gets Datatypes.id;
    match db.(db_sessions) !! sessionID with
    | Some s =>
      if (s.(se_relay_token) =?s hashRelayToken relayToken) && (s.(se_status) =?s "pending") then
        modify (λ db, db <| db_sessions ::= <[sessionID := end_session now "closed" reason s]> |>);;
        mret true
      else mret false
    | None => mret false
    end.

(** ** The relay *)

Record SessionRelayTarget := MkRelayTarget {
  st_SessionID : string; st_RuntimeID : string; st_DeviceID : string; st_HostID : string; st_ViewerPort : Z }.

(** The token opens this session now. *)
Definition relay_opens (now : Z) (tokenHash : string) (s : Session) : bool :=
  (s.(se_relay_token) =?s tokenHash) && is_null s.(se_relay_token_consumed_at) && session_open now s.

Definition attach (now : Z) (s : Session) : Session :=
  s <| se_status := "active"%string |> <| se_updated_at := now |> <| se_last_client_heartbeat_at := Some now |>
    <| se_expires_at := now + renewal |> <| se_relay_token_consumed_at := Some now |>.

Definition ResolveSessionRelayTarget (now : Z) (sessionID relayToken : string) : Tx SessionRelayTarget :=
  refuse_if ((TrimSpace sessionID =?s "") || (TrimSpace relayToken =?s "")) ErrNoRows;;
  sr ← update_session sessionID (λ _ s r, relay_opens now (hashRelayToken relayToken) s && viewable r) (attach now) ErrNoRows;
  let '(s, r) := sr in
  mret (MkRelayTarget sessionID s.(se_runtime_id) (coalesce s.(se_device_id) ""%string)
          (coalesce r.(rt_host_id) ""%string) (coalesce r.(rt_viewer_port) 0)).

Definition SessionRelayHost (now : Z) (sessionID relayToken : string) : Tx string :=
  refuse_if ((TrimSpace sessionID =?s "") || (TrimSpace relayToken =?s "")) ErrNoRows;;
  db ← gets Datatypes.id;
  sr ← require (session_runtime (TrimSpace sessionID) db) ErrNoRows;
  refuse_if (negb (relay_opens now (hashRelayToken (TrimSpace relayToken)) sr.1 && rt_live sr.2)) ErrNoRows;;
  require sr.2.(rt_host_id) ErrNoRows.

(** A new token for a session that is still open. *)
Definition new_token (now : Z) (tokenHash : string) (s : Session) : Session :=
  s <| se_relay_token := tokenHash |> <| se_relay_token_consumed_at := None |> <| se_updated_at := now |>
    <| se_expires_at := now + renewal |>.

Definition IssueSessionRelayToken (now : Z) (relayToken accountID deviceID sessionID : string) : Tx SessionReply :=
  let accountID := TrimSpace accountID in
  let deviceID := TrimSpace deviceID in
  let sessionID := TrimSpace sessionID in
  refuse_if ((accountID =?s "") || (deviceID =?s "") || (sessionID =?s "")) ErrSessionNotFound;;
  sr ← update_session sessionID
    (λ db s r, held_by_device accountID deviceID s r
       && match db.(db_devices) !! deviceID with
          | Some d => (d.(dv_account_id) =?s r.(rt_account_id)) && is_null d.(dv_revoked_at) | None => false end
       && session_open now s && viewable r)
    (new_token now (hashRelayToken relayToken)) ErrSessionNotFound;
  mret (MkSessionReply sessionID sr.1 relayToken).

Definition IssueSessionRelayTokenWithCapability (now : Z) (relayToken accountID capabilityID sessionID : string)
    : Tx SessionReply :=
  let accountID := TrimSpace accountID in
  let capabilityID := TrimSpace capabilityID in
  let sessionID := TrimSpace sessionID in
  refuse_if ((accountID =?s "") || (capabilityID =?s "") || (sessionID =?s "")) ErrSessionNotFound;;
  sr ← update_session sessionID
    (λ db s r, held_by_capability now db accountID capabilityID s r && session_open now s && viewable r)
    (new_token now (hashRelayToken relayToken)) ErrSessionNotFound;
  mret (MkSessionReply sessionID sr.1 relayToken).

(** ** Heartbeats *)

Definition heartbeat (now : Z) (s : Session) : Session :=
  let active := s.(se_status) =?s "active" in
  s <| se_updated_at := now |>
    <| se_last_client_heartbeat_at ::= (λ h, if active then Some now else h) |>
    <| se_expires_at ::= (λ t, if active then now + renewal else t) |>.

(** [r.deleted_at IS NULL AND r.desired_state <> 'deleted']. *)
Definition rt_kept (r : Runtime) : bool := rt_live r && negb (r.(rt_desired_state) =?s "deleted").

Definition HeartbeatSession (now : Z) (accountID deviceID sessionID : string) : Tx SessionReply :=
  let accountID := TrimSpace accountID in
  let deviceID := TrimSpace deviceID in
  let sessionID := TrimSpace sessionID in
  refuse_if ((accountID =?s "") || (deviceID =?s "") || (sessionID =?s "")) ErrSessionNotFound;;
  sr ← update_session sessionID
    (λ _ s r, held_by_device accountID deviceID s r && session_open now s && rt_kept r)
    (heartbeat now) ErrSessionNotFound;
  mret (MkSessionReply sessionID sr.1 "").

Definition HeartbeatSessionWithCapability (now : Z) (accountID capabilityID sessionID : string) : Tx SessionReply :=
  let accountID := TrimSpace accountID in
  let capabilityID := TrimSpace capabilityID in
  let sessionID := TrimSpace sessionID in
  refuse_if ((accountID =?s "") || (capabilityID =?s "") || (sessionID =?s "")) ErrSessionNotFound;;
  sr ← update_session sessionID
    (λ db s r, held_by_capability now db accountID capabilityID s r && session_open now s && rt_kept r)
    (heartbeat now) ErrSessionNotFound;
  mret (MkSessionReply sessionID sr.1 "").

(** ** Closing *)

Definition CloseSession (now : Z) (accountID deviceID sessionID : string) : Tx unit :=
  update_session sessionID (λ _ s r, held_by_device accountID deviceID s r && session_live s)
    (end_session now "closed" "client closed") ErrSessionNotFound;;
  mret tt.

Definition CloseSessionWithCapability (now : Z) (accountID capabilityID sessionID : string) : Tx unit :=
  atomically (
    update_session sessionID (λ db s r, held_by_capability now db accountID capabilityID s r && session_live s)
      (end_session now "closed" "client closed") ErrSessionNotFound;;
    revokeRuntimeCapabilityTX now accountID capabilityID;;
    mret tt).

(** The runtime of a closed session is stopped at once. *)
Definition stop_viewed_row (now : Z) (r : Runtime) : Runtime :=
  let hostless := is_null r.(rt_host_id) in
  r <| rt_status := (if hostless then "stopped"%string else "stopping"%string) |>
    <| rt_operation_generation ::= (λ g, if r.(rt_desired_state) =?s "stopped" then g else g + 1) |>
    <| rt_desired_state := "stopped"%string |>
    <| rt_connection_status := (if hostless then "offline"%string else "disconnecting"%string) |>
    <| rt_started_at := None |> <| rt_last_error := None |> <| rt_updated_at := now |>.

Definition stop_viewed_runtime (now : Z) (accountID runtimeID : string) : Tx Runtime :=
  db ← gets Datatypes.id;
  r ← require (own_runtime accountID runtimeID db) ErrRuntimeNotFound;
  modify (λ db, db <| db_runtimes ::= <[runtimeID := stop_viewed_row now r]> |>);;
  appendRuntimeLogTX now runtimeID "user" "info" "Session closed and runtime stop queued.";;
  revokeRuntimeCapabilitiesForRuntimeTX now runtimeID;;
  mret (stop_viewed_row now r).

Definition EndSessionAndStopRuntime (now : Z) (accountID deviceID sessionID runtimeID : string) : Tx Runtime :=
  atomically (
    sr ← update_session sessionID
      (λ _ s r, held_by_device accountID deviceID s r && (s.(se_runtime_id) =?s runtimeID) && session_live s)
      (end_session now "closed" "client closed") ErrSessionNotFound;
    stop_viewed_runtime now accountID sr.1.(se_runtime_id)).

Definition EndSessionAndStopRuntimeWithCapability (now : Z) (accountID capabilityID sessionID runtimeID : string)
    : Tx Runtime :=
  atomically (
    sr ← update_session sessionID
      (λ db s r, held_by_capability now db accountID capabilityID s r && (s.(se_runtime_id) =?s runtimeID) && session_live s)
      (end_session now "closed" "client closed") ErrSessionNotFound;
    stop_viewed_runtime now accountID sr.1.(se_runtime_id)).

(** ** Looking at a session *)

Definition effectiveSessionStatus (s : Session) (now : Z) : string * bool :=
  let status := ToLower (TrimSpace s.(se_status)) in
  let status := if status =?s "" then "unknown"%string else status in
  let expired := ((status =?s "pending") || (status =?s "active")) && negb (now <? s.(se_expires_at)) in
  if expired then ("expired"%string, true) else (status, false).

Definition runtimeReadyForSession (r : Runtime) : bool :=
  (r.(rt_status) =?s "running") && (r.(rt_desired_state) =?s "running") && (r.(rt_connection_status) =?s "online")
  && not_null r.(rt_host_id) && not_null r.(rt_viewer_port) && is_null r.(rt_deleted_at).

Record SessionState := MkSessionState {
  ss_Session : Session;
  ss_Runtime : Runtime;
  ss_EffectiveStatus : string;
  ss_IsExpired : bool;
  ss_RuntimeReady : bool;
  ss_CanResume : bool
}.

Definition session_state (now : Z) (sr : Session * Runtime) : SessionState :=
  let '(s, r) := sr in
  let '(effectiveStatus, expired) := effectiveSessionStatus s now in
  let ready := runtimeReadyForSession r in
  MkSessionState s r effectiveStatus expired ready
    (ready && negb expired && ((effectiveStatus =?s "pending") || (effectiveStatus =?s "active"))).

Definition GetSessionState (now : Z) (accountID deviceID sessionID : string) : Tx SessionState :=
  let accountID := TrimSpace accountID in
  let deviceID := TrimSpace deviceID in
  let sessionID := TrimSpace sessionID in
  refuse_if ((accountID =?s "") || (deviceID =?s "") || (sessionID =?s "")) ErrSessionNotFound;;
  db ← gets Datatypes.id;
  sr ← require (session_runtime sessionID db) ErrSessionNotFound;
  refuse_if (negb (held_by_device accountID deviceID sr.1 sr.2)) ErrSessionNotFound;;
  mret (session_state now sr).

Definition GetSessionStateWithCapability (now : Z) (accountID capabilityID sessionID : string) : Tx SessionState :=
  let accountID := TrimSpace accountID in
  let capabilityID := TrimSpace capabilityID in
  let sessionID := TrimSpace sessionID in
  refuse_if ((accountID =?s "") || (capabilityID =?s "") || (sessionID =?s "")) ErrSessionNotFound;;
  db ← gets Datatypes.id;
  sr ← require (session_runtime sessionID db) ErrSessionNotFound;
  refuse_if (negb (held_by_capability now db accountID capabilityID sr.1 sr.2)) ErrSessionNotFound;;
  mret (session_state now sr).

(** The file-transfer and clipboard handlers ask whether a session covers a
    runtime.  The device form does not look at [expires_at]. *)
Definition RequireSessionRuntime (accountID deviceID sessionID runtimeID : string) : Tx unit :=
  let accountID := TrimSpace accountID in
  let deviceID := TrimSpace deviceID in
  let sessionID := TrimSpace sessionID in
  let runtimeID := TrimSpace runtimeID in
  refuse_if ((accountID =?s "") || (deviceID =?s "") || (sessionID =?s "") || (runtimeID =?s "")) ErrSessionNotFound;;
  db ← gets Datatypes.id;
  sr ← require (session_runtime sessionID db) ErrSessionNotFound;
  let '(s, r) := sr in
  refuse_if (negb ((s.(se_runtime_id) =?s runtimeID) && held_by_device accountID deviceID s r
    && match db.(db_devices) !! deviceID with
       | Some d => (d.(dv_account_id) =?s r.(rt_account_id)) && is_null d.(dv_revoked_at) | None => false end
    && rt_live r && session_live s)) ErrSessionNotFound.

Definition RequireSessionRuntimeWithCapability (now : Z) (accountID capabilityID sessionID runtimeID : string) : Tx unit :=
  let accountID := TrimSpace accountID in
  let capabilityID := TrimSpace capabilityID in
  let sessionID := TrimSpace sessionID in
  let runtimeID := TrimSpace runtimeID in
  refuse_if ((accountID =?s "") || (capabilityID =?s "") || (sessionID =?s "") || (runtimeID =?s "")) ErrSessionNotFound;;
  db ← gets Datatypes.id;
  sr ← require (session_runtime sessionID db) ErrSessionNotFound;
  let '(s, r) := sr in
  refuse_if (negb ((s.(se_runtime_id) =?s runtimeID) && held_by_capability now db accountID capabilityID s r
    && rt_live r && session_open now s)) ErrSessionNotFound.

(** ** Capabilities *)

Definition UpsertRuntimeCapability (now : Z) (accountID runtimeID capabilityID publicKey : string) : Tx Capability :=
  let accountID := TrimSpace accountID in
  let runtimeID := TrimSpace runtimeID in
  let capabilityID := TrimSpace capabilityID in
  let publicKey := TrimSpace publicKey in
  refuse_if ((accountID =?s "") || (runtimeID =?s "") || (capabilityID =?s "") || (publicKey =?s "")) ErrRuntimeCapability;;
  db ← gets Datatypes.id;
  r ← require (own_runtime accountID runtimeID db) ErrRuntimeNotFound;
  let expires := now + postgresInterval runtimeCapabilityTTL in
  let c := match db.(db_capabilities) !! capabilityID with
           | None => MkCapability r.(rt_account_id) runtimeID publicKey "runtime" now now expires None None
           | Some c => c <| ca_account_id := r.(rt_account_id) |> <| ca_runtime_id := runtimeID |>
                         <| ca_public_key := publicKey |> <| ca_scopes := "runtime"%string |>
                         <| ca_expires_at := expires |> <| ca_revoked_at := None |> <| ca_updated_at := now |>
           end in
  modify (λ db, db <| db_capabilities ::= <[capabilityID := c]> |>);;
  mret c.

(** The account and public key that sign requests made with a capability. *)
Definition RuntimeCapabilityPublicKey (now : Z) (runtimeID capabilityID : string) : Tx (string * string) :=
  let runtimeID := TrimSpace runtimeID in
  let capabilityID := TrimSpace capabilityID in
  refuse_if ((runtimeID =?s "") || (capabilityID =?s "")) ErrRuntimeCapability;;
  db ← gets Datatypes.id;
  c ← require (db.(db_capabilities) !! capabilityID) ErrRuntimeCapability;
  r ← require (db.(db_runtimes) !! runtimeID) ErrRuntimeCapability;
  refuse_if (negb (capability_serves now capabilityID runtimeID r db && rt_kept r)) ErrRuntimeCapability;;
  mret (c.(ca_account_id), c.(ca_public_key)).

Definition TouchRuntimeCapability (now : Z) (capabilityID : string) : Tx unit :=
  let capabilityID := TrimSpace capabilityID in
  refuse_if (capabilityID =?s "") ErrRuntimeCapability;;
  modify (λ db, db <| db_capabilities ::=
    alter (λ c, c <| ca_last_used_at := Some now |> <| ca_updated_at := now |>) capabilityID |>).

(** ** Abandoned sessions *)

(** [COALESCE(last_client_heartbeat_at, updated_at, created_at)]. *)
Definition last_heard (s : Session) : Z := coalesce s.(se_last_client_heartbeat_at) s.(se_updated_at).

Definition lapsed_pending (now : Z) (_ : string) (s : Session) : bool :=
  (s.(se_status) =?s "pending") && (s.(se_expires_at) <=? now).
Definition lapsed_active (now timeout : Z) (_ : string) (s : Session) : bool :=
  (s.(se_status) =?s "active") && ((s.(se_expires_at) <=? now) || (last_heard s <? now - timeout)).

(** A viewer is there: the row that keeps a runtime from being idle. *)
Definition watching (now timeout : Z) (s : Session) : bool :=
  ((s.(se_status) =?s "pending") && (now <? s.(se_expires_at)))
  || ((s.(se_status) =?s "active") && (now <? s.(se_expires_at)) && (now - timeout <=? last_heard s)).

(** [MAX(updated_at)] over a runtime's sessions. *)
Definition last_session_at (runtimeID : string) (db : Db) : option Z :=
  foldr (λ ks m, Some (match m with None => ks.2.(se_updated_at) | Some x => Z.max ks.2.(se_updated_at) x end)) None
    (select (λ _ s, s.(se_runtime_id) =?s runtimeID) db.(db_sessions)).

(** [idleRuntimeLastActivitySQL]. *)
Definition last_activity (db : Db) (runtimeID : string) (r : Runtime) : Z :=
  let begun := coalesce r.(rt_started_at) r.(rt_created_at) in
  Z.max (coalesce (last_session_at runtimeID db) begun) begun.

Definition unwatched (now timeout : Z) (db : Db) (runtimeID : string) : bool :=
  negb (exists_where (λ _ s, (s.(se_runtime_id) =?s runtimeID) && watching now timeout s) db.(db_sessions)).

Definition may_be_idle (r : Runtime) : bool :=
  (r.(rt_desired_state) =?s "running") && containsString ["starting"; "running"; "error"] r.(rt_status).

Definition idle_runtime (now timeout : Z) (db : Db) (runtimeID : string) (r : Runtime) : bool :=
  rt_live r && may_be_idle r
  && (last_activity db runtimeID r <? now - r.(rt_idle_timeout_seconds) * second_us)
  && unwatched now timeout db runtimeID.

Definition idle_stop_row (now : Z) (r : Runtime) : Runtime :=
  r <| rt_desired_state := "stopped"%string |> <| rt_operation_generation ::= (λ g, g + 1) |>
    <| rt_connection_status := "offline"%string |> <| rt_started_at := None |> <| rt_last_error := None |>
    <| rt_updated_at := now |>.

(** [UPDATE sessions SET status ... WHERE p RETURNING id]. *)
Definition end_sessions_where (now : Z) (p : string → Session → bool) (status reason : string) : Tx (list string) :=
  db ← gets Datatypes.id;
  modify (λ db, db <| db_sessions ::= update_where p (end_session now status reason) |>);;
  mret (select p db.(db_sessions)).*1.

Record SessionReapResult := MkReapResult {
  rr_ExpiredPendingSessions : nat;
  rr_StaleActiveSessions : nat;
  rr_RevokedRuntimeCapabilities : nat;
  rr_PrunedRuntimeCapabilityNonces : nat;
  rr_PrunedBlobKeyHandoffs : nat;
  rr_StoppedRuntimeIDs : list string
}.

(** The rest of the reap: the log, capabilities and leftovers. *)
Definition clean_up (now : Z) (expired stale stopped : list string) : Tx SessionReapResult :=
  for_each (λ rid, appendRuntimeLogTX now rid "system" "info"
    "Stopping the runtime after its inactivity period with no viewer open.") stopped;;
  revokedStopped ← fold_each (λ n rid, k ← revokeRuntimeCapabilitiesForRuntimeTX now rid; mret (n + k)%nat) 0%nat stopped;
  revokedSession ← revokeEndedSessionCapabilitiesTX now;
  revokedExpired ← revokeExpiredRuntimeCapabilitiesTX now;
  nonces ← pruneExpiredRuntimeCapabilityNoncesTX now;
  handoffs ← pruneExpiredBlobKeyHandoffsTX now;
  mret (MkReapResult (length expired) (length stale) (revokedStopped + revokedSession + revokedExpired)
          nonces handoffs stopped).

Definition ReapStaleSessions (now activeSessionTimeout : Z) : Tx SessionReapResult :=
  let timeout := postgresInterval (if activeSessionTimeout <=? 0 then 2 * minute_us else activeSessionTimeout) in
  atomically (
    expired ← end_sessions_where now (lapsed_pending now) "expired" "session expired before relay attach";
    stale ← end_sessions_where now (lapsed_active now timeout) "stale" "client heartbeat stale";
    db ← gets Datatypes.id;
    let idle := idle_runtime now timeout db in
    modify (λ db, db <| db_runtimes ::= update_where idle (idle_stop_row now) |>);;
    clean_up now expired stale (select idle db.(db_runtimes)).*1).

(** ** Sessions that fade *)

(** No session becomes live, and the live ones keep everything but, when its
    capability's account is deleted, their capability. *)
Definition fades (t t' : gmap string Session) : Prop :=
  ∀ sid s', t' !! sid = Some s' → session_live s' = true →
    ∃ s, t !! sid = Some s ∧ (s' = s ∨ s' = s <| se_capability_id := None |>).
Definition sessions_fade (db db' : Db) : Prop := fades db.(db_sessions) db'.(db_sessions).

Lemma fades_refl t : fades t t.
Proof. intros sid s Hs _. eauto. Qed.

#[export] Instance sessions_fade_preorder : PreOrder sessions_fade.
Proof.
  split; [intros db; apply fades_refl|]. intros x y z H1 H2 sid s'' H'' Hl.
  destruct (H2 _ _ H'' Hl) as (s' & H' & E'). assert (Hl' : session_live s' = true) by (by destruct E' as [->| ->]).
  destruct (H1 _ _ H' Hl') as (s & H & E). exists s. split; [done|].
  destruct E' as [->| ->], E as [->| ->]; auto.
Qed.

Lemma fades_end now p status reason t :
  status ≠ "pending"%string → status ≠ "active"%string → fades t (update_where p (end_session now status reason) t).
Proof.
  intros Hp Ha sid s' (s & Hs & ->)%update_where_Some Hl. destruct (p sid s); [|eauto].
  by rewrite end_session_not_live in Hl.
Qed.

Lemma fades_insert t sid s s' : t !! sid = Some s → session_live s' = false → fades t (<[sid := s']> t).
Proof. intros Hs Hn sid' s'' [[<- <-]|[_ H]]%lookup_insert_Some Hl; [congruence | eauto]. Qed.

Lemma fades_delete p t : fades t (delete_where p t).
Proof. intros sid s [Hs _]%lookup_delete_where _. eauto. Qed.

(** Steps that leave the sessions alone. *)
Ltac fade_frame := apply fades_refl.
#[local] Hint Extern 1 (sessions_fade _ _) => fade_frame : ops.

Lemma closeRuntimeSessionsTX_fade now rid reason : stable sessions_fade (closeRuntimeSessionsTX now rid reason).
Proof. unfold closeRuntimeSessionsTX. stable_steps. by apply fades_end. Qed.
Lemma revoke_where_fade now p : stable sessions_fade (revoke_capabilities_where now p).
Proof. unfold revoke_capabilities_where. stable_steps. fade_frame. Qed.
Lemma appendRuntimeLogTX_fade now rid s l m : stable sessions_fade (appendRuntimeLogTX now rid s l m).
Proof. unfold appendRuntimeLogTX. stable_steps. fade_frame. Qed.
Lemma revokeForRuntime_fade now rid : stable sessions_fade (revokeRuntimeCapabilitiesForRuntimeTX now rid).
Proof. apply revoke_where_fade. Qed.
#[local] Hint Resolve closeRuntimeSessionsTX_fade revoke_where_fade revokeForRuntime_fade appendRuntimeLogTX_fade : ops.

Lemma cut_off_viewers_fade now rid reason : stable sessions_fade (cut_off_viewers now rid reason).
Proof. unfold cut_off_viewers. stable_steps. Qed.
#[local] Hint Resolve cut_off_viewers_fade : ops.

(** Deleting an account deletes sessions and takes capabilities from others. *)
Lemma delete_account_fade a db : sessions_fade db (delete_account a db).
Proof.
  intros sid s' Hs' _. unfold delete_account in Hs'. cbn in Hs'.
  apply update_where_Some in Hs' as (s & [Hs _]%lookup_delete_where & ->). exists s. split; [done|].
  destruct s as [rid dev cap st tok cr up hb en rs ex co]; unfold set_field; cbn. destruct cap as [c|]; [|by left].
  match goal with |- context [if ?b then None else Some c] => destruct b end; [by right | by left].
Qed.

Lemma DeleteAccount_fade now a : stable sessions_fade (DeleteAccount now a).
Proof.
  unfold DeleteAccount, deleteAccountIfRuntimeCleanupDoneTX. stable_steps; try fade_frame.
  - unfold delete_devices, sessions_fade. cbn. apply fades_delete.
  - apply delete_account_fade.
Qed.

Lemma queueRuntimeStopsTX_fade now cand sr lm : stable sessions_fade (queueRuntimeStopsTX now cand sr lm).
Proof. unfold queueRuntimeStopsTX. stable_steps; try fade_frame. Qed.
#[local] Hint Resolve queueRuntimeStopsTX_fade : ops.

Lemma MeterUsage_fade pricing now : stable sessions_fade (MeterUsage pricing now).
Proof.
  unfold MeterUsage, meterRuntimeTimeTX, meter_one, charge_parts, chargeStorageTX, charge_storage_one, addUsageChargeTX,
    set_entitlement, set_runtime, set_account. stable_steps; fade_frame.
Qed.

Lemma CreditDeposit_fade now dep : stable sessions_fade (CreditDeposit now dep).
Proof. unfold CreditDeposit, end_trial, set_entitlement. stable_steps; fade_frame. Qed.

Lemma spare_loop_fade fuel now fresh region warm maxVMs spares live created :
  stable sessions_fade (spare_loop fuel now fresh region warm maxVMs spares live created).
Proof.
  revert spares live created. induction fuel as [|fuel IH]; intros; cbn [spare_loop]; [apply stable_ret; apply _|].
  unfold insert_vm. stable_steps; fade_frame.
Qed.

Lemma ReconcileProvisionedVMs_fade now fresh policy : stable sessions_fade (ReconcileProvisionedVMs now fresh policy).
Proof.
  unfold ReconcileProvisionedVMs, retireVMsTX, retireSilentNodeVMsTX, update_vms, resetStrandedTX, insert_log, topUpSparesTX,
    top_up_region. stable_steps; try fade_frame. apply spare_loop_fade.
Qed.

Lemma startRuntime_fade pricing now a rid req fresh : stable sessions_fade (startRuntime pricing now a rid req fresh).
Proof.
  apply stable_of_wp. intros db. eapply wp_mono; [apply startRuntime_wp | |by intros e ? [-> _]].
  intros r' db' (r & _ & [(_ & _ & ->)|(_ & _ & _ & h & ho & p & _ & _ & _ & _ & _ & ->)]); [reflexivity | fade_frame].
Qed.

Lemma CreateRuntime_fade now rid version a input : stable sessions_fade (CreateRuntime now rid version a input).
Proof.
  unfold CreateRuntime, normalizedCreateInput, normalizeEgressMode, validateClientAndroidImage, validateClientAndroidVersion,
    validateRuntimeProfile, ensureRuntimeCreateEntitlementTX, accountEntitlementTX, replaceRuntimeAppSelectionsTX,
    validRuntimeAppSelectionsTX, writeRuntimeAppSelectionsTX. stable_steps; fade_frame.
Qed.

Lemma UpdateRuntimeSettings_fade now version a rid input :
  stable sessions_fade (UpdateRuntimeSettings now version a rid input).
Proof.
  unfold UpdateRuntimeSettings, GetRuntime, changed_settings, normalizeEgressMode, validateClientAndroidImage,
    validateClientAndroidVersion, set_runtime, read_runtime. stable_steps; fade_frame.
Qed.

Lemma UpdateRuntimeObservation_fade now rid o : stable sessions_fade (UpdateRuntimeObservation now rid o).
Proof.
  unfold UpdateRuntimeObservation, updateRuntimeObservationWithStorageQuota, updateRuntimeObservationRecord,
    deleteAccountIfRuntimeCleanupDoneTX, set_runtime. stable_steps; try fade_frame. apply delete_account_fade.
Qed.

Lemma ListAssignedRuntimes_fade now h : stable sessions_fade (ListAssignedRuntimes now h).
Proof.
  unfold ListAssignedRuntimes, allocateMissingViewerPortsForHostTX, restore_port, allocateViewerPortTX, set_runtime.
  stable_steps; fade_frame.
Qed.

Lemma run_runtime_fade pricing now op : stable sessions_fade (run_runtime pricing now op).
Proof.
  destruct op; cbn [run_runtime]; try (apply stable_ignore; [apply _|]).
  - apply CreateRuntime_fade.
  - apply UpdateRuntimeSettings_fade.
  - apply startRuntime_fade.
  - unfold StopRuntime, set_runtime, read_runtime. stable_steps; fade_frame.
  - unfold wipeRuntime, set_runtime, read_runtime. stable_steps; fade_frame.
  - unfold deleteRuntime, GetRuntime, set_runtime, read_runtime. stable_steps; fade_frame.
  - apply DeleteAccount_fade.
  - apply UpdateRuntimeObservation_fade.
  - apply ListAssignedRuntimes_fade.
  - apply MeterUsage_fade.
  - apply CreditDeposit_fade.
  - apply ReconcileProvisionedVMs_fade.
Qed.

(** ** Leases *)

(** What a session table means: at most one viewer holds a runtime, until a
    time, last heard of at a time. *)
Record Lease := MkLease { le_holder : option string * option string; le_until : Z; le_heard : Z }.

Definition lease_row (s : Session) : Lease :=
  MkLease (s.(se_device_id), s.(se_capability_id)) s.(se_expires_at) (last_heard s).
Definition lease_of (t : gmap string Session) (rid : string) : option Lease :=
  lease_row ∘ snd <$> head (select (λ _ s, (s.(se_runtime_id) =?s rid) && session_live s) t).

Definition one_live (t : gmap string Session) : Prop :=
  ∀ sid sid' s s', t !! sid = Some s → t !! sid' = Some s' → session_live s = true → session_live s' = true →
    s.(se_runtime_id) = s'.(se_runtime_id) → sid = sid'.

Lemma lease_None t rid :
  lease_of t rid = None ↔ ∀ sid s, t !! sid = Some s → s.(se_runtime_id) = rid → session_live s = false.
Proof.
  unfold lease_of. split.
  - intros H sid s Hs Hrt. destruct (session_live s) eqn:Hl; [|done].
    assert ((sid, s) ∈ select (λ _ s, (s.(se_runtime_id) =?s rid) && session_live s) t) as Hin.
    { apply elem_of_select. split; [done|]. by rewrite Hrt, str_eqb_refl, Hl. }
    destruct (select _ _); [by apply not_elem_of_nil in Hin | done].
  - intros H. rewrite select_nil; [done|]. intros sid s Hs. destruct (_ =?s rid) eqn:E; [|done].
    apply str_eqb_eq in E. cbn. by eapply H.
Qed.

Lemma lease_Some_inv t rid l : lease_of t rid = Some l →
  ∃ sid s, t !! sid = Some s ∧ s.(se_runtime_id) = rid ∧ session_live s = true ∧ l = lease_row s.
Proof.
  unfold lease_of. destruct (select _ _) as [|[sid s] rest] eqn:E; [done|]. cbn. intros [= <-]. exists sid, s.
  assert ((sid, s) ∈ select (λ _ s, (s.(se_runtime_id) =?s rid) && session_live s) t) as [Hs Hp]%elem_of_select
    by (rewrite E; left).
  apply andb_true_iff in Hp as [Hrt%str_eqb_eq Hl]. done.
Qed.

Lemma lease_Some t rid sid s :
  one_live t → t !! sid = Some s → s.(se_runtime_id) = rid → session_live s = true → lease_of t rid = Some (lease_row s).
Proof.
  intros H1 Hs Hrt Hl. destruct (lease_of t rid) as [l|] eqn:E.
  - apply lease_Some_inv in E as (sid' & s' & Hs' & Hrt' & Hl' & ->).
    assert (sid' = sid) as -> by (eapply H1; eauto; congruence). by simplify_eq.
  - rewrite lease_None in E. by rewrite (E _ _ Hs Hrt) in Hl.
Qed.

Lemma one_live_sub t t' :
  one_live t →
  (∀ sid s', t' !! sid = Some s' → session_live s' = true →
     ∃ s, t !! sid = Some s ∧ session_live s = true ∧ s.(se_runtime_id) = s'.(se_runtime_id)) → one_live t'.
Proof.
  intros H1 Hsub sid sid' s s' Hs Hs' Hl Hl' E. destruct (Hsub _ _ Hs Hl) as (s0 & ? & ? & ?).
  destruct (Hsub _ _ Hs' Hl') as (s0' & ? & ? & ?). eapply H1; eauto. congruence.
Qed.

(** *** Fading *)

Lemma fades_one_live t t' : fades t t' → one_live t → one_live t'.
Proof.
  intros Hf H1. apply (one_live_sub t); [done|]. intros sid s' Hs' Hl.
  destruct (Hf _ _ Hs' Hl) as (s & Hs & E). exists s. destruct E as [->| ->]; auto.
Qed.

(** A faded lease is kept, dropped, or has lost its capability. *)
Lemma fades_lease t t' rid : fades t t' → one_live t →
  lease_of t' rid = lease_of t rid ∨ lease_of t' rid = None
  ∨ ∃ v u h, lease_of t rid = Some (MkLease v u h) ∧ lease_of t' rid = Some (MkLease (v.1, None) u h).
Proof.
  intros Hf H1. destruct (lease_of t' rid) as [l|] eqn:E'; [|auto].
  apply lease_Some_inv in E' as (sid & s' & Hs' & Hrt & Hl & ->). destruct (Hf _ _ Hs' Hl) as (s & Hs & [->| ->]).
  - left. symmetry. by eapply lease_Some.
  - right. right. exists (s.(se_device_id), s.(se_capability_id)), s.(se_expires_at), (last_heard s).
    split; [|done]. by eapply lease_Some.
Qed.

(** *** Ending *)

(** Every row stays as it is, or is ended for the reason [E]. *)
Definition ended (E : Session → Prop) (t t' : gmap string Session) : Prop :=
  ∀ sid, t' !! sid = t !! sid ∨ ∃ s s', t !! sid = Some s ∧ t' !! sid = Some s' ∧ session_live s' = false ∧ E s.

Lemma ended_fades E t t' : ended E t t' → fades t t'.
Proof.
  intros He sid s' Hs' Hl. destruct (He sid) as [Heq|(s & s0 & _ & Hs0 & Hn & _)]; [|congruence].
  exists s'. split; [congruence | by left].
Qed.

Lemma ended_lease E t t' rid : ended E t t' → one_live t →
  lease_of t' rid = lease_of t rid
  ∨ ∃ s, E s ∧ lease_of t rid = Some (lease_row s) ∧ lease_of t' rid = None.
Proof.
  intros He H1. pose proof (fades_one_live _ _ (ended_fades _ _ _ He) H1) as H1'.
  destruct (lease_of t' rid) as [l|] eqn:E'.
  - left. apply lease_Some_inv in E' as (sid & s' & Hs' & Hrt & Hl & ->).
    destruct (He sid) as [Heq|(s & s0 & _ & Hs0 & Hn & _)]; [|congruence].
    symmetry. apply (lease_Some _ _ sid); [done | congruence | done | done].
  - destruct (lease_of t rid) as [l|] eqn:E0; [right|by left].
    apply lease_Some_inv in E0 as (sid & s & Hs & Hrt & Hl & ->).
    destruct (He sid) as [Heq|(s1 & s' & Hs1 & Hs' & Hn & HE)].
    + rewrite lease_None in E'. rewrite Hs in Heq. by rewrite (E' _ _ Heq Hrt) in Hl.
    + simplify_eq. eauto.
Qed.

Lemma ended_refl E t : ended E t t.
Proof. intros sid. by left. Qed.

Lemma ended_update (E : Session → Prop) p f t :
  (∀ sid s, t !! sid = Some s → p sid s = true → session_live (f s) = false ∧ E s) → ended E t (update_where p f t).
Proof.
  intros H sid. rewrite lookup_update_where. destruct (t !! sid) as [s|] eqn:Hs; cbn; [|by left].
  destruct (p sid s) eqn:Hp; [|by left]. right. destruct (H _ _ Hs Hp). eauto 10.
Qed.

Lemma ended_insert (E : Session → Prop) t sid s s' :
  t !! sid = Some s → session_live s' = false → E s → ended E t (<[sid := s']> t).
Proof.
  intros Hs Hn HE sid'. rewrite lookup_insert. case_decide; [subst; right; eauto 10 | by left].
Qed.

(** *** Renewing *)

Lemma renewed_one_live t sid s s' :
  t !! sid = Some s → session_live s = true → s'.(se_runtime_id) = s.(se_runtime_id) →
  one_live t → one_live (<[sid := s']> t).
Proof.
  intros Hs Hl Hrt H1. apply (one_live_sub t); [done|].
  intros sid' s'' [[<- <-]|[_ H]]%lookup_insert_Some Hl''; [exists s | exists s'']; auto.
Qed.

Lemma renewed_lease t sid s s' rid :
  t !! sid = Some s → session_live s = true → session_live s' = true → s'.(se_runtime_id) = s.(se_runtime_id) → one_live t →
  lease_of (<[sid := s']> t) rid = lease_of t rid
  ∨ rid = s.(se_runtime_id) ∧ lease_of t rid = Some (lease_row s) ∧ lease_of (<[sid := s']> t) rid = Some (lease_row s').
Proof.
  intros Hs Hl Hl' Hrt H1. pose proof (renewed_one_live _ _ _ s' Hs Hl Hrt H1) as H1'.
  destruct (decide (rid = s.(se_runtime_id))) as [->|Hne].
  - right. split_and!; [done | by eapply lease_Some | eapply (lease_Some _ _ sid); [done | apply lookup_insert_eq | done | done]].
  - left. destruct (lease_of t rid) as [l|] eqn:E.
    + apply lease_Some_inv in E as (sid' & s0 & Hs0 & Hrt0 & Hl0 & ->).
      eapply (lease_Some _ _ sid'); eauto. rewrite lookup_insert_ne; [done|]. congruence.
    + rewrite lease_None in E |- *. intros sid' s0 [[<- <-]|[_ H]]%lookup_insert_Some Hrt0; [congruence | by eapply E].
Qed.

(** *** Opening *)

Lemma opened_lease t sid s' rid :
  lease_of t s'.(se_runtime_id) = None → t !! sid = None → session_live s' = true → one_live t →
  one_live (<[sid := s']> t)
  ∧ (lease_of (<[sid := s']> t) rid = lease_of t rid
     ∨ rid = s'.(se_runtime_id) ∧ lease_of (<[sid := s']> t) rid = Some (lease_row s')).
Proof.
  intros Hfree Hnone Hl' H1. rewrite lease_None in Hfree.
  assert (H1' : one_live (<[sid := s']> t)).
  { intros a b x y [[<- <-]|[_ Ha]]%lookup_insert_Some [[<- <-]|[_ Hb]]%lookup_insert_Some Lx Ly E; [done | | |by eapply H1].
    - by rewrite (Hfree _ _ Hb (eq_sym E)) in Ly.
    - by rewrite (Hfree _ _ Ha E) in Lx. }
  split; [done|]. destruct (decide (rid = s'.(se_runtime_id))) as [->|Hne].
  - right. split; [done|]. eapply lease_Some; [done | apply lookup_insert_eq | done | done].
  - left. destruct (lease_of t rid) as [l|] eqn:E.
    + apply lease_Some_inv in E as (sid' & s0 & Hs0 & Hrt0 & Hl0 & ->).
      eapply (lease_Some _ _ sid'); eauto. rewrite lookup_insert_ne; [done|]. congruence.
    + rewrite lease_None in E |- *. intros sid' s0 [[<- <-]|[_ H]]%lookup_insert_Some Hrt0; [congruence | by eapply E].
Qed.

(** ** Steps *)

Inductive session_op :=
  | OpOpen (sid token device rid : string)
  | OpOpenWith (sid token account capability rid : string)
  | OpAbort (sid token reason : string)
  | OpAttach (sid token : string)
  | OpIssue (token account device sid : string)
  | OpIssueWith (token account capability sid : string)
  | OpBeat (account device sid : string)
  | OpBeatWith (account capability sid : string)
  | OpClose (account device sid : string)
  | OpCloseWith (account capability sid : string)
  | OpEnd (account device sid rid : string)
  | OpEndWith (account capability sid rid : string)
  | OpGrant (account rid capability key : string)
  | OpTouch (capability : string)
  | OpReap (timeout : Z)
  | OpRevokeDevice (account device : string)
  | OpRuntime (op : runtime_op).

Definition run_session (pricing : Pricing) (now : Z) (op : session_op) : Tx unit :=
  match op with
  | OpOpen sid token device rid => ignore (CreateSession pricing now sid token device rid)
  | OpOpenWith sid token account capability rid =>
    ignore (CreateSessionWithCapability pricing now sid token account capability rid)
  | OpAbort sid token reason => ignore (AbortPendingSession now sid token reason)
  | OpAttach sid token => ignore (ResolveSessionRelayTarget now sid token)
  | OpIssue token account device sid => ignore (IssueSessionRelayToken now token account device sid)
  | OpIssueWith token account capability sid => ignore (IssueSessionRelayTokenWithCapability now token account capability sid)
  | OpBeat account device sid => ignore (HeartbeatSession now account device sid)
  | OpBeatWith account capability sid => ignore (HeartbeatSessionWithCapability now account capability sid)
  | OpClose account device sid => CloseSession now account device sid
  | OpCloseWith account capability sid => CloseSessionWithCapability now account capability sid
  | OpEnd account device sid rid => ignore (EndSessionAndStopRuntime now account device sid rid)
  | OpEndWith account capability sid rid => ignore (EndSessionAndStopRuntimeWithCapability now account capability sid rid)
  | OpGrant account rid capability key => ignore (UpsertRuntimeCapability now account rid capability key)
  | OpTouch capability => TouchRuntimeCapability now capability
  | OpReap timeout => ignore (ReapStaleSessions now timeout)
  | OpRevokeDevice account device => ignore (RevokeDevice now account device)
  | OpRuntime op => run_runtime pricing now op
  end.

(** Whom an operation opens a runtime for, whose lease it may renew, whose it
    may end, and which relay token it issues. *)
Definition op_opens (op : session_op) (rid : string) (holder : option string * option string) : Prop :=
  match op with
  | OpOpen _ _ device rid' => rid = rid' ∧ holder = (Some device, None)
  | OpOpenWith _ _ _ capability rid' => rid = TrimSpace rid' ∧ holder = (None, Some (TrimSpace capability))
  | _ => False
  end.

Definition op_renews (op : session_op) (holder : option string * option string) : Prop :=
  match op with
  | OpAttach _ _ => True
  | OpIssue _ _ device _ | OpBeat _ device _ => holder.1 = Some (TrimSpace device)
  | OpIssueWith _ _ capability _ | OpBeatWith _ capability _ => holder.2 = Some (TrimSpace capability)
  | _ => False
  end.

Definition reap_timeout (d : Z) : Z := postgresInterval (if d <=? 0 then 2 * minute_us else d).

Definition op_ends (now : Z) (op : session_op) (l : Lease) : Prop :=
  match op with
  | OpAbort _ _ _ | OpRuntime _ => True
  | OpClose _ device _ | OpEnd _ device _ _ => l.(le_holder).1 = Some device
  | OpCloseWith _ capability _ | OpEndWith _ capability _ _ => l.(le_holder).2 = Some capability
  | OpReap timeout => l.(le_until) ≤ now ∨ l.(le_heard) < now - reap_timeout timeout
  | OpRevokeDevice _ device => l.(le_holder).1 = Some (TrimSpace device) ∨ l.(le_holder).2 ≠ None
  | _ => False
  end.

Definition op_issues (op : session_op) : option string :=
  match op with
  | OpOpen _ token _ _ | OpOpenWith _ token _ _ _ | OpIssue token _ _ _ | OpIssueWith token _ _ _ => Some token
  | _ => None
  end.

(** *** The abstract machine *)

(** What may happen to the lease on one runtime. *)
Inductive lease_step (now : Z) (op : session_op) (rid : string) : option Lease → option Lease → Prop :=
  | lease_kept l : lease_step now op rid l l
  | lease_taken l holder :
      op_opens op rid holder → match l with Some l => l.(le_until) ≤ now | None => True end →
      lease_step now op rid l (Some (MkLease holder (now + sessionAttachTTL) now))
  | lease_renewed holder u h u' h' :
      op_renews op holder → now < u → (u' = u ∨ u' = now + renewal) → (h' = h ∨ h' = now) →
      lease_step now op rid (Some (MkLease holder u h)) (Some (MkLease holder u' h'))
  | lease_dropped l : op_ends now op l → lease_step now op rid (Some l) None
  | lease_orphaned rop holder u h :
      op = OpRuntime rop →
      lease_step now op rid (Some (MkLease holder u h)) (Some (MkLease (holder.1, None) u h)).

(** *** What an operation does to the table *)

(** The token of a row after an operation: as it was, perhaps used up, or the
    one the operation issues. *)
Definition token_step (op : session_op) (s s' : Session) : Prop :=
  (s'.(se_relay_token) = s.(se_relay_token)
   ∧ (s.(se_relay_token_consumed_at) ≠ None → s'.(se_relay_token_consumed_at) ≠ None))
  ∨ ∃ token, op_issues op = Some token ∧ s'.(se_relay_token) = hashRelayToken token.

Inductive table_step (now : Z) (op : session_op) (t : gmap string Session) : gmap string Session → Prop :=
  | table_fades rop t' : op = OpRuntime rop → fades t t' → table_step now op t t'
  | table_ended t' : ended (λ s, op_ends now op (lease_row s)) t t' → table_step now op t t'
  | table_renewed sid s s' :
      t !! sid = Some s → session_open now s = true → session_live s' = true →
      s'.(se_runtime_id) = s.(se_runtime_id) →
      op_renews op (lease_row s).(le_holder) → (lease_row s').(le_holder) = (lease_row s).(le_holder) →
      s'.(se_expires_at) = s.(se_expires_at) ∨ s'.(se_expires_at) = now + renewal →
      last_heard s' = last_heard s ∨ last_heard s' = now → token_step op s s' →
      table_step now op t (<[sid := s']> t)
  | table_opened sid s' token :
      match t !! sid with
      | None => lease_of t s'.(se_runtime_id) = None
      | Some s => session_live s = true ∧ s.(se_runtime_id) = s'.(se_runtime_id) ∧ s.(se_expires_at) ≤ now
      end →
      session_live s' = true → op_opens op s'.(se_runtime_id) (lease_row s').(le_holder) →
      s'.(se_expires_at) = now + sessionAttachTTL → last_heard s' = now →
      op_issues op = Some token → s'.(se_relay_token) = hashRelayToken token →
      table_step now op t (<[sid := s']> t).

Lemma table_step_lease now op t t' : table_step now op t t' → one_live t →
  one_live t' ∧ ∀ rid, lease_step now op rid (lease_of t rid) (lease_of t' rid).
Proof.
  intros H H1. destruct H as [rop t' -> Hf|t' He|sid s s' Hs Ho Hl' Hrt Hr Hh Hu Hheard _|sid s' token Hat Hl' Hop Hu Hheard _ _].
  - split; [by eapply fades_one_live|]. intros rid.
    destruct (fades_lease _ _ rid Hf H1) as [->|[->|(v & u & h & -> & ->)]]; [constructor | | by econstructor].
    destruct (lease_of t rid); [by apply lease_dropped | constructor].
  - split; [by eapply fades_one_live, H1; eapply ended_fades|]. intros rid.
    destruct (ended_lease _ _ _ rid He H1) as [->|(s & HE & -> & ->)]; [constructor | by apply lease_dropped].
  - apply andb_true_iff in Ho as [Hl Hopen%Z.ltb_lt]. split; [by eapply renewed_one_live|]. intros rid.
    destruct (renewed_lease _ _ _ s' rid Hs Hl Hl' Hrt H1) as [->|(-> & -> & ->)]; [constructor|].
    unfold lease_row in *. cbn in *. rewrite Hh. by apply lease_renewed.
  - assert (Hrow : lease_row s' = MkLease (lease_row s').(le_holder) (now + sessionAttachTTL) now).
    { unfold lease_row at 1. by rewrite Hu, Hheard. }
    destruct (t !! sid) as [s|] eqn:Hs.
    + destruct Hat as (Hl & Hrt & Hexp). split; [by eapply renewed_one_live|]. intros rid.
      destruct (renewed_lease _ _ _ s' rid Hs Hl Hl' (eq_sym Hrt) H1) as [->|(-> & -> & ->)]; [constructor|].
      rewrite Hrow. apply lease_taken; [by rewrite Hrt | done].
    + split; [by eapply (opened_lease _ _ _ ""%string)|]. intros rid.
      destruct (proj2 (opened_lease _ _ _ rid Hat Hs Hl' H1)) as [->|(-> & ->)]; [constructor|].
      rewrite Hat, Hrow. by apply lease_taken.
Qed.

(** *** The operations *)

Lemma session_runtime_Some sid db s r :
  session_runtime sid db = Some (s, r) ↔ db.(db_sessions) !! sid = Some s ∧ db.(db_runtimes) !! s.(se_runtime_id) = Some r.
Proof.
  unfold session_runtime. destruct (db.(db_sessions) !! sid) as [s'|]; cbn; [|split; [done | by intros [? _]]].
  destruct (db.(db_runtimes) !! se_runtime_id s') as [r'|] eqn:E; cbn; split; intros H; simplify_eq/=; try done; destruct_and?; simplify_eq; congruence.
Qed.

Lemma update_session_wp sid p f e db :
  wp (update_session sid p f e)
     (λ sr db', ∃ s r, db.(db_sessions) !! sid = Some s ∧ db.(db_runtimes) !! s.(se_runtime_id) = Some r ∧ p db s r = true
        ∧ sr = (f s, r) ∧ db' = db <| db_sessions ::= <[sid := f s]> |>)
     (λ e' db', e' = e ∧ db' = db) db.
Proof.
  unfold update_session. wp_steps; try done. destruct a as [s r]. apply session_runtime_Some in H as [Hs Hr].
  apply negb_false_iff in H0. exists s, r. auto.
Qed.

(** An operation that updates one session and then at most writes elsewhere. *)
Lemma table_step_stay now op t : table_step now op t t.
Proof. apply table_ended, ended_refl. Qed.

(** [stable] for the table, from a triple. *)
Definition steps {A} (now : Z) (op : session_op) (m : Tx A) : Prop :=
  ∀ db, wp m (λ _ db', table_step now op db.(db_sessions) db'.(db_sessions))
           (λ _ db', table_step now op db.(db_sessions) db'.(db_sessions)) db.

Lemma steps_run {A} now op (m : Tx A) db :
  steps now op m → table_step now op db.(db_sessions) (m db).1.(db_sessions).
Proof. intros H. specialize (H db). unfold wp in H. by destruct (m db) as [? [?|?]]. Qed.

Lemma steps_ignore {A} now op (m : Tx A) : steps now op m → steps now op (ignore m).
Proof.
  intros H db. unfold ignore. rewrite wp_bind. eapply wp_mono; [apply H | | done]. intros a db' Hs. by rewrite wp_ret.
Qed.

Lemma steps_fade {A} now rop (m : Tx A) : stable sessions_fade m → steps now (OpRuntime rop) m.
Proof.
  intros H db. specialize (H db). unfold wp. destruct (m db) as [db' [e|a]]; cbn in H; by eapply table_fades.
Qed.

(** A renewal through [update_session]. *)
Lemma update_session_steps {A} now op sid p f e (k : Session * Runtime → Tx A) :
  (∀ db s r, db.(db_runtimes) !! s.(se_runtime_id) = Some r → p db s r = true →
     session_open now s = true ∧ session_live (f s) = true ∧ (f s).(se_runtime_id) = s.(se_runtime_id)
     ∧ op_renews op (lease_row s).(le_holder) ∧ (lease_row (f s)).(le_holder) = (lease_row s).(le_holder)
     ∧ ((f s).(se_expires_at) = s.(se_expires_at) ∨ (f s).(se_expires_at) = now + renewal)
     ∧ (last_heard (f s) = last_heard s ∨ last_heard (f s) = now) ∧ token_step op s (f s)) →
  (∀ sr, stable (same (λ db, db)) (k sr)) → steps now op (sr ← update_session sid p f e; k sr).
Proof.
  intros Hp Hk db. rewrite wp_bind. eapply wp_mono; [apply update_session_wp | |].
  - intros sr db' (s & r & Hs & Hr & Hpr & -> & ->). destruct (Hp _ _ _ Hr Hpr) as (? & ? & ? & ? & ? & ? & ? & ?).
    apply wp_read; [done | |]; intros _; by eapply table_renewed.
  - intros e' db' [_ ->]. apply table_step_stay.
Qed.

(** An end through [update_session], followed by writes to other tables. *)
Lemma update_session_ends {A} now op sid p f e (k : Session * Runtime → Tx A) :
  (∀ db s r, p db s r = true → session_live (f s) = false ∧ op_ends now op (lease_row s)) →
  (∀ sr, stable (same db_sessions) (k sr)) → steps now op (sr ← update_session sid p f e; k sr).
Proof.
  intros Hp Hk db. rewrite wp_bind. eapply wp_mono; [apply update_session_wp | |].
  - intros sr db' (s & r & Hs & Hr & Hpr & -> & ->). destruct (Hp _ _ _ Hpr) as [Hn HE].
    assert (He : ended (λ s, op_ends now op (lease_row s)) db.(db_sessions) (<[sid := f s]> db.(db_sessions)))
      by (by eapply ended_insert).
    specialize (Hk (f s, r) (db <| db_sessions ::= <[sid := f s]> |>)). unfold same in Hk. cbn in Hk. unfold wp.
    destruct (k (f s, r) _) as [db2 [?|?]]; cbn in Hk; apply table_ended; by rewrite <-Hk.
  - intros e' db' [_ ->]. apply table_step_stay.
Qed.

Lemma steps_atomically {A} now op (m : Tx A) : steps now op m → steps now op (atomically m).
Proof.
  intros H db. rewrite wp_atomically. eapply wp_mono; [apply H | done |]. intros. apply table_step_stay.
Qed.
Lemma steps_refuse {A} now op b e (m : Tx A) : steps now op m → steps now op (refuse_if b e;; m).
Proof. intros H db. wp_steps; [apply table_step_stay | apply H]. Qed.
Lemma steps_read {A B} now op (f : Db → A) (m : A → Tx B) :
  (∀ a, steps now op (m a)) → steps now op (x ← gets f; m x).
Proof. intros H db. wp_steps. apply H. Qed.
Lemma steps_same {A} now op (m : Tx A) : stable (same db_sessions) m → steps now op m.
Proof.
  intros H db. specialize (H db). unfold wp, same in *. destruct (m db) as [db' [?|?]]; cbn in H; rewrite <-H; apply table_step_stay.
Qed.
#[local] Hint Extern 1 (same db_sessions _ _) => reflexivity : ops.

Lemma held_device_holder a d s r : held_by_device a d s r = true → (lease_row s).(le_holder).1 = Some d.
Proof.
  intros [H _]%andb_true_iff. unfold null_eqb in H. cbn. destruct (se_device_id s); [|done].
  by apply bool_decide_eq_true in H as ->.
Qed.
Lemma held_capability_holder now db a c s r : held_by_capability now db a c s r = true → (lease_row s).(le_holder).2 = Some c.
Proof.
  intros [[H _]%andb_true_iff _]%andb_true_iff. unfold null_eqb in H. cbn. destruct (se_capability_id s); [|done].
  by apply bool_decide_eq_true in H as ->.
Qed.
Lemma closed_not_live now s : session_live (end_session now "closed" "client closed" s) = false.
Proof. by apply end_session_not_live. Qed.

(** The three ways to renew a row. *)
Lemma attach_renews now op h s r :
  relay_opens now h s && viewable r = true → op_renews op (lease_row s).(le_holder) →
  session_open now s = true ∧ session_live (attach now s) = true ∧ (attach now s).(se_runtime_id) = s.(se_runtime_id)
  ∧ op_renews op (lease_row s).(le_holder) ∧ (lease_row (attach now s)).(le_holder) = (lease_row s).(le_holder)
  ∧ ((attach now s).(se_expires_at) = s.(se_expires_at) ∨ (attach now s).(se_expires_at) = now + renewal)
  ∧ (last_heard (attach now s) = last_heard s ∨ last_heard (attach now s) = now) ∧ token_step op s (attach now s).
Proof. intros [[_ Ho]%andb_true_iff _]%andb_true_iff Hr. split_and!; try done; [by right | by right | by left]. Qed.

Lemma new_token_renews now op token s :
  session_open now s = true → op_renews op (lease_row s).(le_holder) → op_issues op = Some token →
  let s' := new_token now (hashRelayToken token) s in
  session_open now s = true ∧ session_live s' = true ∧ s'.(se_runtime_id) = s.(se_runtime_id)
  ∧ op_renews op (lease_row s).(le_holder) ∧ (lease_row s').(le_holder) = (lease_row s).(le_holder)
  ∧ (s'.(se_expires_at) = s.(se_expires_at) ∨ s'.(se_expires_at) = now + renewal)
  ∧ (last_heard s' = last_heard s ∨ last_heard s' = now) ∧ token_step op s s'.
Proof.
  intros Ho Hr Ht s'. pose proof Ho as [Hl _]%andb_true_iff. split_and!; try done; [by right | | right; by exists token].
  unfold last_heard. subst s'. cbn. destruct (se_last_client_heartbeat_at s); [by left | by right].
Qed.

Lemma heartbeat_renews now op s :
  session_open now s = true → op_renews op (lease_row s).(le_holder) →
  let s' := heartbeat now s in
  session_open now s = true ∧ session_live s' = true ∧ s'.(se_runtime_id) = s.(se_runtime_id)
  ∧ op_renews op (lease_row s).(le_holder) ∧ (lease_row s').(le_holder) = (lease_row s).(le_holder)
  ∧ (s'.(se_expires_at) = s.(se_expires_at) ∨ s'.(se_expires_at) = now + renewal)
  ∧ (last_heard s' = last_heard s ∨ last_heard s' = now) ∧ token_step op s s'.
Proof.
  intros Ho Hr s'. pose proof Ho as [Hl _]%andb_true_iff. subst s'. unfold heartbeat.
  destruct (se_status s =?s "active"); split_and!; try done; cbn; try (by left); try (by right).
  all: unfold last_heard; cbn; destruct (se_last_client_heartbeat_at s); auto.
Qed.

Lemma live_sessions_nil rid db : live_sessions rid db = [] → lease_of db.(db_sessions) rid = None.
Proof. unfold live_sessions, lease_of. by intros ->. Qed.
Lemma live_sessions_cons rid db sid s l :
  live_sessions rid db = (sid, s) :: l →
  db.(db_sessions) !! sid = Some s ∧ s.(se_runtime_id) = rid ∧ session_live s = true.
Proof.
  intros E. assert ((sid, s) ∈ live_sessions rid db) as [Hs [Hrt%str_eqb_eq Hl]%andb_true_iff]%elem_of_select
    by (rewrite E; left). done.
Qed.

(** What opening a session does: a fresh row when the runtime is free, or the
    expired row taken over. *)
Lemma open_session_wp now sid rid device capability hash db :
  wp (open_session now sid rid device capability hash)
     (λ ks db', ∃ k s', ks = (k, s') ∧ db' = db <| db_sessions ::= <[k := s']> |>
        ∧ s'.(se_runtime_id) = rid ∧ s'.(se_device_id) = device ∧ s'.(se_capability_id) = capability
        ∧ s'.(se_status) = "pending"%string ∧ s'.(se_relay_token) = hash ∧ s'.(se_relay_token_consumed_at) = None
        ∧ s'.(se_expires_at) = now + sessionAttachTTL ∧ last_heard s' = now
        ∧ (lease_of db.(db_sessions) rid = None ∧ k = sid ∧ db.(db_sessions) !! sid = None
           ∨ ∃ s, db.(db_sessions) !! k = Some s ∧ session_live s = true ∧ s.(se_runtime_id) = rid ∧ s.(se_expires_at) ≤ now))
     (λ e db', db' = db
        ∧ (e = ErrUnique "sessions_pkey" ∧ lease_of db.(db_sessions) rid = None ∧ db.(db_sessions) !! sid ≠ None
           ∨ e = ErrSessionAlreadyActive ∧ ∃ k s, db.(db_sessions) !! k = Some s ∧ session_live s = true
               ∧ s.(se_runtime_id) = rid ∧ now < s.(se_expires_at))) db.
Proof.
  unfold open_session. rewrite wp_bind, wp_gets. unfold Datatypes.id. destruct (live_sessions rid db) as [|[k s] l] eqn:El.
  - apply live_sessions_nil in El. wp_steps.
    + split; [done|]. left. split_and!; try done. by destruct (db_sessions db !! sid).
    + eexists _, _. split_and!; try done. left. split_and!; try done. by destruct (db_sessions db !! sid).
  - apply live_sessions_cons in El as (Hs & Hrt & Hl). wp_steps.
    + split; [done|]. right. split; [done|]. exists k, s. apply Z.ltb_lt in H. done.
    + apply Z.ltb_ge in H. assert ((se_expires_at s <=? now) = true) as -> by (by apply Z.leb_le).
      eexists _, _. split_and!; try done. right. eauto 10.
Qed.

Lemma open_session_steps {A} now op sid rid device capability token (k : string * Session → Tx A) :
  op_opens op rid (device, capability) → op_issues op = Some token → (∀ x, stable (same (λ db, db)) (k x)) →
  steps now op (x ← open_session now sid rid device capability (hashRelayToken token); k x).
Proof.
  intros Hop Hi Hk db. rewrite wp_bind. eapply wp_mono; [apply open_session_wp | |].
  - intros ks db' (key & s' & -> & -> & Hrt & Hd & Hc & Hst & Htok & Hcon & Hu & Hh & Hat).
    apply wp_read; [done | |]; intros _; eapply table_opened; try done.
    all: try (by rewrite Hrt; unfold lease_row; cbn; rewrite Hd, Hc).
    all: try (unfold session_live; by rewrite Hst).
    all: rewrite Hrt; destruct Hat as [(Hfree & -> & ->)|(s & -> & ? & ? & ?)]; done.
  - intros e db' [-> _]. apply table_step_stay.
Qed.

(** The two passes over the sessions in a reap. *)
Definition lapse (now timeout : Z) (t : gmap string Session) : gmap string Session :=
  update_where (lapsed_active now timeout) (end_session now "stale" "client heartbeat stale")
    (update_where (lapsed_pending now) (end_session now "expired" "session expired before relay attach") t).

(** Sessions and runtimes, which the end of a reap leaves alone. *)
Definition viewing (db : Db) := (db.(db_sessions), db.(db_runtimes)).

Lemma clean_up_viewing now expired stale stopped : stable (same viewing) (clean_up now expired stale stopped).
Proof.
  assert (Hrev : ∀ p, stable (same viewing) (revoke_capabilities_where now p)) by (intros; by apply revoke_capabilities_frame).
  unfold clean_up, revokeRuntimeCapabilitiesForRuntimeTX, revokeEndedSessionCapabilitiesTX, revokeExpiredRuntimeCapabilitiesTX,
    pruneExpiredRuntimeCapabilityNoncesTX, pruneExpiredBlobKeyHandoffsTX.
  stable_steps; try apply Hrev; try reflexivity. by apply appendRuntimeLogTX_frame.
Qed.

Lemma clean_up_wp now expired stale stopped db :
  wp (clean_up now expired stale stopped)
     (λ res db', db'.(db_sessions) = db.(db_sessions) ∧ db'.(db_runtimes) = db.(db_runtimes)
        ∧ res.(rr_StoppedRuntimeIDs) = stopped) (λ _ _, False) db.
Proof.
  eapply wp_mono; [apply (wp_stable (same viewing) _ (λ res _, res.(rr_StoppedRuntimeIDs) = stopped) (λ _ _, False));
    [apply clean_up_viewing|] | |by intros ? ? [_ []]].
  - unfold clean_up, revokeRuntimeCapabilitiesForRuntimeTX, revokeEndedSessionCapabilitiesTX, revokeExpiredRuntimeCapabilitiesTX,
      pruneExpiredRuntimeCapabilityNoncesTX, pruneExpiredBlobKeyHandoffsTX, revoke_capabilities_where.
    rewrite wp_bind. apply (for_log_wp (λ rid, rid)). intros G. rewrite wp_bind.
    eapply wp_mono; [apply (wp_fold _ (λ _ _ _, True) (λ _ _, False)); [done|] | |done].
    + intros. wp_steps. done.
    + intros n db' _. wp_steps. done.
  - intros res db' [Hs ->]. by injection Hs.
Qed.

(** What a reap leaves of sessions and runtimes. *)
Lemma ReapStaleSessions_wp now d db :
  let T := reap_timeout d in
  let mid := db <| db_sessions ::= lapse now T |> in
  wp (ReapStaleSessions now d)
     (λ res db', db'.(db_sessions) = lapse now T db.(db_sessions)
        ∧ db'.(db_runtimes) = update_where (idle_runtime now T mid) (idle_stop_row now) db.(db_runtimes)
        ∧ res.(rr_StoppedRuntimeIDs) = (select (idle_runtime now T mid) db.(db_runtimes)).*1)
     (λ _ _, False) db.
Proof.
  intros T mid. unfold ReapStaleSessions, end_sessions_where. fold (reap_timeout d). fold T. cbv zeta.
  wp_steps. eapply wp_mono; [apply clean_up_wp | | done]. intros res db' (HS & HR & ->). rewrite HS, HR. done.
Qed.

(** A lapsed row was expired, or silent for longer than the timeout. *)
Lemma lapse_ended now T t :
  ended (λ s, s.(se_expires_at) ≤ now ∨ last_heard s < now - T) t (lapse now T t).
Proof.
  intros sid. unfold lapse. rewrite !lookup_update_where. destruct (t !! sid) as [s|] eqn:Hs; cbn -[end_session]; [|by left].
  destruct (lapsed_pending now sid s) eqn:Ep.
  - right. apply andb_true_iff in Ep as [_ Ep%Z.leb_le]. eexists _, _. split_and!; [done | done | | by left].
    case_match; by apply end_session_not_live.
  - destruct (lapsed_active now T sid s) eqn:Ea; [right | by left].
    apply andb_true_iff in Ea as [_ Ea%orb_true_iff]. eexists _, _. split_and!; [done | done | by apply end_session_not_live |].
    destruct Ea as [?%Z.leb_le|?%Z.ltb_lt]; auto.
Qed.

Lemma stop_viewed_runtime_same now a rid : stable (same db_sessions) (stop_viewed_runtime now a rid).
Proof.
  unfold stop_viewed_runtime, appendRuntimeLogTX, revokeRuntimeCapabilitiesForRuntimeTX, revoke_capabilities_where.
  stable_steps; reflexivity.
Qed.

Lemma read_same {A} (a : A) : stable (same (λ db, db)) (mret a : Tx A).
Proof. by intros db. Qed.

Ltac renewing := intros; apply read_same.

Lemma run_session_steps pricing now op : steps now op (run_session pricing now op).
Proof.
  destruct op; cbn [run_session]; lazymatch goal with |- steps _ _ (ignore _) => apply steps_ignore | _ => idtac end.
  - unfold CreateSession, ensureSessionTimeAvailable, paidBalanceCheck. intros db. wp_steps; try apply table_step_stay.
    all: rewrite <-wp_bind; by apply (open_session_steps now (OpOpen sid token device rid)); [| |renewing].
  - unfold CreateSessionWithCapability, ensureSessionTimeAvailable, paidBalanceCheck. intros db.
    wp_steps; try apply table_step_stay.
    all: rewrite <-wp_bind; by apply (open_session_steps now (OpOpenWith sid token account capability rid)); [| |renewing].
  - unfold AbortPendingSession. intros db. wp_steps; [apply table_step_stay|].
    destruct (db_sessions db !! TrimSpace sid) as [s|] eqn:Hs; wp_steps; try apply table_step_stay.
    apply table_ended. by eapply ended_insert; [|by apply end_session_not_live|].
  - apply steps_refuse, update_session_steps; [|intros [s r]; apply read_same].
    intros db s r _ Hp. by eapply attach_renews.
  - apply steps_refuse, update_session_steps; [|renewing].
    intros db s r _ [[[Hd _]%andb_true_iff Ho]%andb_true_iff _]%andb_true_iff.
    apply new_token_renews; [done | by eapply held_device_holder | done].
  - apply steps_refuse, update_session_steps; [|renewing].
    intros db s r _ [[Hc Ho]%andb_true_iff _]%andb_true_iff.
    apply new_token_renews; [done | by eapply held_capability_holder | done].
  - apply steps_refuse, update_session_steps; [|renewing].
    intros db s r _ [[Hd Ho]%andb_true_iff _]%andb_true_iff. apply heartbeat_renews; [done | by eapply held_device_holder].
  - apply steps_refuse, update_session_steps; [|renewing].
    intros db s r _ [[Hc Ho]%andb_true_iff _]%andb_true_iff. apply heartbeat_renews; [done | by eapply held_capability_holder].
  - apply update_session_ends; [|intros; stable_steps].
    intros db s r [Hd _]%andb_true_iff. split; [apply closed_not_live | by eapply held_device_holder].
  - apply steps_atomically, update_session_ends.
    + intros db s r [Hc _]%andb_true_iff. split; [apply closed_not_live | by eapply held_capability_holder].
    + intros. unfold revokeRuntimeCapabilityTX, revoke_capabilities_where. stable_steps; reflexivity.
  - apply steps_atomically, update_session_ends; [|intros; apply stop_viewed_runtime_same].
    intros db s r [[Hd _]%andb_true_iff _]%andb_true_iff. split; [apply closed_not_live | by eapply held_device_holder].
  - apply steps_atomically, update_session_ends; [|intros; apply stop_viewed_runtime_same].
    intros db s r [[Hc _]%andb_true_iff _]%andb_true_iff. split; [apply closed_not_live | by eapply held_capability_holder].
  - apply steps_same. unfold UpsertRuntimeCapability. stable_steps; reflexivity.
  - apply steps_same. unfold TouchRuntimeCapability. stable_steps; reflexivity.
  - intros db. eapply wp_mono; [apply ReapStaleSessions_wp | |done]. intros res db' (-> & _). apply table_ended, lapse_ended.
  - intros db. eapply wp_mono; [apply RevokeDevice_wp | |intros e db' [-> _]; apply table_step_stay].
    intros res db' (d & _ & _ & _ & _ & (mid & G & Hm & ->) & _). apply table_ended. cbn -[end_session].
    replace (db_sessions mid) with (db_sessions db) by (by subst).
    apply ended_update. intros sid s _ Hp. split; [by apply end_session_not_live|].
    apply andb_true_iff in Hp as [[[Hd|Hc]%orb_true_iff _]%andb_true_iff _]; cbn.
    + left. unfold null_eqb in Hd. destruct (se_device_id s); [|done]. by apply bool_decide_eq_true in Hd as ->.
    + right. by destruct (se_capability_id s).
  - apply steps_fade, run_runtime_fade.
Qed.

(** *** Histories *)

(** Calls, each at its own time; the relay tokens they issue hash to [fresh]
    values. *)
Inductive session_history (pricing : Pricing) (fresh : string → Prop) : Db → list (Z * session_op) → Db → Prop :=
  | session_start db : session_history pricing fresh db [] db
  | session_step db tr db' now op :
      session_history pricing fresh db tr db' → (∀ token, op_issues op = Some token → fresh (hashRelayToken token)) →
      session_history pricing fresh db (tr ++ [(now, op)]) (run_session pricing now op db').1.

(** Runs of the abstract machine. *)
Inductive lease_run (rid : string) : option Lease → list (Z * session_op) → option Lease → Prop :=
  | lease_start l : lease_run rid l [] l
  | lease_more l tr l' now op l'' :
      lease_run rid l tr l' → lease_step now op rid l' l'' → lease_run rid l (tr ++ [(now, op)]) l''.

Lemma session_history_leases pricing fresh db tr db' :
  session_history pricing fresh db tr db' → one_live db.(db_sessions) →
  one_live db'.(db_sessions) ∧ ∀ rid, lease_run rid (lease_of db.(db_sessions) rid) tr (lease_of db'.(db_sessions) rid).
Proof.
  intros H H1. induction H as [db|db tr db' now op _ IH _]; [split; [done | constructor]|].
  destruct (IH H1) as [H1' Hrun].
  destruct (table_step_lease now op _ _ (steps_run _ _ _ db' (run_session_steps pricing now op)) H1') as [H1'' Hstep].
  split; [done|]. intros rid. by eapply lease_more.
Qed.

(** *** Relay tokens *)

(** A token that was used up stays so while the session is live. *)
Definition used_up (sid h : string) (t : gmap string Session) : Prop :=
  ∀ s, t !! sid = Some s → session_live s = true → s.(se_relay_token) = h → s.(se_relay_token_consumed_at) ≠ None.

Lemma token_step_used op s s' h :
  token_step op s s' → (∀ token, op_issues op = Some token → hashRelayToken token ≠ h) →
  (s.(se_relay_token) = h → s.(se_relay_token_consumed_at) ≠ None) →
  s'.(se_relay_token) = h → s'.(se_relay_token_consumed_at) ≠ None.
Proof. intros [[E Hc]|(token & Hi & E)] Hf Hs Ht; [apply Hc, Hs; congruence | by destruct (Hf _ Hi); congruence]. Qed.

Lemma table_step_used now op t t' sid h :
  table_step now op t t' → (∀ token, op_issues op = Some token → hashRelayToken token ≠ h) → used_up sid h t → used_up sid h t'.
Proof.
  intros H Hf Hu s' Hs' Hl' Ht'. destruct H as [rop t' -> Hfade|t' He|k s s1 Hs Ho _ _ _ _ _ _ Htok|k s1 token _ _ _ _ _ Hi Htok].
  - destruct (Hfade _ _ Hs' Hl') as (s & Hs & [->| ->]); by apply (Hu s).
  - destruct (ended_fades _ _ _ He _ _ Hs' Hl') as (s & Hs & [->| ->]); by apply (Hu s).
  - apply lookup_insert_Some in Hs' as [[-> ->]|[_ Hs']]; [|by apply (Hu s')].
    apply andb_true_iff in Ho as [Hl _]. eapply (token_step_used op s); eauto.
  - apply lookup_insert_Some in Hs' as [[-> ->]|[_ Hs']]; [|by apply (Hu s')].
    destruct (Hf _ Hi). congruence.
Qed.

Lemma session_history_used pricing sid h db tr db' :
  session_history pricing (λ h', h' ≠ h) db tr db' → used_up sid h db.(db_sessions) → used_up sid h db'.(db_sessions).
Proof.
  intros H Hu. induction H as [db|db tr db' now op _ IH Hf]; [done|].
  eapply table_step_used; [apply steps_run, run_session_steps | exact Hf | by apply IH].
Qed.

Lemma used_up_closed sid h now t s : used_up sid h t → t !! sid = Some s → relay_opens now h s = false.
Proof.
  intros Hu Hs. unfold relay_opens, session_open. destruct (se_relay_token s =?s h) eqn:E; [|done]. apply str_eqb_eq in E.
  destruct (session_live s) eqn:Hl; cbn; [|by rewrite andb_false_r].
  by destruct (se_relay_token_consumed_at s) eqn:Hc; [|destruct (Hu s Hs Hl E)].
Qed.

Lemma Resolve_wp now sid token db :
  wp (ResolveSessionRelayTarget now sid token)
     (λ target db', ∃ s r, db.(db_sessions) !! sid = Some s ∧ db.(db_runtimes) !! s.(se_runtime_id) = Some r
        ∧ relay_opens now (hashRelayToken token) s = true ∧ viewable r = true
        ∧ db' = db <| db_sessions ::= <[sid := attach now s]> |>
        ∧ Some target.(st_HostID) = r.(rt_host_id) ∧ Some target.(st_ViewerPort) = r.(rt_viewer_port)
        ∧ target.(st_RuntimeID) = s.(se_runtime_id))
     (λ e db', e = ErrNoRows ∧ db' = db) db.
Proof.
  unfold ResolveSessionRelayTarget. wp_steps; [done|].
  eapply wp_mono; [apply update_session_wp | |by intros e db' [-> ->]].
  intros [s1 r1] db' (s & r & Hs & Hr & [Ho Hv]%andb_true_iff & [= -> ->] & ->). rewrite wp_ret. exists s, r.
  pose proof Hv as [[_ Hh]%andb_true_iff Hp]%andb_true_iff.
  split_and!; try done; cbn; [by destruct (rt_host_id r) | by destruct (rt_viewer_port r)].
Qed.

(** *** What a session costs *)

(** Why an account gets no session, if so. *)
Definition session_refusal (pricing : Pricing) (accountID : string) (db : Db) : option Err :=
  match db.(db_entitlements) !! TrimSpace accountID with
  | None => Some ErrRuntimeEntitlement
  | Some e =>
    if EqualFold (TrimSpace e.(en_source)) "trial"
    then if (e.(en_trial_runtime_seconds) <=? 0) || (e.(en_trial_runtime_seconds) <=? trialRuntimeSecondsUsed accountID db)
         then Some ErrRuntimeTrialTimeQuota else None
    else if Enabled pricing && EqualFold (TrimSpace e.(en_source)) "paid" && (accountBalance accountID db <=? 0)
    then Some ErrRuntimeBalance else None
  end.

Lemma ensureSessionTime_run pricing a db :
  ensureSessionTimeAvailable pricing a db = (db, answer (session_refusal pricing a db)).
Proof.
  unfold ensureSessionTimeAvailable, session_refusal.
  unfold mbind, M_bind, gets, require, refuse_if, mret, M_ret, throw, Datatypes.id.
  destruct (db.(db_entitlements) !! TrimSpace a) as [e|]; [|done].
  destruct (EqualFold (TrimSpace (en_source e)) "trial"); cbn [negb]; [by destruct (_ || _)|].
  rewrite paidBalanceCheck_run. do 2 f_equal.
  replace ((accountBalance a db <? 1) || (accountBalance a db <=? 0)) with (accountBalance a db <=? 0); [done|].
  destruct (Z.ltb_spec (accountBalance a db) 1), (Z.leb_spec (accountBalance a db) 0); try done; lia.
Qed.

(** *** Reaping *)

(** What is live and not lapsed is watching. *)
Lemma not_lapsed now T sid s :
  session_live s = true → lapsed_pending now sid s = false → lapsed_active now T sid s = false → watching now T s = true.
Proof.
  unfold session_live, lapsed_pending, lapsed_active, watching. rewrite (Z.leb_antisym now), (Z.ltb_antisym (now - T)).
  destruct (_ =?s "pending"), (_ =?s "active"), (now <? _), (now - T <=? _); cbn; done.
Qed.
Lemma watching_not_lapsed now T sid s :
  watching now T s = true → lapsed_pending now sid s = false ∧ lapsed_active now T sid s = false.
Proof.
  unfold lapsed_pending, lapsed_active, watching. rewrite (Z.leb_antisym now), (Z.ltb_antisym (now - T)).
  destruct (_ =?s "pending") eqn:E1, (_ =?s "active") eqn:E2, (now <? _), (now - T <=? _); cbn; try done.
  apply str_eqb_eq in E1, E2. congruence.
Qed.

Lemma lapse_watching now T t sid s :
  lapse now T t !! sid = Some s ∧ session_live s = true ↔ t !! sid = Some s ∧ watching now T s = true.
Proof.
  unfold lapse. rewrite !lookup_update_where. destruct (t !! sid) as [s0|]; cbn -[end_session]; [|naive_solver]. split.
  - destruct (lapsed_pending now sid s0) eqn:Ep.
    { intros [[= <-] Hl]. by rewrite end_session_not_live in Hl. }
    destruct (lapsed_active now T sid s0) eqn:Ea; intros [[= <-] Hl]; [by rewrite end_session_not_live in Hl|].
    split; [done | by eapply not_lapsed].
  - intros [[= <-] Hw]. destruct (watching_not_lapsed now T sid s0 Hw) as [-> ->]. split; [done|].
    unfold watching, session_live in *. destruct (_ =?s "pending"), (_ =?s "active"); try done.
Qed.

Lemma idle_stopped now T db rid r : idle_runtime now T db rid (idle_stop_row now r) = false.
Proof. unfold idle_runtime, may_be_idle. cbn. by rewrite andb_false_r. Qed.

Lemma idle_sessions now T db db' rid r :
  db'.(db_sessions) = db.(db_sessions) → idle_runtime now T db' rid r = idle_runtime now T db rid r.
Proof. intros E. unfold idle_runtime, last_activity, last_session_at, unwatched. by rewrite E. Qed.

(** *** Opening in full *)

Lemma CreateSession_wp pricing now sid token device rid db :
  wp (CreateSession pricing now sid token device rid)
     (λ reply db', ∃ r, device_runtime device rid db = Some r ∧ ready_to_view r = true
        ∧ session_refusal pricing r.(rt_account_id) db = None
        ∧ reply.(sr_RelayToken) = token ∧ db' = db <| db_sessions ::= <[reply.(sr_ID) := reply.(sr_row)]> |>
        ∧ reply.(sr_row).(se_runtime_id) = rid ∧ reply.(sr_row).(se_status) = "pending"%string
        ∧ reply.(sr_row).(se_relay_token) = hashRelayToken token
        ∧ lease_row reply.(sr_row) = MkLease (Some device, None) (now + sessionAttachTTL) now
        ∧ match lease_of db.(db_sessions) rid with Some l => ∃ s, l = lease_row s ∧ db.(db_sessions) !! reply.(sr_ID) ≠ None
          | None => reply.(sr_ID) = sid end)
     (λ e db', db' = db
        ∧ match device_runtime device rid db with
          | None => e = ErrRuntimeNotFound
          | Some r =>
            if negb (ready_to_view r) then e = ErrRuntimeNotReady
            else match session_refusal pricing r.(rt_account_id) db with
                 | Some e' => e = e'
                 | None => e = ErrUnique "sessions_pkey" ∧ db.(db_sessions) !! sid ≠ None
                           ∨ e = ErrSessionAlreadyActive
                             ∧ ∃ k s, db.(db_sessions) !! k = Some s ∧ session_live s = true
                                 ∧ s.(se_runtime_id) = rid ∧ now < s.(se_expires_at)
                 end
          end) db.
Proof.
  unfold CreateSession. wp_steps.
  - split; [done|]. by rewrite H, H0.
  - rename a into r, H into Hr, H0 into Hv. unfold wp at 1. rewrite ensureSessionTime_run.
    destruct (session_refusal pricing (rt_account_id r) db) as [e|] eqn:Href; cbn [answer].
    { split; [done|]. by rewrite Hr, Hv, Href. }
    rewrite wp_bind. eapply wp_mono; [apply open_session_wp | |].
    + intros ks db' (k & s' & -> & -> & Hrt & Hd & Hc & Hst & Htok & Hcon & Hu & Hh & Hat). rewrite wp_ret. exists r.
      apply negb_false_iff in Hv. split_and!; try done; cbn.
      * unfold lease_row. by rewrite Hd, Hc, Hu, Hh.
      * destruct Hat as [(-> & -> & _)|(s & Hs & Hl & Hrt' & _)]; [done|].
        destruct (lease_of (db_sessions db) rid) as [l|] eqn:El.
        -- apply lease_Some_inv in El as (? & s0 & _ & _ & _ & ->). exists s0. by rewrite Hs.
        -- rewrite lease_None in El. by rewrite (El _ _ Hs Hrt') in Hl.
    + intros e db' [-> He]. split; [done|]. rewrite Hr, Hv, Href. destruct He as [(-> & _ & ?)|[-> ?]]; auto.
  - split; [done|]. by rewrite H.
Qed.

(** ** A concrete database *)

(** The sample runtime, started, reported running by its node, with a phone. *)
Definition sample_viewable : Db :=
  (UpdateRuntimeObservation 150 "rt" (sample_report 2 None) sample_started).1
    <| db_devices := {["phone" := MkDevice "acct" "phone" "pk" None None 0 None]} |>.
Definition sample_open : Db := (CreateSession sample_pricing 200 "s1" "token" "phone" "rt" sample_viewable).1.
Definition sample_attached : Db := (ResolveSessionRelayTarget 300 "s1" "token" sample_open).1.

(** ** Properties *)

(** C3: Sessions implement leases.  Whatever calls are made on sessions,
    capabilities, devices and runtimes, at most one session of a runtime is live,
    and each call moves the lease that the table means as the abstract machine
    allows: a lease is taken only by the viewer a call opens it for and only
    when there is none or it has expired, for two minutes; it is renewed only
    while it lasts, by its holder or through its relay token; it is dropped only
    by its holder, through its token, by the reaper once it has expired or its
    holder has been silent, or by what ends the runtime or the device. *)
Theorem sessions_refine_leases pricing fresh db tr db'
  (H : session_history pricing fresh db tr db') (H1 : one_live db.(db_sessions)) :
  one_live db'.(db_sessions)
  ∧ ∀ rid, lease_run rid (lease_of db.(db_sessions) rid) tr (lease_of db'.(db_sessions) rid).
Proof. by eapply session_history_leases. Qed.

Lemma sample_open_history fresh : (∀ h, fresh h) →
  session_history sample_pricing fresh sample_viewable [(200, OpOpen "s1" "token" "phone" "rt"); (300, OpAttach "s1" "token")]
    (run_session sample_pricing 300 (OpAttach "s1" "token")
      (run_session sample_pricing 200 (OpOpen "s1" "token" "phone" "rt") sample_viewable).1).1.
Proof.
  intros Hf. apply (session_step _ _ _ [(200, OpOpen "s1" "token" "phone" "rt")]); [|by intros ? _].
  apply (session_step _ _ _ []); [constructor | by intros ? _].
Qed.

Lemma sessions_refine_leases_witness :
  one_live (run_session sample_pricing 300 (OpAttach "s1" "token")
      (run_session sample_pricing 200 (OpOpen "s1" "token" "phone" "rt") sample_viewable).1).1.(db_sessions).
Proof.
  refine (proj1 (sessions_refine_leases sample_pricing (λ _, True) sample_viewable _ _ (sample_open_history _ (λ _, I)) _)).
  intros sid sid' s s' Hs. vm_compute in Hs. destruct sid as [|[[] [] [] [] [] [] [] []] ?]; discriminate Hs.
Defined.

(** Opening a session.  It succeeds only for an unrevoked device of the
    runtime's account, on a runtime that is to run, runs and is online, with
    trial time or balance left, and then reserves the runtime for that device
    for two minutes under the new token's hash, as a new session or over the
    expired one.  Otherwise nothing changes, and the error is the first that
    applies; a runtime that someone watches is refused as such. *)
Theorem CreateSession_spec pricing now sid token device rid db :
  match CreateSession pricing now sid token device rid db with
  | (db', inr reply) => ∃ r, device_runtime device rid db = Some r ∧ ready_to_view r = true
      ∧ session_refusal pricing r.(rt_account_id) db = None
      ∧ db' = db <| db_sessions ::= <[reply.(sr_ID) := reply.(sr_row)]> |>
      ∧ reply.(sr_row).(se_runtime_id) = rid ∧ reply.(sr_row).(se_status) = "pending"%string
      ∧ reply.(sr_row).(se_relay_token) = hashRelayToken token
      ∧ lease_row reply.(sr_row) = MkLease (Some device, None) (now + sessionAttachTTL) now
  | (db', inl e) => db' = db
      ∧ match device_runtime device rid db with
        | None => e = ErrRuntimeNotFound
        | Some r =>
          if negb (ready_to_view r) then e = ErrRuntimeNotReady
          else match session_refusal pricing r.(rt_account_id) db with
               | Some e' => e = e'
               | None => e = ErrUnique "sessions_pkey" ∧ db.(db_sessions) !! sid ≠ None
                         ∨ e = ErrSessionAlreadyActive
                           ∧ ∃ k s, db.(db_sessions) !! k = Some s ∧ session_live s = true
                               ∧ s.(se_runtime_id) = rid ∧ now < s.(se_expires_at)
               end
        end
  end.
Proof.
  pose proof (CreateSession_wp pricing now sid token device rid db) as Hw. unfold wp in Hw.
  destruct (CreateSession pricing now sid token device rid db) as [db' [e|reply]]; [done|].
  destruct Hw as (r & ? & ? & ? & ? & ? & ? & ? & ? & ? & _). exists r. auto 10.
Qed.

(** C25: A relay token opens a session once.  Attaching succeeds only with the
    session's current, unused token, before it expires, on a runtime that takes
    viewers, and answers with that runtime's node and port; afterwards the same
    token is refused for the session for good, by the relay and by the edge that
    forwards to it, whatever happens next, unless the very token (its hash) is
    issued again. *)
Theorem relay_token_once pricing now sid token db db1 target tr db2
  (H : ResolveSessionRelayTarget now sid token db = (db1, inr target))
  (Hh : session_history pricing (λ h, h ≠ hashRelayToken token) db1 tr db2) :
  (∃ s r, db.(db_sessions) !! sid = Some s ∧ relay_opens now (hashRelayToken token) s = true
     ∧ db.(db_runtimes) !! s.(se_runtime_id) = Some r ∧ viewable r = true
     ∧ Some target.(st_HostID) = r.(rt_host_id) ∧ Some target.(st_ViewerPort) = r.(rt_viewer_port))
  ∧ ∀ later, ResolveSessionRelayTarget later sid token db2 = (db2, inl ErrNoRows)
             ∧ (TrimSpace sid = sid → SessionRelayHost later sid token db2 = (db2, inl ErrNoRows)).
Proof.
  eapply wp_run in H; [|apply Resolve_wp]. destruct H as (s & r & Hs & Hr & Ho & Hv & -> & Hhost & Hport & _).
  split; [by exists s, r|]. intros later.
  assert (Hu : used_up sid (hashRelayToken token) db2.(db_sessions)).
  { eapply session_history_used; [exact Hh|]. cbn. intros s' Hs'. rewrite lookup_insert_eq in Hs'. by injection Hs' as <-. }
  split.
  - pose proof (Resolve_wp later sid token db2) as Hw. unfold wp in Hw.
    destruct (ResolveSessionRelayTarget later sid token db2) as [db3 [e|?]]; [by destruct Hw as [-> ->]|].
    destruct Hw as (s2 & _ & Hs2 & _ & Ho2 & _). by rewrite (used_up_closed _ _ _ _ _ Hu Hs2) in Ho2.
  - intros Htrim. assert (Hw : wp (SessionRelayHost later sid token) (λ _ _, False) (λ e db3, e = ErrNoRows ∧ db3 = db2) db2).
    { unfold SessionRelayHost. wp_steps; try done. all: destruct a as [s2 r2]; cbn in *.
      all: apply session_runtime_Some in H0 as [Hs2 _]; rewrite Htrim in Hs2.
      all: assert (Hhash : hashRelayToken (TrimSpace token) = hashRelayToken token) by (unfold hashRelayToken; by rewrite TrimSpace_idemp).
      all: rewrite Hhash, (used_up_closed _ _ later _ _ Hu Hs2) in H1; done. }
    unfold wp in Hw. destruct (SessionRelayHost later sid token db2) as [db3 [e|?]]; [by destruct Hw as [-> ->] | done].
Qed.

Definition sample_target : SessionRelayTarget := MkRelayTarget "s1" "rt" "phone" "node-1" 46000.
Lemma sample_attaches : (ResolveSessionRelayTarget 300 "s1" "token" sample_open).2 = inr sample_target.
Proof. vm_compute. reflexivity. Qed.

Lemma relay_token_once_witness :
  ResolveSessionRelayTarget 400 "s1" "token" sample_attached = (sample_attached, inl ErrNoRows).
Proof.
  exact (proj1 (proj2 (relay_token_once sample_pricing 300 "s1" "token" sample_open sample_attached sample_target [] sample_attached
    (run_of (ResolveSessionRelayTarget 300 "s1" "token") sample_open (inr sample_target) sample_attaches)
    (session_start _ _ _)) 400)).
Defined.

(** The reaper.  A pass always succeeds.  It ends exactly the live sessions
    that expired or, once attached, were silent for longer than the timeout, and
    leaves every other session alone; it stops exactly the runtimes that then have
    nobody watching and have been idle for their inactivity period, each under a
    new generation, reports them, and leaves no such runtime behind. *)
Theorem reap_spec now d db :
  let T := reap_timeout d in
  ∃ res db', ReapStaleSessions now d db = (db', inr res)
  ∧ (∀ sid s, db'.(db_sessions) !! sid = Some s ∧ session_live s = true ↔
              db.(db_sessions) !! sid = Some s ∧ watching now T s = true)
  ∧ (∀ rid r, db.(db_runtimes) !! rid = Some r →
       db'.(db_runtimes) !! rid = Some (if idle_runtime now T db' rid r then idle_stop_row now r else r)
       ∧ (rid ∈ res.(rr_StoppedRuntimeIDs) ↔ idle_runtime now T db' rid r = true))
  ∧ (∀ rid r, db'.(db_runtimes) !! rid = Some r → idle_runtime now T db' rid r = false).
Proof.
  intros T. pose proof (ReapStaleSessions_wp now d db) as Hw. fold T in Hw. unfold wp in Hw.
  destruct (ReapStaleSessions now d db) as [db' [e|res]]; [done|]. destruct Hw as (HS & HR & Hstop).
  exists res, db'. split; [done|].
  assert (Hidle : ∀ rid r, idle_runtime now T (db <| db_sessions ::= lapse now T |>) rid r = idle_runtime now T db' rid r)
    by (intros; symmetry; by apply idle_sessions).
  split_and!.
  - intros sid s. rewrite HS. apply lapse_watching.
  - intros rid r Hr. rewrite HR, lookup_update_where, Hr. cbn -[idle_stop_row]. rewrite Hidle. split; [done|].
    rewrite Hstop, list_elem_of_fmap. split.
    + intros ([? r'] & -> & [Hr' Hp]%elem_of_select). cbn [fst] in *. rewrite Hidle in Hp.
      assert (r' = r) as -> by congruence. done.
    + intros Hp. exists (rid, r). split; [done|]. apply elem_of_select. by rewrite Hidle.
  - intros rid r'. rewrite HR. intros (r & Hr & ->)%update_where_Some. rewrite Hidle.
    destruct (idle_runtime now T db' rid r) eqn:E; [apply idle_stopped | done].
Qed.
