(* ===== verification/States.v ===== *)
(** * What the app is shown of runtimes

    Models the read side of internal/store/store.go: a runtime's state with the
    actions it allows (1628-1792, 8582-8701), open sessions and capabilities
    (3785-3907), a runtime's log and its retention (4303-4406), and when an idle
    runtime will be stopped ([idleStopAtSQL], 57-68). *)

From S2P Require Import Prelude.
From S2P Require Import GoLib.
From S2P Require Import Schema.
From S2P Require Import Common.
From S2P Require Import Billing.
From S2P Require Import Entitlements.
From S2P Require Import Apps.
From S2P Require Import Runtimes.
From S2P Require Import Sessions.
Open Scope Z_scope.

(** ** States and actions *)

Definition lowered (s : string) : string := ToLower (TrimSpace s).

Definition runtimeStoppedForSession (r : Runtime) : bool :=
  let stopped := EqualFold r.(rt_status) "stopped" || EqualFold r.(rt_status) "provisioned" in
  let desiredStopped := EqualFold r.(rt_desired_state) "stopped" in
  let connectionStatus := TrimSpace r.(rt_connection_status) in
  let offline := (connectionStatus =?s "") || EqualFold connectionStatus "offline"
                 || EqualFold connectionStatus "disconnected" in
  stopped && desiredStopped && offline.

Definition effectiveRuntimeState (r : Runtime) : string :=
  let status := lowered r.(rt_status) in
  let desiredState := lowered r.(rt_desired_state) in
  let connectionStatus := lowered r.(rt_connection_status) in
  if not_null r.(rt_deleted_at) || (status =?s "deleted") then "deleted"
  else if (desiredState =?s "deleted") || (status =?s "deleting") then "deleting"
  else if (status =?s "wiping") || r.(rt_wipe_requested) then "wiping"
  else if (status =?s "stopping") || (connectionStatus =?s "disconnecting")
          || ((desiredState =?s "stopped") && (connectionStatus =?s "online")) then "stopping"
  else if runtimeReadyForSession r then "running"
  else if status =?s "error" then "error"
  else if (desiredState =?s "running") || (status =?s "starting") || (status =?s "provisioning")
          || (connectionStatus =?s "connecting") || (connectionStatus =?s "preparing") then "starting"
  else if runtimeStoppedForSession r || (status =?s "provisioned") then "stopped"
  else if negb (status =?s "") then status
  else "unknown".

Record RuntimeState := MkRuntimeState {
  rs_Runtime : Runtime;
  rs_IdleStopAt : option Z;
  rs_CurrentDeviceSessionID : option string;
  rs_EffectiveState : string;
  rs_RuntimeReady : bool;
  rs_HasActiveSession : bool;
  rs_HasCurrentDeviceSession : bool;
  rs_CanConnect : bool;
  rs_CanStart : bool;
  rs_CanStop : bool;
  rs_CanWipe : bool;
  rs_CanDelete : bool;
  rs_IsBusy : bool;
  rs_BlockedReason : string
}.

Definition buildRuntimeState (r : Runtime) (hasActiveSession : bool) (currentDeviceSessionID : option string)
    (idleStopAt : option Z) : RuntimeState :=
  let effectiveState := effectiveRuntimeState r in
  let runtimeReady := runtimeReadyForSession r in
  let isBusy := (effectiveState =?s "starting") || (effectiveState =?s "stopping") || (effectiveState =?s "wiping")
                || (effectiveState =?s "deleting") || r.(rt_cleanup_pending) in
  let deleted := (effectiveState =?s "deleted") || not_null r.(rt_deleted_at) in
  let hostAssigned := negb (valueOrEmpty r.(rt_host_id) =?s "") in
  let canConnect := runtimeReady && negb deleted in
  let canStart := negb deleted && negb runtimeReady && negb isBusy && negb r.(rt_cleanup_pending)
                  && (negb hostAssigned || runtimeStoppedForSession r) in
  let canStop := negb deleted && hostAssigned && negb (runtimeStoppedForSession r)
                 && negb (effectiveState =?s "stopping") && negb (effectiveState =?s "wiping")
                 && negb (effectiveState =?s "deleting") in
  let canWipe := negb deleted && negb isBusy in
  let canDelete := negb deleted && negb (effectiveState =?s "deleting") && negb r.(rt_cleanup_pending) in
  let blockedReason :=
    if deleted then "runtime deleted"%string
    else if r.(rt_cleanup_pending) then "runtime cleanup is still pending"%string
    else if isBusy then "runtime lifecycle operation is already in progress"%string
    else match r.(rt_last_error) with
         | Some e => if r.(rt_status) =?s "error" then TrimSpace e
                     else if negb runtimeReady && negb canStart then "runtime is not ready"%string else ""%string
         | None => if negb runtimeReady && negb canStart then "runtime is not ready"%string else ""%string
         end in
  MkRuntimeState r idleStopAt currentDeviceSessionID effectiveState runtimeReady hasActiveSession
    (not_null currentDeviceSessionID) canConnect canStart canStop canWipe canDelete isBusy blockedReason.

(** ** Reading them *)

(** [idleStopAtSQL]. *)
Definition idle_stop_at (now : Z) (db : Db) (runtimeID : string) (r : Runtime) : option Z :=
  if may_be_idle r && unwatched now (2 * minute_us) db runtimeID
  then Some (last_activity db runtimeID r + r.(rt_idle_timeout_seconds) * second_us) else None.

(** The newest open session of a device on a runtime. *)
Definition device_session (now : Z) (db : Db) (runtimeID deviceID : string) : option string :=
  fst <$> head (order_by (λ x y : string * Session, y.2.(se_updated_at) <=? x.2.(se_updated_at))
    (select (λ _ s, (s.(se_runtime_id) =?s runtimeID) && null_eqb s.(se_device_id) deviceID && session_open now s)
       db.(db_sessions))).

Definition has_active_session (now : Z) (db : Db) (runtimeID : string) : bool :=
  exists_where (λ _ s, (s.(se_runtime_id) =?s runtimeID) && session_open now s) db.(db_sessions).

Definition runtime_state (now : Z) (db : Db) (deviceID runtimeID : string) (r : Runtime) : RuntimeState :=
  buildRuntimeState r (has_active_session now db runtimeID) (device_session now db runtimeID deviceID)
    (idle_stop_at now db runtimeID r).

(** [account_id = $1 AND deleted_at IS NULL ORDER BY created_at DESC]. *)
Definition account_runtimes (accountID : string) (db : Db) : list (string * Runtime) :=
  order_by (λ x y : string * Runtime, y.2.(rt_created_at) <=? x.2.(rt_created_at))
    (select (λ _ r, runtime_of accountID r) db.(db_runtimes)).

Definition ListRuntimes (accountID : string) : Tx (list (string * Runtime)) := gets (account_runtimes accountID).

Definition ListRuntimeStates (now : Z) (accountID deviceID : string) : Tx (list (string * RuntimeState)) :=
  let accountID := TrimSpace accountID in
  let deviceID := TrimSpace deviceID in
  if (accountID =?s "") || (deviceID =?s "") then mret []
  else gets (λ db, (λ kr, (kr.1, runtime_state now db deviceID kr.1 kr.2)) <$> account_runtimes accountID db).

Definition GetRuntimeState (now : Z) (accountID deviceID runtimeID : string) : Tx RuntimeState :=
  let accountID := TrimSpace accountID in
  let deviceID := TrimSpace deviceID in
  let runtimeID := TrimSpace runtimeID in
  refuse_if ((accountID =?s "") || (deviceID =?s "") || (runtimeID =?s "")) ErrRuntimeNotFound;;
  r ← GetRuntime accountID runtimeID;
  gets (λ db, runtime_state now db deviceID runtimeID r).

(** *** Open sessions and capabilities *)

Record ActiveRuntimeSessionSummary := MkActiveSession {
  as_SessionID : string; as_Session : Session; as_RuntimeName : string;
  as_CapabilityExpiresAt : option Z; as_CapabilityLastUsedAt : option Z }.
Record ActiveRuntimeCapabilitySummary := MkActiveCapability {
  ac_ID : string; ac_Capability : Capability; ac_RuntimeName : string }.

Definition ListActiveSessionCapabilities (now : Z) (accountID : string)
    : Tx (list ActiveRuntimeSessionSummary * list ActiveRuntimeCapabilitySummary) :=
  let accountID := TrimSpace accountID in
  refuse_if (accountID =?s "") ErrDeviceNotFound;;
  db ← gets Datatypes.id;
  let own (r : Runtime) := r.(rt_account_id) =?s accountID in
  let sessions := order_by (λ x y : string * Session, y.2.(se_updated_at) <=? x.2.(se_updated_at))
    (select (λ _ s, match db.(db_runtimes) !! s.(se_runtime_id) with
                    | Some r => own r && rt_live r && session_open now s | None => false end) db.(db_sessions)) in
  let capabilities := order_by (λ x y : string * Capability, y.2.(ca_updated_at) <=? x.2.(ca_updated_at))
    (select (λ id c, (c.(ca_account_id) =?s accountID)
               && match db.(db_runtimes) !! c.(ca_runtime_id) with
                  | Some r => capability_serves now id c.(ca_runtime_id) r db && rt_kept r | None => false end)
       db.(db_capabilities)) in
  let name rid := coalesce (rt_name <$> db.(db_runtimes) !! rid) ""%string in
  mret ((λ ks : string * Session, let c := ks.2.(se_capability_id) ≫= λ id, db.(db_capabilities) !! id in
           MkActiveSession ks.1 ks.2 (name ks.2.(se_runtime_id)) (ca_expires_at <$> c) (c ≫= ca_last_used_at)) <$> sessions,
        (λ kc : string * Capability, MkActiveCapability kc.1 kc.2 (name kc.2.(ca_runtime_id))) <$> capabilities).

(** ** Logs *)

Definition runtimeLogRetentionRows : nat := Z.to_nat 2000.

(** Newest first by [created_at], then by serial number; rows carry their
    position as serial number. *)
Definition newer (x y : nat * RuntimeLog) : bool :=
  (y.2.(lg_created_at) <? x.2.(lg_created_at))
  || ((y.2.(lg_created_at) =? x.2.(lg_created_at)) && (y.1 <=? x.1)%nat).

Definition numbered {A} (l : list A) : list (nat * A) := zip (seq 0 (length l)) l.

Definition logs_of (rid : string) (logs : list RuntimeLog) : list (nat * RuntimeLog) :=
  List.filter (λ x, x.2.(lg_runtime_id) =?s rid) (numbered logs).

Definition ListRuntimeLogs (accountID runtimeID : string) (limit : Z) : Tx (list RuntimeLog) :=
  let limit := if (limit <=? 0) || (100 <? limit) then 25 else limit in
  db ← gets Datatypes.id;
  require (own_runtime accountID runtimeID db) ErrRuntimeNotFound;;
  mret (take (Z.to_nat limit)
    (order_by (λ x y, y.(lg_created_at) <=? x.(lg_created_at)) (logs_of runtimeID db.(db_runtime_logs)).*2)).

(** [DELETE ... WHERE id IN (SELECT id ... OFFSET n)]. *)
Definition keep_newest (rid : string) (n : nat) (logs : list RuntimeLog) : list RuntimeLog :=
  let dropped := (drop n (order_by newer (logs_of rid logs))).*1 in
  snd <$> List.filter (λ x, negb (bool_decide (x.1 ∈ dropped))) (numbered logs).

Definition AppendRuntimeLog (now : Z) (runtimeID source level message : string) : Tx unit :=
  atomically (
    db ← gets Datatypes.id;
    refuse_if (is_null (db.(db_runtimes) !! runtimeID)) (ErrCheck "runtime_logs.runtime_id");;
    appendRuntimeLogTX now runtimeID source level message;;
    modify (λ db, db <| db_runtime_logs ::= keep_newest runtimeID runtimeLogRetentionRows |>)).

Definition PruneRuntimeLogs (now retention : Z) : Tx Z :=
  if retention <=? 0 then mret 0
  else
    db ← gets Datatypes.id;
    let old (l : RuntimeLog) := coalesce l.(lg_last_seen_at) l.(lg_created_at) <? now - retention in
    modify (λ db, db <| db_runtime_logs ::= List.filter (λ l, negb (old l)) |>);;
    mret (Z.of_nat (length (List.filter old db.(db_runtime_logs)))).

(** ** Facts *)

Lemma ready_viewable r : runtimeReadyForSession r = viewable r.
Proof.
  unfold runtimeReadyForSession, viewable, rt_live.
  destruct (rt_status r =?s "running"), (rt_desired_state r =?s "running"), (rt_connection_status r =?s "online"),
    (not_null (rt_host_id r)), (not_null (rt_viewer_port r)), (is_null (rt_deleted_at r)); done.
Qed.

(** A viewable runtime is shown as running, unless it is being wiped. *)
Lemma effective_viewable r :
  viewable r = true → effectiveRuntimeState r = if r.(rt_wipe_requested) then "wiping"%string else "running"%string.
Proof.
  intros Hv. pose proof Hv as Hv'. unfold viewable in Hv'. rewrite !andb_true_iff, !str_eqb_eq in Hv'.
  destruct Hv' as [[[[[Hl Hd] Hs] Hc] _] _]. unfold effectiveRuntimeState. rewrite ready_viewable, Hv, Hd, Hs, Hc.
  unfold rt_live in Hl. destruct (rt_deleted_at r); [done|]. cbn -[lowered]. by destruct (rt_wipe_requested r).
Qed.

(** *** Logs *)

Lemma numbered_snd {A} (l : list A) : (numbered l).*2 = l.
Proof. unfold numbered. apply snd_zip. by rewrite length_seq. Qed.

Lemma filter_fmap_snd {A} (p : A → bool) (l : list (nat * A)) :
  (List.filter (λ x, p x.2) l).*2 = List.filter p l.*2.
Proof. induction l as [|[i x] l IH]; [done|]. cbn. destruct (p x); cbn; by rewrite IH. Qed.

Lemma numbered_NoDup {A} (l : list A) : NoDup (numbered l).*1.
Proof. unfold numbered. rewrite fst_zip by (by rewrite length_seq). apply NoDup_seq. Qed.

Lemma filter_fst_NoDup {A} (p : nat * A → bool) (l : list (nat * A)) : NoDup l.*1 → NoDup (List.filter p l).*1.
Proof.
  induction l as [|[i x] l IH]; cbn; [constructor|]. intros [Hi Hl]%NoDup_cons. destruct (p (i, x)); [|auto]. cbn.
  apply NoDup_cons. split; [|auto]. intros ([j y] & -> & Hin)%list_elem_of_fmap. apply Hi.
  apply list_elem_of_In, filter_In in Hin as [Hin%list_elem_of_In _]. cbn. apply list_elem_of_fmap. by exists (j, y).
Qed.

(** Dropping the tail of a list by its keys leaves the head. *)
Lemma filter_not_dropped {A} n (l : list (nat * A)) :
  NoDup l.*1 → List.filter (λ x, negb (bool_decide (x.1 ∈ (drop n l).*1))) l = take n l.
Proof.
  revert n. induction l as [|[i x] l IH]; intros [|n]; cbn [drop take fmap list_fmap]; try done.
  - intros _. clear IH.
    assert (∀ k, k ⊆ (i, x) :: l → List.filter (λ y, negb (bool_decide (y.1 ∈ ((i, x) :: l).*1))) k = []) as H; [|by apply H].
    induction k as [|y k IHk]; intros Hk; [done|]. cbn [List.filter].
    rewrite bool_decide_eq_true_2; [apply IHk; set_solver|]. apply list_elem_of_fmap. exists y. split; [done|]. set_solver.
  - intros [Hi Hl]%NoDup_cons. cbn [List.filter]. rewrite bool_decide_eq_false_2; [cbn; by rewrite IH|].
    cbn. intros Hin. apply Hi. eapply elem_of_submseteq; [exact Hin|]. apply sublist_submseteq, fmap_sublist, sublist_drop.
Qed.

Lemma filter_comm {A} (p q : A → bool) l : List.filter p (List.filter q l) = List.filter q (List.filter p l).
Proof.
  induction l as [|x l IH]; [done|]. cbn. destruct (q x) eqn:Eq, (p x) eqn:Ep; cbn; rewrite ?Eq, ?Ep, ?IH; done.
Qed.
Lemma keep_newest_own rid n logs :
  List.filter (λ l, l.(lg_runtime_id) =?s rid) (keep_newest rid n logs)
  ≡ₚ (take n (order_by newer (logs_of rid logs))).*2.
Proof.
  unfold keep_newest. rewrite <-filter_fmap_snd, filter_comm. fold (logs_of rid logs).
  apply fmap_Permutation. set (sorted := order_by newer (logs_of rid logs)).
  assert (Hp : logs_of rid logs ≡ₚ sorted) by (symmetry; apply order_by_perm).
  rewrite (filter_perm _ _ _ Hp), filter_not_dropped; [done|].
  eapply NoDup_Permutation_proper; [apply fmap_Permutation; symmetry; exact Hp|].
  apply filter_fst_NoDup, numbered_NoDup.
Qed.

Lemma numbered_inj {A} (l : list A) i x y : (i, x) ∈ numbered l → (i, y) ∈ numbered l → x = y.
Proof.
  unfold numbered. rewrite !list_elem_of_lookup. intros [j Hj] [k Hk].
  apply lookup_zip_Some in Hj as [Hj1 Hj2], Hk as [Hk1 Hk2]. apply lookup_seq in Hj1 as [-> _], Hk1 as [? _].
  assert (j = k) as -> by lia. congruence.
Qed.

Lemma keep_newest_others rid n logs :
  List.filter (λ l, negb (l.(lg_runtime_id) =?s rid)) (keep_newest rid n logs)
  = List.filter (λ l, negb (l.(lg_runtime_id) =?s rid)) logs.
Proof.
  unfold keep_newest. rewrite <-(filter_fmap_snd (λ l, negb (l.(lg_runtime_id) =?s rid))), filter_comm.
  transitivity (List.filter (λ l, negb (l.(lg_runtime_id) =?s rid)) (numbered logs).*2); [|by rewrite numbered_snd].
  rewrite <-(filter_fmap_snd (λ l, negb (l.(lg_runtime_id) =?s rid)) (numbered logs)).
  f_equal. set (dropped := (drop n (order_by newer (logs_of rid logs))).*1).
  assert (Hall : ∀ x, x ∈ List.filter (λ x : nat * RuntimeLog, negb (lg_runtime_id x.2 =?s rid)) (numbered logs) → x.1 ∉ dropped).
  { intros [i x] [Hin%list_elem_of_In Hx]%list_elem_of_In%filter_In ([j y] & Hij & Hd)%list_elem_of_fmap. cbn in *. subst j.
    assert ((i, y) ∈ logs_of rid logs) as Hy.
    { rewrite <-(elem_of_order_by newer). eapply elem_of_submseteq; [exact Hd|]. apply sublist_submseteq, sublist_drop. }
    apply list_elem_of_In, filter_In in Hy as [Hy%list_elem_of_In Hr]. cbn in Hr.
    rewrite (numbered_inj _ _ _ _ Hin Hy), Hr in Hx. done. }
  revert Hall. generalize (List.filter (λ x : nat * RuntimeLog, negb (lg_runtime_id x.2 =?s rid)) (numbered logs)) as l.
  induction l as [|x l IH]; intros Hall; [done|]. cbn [List.filter].
  rewrite bool_decide_eq_false_2 by (apply Hall; left). cbn. f_equal. apply IH. intros y Hy. apply Hall. by right.
Qed.

(** *** Idle runtimes *)

Definition newest_update (m : option Z) (l : list (string * Session)) : Prop :=
  match m with
  | None => l = []
  | Some m => (∃ ks, ks ∈ l ∧ ks.2.(se_updated_at) = m) ∧ ∀ ks, ks ∈ l → ks.2.(se_updated_at) ≤ m
  end.

Lemma last_session_newest rid db :
  newest_update (last_session_at rid db) (select (λ _ s, s.(se_runtime_id) =?s rid) db.(db_sessions)).
Proof.
  unfold last_session_at. generalize (select (λ _ s, s.(se_runtime_id) =?s rid) db.(db_sessions)) as l.
  induction l as [|ks l IH]; [done|]. cbn [foldr].
  destruct (foldr _ None l) as [m|] eqn:E; cbn [newest_update] in *.
  - destruct IH as [(k0 & Hk0 & Hm) Hall]. split.
    + destruct (Z.max_spec (ks.2.(se_updated_at)) m) as [[_ ->]|[_ ->]].
      * exists k0. split; [by right | done].
      * exists ks. split; [left | done].
    + intros k [->|Hk]%elem_of_cons; [lia|]. specialize (Hall k Hk). lia.
  - subst l. split; [exists ks; split; [left|done]|]. intros k [->|Hk]%elem_of_cons; [lia|]. by apply not_elem_of_nil in Hk.
Qed.

Lemma newest_update_unique m m' l l' : (∀ x, x ∈ l ↔ x ∈ l') → newest_update m l → newest_update m' l' → m = m'.
Proof.
  intros Hl. destruct m as [m|], m' as [m'|]; cbn; try done.
  - intros [(k & Hk & <-) Hall] [(k' & Hk' & <-) Hall']. f_equal. apply Hl in Hk as Hk2. apply Hl in Hk' as Hk2'.
    specialize (Hall _ Hk2'). specialize (Hall' _ Hk2). lia.
  - intros [(k & Hk & _) _] ->. apply Hl in Hk. by apply not_elem_of_nil in Hk.
  - intros -> [(k & Hk & _) _]. apply Hl in Hk. by apply not_elem_of_nil in Hk.
Qed.

(** Sessions that did not lapse keep their runtime's idleness. *)
Lemma idle_no_lapse now T db rid r :
  (∀ sid s, db.(db_sessions) !! sid = Some s → s.(se_runtime_id) = rid →
     lapsed_pending now sid s = false ∧ lapsed_active now T sid s = false) →
  idle_runtime now T (db <| db_sessions ::= lapse now T |>) rid r = idle_runtime now T db rid r.
Proof.
  intros Hn. assert (Hrows : ∀ sid s, s.(se_runtime_id) = rid →
    lapse now T db.(db_sessions) !! sid = Some s ↔ db.(db_sessions) !! sid = Some s).
  { intros sid s Hrt. unfold lapse. rewrite !lookup_update_where. destruct (db_sessions db !! sid) as [s0|] eqn:Hs; cbn -[end_session]; [|done].
    destruct (decide (se_runtime_id s0 = rid)) as [Hr0|Hr0].
    - destruct (Hn _ _ Hs Hr0) as [-> Ha]. by rewrite Ha.
    - split; intros [= <-]; exfalso; apply Hr0; [|done]. by repeat case_match. }
  assert (Hlast : last_session_at rid (db <| db_sessions ::= lapse now T |>) = last_session_at rid db).
  { eapply newest_update_unique; [|apply last_session_newest|apply last_session_newest].
    intros [sid s]. rewrite !elem_of_select. cbn. split; intros [Hs Hrt%str_eqb_eq]; (split; [|by apply str_eqb_eq]); by apply Hrows. }
  unfold idle_runtime, last_activity. rewrite Hlast. f_equal. unfold unwatched. f_equal.
  apply eq_true_iff_eq. rewrite !exists_where_true. cbn.
  split; intros (sid & s & Hs & Hp); exists sid, s; (split; [|done]); apply andb_true_iff in Hp as [Hrt%str_eqb_eq _]; by apply Hrows.
Qed.

Lemma idle_stop_at_idle now db rid r :
  rt_live r = true →
  idle_runtime now (2 * minute_us) db rid r = true ↔ ∃ t, idle_stop_at now db rid r = Some t ∧ t < now.
Proof.
  intros Hl. unfold idle_runtime, idle_stop_at. rewrite Hl. cbn [andb].
  destruct (may_be_idle r), (unwatched now (2 * minute_us) db rid); cbn [andb].
  - rewrite andb_true_r, Z.ltb_lt. split; [intros; eexists; split; [done|lia] | intros (t & [= <-] & ?); lia].
  - rewrite andb_false_r. split; [done | by intros (? & ? & _)].
  - split; [done | by intros (? & ? & _)].
  - split; [done | by intros (? & ? & _)].
Qed.

(** *** Actions *)

Lemma valueOrEmpty_host r : valueOrEmpty r.(rt_host_id) ≠ ""%string → r.(rt_host_id) ≠ None.
Proof. by destruct (rt_host_id r). Qed.

Lemma effective_not_starting r :
  effectiveRuntimeState r ≠ "starting"%string → effectiveRuntimeState r ≠ "stopping"%string →
  effectiveRuntimeState r ≠ "wiping"%string → effectiveRuntimeState r ≠ "deleting"%string →
  effectiveRuntimeState r ≠ "deleted"%string → viewable r = false →
  lowered r.(rt_desired_state) = "running"%string → lowered r.(rt_status) = "error"%string.
Proof.
  unfold effectiveRuntimeState. rewrite ready_viewable. intros H1 H2 H3 H4 H5 Hv Hd. rewrite Hv, Hd in *.
  repeat (case_match; try done). by apply str_eqb_eq.
Qed.

Lemma wants_lowered st r : ToLower st = st → wants_state st r = true ↔ lowered r.(rt_desired_state) = st.
Proof. intros H. unfold wants_state, EqualFold, lowered. by rewrite bool_decide_eq_true, H. Qed.

Lemma StopRuntime_succeeds now a rid r db :
  TrimSpace rid = rid → own_runtime a rid db = Some r →
  ∃ db' r', StopRuntime now a rid db = (db', inr r') ∧ wants_state "stopped" r' = true.
Proof.
  intros Hid Hr. assert (Hw : wp (StopRuntime now a rid) (λ r' _, wants_state "stopped" r' = true) (λ _ _, False) db).
  { unfold StopRuntime. wp_steps; try congruence. rewrite <-wp_bind.
    apply own_runtime_Some in Hr as [Hrow _].
    eapply wp_mono; [by apply write_and_cut_wp | | done]. by intros ? ? (-> & _ & _). }
  unfold wp in Hw. destruct (StopRuntime now a rid db) as [db' [e|r']]; [done|]. eauto.
Qed.

(** ** A concrete database *)

Definition sample_idle : Db :=
  empty_db <| db_runtimes := {["rt" := default_runtime "acct" "running" 0 <| rt_desired_state := "running"%string |>]} |>.
(** The same, with an active session silent for an hour that no pass has ended. *)
Definition sample_silent : Db :=
  sample_idle <| db_sessions := {["s" := MkSession "rt" (Some "d"%string) None "active" "" 0 0 (Some 0) None None 1000 None]} |>.

(** ** Properties *)

(** The actions the app is offered.  "Connect" is offered exactly when the
    relay takes viewers for the runtime; "start" never together with "stop" or
    "connect".  A start that is offered is not for a runtime that is to run
    already, unless its last run failed, and can only be refused by the account's
    limits, for lack of a node or of a viewer port; a stop that is offered
    succeeds. *)
Theorem shown_actions pricing now db a did rid r
  (Hr : own_runtime a rid db = Some r) (Hid : TrimSpace rid = rid) :
  let st := runtime_state now db did rid r in
  (st.(rs_CanConnect) = true ↔ viewable r = true)
  ∧ ¬ (st.(rs_CanStart) = true ∧ st.(rs_CanStop) = true) ∧ ¬ (st.(rs_CanStart) = true ∧ st.(rs_CanConnect) = true)
  ∧ (st.(rs_CanStart) = true → lowered r.(rt_status) ≠ "error"%string → wants_state "running" r = false)
  ∧ (st.(rs_CanStart) = true →
     ∀ req fresh db' e, startRuntime pricing now a rid req fresh db = (db', inl e) →
       start_refusal pricing now a rid db = Some e ∨ e = ErrNoReadyHost ∨ e = ErrText "no viewer ports available")
  ∧ (st.(rs_CanStop) = true → ∃ db' r', StopRuntime now a rid db = (db', inr r') ∧ wants_state "stopped" r' = true).
Proof.
  intros st. pose proof Hr as [_ Hk]%own_runtime_Some.
  assert (Hdel : not_null r.(rt_deleted_at) = false).
  { unfold kept_runtime, rt_live in Hk. apply andb_true_iff in Hk as [[_ Hk]%andb_true_iff _]. by destruct (rt_deleted_at r). }
  subst st. unfold runtime_state, buildRuntimeState. cbn -[effectiveRuntimeState runtimeStoppedForSession viewable].
  rewrite ready_viewable, Hdel, orb_false_r. split_and!.
  - split; [by intros [? _]%andb_true_iff|]. intros Hv. rewrite Hv, (effective_viewable _ Hv). by destruct (rt_wipe_requested r).
  - intros [[_ H1]%andb_true_iff [[[[[_ H2]%andb_true_iff H3]%andb_true_iff _]%andb_true_iff _]%andb_true_iff _]%andb_true_iff].
    rewrite H2 in H1. cbn in H1. by rewrite H1 in H3.
  - intros [[[[[_ H1]%andb_true_iff _]%andb_true_iff _]%andb_true_iff _]%andb_true_iff [H2 _]%andb_true_iff]. by rewrite H2 in H1.
  - intros Hs Herr. rewrite !andb_true_iff, !negb_true_iff, !orb_false_iff, !str_eqb_neq in Hs.
    destruct Hs as [[[[Hd Hv] [[[[Hst Hsp] Hwi] Hde] _]] _] _]. apply not_true_iff_false.
    rewrite (wants_lowered "running") by done. intros Hw. by apply Herr, effective_not_starting.
  - intros Hs req fresh db' e Hrun. apply andb_true_iff in Hs as [[_ Hcl%negb_true_iff]%andb_true_iff _].
    eapply wp_run in Hrun; [|apply startRuntime_wp]. destruct Hrun as [_ [[Hnone _]|(r0 & Hr0 & Hw & Hcase)]]; [congruence|].
    assert (r0 = r) as -> by congruence.
    destruct Hcase as [[Hc _]|(_ & [Href|(_ & [->|(-> & _)])])]; [congruence | by left | auto | auto].
  - intros _. by apply (StopRuntime_succeeds now a rid r).
Qed.

Lemma shown_actions_witness :
  ∃ db' r', StopRuntime 200 "acct" "rt" sample_viewable = (db', inr r') ∧ wants_state "stopped" r' = true.
Proof.
  destruct (own_runtime "acct" "rt" sample_viewable) as [r|] eqn:Hr; [|vm_compute in Hr; discriminate Hr].
  apply (shown_actions sample_pricing 200 sample_viewable "acct" "phone" "rt" r Hr eq_refl).
  vm_compute in Hr. injection Hr as <-. vm_compute. reflexivity.
Defined.

(** The announced stop is the reaper's.  With the default timeout, a pass of
    the reaper stops a runtime none of whose sessions it has to end exactly when
    the time the app was shown ([idle_stop_at]) has passed. *)
Theorem idle_stop_agrees now d db rid r
  (Hd : reap_timeout d = 2 * minute_us) (Hr : db.(db_runtimes) !! rid = Some r) (Hl : rt_live r = true)
  (Hn : ∀ sid s, db.(db_sessions) !! sid = Some s → s.(se_runtime_id) = rid →
          lapsed_pending now sid s = false ∧ lapsed_active now (2 * minute_us) sid s = false) :
  match ReapStaleSessions now d db with
  | (db', inr res) =>
    (rid ∈ res.(rr_StoppedRuntimeIDs) ↔ ∃ t, idle_stop_at now db rid r = Some t ∧ t < now)
    ∧ (rid ∈ res.(rr_StoppedRuntimeIDs) → db'.(db_runtimes) !! rid = Some (idle_stop_row now r))
  | (_, inl _) => False
  end.
Proof.
  pose proof (ReapStaleSessions_wp now d db) as Hw. rewrite Hd in Hw. unfold wp in Hw.
  destruct (ReapStaleSessions now d db) as [db' [e|res]]; [done|]. destruct Hw as (_ & HR & ->).
  assert (Hin : rid ∈ (select (idle_runtime now (2 * minute_us) (db <| db_sessions ::= lapse now (2 * minute_us) |>)) db.(db_runtimes)).*1
                ↔ idle_runtime now (2 * minute_us) db rid r = true).
  { rewrite list_elem_of_fmap. split.
    - intros ([? r'] & -> & [Hr' Hp]%elem_of_select). cbn [fst] in *. assert (r' = r) as -> by congruence.
      rewrite <-Hp. symmetry. by apply idle_no_lapse.
    - intros Hp. exists (rid, r). split; [done|]. apply elem_of_select. split; [done|]. by rewrite idle_no_lapse. }
  rewrite Hin. split; [by apply idle_stop_at_idle|]. intros Hp.
  rewrite HR, lookup_update_where, Hr. cbn -[idle_stop_row]. by rewrite idle_no_lapse, Hp.
Qed.

Lemma idle_stop_agrees_witness :
  match ReapStaleSessions (2 * hour_us) 0 sample_idle with
  | (_, inr res) => "rt"%string ∈ res.(rr_StoppedRuntimeIDs)
  | (_, inl _) => False
  end.
Proof.
  pose proof (idle_stop_agrees (2 * hour_us) 0 sample_idle "rt" _ eq_refl eq_refl eq_refl) as H.
  destruct (ReapStaleSessions (2 * hour_us) 0 sample_idle) as [db' [e|res]].
  - apply H. intros sid s Hs. vm_compute in Hs. destruct sid as [|[[] [] [] [] [] [] [] []] ?]; discriminate Hs.
  - apply H; [intros sid s Hs; vm_compute in Hs; destruct sid as [|[[] [] [] [] [] [] [] []] ?]; discriminate Hs|].
    eexists. split; [vm_compute; reflexivity | reflexivity].
Defined.

(** A session that lapsed without a pass puts the stop off: the pass that ends
    the session counts as activity, so the runtime keeps running although the
    announced time has passed. *)
Theorem lapsed_session_delays_stop :
  (∃ t, idle_stop_at (2 * hour_us) sample_silent "rt"
          (default_runtime "acct" "running" 0 <| rt_desired_state := "running"%string |>) = Some t ∧ t < 2 * hour_us)
  ∧ match ReapStaleSessions (2 * hour_us) 0 sample_silent with
    | (_, inr res) => res.(rr_StoppedRuntimeIDs) = []
    | (_, inl _) => False
    end.
Proof. split; [eexists; split; [vm_compute; reflexivity | reflexivity] | vm_compute; reflexivity]. Qed.

(** Logs are bounded.  Adding a line to a runtime's log leaves at most 2000
    lines of it, the newest ones, and does not touch other runtimes' lines. *)
Theorem AppendRuntimeLog_bound now rid source level message db :
  match AppendRuntimeLog now rid source level message db with
  | (db', inr _) =>
    (length (List.filter (λ l, l.(lg_runtime_id) =?s rid) db'.(db_runtime_logs)) ≤ runtimeLogRetentionRows)%nat
    ∧ (∀ l, l ∈ List.filter (λ l, negb (l.(lg_runtime_id) =?s rid)) db'.(db_runtime_logs) ↔
            l ∈ List.filter (λ l, negb (l.(lg_runtime_id) =?s rid))
                  (appendRuntimeLogTX now rid source level message db).1.(db_runtime_logs))
  | (db', inl _) => db' = db ∧ db.(db_runtimes) !! rid = None
  end.
Proof.
  unfold AppendRuntimeLog, atomically, refuse_if, mbind, M_bind, gets, Datatypes.id.
  destruct (db.(db_runtimes) !! rid) as [r|] eqn:Hr; cbn -[keep_newest runtimeLogRetentionRows append_log]; [|done]. split.
  - rewrite (Permutation_length (keep_newest_own _ _ _)), length_fmap, length_take. apply Nat.le_min_l.
  - intros l. by rewrite keep_newest_others.
Qed.
