(* ===== verification/Hosts.v ===== *)
(** * What nodes report and are handed

    Models internal/store/store.go on hosts: heartbeats (5617-5711), reading
    hosts and their readiness (4475-4630), cleanup work picked up by a node
    (5713-5744), the region of an account's runtimes (8728-8809) and the Android
    label (8770-8785); and blob keys on their way to a node: which node gets a
    key (5415-5482) and the lease that carries it (5484-5615). *)

From S2P Require Import Prelude.
From S2P Require Import GoLib.
From S2P Require Import Schema.
From S2P Require Import Common.
From S2P Require Import Registry.
From S2P Require Import Provisioning.
From S2P Require Import Entitlements.
From S2P Require Import Placement.
From S2P Require Import Profiles.
From S2P Require Import Runtimes.
From S2P Require Import Sessions.
Open Scope Z_scope.

(** ** Heartbeats *)

Record HostHeartbeat := MkHostHeartbeat {
  hb_ID : string;
  hb_Name : string;
  hb_AdvertiseAddr : string;
  hb_RelayPort : Z;
  hb_DockerSocket : bool;
  hb_Binder : bool;
  hb_AudioStreaming : bool;
  hb_FileImport : bool;
  hb_CameraPassthrough : bool;
  hb_CameraSlots : Z;
  hb_PublicKey : string;
  hb_BlobStoreKind : string;
  hb_StoragePreflightKind : string;
  hb_StoragePreflightStatus : string;
  hb_StoragePreflightJSON : string;
  hb_StoragePreflightAt : option Z;
  hb_StorageWalletAddress : string;
  hb_PublicAddr : string;
  hb_TLSSPKISHA256 : string;
  hb_Region : string
}.

Definition nullStringValue (value : string) : option string :=
  let trimmed := TrimSpace value in if trimmed =?s "" then None else Some trimmed.

(** [EXCLUDED]: the row the heartbeat describes. *)
Definition heartbeat_row (now : Z) (b : HostHeartbeat) : Host :=
  MkHost b.(hb_Name) b.(hb_AdvertiseAddr) b.(hb_RelayPort) b.(hb_DockerSocket) b.(hb_Binder) b.(hb_AudioStreaming)
    b.(hb_FileImport) b.(hb_CameraPassthrough) (Z.max 0 b.(hb_CameraSlots)) (TrimSpace b.(hb_PublicKey))
    (normalizeChoice b.(hb_BlobStoreKind) "local-disk" ["local-disk"; "sia-indexd"; "sia-renterd"])
    (TrimSpace b.(hb_PublicAddr)) (TrimSpace b.(hb_TLSSPKISHA256)) (TrimSpace b.(hb_Region)) ""
    (nullStringValue b.(hb_StoragePreflightKind)) (nullStringValue b.(hb_StoragePreflightStatus))
    (nullStringValue b.(hb_StoragePreflightJSON)) b.(hb_StoragePreflightAt)
    (nullStringValue b.(hb_StorageWalletAddress)) now now now.

Definition UpsertHostHeartbeat (now : Z) (b : HostHeartbeat) : Tx Host :=
  db ← gets Datatypes.id;
  let x := heartbeat_row now b in
  let h := match db.(db_hosts) !! b.(hb_ID) with
           | None => x
           | Some h => x <| ho_public_key := (if x.(ho_public_key) =?s "" then h.(ho_public_key) else x.(ho_public_key)) |>
                         <| ho_snp_attestation := h.(ho_snp_attestation) |> <| ho_created_at := h.(ho_created_at) |>
           end in
  modify (λ db, db <| db_hosts ::= <[b.(hb_ID) := h]> |>);;
  mret h.

(** ** Hosts *)

Definition ListHosts : Tx (list (string * Host)) :=
  gets (λ db, order_by (λ x y : string * Host, y.2.(ho_last_heartbeat_at) <=? x.2.(ho_last_heartbeat_at))
                (select (λ _ _, true) db.(db_hosts))).

Definition GetHost (hostID : string) : Tx Host :=
  h ← gets (λ db, db.(db_hosts) !! hostID);
  require h ErrNoRows.

Definition HostPublicKey (hostID : string) : Tx string :=
  let hostID := TrimSpace hostID in
  refuse_if (hostID =?s "") ErrHostNotFound;;
  h ← gets (λ db, db.(db_hosts) !! hostID);
  h ← require h ErrHostNotFound;
  mret (TrimSpace h.(ho_public_key)).

Record NodeReadiness := MkNodeReadiness {
  nr_ObservedNodes : nat; nr_ApprovedNodes : nat; nr_ReadyNodes : nat; nr_StaleNodes : nat; nr_Ready : bool }.

Definition Readiness (now : Z) : Tx NodeReadiness :=
  db ← gets Datatypes.id;
  let ready := count_where (host_ready now db) db.(db_hosts) in
  mret (MkNodeReadiness
    (count_where (λ _ _, true) db.(db_hosts))
    (count_where (λ id h, trusts now db id h.(ho_public_key)) db.(db_hosts))
    ready
    (count_where (λ _ h, h.(ho_last_heartbeat_at) <? now - heartbeat_window) db.(db_hosts))
    (0 <? ready)%nat).

(** ** Cleanup nobody holds *)

(** A remote snapshot of a runtime to be deleted that no node holds, and which
    this node may work for. *)
Definition unclaimed_cleanup (hostID blobStoreKind : string) (db : Db) (_ : string) (r : Runtime) : bool :=
  is_null r.(rt_host_id) && is_null r.(rt_blob_host_id) && rt_live r && (r.(rt_desired_state) =?s "deleted")
  && present r.(rt_blob_manifest_json) && (ToLower (store_kind r.(rt_blob_store_kind)) =?s blobStoreKind)
  && match db.(db_vms) !! hostID with
     | Some v => null_eqb v.(vm_account_id) r.(rt_account_id)
     | None => true
     end.

Definition claim_row (now : Z) (hostID : string) (r : Runtime) : Runtime :=
  r <| rt_host_id := Some hostID |> <| rt_status := "deleting"%string |> <| rt_connection_status := "offline"%string |>
    <| rt_updated_at := now |>.

Definition AssignPendingRemoteRuntimeCleanup (now : Z) (hostID blobStoreKind : string) : Tx nat :=
  let hostID := TrimSpace hostID in
  let blobStoreKind := ToLower (TrimSpace blobStoreKind) in
  if (hostID =?s "") || (blobStoreKind =?s "") || (blobStoreKind =?s "local-disk") then mret 0%nat
  else
    db ← gets Datatypes.id;
    modify (λ db0, db0 <| db_runtimes ::= update_where (unclaimed_cleanup hostID blobStoreKind db) (claim_row now hostID) |>);;
    mret (count_where (unclaimed_cleanup hostID blobStoreKind db) db.(db_runtimes)).

(** ** Regions and Android labels *)

Definition SetAccountRuntimeRegion (accountID region : string) : Tx unit :=
  let region := ToLower (TrimSpace region) in
  refuse_if (negb (ValidRegion region)) (ErrText "invalid region");;
  db ← gets Datatypes.id;
  a ← require (db.(db_accounts) !! TrimSpace accountID) ErrAccountNotFound;
  refuse_if (not_null a.(ac_deleted_at)) ErrAccountNotFound;;
  modify (λ db, db <| db_accounts ::= <[TrimSpace accountID := a <| ac_runtime_region := region |>]> |>).

Definition mislabelled (version image : string) (_ : string) (r : Runtime) : bool :=
  rt_live r && (negb (r.(rt_android_version) =?s version) || negb (r.(rt_android_image) =?s image)).

(** [runtimeAndroidVersion] is what [SetRuntimeAndroidVersion] stored. *)
Definition RelabelRuntimesAndroid (runtimeAndroidVersion : string) : Tx nat :=
  let version := deployedAndroidVersion runtimeAndroidVersion in
  let image := coalesce (android_image version) ""%string in
  db ← gets Datatypes.id;
  modify (λ db, db <| db_runtimes ::= update_where (mislabelled version image)
    (λ r, r <| rt_android_version := version |> <| rt_android_image := image |>) |>);;
  mret (count_where (mislabelled version image) db.(db_runtimes)).

(** ** Blob keys *)

(** The [switch] on the operation. *)
Definition key_host (now : Z) (runtimeID operation : string) (r : Runtime) : Tx string :=
  if operation =?s "start" then runtimeStartHostTX now runtimeID r
  else if containsString ["stop"; "wipe"; "delete"] operation then runtimeCleanupHostTX now r
  else if operation =?s "session" then
    refuse_if (negb (ready_to_view r)) ErrRuntimeNotReady;;
    let hostID := valueOrEmpty r.(rt_host_id) in
    refuse_if (hostID =?s "") ErrRuntimeNotReady;;
    mret hostID
  else throw ErrRuntimeNotReady.

(** The host with its key, which may not be blank. *)
Definition keyed_host (now : Z) (hostID : string) : Tx (string * Host) :=
  host ← getBlobKeyHostTX now hostID;
  refuse_if (TrimSpace host.2.(ho_public_key) =?s "") ErrHostNotFound;;
  mret host.

(** The node that gets the key for an operation on a runtime. *)
Definition RuntimeBlobKeyTarget (now : Z) (accountID runtimeID operation : string) : Tx (Runtime * (string * Host)) :=
  let accountID := TrimSpace accountID in
  let runtimeID := TrimSpace runtimeID in
  let operation := ToLower (TrimSpace operation) in
  refuse_if ((accountID =?s "") || (runtimeID =?s "")) ErrRuntimeNotFound;;
  atomically (
    db ← gets Datatypes.id;
    r ← require (own_runtime accountID runtimeID db) ErrRuntimeNotFound;
    hostID ← key_host now runtimeID operation r;
    host ← keyed_host now hostID;
    mret (r, host)).

Record RuntimeBlobKeyHandoff := MkBlobKeyHandoff {
  bh_AccountID : string;
  bh_RuntimeID : string;
  bh_HostID : string;
  bh_Operation : string;
  bh_LeaseID : string;
  bh_EnvelopeJSON : string;
  bh_BlobKeyVerifier : string;
  bh_ExpiresAt : Z
}.
#[export] Instance RuntimeBlobKeyHandoff_eta : Eta RuntimeBlobKeyHandoff :=
  λ r, MkBlobKeyHandoff r.(bh_AccountID) r.(bh_RuntimeID) r.(bh_HostID) r.(bh_Operation) r.(bh_LeaseID)
    r.(bh_EnvelopeJSON) r.(bh_BlobKeyVerifier) r.(bh_ExpiresAt).

Definition trim_handoff (h : RuntimeBlobKeyHandoff) : RuntimeBlobKeyHandoff :=
  h <| bh_AccountID ::= TrimSpace |> <| bh_RuntimeID ::= TrimSpace |> <| bh_HostID ::= TrimSpace |>
    <| bh_Operation ::= TrimSpace |> <| bh_LeaseID ::= TrimSpace |>.

Lemma handoff_ext (h h' : RuntimeBlobKeyHandoff) :
  h.(bh_AccountID) = h'.(bh_AccountID) → h.(bh_RuntimeID) = h'.(bh_RuntimeID) → h.(bh_HostID) = h'.(bh_HostID) →
  h.(bh_Operation) = h'.(bh_Operation) → h.(bh_LeaseID) = h'.(bh_LeaseID) → h.(bh_EnvelopeJSON) = h'.(bh_EnvelopeJSON) →
  h.(bh_BlobKeyVerifier) = h'.(bh_BlobKeyVerifier) → h.(bh_ExpiresAt) = h'.(bh_ExpiresAt) → h = h'.
Proof. destruct h, h'; cbn; congruence. Qed.

(** [strings.TrimSpace] of every text of a key that is activated. *)
Definition trim_key (h : RuntimeBlobKeyHandoff) : RuntimeBlobKeyHandoff :=
  trim_handoff h <| bh_EnvelopeJSON ::= TrimSpace |> <| bh_BlobKeyVerifier ::= TrimSpace |>.

Definition lease_incomplete (h : RuntimeBlobKeyHandoff) : bool :=
  (h.(bh_AccountID) =?s "") || (h.(bh_RuntimeID) =?s "") || (h.(bh_HostID) =?s "") || (h.(bh_Operation) =?s "")
  || (h.(bh_LeaseID) =?s "").

(** A lease replaces the runtime's earlier one and drops its envelope. *)
Definition PutRuntimeBlobKeyLease (now : Z) (handoff : RuntimeBlobKeyHandoff) : Tx unit :=
  let handoff := trim_handoff handoff in
  refuse_if (lease_incomplete handoff || negb (now <? handoff.(bh_ExpiresAt))) ErrRuntimeBlobKeyHandoff;;
  db ← gets Datatypes.id;
  r ← require (own_runtime handoff.(bh_AccountID) handoff.(bh_RuntimeID) db) ErrRuntimeBlobKeyHandoff;
  let created := match db.(db_handoffs) !! handoff.(bh_RuntimeID) with Some old => old.(hf_created_at) | None => now end in
  modify (λ db, db <| db_handoffs ::= <[handoff.(bh_RuntimeID) :=
    MkHandoff r.(rt_account_id) handoff.(bh_HostID) handoff.(bh_Operation) handoff.(bh_LeaseID) None None
      handoff.(bh_ExpiresAt) None created now]> |>).

(** The row of a lease that has not expired. *)
Definition lease_matches (now : Z) (h : RuntimeBlobKeyHandoff) (row : Handoff) : bool :=
  (row.(hf_account_id) =?s h.(bh_AccountID)) && (row.(hf_host_id) =?s h.(bh_HostID))
  && (row.(hf_operation) =?s h.(bh_Operation)) && (row.(hf_lease_id) =?s h.(bh_LeaseID)) && (now <? row.(hf_expires_at)).

(** The row once the key is in. *)
Definition activated_row (now : Z) (key : RuntimeBlobKeyHandoff) (row : Handoff) : Handoff :=
  row <| hf_envelope_json := Some key.(bh_EnvelopeJSON) |> <| hf_blob_key_verifier := Some key.(bh_BlobKeyVerifier) |>
      <| hf_activated_at := Some now |> <| hf_updated_at := now |>.

Definition ActivateRuntimeBlobKeyHandoff (now : Z) (handoff : RuntimeBlobKeyHandoff) : Tx RuntimeBlobKeyHandoff :=
  let handoff := trim_key handoff in
  refuse_if (lease_incomplete handoff || (handoff.(bh_EnvelopeJSON) =?s "") || (handoff.(bh_BlobKeyVerifier) =?s ""))
    ErrRuntimeBlobKeyHandoff;;
  db ← gets Datatypes.id;
  row ← require (db.(db_handoffs) !! handoff.(bh_RuntimeID)) ErrRuntimeBlobKeyHandoff;
  refuse_if (negb (lease_matches now handoff row)) ErrRuntimeBlobKeyHandoff;;
  modify (λ db, db <| db_handoffs ::= <[handoff.(bh_RuntimeID) := activated_row now handoff row]> |>);;
  mret (handoff <| bh_ExpiresAt := row.(hf_expires_at) |>).

Definition GetRuntimeBlobKeyHandoff (now : Z) (runtimeID hostID : string) : Tx RuntimeBlobKeyHandoff :=
  let runtimeID := TrimSpace runtimeID in
  db ← gets Datatypes.id;
  row ← require (db.(db_handoffs) !! runtimeID) ErrRuntimeBlobKeyHandoff;
  refuse_if (negb ((row.(hf_host_id) =?s TrimSpace hostID) && (now <? row.(hf_expires_at))
                   && present row.(hf_envelope_json) && present row.(hf_blob_key_verifier))) ErrRuntimeBlobKeyHandoff;;
  mret (MkBlobKeyHandoff row.(hf_account_id) runtimeID row.(hf_host_id) row.(hf_operation) row.(hf_lease_id)
          (coalesce row.(hf_envelope_json) ""%string) (coalesce row.(hf_blob_key_verifier) ""%string) row.(hf_expires_at)).

Definition ClearRuntimeBlobKeyHandoff (runtimeID : string) : Tx unit :=
  modify (λ db, db <| db_handoffs ::= delete (TrimSpace runtimeID) |>).

Definition ClearAccountBlobKeyHandoffs (accountID : string) : Tx unit :=
  modify (λ db, db <| db_handoffs ::= delete_where (λ _ h, h.(hf_account_id) =?s TrimSpace accountID) |>).


(** ** Facts *)

Lemma present_trimmed s : TrimSpace s ≠ ""%string → present (Some (TrimSpace s)) = true.
Proof.
  intros Hs%pg_trim_nonempty. unfold present. by apply negb_true_iff, str_eqb_neq.
Qed.

(** *** The life of a lease *)

Inductive key_op :=
| PutLease (now : Z) (lease : RuntimeBlobKeyHandoff)
| Activate (now : Z) (key : RuntimeBlobKeyHandoff)
| ClearRuntime (runtimeID : string)
| ClearAccount (accountID : string).

Definition run_key_op (o : key_op) : Tx unit :=
  match o with
  | PutLease now lease => PutRuntimeBlobKeyLease now lease
  | Activate now key => _ ← ActivateRuntimeBlobKeyHandoff now key; mret tt
  | ClearRuntime runtimeID => ClearRuntimeBlobKeyHandoff runtimeID
  | ClearAccount accountID => ClearAccountBlobKeyHandoffs accountID
  end.

(** What was done to the leases, oldest first: operations that succeeded, and
    in between anything that at most drops leases, such as the deletion of a
    runtime, of an account or of expired leases. *)
Inductive key_history : list key_op → Db → Prop :=
| key_start db : db.(db_handoffs) = ∅ → key_history [] db
| key_done log o db db' : key_history log db → run_key_op o db = (db', inr tt) → key_history (log ++ [o]) db'
| key_other log db db' : key_history log db → db'.(db_handoffs) ⊆ db.(db_handoffs) → key_history log db'.

Definition leases_runtime (rid : string) (o : key_op) : Prop :=
  match o with PutLease _ lease => TrimSpace lease.(bh_RuntimeID) = rid | _ => False end.
Definition keys_runtime (rid : string) (o : key_op) : Prop :=
  match o with
  | PutLease _ h | Activate _ h => TrimSpace h.(bh_RuntimeID) = rid
  | _ => False
  end.

(** The row holds this lease, but for its key and its expiry. *)
Definition row_of_lease (rid : string) (h : RuntimeBlobKeyHandoff) (row : Handoff) : Prop :=
  TrimSpace h.(bh_RuntimeID) = rid ∧ TrimSpace h.(bh_AccountID) = row.(hf_account_id)
  ∧ TrimSpace h.(bh_HostID) = row.(hf_host_id) ∧ TrimSpace h.(bh_Operation) = row.(hf_operation)
  ∧ TrimSpace h.(bh_LeaseID) = row.(hf_lease_id).

(** The lease of the row is the last one put for the runtime, and its key, if it
    has one, the last one activated under it. *)
Definition explained (log : list key_op) (rid : string) (row : Handoff) : Prop :=
  ∃ before t lease rest,
    log = before ++ PutLease t lease :: rest
    ∧ row_of_lease rid lease row ∧ lease.(bh_ExpiresAt) = row.(hf_expires_at)
    ∧ Forall (λ o, ¬ leases_runtime rid o) rest
    ∧ (row.(hf_envelope_json) = None
       ∨ ∃ middle t' key after, rest = middle ++ Activate t' key :: after
           ∧ row_of_lease rid key row ∧ t' < row.(hf_expires_at)
           ∧ row.(hf_envelope_json) = Some (TrimSpace key.(bh_EnvelopeJSON))
           ∧ row.(hf_blob_key_verifier) = Some (TrimSpace key.(bh_BlobKeyVerifier))
           ∧ Forall (λ o, ¬ keys_runtime rid o) after).

Lemma explained_other log o rid row : ¬ keys_runtime rid o → explained log rid row → explained (log ++ [o]) rid row.
Proof.
  intros Ho (before & t & lease & rest & -> & Hl & He & Hr & Hk).
  assert (¬ leases_runtime rid o) by (destruct o; cbn in *; tauto).
  exists before, t, lease, (rest ++ [o]). rewrite <-app_assoc. split_and!; [done..| |].
  - by apply Forall_app_2, Forall_singleton.
  - destruct Hk as [Hk|(middle & t' & key & after & -> & Hk & Ht & E1 & E2 & Ha)]; [by left|]. right.
    exists middle, t', key, (after ++ [o]). rewrite <-app_assoc. split_and!; try done. by apply Forall_app_2, Forall_singleton.
Qed.

(** A lease that is put starts afresh. *)
Lemma put_wp now lease db :
  wp (PutRuntimeBlobKeyLease now lease)
     (λ _ db', ∃ row, db'.(db_handoffs) = <[TrimSpace lease.(bh_RuntimeID) := row]> db.(db_handoffs)
        ∧ row_of_lease (TrimSpace lease.(bh_RuntimeID)) lease row ∧ row.(hf_expires_at) = lease.(bh_ExpiresAt)
        ∧ row.(hf_envelope_json) = None ∧ row.(hf_blob_key_verifier) = None)
     (λ e db', db' = db ∧ e = ErrRuntimeBlobKeyHandoff) db.
Proof.
  unfold PutRuntimeBlobKeyLease. wp_steps; try done. eexists. split; [done|].
  match goal with H : own_runtime _ _ _ = Some _ |- _ => apply own_runtime_Some in H as [_ H];
    unfold kept_runtime in H; apply andb_true_iff in H as [[Ha%str_eqb_eq _]%andb_true_iff _] end.
  unfold row_of_lease. by split_and!.
Qed.

(** A key is stored under the lease it names, while that one lasts. *)
Lemma activate_wp now key db :
  wp (ActivateRuntimeBlobKeyHandoff now key)
     (λ h db', ∃ row, db.(db_handoffs) !! TrimSpace key.(bh_RuntimeID) = Some row
        ∧ row_of_lease (TrimSpace key.(bh_RuntimeID)) key row ∧ now < row.(hf_expires_at)
        ∧ TrimSpace key.(bh_EnvelopeJSON) ≠ ""%string ∧ TrimSpace key.(bh_BlobKeyVerifier) ≠ ""%string
        ∧ db'.(db_handoffs) = <[TrimSpace key.(bh_RuntimeID) := activated_row now (trim_key key) row]> db.(db_handoffs))
     (λ e db', db' = db ∧ e = ErrRuntimeBlobKeyHandoff) db.
Proof.
  unfold ActivateRuntimeBlobKeyHandoff. wp_steps; try done.
  rename a into row. exists row. repeat match goal with H : _ || _ = false |- _ => apply orb_false_iff in H as [? ?] end.
  unfold lease_matches in *. repeat match goal with
    | H : negb _ = false |- _ => apply negb_false_iff in H
    | H : _ && _ = true |- _ => apply andb_true_iff in H as [? ?]
    | H : (_ =?s _) = true |- _ => apply str_eqb_eq in H
    | H : (_ =?s _) = false |- _ => apply str_eqb_neq in H
    end.
  unfold row_of_lease. cbn in *. split_and!; try done. lia.
Qed.

Lemma clear_wp o db :
  match o with ClearRuntime _ | ClearAccount _ => True | _ => False end →
  wp (run_key_op o) (λ _ db', db'.(db_handoffs) ⊆ db.(db_handoffs)) (λ _ _, True) db.
Proof.
  destruct o as [| |r|a]; try done; intros _; cbn [run_key_op].
  - unfold ClearRuntimeBlobKeyHandoff. wp_steps. apply delete_subseteq.
  - unfold ClearAccountBlobKeyHandoffs. wp_steps. cbn. apply map_subseteq_spec. intros k x [? _]%lookup_delete_where. done.
Qed.

Definition all_explained (log : list key_op) (db : Db) : Prop :=
  ∀ rid row, db.(db_handoffs) !! rid = Some row → explained log rid row.

Lemma put_explained log now lease db db' :
  all_explained log db → PutRuntimeBlobKeyLease now lease db = (db', inr tt) → all_explained (log ++ [PutLease now lease]) db'.
Proof.
  intros IH Hrun rid row Hrow.
  pose proof (wp_run _ _ _ _ _ _ (put_wp now lease db) Hrun) as (row' & E & Hl & He & Hn1 & Hn2). rewrite E in Hrow.
  apply lookup_insert_Some in Hrow as [[<- <-]|[Hne Hrow]]; [|by apply explained_other; [|apply IH]].
  exists log, now, lease, []. split_and!; try done. by left.
Qed.

Lemma activate_explained log now key db db' h :
  all_explained log db → ActivateRuntimeBlobKeyHandoff now key db = (db', inr h) → all_explained (log ++ [Activate now key]) db'.
Proof.
  intros IH Hrun rid row Hrow.
  pose proof (wp_run _ _ _ _ _ _ (activate_wp now key db) Hrun) as (row' & Hr' & Hl & He & _ & _ & E). rewrite E in Hrow.
  apply lookup_insert_Some in Hrow as [[<- <-]|[Hne Hrow]]; [|by apply explained_other; [|apply IH]].
  destruct (IH _ _ Hr') as (before & t & lease & rest & -> & Hl' & He' & Hr & _).
  exists before, t, lease, (rest ++ [Activate now key]). rewrite <-app_assoc. split_and!; try done.
  - apply Forall_app_2; [done|]. apply Forall_singleton. intros [].
  - right. exists rest, now, key, []. by split_and!.
Qed.

Lemma clear_explained log o db db' :
  match o with ClearRuntime _ | ClearAccount _ => True | _ => False end →
  all_explained log db → run_key_op o db = (db', inr tt) → all_explained (log ++ [o]) db'.
Proof.
  intros Ho IH Hrun rid row Hrow. apply explained_other; [by destruct o; intros ?|]. apply IH.
  by eapply lookup_weaken, (wp_run _ _ _ _ _ _ (clear_wp o db Ho) Hrun).
Qed.

Lemma run_put now lease : run_key_op (PutLease now lease) = PutRuntimeBlobKeyLease now lease.
Proof. reflexivity. Qed.
Lemma run_activate now key :
  run_key_op (Activate now key) = (_ ← ActivateRuntimeBlobKeyHandoff now key; mret tt).
Proof. reflexivity. Qed.

Lemma key_op_explained log o db db' :
  all_explained log db → run_key_op o db = (db', inr tt) → all_explained (log ++ [o]) db'.
Proof.
  intros IH Hrun. destruct o as [now lease|now key|r|a].
  - rewrite run_put in Hrun. exact (put_explained _ _ _ _ _ IH Hrun).
  - rewrite run_activate in Hrun. apply bind_inv in Hrun as (db1 & h & Hrun & Hret).
    assert (db1 = db') as <- by exact (f_equal fst Hret). exact (activate_explained _ _ _ _ _ _ IH Hrun).
  - exact (clear_explained _ (ClearRuntime r) _ _ I IH Hrun).
  - exact (clear_explained _ (ClearAccount a) _ _ I IH Hrun).
Qed.

Lemma history_explained log db : key_history log db → all_explained log db.
Proof.
  induction 1 as [db E|log o db db' _ IH Hrun|log db db' _ IH Hsub].
  - intros rid row Hrow. by rewrite E in Hrow.
  - exact (key_op_explained _ _ _ _ IH Hrun).
  - intros rid row Hrow. by eapply IH, lookup_weaken.
Qed.

Lemma get_wp now rid host db :
  wp (GetRuntimeBlobKeyHandoff now rid host)
     (λ h db', db' = db ∧ ∃ row env ver, db.(db_handoffs) !! TrimSpace rid = Some row
        ∧ row.(hf_host_id) = TrimSpace host ∧ now < row.(hf_expires_at)
        ∧ row.(hf_envelope_json) = Some env ∧ row.(hf_blob_key_verifier) = Some ver
        ∧ h = MkBlobKeyHandoff row.(hf_account_id) (TrimSpace rid) row.(hf_host_id) row.(hf_operation) row.(hf_lease_id)
                env ver row.(hf_expires_at))
     (λ e db', db' = db ∧ e = ErrRuntimeBlobKeyHandoff) db.
Proof.
  unfold GetRuntimeBlobKeyHandoff. wp_steps; try done. split; [done|]. rename a into row.
  match goal with H : negb _ = false |- _ => apply negb_false_iff in H;
    apply andb_true_iff in H as [[[Hh%str_eqb_eq Ht%Z.ltb_lt]%andb_true_iff He]%andb_true_iff Hv] end.
  destruct (hf_envelope_json row) as [env|] eqn:Ee; [|done]. destruct (hf_blob_key_verifier row) as [ver|] eqn:Ev; [|done].
  by exists row, env, ver.
Qed.

(** What a node is handed when a lease has its key. *)
Definition delivered (lease key : RuntimeBlobKeyHandoff) : RuntimeBlobKeyHandoff :=
  trim_key key <| bh_ExpiresAt := lease.(bh_ExpiresAt) |>.

Definition same_lease (lease key : RuntimeBlobKeyHandoff) : Prop :=
  TrimSpace key.(bh_RuntimeID) = TrimSpace lease.(bh_RuntimeID)
  ∧ TrimSpace key.(bh_AccountID) = TrimSpace lease.(bh_AccountID)
  ∧ TrimSpace key.(bh_HostID) = TrimSpace lease.(bh_HostID)
  ∧ TrimSpace key.(bh_Operation) = TrimSpace lease.(bh_Operation)
  ∧ TrimSpace key.(bh_LeaseID) = TrimSpace lease.(bh_LeaseID).

(** Reading a row that has its key. *)
Lemma get_run now rid host db row env ver :
  db.(db_handoffs) !! TrimSpace rid = Some row →
  row.(hf_envelope_json) = Some (TrimSpace env) → row.(hf_blob_key_verifier) = Some (TrimSpace ver) →
  TrimSpace env ≠ ""%string → TrimSpace ver ≠ ""%string →
  GetRuntimeBlobKeyHandoff now rid host db =
  (db, if (row.(hf_host_id) =?s TrimSpace host) && (now <? row.(hf_expires_at))
       then inr (MkBlobKeyHandoff row.(hf_account_id) (TrimSpace rid) row.(hf_host_id) row.(hf_operation) row.(hf_lease_id)
                   (TrimSpace env) (TrimSpace ver) row.(hf_expires_at))
       else inl ErrRuntimeBlobKeyHandoff).
Proof.
  intros Hrow He Hv Henv Hver. unfold GetRuntimeBlobKeyHandoff, mbind, M_bind, gets, require, refuse_if, Datatypes.id.
  rewrite Hrow. unfold mret, M_ret. rewrite He, Hv, !present_trimmed, !andb_true_r by done. by destruct (_ && _).
Qed.

(** A lease that is put is complete. *)
Lemma put_complete now lease db db' :
  PutRuntimeBlobKeyLease now lease db = (db', inr tt) → lease_incomplete (trim_handoff lease) = false.
Proof.
  intros H. eapply (wp_run _ (λ _ _, lease_incomplete (trim_handoff lease) = false) (λ _ _, True)) in H; [done|].
  unfold PutRuntimeBlobKeyLease. wp_steps; try done.
  match goal with H : _ || _ = false |- _ => by apply orb_false_iff in H as [? _] end.
Qed.

(** A key under the lease of the row is taken. *)
Lemma activate_run t lease key row db :
  db.(db_handoffs) !! TrimSpace lease.(bh_RuntimeID) = Some row →
  row_of_lease (TrimSpace lease.(bh_RuntimeID)) lease row → row.(hf_expires_at) = lease.(bh_ExpiresAt) →
  lease_incomplete (trim_handoff lease) = false → same_lease lease key → t < lease.(bh_ExpiresAt) →
  TrimSpace key.(bh_EnvelopeJSON) ≠ ""%string → TrimSpace key.(bh_BlobKeyVerifier) ≠ ""%string →
  wp (ActivateRuntimeBlobKeyHandoff t key)
     (λ h db', h = delivered lease key
        ∧ db'.(db_handoffs) !! TrimSpace lease.(bh_RuntimeID) = Some (activated_row t (trim_key key) row)) (λ _ _, False) db.
Proof.
  intros Hrow (_ & L2 & L3 & L4 & L5) He Hfull (S1 & S2 & S3 & S4 & S5) Ht Henv Hver.
  assert (Hk : lease_incomplete (trim_key key) = false).
  { unfold lease_incomplete, trim_key in *. cbn in *. by rewrite S1, S2, S3, S4, S5. }
  assert (Hid : bh_RuntimeID (trim_key key) = TrimSpace lease.(bh_RuntimeID)) by done.
  assert (Hm : lease_matches t (trim_key key) row = true).
  { unfold lease_matches. cbn. rewrite S2, S3, S4, S5, L2, L3, L4, L5, He, !str_eqb_refl. by apply Z.ltb_lt. }
  unfold ActivateRuntimeBlobKeyHandoff. wp_steps.
  - rewrite Hk, !(proj2 (str_eqb_neq _ _)) in * by done. done.
  - rewrite Hid, Hrow in *. simplify_eq. by rewrite Hm in *.
  - rewrite Hid, Hrow in *. simplify_eq. split.
    + apply handoff_ext; try done.
    + cbn -[activated_row trim_key]. by rewrite lookup_insert_eq.
  - by rewrite Hid, Hrow in *.
Qed.

(** Where a key goes, by operation. *)
Definition key_node (now : Z) (db : Db) (rid : string) (r : Runtime) (op chosen : string) : Prop :=
  op = "start"%string ∧ (∃ h, may_serve now db rid r chosen h)
  ∨ op = "session"%string ∧ ready_to_view r = true ∧ chosen = valueOrEmpty r.(rt_host_id) ∧ chosen ≠ ""%string
  ∨ op ∈ ["stop"; "wipe"; "delete"]%string
    ∧ (chosen = valueOrEmpty r.(rt_host_id) ∧ chosen ≠ ""%string
       ∨ valueOrEmpty r.(rt_host_id) = ""%string
         ∧ (chosen = valueOrEmpty r.(rt_blob_host_id) ∧ chosen ≠ ""%string
            ∨ valueOrEmpty r.(rt_blob_host_id) = ""%string ∧ runtimeUsesNodeLocalBlob r = false
              ∧ ∃ h, cleanup_candidate now db r.(rt_account_id) chosen h = true)).

Lemma start_node_wp now rid r db :
  wp (runtimeStartHostTX now rid r)
     (λ chosen db', db' = db ∧ ∃ h, may_serve now db rid r chosen h)
     (λ e db', db' = db ∧ (e = ErrNoReadyHost ∨ e = ErrRuntimeBlobOwner)) db.
Proof.
  assert (Hpick : ∀ preferred, wp (pickReadyRuntimeHostTX now preferred rid r)
    (λ chosen db', db' = db ∧ ∃ h, may_serve now db rid r chosen h)
    (λ e db', db' = db ∧ (e = ErrNoReadyHost ∨ e = ErrRuntimeBlobOwner)) db).
  { intros preferred. pose proof (pickReadyRuntimeHost_run now preferred rid r db) as H. unfold wp.
    destruct (pickReadyRuntimeHostTX _ _ _ _ _) as [db' [e|id]]; unfold picked in H; naive_solver. }
  unfold runtimeStartHostTX. wp_steps; auto.
  destruct (requireReadyRuntimeHost_run now (valueOrEmpty r.(rt_blob_host_id)) rid r db) as [(h & Hs & _ & E)|[_ E]];
    unfold wp; rewrite E; eauto.
Qed.

Lemma cleanup_node_wp now rid r op db :
  op ∈ ["stop"; "wipe"; "delete"]%string →
  wp (runtimeCleanupHostTX now r) (λ chosen db', db' = db ∧ key_node now db rid r op chosen)
     (λ e db', db' = db ∧ (e = ErrNoReadyHost ∨ e = ErrRuntimeBlobOwner)) db.
Proof.
  intros Hop. unfold runtimeCleanupHostTX, pickCleanupHostTX. wp_steps; auto.
  all: repeat match goal with
    | H : negb _ = true |- _ => apply negb_true_iff, str_eqb_neq in H
    | H : negb _ = false |- _ => apply negb_false_iff, str_eqb_eq in H
    end; split; [done|]; right; right; split; [done|]; auto.
  right. split; [done|]. right. split_and!; [done..|].
  match goal with H : newest_host _ _ = Some _ |- _ => apply newest_host_Some in H as (h & _ & Hc & _) end. eauto.
Qed.

(** What the choice may fail with. *)
Definition key_refusal (e : Err) : Prop :=
  e ∈ [ErrRuntimeNotFound; ErrRuntimeNotReady; ErrHostNotFound; ErrNoReadyHost; ErrRuntimeBlobOwner].

Lemma key_host_wp now rid op r db :
  wp (key_host now rid op r) (λ chosen db', db' = db ∧ key_node now db rid r op chosen)
     (λ e db', db' = db ∧ key_refusal e) db.
Proof.
  unfold key_host, key_refusal. wp_steps; try (split; [done|]; set_solver).
  - eapply wp_mono; [apply start_node_wp | |]; [|set_solver].
    intros chosen db' [-> Hs]. split; [done|]. left. split; [by apply str_eqb_eq | done].
  - eapply wp_mono; [eapply (cleanup_node_wp now rid r op) | |]; [|done|set_solver].
    match goal with H : containsString _ _ = true |- _ => apply existsb_exists in H as (o & Ho & <-%str_eqb_eq) end.
    by apply list_elem_of_In.
  - split; [done|]. right. left. split_and!; [by apply str_eqb_eq | by apply negb_false_iff | done | by apply str_eqb_neq].
Qed.

Lemma keyed_host_wp now chosen db :
  wp (keyed_host now chosen)
     (λ host db', db' = db ∧ host.1 = TrimSpace chosen ∧ db.(db_hosts) !! host.1 = Some host.2
        ∧ trusted_node now db host.1 host.2 ∧ TrimSpace host.2.(ho_public_key) ≠ ""%string)
     (λ e db', db' = db ∧ key_refusal e) db.
Proof.
  unfold keyed_host, getBlobKeyHostTX, key_refusal. wp_steps; try (split; [done|]; set_solver). cbn [fst snd] in *.
  match goal with H : negb (trusts _ _ _ _) = false |- _ => apply negb_false_iff in H; rename H into Ht end.
  split_and!; try done; [|by apply str_eqb_neq]. split; [by apply trusts_authorized|].
  intros Hrev. by rewrite (trusts_revoked _ _ _ _ Hrev) in Ht.
Qed.

(** A read from its result alone. *)
Lemma get_result now rid host db res :
  (GetRuntimeBlobKeyHandoff now rid host db).2 = res → GetRuntimeBlobKeyHandoff now rid host db = (db, res).
Proof.
  intros <-. pose proof (get_wp now rid host db) as Hw. unfold wp in Hw.
  destruct (GetRuntimeBlobKeyHandoff now rid host db) as [db' [e|h]]; by destruct Hw as [-> _].
Qed.

Lemma no_key_no_read now rid host db row :
  db.(db_handoffs) !! TrimSpace rid = Some row → row.(hf_envelope_json) = None →
  GetRuntimeBlobKeyHandoff now rid host db = (db, inl ErrRuntimeBlobKeyHandoff).
Proof.
  intros Hrow Hn. pose proof (get_wp now rid host db) as Hw. unfold wp in Hw.
  destruct (GetRuntimeBlobKeyHandoff now rid host db) as [db' [e|h]]; [by destruct Hw as [-> ->]|].
  destruct Hw as (_ & row' & env & ver & Hrow' & _ & _ & He & _). congruence.
Qed.

Lemma delivered_read t lease key row db :
  db.(db_handoffs) !! TrimSpace lease.(bh_RuntimeID) = Some (activated_row t (trim_key key) row) →
  row_of_lease (TrimSpace lease.(bh_RuntimeID)) lease row → row.(hf_expires_at) = lease.(bh_ExpiresAt) →
  same_lease lease key → TrimSpace key.(bh_EnvelopeJSON) ≠ ""%string → TrimSpace key.(bh_BlobKeyVerifier) ≠ ""%string →
  ∀ at_ host, GetRuntimeBlobKeyHandoff at_ lease.(bh_RuntimeID) host db =
    (db, if (TrimSpace lease.(bh_HostID) =?s TrimSpace host) && (at_ <? lease.(bh_ExpiresAt))
         then inr (delivered lease key) else inl ErrRuntimeBlobKeyHandoff).
Proof.
  intros Hrow (L1 & L2 & L3 & L4 & L5) He (S1 & S2 & S3 & S4 & S5) Henv Hver at_ host.
  assert (H1 : hf_envelope_json (activated_row t (trim_key key) row) = Some (TrimSpace key.(bh_EnvelopeJSON))) by done.
  assert (H2 : hf_blob_key_verifier (activated_row t (trim_key key) row) = Some (TrimSpace key.(bh_BlobKeyVerifier))) by done.
  rewrite (get_run _ _ _ _ _ _ _ Hrow H1 H2 Henv Hver).
  assert (H3 : hf_host_id (activated_row t (trim_key key) row) = TrimSpace lease.(bh_HostID)) by done.
  assert (H4 : hf_expires_at (activated_row t (trim_key key) row) = lease.(bh_ExpiresAt)) by done.
  rewrite H3, H4. destruct (_ && _); [|done]. do 2 f_equal. apply handoff_ext; cbn; congruence.
Qed.

(** ** Properties *)

(** A lease for the sample runtime and the key that goes with it. *)
Definition sample_lease : RuntimeBlobKeyHandoff :=
  MkBlobKeyHandoff "acct" "rt" "node-1" "start" "lease-1" "" "" 1000.
Definition sample_blob_key : RuntimeBlobKeyHandoff :=
  sample_lease <| bh_EnvelopeJSON := "{sealed}"%string |> <| bh_BlobKeyVerifier := "verifier"%string |>.
Definition sample_leased : Db := (PutRuntimeBlobKeyLease 100 sample_lease sample_runtimes).1.
Definition sample_keyed : Db := (ActivateRuntimeBlobKeyHandoff 200 sample_blob_key sample_leased).1.

Lemma sample_lease_put : PutRuntimeBlobKeyLease 100 sample_lease sample_runtimes = (sample_leased, inr tt).
Proof. exact (run_of (PutRuntimeBlobKeyLease 100 sample_lease) sample_runtimes (inr tt) eq_refl). Qed.
Lemma sample_key_in :
  ActivateRuntimeBlobKeyHandoff 200 sample_blob_key sample_leased = (sample_keyed, inr sample_blob_key).
Proof. exact (run_of (ActivateRuntimeBlobKeyHandoff 200 sample_blob_key) sample_leased (inr sample_blob_key) eq_refl). Qed.

(** C28: A node is handed a blob key only under a lease in its name.  Whatever was
    done to the leases, what a node is handed for a runtime is the last lease put
    for that runtime, names that node and has not expired; the key in it is the
    one last activated under exactly that lease, before it expired; and no later
    lease or key for the runtime came in between. *)
Theorem keys_only_to_lease_holder log db now rid host db' h
  (Hlog : key_history log db)
  (Hget : GetRuntimeBlobKeyHandoff now rid host db = (db', inr h)) :
  db' = db ∧ h.(bh_HostID) = TrimSpace host ∧ h.(bh_RuntimeID) = TrimSpace rid ∧ now < h.(bh_ExpiresAt)
  ∧ ∃ before t lease middle t' key after,
      log = before ++ PutLease t lease :: middle ++ Activate t' key :: after
      ∧ trim_handoff lease <| bh_EnvelopeJSON := h.(bh_EnvelopeJSON) |> <| bh_BlobKeyVerifier := h.(bh_BlobKeyVerifier) |> = h
      ∧ trim_key key <| bh_ExpiresAt := h.(bh_ExpiresAt) |> = h
      ∧ t' < h.(bh_ExpiresAt)
      ∧ Forall (λ o, ¬ leases_runtime (TrimSpace rid) o) middle ∧ Forall (λ o, ¬ keys_runtime (TrimSpace rid) o) after.
Proof.
  pose proof (wp_run _ _ _ _ _ _ (get_wp now rid host db) Hget) as (-> & row & env & ver & Hrow & Hhost & Ht & He & Hv & ->).
  destruct (history_explained _ _ Hlog _ _ Hrow) as (before & t & lease & rest & -> & Hl & Hex & Hr & Hk).
  split_and!; try done. destruct Hk as [Hk|(middle & t' & key & after & -> & Hk & Ht' & E1 & E2 & Ha)]; [congruence|].
  exists before, t, lease, middle, t', key, after. apply Forall_app in Hr as [Hr _]. simplify_eq.
  destruct Hl as (L1 & L2 & L3 & L4 & L5), Hk as (K1 & K2 & K3 & K4 & K5). cbn -[trim_handoff] in *.
  split_and!; try done; apply handoff_ext; cbn; congruence.
Qed.

Lemma keys_only_to_lease_holder_witness :
  ∃ before t lease middle t' key after,
    [PutLease 100 sample_lease; Activate 200 sample_blob_key] = before ++ PutLease t lease :: middle ++ Activate t' key :: after
    ∧ trim_key key <| bh_ExpiresAt := 1000 |> = sample_blob_key.
Proof.
  assert (Hlog : key_history [PutLease 100 sample_lease; Activate 200 sample_blob_key] sample_keyed).
  { apply (key_done [PutLease 100 sample_lease] (Activate 200 sample_blob_key) sample_leased).
    - apply (key_done [] (PutLease 100 sample_lease) sample_runtimes); [by apply key_start | apply sample_lease_put].
    - rewrite run_activate. by rewrite (bind_inr _ _ _ _ _ sample_key_in). }
  destruct (keys_only_to_lease_holder _ sample_keyed 300 "rt" "node-1" sample_keyed sample_blob_key Hlog)
    as (_ & _ & _ & _ & before & t & lease & middle & t' & key & after & E & _ & Hk & _).
  - apply get_result. vm_compute. reflexivity.
  - exists before, t, lease, middle, t', key, after. split; [exact E | exact Hk].
Defined.

(** A key goes through its lease unchanged.  Once a lease is put, a key that
    names it and comes before it expires is accepted, and the lease's node reads
    back exactly that key until the lease expires; no other node and no later
    moment gets anything, and neither does anyone once the runtime has a new
    lease, until a key is activated under that. *)
Theorem key_delivery now lease db db1 t key t'
  (Hput : PutRuntimeBlobKeyLease now lease db = (db1, inr tt))
  (Hsame : same_lease lease key)
  (Henv : TrimSpace key.(bh_EnvelopeJSON) ≠ ""%string) (Hver : TrimSpace key.(bh_BlobKeyVerifier) ≠ ""%string)
  (Ht : t < lease.(bh_ExpiresAt)) (Ht' : t' < lease.(bh_ExpiresAt)) :
  let rid := lease.(bh_RuntimeID) in
  (∀ at_ host, GetRuntimeBlobKeyHandoff at_ rid host db1 = (db1, inl ErrRuntimeBlobKeyHandoff))
  ∧ ∃ db2, ActivateRuntimeBlobKeyHandoff t key db1 = (db2, inr (delivered lease key))
    ∧ GetRuntimeBlobKeyHandoff t' rid lease.(bh_HostID) db2 = (db2, inr (delivered lease key))
    ∧ (∀ at_ host, TrimSpace host ≠ TrimSpace lease.(bh_HostID) ∨ lease.(bh_ExpiresAt) ≤ at_ →
         GetRuntimeBlobKeyHandoff at_ rid host db2 = (db2, inl ErrRuntimeBlobKeyHandoff)).
Proof.
  intros rid. subst rid. pose proof (put_complete _ _ _ _ Hput) as Hfull.
  pose proof (wp_run _ _ _ _ _ _ (put_wp now lease db) Hput) as (row & Hdb1 & (L1 & L2 & L3 & L4 & L5) & He & Hn1 & Hn2).
  assert (Hrow : db1.(db_handoffs) !! TrimSpace lease.(bh_RuntimeID) = Some row) by (by rewrite Hdb1, lookup_insert_eq).
  split.
  { intros at_ host. by apply (no_key_no_read _ _ _ _ row). }
  pose proof (activate_run t lease key row db1 Hrow (conj L1 (conj L2 (conj L3 (conj L4 L5)))) He Hfull Hsame Ht Henv Hver) as Ha.
  destruct (ActivateRuntimeBlobKeyHandoff t key db1) as [db2 [e|h]] eqn:Eact; apply (wp_run _ _ _ _ _ _ Ha) in Eact as Hres; [done|].
  destruct Hres as [-> Hrow2]. exists db2. split; [exact eq_refl|].
  pose proof (delivered_read t lease key row db2 Hrow2 (conj L1 (conj L2 (conj L3 (conj L4 L5)))) He Hsame Henv Hver) as Hget.
  split.
  - rewrite Hget, str_eqb_refl. by rewrite (proj2 (Z.ltb_lt _ _) Ht').
  - intros at_ host Hor. rewrite Hget. destruct Hor as [Hne|Hle].
    + assert ((TrimSpace lease.(bh_HostID) =?s TrimSpace host) = false) as -> by (apply str_eqb_neq; intros E; by apply Hne).
      exact eq_refl.
    + by rewrite (proj2 (Z.ltb_ge _ _) Hle), andb_false_r.
Qed.

Lemma key_delivery_witness :
  ∃ db2, ActivateRuntimeBlobKeyHandoff 200 sample_blob_key sample_leased = (db2, inr sample_blob_key)
    ∧ GetRuntimeBlobKeyHandoff 999 "rt" "node-1" db2 = (db2, inr sample_blob_key)
    ∧ GetRuntimeBlobKeyHandoff 300 "rt" "node-2" db2 = (db2, inl ErrRuntimeBlobKeyHandoff).
Proof.
  destruct (key_delivery 100 sample_lease sample_runtimes sample_leased 200 sample_blob_key 999) as (_ & db2 & Ha & Hg & Hno).
  - apply sample_lease_put.
  - by split_and!.
  - done.
  - done.
  - done.
  - done.
  - exists db2. split_and!; [exact Ha | exact Hg | apply Hno; by left].
Defined.

(** Which node gets a blob key.  The operation changes nothing.  The runtime
    is the account's own and not deleted, and the node is one the registry trusts
    now, under a key that is not blank; a start's key goes to a node that may
    serve the runtime, a session's to the node the runtime is online on, and one
    for a stop, a wipe or a deletion to the node that has the runtime, else the
    one that has its snapshot, else to a trusted node of the account's region. *)
Theorem RuntimeBlobKeyTarget_spec now account rid op db :
  match RuntimeBlobKeyTarget now account rid op db with
  | (db', inr (r, (hostID, h))) =>
    db' = db ∧ own_runtime (TrimSpace account) (TrimSpace rid) db = Some r
    ∧ db.(db_hosts) !! hostID = Some h ∧ trusted_node now db hostID h ∧ TrimSpace h.(ho_public_key) ≠ ""%string
    ∧ ∃ chosen, hostID = TrimSpace chosen ∧ key_node now db (TrimSpace rid) r (ToLower (TrimSpace op)) chosen
  | (db', inl e) => db' = db ∧ key_refusal e
  end.
Proof.
  assert (Hw : wp (RuntimeBlobKeyTarget now account rid op)
    (λ res db', db' = db ∧ own_runtime (TrimSpace account) (TrimSpace rid) db = Some res.1
       ∧ db.(db_hosts) !! res.2.1 = Some res.2.2 ∧ trusted_node now db res.2.1 res.2.2
       ∧ TrimSpace res.2.2.(ho_public_key) ≠ ""%string
       ∧ ∃ chosen, res.2.1 = TrimSpace chosen ∧ key_node now db (TrimSpace rid) res.1 (ToLower (TrimSpace op)) chosen)
    (λ e db', db' = db ∧ key_refusal e) db).
  { unfold RuntimeBlobKeyTarget. wp_steps; try (split; [done|]; unfold key_refusal; set_solver).
    eapply wp_mono; [apply key_host_wp | | naive_solver]. intros chosen db' [-> Hc]. wp_steps.
    eapply wp_mono; [apply keyed_host_wp | | naive_solver]. intros host db' (-> & Hid & Hh & Ht & Hk). wp_steps.
    split_and!; eauto. }
  unfold wp in Hw. destruct (RuntimeBlobKeyTarget now account rid op db) as [db' [e|[r [hostID h]]]]; exact Hw.
Qed.
