(* ===== verification/Quota.v ===== *)
(** * Storage quota and closed accounts

    What the runtime operations of [Runtimes] guarantee about an account: a
    snapshot is recorded only within the account's storage limit, counted the
    way billing and the app count it ([accountStorageBytesUsed]), and a deleted
    account stays closed. *)

From S2P Require Import Prelude.
From S2P Require Import GoLib.
From S2P Require Import Schema.
From S2P Require Import Manifests.
From S2P Require Import Common.
From S2P Require Import Billing.
From S2P Require Import Entitlements.
From S2P Require Import Apps.
From S2P Require Import Profiles.
From S2P Require Import Runtimes.
Open Scope Z_scope.

(** ** Adding up *)

(** The bytes of a row's manifest; 0 for one that cannot be read. *)
Definition row_bytes (r : Runtime) : Z :=
  match storedBlobManifestBytes (coalesce r.(rt_blob_manifest_json) "") with inr b => b | inl _ => 0 end.
Definition readable (r : Runtime) : Prop :=
  ∃ b, storedBlobManifestBytes (coalesce r.(rt_blob_manifest_json) "") = inr b.
Definition total_bytes (l : list Runtime) : Z := foldr (λ r s, row_bytes r + s) 0 l.

Lemma manifest_bytes_positive m depth b :
  (depth ≤ 1)%nat → storedBlobManifestBytesAtDepth m depth = inr b → 0 < b.
Proof.
  intros Hd H. apply snapshot_checks in H as [(_ & _ & _ & [Hl _] & Hf & Hs & _) Hb]; [|done].
  pose proof (chunk_sum_bounds _ Hf). destruct (mf_migration_fallback m) as [fb|]; [|lia].
  destruct Hb as (f & Hf' & _ & ->). destruct depth as [|[|]]; [| |lia].
  - apply snapshot_checks in Hf' as [(_ & _ & _ & [Hl' _] & Hf'' & Hs' & _) Hb']; [|lia].
    pose proof (chunk_sum_bounds _ Hf''). destruct (mf_migration_fallback fb) as [fb'|]; [|lia].
    destruct Hb' as (f' & Hf3 & _). destruct (too_deep fb') as [e He]. congruence.
  - destruct (too_deep fb) as [e He]. congruence.
Qed.

Lemma row_bytes_nonneg r : 0 ≤ row_bytes r.
Proof.
  unfold row_bytes, storedBlobManifestBytes. destruct (parseStoredBlobManifestUsage _) as [e|[m|]]; try lia.
  destruct (storedBlobManifestBytesAtDepth m 0) as [e|b] eqn:E; [lia|]. apply manifest_bytes_positive in E; lia.
Qed.

Lemma total_bytes_cons r l : total_bytes (r :: l) = row_bytes r + total_bytes l.
Proof. done. Qed.

Lemma total_bytes_nonneg l : 0 ≤ total_bytes l.
Proof. induction l as [|r l IH]; cbn; [lia|]. pose proof (row_bytes_nonneg r). unfold total_bytes in IH. lia. Qed.

Lemma total_bytes_perm l l' : l ≡ₚ l' → total_bytes l = total_bytes l'.
Proof. unfold total_bytes. induction 1; cbn; lia. Qed.

(** The loop of [accountStorageBytesUsed] adds up what it can read, as long as
    the sum fits. *)
Lemma add_stored_bytes_sum l : ∀ acc, 0 ≤ acc → Forall readable l → acc + total_bytes l ≤ max_int64 →
  fold_left add_stored_bytes l (inr acc) = inr (acc + total_bytes l).
Proof.
  induction l as [|r l IH]; intros acc Ha Hall Hmax; cbn [fold_left]; [cbn; f_equal; lia|].
  apply Forall_cons in Hall as [[b Hb] Hall]. pose proof (total_bytes_nonneg l) as Hl.
  pose proof (row_bytes_nonneg r) as Hr. rewrite total_bytes_cons in *. unfold add_stored_bytes at 2.
  unfold row_bytes in *. rewrite Hb in *.
  destruct (Z.ltb_spec (max_int64 - b) acc); [lia|]. rewrite IH by (try done; lia). f_equal. lia.
Qed.

(** The loop over the other runtimes: all were readable and this is their sum. *)
Lemma add_other_bytes_sum l : ∀ acc total, fold_left add_other_bytes l (inr acc) = inr total →
  Forall readable l.*2 ∧ total = acc + total_bytes l.*2.
Proof.
  assert (Herr : ∀ l e total, fold_left add_other_bytes l (inl e) ≠ inr total).
  { clear. induction l as [|kr l IH]; intros e total; cbn; [done | apply IH]. }
  induction l as [|[k r] l IH]; intros acc total; cbn [fold_left]; [intros [= ->]; cbn; split; [constructor | lia]|].
  unfold add_other_bytes at 2. cbn [snd fst].
  destruct (storedBlobManifestBytes _) as [e|b] eqn:Hb; [by intros ?%Herr|].
  destruct (max_int64 - b <? acc); [by intros ?%Herr|]. intros [Hall ->]%IH.
  cbn [fmap list_fmap snd]. rewrite total_bytes_cons. split; [constructor; [by exists b | done]|].
  unfold row_bytes. rewrite Hb. lia.
Qed.

(** Writing one row of a table, seen by a query that selects it. *)
Lemma select_write (p : string → Runtime → bool) rid x (t : Runtimes) :
  p rid x = true →
  select p (<[rid := x]> t) ≡ₚ (rid, x) :: select (λ id r, p id r && negb (id =?s rid)) t.
Proof.
  intros Hp. transitivity ((rid, x) :: select p (delete rid t)).
  - rewrite <-(insert_delete_eq t rid x). unfold select.
    rewrite (filter_perm _ _ _ (map_to_list_insert _ _ _ (lookup_delete_eq t rid))). cbn. by rewrite Hp.
  - constructor. apply NoDup_Permutation.
    + unfold select. apply NoDup_ListNoDup, List.NoDup_filter, NoDup_ListNoDup, NoDup_map_to_list.
    + unfold select. apply NoDup_ListNoDup, List.NoDup_filter, NoDup_ListNoDup, NoDup_map_to_list.
    + intros [id r]. rewrite !elem_of_select, andb_true_iff, negb_true_iff, str_eqb_neq, lookup_delete_Some.
      split; intros; destruct_and!; split_and!; congruence.
Qed.

(** What a recorded snapshot leaves in the row. *)
Lemma observed_row_stored now o r m bytes :
  observes o r = true → o.(ob_ClearBlobManifest) = false →
  parseStoredBlobManifestUsage (valueOrEmpty o.(ob_BlobManifestJSON)) = inr (Some m) →
  storedBlobManifestBytesAtDepth m 0 = inr bytes →
  has_stored_blob r.(rt_account_id) (observed_row now o r) = true
  ∧ readable (observed_row now o r) ∧ row_bytes (observed_row now o r) = bytes.
Proof.
  intros Hobs Hclear Hp Hb.
  assert (Hman : (observed_row now o r).(rt_blob_manifest_json) = Some (valueOrEmpty o.(ob_BlobManifestJSON))
                 ∧ pg_trim (valueOrEmpty o.(ob_BlobManifestJSON)) ≠ ""%string).
  { destruct (ob_BlobManifestJSON o) as [v|] eqn:Hv; [|by vm_compute in Hp].
    unfold observed_row. cbn. rewrite Hclear. cbn in Hp. unfold parseStoredBlobManifestUsage in Hp.
    rewrite Hv. cbn. rewrite TrimSpace_idemp in Hp. destruct (TrimSpace v =?s "") eqn:E; [done|].
    split; [done|]. apply pg_trim_nonempty. by apply str_eqb_neq. }
  destruct Hman as [Hman Hne].
  assert (Hbytes : storedBlobManifestBytes (coalesce (observed_row now o r).(rt_blob_manifest_json) "") = inr bytes).
  { rewrite Hman. unfold storedBlobManifestBytes. cbn [coalesce]. by rewrite Hp. }
  split_and!.
  - unfold has_stored_blob, present. rewrite Hman. cbn [coalesce]. apply str_eqb_neq in Hne. rewrite Hne.
    change (rt_account_id (observed_row now o r)) with (rt_account_id r).
    change (rt_live (observed_row now o r)) with (rt_live r). rewrite str_eqb_refl, (observes_live _ _ Hobs). done.
  - by exists bytes.
  - unfold row_bytes. by rewrite Hbytes.
Qed.

(** ** Closed accounts *)

Lemma DeleteAccount_closes now a db :
  wp (DeleteAccount now a) (λ _ db', db'.(db_entitlements) !! TrimSpace a = None) (λ _ db', db' = db) db.
Proof.
  unfold DeleteAccount. cbv zeta. wp_steps; try done.
  (* the log loop first, then devices, entitlement and the account itself *)
  eapply (wp_mono _ (λ _ _, True) _ (λ _ _, True)); [unfold wp; by destruct (for_each _ _ _) as [? [?|?]] | | done].
  intros [] db1 _. wp_steps.
  eapply wp_mono; [apply (wp_continue closed_stays _ (λ _ _, True)); [reflexivity | | done] | | done].
  - intros s. apply deleteAccountIfRuntimeCleanupDone_tame.
  - intros [] db2 [_ Hcl]. apply Hcl. cbn. apply lookup_delete_eq.
Qed.

Lemma no_entitlement_no_create now rid version a input db :
  db.(db_entitlements) !! TrimSpace a = None → ∃ e, CreateRuntime now rid version a input db = (db, inl e).
Proof.
  intros Hn. pose proof (CreateRuntime_wp now rid version a input db) as H. unfold wp in H.
  destruct (CreateRuntime now rid version a input db) as [db' [e|r]]; [exists e; by rewrite H|].
  destruct H as (_ & Href & _). unfold create_refusal in Href. by rewrite Hn in Href.
Qed.

Lemma no_entitlement_no_start pricing now a rid req fresh db :
  db.(db_entitlements) !! a = None → (startRuntime pricing now a rid req fresh db).1 = db.
Proof.
  intros Hn. pose proof (startRuntime_wp pricing now a rid req fresh db) as H. unfold wp in H.
  destruct (startRuntime pricing now a rid req fresh db) as [db' [e|r]]; [apply H|].
  destruct H as (r0 & _ & [(_ & _ & ->)|(_ & _ & Href & _)]); [done|]. unfold start_refusal in Href. by rewrite Hn in Href.
Qed.

(** ** Properties *)

(** C32: A snapshot is recorded only within the account's storage limit.  When a
    node's report with a snapshot is accepted, the account's stored bytes, as
    billing and the app count them, can be computed and do not exceed the limit
    that was checked. *)
Theorem snapshot_within_quota now rid o db db' r e
  (H : UpdateRuntimeObservation now rid o db = (db', inr tt))
  (Hlive : o.(ob_Deleted) = false) (Hsnapshot : valueOrEmpty o.(ob_BlobManifestJSON) ≠ ""%string)
  (Hr : db.(db_runtimes) !! rid = Some r) (Hid : TrimSpace r.(rt_account_id) = r.(rt_account_id))
  (He : db.(db_entitlements) !! r.(rt_account_id) = Some e) (Hint : e.(en_storage_bytes_limit) ≤ max_int64) :
  ∃ total, accountStorageBytesUsed r.(rt_account_id) db' = inr total ∧ 0 ≤ total ≤ e.(en_storage_bytes_limit).
Proof.
  eapply wp_run in H; [|apply UpdateRuntimeObservation_wp].
  destruct H as (r' & Hr' & Hobs & [Hd|(_ & Hdb & [Hm|(Hclear & m & bytes & Hp & Hb & Hst)])]); [congruence | done |].
  destruct Hst as (r1 & e1 & others & Hr1 & _ & _ & He1 & Hothers & Hlim & Hroom & _).
  assert (r' = r) as -> by congruence. assert (r1 = r) as -> by congruence. assert (e1 = e) as -> by congruence. subst db'.
  apply add_other_bytes_sum in Hothers as [Hread ->]. rewrite Z.add_0_l in Hroom.
  destruct (observed_row_stored now o r m bytes Hobs Hclear Hp Hb) as (Hhas & Hrd & Hbytes).
  unfold accountStorageBytesUsed. rewrite Hid. cbn [db_runtimes set_field].
  pose proof (select_write (λ _ r0, has_stored_blob (rt_account_id r) r0) rid (observed_row now o r) db.(db_runtimes) Hhas) as Hperm.
  apply (fmap_Permutation snd) in Hperm. cbn [fmap list_fmap snd] in Hperm. fold (other_rows (rt_account_id r) rid db) in Hperm.
  pose proof (total_bytes_perm _ _ Hperm) as Hsum. rewrite total_bytes_cons, Hbytes in Hsum.
  pose proof (total_bytes_nonneg (other_rows (rt_account_id r) rid db).*2).
  assert (0 ≤ bytes) by (rewrite <-Hbytes; apply row_bytes_nonneg).
  exists (bytes + total_bytes (other_rows (rt_account_id r) rid db).*2). split; [|lia].
  cbn. rewrite add_stored_bytes_sum; [f_equal; lia | lia | | lia].
  rewrite Hperm. by constructor.
Qed.

(** A deleted account stays closed.  After [DeleteAccount] succeeded,
    whatever calls of [runtime_op] follow, no runtime can be created for the account and
    starting one of its runtimes changes nothing. *)
Theorem deleted_account_closed pricing used now a db db1 db2
  (Hdel : DeleteAccount now a db = (db1, inr tt)) (Hlater : runtime_history pricing used db1 db2) :
  (∀ now' rid version input, ∃ e, CreateRuntime now' rid version a input db2 = (db2, inl e))
  ∧ (∀ now' rid req fresh, (startRuntime pricing now' (TrimSpace a) rid req fresh db2).1 = db2).
Proof.
  eapply wp_run in Hdel; [|apply DeleteAccount_closes]. apply runtime_history_ok in Hlater as [[_ Hcl] _].
  specialize (Hcl _ Hdel). split; intros.
  - by apply no_entitlement_no_create.
  - by apply no_entitlement_no_start.
Qed.

(** ** Witnesses *)

(** The sample node reports a first snapshot of the started sample runtime. *)
Definition sample_snapshot : RuntimeObservation := sample_report 2 (Some (sample_manifest "s1" 1 4096)).

Lemma snapshot_within_quota_witness : ∃ db' total,
  UpdateRuntimeObservation 300 "rt" sample_snapshot sample_started = (db', inr tt)
  ∧ accountStorageBytesUsed "acct" db' = inr total ∧ 0 ≤ total ≤ 1073741824.
Proof.
  exists (UpdateRuntimeObservation 300 "rt" sample_snapshot sample_started).1.
  assert (Hrun : UpdateRuntimeObservation 300 "rt" sample_snapshot sample_started
    = ((UpdateRuntimeObservation 300 "rt" sample_snapshot sample_started).1, inr tt)).
  { apply run_of. vm_compute. reflexivity. }
  destruct (snapshot_within_quota 300 "rt" sample_snapshot sample_started _
    (start_row 100 "node-1" 46000 false (default_runtime "acct" "stopped" 0)) (default_entitlement 0) Hrun) as [total Ht].
  - reflexivity.
  - vm_compute. discriminate.
  - vm_compute. reflexivity.
  - vm_compute. reflexivity.
  - vm_compute. reflexivity.
  - vm_compute. discriminate.
  - exists total. split; [exact Hrun | exact Ht].
Defined.

Lemma deleted_account_closed_witness :
  ∃ e, CreateRuntime 500 "rt2" "android-14" "acct"
         (MkCreateRuntimeInput "" "" "" 0 0 0 false false "" "" false 0 [] 0 "")
         (DeleteAccount 400 "acct" sample_started).1 = ((DeleteAccount 400 "acct" sample_started).1, inl e).
Proof.
  apply (deleted_account_closed sample_pricing (λ _, False) 400 "acct" sample_started (DeleteAccount 400 "acct" sample_started).1).
  - apply run_of. vm_compute. reflexivity.
  - apply history_start.
Defined.
