(* ===== verification/Tron.v ===== *)
(** * Tron addresses and transactions

    Models internal/tron: addresses and the keys they come from (tron.go), and
    the transactions the payments service builds, encodes and signs (tx.go).

    Bytes are lists of [N]s below 256.  The third-party packages are parameters:
    btcutil's base58 ([Base58]), x/crypto's Keccak-256 and btcec's keys and
    compact signatures ([Curve]), go-bip39 and hdkeychain ([HDKeys]); each comes
    with the laws its documentation states.  SHA-256, uvarints and big-endian
    integers are Go's own and are executable ([Codec.Sum256] and the like).

    The wire format is the other half of the round trips: [message] and the
    decoders on it read protocol buffers as protobuf.dev/programming-guides/encoding
    defines them. *)

From Stdlib Require Import Ascii.
From S2P Require Import Prelude.
From S2P Require Import GoLib.
From S2P Require Import Codec.
Open Scope N_scope.

(** ** The packages *)

(** btcutil/base58. *)
Class Base58 : Type := {
  CheckEncode : list N → N → string;
  CheckDecode : string → option (list N * N) }.

(** golang.org/x/crypto/sha3 and btcec. *)
Class Curve : Type := {
  PublicKey : Type;
  PrivateKey : Type;
  PubKey : PrivateKey → PublicKey;
  SerializeUncompressed : PublicKey → list N;
  Keccak256 : list N → list N;
  SignCompact : PrivateKey → list N → bool → list N;
  RecoverCompact : list N → list N → option PublicKey }.

(** go-bip39 and btcutil/hdkeychain. *)
Class HDKeys `{Curve} : Type := {
  ExtendedKey : Type;
  IsMnemonicValid : string → bool;
  NewSeed : string → string → list N;
  NewMaster : list N → option ExtendedKey;
  Derive : ExtendedKey → N → option ExtendedKey;
  Neuter : ExtendedKey → option ExtendedKey;
  ECPubKey : ExtendedKey → option PublicKey;
  ECPrivKey : ExtendedKey → option PrivateKey;
  IsPrivate : ExtendedKey → bool;
  Depth : ExtendedKey → N;
  KeyString : ExtendedKey → string;
  NewKeyFromString : string → option ExtendedKey }.

Inductive tron_error :=
| InvalidAddress | InvalidAddressBytes | InvalidXPub | PrivateXPub | WrongDepth | IndexOutOfRange | KeyError
| InvalidSeedPhrase | NoBlockReference | AmountNotPositive | NoFeeLimit | InvalidSignature
| From (e : tron_error) | To (e : tron_error) | Token (e : tron_error).

#[export] Instance result_bind : MBind (sum tron_error) := λ A B f m, match m with inl e => inl e | inr a => f a end.
Definition or_fail {A} (o : option A) (e : tron_error) : tron_error + A := match o with Some a => inr a | None => inl e end.
Definition wrapped {A} (wrap : tron_error → tron_error) (r : tron_error + A) : tron_error + A :=
  match r with inl e => inl (wrap e) | inr a => inr a end.

(** ** tron.go *)

Definition addressVersion : N := 0x41.
Definition coinType : N := 195.
Definition depositPathDepth : N := 4.
Definition HardenedKeyStart : N := 0x80000000.
Definition USDTContract : string := "TR7NHqjeKQxGTCi8q8ZY4pL8otSzgjLj6t".

(** [strings.Fields]: the words between white space; [word] is the one being read. *)
Definition flush (word : list ascii) : list (list ascii) := match word with [] => [] | _ => [word] end.
Fixpoint fields (word : list ascii) (l : list ascii) : list (list ascii) :=
  match l with
  | [] => flush word
  | c :: l' => if is_space c then flush word ++ fields [] l' else fields (word ++ [c]) l'
  end.
Fixpoint join (sep : list ascii) (words : list (list ascii)) : list ascii :=
  match words with
  | [] => []
  | [word] => word
  | word :: words' => word ++ sep ++ join sep words'
  end.

Section tron.
Context `{Base58} `{Curve} `{!HDKeys}.

Definition encodeAddress (hash20 : list N) : string := CheckEncode hash20 addressVersion.

Definition addressHash (key : PublicKey) : list N := drop 12 (Keccak256 (drop 1 (SerializeUncompressed key))).

Definition AddressFromPublicKey (key : PublicKey) : string := encodeAddress (addressHash key).

Definition AddressBytes (address : string) : tron_error + list N :=
  '(decoded, version) ← or_fail (CheckDecode (TrimSpace address)) InvalidAddress;
  if negb (version =? addressVersion) || negb (length decoded =? 20)%nat then inl InvalidAddress
  else inr (addressVersion :: decoded).

Definition AddressFromBytes (raw : list N) : tron_error + string :=
  match raw with
  | v :: hash20 => if (length raw =? 21)%nat && (v =? addressVersion) then inr (encodeAddress hash20) else inl InvalidAddressBytes
  | [] => inl InvalidAddressBytes
  end.

Definition ValidAddress (address : string) : bool :=
  match AddressBytes address with inr _ => true | inl _ => false end.

(** [DepositKey] and [Wallet] hold one extended key each. *)
Record DepositKey := MkDepositKey { dk_key : ExtendedKey }.
Record Wallet := MkWallet { wa_deposits : ExtendedKey }.

Definition ParseDepositXPub (xpub : string) : tron_error + DepositKey :=
  key ← or_fail (NewKeyFromString (TrimSpace xpub)) InvalidXPub;
  if IsPrivate key then inl PrivateXPub
  else if negb (Depth key =? depositPathDepth) then inl WrongDepth
  else inr (MkDepositKey key).

Definition DepositAddress (d : DepositKey) (index : N) : tron_error + string :=
  if HardenedKeyStart <=? index then inl IndexOutOfRange
  else
    child ← or_fail (Derive d.(dk_key) index) KeyError;
    public ← or_fail (ECPubKey child) KeyError;
    inr (AddressFromPublicKey public).

(** [for _, step := range ... { key, err = key.Derive(step) }]. *)
Fixpoint derive_path (key : ExtendedKey) (path : list N) : tron_error + ExtendedKey :=
  match path with
  | [] => inr key
  | step :: path' => child ← or_fail (Derive key step) KeyError; derive_path child path'
  end.

Definition receivingKey (seed : list N) (coin : N) : tron_error + ExtendedKey :=
  key ← or_fail (NewMaster seed) KeyError;
  derive_path key [HardenedKeyStart + 44; HardenedKeyStart + coin; HardenedKeyStart; 0].

Definition OpenWallet (phrase : string) : tron_error + Wallet :=
  let phrase := of_bytes (join (bytes_of " ") (fields [] (bytes_of phrase))) in
  if negb (IsMnemonicValid phrase) then inl InvalidSeedPhrase
  else
    key ← receivingKey (NewSeed phrase "") coinType;
    inr (MkWallet key).

Definition XPub (w : Wallet) : tron_error + string :=
  public ← or_fail (Neuter w.(wa_deposits)) KeyError;
  inr (KeyString public).

Definition Key (w : Wallet) (index : N) : tron_error + PrivateKey :=
  if HardenedKeyStart <=? index then inl IndexOutOfRange
  else
    child ← or_fail (Derive w.(wa_deposits) index) KeyError;
    or_fail (ECPrivKey child) KeyError.

Definition WalletAddress (w : Wallet) (index : N) : tron_error + string :=
  key ← Key w index;
  inr (AddressFromPublicKey (PubKey key)).

Definition TxID (rawData : list N) : list N := Sum256 rawData.

(** ** tx.go *)

(** [ID] holds the block's 32 bytes; [Number] is an [int64]. *)
Record BlockRef := MkBlockRef { br_Number : Z; br_ID : list N }.

Record RawTransaction := MkRaw {
  raw_RefBlockBytes : list N;
  raw_RefBlockHash : list N;
  raw_Expiration : Z;
  raw_Timestamp : Z;
  raw_FeeLimit : Z;
  raw_contractType : Z;
  raw_typeURL : string;
  raw_value : list N }.

Definition transferContractType : Z := 1.
Definition triggerSmartContractType : Z := 31.
Definition transferContractURL : string := "type.googleapis.com/protocol.TransferContract".
Definition triggerSmartContractURL : string := "type.googleapis.com/protocol.TriggerSmartContract".
Definition trc20TransferSelector : string := "a9059cbb".
(** Times are nanoseconds. *)
Definition defaultTransactionLifetime : Z := 60 * 10 ^ 9.

(** [uint64(x)] of an [int64]. *)
Definition as_uint64 (x : Z) : N := Z.to_N (x mod 2 ^ 64).
(** [t.UnixMilli()]. *)
Definition UnixMilli (t : Z) : Z := (t / 10 ^ 6)%Z.

Definition newRaw (ref : BlockRef) (now : Z) : tron_error + RawTransaction :=
  if negb (length ref.(br_ID) =? 32)%nat || (ref.(br_Number) <=? 0)%Z then inl NoBlockReference
  else inr (MkRaw (drop 6 (big_endian 8 (as_uint64 ref.(br_Number)))) (take 8 (drop 8 ref.(br_ID)))
              (UnixMilli (now + defaultTransactionLifetime)) (UnixMilli now) 0 0 "" []).

Definition appendVarintField (out : list N) (field value : N) : list N :=
  (out ++ put_uvarint (N.shiftl field 3)) ++ put_uvarint value.

Definition appendBytesField (out : list N) (field : N) (value : list N) : list N :=
  ((out ++ put_uvarint (N.lor (N.shiftl field 3) 2)) ++ put_uvarint (N.of_nat (length value))) ++ value.

Definition set_contract (raw : RawTransaction) (type : Z) (url : string) (value : list N) (fee : Z) : RawTransaction :=
  MkRaw raw.(raw_RefBlockBytes) raw.(raw_RefBlockHash) raw.(raw_Expiration) raw.(raw_Timestamp) fee type url value.

Definition SendTRX (from to : string) (amountSun : Z) (ref : BlockRef) (now : Z) : tron_error + RawTransaction :=
  if (amountSun <=? 0)%Z then inl AmountNotPositive
  else
    owner ← wrapped From (AddressBytes from);
    receiver ← wrapped To (AddressBytes to);
    raw ← newRaw ref now;
    let value := appendBytesField [] 1 owner in
    let value := appendBytesField value 2 receiver in
    let value := appendVarintField value 3 (as_uint64 amountSun) in
    inr (set_contract raw transferContractType transferContractURL value raw.(raw_FeeLimit)).

(** The amount is a [*big.Int]; [None] is [nil]. *)
Definition SendTRC20 (from token to : string) (amount : option Z) (feeLimitSun : Z) (ref : BlockRef) (now : Z)
    : tron_error + RawTransaction :=
  match amount with
  | None => inl AmountNotPositive
  | Some amount =>
    if (amount <=? 0)%Z || (2 ^ 256 <=? amount)%Z then inl AmountNotPositive
    else if (feeLimitSun <=? 0)%Z then inl NoFeeLimit
    else
      owner ← wrapped From (AddressBytes from);
      contract ← wrapped Token (AddressBytes token);
      receiver ← wrapped To (AddressBytes to);
      raw ← newRaw ref now;
      let data := default [] (hex_decode trc20TransferSelector) in
      let data := data ++ repeat 0 12 in
      let data := data ++ drop 1 receiver in
      let data := data ++ big_endian 32 (Z.to_N amount) in
      let value := appendBytesField [] 1 owner in
      let value := appendBytesField value 2 contract in
      let value := appendBytesField value 4 data in
      inr (set_contract raw triggerSmartContractType triggerSmartContractURL value feeLimitSun)
  end.

Definition Encode (r : RawTransaction) : list N :=
  let parameter := appendBytesField [] 1 (octets_of r.(raw_typeURL)) in
  let parameter := appendBytesField parameter 2 r.(raw_value) in
  let contract := appendVarintField [] 1 (as_uint64 r.(raw_contractType)) in
  let contract := appendBytesField contract 2 parameter in
  let out := appendBytesField [] 1 r.(raw_RefBlockBytes) in
  let out := appendBytesField out 4 r.(raw_RefBlockHash) in
  let out := appendVarintField out 8 (as_uint64 r.(raw_Expiration)) in
  let out := appendBytesField out 11 contract in
  let out := appendVarintField out 14 (as_uint64 r.(raw_Timestamp)) in
  if (0 <? r.(raw_FeeLimit))%Z then appendVarintField out 18 (as_uint64 r.(raw_FeeLimit)) else out.

(** [compact[0]-27] of a byte wraps around. *)
Definition Sign (rawData : list N) (key : PrivateKey) : list N :=
  let id := TxID rawData in
  let compact := SignCompact key id false in
  drop 1 compact ++ [(nth 0 compact 0 + 229) mod 256].

Definition Signer (rawData signature : list N) : tron_error + string :=
  if negb (length signature =? 65)%nat || (3 <? nth 64 signature 0) then inl InvalidSignature
  else
    let id := TxID rawData in
    let compact := (27 + nth 64 signature 0) :: take 64 signature in
    key ← or_fail (RecoverCompact compact id) InvalidSignature;
    inr (AddressFromPublicKey key).

Definition SignedTransaction (rawData signature : list N) : list N :=
  let out := appendBytesField [] 1 rawData in
  appendBytesField out 2 signature.
End tron.

(** ** The wire format *)

(** A uvarint of at most [fuel] bytes, and what follows it. *)
Fixpoint get_uvarint (fuel : nat) (l : list N) : option (N * list N) :=
  match fuel, l with
  | S fuel', b :: l' =>
    if b <? 128 then Some (b, l') else '(v, rest) ← get_uvarint fuel' l'; Some (b - 128 + 128 * v, rest)
  | _, _ => None
  end.

Inductive wire := Varint (v : N) | Bytes (b : list N).
#[export] Instance wire_eq_dec : EqDecision wire.
Proof. solve_decision. Defined.

Definition get_field (l : list N) : option (N * wire * list N) :=
  '(tag, l) ← get_uvarint 10 l;
  '(v, l) ← get_uvarint 10 l;
  if tag mod 8 =? 0 then Some (tag / 8, Varint v, l)
  else if tag mod 8 =? 2 then
    if (length l <? N.to_nat v)%nat then None else Some (tag / 8, Bytes (take (N.to_nat v) l), drop (N.to_nat v) l)
  else None.

Fixpoint get_fields (fuel : nat) (l : list N) : option (list (N * wire)) :=
  match l, fuel with
  | [], _ => Some []
  | _, O => None
  | _, S fuel' => '(n, w, l') ← get_field l; rest ← get_fields fuel' l'; Some ((n, w) :: rest)
  end.
Definition message (l : list N) : option (list (N * wire)) := get_fields (length l) l.

(** A field's value: the last one counts. *)
Fixpoint field_of (n : N) (fs : list (N * wire)) : option wire :=
  match fs with
  | [] => None
  | (m, w) :: fs' => match field_of n fs' with Some w' => Some w' | None => if m =? n then Some w else None end
  end.
Definition bytes_field (n : N) (fs : list (N * wire)) : option (list N) :=
  match field_of n fs with Some (Bytes b) => Some b | _ => None end.
Definition varint_field (n : N) (fs : list (N * wire)) : N :=
  match field_of n fs with Some (Varint v) => v | _ => 0 end.

(** [int64(v)]. *)
Definition as_int64 (v : N) : Z := let z := Z.of_N v in (if z <? 2 ^ 63 then z else z - 2 ^ 64)%Z.
Definition string_of (l : list N) : string := of_bytes (ascii_of_N <$> l).

(** protocol.Transaction.raw with its one contract. *)
Definition decode_raw (l : list N) : option RawTransaction :=
  fs ← message l;
  refBytes ← bytes_field 1 fs;
  refHash ← bytes_field 4 fs;
  contract ← bytes_field 11 fs;
  cs ← message contract;
  parameter ← bytes_field 2 cs;
  ps ← message parameter;
  url ← bytes_field 1 ps;
  value ← bytes_field 2 ps;
  Some (MkRaw refBytes refHash (as_int64 (varint_field 8 fs)) (as_int64 (varint_field 14 fs))
          (as_int64 (varint_field 18 fs)) (as_int64 (varint_field 1 cs)) (string_of url) value).

(** What a transaction does: send TRX, or call a token's transfer. *)
Inductive action :=
| Transfer (owner receiver : list N) (amountSun : Z)
| TokenTransfer (owner token account : list N) (amount : N).

Definition decode_action (r : RawTransaction) : option action :=
  vs ← message r.(raw_value);
  if bool_decide (r.(raw_contractType) = transferContractType ∧ r.(raw_typeURL) = transferContractURL) then
    owner ← bytes_field 1 vs;
    receiver ← bytes_field 2 vs;
    Some (Transfer owner receiver (as_int64 (varint_field 3 vs)))
  else if bool_decide (r.(raw_contractType) = triggerSmartContractType ∧ r.(raw_typeURL) = triggerSmartContractURL) then
    owner ← bytes_field 1 vs;
    token ← bytes_field 2 vs;
    data ← bytes_field 4 vs;
    if bool_decide (length data = 68%nat ∧ take 4 data = [0xa9; 0x05; 0x9c; 0xbb] ∧ take 12 (drop 4 data) = repeat 0 12)
    then Some (TokenTransfer owner token (take 20 (drop 16 data)) (of_big_endian (drop 36 data)))
    else None
  else None.

(** ** Facts *)

(** *** Uvarints and fields *)

Lemma get_uvarint_put fuel v rest :
  v < 128 ^ N.of_nat (S fuel) → get_uvarint (S fuel) (uvarint (S fuel) v ++ rest) = Some (v, rest).
Proof.
  revert v. induction fuel as [|fuel IH]; intros v Hv; rewrite Nat2N.inj_succ, N.pow_succ_r' in Hv.
  - cbn [uvarint]. rewrite (proj2 (N.ltb_lt _ _)) by (cbn in Hv; lia). cbn [app get_uvarint].
    by rewrite (proj2 (N.ltb_lt _ _)) by (cbn in Hv; lia).
  - remember (S fuel) as fuel'. cbn [uvarint]. destruct (v <? 128) eqn:E; cbn [app get_uvarint].
    + by rewrite E.
    + rewrite (proj2 (N.ltb_ge _ _)) by solve_divmod. rewrite IH.
      * cbn. do 2 f_equal. apply N.ltb_ge in E. solve_divmod.
      * apply N.Div0.div_lt_upper_bound. lia.
Qed.

Lemma put_uvarint_roundtrip v rest : v < 2 ^ 64 → get_uvarint 10 (put_uvarint v ++ rest) = Some (v, rest).
Proof. intros Hv. apply get_uvarint_put. cbn. lia. Qed.

Lemma uvarint_length fuel v : (length (uvarint fuel v) ≤ fuel)%nat ∧ (fuel ≠ 0 → 1 ≤ length (uvarint fuel v))%nat.
Proof.
  revert v. induction fuel as [|fuel IH]; intros v; cbn [uvarint]; [cbn; lia|].
  destruct (v <? 128); cbn; [lia|]. pose proof (IH (v / 128)). lia.
Qed.

Definition put_field (f : N * wire) : list N :=
  match f.2 with
  | Varint v => put_uvarint (N.shiftl f.1 3) ++ put_uvarint v
  | Bytes b => put_uvarint (N.lor (N.shiftl f.1 3) 2) ++ put_uvarint (N.of_nat (length b)) ++ b
  end.

(** A field whose number and value fit. *)
Definition wire_ok (f : N * wire) : Prop :=
  f.1 < 2 ^ 29 ∧ match f.2 with Varint v => v < 2 ^ 64 | Bytes b => N.of_nat (length b) < 2 ^ 64 end.

Lemma appendVarintField_put out n v : appendVarintField out n v = out ++ put_field (n, Varint v).
Proof. unfold appendVarintField, put_field. cbn [fst snd]. by rewrite <-app_assoc. Qed.
Lemma appendBytesField_put out n b : appendBytesField out n b = out ++ put_field (n, Bytes b).
Proof. unfold appendBytesField, put_field. cbn [fst snd]. by rewrite <-!app_assoc. Qed.

Lemma tag_varint n : N.shiftl n 3 = 8 * n.
Proof. rewrite N.shiftl_mul_pow2. lia. Qed.
Lemma tag_bytes n : N.lor (N.shiftl n 3) 2 = 8 * n + 2.
Proof. destruct n as [|p]; [done|]. change (N.shiftl (N.pos p) 3) with (N.pos p~0~0~0). change (N.lor (N.pos p~0~0~0) 2) with (N.pos p~0~1~0). lia. Qed.

Lemma get_field_put f rest : wire_ok f → get_field (put_field f ++ rest) = Some (f, rest).
Proof.
  destruct f as [n [v|b]]; intros [Hn Hv]; cbn [fst snd] in *; unfold get_field, put_field; cbn [fst snd].
  - rewrite tag_varint, <-app_assoc, put_uvarint_roundtrip by lia. cbn [mbind option_bind].
    rewrite put_uvarint_roundtrip by done. cbn [mbind option_bind].
    replace ((8 * n) mod 8) with 0 by solve_divmod. cbn [N.eqb]. do 4 f_equal. solve_divmod.
  - rewrite tag_bytes, <-!app_assoc, put_uvarint_roundtrip by lia. cbn [mbind option_bind].
    rewrite put_uvarint_roundtrip by done. cbn [mbind option_bind].
    replace ((8 * n + 2) mod 8) with 2 by solve_divmod. cbn [N.eqb Pos.eqb]. rewrite Nat2N.id.
    rewrite (proj2 (Nat.ltb_ge _ _)) by (rewrite length_app; lia). rewrite take_app_length, drop_app_length.
    do 4 f_equal. solve_divmod.
Qed.

Lemma put_field_nonempty f : (1 ≤ length (put_field f))%nat.
Proof.
  destruct f as [n [v|b]]; unfold put_field, put_uvarint; cbn [fst snd]; rewrite !length_app.
  - pose proof (proj2 (uvarint_length 10 (N.shiftl n 3))). lia.
  - pose proof (proj2 (uvarint_length 10 (N.lor (N.shiftl n 3) 2))). lia.
Qed.

(** Decoding has fuel enough: every field takes at least a byte. *)
Lemma message_put fs : Forall wire_ok fs → message (flat_map put_field fs) = Some fs.
Proof.
  intros Hok. unfold message.
  assert (Hlen : (length fs ≤ length (flat_map put_field fs))%nat).
  { clear Hok. induction fs as [|f fs IH]; cbn; [lia|]. rewrite length_app. pose proof (put_field_nonempty f). lia. }
  revert Hlen. generalize (length (flat_map put_field fs)) as fuel. induction Hok as [|f fs Hf _ IH]; intros fuel Hlen.
  - by destruct fuel.
  - cbn [flat_map]. destruct fuel as [|fuel]; [cbn in Hlen; lia|].
    destruct (put_field f ++ flat_map put_field fs) as [|x l] eqn:E.
    { apply (f_equal length) in E. rewrite length_app in E. pose proof (put_field_nonempty f). cbn in E. lia. }
    cbn [get_fields]. rewrite <-E, get_field_put by done. destruct f as [n w]. cbn. cbn in Hlen. by rewrite IH by lia.
Qed.

Lemma put_bytes_length n b : (length (put_field (n, Bytes b)) ≤ 20 + length b)%nat.
Proof.
  unfold put_field, put_uvarint. cbn [fst snd]. rewrite !length_app.
  pose proof (proj1 (uvarint_length 10 (N.lor (N.shiftl n 3) 2))).
  pose proof (proj1 (uvarint_length 10 (N.of_nat (length b)))). lia.
Qed.
Lemma put_varint_length n v : (length (put_field (n, Varint v)) ≤ 20)%nat.
Proof.
  unfold put_field, put_uvarint. cbn [fst snd]. rewrite !length_app.
  pose proof (proj1 (uvarint_length 10 (N.shiftl n 3))). pose proof (proj1 (uvarint_length 10 v)). lia.
Qed.

Lemma as_int64_roundtrip x : (- 2 ^ 63 ≤ x < 2 ^ 63)%Z → as_int64 (as_uint64 x) = x.
Proof.
  intros Hx. unfold as_int64, as_uint64. cbv zeta. rewrite Z2N.id by (apply Z.mod_pos_bound; lia).
  destruct (Z.ltb_spec (x mod 2 ^ 64) (2 ^ 63)); Z.to_euclidean_division_equations; lia.
Qed.
Lemma as_uint64_bound x : as_uint64 x < 2 ^ 64.
Proof. unfold as_uint64. pose proof (Z.mod_pos_bound x (2 ^ 64) ltac:(lia)). lia. Qed.

Lemma string_of_octets s : string_of (octets_of s) = s.
Proof.
  unfold string_of, octets_of. rewrite <-list_fmap_compose.
  assert (compose ascii_of_N N_of_ascii <$> bytes_of s = bytes_of s) as ->; [|by rewrite String.string_of_list_ascii_of_string].
  rewrite <-(list_fmap_id (bytes_of s)) at 2. apply list_fmap_ext. intros ? c _. apply ascii_N_embedding.
Qed.

(** What fits a transaction: sizes below 4 GB, [int64] numbers and a fee limit
    that is not negative. *)
Definition raw_ok (r : RawTransaction) : Prop :=
  (N.of_nat (length r.(raw_RefBlockBytes)) < 2 ^ 32 ∧ N.of_nat (length r.(raw_RefBlockHash)) < 2 ^ 32
  ∧ N.of_nat (length r.(raw_value)) < 2 ^ 32 ∧ N.of_nat (length (octets_of r.(raw_typeURL))) < 2 ^ 32
  ∧ (- 2 ^ 63 ≤ r.(raw_Expiration) < 2 ^ 63)%Z ∧ (- 2 ^ 63 ≤ r.(raw_Timestamp) < 2 ^ 63)%Z
  ∧ (0 ≤ r.(raw_FeeLimit) < 2 ^ 63)%Z ∧ (- 2 ^ 63 ≤ r.(raw_contractType) < 2 ^ 63)%Z).

Definition parameter_fields (r : RawTransaction) : list (N * wire) :=
  [(1, Bytes (octets_of r.(raw_typeURL))); (2, Bytes r.(raw_value))].
Definition contract_fields (r : RawTransaction) : list (N * wire) :=
  [(1, Varint (as_uint64 r.(raw_contractType))); (2, Bytes (flat_map put_field (parameter_fields r)))].
Definition raw_fields (r : RawTransaction) : list (N * wire) :=
  [(1, Bytes r.(raw_RefBlockBytes)); (4, Bytes r.(raw_RefBlockHash)); (8, Varint (as_uint64 r.(raw_Expiration)));
   (11, Bytes (flat_map put_field (contract_fields r))); (14, Varint (as_uint64 r.(raw_Timestamp)))]
  ++ (if (0 <? r.(raw_FeeLimit))%Z then [(18, Varint (as_uint64 r.(raw_FeeLimit)))] else []).

Lemma Encode_fields r : Encode r = flat_map put_field (raw_fields r).
Proof.
  unfold Encode, raw_fields, contract_fields, parameter_fields. cbv zeta.
  rewrite !appendVarintField_put, !appendBytesField_put. cbn [app flat_map]. rewrite !app_nil_r.
  destruct (0 <? raw_FeeLimit r)%Z; cbn [flat_map app]; by rewrite <-?app_assoc, ?app_nil_r.
Qed.

Lemma parameter_fields_ok r : raw_ok r → Forall wire_ok (parameter_fields r).
Proof. unfold raw_ok. intros Hr. repeat constructor; cbn [fst snd]; lia. Qed.

Lemma parameter_length r : raw_ok r → N.of_nat (length (flat_map put_field (parameter_fields r))) < 2 ^ 34.
Proof.
  intros Hr. unfold parameter_fields. cbn [flat_map]. rewrite app_nil_r, length_app.
  pose proof (put_bytes_length 1 (octets_of (raw_typeURL r))). pose proof (put_bytes_length 2 (raw_value r)). unfold raw_ok in Hr. lia.
Qed.

Lemma contract_fields_ok r : raw_ok r → Forall wire_ok (contract_fields r).
Proof.
  intros Hr%parameter_length. pose proof (as_uint64_bound (raw_contractType r)). repeat constructor; cbn [fst snd]; lia.
Qed.

Lemma raw_fields_ok r : raw_ok r → Forall wire_ok (raw_fields r).
Proof.
  intros Hr. pose proof (parameter_length r Hr) as Hp.
  pose proof (as_uint64_bound (raw_Expiration r)). pose proof (as_uint64_bound (raw_Timestamp r)).
  pose proof (as_uint64_bound (raw_FeeLimit r)).
  assert (N.of_nat (length (flat_map put_field (contract_fields r))) < 2 ^ 35).
  { unfold contract_fields. cbn [flat_map]. rewrite app_nil_r, length_app.
    pose proof (put_varint_length 1 (as_uint64 (raw_contractType r))).
    pose proof (put_bytes_length 2 (flat_map put_field (parameter_fields r))). lia. }
  unfold raw_ok in Hr. unfold raw_fields.
  repeat constructor; cbn [fst snd]; try lia. destruct (0 <? raw_FeeLimit r)%Z; repeat constructor; cbn [fst snd]; lia.
Qed.

Lemma raw_fields_lookup r :
  let fs := raw_fields r in
  bytes_field 1 fs = Some r.(raw_RefBlockBytes) ∧ bytes_field 4 fs = Some r.(raw_RefBlockHash)
  ∧ bytes_field 11 fs = Some (flat_map put_field (contract_fields r))
  ∧ varint_field 8 fs = as_uint64 r.(raw_Expiration) ∧ varint_field 14 fs = as_uint64 r.(raw_Timestamp)
  ∧ varint_field 18 fs = if (0 <? r.(raw_FeeLimit))%Z then as_uint64 r.(raw_FeeLimit) else 0.
Proof. unfold raw_fields. destruct (0 <? raw_FeeLimit r)%Z; by split_and!. Qed.

Lemma decode_raw_Encode r : raw_ok r → decode_raw (Encode r) = Some r.
Proof.
  intros Hr. unfold decode_raw. rewrite Encode_fields, message_put by (by apply raw_fields_ok). cbn [mbind option_bind].
  destruct (raw_fields_lookup r) as (-> & -> & -> & -> & -> & ->). cbn [mbind option_bind].
  rewrite message_put by (by apply contract_fields_ok). cbn [mbind option_bind].
  change (bytes_field 2 (contract_fields r)) with (Some (flat_map put_field (parameter_fields r))). cbn [mbind option_bind].
  rewrite message_put by (by apply parameter_fields_ok). cbn [mbind option_bind].
  change (bytes_field 1 (parameter_fields r)) with (Some (octets_of r.(raw_typeURL))).
  change (bytes_field 2 (parameter_fields r)) with (Some r.(raw_value)).
  change (varint_field 1 (contract_fields r)) with (as_uint64 r.(raw_contractType)). cbn [mbind option_bind].
  destruct Hr as (_ & _ & _ & _ & Hexp & Hts & Hfee & Htype). rewrite string_of_octets, !as_int64_roundtrip by done.
  assert (as_int64 (if (0 <? raw_FeeLimit r)%Z then as_uint64 (raw_FeeLimit r) else 0) = raw_FeeLimit r) as ->.
  { destruct (Z.ltb_spec 0 (raw_FeeLimit r)); [apply as_int64_roundtrip; lia|].
    assert (raw_FeeLimit r = 0%Z) as -> by lia. done. }
  by destruct r.
Qed.

(** *** Addresses, amounts, actions *)

Section addresses.
Context `{Base58}.

Lemma AddressBytes_form address raw :
  AddressBytes address = inr raw → ∃ hash, raw = addressVersion :: hash ∧ length hash = 20%nat
    ∧ CheckDecode (TrimSpace address) = Some (hash, addressVersion).
Proof.
  unfold AddressBytes, or_fail. destruct (CheckDecode _) as [[p v]|]; cbn; [|done].
  destruct (N.eqb_spec v addressVersion) as [->|]; cbn; [|done]. destruct (Nat.eqb_spec (length p) 20); cbn; [|done].
  intros [= <-]. eauto.
Qed.
(** A block reference a transaction may name. *)
Definition block_ok (ref : BlockRef) : Prop := length ref.(br_ID) = 32%nat ∧ (0 < ref.(br_Number))%Z.

(** A transaction that does [act] from [now] on, for a minute, and burns at most
    [fee]: what the bytes that are signed say. *)
Definition says (raw : RawTransaction) (act : action) (fee now : Z) (ref : BlockRef) : Prop :=
  decode_raw (Encode raw) = Some raw ∧ decode_action raw = Some act ∧ raw.(raw_FeeLimit) = fee
  ∧ raw.(raw_Timestamp) = UnixMilli now ∧ raw.(raw_Expiration) = (UnixMilli now + 60000)%Z
  ∧ of_big_endian raw.(raw_RefBlockBytes) = as_uint64 ref.(br_Number) mod 65536
  ∧ raw.(raw_RefBlockHash) = take 8 (drop 8 ref.(br_ID)).

Lemma newRaw_run ref now :
  match newRaw ref now with
  | inr raw => block_ok ref ∧ length raw.(raw_RefBlockBytes) = 2%nat
      ∧ of_big_endian raw.(raw_RefBlockBytes) = as_uint64 ref.(br_Number) mod 65536
      ∧ raw.(raw_RefBlockHash) = take 8 (drop 8 ref.(br_ID))
      ∧ raw.(raw_Timestamp) = UnixMilli now ∧ raw.(raw_Expiration) = (UnixMilli now + 60000)%Z ∧ raw.(raw_FeeLimit) = 0%Z
  | inl e => e = NoBlockReference ∧ ¬ block_ok ref
  end.
Proof.
  unfold newRaw, block_ok. destruct (Nat.eqb_spec (length ref.(br_ID)) 32); cbn [negb orb]; [|naive_solver].
  destruct (Z.leb_spec (br_Number ref) 0); [naive_solver lia|]. cbn -[big_endian drop take Z.add Z.mul Z.div]. split_and!; try done.
  - cbn -[N.div N.modulo]. generalize (as_uint64 (br_Number ref)). intros n. unfold of_big_endian. cbn -[N.div N.modulo]. solve_divmod.
  - unfold UnixMilli, defaultTransactionLifetime. Z.to_euclidean_division_equations; lia.
Qed.

(** The amount and the account of a token transfer, from its call data. *)
Definition call_data (account : list N) (amount : N) : list N :=
  [0xa9; 0x05; 0x9c; 0xbb] ++ repeat 0 12 ++ account ++ big_endian 32 amount.

Definition trx_fields (owner receiver : list N) (amountSun : Z) : list (N * wire) :=
  [(1, Bytes owner); (2, Bytes receiver); (3, Varint (as_uint64 amountSun))].
Definition trc20_fields (owner token account : list N) (amount : N) : list (N * wire) :=
  [(1, Bytes owner); (2, Bytes token); (4, Bytes (call_data account amount))].

Lemma decode_trx raw owner receiver amount :
  length owner = 21%nat → length receiver = 21%nat → (0 < amount < 2 ^ 63)%Z →
  decode_action (set_contract raw transferContractType transferContractURL
    (flat_map put_field (trx_fields owner receiver amount)) raw.(raw_FeeLimit)) = Some (Transfer owner receiver amount).
Proof.
  intros Ho Hr Ha. unfold decode_action. cbn [set_contract raw_value raw_contractType raw_typeURL].
  rewrite message_put. 2:{ pose proof (as_uint64_bound amount). repeat constructor; cbn [fst snd]; rewrite ?Ho, ?Hr; lia. }
  cbn -[as_int64 as_uint64 call_data]. rewrite bool_decide_true by done. cbn -[as_int64 as_uint64].
  by rewrite as_int64_roundtrip by lia.
Qed.

Lemma decode_trc20 raw owner token account amount fee :
  length owner = 21%nat → length token = 21%nat → length account = 20%nat → amount < 2 ^ 256 →
  decode_action (set_contract raw triggerSmartContractType triggerSmartContractURL
    (flat_map put_field (trc20_fields owner token account amount)) fee) = Some (TokenTransfer owner token account amount).
Proof.
  intros Ho Ht Hc Ha. unfold decode_action. cbn [set_contract raw_value raw_contractType raw_typeURL].
  assert (Hlen : length (call_data account amount) = 68%nat).
  { unfold call_data. rewrite !length_app, big_endian_length, Hc. done. }
  rewrite message_put. 2:{ repeat constructor; cbn [fst snd]; rewrite ?Ho, ?Ht, ?Hlen; lia. }
  cbn -[call_data big_endian take drop]. rewrite bool_decide_false by (by intros [? _]). rewrite bool_decide_true by done.
  cbn -[call_data big_endian take drop].
  rewrite bool_decide_true by (split_and!; [done | reflexivity | reflexivity]). do 2 f_equal.
  - change (drop 16 (call_data account amount)) with (account ++ big_endian 32 amount). by rewrite <-Hc, take_app_length.
  - change (drop 36 (call_data account amount)) with (drop 20 (account ++ big_endian 32 amount)).
    rewrite drop_app_length' by done. apply big_endian_roundtrip. eapply N.lt_le_trans; [done|]. apply N.leb_le. by vm_compute.
Qed.

(** What a prepared transaction says once its contract is in. *)
Lemma prepared_says ref now raw type url fs fee act :
  newRaw ref now = inr raw → (0 ≤ now < 2 ^ 63)%Z → (0 ≤ fee < 2 ^ 63)%Z → (0 ≤ type < 2 ^ 63)%Z →
  N.of_nat (length (flat_map put_field fs)) < 2 ^ 32 → N.of_nat (length (octets_of url)) < 2 ^ 32 →
  decode_action (set_contract raw type url (flat_map put_field fs) fee) = Some act →
  says (set_contract raw type url (flat_map put_field fs) fee) act fee now ref.
Proof.
  intros Hraw Hnow Hfee Htype Hval Hurl Hact. pose proof (newRaw_run ref now) as Hr. rewrite Hraw in Hr.
  destruct Hr as ([Hid _] & Hlen & Hnum & Hhash & Hts & Hexp & _).
  assert (Hms : (0 ≤ UnixMilli now < 2 ^ 60)%Z) by (unfold UnixMilli; Z.to_euclidean_division_equations; lia).
  split; [|by split_and!]. apply decode_raw_Encode. unfold raw_ok.
  cbn [set_contract raw_RefBlockBytes raw_RefBlockHash raw_value raw_typeURL raw_Expiration raw_Timestamp raw_FeeLimit raw_contractType].
  rewrite Hlen, Hhash, Hts, Hexp, length_take. split_and!; try done; lia.
Qed.

(** Every run of the two builders. *)
Lemma SendTRX_run from to amount ref now :
  (0 ≤ now < 2 ^ 63)%Z → (amount < 2 ^ 63)%Z →
  match SendTRX from to amount ref now with
  | inr raw => (0 < amount)%Z ∧ block_ok ref ∧ ∃ owner receiver,
      AddressBytes from = inr owner ∧ AddressBytes to = inr receiver ∧ says raw (Transfer owner receiver amount) 0 now ref
  | inl e => (amount ≤ 0)%Z ∧ e = AmountNotPositive
      ∨ (∃ e', AddressBytes from = inl e' ∧ e = From e')
      ∨ (∃ e', AddressBytes to = inl e' ∧ e = To e')
      ∨ ¬ block_ok ref ∧ e = NoBlockReference
  end.
Proof.
  intros Hnow Ham. unfold SendTRX. destruct (Z.leb_spec amount 0); [by left|].
  destruct (AddressBytes from) as [e|owner] eqn:Ef; cbn [wrapped mbind result_bind]; [by eauto|].
  destruct (AddressBytes to) as [e|receiver] eqn:Et; cbn [wrapped mbind result_bind]; [by eauto 6|].
  pose proof (newRaw_run ref now) as Hr. destruct (newRaw ref now) as [e|raw] eqn:Er; cbn [mbind result_bind]; [naive_solver|].
  destruct Hr as (Hb & _ & _ & _ & _ & _ & Hfee). split_and!; [done..|]. exists owner, receiver. split_and!; [done..|].
  apply AddressBytes_form in Ef as (h1 & -> & L1 & _), Et as (h2 & -> & L2 & _).
  rewrite appendVarintField_put, !appendBytesField_put. cbv zeta.
  replace ((([] ++ _) ++ _) ++ _) with (flat_map put_field (trx_fields (addressVersion :: h1) (addressVersion :: h2) amount))
    by (unfold trx_fields; cbn [flat_map]; rewrite app_nil_r, <-!app_assoc; done).
  rewrite Hfee. eapply prepared_says; try done; [|rewrite <-Hfee; apply decode_trx; cbn; lia].
  unfold trx_fields. cbn [flat_map]. rewrite app_nil_r, !length_app.
  pose proof (put_bytes_length 1 (addressVersion :: h1)) as P1. pose proof (put_bytes_length 2 (addressVersion :: h2)) as P2.
  pose proof (put_varint_length 3 (as_uint64 amount)). cbn [length] in P1, P2. lia.
Qed.

Lemma SendTRC20_run from token to amount fee ref now :
  (0 ≤ now < 2 ^ 63)%Z → (fee < 2 ^ 63)%Z →
  match SendTRC20 from token to amount fee ref now with
  | inr raw => ∃ units owner contract account,
      amount = Some units ∧ (0 < units < 2 ^ 256)%Z ∧ (0 < fee)%Z ∧ block_ok ref
      ∧ AddressBytes from = inr owner ∧ AddressBytes token = inr contract ∧ AddressBytes to = inr (addressVersion :: account)
      ∧ says raw (TokenTransfer owner contract account (Z.to_N units)) fee now ref
  | inl e => (∀ units, amount = Some units → ¬ (0 < units < 2 ^ 256)%Z) ∧ e = AmountNotPositive
      ∨ (fee ≤ 0)%Z ∧ e = NoFeeLimit
      ∨ (∃ e', AddressBytes from = inl e' ∧ e = From e')
      ∨ (∃ e', AddressBytes token = inl e' ∧ e = Token e')
      ∨ (∃ e', AddressBytes to = inl e' ∧ e = To e')
      ∨ ¬ block_ok ref ∧ e = NoBlockReference
  end.
Proof.
  intros Hnow Hfee. unfold SendTRC20. destruct amount as [units|]; [|by left].
  destruct ((units <=? 0)%Z || (2 ^ 256 <=? units)%Z) eqn:Eu.
  { left. split; [|done]. intros ? [= <-]. apply orb_true_iff in Eu as [?%Z.leb_le|?%Z.leb_le]; lia. }
  apply orb_false_iff in Eu as [?%Z.leb_gt ?%Z.leb_gt].
  destruct (Z.leb_spec fee 0); [by eauto|].
  destruct (AddressBytes from) as [e|owner] eqn:Ef; cbn [wrapped mbind result_bind]; [by eauto 6|].
  destruct (AddressBytes token) as [e|contract] eqn:Ek; cbn [wrapped mbind result_bind]; [by eauto 7|].
  destruct (AddressBytes to) as [e|receiver] eqn:Et; cbn [wrapped mbind result_bind]; [by eauto 8|].
  pose proof (newRaw_run ref now) as Hr. destruct (newRaw ref now) as [e|raw] eqn:Er; cbn [mbind result_bind]; [naive_solver|].
  destruct Hr as (Hb & _). apply AddressBytes_form in Ef as (h1 & -> & L1 & _), Ek as (h2 & -> & L2 & _), Et as (h3 & -> & L3 & _).
  exists units, (addressVersion :: h1), (addressVersion :: h2), h3. split_and!; try done.
  cbv zeta. rewrite !appendBytesField_put. change (drop 1 (addressVersion :: h3)) with h3.
  replace (((default [] (hex_decode trc20TransferSelector) ++ repeat 0 12) ++ h3) ++ big_endian 32 (Z.to_N units))
    with (call_data h3 (Z.to_N units)) by (unfold call_data; rewrite <-!app_assoc; done).
  replace ((([] ++ _) ++ _) ++ _) with
    (flat_map put_field (trc20_fields (addressVersion :: h1) (addressVersion :: h2) h3 (Z.to_N units)))
    by (unfold trc20_fields; cbn [flat_map]; rewrite app_nil_r, <-!app_assoc; done).
  eapply prepared_says; [done | done | lia | done | | done | apply decode_trc20; cbn; lia].
  unfold trc20_fields. cbn [flat_map]. rewrite app_nil_r, !length_app.
  pose proof (put_bytes_length 1 (addressVersion :: h1)) as P1. pose proof (put_bytes_length 2 (addressVersion :: h2)) as P2.
  pose proof (put_bytes_length 4 (call_data h3 (Z.to_N units))) as P3. unfold call_data in P3 at 2. rewrite !length_app, big_endian_length in P3.
  cbn [length repeat] in P1, P2, P3. lia.
Qed.
End addresses.

(** *** What the packages promise *)

(** base58check gives back what it was given, and is printable. *)
Class Base58Laws `{Base58} : Prop := {
  base58_roundtrip p : octets p → CheckDecode (CheckEncode p addressVersion) = Some (p, addressVersion);
  base58_octets s p v : CheckDecode s = Some (p, v) → octets p;
  base58_printable p : octets p → TrimSpace (CheckEncode p addressVersion) = CheckEncode p addressVersion }.

(** A Keccak-256 digest has 32 bytes; a compact signature of a 32-byte hash is
    27 plus the recovery ID, then r and s, and gives the signer's key back. *)
Class CurveLaws `{Curve} : Prop := {
  keccak_length l : length (Keccak256 l) = 32%nat;
  keccak_octets l : octets (Keccak256 l);
  compact_form key id : length id = 32%nat →
    ∃ v rs, v < 4 ∧ length rs = 64%nat ∧ octets rs ∧ SignCompact key id false = (27 + v) :: rs;
  compact_recover key id : length id = 32%nat → RecoverCompact (SignCompact key id false) id = Some (PubKey key) }.

(** BIP32: deriving a normal child commutes with dropping the private part;
    depths count derivations; a serialised key is read back. *)
Class HDLaws `{HDKeys} : Prop := {
  master_private seed k : NewMaster seed = Some k → IsPrivate k = true ∧ Depth k = 0;
  derive_private k i c : Derive k i = Some c → IsPrivate k = true → IsPrivate c = true;
  derive_depth k i c : Derive k i = Some c → Depth c = Depth k + 1;
  derive_neuter k p i c : IsPrivate k = true → i < HardenedKeyStart → Neuter k = Some p → Derive k i = Some c →
    ∃ q, Derive p i = Some q ∧ Neuter c = Some q;
  neuter_public k p : Neuter k = Some p → IsPrivate p = false ∧ Depth p = Depth k;
  neuter_key k p secret : Neuter k = Some p → ECPrivKey k = Some secret → ECPubKey p = Some (PubKey secret);
  key_string k : NewKeyFromString (KeyString k) = Some k;
  key_printable k : TrimSpace (KeyString k) = KeyString k }.

(** *** base58check *)

(** An implementation of the [Base58] interface, with the laws proved: digits of
    a number, most significant first; leading zero bytes are ones. *)
Module base58.

Fixpoint digits (fuel : nat) (b n : N) (acc : list N) : list N :=
  match fuel with
  | O => acc
  | S fuel' => if n =? 0 then acc else digits fuel' b (n / b) (n mod b :: acc)
  end.
Definition to_digits (b n : N) : list N := digits (N.to_nat (N.size n)) b n [].
Definition of_digits (b : N) (l : list N) : N := foldl (λ acc d, acc * b + d) 0 l.

Definition alphabet : list ascii := bytes_of "123456789ABCDEFGHJKLMNPQRSTUVWXYZabcdefghijkmnopqrstuvwxyz".
Definition to_char (d : N) : ascii := nth (N.to_nat d) alphabet "1"%char.
Fixpoint index_of (c : ascii) (l : list ascii) : option N :=
  match l with [] => None | x :: l' => if Ascii.eqb x c then Some 0 else N.succ <$> index_of c l' end.
Definition of_char (c : ascii) : option N := index_of c alphabet.

Fixpoint leading (l : list N) : list N := match l with d :: l' => if d =? 0 then 0 :: leading l' else [] | [] => [] end.

Definition encode (raw : list N) : string := of_bytes (to_char <$> leading raw ++ to_digits 58 (of_digits 256 raw)).
Definition decode (s : string) : option (list N) :=
  l ← mapM of_char (bytes_of s);
  Some (leading l ++ to_digits 256 (of_digits 58 l)).

Definition checksum (raw : list N) : list N := take 4 (Sum256 (Sum256 raw)).

#[export] Instance check : Base58 := {|
  CheckEncode payload version := encode ((version :: payload) ++ checksum (version :: payload));
  CheckDecode s :=
    raw ← decode s;
    let body := take (length raw - 4) raw in
    if (length raw <? 5)%nat || negb (bool_decide (drop (length raw - 4) raw = checksum body)) then None
    else match body with version :: payload => Some (payload, version) | [] => None end |}.

Lemma digits_value b fuel n acc : 2 ≤ b → n < 2 ^ N.of_nat fuel →
  of_digits b (digits fuel b n acc) = foldl (λ acc d, acc * b + d) n acc.
Proof.
  intros Hb. revert n acc. induction fuel as [|fuel IH]; intros n acc Hn; cbn [digits].
  - cbn in Hn. by assert (n = 0) as -> by lia.
  - destruct (N.eqb_spec n 0) as [->|Hn0]; [done|]. rewrite Nat2N.inj_succ, N.pow_succ_r' in Hn. rewrite IH.
    + cbn. f_equal. rewrite (N.div_mod n b) at 3 by lia. lia.
    + apply N.Div0.div_lt_upper_bound. nia.
Qed.

Lemma of_to_digits b n : 2 ≤ b → of_digits b (to_digits b n) = n.
Proof. intros Hb. unfold to_digits. rewrite digits_value; [done | done |]. rewrite N2Nat.id. apply N.size_gt. Qed.

Lemma digits_below b fuel n acc : b ≠ 0 → Forall (λ d, d < b) acc → Forall (λ d, d < b) (digits fuel b n acc).
Proof.
  intros Hb. revert n acc. induction fuel as [|fuel IH]; intros n acc Hacc; cbn [digits]; [done|].
  destruct (n =? 0); [done|]. apply IH. constructor; [by apply N.mod_lt | done].
Qed.

(** The first digit of a number is not zero. *)
Lemma digits_leading b fuel n acc : 2 ≤ b → n ≠ 0 → n < 2 ^ N.of_nat fuel → leading (digits fuel b n acc) = [].
Proof.
  intros Hb. revert n acc. induction fuel as [|fuel IH]; intros n acc Hn0 Hn; cbn [digits]; [cbn in Hn; lia|].
  destruct (N.eqb_spec n 0) as [|_]; [done|]. rewrite Nat2N.inj_succ, N.pow_succ_r' in Hn.
  destruct (N.eq_dec (n / b) 0) as [E|E].
  - assert (n < b) by (by apply N.div_small_iff; [lia|]). rewrite E, N.mod_small by done.
    destruct fuel; cbn; by rewrite (proj2 (N.eqb_neq n 0) Hn0).
  - apply IH; [done|]. apply N.Div0.div_lt_upper_bound. nia.
Qed.

Lemma of_digits_snoc b l d : of_digits b (l ++ [d]) = of_digits b l * b + d.
Proof. unfold of_digits. by rewrite foldl_app. Qed.

Lemma of_digits_nonzero b d l : b ≠ 0 → d ≠ 0 → of_digits b (d :: l) ≠ 0.
Proof.
  intros Hb Hd. induction l as [|e l IH] using rev_ind; [cbn; lia|].
  rewrite app_comm_cons, of_digits_snoc. nia.
Qed.

Lemma digits_of b fuel d l acc : 2 ≤ b → d ≠ 0 → Forall (λ d, d < b) (d :: l) → of_digits b (d :: l) < 2 ^ N.of_nat fuel →
  digits fuel b (of_digits b (d :: l)) acc = (d :: l) ++ acc.
Proof.
  intros Hb Hd. revert fuel acc. induction l as [|e l IH] using rev_ind; intros fuel acc Hall Hlt.
  - apply Forall_cons in Hall as [Hdb _]. change (of_digits b [d]) with (0 * b + d) in *. rewrite N.mul_0_l, N.add_0_l in *.
    destruct fuel as [|fuel]; [cbn in Hlt; lia|]. cbn [digits]. rewrite (proj2 (N.eqb_neq d 0) Hd), N.div_small, N.mod_small by done.
    by destruct fuel.
  - rewrite app_comm_cons in *. apply Forall_app in Hall as [Hall [He _]%Forall_cons].
    rewrite of_digits_snoc in *. pose proof (of_digits_nonzero b d l ltac:(lia) Hd) as Hnz.
    assert (Hge : 1 * b ≤ of_digits b (d :: l) * b) by (apply N.mul_le_mono_r; lia).
    destruct fuel as [|fuel]; [change (2 ^ N.of_nat 0) with 1 in Hlt; lia|].
    rewrite Nat2N.inj_succ, N.pow_succ_r' in Hlt. cbn [digits].
    rewrite (proj2 (N.eqb_neq _ 0)) by nia.
    rewrite (N.div_add_l _ b e), (N.div_small e b), N.add_0_r by lia. rewrite (N.add_comm _ e), N.Div0.mod_add, (N.mod_small e b) by done.
    assert (2 * of_digits b (d :: l) ≤ of_digits b (d :: l) * b) by (rewrite N.mul_comm; by apply N.mul_le_mono_l).
    rewrite IH by (try done; lia). by rewrite <-app_assoc.
Qed.

Lemma to_of_digits b d l : 2 ≤ b → d ≠ 0 → Forall (λ d, d < b) (d :: l) → to_digits b (of_digits b (d :: l)) = d :: l.
Proof.
  intros Hb Hd Hall. unfold to_digits. rewrite digits_of; [by rewrite app_nil_r | done..|]. rewrite N2Nat.id. apply N.size_gt.
Qed.

Lemma of_to_char d : d < 58 → of_char (to_char d) = Some d.
Proof.
  intros Hd. pose proof (below_by_compute (λ d, match of_char (to_char d) with Some e => e =? d | None => false end) 58
    ltac:(by vm_compute) d Hd) as E. cbv beta in E. destruct (of_char _); [|done]. by apply N.eqb_eq in E as ->.
Qed.

Lemma mapM_of_char l : Forall (λ d, d < 58) l → mapM of_char (to_char <$> l) = Some l.
Proof. induction 1 as [|d l Hd _ IH]; [done|]. cbn [fmap list_fmap mapM]. rewrite of_to_char by done. cbn [mbind option_bind]. by rewrite IH. Qed.

(** Bytes that start with a nonzero one. *)
Lemma decode_encode d l : d ≠ 0 → octets (d :: l) → decode (encode (d :: l)) = Some (d :: l).
Proof.
  intros Hd Hall. unfold decode, encode. assert (leading (d :: l) = []) as -> by (cbn; by rewrite (proj2 (N.eqb_neq d 0) Hd)).
  cbn [app]. rewrite String.list_ascii_of_string_of_list_ascii. set (n := of_digits 256 (d :: l)).
  assert (Hn : n ≠ 0) by (by apply of_digits_nonzero).
  rewrite mapM_of_char by (by apply digits_below). cbn [mbind option_bind].
  rewrite of_to_digits by lia. unfold to_digits at 1. rewrite digits_leading; [|lia|done|rewrite N2Nat.id; apply N.size_gt].
  cbn [app]. unfold n. by rewrite to_of_digits.
Qed.

Lemma decode_octets s raw : decode s = Some raw → octets raw.
Proof.
  unfold decode. intros (l & _ & [= <-])%bind_Some. apply Forall_app_2; [|by apply digits_below].
  generalize l. clear. induction l as [|d l IH]; cbn; [constructor|]. destruct (d =? 0); constructor; [lia | done].
Qed.

Lemma encode_printable d l : d ≠ 0 → TrimSpace (encode (d :: l)) = encode (d :: l).
Proof.
  intros Hd. apply TrimSpace_id. unfold encode. assert (leading (d :: l) = []) as -> by (cbn; by rewrite (proj2 (N.eqb_neq d 0) Hd)).
  cbn [app]. rewrite String.list_ascii_of_string_of_list_ascii. apply Forall_fmap.
  eapply Forall_impl; [by apply (digits_below 58)|]. intros e He. cbn. apply negb_true_iff.
  by apply (below_by_compute (λ d, negb (is_space (to_char d))) 58).
Qed.

#[export] Instance laws : Base58Laws.
Proof.
  split.
  - intros p Hp. cbn [CheckDecode CheckEncode check app]. set (sum := checksum (addressVersion :: p)).
    assert (Hsum : length sum = 4%nat) by (unfold sum, checksum; rewrite length_take, Sum256_length; done).
    assert (Hall : octets (addressVersion :: p ++ sum)).
    { constructor; [done|]. apply Forall_app_2; [done|]. apply Forall_take, Sum256_octets. }
    rewrite decode_encode by done. cbn [mbind option_bind]. rewrite app_comm_cons.
    assert (length ((addressVersion :: p) ++ sum) - 4 = length (addressVersion :: p))%nat as ->
      by (rewrite length_app, Hsum; lia).
    rewrite take_app_length, drop_app_length, bool_decide_true by done.
    rewrite (proj2 (Nat.ltb_ge _ _)) by (rewrite length_app, Hsum; cbn; lia). done.
  - intros s p v. cbn [CheckDecode check]. intros (raw & Hraw & Hv)%bind_Some. apply decode_octets in Hraw.
    destruct (_ || _); [done|]. apply (Forall_take _ (length raw - 4)) in Hraw.
    destruct (take (length raw - 4) raw); [done|]. injection Hv as <- <-. by apply Forall_cons in Hraw as [_ ?].
  - intros p Hp. by apply encode_printable.
Qed.
End base58.

(** Tether's contract, and its bytes as Tron publishes them. *)
Example USDT_bytes : @AddressBytes base58.check USDTContract
  = inr (default [] (hex_decode "41a614f803b6fd780986a42c78ec9c7f77e6ded13c")).
Proof. vm_compute. reflexivity. Qed.

(** *** Keys *)

(** Any 32-byte numbers as keys, enough to satisfy the laws. *)
Definition toy_curve : Curve := {|
  PublicKey := N;
  PrivateKey := N;
  PubKey key := key mod 256 ^ 32;
  SerializeUncompressed key := 4 :: big_endian 64 key;
  Keccak256 := Sum256;
  SignCompact key id _ := 27 :: big_endian 32 (key mod 256 ^ 32) ++ Sum256 id;
  RecoverCompact compact id :=
    if bool_decide (drop 33 compact = Sum256 id) then Some (of_big_endian (take 32 (drop 1 compact))) else None |}.

Lemma toy_curve_laws : @CurveLaws toy_curve.
Proof.
  split; cbn -[take drop big_endian of_big_endian Sum256 N.pow N.modulo].
  - apply Sum256_length.
  - apply Sum256_octets.
  - intros key id _. exists 0, (big_endian 32 (key mod 256 ^ 32) ++ Sum256 id). split_and!; [lia | | | done].
    + by rewrite length_app, big_endian_length, Sum256_length.
    + apply Forall_app_2; [apply big_endian_octets | apply Sum256_octets].
  - intros key id _. cbn [drop]. rewrite drop_app_length' by (by rewrite big_endian_length).
    rewrite bool_decide_true by done. f_equal.
    rewrite drop_0, (take_app_length' _ _ 32) by (by rewrite big_endian_length). apply big_endian_roundtrip. apply N.mod_lt. by vm_compute.
Qed.

(** Extended keys as (private, depth, number). *)
Definition toy_hd : @HDKeys toy_curve := @Build_HDKeys toy_curve (bool * N * N)
  (λ _, true) (λ phrase _, octets_of phrase) (λ seed, Some (true, 0, of_big_endian seed))
  (λ k i, if negb k.1.1 && (HardenedKeyStart <=? i) then None else Some (k.1.1, k.1.2 + 1, k.2 * 31 + i))
  (λ k, Some (false, k.1.2, k.2)) (λ k, Some (k.2 mod 256 ^ 32)) (λ k, if k.1.1 then Some k.2 else None)
  (λ k, k.1.1) (λ k, k.1.2)
  (λ k, raw_url_encode (base58.to_digits 256 (N.pos (encode k))))
  (λ s, raw ← raw_url_decode s; match base58.of_digits 256 raw with N.pos p => decode p | 0 => None end).

Lemma toy_hd_laws : @HDLaws toy_curve toy_hd.
Proof.
  split; cbn -[N.pow N.modulo base58.to_digits base58.of_digits raw_url_encode raw_url_decode].
  - intros seed k [= <-]. done.
  - intros k i c. destruct (_ && _); [done|]. intros [= <-]. done.
  - intros k i c. destruct (_ && _); [done|]. intros [= <-]. done.
  - intros k p i c Hk Hi [= <-]. rewrite Hk. cbn. intros [= <-].
    rewrite (proj2 (N.leb_gt _ _) Hi). eexists. split; [done|]. done.
  - intros k p [= <-]. done.
  - intros k p secret [= <-]. destruct (k.1.1); [|done]. intros [= <-]. done.
  - intros k. rewrite raw_url_roundtrip by (by apply base58.digits_below). cbn [mbind option_bind].
    rewrite base58.of_to_digits by lia. apply decode_encode.
  - intros k. apply raw_url_encode_trim. by apply base58.digits_below.
Qed.

(** *** Derivation and bytes *)

Lemma derive_path_facts `{Curve} `{!HDKeys} `{!HDLaws} path : ∀ k c,
  derive_path k path = inr c → Depth c = Depth k + N.of_nat (length path) ∧ (IsPrivate k = true → IsPrivate c = true).
Proof.
  induction path as [|i path IH]; intros k c; cbn [derive_path length].
  - intros [= <-]. split; [lia | done].
  - unfold or_fail. destruct (Derive k i) as [c'|] eqn:E; cbn [mbind result_bind]; [|done]. intros Hc%IH.
    apply derive_depth in E as Ed. destruct Hc as [-> Hp]. split; [lia|]. intros Hk. apply Hp. by eapply derive_private.
Qed.

Lemma opened_wallet `{Curve} `{!HDKeys} `{!HDLaws} phrase w :
  OpenWallet phrase = inr w → IsPrivate w.(wa_deposits) = true ∧ Depth w.(wa_deposits) = depositPathDepth.
Proof.
  unfold OpenWallet, receivingKey, or_fail. cbv zeta. destruct (negb _); [done|].
  destruct (NewMaster _) as [k|] eqn:Ek; cbn [mbind result_bind]; [|done].
  destruct (derive_path k _) as [e|c] eqn:Ec; cbn [mbind result_bind]; [done|]. intros [= <-]. cbn [wa_deposits].
  apply master_private in Ek as [Hp Hd]. apply derive_path_facts in Ec as [-> Hc]. split; [auto|]. by rewrite Hd.
Qed.

(** ** Properties *)

(** Encoding loses nothing.  A transaction whose numbers and sizes fit is
    read back unchanged from the bytes that are hashed and signed, so two
    transactions with the same bytes are the same transaction; and the signed
    message gives back the transaction's bytes and the signature. *)
Theorem Encode_roundtrip r (Hr : raw_ok r) :
  decode_raw (Encode r) = Some r
  ∧ (∀ r', raw_ok r' → Encode r' = Encode r → r' = r)
  ∧ ∀ signature, N.of_nat (length signature) < 2 ^ 64 → N.of_nat (length (Encode r)) < 2 ^ 64 →
      message (SignedTransaction (Encode r) signature) = Some [(1, Bytes (Encode r)); (2, Bytes signature)].
Proof.
  split_and!; [by apply decode_raw_Encode | |].
  - intros r' Hr' E. apply decode_raw_Encode in Hr, Hr'. congruence.
  - intros signature Hs Hl. unfold SignedTransaction. cbv zeta. rewrite !appendBytesField_put. cbn [app].
    pose proof (message_put [(1, Bytes (Encode r)); (2, Bytes signature)]) as Hm. cbn [flat_map] in Hm. rewrite app_nil_r in Hm.
    apply Hm. by repeat constructor.
Qed.

Section sending.
Context `{Base58}.

(** A token transfer says what was asked.  It is built exactly when the
    amount is positive and fits 256 bits, a fee limit is given, the three
    addresses are valid and the block is named in full; the bytes that are then
    signed call transfer of that token, from the sender, to that account, for
    exactly that amount, burn at most that fee, name that block and expire a
    minute later.  The error says which condition failed. *)
Theorem SendTRC20_spec from token to amount fee ref now
  (Hnow : (0 ≤ now < 2 ^ 63)%Z) (Hfee : (fee < 2 ^ 63)%Z) :
  match SendTRC20 from token to amount fee ref now with
  | inr raw => ∃ units owner contract account,
      amount = Some units ∧ (0 < units < 2 ^ 256)%Z ∧ (0 < fee)%Z ∧ block_ok ref
      ∧ AddressBytes from = inr owner ∧ AddressBytes token = inr contract ∧ AddressBytes to = inr (addressVersion :: account)
      ∧ says raw (TokenTransfer owner contract account (Z.to_N units)) fee now ref
  | inl e => (∀ units, amount = Some units → ¬ (0 < units < 2 ^ 256)%Z) ∧ e = AmountNotPositive
      ∨ (fee ≤ 0)%Z ∧ e = NoFeeLimit
      ∨ (∃ e', AddressBytes from = inl e' ∧ e = From e')
      ∨ (∃ e', AddressBytes token = inl e' ∧ e = Token e')
      ∨ (∃ e', AddressBytes to = inl e' ∧ e = To e')
      ∨ ¬ block_ok ref ∧ e = NoBlockReference
  end.
Proof. by apply SendTRC20_run. Qed.

(** Sending TRX says what was asked: from the sender, to the receiver,
    exactly that positive amount, with no contract fee, for a minute. *)
Theorem SendTRX_spec from to amount ref now
  (Hnow : (0 ≤ now < 2 ^ 63)%Z) (Ham : (amount < 2 ^ 63)%Z) :
  match SendTRX from to amount ref now with
  | inr raw => (0 < amount)%Z ∧ block_ok ref ∧ ∃ owner receiver,
      AddressBytes from = inr owner ∧ AddressBytes to = inr receiver ∧ says raw (Transfer owner receiver amount) 0 now ref
  | inl e => (amount ≤ 0)%Z ∧ e = AmountNotPositive
      ∨ (∃ e', AddressBytes from = inl e' ∧ e = From e')
      ∨ (∃ e', AddressBytes to = inl e' ∧ e = To e')
      ∨ ¬ block_ok ref ∧ e = NoBlockReference
  end.
Proof. by apply SendTRX_run. Qed.

(** Addresses round-trip.  An address read from text is written back as an
    address with the same bytes; 21 bytes that start with 0x41 are written as
    text that reads back as them, and nothing else is written; and the address
    of a key is valid. *)
Theorem address_roundtrip `{!Base58Laws} `{Curve} `{!CurveLaws} :
  (∀ raw, octets raw →
     match AddressFromBytes raw with
     | inr address => AddressBytes address = inr raw ∧ ValidAddress address = true
     | inl e => e = InvalidAddressBytes ∧ (length raw ≠ 21%nat ∨ head raw ≠ Some addressVersion)
     end)
  ∧ (∀ address raw, AddressBytes address = inr raw → ∃ canonical, AddressFromBytes raw = inr canonical
       ∧ AddressBytes canonical = inr raw)
  ∧ (∀ key, ValidAddress (AddressFromPublicKey key) = true).
Proof.
  assert (Hback : ∀ hash, octets hash → length hash = 20%nat → AddressBytes (encodeAddress hash) = inr (addressVersion :: hash)).
  { intros hash Ho Hl. unfold AddressBytes, encodeAddress, or_fail. rewrite base58_printable, base58_roundtrip by done.
    cbn [mbind result_bind]. by rewrite N.eqb_refl, Hl. }
  split_and!.
  - intros [|v hash] Ho; [split; [done | by left]|]. unfold AddressFromBytes. apply Forall_cons in Ho as [_ Ho].
    destruct (Nat.eqb_spec (length (v :: hash)) 21) as [Hl|Hl]; cbn [andb]; [|split; [done | by left]].
    destruct (N.eqb_spec v addressVersion) as [->|Hv]; [|split; [done|]; right; cbn; congruence].
    unfold ValidAddress. rewrite Hback by (try done; cbn in Hl; lia). done.
  - intros address raw Ha. apply AddressBytes_form in Ha as (hash & -> & Hl & Hd). exists (encodeAddress hash).
    split; [|apply Hback; [by eapply base58_octets | done]]. unfold AddressFromBytes. cbn [length]. by rewrite Hl.
  - intros key. unfold ValidAddress, AddressFromPublicKey. rewrite Hback; [done | |].
    + apply Forall_drop, keccak_octets.
    + unfold addressHash. by rewrite length_drop, keccak_length.
Qed.

(** Signatures name their signer.  A signature is 65 bytes, and checking it
    against the same transaction gives the address of the key that made it. *)
Theorem signature_roundtrip `{Curve} `{!CurveLaws} rawData key :
  length (Sign rawData key) = 65%nat ∧ octets (Sign rawData key)
  ∧ Signer rawData (Sign rawData key) = inr (AddressFromPublicKey (PubKey key)).
Proof.
  unfold Sign, Signer, TxID. cbv zeta.
  destruct (compact_form key (Sum256 rawData) (Sum256_length _)) as (v & rs & Hv & Hl & Ho & E).
  pose proof (compact_recover key (Sum256 rawData) (Sum256_length _)) as Hrec. rewrite E in Hrec |- *.
  change (drop 1 (27 + v :: rs)) with rs. cbn [nth].
  assert (((27 + v + 229) mod 256) = v) as -> by solve_divmod.
  split_and!.
  - by rewrite length_app, Hl.
  - apply Forall_app_2; [done|]. repeat constructor. lia.
  - rewrite length_app, Hl. cbn [length Nat.add Nat.eqb negb orb].
    rewrite (take_app_length' rs [v] 64) by done.
    assert (nth 64 (rs ++ [v]) 0 = v) as -> by (rewrite app_nth2 by lia; by rewrite Hl).
    rewrite (proj2 (N.ltb_ge 3 v)) by lia. unfold or_fail. by rewrite Hrec.
Qed.

(** The control plane and the payments service agree on deposit addresses.
    The extended public key of an opened wallet is accepted by the control
    plane, and whatever address the wallet holds the key of under an index, the
    control plane derives the same one under that index; neither derives
    hardened indices. *)
Theorem deposit_addresses_agree `{Curve} `{!HDKeys} `{!HDLaws} phrase w xpub
  (Hopen : OpenWallet phrase = inr w) (Hxpub : XPub w = inr xpub) :
  ∃ d, ParseDepositXPub xpub = inr d
    ∧ (∀ index address, WalletAddress w index = inr address → DepositAddress d index = inr address)
    ∧ (∀ index, HardenedKeyStart ≤ index → WalletAddress w index = inl IndexOutOfRange ∧ DepositAddress d index = inl IndexOutOfRange).
Proof.
  apply opened_wallet in Hopen as [Hpriv Hdepth]. unfold XPub, or_fail in Hxpub.
  destruct (Neuter w.(wa_deposits)) as [p|] eqn:En; cbn [mbind result_bind] in Hxpub; [|done]. injection Hxpub as <-.
  pose proof (neuter_public _ _ En) as [Hpub Hpd]. exists (MkDepositKey p). split_and!.
  - unfold ParseDepositXPub, or_fail. rewrite key_printable, key_string. cbn [mbind result_bind].
    by rewrite Hpub, Hpd, Hdepth, N.eqb_refl.
  - intros index address. unfold WalletAddress, Key, DepositAddress, or_fail.
    destruct (N.leb_spec HardenedKeyStart index) as [|Hi]; [done|]. cbn [dk_key].
    destruct (Derive w.(wa_deposits) index) as [c|] eqn:Ed; cbn [mbind result_bind]; [|done].
    destruct (ECPrivKey c) as [secret|] eqn:Es; cbn [mbind result_bind]; [|done]. intros [= <-].
    destruct (derive_neuter _ _ _ _ Hpriv Hi En Ed) as (q & -> & Hq). cbn [mbind result_bind].
    by rewrite (neuter_key _ _ _ Hq Es).
  - intros index Hi. unfold WalletAddress, Key, DepositAddress. by rewrite (proj2 (N.leb_le _ _) Hi).
Qed.
End sending.

(** *** Samples *)

Definition sample_block : BlockRef := MkBlockRef 74565 (repeat 7 32).
Definition sample_payer : string := @AddressFromPublicKey base58.check toy_curve 5.
Definition sample_payee : string := @AddressFromPublicKey base58.check toy_curve 6.
Definition sample_transfer : RawTransaction :=
  match @SendTRC20 base58.check sample_payer USDTContract sample_payee (Some 1500000%Z) 30000000 sample_block 1700000000000000000 with
  | inr raw => raw
  | inl _ => MkRaw [] [] 0 0 0 0 "" []
  end.

Definition sample_trx : RawTransaction :=
  match @SendTRX base58.check sample_payer sample_payee 5 sample_block 1700000000000000000 with
  | inr raw => raw
  | inl _ => MkRaw [] [] 0 0 0 0 "" []
  end.

Lemma Encode_roundtrip_witness : decode_raw (Encode sample_transfer) = Some sample_transfer.
Proof. apply (Encode_roundtrip sample_transfer). vm_compute. split_and!; done. Defined.

Lemma SendTRC20_spec_witness :
  ∃ owner contract account,
    @AddressBytes base58.check USDTContract = inr contract
    ∧ says sample_transfer (TokenTransfer owner contract account 1500000) 30000000 1700000000000000000 sample_block.
Proof.
  pose proof (@SendTRC20_spec base58.check sample_payer USDTContract sample_payee (Some 1500000%Z) 30000000 sample_block
    1700000000000000000 ltac:(done) ltac:(done)) as Hs.
  assert (E : @SendTRC20 base58.check sample_payer USDTContract sample_payee (Some 1500000%Z) 30000000 sample_block
    1700000000000000000 = inr sample_transfer) by (vm_compute; reflexivity).
  rewrite E in Hs. destruct Hs as (units & owner & contract & account & [= <-] & _ & _ & _ & _ & Hc & _ & Hsays).
  exists owner, contract, account. split; [exact Hc | exact Hsays].
Defined.

Lemma SendTRX_spec_witness :
  ∃ raw owner receiver, @SendTRX base58.check sample_payer sample_payee 5 sample_block 1700000000000000000 = inr raw
    ∧ says raw (Transfer owner receiver 5) 0 1700000000000000000 sample_block.
Proof.
  pose proof (@SendTRX_spec base58.check sample_payer sample_payee 5 sample_block 1700000000000000000 ltac:(done) ltac:(done)) as Hs.
  assert (E : @SendTRX base58.check sample_payer sample_payee 5 sample_block 1700000000000000000 = inr sample_trx)
    by (vm_compute; reflexivity).
  rewrite E in Hs. destruct Hs as (_ & _ & owner & receiver & _ & _ & Hsays). exists sample_trx, owner, receiver.
  split; [exact E | exact Hsays].
Defined.

Lemma address_roundtrip_witness :
  @ValidAddress base58.check sample_payer = true
  ∧ ∃ canonical, @AddressFromBytes base58.check (default [] (hex_decode "41a614f803b6fd780986a42c78ec9c7f77e6ded13c")) = inr canonical
    ∧ @AddressBytes base58.check canonical = inr (default [] (hex_decode "41a614f803b6fd780986a42c78ec9c7f77e6ded13c")).
Proof.
  destruct (@address_roundtrip base58.check base58.laws toy_curve toy_curve_laws) as (_ & Hread & Hkey).
  split; [apply Hkey|]. apply (Hread USDTContract). vm_compute. reflexivity.
Defined.

Lemma signature_roundtrip_witness :
  @Signer base58.check toy_curve [1; 2; 3] (@Sign toy_curve [1; 2; 3] 5) = inr sample_payer.
Proof. apply (@signature_roundtrip base58.check toy_curve toy_curve_laws [1; 2; 3] 5). Defined.

Definition succeeds {A} (r : tron_error + A) : bool := match r with inr _ => true | inl _ => false end.
Lemma succeeds_with {A} (r : tron_error + A) d : succeeds r = true → r = inr (match r with inr a => a | inl _ => d end).
Proof. by destruct r. Qed.

Definition sample_wallet : @Wallet toy_curve toy_hd :=
  match @OpenWallet toy_curve toy_hd "  a   b " with inr w => w | inl _ => @MkWallet toy_curve toy_hd (false, 0, 0) end.
Definition sample_xpub : string :=
  match @XPub toy_curve toy_hd sample_wallet with inr xpub => xpub | inl _ => "" end.
Definition sample_deposit : string :=
  match @WalletAddress base58.check toy_curve toy_hd sample_wallet 3 with inr address => address | inl _ => "" end.

Lemma deposit_addresses_agree_witness :
  ∃ d, @ParseDepositXPub toy_curve toy_hd sample_xpub = inr d
    ∧ @DepositAddress base58.check toy_curve toy_hd d 3 = inr sample_deposit
    ∧ @DepositAddress base58.check toy_curve toy_hd d HardenedKeyStart = inl IndexOutOfRange.
Proof.
  destruct (@deposit_addresses_agree base58.check toy_curve toy_hd toy_hd_laws "  a   b " sample_wallet sample_xpub)
    as (d & Hd & Hsame & Hrange).
  - apply succeeds_with. vm_compute. reflexivity.
  - apply succeeds_with. vm_compute. reflexivity.
  - exists d. split_and!; [exact Hd | apply Hsame, succeeds_with; vm_compute; reflexivity | apply Hrange; done].
Defined.
