(* ===== verification/Archive.v ===== *)
(** * The archive of a runtime's data

    Models how the node agent packs a runtime's /data into a tar archive and
    unpacks one (cmd/virtnoded/blobstore.go: [addDirectoryToTar] to
    [addRegularFileEntry], [extractTarToRoot], [canonicalArchiveRelativePath],
    [ensureRootPathHasNoSymlinks], [pruneEphemeralAndroidState],
    [repairLegacyAndroidSystemOwnership]).

    A file system below an [os.Root] is a map from paths, lists of names, to
    inodes; the root itself is the empty path and is not in the map.  The calls
    the code makes on it look paths up name by name as the kernel does, and where
    a call would have to resolve a symbolic link on the way it returns
    [FollowsLink].  The node runs as root, the guest is stopped, so calls do not
    fail for permissions and nothing changes between two of them (the branches
    that notice such a change are left out), and the context is not cancelled.
    A directory's modification time is the one last set, not that of its last
    change; extended attributes and hard links are not kept by the code and not
    modelled.  An archive is the list of its headers with their contents. *)

From Stdlib Require Import Ascii.
From S2P Require Import Prelude.
From S2P Require Import GoLib.
Open Scope Z_scope.

(** ** package path *)

Fixpoint split_list (sep : ascii) (l : list ascii) : list (list ascii) :=
  match l with
  | [] => [[]]
  | c :: l' =>
    if Ascii.eqb c sep then [] :: split_list sep l'
    else match split_list sep l' with
         | part :: parts => (c :: part) :: parts
         | [] => [[c]]
         end
  end.
(** [strings.Split(s, "/")] and [strings.Join(parts, "/")]. *)
Definition Split (s : string) : list string := of_bytes <$> split_list "/"%char (bytes_of s).
Definition path_string (parts : list string) : string := of_bytes (Join "/"%char parts).

Definition IsAbs (s : string) : bool := match bytes_of s with "/"%char :: _ => true | _ => false end.
Definition HasPrefix (s prefix : string) : bool :=
  bool_decide (take (length (bytes_of prefix)) (bytes_of s) = bytes_of prefix).

(** One element of the path, on those kept so far, the last first. *)
Definition clean_step (rooted : bool) (kept : list string) (part : string) : list string :=
  if (part =?s "") || (part =?s ".") then kept
  else if part =?s ".." then
    match kept with
    | last :: rest => if last =?s ".." then part :: kept else rest
    | [] => if rooted then [] else [part]
    end
  else part :: kept.

(** [path.Clean]. *)
Definition Clean (s : string) : string :=
  let rooted := IsAbs s in
  match rev (foldl (clean_step rooted) [] (Split s)) with
  | [] => if rooted then "/"%string else "."%string
  | parts => if rooted then "/" +:+ path_string parts else path_string parts
  end.

(** [strings.TrimSuffix(s, "/")]. *)
Definition TrimSlash (s : string) : string :=
  if HasSuffix s "/" then of_bytes (take (length (bytes_of s) - 1) (bytes_of s)) else s.

(** ** The file system below a root *)

Inductive node :=
| NFile (content : list N)
| NDir
| NLink (target : string)
| NSpecial (** a socket, a named pipe or a device *)
| NIrregular. (** any other *)

(** The mode is that of stat: the permissions, set-id and sticky bits. *)
Record Meta := MkMeta { me_mode : N; me_uid : Z; me_gid : Z; me_mtime : Z }.
Record inode := MkInode { in_node : node; in_meta : Meta }.
#[export] Instance inode_eta : Eta inode := λ i, MkInode i.(in_node) i.(in_meta).
Notation Path := (list string).
Notation Fs := (gmap Path inode).

Inductive fs_error := NotExist | Exist | NotDirectory | FollowsLink.

(** The directories above the last name, from [above] down. *)
Fixpoint resolve (fs : Fs) (above rest : Path) : fs_error + unit :=
  match rest with
  | [] | [_] => inr tt
  | part :: rest' =>
    let current := above ++ [part] in
    match in_node <$> fs !! current with
    | None => inl NotExist
    | Some NDir => resolve fs current rest'
    | Some (NLink _) => inl FollowsLink
    | Some _ => inl NotDirectory
    end
  end.

Definition Lstat (fs : Fs) (p : Path) : fs_error + inode :=
  match resolve fs [] p with
  | inl e => inl e
  | inr _ => match fs !! p with Some i => inr i | None => inl NotExist end
  end.

(** [Mkdir], [OpenFile] with [O_CREATE|O_EXCL], and [Symlink]. *)
Definition create (fs : Fs) (p : Path) (i : inode) : fs_error + Fs :=
  match resolve fs [] p with
  | inl e => inl e
  | inr _ => match fs !! p with Some _ => inl Exist | None => inr (<[p := i]> fs) end
  end.

Fixpoint mkdir_all (fs : Fs) (above rest : Path) (new : inode) : fs_error + Fs :=
  match rest with
  | [] => inr fs
  | part :: rest' =>
    let current := above ++ [part] in
    match in_node <$> fs !! current with
    | None => mkdir_all (<[current := new]> fs) current rest' new
    | Some NDir => mkdir_all fs current rest' new
    | Some (NLink _) => inl FollowsLink
    | Some _ => inl NotDirectory
    end
  end.

(** What a new directory is (mode 0700), until its metadata is set. *)
Definition new_meta (mode : N) (now : Z) : Meta := MkMeta mode 0 0 now.
Definition new_dir (now : Z) : inode := MkInode NDir (new_meta 448 now).
Definition MkdirAll (now : Z) (fs : Fs) (p : Path) : fs_error + Fs := mkdir_all fs [] p (new_dir now).

(** [Open] and setting the metadata of what it opens. *)
Definition set_metadata (fs : Fs) (p : Path) (m : Meta) : fs_error + Fs :=
  match Lstat fs p with
  | inl e => inl e
  | inr (MkInode (NLink _) _) => inl FollowsLink
  | inr i => inr (<[p := i <| in_meta := m |>]> fs)
  end.

Definition parent (p : Path) : Path := take (length p - 1) p.
#[global] Arguments parent : simpl never.
(** The names in a directory. *)
Definition children (fs : Fs) (dir : Path) : list string :=
  omap (λ p, if bool_decide (parent p = dir) then last p else None) (map_to_list fs).*1.

(** ** Archives *)

Inductive typeflag := TypeReg | TypeRegA | TypeLink | TypeSymlink | TypeDir | TypeOther (flag : Z).
Record Header := MkHeader {
  hd_Name : string; hd_Typeflag : typeflag; hd_Size : Z; hd_Linkname : string;
  hd_Mode : N; hd_Uid : Z; hd_Gid : Z; hd_ModTime : Z }.
Definition Entry : Type := Header * list N.

Inductive archive_error := FsError (e : fs_error) | ErrArchive (text : string).
Notation fs_call x := (match x with inl e => throw (FsError e) | inr a => mret a end).

(** Limits. *)
Definition maxRestoredSnapshotData : Z := Z.shiftl 32 30.
Definition maxRestoredFileCount : Z := 1000000.
Definition maxArchivePathBytes : Z := 4096.
Definition maxSnapshotDirectoryDepth : nat := 256.

Definition hasWindowsDrivePrefix (name : string) : bool :=
  match bytes_of name with
  | first :: ":"%char :: _ =>
    let n := N_of_ascii first in ((65 <=? n) && (n <=? 90) || (97 <=? n) && (n <=? 122))%N
  | _ => false
  end.

Definition has_nul (s : string) : bool := existsb (Ascii.eqb (ascii_of_N 0)) (bytes_of s).
Definition backslash : string := of_bytes [ascii_of_N 92].

Definition canonicalArchiveRelativePath (name : string) (directory : bool) : archive_error + string :=
  if (name =?s "") || (maxArchivePathBytes <? str_len name) || has_nul name
  then inl (ErrArchive "archive path is empty, too long, or contains NUL")
  else if Contains name backslash then inl (ErrArchive "archive path contains a backslash")
  else if negb directory && HasSuffix name "/" then inl (ErrArchive "non-directory archive path has a trailing slash")
  else
    let normalized := if directory then TrimSlash name else name in
    if (normalized =?s "") || IsAbs normalized || hasWindowsDrivePrefix normalized
    then inl (ErrArchive "archive path must be relative")
    else
      let cleaned := Clean normalized in
      if (cleaned =?s ".") || (cleaned =?s "..") || HasPrefix cleaned "../"
      then inl (ErrArchive "archive path escapes the extraction root")
      else if negb (cleaned =?s normalized) then inl (ErrArchive "archive path is not canonical")
      else inr cleaned.

Definition validateArchiveSymlinkTarget (target : string) : archive_error + unit :=
  if (target =?s "") || (maxArchivePathBytes <? str_len target) || has_nul target
  then inl (ErrArchive "link target is empty, too long, or contains NUL")
  else inr tt.

Notation try x := (match x with inl e => throw e | inr a => mret a end).

(** ** Packing: snapshotTarWalker *)

Record Walker := MkWalker { wk_entryCount : Z; wk_sourceBytes : Z; wk_archive : list Entry }.
#[export] Instance walker_eta : Eta Walker := λ w, MkWalker w.(wk_entryCount) w.(wk_sourceBytes) w.(wk_archive).
Notation Walk := (M Walker archive_error).

(** [tar.FileInfoHeader] and [populateTarOwnership]. *)
Definition FileInfoHeader (i : inode) (name link : string) : Header :=
  MkHeader name
    (match i.(in_node) with NDir => TypeDir | NLink _ => TypeSymlink | _ => TypeReg end)
    (match i.(in_node) with NFile content => Z.of_nat (length content) | _ => 0 end)
    link i.(in_meta).(me_mode) i.(in_meta).(me_uid) i.(in_meta).(me_gid) i.(in_meta).(me_mtime).

(** [WriteHeader] rounds a time to the second. *)
Definition tar_time (t : Z) : Z := (t + 5 * 10 ^ 8) / 10 ^ 9 * 10 ^ 9.
Definition tar_header (h : Header) : Header :=
  MkHeader h.(hd_Name) h.(hd_Typeflag) h.(hd_Size) h.(hd_Linkname) h.(hd_Mode) h.(hd_Uid) h.(hd_Gid) (tar_time h.(hd_ModTime)).
Definition write_entry (h : Header) (content : list N) : Walk unit :=
  modify (λ w, w <| wk_archive ::= (λ es, es ++ [(tar_header h, content)]) |>).

Section walker.
Variable fs : Fs.
(** The order a directory lists its names in. *)
Variable order : list string → list string.
Variable maxEntries : Z.

Definition addSymlinkEntry (path : Path) (target : string) (i : inode) : Walk unit :=
  try (validateArchiveSymlinkTarget target);;
  archiveName ← try (canonicalArchiveRelativePath (path_string path) false);
  write_entry (FileInfoHeader i archiveName target) [].

Definition addRegularFileEntry (path : Path) (content : list N) (i : inode) : Walk unit :=
  archiveName ← try (canonicalArchiveRelativePath (path_string path) false);
  w ← gets Datatypes.id;
  refuse_if (maxRestoredSnapshotData - w.(wk_sourceBytes) <? Z.of_nat (length content))
    (ErrArchive "snapshot source exceeds maximum uncompressed size");;
  modify (λ w, w <| wk_sourceBytes ::= (λ n, n + Z.of_nat (length content)) |>);;
  write_entry (FileInfoHeader i archiveName "") content.

(** [walk_child] is [walkDirectory] one level down. *)
Definition addDirectoryEntry (walk_child : Path → Walk unit) (path : Path) (i : inode) : Walk unit :=
  archiveName ← try (canonicalArchiveRelativePath (path_string path) true);
  write_entry (FileInfoHeader i (archiveName +:+ "/") "") [];;
  walk_child path.

Definition add_node (walk_child : Path → Walk unit) (path : Path) (i : inode) : Walk unit :=
  match i.(in_node) with
  | NLink target => addSymlinkEntry path target i
  | NSpecial => mret tt
  | NIrregular => throw (ErrArchive "snapshot source contains unsupported special file")
  | NDir => addDirectoryEntry walk_child path i
  | NFile content => addRegularFileEntry path content i
  end.

Definition addEntry (walk_child : Path → Walk unit) (dir : Path) (entryName : string) : Walk unit :=
  modify (λ w, w <| wk_entryCount ::= Z.succ |>);;
  w ← gets Datatypes.id;
  refuse_if (maxEntries <? w.(wk_entryCount)) (ErrArchive "snapshot source contains too many entries");;
  i ← fs_call (Lstat fs (dir ++ [entryName]));
  add_node walk_child (dir ++ [entryName]) i.

(** [levels] is the depth still allowed, [maxSnapshotDirectoryDepth + 1] at the root. *)
Fixpoint walkDirectory (levels : nat) (dir : Path) : Walk unit :=
  match levels with
  | O => throw (ErrArchive "snapshot source exceeds maximum directory depth")
  | S levels' => for_each (addEntry (walkDirectory levels') dir) (order (children fs dir))
  end.
End walker.

Definition addRootToTar (order : list string → list string) (fs : Fs) : archive_error + list Entry :=
  match walkDirectory fs order maxRestoredFileCount (S maxSnapshotDirectoryDepth) [] (MkWalker 0 0 []) with
  | (w, inr _) => inr w.(wk_archive)
  | (_, inl e) => inl e
  end.

(** ** Unpacking *)

(** The links above, and with [includeLeaf] at, the path. *)
Fixpoint no_symlinks (fs : Fs) (above rest : Path) : archive_error + unit :=
  match rest with
  | [] => inr tt
  | part :: rest' =>
    let current := above ++ [part] in
    match Lstat fs current with
    | inl NotExist => inr tt
    | inl e => inl (FsError e)
    | inr i =>
      match i.(in_node), rest' with
      | NLink _, _ => inl (ErrArchive "archive path crosses symlink")
      | NDir, _ => no_symlinks fs current rest'
      | _, [] => inr tt
      | _, _ => inl (ErrArchive "archive path crosses non-directory")
      end
    end
  end.

Definition ensureRootPathHasNoSymlinks (fs : Fs) (name : Path) (includeLeaf : bool) : archive_error + unit :=
  no_symlinks fs [] (if includeLeaf then name else parent name).

Record dirMetadata := MkDirMetadata { dm_name : string; dm_meta : Meta }.
Record Extraction := MkExtraction {
  ex_fs : Fs; ex_restoredBytes : Z; ex_fileCount : Z; ex_seenPaths : gmap string string; ex_directories : list dirMetadata }.
#[export] Instance extraction_eta : Eta Extraction :=
  λ x, MkExtraction x.(ex_fs) x.(ex_restoredBytes) x.(ex_fileCount) x.(ex_seenPaths) x.(ex_directories).
Notation Extract := (M Extraction archive_error).

(** [applyFileMetadata]: the permissions only (0777, 511), and times to the microsecond. *)
Definition metadata_of (now : Z) (h : Header) : Meta :=
  let modTime := if h.(hd_ModTime) =? -62135596800 * 10 ^ 9 then now else h.(hd_ModTime) in
  MkMeta (N.land h.(hd_Mode) 511) h.(hd_Uid) h.(hd_Gid) (modTime / 1000 * 1000).

Section extraction.
Variable now : Z.

(** A call that changes the file system. *)
Definition change (op : Fs → fs_error + Fs) : Extract unit :=
  x ← gets Datatypes.id;
  fs ← fs_call (op x.(ex_fs));
  modify (λ x, x <| ex_fs := fs |>).

(** The checks and the directories above an entry. *)
Definition prepare_entry (path : Path) : Extract unit :=
  x ← gets Datatypes.id;
  try (ensureRootPathHasNoSymlinks x.(ex_fs) path true);;
  change (λ fs, MkdirAll now fs (parent path)).

Definition make_directory (path : Path) : Extract unit :=
  x ← gets Datatypes.id;
  match create x.(ex_fs) path (new_dir now) with
  | inr fs => modify (λ x, x <| ex_fs := fs |>)
  | inl Exist =>
    info ← fs_call (Lstat x.(ex_fs) path);
    match info.(in_node) with
    | NDir => mret tt
    | _ => throw (ErrArchive "archive directory collides with a non-directory")
    end
  | inl e => throw (FsError e)
  end.

Definition extract_directory (entryName : string) (h : Header) : Extract unit :=
  prepare_entry (Split entryName);;
  make_directory (Split entryName);;
  modify (λ x, x <| ex_directories ::= (λ ds, ds ++ [MkDirMetadata entryName (metadata_of now h)]) |>).

Definition extract_link (entryName : string) (h : Header) : Extract unit :=
  try (validateArchiveSymlinkTarget h.(hd_Linkname));;
  prepare_entry (Split entryName);;
  change (λ fs, create fs (Split entryName) (MkInode (NLink h.(hd_Linkname)) (MkMeta 511 h.(hd_Uid) h.(hd_Gid) now))).

(** [io.CopyN] fails when the archive ends before [header.Size] bytes. *)
Definition extract_file (entryName : string) (h : Header) (content : list N) : Extract unit :=
  x ← gets Datatypes.id;
  refuse_if ((h.(hd_Size) <? 0) || (maxRestoredSnapshotData - x.(ex_restoredBytes) <? h.(hd_Size)))
    (ErrArchive "snapshot restored data exceeds maximum");;
  prepare_entry (Split entryName);;
  change (λ fs, create fs (Split entryName) (MkInode (NFile (take (Z.to_nat h.(hd_Size)) content)) (metadata_of now h)));;
  refuse_if (Z.of_nat (length content) <? h.(hd_Size)) (ErrArchive "unexpected EOF");;
  modify (λ x, x <| ex_restoredBytes ::= (λ n, n + h.(hd_Size)) |>).

Definition extract_entry (e : Entry) : Extract unit :=
  let '(h, content) := e in
  modify (λ x, x <| ex_fileCount ::= Z.succ |>);;
  x ← gets Datatypes.id;
  refuse_if (maxRestoredFileCount <? x.(ex_fileCount)) (ErrArchive "snapshot contains too many archive entries");;
  entryName ← try (canonicalArchiveRelativePath h.(hd_Name) (match h.(hd_Typeflag) with TypeDir => true | _ => false end));
  refuse_if (not_null (x.(ex_seenPaths) !! entryName)) (ErrArchive "snapshot contains duplicate archive path");;
  modify (λ x, x <| ex_seenPaths ::= <[entryName := h.(hd_Name)]> |>);;
  match h.(hd_Typeflag) with
  | TypeDir => extract_directory entryName h
  | TypeSymlink => extract_link entryName h
  | TypeReg | TypeRegA => extract_file entryName h content
  | TypeLink => throw (ErrArchive "archive hardlink is not supported")
  | TypeOther _ => throw (ErrArchive "archive entry has unsupported type")
  end.

(** The deepest directories first, then by name. *)
Definition slashes (name : string) : nat := length (List.filter (Ascii.eqb "/"%char) (bytes_of name)).
Definition before (a b : dirMetadata) : bool :=
  (slashes b.(dm_name) <? slashes a.(dm_name))%nat
  || (slashes b.(dm_name) =? slashes a.(dm_name))%nat && String.leb a.(dm_name) b.(dm_name).

Definition apply_metadata (d : dirMetadata) : Extract unit :=
  change (λ fs, set_metadata fs (Split d.(dm_name)) d.(dm_meta)).

Definition extractTarToRoot (archive : list Entry) : Extract unit :=
  for_each extract_entry archive;;
  x ← gets Datatypes.id;
  for_each apply_metadata (order_by before x.(ex_directories)).

Definition extractTarToDir (archive : list Entry) : archive_error + Fs :=
  match extractTarToRoot archive (MkExtraction ∅ 0 0 ∅ []) with
  | (x, inr _) => inr x.(ex_fs)
  | (_, inl e) => inl e
  end.
End extraction.

(** ** Facts *)

(** *** Paths *)

Definition no_slash (s : string) : Prop := "/"%char ∉ bytes_of s.
(** A name a directory can hold. *)
Definition proper (name : string) : Prop := name ≠ ""%string ∧ name ≠ "."%string ∧ name ≠ ".."%string ∧ no_slash name.

Lemma split_list_nonempty sep l : split_list sep l ≠ [].
Proof. destruct l as [|c l]; cbn; [done|]. destruct (Ascii.eqb c sep); [done|]. by destruct (split_list sep l). Qed.

Lemma split_list_plain sep l : sep ∉ l → split_list sep l = [l].
Proof.
  induction l as [|c l IH]; intros Hl; cbn; [done|]. rewrite (proj2 (Ascii.eqb_neq c sep)) by set_solver. by rewrite IH by set_solver.
Qed.
Lemma split_list_app sep l l' : sep ∉ l → split_list sep (l ++ sep :: l') = l :: split_list sep l'.
Proof.
  induction l as [|c l IH]; intros Hl; cbn; [by rewrite Ascii.eqb_refl|].
  rewrite (proj2 (Ascii.eqb_neq c sep)) by set_solver. by rewrite IH by set_solver.
Qed.

Lemma Split_path_string parts : parts ≠ [] → Forall no_slash parts → Split (path_string parts) = parts.
Proof.
  intros Hne Hns. unfold Split, path_string. rewrite bytes_of_bytes. induction Hns as [|x parts Hx Hns IH]; [done|].
  destruct parts as [|y parts]; cbn [Join].
  - rewrite split_list_plain by done. cbn. by rewrite of_bytes_of.
  - rewrite split_list_app by done. cbn [fmap list_fmap]. f_equal; [apply of_bytes_of | by apply IH].
Qed.

Lemma Join_split l : Join "/"%char (of_bytes <$> split_list "/"%char l) = l.
Proof.
  induction l as [|c l IH]; cbn [split_list]; [done|]. destruct (Ascii.eqb_spec c "/") as [->|Hc].
  - pose proof (split_list_nonempty "/" l). destruct (split_list "/" l) as [|part parts]; [done|]. cbn in *. by rewrite IH.
  - destruct (split_list "/" l) as [|part parts] eqn:E; [by apply split_list_nonempty in E|].
    cbn [fmap list_fmap] in *. destruct parts as [|part' parts]; cbn [fmap list_fmap Join] in *; rewrite ?bytes_of_bytes in *; cbn; by rewrite IH.
Qed.
Lemma path_string_Split s : path_string (Split s) = s.
Proof. unfold path_string, Split. by rewrite Join_split, of_bytes_of. Qed.

Lemma Split_no_slash s : Forall no_slash (Split s).
Proof.
  unfold Split. apply Forall_fmap. unfold compose, no_slash. setoid_rewrite bytes_of_bytes.
  induction (bytes_of s) as [|c l IH]; cbn [split_list]; [repeat constructor; apply not_elem_of_nil|].
  destruct (Ascii.eqb_spec c "/") as [->|Hc]; [constructor; [apply not_elem_of_nil | done]|].
  destruct (split_list "/" l) as [|part parts]; inversion IH; subst; constructor; try done; rewrite not_elem_of_cons; (split; [congruence|]).
  - apply not_elem_of_nil.
  - done.
Qed.
Lemma Split_nonempty s : Split s ≠ [].
Proof. unfold Split. intros E%fmap_nil_inv. by apply split_list_nonempty in E. Qed.

Lemma clean_steps_proper kept parts : Forall proper parts → foldl (clean_step false) kept parts = rev parts ++ kept.
Proof.
  intros Hp. revert kept. induction Hp as [|x parts Hx Hp IH]; intros kept; [done|].
  cbn [foldl rev]. rewrite IH by done. destruct Hx as (H1 & H2 & H3 & _). unfold clean_step.
  apply str_eqb_neq in H1, H2, H3. rewrite H1, H2, H3. cbn. by rewrite <-app_assoc.
Qed.

Lemma IsAbs_path_string parts : Forall proper parts → IsAbs (path_string parts) = false.
Proof.
  intros Hp. unfold IsAbs, path_string. rewrite bytes_of_bytes. destruct Hp as [|x parts (Hne & _ & _ & Hns) Hp]; [done|].
  unfold no_slash in Hns. destruct (bytes_of x) as [|c l] eqn:E; [destruct x; [done | discriminate E]|].
  assert (Ec : ∃ l', Join "/" (x :: parts) = c :: l') by (destruct parts; cbn [Join]; rewrite E; eauto).
  destruct Ec as [l' ->]. assert (c ≠ "/"%char) by set_solver.
  destruct c as [[] [] [] [] [] [] [] []]; done.
Qed.

Lemma proper_no_slash parts : Forall proper parts → Forall no_slash parts.
Proof. intros Hp. eapply Forall_impl; [exact Hp|]. by intros x (_ & _ & _ & ?). Qed.

Lemma Clean_proper parts : parts ≠ [] → Forall proper parts → Clean (path_string parts) = path_string parts.
Proof.
  intros Hne Hp. unfold Clean. rewrite IsAbs_path_string, Split_path_string by eauto using proper_no_slash.
  rewrite clean_steps_proper, app_nil_r, rev_involutive by done. by destruct parts.
Qed.

(** What cleaning keeps: proper names after any number of [..]. *)
Lemma clean_steps_kept kept parts :
  Forall no_slash parts → (∃ n ns, kept = ns ++ repeat ".."%string n ∧ Forall proper ns) →
  ∃ n ns, foldl (clean_step false) kept parts = ns ++ repeat ".."%string n ∧ Forall proper ns.
Proof.
  revert kept. induction parts as [|x parts IH]; intros kept Hns Hk; cbn [foldl]; [done|].
  inversion Hns as [|?? Hx Hns']; subst. apply IH; [done|]. clear IH Hns' Hns. destruct Hk as (n & ns & -> & Hp). unfold clean_step.
  destruct (x =?s "") eqn:E1; [by exists n, ns|]. destruct (x =?s ".") eqn:E2; [by exists n, ns|]. cbn [orb].
  apply str_eqb_neq in E1, E2. destruct (x =?s "..") eqn:E3.
  - apply str_eqb_eq in E3 as ->. destruct ns as [|y ns]; cbn [app].
    + destruct n as [|n]; cbn [repeat]; [by exists 1%nat, []|]. rewrite str_eqb_refl. by exists (S (S n)), [].
    + inversion Hp as [|?? (_ & _ & Hy & _) Hp']; subst. apply str_eqb_neq in Hy. rewrite Hy. by exists n, ns.
  - apply str_eqb_neq in E3. exists n, (x :: ns). split; [done|]. by constructor.
Qed.

Lemma HasSuffix_slash s : HasSuffix s "/" = true ↔ ∃ l, bytes_of s = l ++ ["/"%char].
Proof.
  unfold HasSuffix. rewrite bool_decide_eq_true. change (bytes_of "/") with ["/"%char]. cbn [length]. split.
  - intros E. exists (take (length (bytes_of s) - 1) (bytes_of s)). by rewrite <-E, take_drop.
  - intros [l ->]. rewrite length_app. cbn [length]. replace (length l + 1 - 1)%nat with (length l) by lia. by rewrite drop_app_length.
Qed.

Lemma path_string_no_suffix parts : parts ≠ [] → Forall proper parts → HasSuffix (path_string parts) "/" = false.
Proof.
  intros Hne Hp. apply not_true_iff_false. rewrite HasSuffix_slash. unfold path_string. rewrite bytes_of_bytes. intros [l Hl].
  revert l Hl. induction Hp as [|x parts (Hx & _ & _ & Hns) Hp IH]; [done|]. intros l Hl. destruct parts as [|y parts]; cbn [Join] in Hl.
  - apply Hns. rewrite Hl. apply elem_of_app. right. by left.
  - change (bytes_of x ++ "/"%char :: Join "/"%char (y :: parts) = l ++ ["/"%char]) in Hl.
    destruct (Join "/" (y :: parts)) as [|c l'] eqn:E.
    + assert (E2 : path_string (y :: parts) = ""%string) by (unfold path_string; by rewrite E).
      pose proof (Split_path_string (y :: parts) ltac:(done) (proper_no_slash _ Hp)) as Hs. rewrite E2 in Hs.
      injection Hs as <- _. inversion Hp as [|?? (? & _)]; done.
    + destruct (exists_last (l:=c :: l') ltac:(done)) as (l2 & c2 & E3). rewrite E3 in Hl.
      rewrite app_comm_cons, app_assoc in Hl. apply app_inj_tail in Hl as [_ ->]. by apply (IH ltac:(done) l2).
Qed.

Lemma TrimSlash_string s : TrimSlash (s +:+ "/") = s.
Proof.
  unfold TrimSlash. rewrite (proj2 (HasSuffix_slash (s +:+ "/"))) by (exists (bytes_of s); by rewrite bytes_of_app).
  rewrite bytes_of_app, length_app. cbn [length bytes_of]. replace (length (bytes_of s) + 1 - 1)%nat with (length (bytes_of s)) by lia.
  by rewrite take_app_length, of_bytes_of.
Qed.

(** A path the code accepts is made of proper names. *)
Lemma canonical_proper name directory n :
  canonicalArchiveRelativePath name directory = inr n → Forall proper (Split n) ∧ path_string (Split n) = n.
Proof.
  unfold canonicalArchiveRelativePath. destruct (_ || has_nul _); [done|]. destruct (Contains _ _); [done|].
  destruct (negb directory && _); [done|]. cbv zeta. set (norm := if directory then TrimSlash name else name).
  destruct (_ || hasWindowsDrivePrefix norm) eqn:E1; [done|]. destruct (_ || HasPrefix _ _) eqn:E2; [done|].
  destruct (negb (Clean norm =?s norm)) eqn:E3; [done|]. intros [= <-]. rewrite path_string_Split. split; [|done].
  repeat match goal with H : _ || _ = false |- _ => apply orb_false_iff in H as [? ?] end.
  match goal with H : negb (Clean norm =?s norm) = false |- _ => apply negb_false_iff, str_eqb_eq in H; rename H into Hc end.
  rewrite Hc in *. revert Hc. unfold Clean.
  match goal with H : IsAbs norm = false |- _ => rewrite H end.
  destruct (clean_steps_kept [] (Split norm) (Split_no_slash norm)) as (k & ns & E & Hp); [by exists O, []|]. rewrite E. intros Hc.
  destruct (rev (ns ++ repeat ".."%string k)) as [|part parts] eqn:Er; [subst norm; by rewrite <-Hc in *|].
  assert (Hns : Forall no_slash (part :: parts)).
  { rewrite <-Er. apply Forall_rev, Forall_app. split; [by apply proper_no_slash|]. apply Forall_forall. intros x Hx.
    apply list_elem_of_In, repeat_spec in Hx as ->. unfold no_slash. cbn. set_solver. }
  rewrite <-Hc, Split_path_string by done. rewrite <-Er. destruct k as [|k]; [rewrite app_nil_r; by apply Forall_rev|]. exfalso.
  rewrite rev_app_distr, <-repeat_cons in Er || rewrite rev_app_distr in Er.
  assert (part = ".."%string) as ->.
  { rewrite rev_repeat in Er. by injection Er. }
  destruct parts as [|y parts].
  - cbn in Hc. match goal with H : (norm =?s "..") = false |- _ => rewrite <-Hc in H; vm_compute in H; discriminate H end.
  - match goal with H : HasPrefix norm _ = false |- _ => rewrite <-Hc in H; unfold HasPrefix, path_string in H; rewrite bytes_of_bytes in H;
      cbn in H; discriminate H end.
Qed.

Lemma canonical_same parts directory n :
  parts ≠ [] → Forall proper parts → canonicalArchiveRelativePath (path_string parts) directory = inr n → n = path_string parts.
Proof.
  intros Hne Hp. unfold canonicalArchiveRelativePath, TrimSlash. rewrite (path_string_no_suffix parts Hne Hp).
  destruct directory; rewrite Clean_proper, str_eqb_refl by done; cbn [negb andb].
  all: repeat match goal with |- (if ?b then _ else _) = _ → _ => destruct b; [done|] end; by intros [= ->].
Qed.

Lemma contains_one c l : contains_list [c] l = existsb (Ascii.eqb c) l.
Proof.
  induction l as [|x l IH]; [done|]. cbn [contains_list existsb length take]. rewrite IH. f_equal.
  destruct (Ascii.eqb_spec c x) as [->|H]; [by rewrite bool_decide_eq_true | by rewrite bool_decide_eq_false; congruence].
Qed.
Lemma Contains_slash s : Contains (s +:+ "/") backslash = Contains s backslash.
Proof.
  unfold Contains, backslash. rewrite bytes_of_bytes, bytes_of_app. rewrite !contains_one, existsb_app. cbn. by rewrite orb_false_r.
Qed.
Lemma has_nul_slash s : has_nul (s +:+ "/") = has_nul s.
Proof. unfold has_nul. rewrite bytes_of_app, existsb_app. cbn. by rewrite orb_false_r. Qed.
Lemma str_len_app s t : str_len (s +:+ t) = str_len s + str_len t.
Proof. unfold str_len. induction s as [|c s IH]; [done|]. change (String c s +:+ t) with (String c (s +:+ t)). cbn [String.length]. lia. Qed.

(** A directory's name in the archive ends in a slash; it is read back as
    written when that slash still fits. *)
Lemma canonical_directory parts n :
  parts ≠ [] → Forall proper parts → canonicalArchiveRelativePath (path_string parts) true = inr n →
  canonicalArchiveRelativePath (n +:+ "/") true = if str_len n <? maxArchivePathBytes then inr n
    else inl (ErrArchive "archive path is empty, too long, or contains NUL").
Proof.
  intros Hne Hp Hn. pose proof (canonical_same _ _ _ Hne Hp Hn) as ->. unfold canonicalArchiveRelativePath in *.
  rewrite TrimSlash_string, Contains_slash, has_nul_slash, str_len_app.
  unfold TrimSlash in Hn. rewrite (path_string_no_suffix parts Hne Hp) in Hn. set (name := path_string parts) in *.
  assert ((name +:+ "/" =?s "") = false) as -> by (apply str_eqb_neq; by destruct name).
  destruct ((name =?s "") || (maxArchivePathBytes <? str_len name) || has_nul name) eqn:E1; [done|].
  apply orb_false_iff in E1 as [[_ E1]%orb_false_iff ->]. apply Z.ltb_ge in E1. change (str_len "/") with 1. cbn [orb]. rewrite orb_false_r.
  destruct (Z.ltb_spec (str_len name) maxArchivePathBytes), (Z.ltb_spec maxArchivePathBytes (str_len name + 1)); try lia; [|done].
  exact Hn.
Qed.

(** *** Trees *)

Definition is_dir (i : inode) : Prop := i.(in_node) = NDir.

(** Names are proper, and what is above an inode is a directory. *)
Definition tree_ok (fs : Fs) : Prop := ∀ p i, fs !! p = Some i →
  p ≠ [] ∧ Forall proper p ∧ (parent p = [] ∨ ∃ j, fs !! parent p = Some j ∧ is_dir j).

Lemma parent_snoc p n : parent (p ++ [n]) = p.
Proof. unfold parent. rewrite length_app. cbn. replace (length p + 1 - 1)%nat with (length p) by lia. apply take_app_length. Qed.

Lemma path_snoc (p : Path) : p ≠ [] → ∃ n, p = parent p ++ [n].
Proof. intros Hp. destruct (exists_last Hp) as (q & n & ->). exists n. by rewrite parent_snoc. Qed.

Lemma ancestors fs p i : tree_ok fs → fs !! p = Some i → ∀ q r, p = q ++ r → q ≠ [] → r ≠ [] → ∃ j, fs !! q = Some j ∧ is_dir j.
Proof.
  intros Hok Hp q r. revert p i Hp. induction r as [|n r IH] using rev_ind; intros p i Hp -> Hq Hr; [done|].
  destruct (Hok _ _ Hp) as (_ & _ & Hpar). rewrite app_assoc, parent_snoc in Hpar. destruct Hpar as [E|(j & Hj & Hd)].
  - apply app_eq_nil in E as [-> _]. done.
  - destruct (decide (r = [])) as [->|Hne]; [rewrite app_nil_r in Hj; by exists j|]. by apply (IH _ j Hj).
Qed.

Lemma resolve_dirs fs above rest :
  (∀ q r, rest = q ++ r → q ≠ [] → r ≠ [] → ∃ j, fs !! (above ++ q) = Some j ∧ is_dir j) → resolve fs above rest = inr tt.
Proof.
  revert above. induction rest as [|x rest IH]; intros above H; [done|]. destruct rest as [|y rest]; [done|]. cbn [resolve].
  destruct (H [x] (y :: rest)) as (j & Hj & Hd); try done. rewrite Hj. cbn [fmap option_fmap option_map]. rewrite Hd.
  apply IH. intros q r E Hq Hr. rewrite <-app_assoc. apply (H (x :: q) r); cbn; congruence.
Qed.

Lemma resolve_in fs p i : tree_ok fs → fs !! p = Some i → resolve fs [] p = inr tt.
Proof. intros Hok Hp. apply resolve_dirs. intros q r -> Hq Hr. by eapply ancestors. Qed.
Lemma Lstat_in fs p i : tree_ok fs → fs !! p = Some i → Lstat fs p = inr i.
Proof. intros Hok Hp. unfold Lstat. by rewrite (resolve_in _ _ _ Hok Hp), Hp. Qed.

Lemma elem_of_children fs dir n : n ∈ children fs dir ↔ is_Some (fs !! (dir ++ [n])).
Proof.
  unfold children. rewrite list_elem_of_omap. split.
  - intros (p & ([p' i] & -> & Hp)%list_elem_of_fmap & Hn). apply elem_of_map_to_list in Hp. cbn in *. case_bool_decide as E; [|done].
    destruct (decide (p' = [])) as [->|Hne]; [done|]. destruct (path_snoc p' Hne) as [m Hm]. rewrite Hm, last_snoc in Hn.
    injection Hn as ->. rewrite <-E, <-Hm. by eexists.
  - intros [i Hi]. exists (dir ++ [n]). split.
    + apply list_elem_of_fmap. exists (dir ++ [n], i). split; [done|]. by apply elem_of_map_to_list.
    + rewrite bool_decide_eq_true_2 by apply parent_snoc. apply last_snoc.
Qed.

Lemma children_NoDup fs dir : NoDup (children fs dir).
Proof.
  unfold children. pose proof (NoDup_fst_map_to_list fs) as Hnd. induction Hnd as [|p l Hp Hnd IH]; cbn; [constructor|].
  destruct (bool_decide (parent p = dir)) eqn:E; [|done]. apply bool_decide_eq_true in E.
  destruct (last p) as [n|] eqn:En; [|done]. constructor; [|done]. rewrite list_elem_of_omap. intros (p' & Hp' & E').
  case_bool_decide as Ep; [|done]. apply Hp. assert (p = p') as ->; [|done].
  apply last_Some in En as [q ->], E' as [q' ->]. rewrite parent_snoc in *. congruence.
Qed.

(** *** What packing writes *)

(** An inode's entry; sockets, pipes and devices have none. *)
Definition entry_of (p : Path) (i : inode) : option Entry :=
  match i.(in_node) with
  | NFile content => Some (tar_header (FileInfoHeader i (path_string p) ""), content)
  | NDir => Some (tar_header (FileInfoHeader i (path_string p +:+ "/") ""), [])
  | NLink target => Some (tar_header (FileInfoHeader i (path_string p) target), [])
  | NSpecial | NIrregular => None
  end.
Definition entries_of (fs : Fs) (paths : list Path) : list Entry := omap (λ p, fs !! p ≫= entry_of p) paths.

(** What is packed has a name the archive can hold, and is no unknown kind of file. *)
Definition packable (p : Path) (i : inode) : Prop :=
  match i.(in_node) with
  | NFile _ => canonicalArchiveRelativePath (path_string p) false = inr (path_string p)
  | NDir => canonicalArchiveRelativePath (path_string p) true = inr (path_string p)
  | NLink target => canonicalArchiveRelativePath (path_string p) false = inr (path_string p)
                    ∧ validateArchiveSymlinkTarget target = inr tt
  | NSpecial => True
  | NIrregular => False
  end.

Definition file_size (i : inode) : Z := match i.(in_node) with NFile content => Z.of_nat (length content) | _ => 0 end.
Definition sizes (fs : Fs) (paths : list Path) : Z := foldr (λ p acc, match fs !! p with Some i => file_size i | None => 0 end + acc) 0 paths.

(** Each path after the one above it. *)
Fixpoint parents_first (seen paths : list Path) : Prop :=
  match paths with
  | [] => True
  | p :: paths' => parent p ∈ seen ∧ parents_first (p :: seen) paths'
  end.

Lemma parents_first_mono seen seen' paths : seen ⊆ seen' → parents_first seen paths → parents_first seen' paths.
Proof.
  revert seen seen'. induction paths as [|p paths IH]; intros seen seen' Hs; cbn; [done|]. intros [Hp Hr]. split; [by apply Hs|].
  eapply IH; [|exact Hr]. set_solver.
Qed.
Lemma parents_first_app seen l l' : parents_first seen l → parents_first seen l' → parents_first seen (l ++ l').
Proof.
  revert seen. induction l as [|p l IH]; intros seen; cbn; [done|]. intros [Hp Hl] Hl'. split; [done|].
  apply IH; [done|]. eapply parents_first_mono; [|exact Hl']. set_solver.
Qed.

(** The paths below some names of a directory, each once, and each after the one
    above it. *)
Record covers (fs : Fs) (dir : Path) (names : list string) (paths : list Path) : Prop := MkCovers {
  cv_nodup : NoDup paths;
  cv_in : ∀ p, p ∈ paths ↔ is_Some (fs !! p) ∧ ∃ n s, n ∈ names ∧ p = dir ++ n :: s;
  cv_order : parents_first [dir] paths }.

Lemma covers_nil fs dir : covers fs dir [] [].
Proof. split; [constructor | | done]. intros p. split; [by intros ?%not_elem_of_nil | by intros (_ & n & s & ?%not_elem_of_nil & _)]. Qed.

Lemma covers_snoc fs dir names n paths sub :
  tree_ok fs → n ∉ names → is_Some (fs !! (dir ++ [n])) → covers fs dir names paths → covers fs (dir ++ [n]) (children fs (dir ++ [n])) sub →
  covers fs dir (names ++ [n]) (paths ++ (dir ++ [n]) :: sub).
Proof.
  intros Hok Hn Hi [Hnd Hin Ho] [Hnd' Hin' Ho'].
  assert (Hsub : ∀ p, p ∈ sub → ∃ m s, p = dir ++ n :: m :: s) by (intros p (_ & m & s & _ & ->)%Hin'; exists m, s; by rewrite <-app_assoc).
  split.
  - apply NoDup_app. split_and!; [done | |].
    + intros p (_ & m & s & Hm & ->)%Hin [E|Hs]%elem_of_cons.
      * apply app_inv_head in E. injection E as -> _. done.
      * destruct (Hsub _ Hs) as (m' & s' & E). apply app_inv_head in E. injection E as -> _. done.
    + constructor; [|done]. intros Hs. destruct (Hsub _ Hs) as (m & s & E). by apply app_inv_head in E.
  - intros p. rewrite elem_of_app, elem_of_cons, Hin, Hin'. split.
    + intros [(Hp & m & s & Hm & ->) | [-> | (Hp & m & s & Hm & ->)]].
      * split; [done|]. exists m, s. split; [|done]. apply elem_of_app. by left.
      * split; [done|]. exists n, []. split; [|done]. apply elem_of_app. right. by left.
      * split; [done|]. rewrite <-app_assoc in *. exists n, (m :: s). split; [|done]. apply elem_of_app. right. by left.
    + intros (Hp & m & s & [Hm|Hm%list_elem_of_singleton]%elem_of_app & ->); [left; split; [done|]; by exists m, s|]. subst m. right.
      destruct s as [|m s]; [by left|]. right. split; [done|]. exists m, s. split; [|by rewrite <-app_assoc].
      apply elem_of_children. destruct Hp as [i Hp]. destruct s as [|m' s]; [rewrite <-app_assoc; by eexists|].
      destruct (ancestors fs _ _ Hok Hp ((dir ++ [n]) ++ [m]) (m' :: s)) as (j & Hj & _);
        [by rewrite <-!app_assoc | by intros [_ ?]%app_eq_nil | done | by eexists].
  - apply parents_first_app; [done|]. cbn [parents_first]. rewrite parent_snoc. split; [by left|].
    eapply parents_first_mono; [|exact Ho']. set_solver.
Qed.

(** Nothing is below what is no directory. *)
Lemma no_children fs p i : tree_ok fs → fs !! p = Some i → ¬ is_dir i → children fs p = [].
Proof.
  intros Hok Hp Hd. destruct (children fs p) as [|n l] eqn:E; [done|]. exfalso.
  assert (n ∈ children fs p) as [j Hj]%elem_of_children by (rewrite E; left).
  destruct (ancestors fs _ _ Hok Hj p [n]) as (j' & Hj' & Hd'); [done | by apply Hok in Hp as [? _] | done | congruence].
Qed.

(** From [w] to [w'] the entries below these names were added. *)
Definition walked (fs : Fs) (maxEntries : Z) (dir : Path) (names : list string) (w w' : Walker) : Prop := ∃ paths,
  covers fs dir names paths ∧ Forall (λ p, ∃ i, fs !! p = Some i ∧ packable p i) paths
  ∧ w'.(wk_archive) = w.(wk_archive) ++ entries_of fs paths
  ∧ w'.(wk_entryCount) = w.(wk_entryCount) + Z.of_nat (length paths)
  ∧ w'.(wk_sourceBytes) = w.(wk_sourceBytes) + sizes fs paths
  ∧ (w.(wk_entryCount) ≤ maxEntries → w'.(wk_entryCount) ≤ maxEntries)
  ∧ (w.(wk_sourceBytes) ≤ maxRestoredSnapshotData → w'.(wk_sourceBytes) ≤ maxRestoredSnapshotData).

Lemma sizes_app fs l l' : sizes fs (l ++ l') = sizes fs l + sizes fs l'.
Proof. unfold sizes. induction l as [|p l IH]; cbn [app foldr]; [lia | rewrite IH; lia]. Qed.
Lemma entries_of_app fs l l' : entries_of fs (l ++ l') = entries_of fs l ++ entries_of fs l'.
Proof. apply omap_app. Qed.

Lemma walked_none fs maxEntries dir w : walked fs maxEntries dir [] w w.
Proof. exists []. split_and!; [apply covers_nil | done | by rewrite app_nil_r | cbn; lia | cbn; lia | done | done]. Qed.

(** After an inode's own entry, those below it. *)
Definition after_entry (fs : Fs) (p : Path) (i : inode) (w w1 : Walker) : Prop :=
  w1.(wk_archive) = w.(wk_archive) ++ match entry_of p i with Some e => [e] | None => [] end
  ∧ w1.(wk_entryCount) = w.(wk_entryCount) + 1 ∧ w1.(wk_sourceBytes) = w.(wk_sourceBytes) + file_size i.

Lemma walked_snoc fs maxEntries dir names n i w w1 w2 w3 :
  tree_ok fs → n ∉ names → fs !! (dir ++ [n]) = Some i → packable (dir ++ [n]) i →
  walked fs maxEntries dir names w w1 → after_entry fs (dir ++ [n]) i w1 w2 →
  w2.(wk_entryCount) ≤ maxEntries → (w1.(wk_sourceBytes) ≤ maxRestoredSnapshotData → w2.(wk_sourceBytes) ≤ maxRestoredSnapshotData) →
  walked fs maxEntries (dir ++ [n]) (children fs (dir ++ [n])) w2 w3 → walked fs maxEntries dir (names ++ [n]) w w3.
Proof.
  intros Hok Hn Hi Hpack (paths & Hc & Hf & Ha & Hk & Hs & _ & Hb) (Ha2 & Hk2 & Hs2) Hmax Hb2 (sub & Hc' & Hf' & Ha' & Hk' & Hs' & Hm' & Hb').
  exists (paths ++ (dir ++ [n]) :: sub). split_and!.
  - by apply covers_snoc.
  - apply Forall_app. split; [done|]. constructor; [by exists i | done].
  - rewrite Ha', Ha2, Ha, entries_of_app. unfold entries_of at 4. cbn [omap list_omap]. rewrite Hi. cbn [mbind option_bind].
    rewrite <-!app_assoc. by destruct (entry_of (dir ++ [n]) i).
  - rewrite Hk', Hk2, Hk, length_app. cbn [length]. lia.
  - rewrite Hs', Hs2, Hs, sizes_app. unfold sizes at 4. cbn [foldr]. rewrite Hi. fold (sizes fs sub). lia.
  - auto.
  - auto.
Qed.

Section walk_facts.
Context (fs : Fs) (order : list string → list string) (maxEntries : Z).
Hypothesis fs_ok : tree_ok fs.
Hypothesis order_perm : ∀ l, order l ≡ₚ l.

Lemma add_node_wp walk_child p i w (Q : Walker → Prop) :
  fs !! p = Some i →
  (∀ w2, packable p i → after_entry fs p i (w <| wk_entryCount ::= Z.pred |>) w2 →
     ((w.(wk_sourceBytes) ≤ maxRestoredSnapshotData → w2.(wk_sourceBytes) ≤ maxRestoredSnapshotData)) → w2.(wk_entryCount) = w.(wk_entryCount) →
     (is_dir i → wp (walk_child p) (λ _, Q) (λ _ _, True) w2) ∧ (¬ is_dir i → Q w2)) →
  wp (add_node walk_child p i) (λ _, Q) (λ _ _, True) w.
Proof.
  intros Hi HQ. destruct (fs_ok _ _ Hi) as (Hne & Hprop & _).
  assert (Hcan : ∀ d n, canonicalArchiveRelativePath (path_string p) d = inr n → n = path_string p) by (intros d n; by apply canonical_same).
  unfold add_node, is_dir, packable, after_entry, entry_of, file_size in *. destruct (in_node i) as [content| |target| |] eqn:Ek.
  - unfold addRegularFileEntry, write_entry. rewrite wp_bind. destruct (canonicalArchiveRelativePath _ _) as [e|n] eqn:Ec; [done|].
    rewrite wp_ret. apply Hcan in Ec as Hn. subst n. wp_steps; [done|]. apply HQ; cbn; try done; try lia.
    split_and!; [done | lia | done].
  - unfold addDirectoryEntry, write_entry. rewrite wp_bind. destruct (canonicalArchiveRelativePath _ _) as [e|n] eqn:Ec; [done|].
    rewrite wp_ret. apply Hcan in Ec as Hn. subst n. wp_steps. apply HQ; cbn; try done; try lia. split_and!; [done | lia | lia].
  - unfold addSymlinkEntry, write_entry. rewrite wp_bind. destruct (validateArchiveSymlinkTarget target) as [e|[]] eqn:Ev; [done|].
    rewrite wp_ret, wp_bind. destruct (canonicalArchiveRelativePath _ _) as [e|n] eqn:Ec; [done|].
    rewrite wp_ret. apply Hcan in Ec as Hn. subst n. wp_steps. apply HQ; cbn; try done; try lia. split_and!; [done | lia | lia].
  - wp_steps. apply HQ; cbn; try done; try lia. split_and!; [by rewrite app_nil_r | lia | lia].
  - by wp_steps.
Qed.

Lemma covers_perm dir names names' paths : (∀ n, n ∈ names ↔ n ∈ names') → covers fs dir names paths → covers fs dir names' paths.
Proof. intros Hn [Hnd Hin Ho]. split; [done | | done]. intros p. rewrite Hin. by setoid_rewrite Hn. Qed.

Lemma walkDirectory_wp levels dir w :
  wp (walkDirectory fs order maxEntries levels dir) (λ _, walked fs maxEntries dir (children fs dir) w) (λ _ _, True) w.
Proof using fs_ok order_perm.
  revert dir w. induction levels as [|levels IH]; intros dir w; cbn [walkDirectory]; [by apply wp_throw|]. unfold for_each.
  eapply wp_mono; [apply (wp_fold _ (λ _ xs w', ∃ names, names ++ xs = order (children fs dir) ∧ walked fs maxEntries dir names w w') (λ _ _, True))| |done].
  - exists []. split; [done | apply walked_none].
  - intros _ n xs w1 (names & Hnames & Hw).
    assert (NoDup (names ++ n :: xs)) as (_ & Hnd & _)%NoDup_app by (rewrite Hnames, order_perm; apply children_NoDup).
    assert (Hfresh : n ∉ names) by (intros Hn; apply (Hnd n Hn); left).
    assert (Hch : n ∈ children fs dir) by (rewrite <-(order_perm (children fs dir)), <-Hnames; apply elem_of_app; right; left).
    apply elem_of_children in Hch as [i Hi]. unfold addEntry. wp_steps; [done|]. rewrite (Lstat_in _ _ _ fs_ok Hi). wp_steps.
    apply add_node_wp; [done|]. intros w2 Hpack Hafter Hbytes Hcount. cbn in Hcount.
    assert (Ha : after_entry fs (dir ++ [n]) i w1 w2) by (destruct Hafter as (? & ? & ?); cbn in *; split_and!; [done | lia | done]).
    match goal with Hm : (maxEntries <? _) = false |- _ => apply Z.ltb_ge in Hm; cbn in Hm end.
    assert (Hdone : ∀ w3, walked fs maxEntries (dir ++ [n]) (children fs (dir ++ [n])) w2 w3 →
      ∃ names', names' ++ xs = order (children fs dir) ∧ walked fs maxEntries dir names' w w3).
    { intros w3 H3. exists (names ++ [n]). split; [by rewrite <-app_assoc|]. eapply walked_snoc; try done. rewrite Hcount. done. }
    split; intros Hd.
    + eapply wp_mono; [apply IH | intros [] w3; apply Hdone | done].
    + apply Hdone. rewrite (no_children fs _ i) by done. apply walked_none.
  - intros [] w' (names & Hnames & paths & Hc & Hrest). rewrite app_nil_r in Hnames. subst names. exists paths. split; [|done].
    eapply covers_perm; [|exact Hc]. intros n. by rewrite order_perm.
Qed.
End walk_facts.

(** All the paths of a tree, each after the one above it, and what packing them gives. *)
Lemma addRootToTar_run fs order :
  tree_ok fs → (∀ l, order l ≡ₚ l) →
  match addRootToTar order fs with
  | inr archive => ∃ paths, NoDup paths ∧ (∀ p, p ∈ paths ↔ is_Some (fs !! p)) ∧ parents_first [[]] paths
      ∧ (∀ p i, fs !! p = Some i → packable p i) ∧ archive = entries_of fs paths
      ∧ Z.of_nat (length paths) ≤ maxRestoredFileCount ∧ sizes fs paths ≤ maxRestoredSnapshotData
  | inl _ => True
  end.
Proof.
  intros Hok Ho. unfold addRootToTar. pose proof (walkDirectory_wp fs order maxRestoredFileCount Hok Ho (S maxSnapshotDirectoryDepth) []
    (MkWalker 0 0 [])) as Hw. unfold wp in Hw. destruct (walkDirectory _ _ _ _ _ _) as [w' [e|[]]]; [done|].
  destruct Hw as (paths & [Hnd Hin Hord] & Hpack & Ha & Hk & Hs & Hmax & Hbytes). cbn in Ha, Hk, Hs, Hmax, Hbytes.
  assert (Hall : ∀ p, p ∈ paths ↔ is_Some (fs !! p)).
  { intros p. rewrite Hin. split; [tauto|]. intros [i Hi]. split; [by eexists|]. destruct (Hok _ _ Hi) as (Hne & _).
    destruct p as [|n s]; [done|]. exists n, s. split; [|done]. apply elem_of_children.
    destruct s as [|m s]; [by eexists|]. destruct (ancestors fs _ _ Hok Hi [n] (m :: s)) as (j & Hj & _); [done..|by eexists]. }
  exists paths. split_and!; try done.
  - intros p i Hi. rewrite Forall_forall in Hpack. destruct (Hpack p) as (j & Hj & ?); [apply Hall; by eexists|]. congruence.
  - rewrite Hk in Hmax. apply Hmax. done.
  - rewrite Hs in Hbytes. apply Hbytes. done.
Qed.

(** *** Unpacking what was packed *)

Definition dirs_above (fs : Fs) (p : Path) : Prop :=
  ∀ q r, p = q ++ r → q ≠ [] → r ≠ [] → ∃ j, fs !! q = Some j ∧ is_dir j.

Lemma dirs_above_parent fs p :
  tree_ok fs → (parent p = [] ∨ ∃ j, fs !! parent p = Some j ∧ is_dir j) → dirs_above fs p.
Proof.
  intros Hok Hpar q r -> Hq Hr. destruct (exists_last Hr) as (r' & n & ->). rewrite app_assoc, parent_snoc in Hpar.
  destruct Hpar as [E|(j & Hj & Hd)]; [by apply app_eq_nil in E as [-> _]|].
  destruct (decide (r' = [])) as [->|Hne]; [rewrite app_nil_r in Hj; by exists j|]. by eapply ancestors.
Qed.

Lemma no_symlinks_ok fs p : dirs_above fs p → fs !! p = None → ensureRootPathHasNoSymlinks fs p true = inr tt.
Proof.
  intros Hab Hp. unfold ensureRootPathHasNoSymlinks.
  assert (H : ∀ above rest, p = above ++ rest → no_symlinks fs above rest = inr tt); [|by apply H].
  intros above rest. revert above. induction rest as [|x rest IH]; intros above E; cbn [no_symlinks]; [done|].
  assert (Hr : resolve fs [] (above ++ [x]) = inr tt).
  { apply resolve_dirs. intros q r Eq Hq Hr. apply (Hab q (r ++ rest)); [|done|by destruct r].
    rewrite E, app_assoc, <-Eq. by rewrite <-app_assoc. }
  unfold Lstat. rewrite Hr. destruct rest as [|y rest].
  - rewrite <-E, Hp. done.
  - destruct (Hab (above ++ [x]) (y :: rest)) as (j & Hj & Hd); [by rewrite <-app_assoc | by destruct above | done|].
    rewrite Hj, Hd. apply IH. by rewrite <-app_assoc.
Qed.

Lemma mkdir_all_ok fs above rest new :
  (∀ q r, rest = q ++ r → q ≠ [] → ∃ j, fs !! (above ++ q) = Some j ∧ is_dir j) → mkdir_all fs above rest new = inr fs.
Proof.
  revert above. induction rest as [|x rest IH]; intros above H; cbn [mkdir_all]; [done|].
  destruct (H [x] rest) as (j & Hj & Hd); [done..|]. rewrite Hj. cbn [fmap option_fmap option_map]. rewrite Hd.
  apply IH. intros q r -> Hq. rewrite <-app_assoc. by apply (H (x :: q) r).
Qed.
Lemma MkdirAll_ok now fs p : p ≠ [] → dirs_above fs p → MkdirAll now fs (parent p) = inr fs.
Proof.
  intros Hne Hab. destruct (path_snoc p Hne) as [n Hn]. apply mkdir_all_ok. intros q r E Hq. apply (Hab q (r ++ [n])); [|done|by destruct r].
  rewrite Hn, E. by rewrite <-app_assoc.
Qed.

Lemma create_ok fs p i : dirs_above fs p → fs !! p = None → create fs p i = inr (<[p := i]> fs).
Proof. intros Hab Hp. unfold create. rewrite resolve_dirs by exact Hab. by rewrite Hp. Qed.

(** The metadata that comes back: the permissions, the owner, and the time to the
    second. *)
Definition restored_meta (now : Z) (m : Meta) : Meta :=
  let t := tar_time m.(me_mtime) in
  MkMeta (N.land m.(me_mode) 511) m.(me_uid) m.(me_gid) (if t =? -62135596800 * 10 ^ 9 then now / 1000 * 1000 else t).

Definition saved (now : Z) (i : inode) : option inode :=
  match i.(in_node) with
  | NFile _ | NDir => Some (i <| in_meta ::= restored_meta now |>)
  | NLink target => Some (MkInode (NLink target) (MkMeta 511 i.(in_meta).(me_uid) i.(in_meta).(me_gid) now))
  | NSpecial | NIrregular => None
  end.
(** The same, before the directories' metadata is set. *)
Definition pending (now : Z) (i : inode) : option inode :=
  match i.(in_node) with NDir => Some (new_dir now) | _ => saved now i end.

Lemma metadata_of_header now i name link : metadata_of now (tar_header (FileInfoHeader i name link)) = restored_meta now i.(in_meta).
Proof.
  unfold metadata_of, restored_meta, tar_header. cbn. f_equal. destruct (_ =? _); [done|]. unfold tar_time.
  replace (10 ^ 9) with (10 ^ 6 * 1000) by done. rewrite Z.mul_assoc, Z.div_mul by done. done.
Qed.

Definition dir_entry (now : Z) (fs : Fs) (p : Path) : option dirMetadata :=
  i ← fs !! p; match i.(in_node) with NDir => Some (MkDirMetadata (path_string p) (restored_meta now i.(in_meta))) | _ => None end.

(** After the entries of [done]. *)
Record unpacked (now : Z) (fs : Fs) (done : list Path) (x : Extraction) : Prop := MkUnpacked {
  up_fs : ∀ p, x.(ex_fs) !! p = if decide (p ∈ done) then fs !! p ≫= pending now else None;
  up_bytes : x.(ex_restoredBytes) = sizes fs done;
  up_count : x.(ex_fileCount) ≤ Z.of_nat (length done);
  up_seen : ∀ name, is_Some (x.(ex_seenPaths) !! name) → ∃ p, p ∈ done ∧ name = path_string p;
  up_dirs : x.(ex_directories) = omap (dir_entry now fs) done }.

Section unpack_facts.
Context (fs : Fs) (now : Z).
Hypothesis fs_ok : tree_ok fs.
(** No directory's path takes all the bytes a path may have. *)
Definition short_directories : Prop := ∀ p i, fs !! p = Some i → is_dir i → str_len (path_string p) < maxArchivePathBytes.
Hypothesis fs_short : short_directories.
Hypothesis fs_pack : ∀ p i, fs !! p = Some i → packable p i.

Lemma prepare_wp x p (Q : unit → Extraction → Prop) X :
  p ≠ [] → dirs_above x.(ex_fs) p → x.(ex_fs) !! p = None → Q tt x → wp (prepare_entry now p) Q X x.
Proof.
  intros Hne Hab Hp HQ. unfold prepare_entry, change. wp_steps. rewrite no_symlinks_ok by done. wp_steps.
  rewrite MkdirAll_ok by done. wp_steps. by destruct x.
Qed.

Lemma change_create_wp x p i (Q : unit → Extraction → Prop) X :
  dirs_above x.(ex_fs) p → x.(ex_fs) !! p = None → Q tt (x <| ex_fs ::= <[p := i]> |>) → wp (change (λ fs, create fs p i)) Q X x.
Proof. intros Hab Hp HQ. unfold change. wp_steps. rewrite create_ok by done. by wp_steps. Qed.

Lemma make_directory_wp x p (Q : unit → Extraction → Prop) X :
  dirs_above x.(ex_fs) p → x.(ex_fs) !! p = None → Q tt (x <| ex_fs ::= <[p := new_dir now]> |>) → wp (make_directory now p) Q X x.
Proof. intros Hab Hp HQ. unfold make_directory. wp_steps. rewrite create_ok by done. by wp_steps. Qed.

(** The name in the archive is the path's. *)
Lemma entry_name p i e : fs !! p = Some i → entry_of p i = Some e →
  canonicalArchiveRelativePath e.1.(hd_Name) (match e.1.(hd_Typeflag) with TypeDir => true | _ => false end) = inr (path_string p).
Proof using fs_ok fs_short fs_pack.
  intros Hi He. pose proof (fs_pack _ _ Hi) as Hpack. destruct (fs_ok _ _ Hi) as (Hne & Hprop & _).
  pose proof (fs_short _ _ Hi) as Hshort. unfold entry_of, packable, is_dir in *.
  destruct (in_node i) eqn:Ek; try done; injection He as <-; cbn; rewrite Ek; cbn.
  - done.
  - rewrite (canonical_directory p _ Hne Hprop Hpack). by rewrite (proj2 (Z.ltb_lt _ _)) by auto.
  - by destruct Hpack.
Qed.

(** The tree made so far, and where the next path goes. *)
Lemma unpacked_tree done x :
  (∀ p, p ∈ done → is_Some (fs !! p) ∧ (parent p = [] ∨ parent p ∈ done)) → unpacked now fs done x → tree_ok x.(ex_fs).
Proof using fs_ok.
  intros Hd [Hfs _ _ _ _] p i Hp. rewrite Hfs in Hp. destruct (decide (p ∈ done)) as [Hin|]; [|done].
  destruct (Hd p Hin) as [[i0 Hi0] Hpar]. destruct (fs_ok _ _ Hi0) as (Hne & Hprop & Hpf). split_and!; [done | done |].
  destruct Hpf as [?|(j & Hj & Hdir)]; [by left|]. destruct Hpar as [?|Hpd]; [by left|]. right. exists (new_dir now). split; [|done].
  rewrite Hfs, decide_True, Hj by done. cbn. unfold pending. by rewrite Hdir.
Qed.

Lemma unpacked_above done x p i :
  (∀ p, p ∈ done → is_Some (fs !! p) ∧ (parent p = [] ∨ parent p ∈ done)) → unpacked now fs done x →
  fs !! p = Some i → parent p = [] ∨ parent p ∈ done → dirs_above x.(ex_fs) p.
Proof using fs_ok.
  intros Hd Hx Hi Hpar. apply dirs_above_parent; [by eapply unpacked_tree|]. destruct Hpar as [?|Hin]; [by left|].
  destruct (fs_ok _ _ Hi) as (_ & _ & [?|(j & Hj & Hdir)]); [by left|]. right. exists (new_dir now). split; [|done].
  destruct Hx as [Hfs _ _ _ _]. rewrite Hfs, decide_True, Hj by done. cbn. unfold pending. by rewrite Hdir.
Qed.

Lemma unpacked_skip done x p i :
  fs !! p = Some i → pending now i = None → unpacked now fs done x → unpacked now fs (done ++ [p]) x.
Proof using Type.
  intros Hi Hn [Hfs Hb Hc Hs Hdirs].
  assert (Hk : file_size i = 0 ∧ dir_entry now fs p = None).
  { unfold file_size, dir_entry. rewrite Hi. cbn. unfold pending, saved in Hn. by destruct (in_node i). }
  destruct Hk as [Hk Hd]. split.
  - intros q. rewrite Hfs. destruct (decide (q ∈ done)) as [Hq|Hq], (decide (q ∈ done ++ [p])) as [Hq'|Hq'];
      rewrite elem_of_app, list_elem_of_singleton in Hq'; try done; try tauto.
    destruct Hq' as [?| ->]; [done|]. by rewrite Hi.
  - rewrite Hb, sizes_app. cbn. rewrite Hi, Hk. lia.
  - rewrite length_app. cbn. lia.
  - intros name (q & Hq & ->)%Hs. exists q. split; [|done]. apply elem_of_app. by left.
  - rewrite Hdirs, omap_app. cbn. rewrite Hd. by rewrite app_nil_r.
Qed.

Lemma unpacked_add done x x' p i i' text :
  fs !! p = Some i → pending now i = Some i' → unpacked now fs done x →
  x'.(ex_fs) = <[p := i']> x.(ex_fs) → x'.(ex_restoredBytes) = x.(ex_restoredBytes) + file_size i →
  x'.(ex_fileCount) = x.(ex_fileCount) + 1 → x'.(ex_seenPaths) = <[path_string p := text]> x.(ex_seenPaths) →
  x'.(ex_directories) = x.(ex_directories) ++ match dir_entry now fs p with Some d => [d] | None => [] end →
  unpacked now fs (done ++ [p]) x'.
Proof using Type.
  intros Hi Hp [Hfs Hb Hc Hs Hdirs] Efs Eb Ec Es Ed. split.
  - intros q. rewrite Efs. destruct (decide (q = p)) as [->|Hne].
    + rewrite lookup_insert_eq, decide_True, Hi by (apply elem_of_app; right; by left). done.
    + rewrite lookup_insert_ne, Hfs by done. destruct (decide (q ∈ done)) as [Hq|Hq], (decide (q ∈ done ++ [p])) as [Hq'|Hq'];
        rewrite elem_of_app, list_elem_of_singleton in Hq'; try done; tauto.
  - rewrite Eb, Hb, sizes_app. cbn. rewrite Hi. lia.
  - rewrite Ec, length_app. cbn. lia.
  - intros name. rewrite Es. intros [t Ht]. apply lookup_insert_Some in Ht as [[<- _]|[_ Ht]].
    + exists p. split; [|done]. apply elem_of_app. right. by left.
    + destruct (Hs name) as (q & Hq & ->); [by eexists|]. exists q. split; [|done]. apply elem_of_app. by left.
  - rewrite Ed, Hdirs, omap_app. cbn. by destruct (dir_entry now fs p).
Qed.

Lemma unpack_step done x p i e :
  (∀ p, p ∈ done → is_Some (fs !! p) ∧ (parent p = [] ∨ parent p ∈ done)) → unpacked now fs done x →
  fs !! p = Some i → entry_of p i = Some e → p ∉ done → parent p = [] ∨ parent p ∈ done →
  Z.of_nat (length done) < maxRestoredFileCount → sizes fs done + file_size i ≤ maxRestoredSnapshotData →
  wp (extract_entry now e) (λ _, unpacked now fs (done ++ [p])) (λ _ _, False) x.
Proof using fs_ok fs_short fs_pack.
  intros Hd Hx Hi He Hp Hpar Hcount Hsize. destruct (fs_ok _ _ Hi) as (Hne & Hprop & _).
  pose proof (unpacked_above done x p i Hd Hx Hi Hpar) as Hab. pose proof (entry_name p i e Hi He) as Hname.
  pose proof Hx as [Hfs Hb Hc Hs Hdirs]. destruct e as [h content]. cbn [fst] in Hname.
  assert (Hnone : x.(ex_fs) !! p = None) by (rewrite Hfs; by rewrite decide_False).
  unfold extract_entry. wp_steps.
  { match goal with H : (_ <? _) = true |- _ => apply Z.ltb_lt in H; cbn in H; lia end. }
  rewrite Hname. wp_steps.
  { match goal with H : not_null _ = true |- _ => rename H into Hseen end. cbn in Hseen.
    destruct (ex_seenPaths x !! path_string p) eqn:E; [|done]. destruct (Hs (path_string p)) as (q & Hq & Eq); [by eexists|].
    apply Hp. rewrite <-(Split_path_string p), Eq by eauto using proper_no_slash. destruct (Hd q Hq) as [[j Hj] _].
    destruct (fs_ok _ _ Hj) as (? & ? & _). by rewrite Split_path_string by eauto using proper_no_slash. }
  pose proof (Split_path_string p Hne (proper_no_slash _ Hprop)) as Hsplit.
  assert (Hadd := λ x' i' text Hp', unpacked_add done x x' p i i' text Hi Hp' Hx).
  unfold entry_of in He. destruct (in_node i) as [c| |target| |] eqn:Ek; try done; injection He as <- <-.
  - assert (Etf : hd_Typeflag (tar_header (FileInfoHeader i (path_string p) "")) = TypeReg) by (cbn; by rewrite Ek). rewrite Etf.
    assert (Esz : hd_Size (tar_header (FileInfoHeader i (path_string p) "")) = Z.of_nat (length c)) by (cbn; by rewrite Ek).
    assert (Hfsz : file_size i = Z.of_nat (length c)) by (unfold file_size; by rewrite Ek).
    unfold extract_file. rewrite Hsplit, Esz. wp_steps.
    { match goal with H : _ || _ = true |- _ => apply orb_true_iff in H as [H|H]; apply Z.ltb_lt in H; cbn in H; lia end. }
    apply prepare_wp; [done..|]. wp_steps. apply change_create_wp; [done..|]. wp_steps.
    { match goal with H : (_ <? _) = true |- _ => apply Z.ltb_lt in H; lia end. }
    rewrite Nat2Z.id, firstn_all, metadata_of_header.
    eapply Hadd; cbn; rewrite ?Hfsz; try done; [|unfold dir_entry; rewrite Hi; cbn; rewrite Ek; by rewrite app_nil_r].
    unfold pending, saved. rewrite Ek. by rewrite <-Ek; destruct i.
  - assert (Etf : hd_Typeflag (tar_header (FileInfoHeader i (path_string p +:+ "/") "")) = TypeDir) by (cbn; by rewrite Ek). rewrite Etf.
    unfold extract_directory. rewrite Hsplit. wp_steps. apply prepare_wp; [done..|]. wp_steps. apply make_directory_wp; [done..|]. wp_steps.
    rewrite metadata_of_header. eapply Hadd; cbn; try done.
    + unfold pending. by rewrite Ek.
    + unfold file_size. rewrite Ek. lia.
    + unfold dir_entry. rewrite Hi. cbn. by rewrite Ek.
  - assert (Etf : hd_Typeflag (tar_header (FileInfoHeader i (path_string p) target)) = TypeSymlink) by (cbn; by rewrite Ek). rewrite Etf.
    pose proof (fs_pack _ _ Hi) as Hpack. unfold packable in Hpack. rewrite Ek in Hpack. destruct Hpack as [_ Hv].
    unfold extract_link. rewrite Hsplit. cbn [hd_Linkname tar_header FileInfoHeader]. rewrite Hv. wp_steps. apply prepare_wp; [done..|]. wp_steps.
    apply change_create_wp; [done..|]. eapply Hadd; cbn; try done.
    + unfold pending, saved. by rewrite Ek.
    + unfold file_size. rewrite Ek. lia.
    + unfold dir_entry. rewrite Hi. cbn. rewrite Ek. by rewrite app_nil_r.
Qed.

Lemma sizes_nonneg paths : 0 ≤ sizes fs paths.
Proof using Type.
  assert (Hz : ∀ i, 0 ≤ file_size i) by (intros i; unfold file_size; destruct (in_node i); lia).
  unfold sizes. induction paths as [|p paths IH]; cbn [foldr]; [done|]. destruct (fs !! p) as [i|]; [specialize (Hz i)|]; lia.
Qed.

Lemma unpack_all rest done x :
  (∀ p, p ∈ done → is_Some (fs !! p) ∧ (parent p = [] ∨ parent p ∈ done)) → unpacked now fs done x →
  NoDup (done ++ rest) → (∀ p, p ∈ rest → is_Some (fs !! p)) → parents_first (done ++ [[]]) rest →
  Z.of_nat (length (done ++ rest)) ≤ maxRestoredFileCount → sizes fs (done ++ rest) ≤ maxRestoredSnapshotData →
  wp (for_each (extract_entry now) (entries_of fs rest)) (λ _, unpacked now fs (done ++ rest)) (λ _ _, False) x.
Proof using fs_ok fs_short fs_pack.
  revert done x. induction rest as [|p rest IH]; intros done x Hd Hx Hnd Hin Hpf Hc Hs; [by rewrite app_nil_r|].
  destruct Hpf as [Hpar Hpf]. destruct (Hin p) as [i Hi]; [left|].
  assert (Hpar' : parent p = [] ∨ parent p ∈ done) by (apply elem_of_app in Hpar as [?|?%list_elem_of_singleton]; tauto).
  assert (Hp : p ∉ done) by (apply NoDup_app in Hnd as (_ & Hnd & _); intros Hpd; apply (Hnd p Hpd); left).
  replace (done ++ p :: rest) with ((done ++ [p]) ++ rest) in * by (by rewrite <-app_assoc).
  assert (Hd' : ∀ q, q ∈ done ++ [p] → is_Some (fs !! q) ∧ (parent q = [] ∨ parent q ∈ done ++ [p])).
  { intros q [Hq| ->%list_elem_of_singleton]%elem_of_app.
    - destruct (Hd q Hq) as [? [?|?]]; (split; [done|]); [by left | right; apply elem_of_app; by left].
    - split; [by eexists|]. destruct Hpar' as [?|?]; [by left | right; apply elem_of_app; by left]. }
  assert (Hpf' : parents_first ((done ++ [p]) ++ [[]]) rest) by (eapply parents_first_mono; [|exact Hpf]; set_solver).
  assert (Hin' : ∀ q, q ∈ rest → is_Some (fs !! q)) by (intros q Hq; apply Hin; by right).
  rewrite !length_app, !sizes_app in *. cbn [length] in *. pose proof (sizes_nonneg rest).
  assert (sizes fs [p] = file_size i) by (cbn; rewrite Hi; lia).
  unfold entries_of. cbn [omap list_omap]. rewrite Hi. cbn [mbind option_bind]. fold (entries_of fs rest).
  destruct (entry_of p i) as [e|] eqn:He.
  - apply wp_for_cons.
    eapply wp_mono; [apply (unpack_step done x p i e); try done; lia | | done].
    intros [] x' Hx'. apply IH; try done; rewrite ?length_app, ?sizes_app; cbn [length]; lia.
  - assert (Hn : pending now i = None) by (unfold entry_of, pending, saved in *; by destruct (in_node i)).
    apply IH; try done; rewrite ?length_app, ?sizes_app; cbn [length]; try lia. by eapply unpacked_skip.
Qed.
End unpack_facts.

(** Setting metadata keeps the tree's shape. *)
Lemma tree_ok_shape fs fs' : (∀ p, in_node <$> fs' !! p = in_node <$> fs !! p) → tree_ok fs → tree_ok fs'.
Proof.
  intros Hs Hok p i Hp. pose proof (Hs p) as Hp'. rewrite Hp in Hp'. cbn in Hp'. symmetry in Hp'. apply fmap_Some in Hp' as (j & Hj & _).
  destruct (Hok _ _ Hj) as (? & ? & Hpar). split_and!; [done..|]. destruct Hpar as [?|(k & Hk & Hd)]; [by left|]. right.
  specialize (Hs (parent p)). rewrite Hk in Hs. cbn in Hs. apply fmap_Some in Hs as (k' & Hk' & E). exists k'. split; [done|].
  unfold is_dir in *. congruence.
Qed.

Lemma apply_all_wp (ds : list dirMetadata) x :
  tree_ok x.(ex_fs) → (∀ d, d ∈ ds → ∃ i, x.(ex_fs) !! Split d.(dm_name) = Some i ∧ is_dir i) → NoDup (Split ∘ dm_name <$> ds) →
  wp (for_each apply_metadata ds)
    (λ _ x', (∀ d i, d ∈ ds → x.(ex_fs) !! Split d.(dm_name) = Some i → x'.(ex_fs) !! Split d.(dm_name) = Some (i <| in_meta := d.(dm_meta) |>))
       ∧ ∀ p, p ∉ (Split ∘ dm_name <$> ds) → x'.(ex_fs) !! p = x.(ex_fs) !! p)
    (λ _ _, False) x.
Proof.
  revert x. induction ds as [|d ds IH]; intros x Hok Hd Hnd; [by split; [intros ?? ?%not_elem_of_nil|]|].
  apply wp_for_cons. destruct (Hd d) as (i & Hi & Hdir); [left|]. unfold apply_metadata at 1, change, set_metadata. wp_steps.
  rewrite (Lstat_in _ _ _ Hok Hi). destruct i as [k m]. unfold is_dir in Hdir. cbn in Hdir. subst k. cbn [fst]. wp_steps.
  set (x1 := x <| ex_fs := _ |>). inversion Hnd as [|?? Hfresh Hnd']; subst.
  assert (Hshape : ∀ p, in_node <$> x1.(ex_fs) !! p = in_node <$> x.(ex_fs) !! p).
  { intros p. cbn. destruct (decide (p = Split (dm_name d))) as [->|Hne]; [by rewrite lookup_insert_eq, Hi | by rewrite lookup_insert_ne]. }
  eapply wp_mono; [apply (IH x1); [by eapply tree_ok_shape | | done]| |done].
  - intros d' Hd'. destruct (Hd d') as (i' & Hi' & Hdir'); [by right|]. specialize (Hshape (Split (dm_name d'))).
    rewrite Hi' in Hshape. cbn [fmap option_fmap option_map] in Hshape. apply fmap_Some in Hshape as (j & Hj & E). exists j. split; [done|].
    unfold is_dir in *. congruence.
  - intros [] x' [Hin Hout]. split.
    + intros d' i' [->|Hd']%elem_of_cons Hi'.
      * rewrite Hi in Hi'. injection Hi' as <-. rewrite Hout by done. cbn. by rewrite lookup_insert_eq.
      * apply Hin; [done|]. cbn. rewrite lookup_insert_ne; [done|]. intros E. apply Hfresh. apply list_elem_of_fmap. exists d'. split; [|done].
        unfold compose. congruence.
    + intros p Hp. cbn [fmap list_fmap] in Hp. rewrite not_elem_of_cons in Hp. destruct Hp as [Hp1 Hp2]. rewrite Hout by done. cbn.
      rewrite lookup_insert_ne; [done|]. unfold compose in Hp1. congruence.
Qed.

Lemma dir_entry_name now fs p d : tree_ok fs → dir_entry now fs p = Some d → Split d.(dm_name) = p.
Proof.
  intros Hok Hd. unfold dir_entry in Hd. destruct (fs !! p) as [i|] eqn:Hi; [|done]. cbn in Hd. destruct (in_node i); try done.
  injection Hd as <-. destruct (Hok _ _ Hi) as (? & ? & _). apply Split_path_string; [done | by apply proper_no_slash].
Qed.

Lemma dir_entries_NoDup now fs paths : tree_ok fs → NoDup paths → NoDup (Split ∘ dm_name <$> omap (dir_entry now fs) paths).
Proof.
  intros Hok Hnd. induction Hnd as [|p paths Hp Hnd IH]; cbn; [constructor|]. destruct (dir_entry now fs p) as [d|] eqn:Hd; [|done].
  cbn [fmap list_fmap]. constructor; [|done]. unfold compose. rewrite (dir_entry_name _ _ _ _ Hok Hd).
  intros (d' & -> & (q & Hq & Hd')%list_elem_of_omap)%list_elem_of_fmap. rewrite (dir_entry_name _ _ _ _ Hok Hd') in Hp. done.
Qed.

(** The last pass over the directories. *)
Lemma set_directories_wp fs now paths x :
  tree_ok fs → NoDup paths → (∀ p, p ∈ paths ↔ is_Some (fs !! p)) → unpacked now fs paths x →
  wp (for_each apply_metadata (order_by before x.(ex_directories))) (λ _ x', x'.(ex_fs) = omap (saved now) fs) (λ _ _, False) x.
Proof.
  intros Hok Hnd Hin Hx.
  assert (Htree : tree_ok x.(ex_fs)).
  { eapply unpacked_tree; [exact Hok | | exact Hx]. intros p Hp. split; [by apply Hin|].
    apply Hin in Hp as [i Hi]. destruct (Hok _ _ Hi) as (_ & _ & [?|(j & Hj & _)]); [by left|]. right. apply Hin. by eexists. }
  destruct Hx as [Hfs _ _ _ Hdirs].
  assert (Hat : ∀ p, x.(ex_fs) !! p = fs !! p ≫= pending now).
  { intros p. rewrite Hfs. destruct (decide (p ∈ paths)) as [|Hn]; [done|]. destruct (fs !! p) eqn:E; [|done].
    exfalso. apply Hn, Hin. by eexists. }
  assert (Hd : ∀ d, d ∈ order_by before x.(ex_directories) ↔ ∃ p, p ∈ paths ∧ dir_entry now fs p = Some d)
    by (intros d; rewrite elem_of_order_by, Hdirs; apply list_elem_of_omap).
  assert (Hnew : ∀ p d, dir_entry now fs p = Some d → x.(ex_fs) !! p = Some (new_dir now) ∧ is_Some (fs !! p)
    ∧ fs !! p ≫= saved now = Some (new_dir now <| in_meta := d.(dm_meta) |>)).
  { intros p d Hde. rewrite Hat. unfold dir_entry in Hde. destruct (fs !! p) as [[k m]|]; [|done]. cbn in *.
    destruct k; try done. injection Hde as <-. split_and!; [done | by eexists | done]. }
  eapply wp_mono; [apply apply_all_wp| |done].
  - done.
  - intros d (p & _ & Hde)%Hd. pose proof (dir_entry_name _ _ _ _ Hok Hde) as ->. exists (new_dir now). by apply Hnew in Hde as [? _].
  - rewrite (order_by_perm before x.(ex_directories)), Hdirs. by apply dir_entries_NoDup.
  - intros [] x' [Hset Hkeep]. apply map_eq. intros p. rewrite lookup_omap. destruct (dir_entry now fs p) as [d|] eqn:Hde.
    + destruct (Hnew _ _ Hde) as (Hx & Hsome & ->).
      assert (Hdi : d ∈ order_by before x.(ex_directories)) by (apply Hd; exists p; split; [by apply Hin | done]).
      specialize (Hset d (new_dir now) Hdi). rewrite (dir_entry_name _ _ _ _ Hok Hde) in Hset. by apply Hset.
    + rewrite Hkeep, Hat.
      * destruct (fs !! p) as [i|] eqn:Hi; [|done]. cbn. unfold dir_entry in Hde. rewrite Hi in Hde. cbn in Hde. unfold pending.
        by destruct (in_node i).
      * intros (d & -> & Hdi)%list_elem_of_fmap. apply Hd in Hdi as (q & _ & Hq). unfold compose in Hde.
        rewrite (dir_entry_name _ _ _ _ Hok Hq) in Hde. congruence.
Qed.

Lemma unpack_run fs now paths :
  tree_ok fs → short_directories fs → (∀ p i, fs !! p = Some i → packable p i) →
  NoDup paths → (∀ p, p ∈ paths ↔ is_Some (fs !! p)) → parents_first [[]] paths →
  Z.of_nat (length paths) ≤ maxRestoredFileCount → sizes fs paths ≤ maxRestoredSnapshotData →
  extractTarToDir now (entries_of fs paths) = inr (omap (saved now) fs).
Proof.
  intros Hok Hshort Hpack Hnd Hin Hpf Hcount Hsize. unfold extractTarToDir.
  assert (Hw : wp (extractTarToRoot now (entries_of fs paths)) (λ _ x, x.(ex_fs) = omap (saved now) fs) (λ _ _, False) (MkExtraction ∅ 0 0 ∅ [])).
  { unfold extractTarToRoot. apply wp_bind.
    eapply wp_mono; [apply (unpack_all fs now Hok Hshort Hpack paths [] (MkExtraction ∅ 0 0 ∅ [])); try done| |done].
    - by intros p ?%not_elem_of_nil.
    - split; [|done | done | by intros name [? ?] | done]. intros p. rewrite decide_False by apply not_elem_of_nil. apply lookup_empty.
    - intros p Hp. by apply Hin.
    - cbn [app]. intros [] x Hx. wp_steps. by eapply set_directories_wp. }
  unfold wp in Hw. destruct (extractTarToRoot now _ _) as [x [e|[]]]; [done | by rewrite Hw].
Qed.

(** *** Unpacking any archive *)

Definition dir_or_free (fs : Fs) (p : Path) : Prop := ∀ i, fs !! p = Some i → is_dir i.
Definition total (fs : Fs) : Z := map_fold (λ _ i acc, file_size i + acc) 0 fs.

Lemma total_insert fs p i : fs !! p = None → total (<[p := i]> fs) = file_size i + total fs.
Proof. intros Hp. unfold total. rewrite map_fold_insert_L; [done | intros; lia | done]. Qed.
Lemma total_update fs p i j : fs !! p = Some i → file_size j = file_size i → total (<[p := j]> fs) = total fs.
Proof.
  intros Hp Hs. rewrite <-(insert_delete_id fs p i Hp) at 2. rewrite <-insert_delete_eq.
  by rewrite !total_insert, Hs by apply lookup_delete_eq.
Qed.

(** A new inode where there is none, in a directory. *)
Lemma tree_ok_insert fs p i :
  tree_ok fs → p ≠ [] → Forall proper p → dirs_above fs p → fs !! p = None → tree_ok (<[p := i]> fs).
Proof.
  intros Hok Hne Hprop Hab Hp q j [[<- <-]|[Hq Hj]]%lookup_insert_Some.
  - split_and!; [done..|]. destruct (decide (parent p = [])) as [?|Hpar]; [by left|]. right. destruct (path_snoc p Hne) as [n Hn].
    destruct (Hab (parent p) [n]) as (k & Hk & Hd); [done..|]. exists k. split; [|done]. rewrite lookup_insert_ne; [done|].
    intros E. congruence.
  - destruct (Hok _ _ Hj) as (? & ? & Hpar). split_and!; [done..|]. destruct Hpar as [?|(k & Hk & Hd)]; [by left|]. right. exists k.
    split; [|done]. rewrite lookup_insert_ne; [done|]. intros E. congruence.
Qed.

(** Directories all the way down to this one. *)
Definition chain (fs : Fs) (above : Path) : Prop := ∀ q r, above = q ++ r → q ≠ [] → ∃ j, fs !! q = Some j ∧ is_dir j.

Lemma chain_snoc fs above x i : chain fs above → fs !! (above ++ [x]) = Some i → is_dir i → chain fs (above ++ [x]).
Proof.
  intros Hch Hi Hd q r E Hq. destruct (decide (r = [])) as [->|Hne]; [rewrite app_nil_r in E; subst q; by exists i|].
  destruct (exists_last Hne) as (r' & y & ->). rewrite app_assoc in E. apply app_inj_tail in E as [-> ->]. by eapply Hch.
Qed.
Lemma chain_resolve fs above x : chain fs above → resolve fs [] (above ++ [x]) = inr tt.
Proof.
  intros Hch. apply resolve_dirs. intros q r E Hq Hr. destruct (exists_last Hr) as (r' & y & ->). rewrite app_assoc in E.
  apply app_inj_tail in E as [-> ->]. by eapply Hch.
Qed.
Lemma chain_above fs p : p ≠ [] → chain fs (parent p) → dirs_above fs p.
Proof.
  intros Hne Hch q r E Hq Hr. destruct (path_snoc p Hne) as [n Hn]. rewrite Hn in E. destruct (exists_last Hr) as (r' & y & ->).
  rewrite app_assoc in E. apply app_inj_tail in E as [E _]. by eapply Hch.
Qed.
Lemma chain_nil fs : chain fs [].
Proof. intros q r E Hq. by destruct q. Qed.

(** The check before an entry is made: it follows no link, and what is above the
    entry is free or a directory. *)
Lemma no_symlinks_safe fs above rest :
  chain fs above →
  match no_symlinks fs above rest with
  | inl e => e ≠ FsError FollowsLink
  | inr _ => tree_ok fs → ∀ q r, rest = q ++ r → q ≠ [] → r ≠ [] → dir_or_free fs (above ++ q)
  end.
Proof.
  revert above. induction rest as [|x rest IH]; intros above Hch; cbn [no_symlinks]; [by intros _ [] ? ??|].
  unfold Lstat. rewrite (chain_resolve _ _ _ Hch). destruct (fs !! (above ++ [x])) as [i|] eqn:Hi.
  - destruct (in_node i) as [c| |t| |] eqn:Ek; try done.
    2: { specialize (IH (above ++ [x]) (chain_snoc _ _ _ _ Hch Hi Ek)). destruct (no_symlinks fs (above ++ [x]) rest) as [e|[]]; [done|].
      intros Hok q r E Hq Hrr. destruct q as [|y q]; [done|]. injection E as <- E. destruct q as [|y q].
      - intros j Hj. rewrite Hi in Hj. by injection Hj as <-.
      - replace (above ++ x :: y :: q) with ((above ++ [x]) ++ y :: q) by (by rewrite <-app_assoc). by eapply IH. }
    all: destruct rest as [|y rest]; [intros _ q r E Hq Hrr | done].
    all: destruct q as [|z q]; [done|]; injection E as _ E; symmetry in E; by apply app_eq_nil in E as [_ ->].
  - intros Hok q r E Hq _ j Hj. destruct q as [|y q]; [done|]. injection E as <- E. destruct q as [|y q]; [congruence|].
    destruct (ancestors fs _ _ Hok Hj (above ++ [x]) (y :: q)) as (k & Hk & _); [by rewrite <-app_assoc | by destruct above | done | congruence].
Qed.

(** Making the directories above succeeds then, and changes nothing else. *)
Lemma mkdir_all_safe now fs above rest :
  tree_ok fs → Forall proper (above ++ rest) → chain fs above → (∀ q r, rest = q ++ r → q ≠ [] → dir_or_free fs (above ++ q)) →
  ∃ fs', mkdir_all fs above rest (new_dir now) = inr fs' ∧ tree_ok fs' ∧ chain fs' (above ++ rest) ∧ fs ⊆ fs' ∧ total fs' = total fs
    ∧ ∀ p, (length (above ++ rest) < length p)%nat → fs' !! p = fs !! p.
Proof.
  revert fs above. induction rest as [|x rest IH]; intros fs above Hok Hprop Hch Hfree; cbn [mkdir_all].
  { exists fs. rewrite app_nil_r. by split_and!. }
  replace (above ++ x :: rest) with ((above ++ [x]) ++ rest) in * by (by rewrite <-app_assoc).
  assert (Hfree' : ∀ q r, rest = q ++ r → q ≠ [] → dir_or_free fs ((above ++ [x]) ++ q)).
  { intros q r -> Hq. rewrite <-app_assoc. by apply (Hfree (x :: q) r). }
  destruct (fs !! (above ++ [x])) as [i|] eqn:Hi; cbn [fmap option_fmap option_map].
  - assert (Hd : is_dir i) by (by apply (Hfree [x] rest)). unfold is_dir in Hd. rewrite Hd. apply IH; try done. by eapply chain_snoc.
  - set (fs1 := <[above ++ [x] := new_dir now]> fs).
    assert (Hok1 : tree_ok fs1).
    { apply tree_ok_insert; [done | by destruct above | by apply Forall_app in Hprop as [? _] | | done].
      intros q r E Hq Hr. destruct (exists_last Hr) as (r' & y & ->). rewrite app_assoc in E. apply app_inj_tail in E as [-> ->]. by eapply Hch. }
    assert (Hsub : fs ⊆ fs1) by (by apply insert_subseteq).
    destruct (IH fs1 (above ++ [x])) as (fs' & E & Hok' & Hch' & Hsub' & Htot & Hdeep); [done | done | | |].
    + eapply chain_snoc; [|apply lookup_insert_eq | done]. intros q r -> Hq. destruct (Hch q r) as (j & Hj & Hd); [done..|].
      exists j. split; [by eapply lookup_weaken | done].
    + intros q r -> Hq j. unfold fs1. rewrite lookup_insert_ne by (intros E'; rewrite <-(app_nil_r (above ++ [x])) in E' at 1; by apply app_inv_head in E').
      by eapply Hfree'.
    + exists fs'. split_and!; try done; [by etransitivity | by rewrite Htot; unfold fs1; rewrite total_insert|].
      intros p Hp. rewrite Hdeep by done. unfold fs1. rewrite lookup_insert_ne; [done|]. intros <-. rewrite length_app in Hp. lia.
Qed.

(** What any archive, good or bad, has made so far. *)
Record confined (x : Extraction) : Prop := MkConfined {
  cf_tree : tree_ok x.(ex_fs);
  cf_total : total x.(ex_fs) = x.(ex_restoredBytes);
  cf_limit : x.(ex_restoredBytes) ≤ maxRestoredSnapshotData;
  cf_dirs : ∀ d, d ∈ x.(ex_directories) → ∃ i, x.(ex_fs) !! Split d.(dm_name) = Some i ∧ is_dir i }.

Definition no_link_followed (e : archive_error) : Prop := e ≠ FsError FollowsLink.

Section confinement.
Context (now : Z).

Lemma confined_grow x x' :
  confined x → tree_ok x'.(ex_fs) → total x'.(ex_fs) = x'.(ex_restoredBytes) → x'.(ex_restoredBytes) ≤ maxRestoredSnapshotData →
  x.(ex_fs) ⊆ x'.(ex_fs) → x'.(ex_directories) = x.(ex_directories) → confined x'.
Proof.
  intros [Hok Ht Hl Hd] Hok' Ht' Hl' Hsub Edir. split; try done. intros d. rewrite Edir. intros (i & Hi & Hdir)%Hd. exists i. split; [|done].
  by eapply lookup_weaken.
Qed.

(** After the checks and the directories above, the entry can be made or exists. *)
Definition ready (p : Path) (x x' : Extraction) : Prop :=
  confined x' ∧ chain x'.(ex_fs) (parent p) ∧ x' = x <| ex_fs := x'.(ex_fs) |>.

Lemma prepare_safe x p :
  p ≠ [] → Forall proper p → confined x → wp (prepare_entry now p) (λ _, ready p x) (λ e _, no_link_followed e) x.
Proof.
  intros Hne Hprop Hx. destruct (path_snoc p Hne) as [n Hn]. unfold prepare_entry. wp_steps.
  pose proof (no_symlinks_safe x.(ex_fs) [] p (chain_nil _)) as Hsafe. unfold ensureRootPathHasNoSymlinks.
  destruct (no_symlinks x.(ex_fs) [] p) as [e|[]]; [done|]. wp_steps. unfold change, MkdirAll. wp_steps.
  destruct (mkdir_all_safe now x.(ex_fs) [] (parent p)) as (fs' & E & Hok' & Hch & Hsub & Htot & Hdeep).
  - apply Hx.
  - cbn. rewrite Hn in Hprop. by apply Forall_app in Hprop as [? _].
  - apply chain_nil.
  - intros q r Eq Hq. apply (Hsafe (cf_tree _ Hx) q (r ++ [n])); [|done|by destruct r]. rewrite Hn, Eq. by rewrite <-app_assoc.
  - rewrite E. wp_steps. split_and!; [|done | done].
    eapply confined_grow; [exact Hx | done | cbn; by rewrite Htot; apply Hx | apply Hx | done | done].
Qed.

Lemma create_safe x p i (Q : unit → Extraction → Prop) :
  p ≠ [] → Forall proper p → tree_ok x.(ex_fs) → chain x.(ex_fs) (parent p) →
  (x.(ex_fs) !! p = None → tree_ok (<[p := i]> x.(ex_fs)) → x.(ex_fs) ⊆ <[p := i]> x.(ex_fs) →
   total (<[p := i]> x.(ex_fs)) = file_size i + total x.(ex_fs) → Q tt (x <| ex_fs ::= <[p := i]> |>)) →
  wp (change (λ fs, create fs p i)) Q (λ e _, no_link_followed e) x.
Proof using Type.
  intros Hne Hprop Hok Hch HQ. pose proof (chain_above _ _ Hne Hch) as Hab. unfold change. wp_steps.
  destruct (ex_fs x !! p) as [j|] eqn:Hp.
  - unfold create. rewrite resolve_dirs, Hp by exact Hab. by wp_steps.
  - rewrite create_ok by done. wp_steps. apply HQ; [done | by apply tree_ok_insert | by apply insert_subseteq | by apply total_insert].
Qed.

Lemma make_directory_safe x p :
  p ≠ [] → Forall proper p → confined x → chain x.(ex_fs) (parent p) →
  wp (make_directory now p) (λ _ x', confined x' ∧ x' = x <| ex_fs := x'.(ex_fs) |> ∧ ∃ i, x'.(ex_fs) !! p = Some i ∧ is_dir i)
    (λ e _, no_link_followed e) x.
Proof.
  intros Hne Hprop Hx Hch. pose proof (chain_above _ _ Hne Hch) as Hab. unfold make_directory. wp_steps.
  destruct (ex_fs x !! p) as [j|] eqn:Hp.
  - unfold create, Lstat. rewrite resolve_dirs, Hp by exact Hab. wp_steps.
    destruct (in_node j) eqn:Ek; wp_steps; try done. split_and!; [done | by destruct x | by exists j].
  - rewrite create_ok by done. wp_steps. split_and!; [|done | exists (new_dir now); split; [apply lookup_insert_eq | done]].
    eapply confined_grow; [exact Hx | apply tree_ok_insert; try done; apply Hx | | apply Hx | by apply insert_subseteq | done].
    cbn. rewrite total_insert by done. apply Hx.
Qed.

Lemma extract_entry_safe x e : confined x → wp (extract_entry now e) (λ _, confined) (λ e _, no_link_followed e) x.
Proof.
  intros Hx. destruct e as [h content]. unfold extract_entry. wp_steps; [done|].
  destruct (canonicalArchiveRelativePath _ _) as [e|name] eqn:Hname; [wp_steps; unfold canonicalArchiveRelativePath in Hname|].
  { repeat match type of Hname with (if ?b then _ else _) = _ => destruct b; [by injection Hname as <-|] end. cbv zeta in Hname.
    repeat match type of Hname with (if ?b then _ else _) = _ => destruct b; [by injection Hname as <-|] end. done. }
  destruct (canonical_proper _ _ _ Hname) as [Hprop _]. pose proof (Split_nonempty name) as Hne. wp_steps; [done|].
  match goal with |- wp _ _ _ ?s => assert (Hx1 : confined s) by (destruct Hx; by split); revert Hx1; generalize s end.
  clear dependent x. intros x Hx.
  assert (Hfile : wp (extract_file now name h content) (λ _, confined) (λ e _, no_link_followed e) x).
  { unfold extract_file. wp_steps; [done|]. match goal with H : _ || _ = false |- _ => apply orb_false_iff in H as [H1 H2]; apply Z.ltb_ge in H1, H2 end.
    eapply wp_mono; [by apply prepare_safe | | done]. intros [] x1 (Hx1 & Hch & Ex1). wp_steps. apply create_safe; [done | done | apply Hx1 | done|].
    intros Hp Hok Hsub Htot. wp_steps; [done|]. match goal with H : (_ <? _) = false |- _ => apply Z.ltb_ge in H end.
    eapply confined_grow; [exact Hx1 | exact Hok | | | done | done]; cbn.
    - rewrite Htot, (cf_total _ Hx1). unfold file_size. cbn. rewrite length_take. lia.
    - rewrite Ex1. cbn. lia. }
  destruct h.(hd_Typeflag); try done.
  - unfold extract_link. apply wp_bind. destruct (validateArchiveSymlinkTarget _) as [e|[]] eqn:Ev.
    { wp_steps. unfold validateArchiveSymlinkTarget in Ev. destruct (_ || _); [by injection Ev as <- | done]. }
    wp_steps. eapply wp_mono; [by apply prepare_safe | | done]. intros [] x1 (Hx1 & Hch & Ex1). wp_steps.
    apply create_safe; [done | done | apply Hx1 | done|]. intros Hp Hok Hsub Htot.
    eapply confined_grow; [exact Hx1 | exact Hok | cbn; rewrite Htot; apply Hx1 | apply Hx1 | done | done].
  - unfold extract_directory. wp_steps. eapply wp_mono; [by apply prepare_safe | | done]. intros [] x1 (Hx1 & Hch & Ex1). wp_steps.
    eapply wp_mono; [by apply make_directory_safe | | done]. intros [] x2 (Hx2 & Ex2 & Hdir). wp_steps.
    destruct Hx2 as [? ? ? Hdirs]. split; try done. cbn. intros d [Hd|Hd]%elem_of_app; [by apply Hdirs|].
    apply list_elem_of_singleton in Hd as ->. exact Hdir.
Qed.

Lemma apply_metadata_safe x d :
  confined x → d ∈ x.(ex_directories) →
  wp (apply_metadata d) (λ _ x', confined x' ∧ x'.(ex_directories) = x.(ex_directories)) (λ e _, no_link_followed e) x.
Proof using Type.
  intros Hx Hd. destruct (cf_dirs _ Hx d Hd) as (i & Hi & Hdir). unfold apply_metadata, change, set_metadata. wp_steps.
  rewrite (Lstat_in _ _ _ (cf_tree _ Hx) Hi). destruct i as [k m]. unfold is_dir in Hdir. cbn in Hdir. subst k. wp_steps. split; [|done].
  assert (Hshape : ∀ p, in_node <$> <[Split (dm_name d) := MkInode NDir (dm_meta d)]> (ex_fs x) !! p = in_node <$> ex_fs x !! p).
  { intros p. destruct (decide (p = Split (dm_name d))) as [->|Hne]; [by rewrite lookup_insert_eq, Hi | by rewrite lookup_insert_ne]. }
  destruct Hx as [Hok Ht Hl Hds]. split; cbn; [by eapply tree_ok_shape | by rewrite (total_update _ _ _ _ Hi) | done|].
  intros d' (j & Hj & Hdj)%Hds. pose proof (Hshape (Split (dm_name d'))) as Hs. rewrite Hj in Hs. cbn [fmap option_fmap option_map] in Hs.
  apply fmap_Some in Hs as (j' & Hj' & E). exists j'. split; [done|]. unfold is_dir in *. congruence.
Qed.

Lemma extract_safe archive x : confined x → wp (extractTarToRoot now archive) (λ _, confined) (λ e _, no_link_followed e) x.
Proof.
  intros Hx. unfold extractTarToRoot. apply wp_bind. unfold for_each at 1.
  eapply wp_mono; [apply (wp_fold _ (λ _ _, confined) (λ e _, no_link_followed e)); [done|]| |done].
  { intros _ e l x1 Hx1. by apply extract_entry_safe. }
  intros [] x1 Hx1. wp_steps. unfold for_each.
  eapply wp_mono; [apply (wp_fold _ (λ _ ds x2, confined x2 ∧ ∀ d, d ∈ ds → d ∈ x2.(ex_directories)) (λ e _, no_link_followed e))| by intros ? ? [? _] |done].
  - split; [done|]. intros d. by rewrite elem_of_order_by.
  - intros _ d ds x2 [Hx2 Hds]. eapply wp_mono; [apply apply_metadata_safe; [done | apply Hds; left] | | done].
    intros [] x3 [Hx3 E]. split; [done|]. intros d' Hd'. rewrite E. apply Hds. by right.
Qed.
End confinement.

Lemma archive_back fs order archive now :
  tree_ok fs → (∀ l, order l ≡ₚ l) → short_directories fs → addRootToTar order fs = inr archive →
  extractTarToDir now archive = inr (omap (saved now) fs).
Proof.
  intros Hok Horder Hshort Hpack. pose proof (addRootToTar_run fs order Hok Horder) as H. rewrite Hpack in H.
  destruct H as (paths & Hnd & Hin & Hpf & Hp & -> & Hc & Hs). by apply unpack_run.
Qed.

(** ** Theorems *)

(** C18: a tree that was packed is unpacked to the same tree: every directory,
    file and link at its path, files with their contents and links with their
    targets, with the permission bits, the owner and the modification time to the
    second (links: the owner only), and without the sockets, pipes and devices;
    whatever order directories list their names in.  The one path that does not
    come back is a directory's of exactly 4096 bytes. *)
Theorem archive_roundtrip fs order archive now
    (Hok : tree_ok fs) (Horder : ∀ l, order l ≡ₚ l) (Hshort : short_directories fs)
    (Hpack : addRootToTar order fs = inr archive) :
  extractTarToDir now archive = inr (omap (saved now) fs).
Proof.
  by eapply archive_back.
Qed.

(** C17: whatever archive is unpacked, no call ever resolves a symbolic link,
    what is made is a tree below the root with proper names only (no [..], no
    separator), and its files hold at most 32 GiB. *)
Theorem extraction_confined now archive :
  match extractTarToDir now archive with
  | inr fs => tree_ok fs ∧ total fs ≤ maxRestoredSnapshotData
  | inl e => e ≠ FsError FollowsLink
  end.
Proof.
  assert (Hx : confined (MkExtraction ∅ 0 0 ∅ [])).
  { split; cbn; [by intros p i | done | done | by intros d ?%not_elem_of_nil]. }
  pose proof (extract_safe now archive _ Hx) as Hw. unfold wp in Hw. unfold extractTarToDir.
  destruct (extractTarToRoot now archive _) as [x [e|[]]]; [exact Hw|]. destruct Hw as [Hok Ht Hl _]. split; [done | lia].
Qed.

(** ** Witnesses *)

Definition sample_meta : Meta := MkMeta 493 1000 1000 1600000000400000000.
Definition sample_tree : Fs := list_to_map [
  (["app"%string], MkInode NDir sample_meta);
  (["app"%string; "files"%string], MkInode NDir sample_meta);
  (["app"%string; "files"%string; "a.txt"%string], MkInode (NFile [104; 105]%N) sample_meta);
  (["app"%string; "link"%string], MkInode (NLink "../../etc") sample_meta);
  (["app"%string; "socket"%string], MkInode NSpecial sample_meta)].

(** The same, as tests. *)
Definition dir_at (fs : Fs) (p : Path) : bool := match fs !! p with Some (MkInode NDir _) => true | _ => false end.
Definition proper_name (n : string) : bool :=
  negb (n =?s "") && negb (n =?s ".") && negb (n =?s "..") && forallb (λ c, negb (Ascii.eqb "/"%char c)) (bytes_of n).
Definition tree_check (fs : Fs) : bool := forallb (λ x, negb (bool_decide (x.1 = [])) && forallb proper_name x.1
  && (bool_decide (parent x.1 = []) || dir_at fs (parent x.1)) && (str_len (path_string x.1) <? maxArchivePathBytes)) (map_to_list fs).

Lemma tree_checked fs : tree_check fs = true → tree_ok fs ∧ short_directories fs.
Proof.
  unfold tree_check. intros H. rewrite forallb_forall in H.
  assert (Hat : ∀ p i, fs !! p = Some i → p ≠ [] ∧ Forall proper p ∧ (parent p = [] ∨ dir_at fs (parent p) = true)
    ∧ str_len (path_string p) < maxArchivePathBytes).
  { intros p i Hp. assert (Hi : In (p, i) (map_to_list fs)) by (by apply list_elem_of_In, elem_of_map_to_list). apply H in Hi. cbn [fst] in Hi.
    rewrite !andb_true_iff, negb_true_iff, bool_decide_eq_false, orb_true_iff, bool_decide_eq_true, Z.ltb_lt in Hi.
    destruct Hi as [[[H1 H2] H3] H4]. split_and!; try done. apply Forall_forall. intros n Hn. rewrite forallb_forall in H2.
    apply list_elem_of_In, H2 in Hn. unfold proper_name in Hn. rewrite !andb_true_iff, !negb_true_iff, !str_eqb_neq in Hn.
    destruct Hn as [[[? ?] ?] Hs]. split_and!; try done. intros Hc. rewrite forallb_forall in Hs. apply list_elem_of_In, Hs in Hc. by cbn in Hc. }
  split; intros p i Hp; destruct (Hat p i Hp) as (? & ? & Hpar & ?); [|done]. split_and!; try done.
  destruct Hpar as [?|Hd]; [by left|]. right. unfold dir_at in Hd. destruct (fs !! parent p) as [[[] m]|]; try done. by eexists.
Qed.

Lemma sample_tree_ok : tree_ok sample_tree ∧ short_directories sample_tree.
Proof. apply tree_checked. vm_compute. reflexivity. Qed.

Lemma archive_roundtrip_witness : ∃ archive, addRootToTar reverse sample_tree = inr archive ∧ length archive = 4%nat
  ∧ extractTarToDir 5 archive = inr (omap (saved 5) sample_tree).
Proof.
  assert (E : ∃ archive, addRootToTar reverse sample_tree = inr archive ∧ length archive = 4%nat) by (eexists; split; vm_compute; reflexivity).
  destruct E as (archive & E & Hl). exists archive. split; [exact E|]. split; [exact Hl|].
  destruct sample_tree_ok as [Hok Hs]. exact (archive_roundtrip sample_tree reverse archive 5 Hok reverse_Permutation Hs E).
Defined.

(** ** A directory that is packed and cannot be unpacked *)

Lemma for_each_all {S E A} (f : A → M S E unit) l s s' :
  for_each f l s = (s', inr tt) → ∀ x, x ∈ l → ∃ s1 s2, f x s1 = (s2, inr tt).
Proof.
  revert s. induction l as [|y l IH]; intros s Hrun x; [by intros ?%not_elem_of_nil|]. rewrite for_each_cons in Hrun.
  unfold mbind, M_bind in Hrun. destruct (f y s) as [s1 [e|[]]] eqn:Ey; [done|]. intros [->|Hx]%elem_of_cons; [by eexists _, _ | by eapply IH].
Qed.

(** Packing measures a directory's path without the slash it writes after it,
    unpacking measures it with the slash: a tree that has a directory whose path
    takes all of the 4096 bytes is packed, and its archive is never unpacked. *)
Theorem longest_directory_lost fs order archive now p i :
  tree_ok fs → (∀ l, order l ≡ₚ l) → addRootToTar order fs = inr archive →
  fs !! p = Some i → is_dir i → str_len (path_string p) = maxArchivePathBytes →
  ∃ e, extractTarToDir now archive = inl e.
Proof.
  intros Hok Ho Hpack Hi Hd Hlen. pose proof (addRootToTar_run fs order Hok Ho) as H. rewrite Hpack in H.
  destruct H as (paths & _ & Hin & _ & Hp & -> & _ & _). destruct (Hok _ _ Hi) as (Hne & Hprop & _).
  unfold extractTarToDir, extractTarToRoot, mbind at 1, M_bind at 1.
  destruct (for_each (extract_entry now) (entries_of fs paths) _) as [x [e|[]]] eqn:E; [by eexists|]. exfalso.
  specialize (Hp _ _ Hi). unfold packable, is_dir in *. rewrite Hd in Hp.
  pose proof (canonical_directory p _ Hne Hprop Hp) as Hc. rewrite Hlen, Z.ltb_irrefl in Hc.
  destruct (for_each_all _ _ _ _ E (tar_header (FileInfoHeader i (path_string p +:+ "/") ""), [])) as (x1 & x2 & Hx).
  { unfold entries_of. apply list_elem_of_omap. exists p. split; [apply Hin; by eexists|]. rewrite Hi. cbn [mbind option_bind].
    unfold entry_of. by rewrite Hd. }
  assert (Hw : wp (extract_entry now (tar_header (FileInfoHeader i (path_string p +:+ "/") ""), [])) (λ _ _, False) (λ _ _, True) x1).
  { unfold extract_entry. wp_steps; [done|]. cbn [hd_Name hd_Typeflag tar_header FileInfoHeader]. rewrite Hd, Hc. by wp_steps. }
  unfold wp in Hw. by rewrite Hx in Hw.
Qed.

(** Such a path: 17 names of 240 bytes. *)
Definition long_path : Path := repeat (of_bytes (repeat "d"%char 240)) 17.
Example long_path_bytes : canonicalArchiveRelativePath (path_string long_path) true = inr (path_string long_path)
  ∧ str_len (path_string long_path) = maxArchivePathBytes.
Proof. vm_compute. split; reflexivity. Qed.
