(* ===== verification/Snapshots.v ===== *)
(** * Encrypted snapshots

    Models how the node agent turns a runtime's data into an encrypted snapshot
    in its own blob store and back (cmd/virtnoded/blobstore.go): the keys derived
    from what a phone sealed to the node, the snapshot file, its chunks, the
    manifest that lists them, its validation and its authentication, and the
    local store's operations.

    The snapshot file and the chunks are lists of bytes; hashing, keyed hashing
    and encryption are the real functions ([Codec], [Crypto]), so what is random
    (salts, nonces, snapshot IDs) and the time are arguments.  compress/gzip
    around archive/tar is [Packer]: what reading an archive gives.  A blob store
    is a map from object keys to bytes; writing a file, syncing and renaming do
    not fail, and a snapshot's directory appears with all its chunks at once, as
    the code's staging and rename make it.  A time in a manifest is the text
    encoding/json writes it as. *)

From Stdlib Require Import Ascii.
From stdpp Require Import pretty.
From S2P Require Import Prelude.
From S2P Require Import GoLib.
From S2P Require Import Codec.
From S2P Require Import Crypto.
From S2P Require Import Archive.
Open Scope Z_scope.

(** ** Errors and limits *)

Inductive blob_error :=
| ErrSnapshotMissing
| ErrBlobSnapshotTooLarge
| ErrRuntimeStorageQuotaExceeded
| ErrFromArchive (e : archive_error)
| ErrBlob (text : string).

Definition snapshotMagic : string := "VRTBLOB2".
Definition snapshotMagicV1 : string := "VRTBLOB1".
Definition runtimeSnapshotKeyContext : string := "VIRTROID-RUNTIME-SNAPSHOT-KEY-V2".
Definition runtimeBlobNamespaceCtx : string := "VIRTROID-RUNTIME-BLOB-NAMESPACE-V3".
Definition runtimeManifestMACCtx : string := "VIRTROID-RUNTIME-MANIFEST-MAC-V3".
Definition runtimeBoundEncryption : string := "aes-ctr+hmac-sha256+runtime-kdf-v2".
Definition authenticatedEncryption : string := "aes-ctr+hmac-sha256+runtime-kdf-v2+manifest-mac-v3".
Definition snapshotTagSize : Z := 32.
Definition blobStoreLocal : string := "local-disk".
Definition blobStoreRenterd : string := "sia-renterd".
Definition blobStoreSia : string := "sia-indexd".
Definition blobChunkSize : Z := Z.shiftl 4 20.
Definition maxBlobChunkSize : Z := Z.shiftl 16 20.
Definition maxBlobSnapshotBytes : Z := Z.shiftl 16 30.
Definition maxBlobManifestChunks : Z := maxBlobSnapshotBytes / blobChunkSize.

Definition zlen {A} (l : list A) : Z := Z.of_nat (length l).

(** ** Manifests *)

Record blobChunk := MkChunk { ch_Index : Z; ch_Key : string; ch_Size : Z; ch_SHA256 : string }.
#[warnings="-register-all"]
Inductive blobManifest := MkManifest {
  bm_Version : Z; bm_RuntimeID : string; bm_Namespace : string; bm_Store : string; bm_Bucket : string; bm_ObjectType : string;
  bm_SnapshotID : string; bm_Generation : Z; bm_CreatedAt : string; bm_ChunkSize : Z; bm_TotalBytes : Z; bm_Compression : string;
  bm_Encryption : string; bm_Chunks : list blobChunk; bm_SiaObject : string; bm_ManifestMAC : string;
  bm_MigrationFallback : option blobManifest }.
#[export] Instance blob_manifest_eta : Eta blobManifest := λ m,
  MkManifest m.(bm_Version) m.(bm_RuntimeID) m.(bm_Namespace) m.(bm_Store) m.(bm_Bucket) m.(bm_ObjectType) m.(bm_SnapshotID)
    m.(bm_Generation) m.(bm_CreatedAt) m.(bm_ChunkSize) m.(bm_TotalBytes) m.(bm_Compression) m.(bm_Encryption) m.(bm_Chunks)
    m.(bm_SiaObject) m.(bm_ManifestMAC) m.(bm_MigrationFallback).

(** *** json.Marshal *)

Definition quote_char : ascii := ascii_of_N 34.
Definition backslash_char : ascii := ascii_of_N 92.
Definition u_escape (n : N) : list ascii :=
  [backslash_char; "u"%char; "0"%char; "0"%char; hex_digit (n / 16); hex_digit (n mod 16)].
(** A byte of a string; the bytes of U+2028 and U+2029 are left to [json_bytes]. *)
Definition json_byte (c : ascii) : list ascii :=
  let n := N_of_ascii c in
  if Ascii.eqb c quote_char || Ascii.eqb c backslash_char then [backslash_char; c]
  else if (n =? 8)%N then [backslash_char; "b"%char] else if (n =? 12)%N then [backslash_char; "f"%char]
  else if (n =? 10)%N then [backslash_char; "n"%char] else if (n =? 13)%N then [backslash_char; "r"%char]
  else if (n =? 9)%N then [backslash_char; "t"%char]
  else if (n <? 32)%N || (n =? 60)%N || (n =? 62)%N || (n =? 38)%N then u_escape n
  else [c].
Fixpoint json_bytes (l : list ascii) : list ascii :=
  match l with
  | [] => []
  | a :: ((b :: c :: l') as rest) =>
    if (N_of_ascii a =? 226)%N && (N_of_ascii b =? 128)%N && ((N_of_ascii c =? 168)%N || (N_of_ascii c =? 169)%N)
    then bytes_of (of_bytes [backslash_char] +:+ "u202") ++ [hex_digit (N_of_ascii c - 160)] ++ json_bytes l'
    else json_byte a ++ json_bytes rest
  | a :: rest => json_byte a ++ json_bytes rest
  end.
(** Of a string that is UTF-8, as every string read from JSON is. *)
Definition json_string (s : string) : list ascii := [quote_char] ++ json_bytes (bytes_of s) ++ [quote_char].

Definition json_int (z : Z) : list ascii := bytes_of (fmt_d z).
Definition json_member (name : string) (value : list ascii) : list (list ascii) :=
  [[quote_char] ++ bytes_of name ++ [quote_char; ":"%char] ++ value].
Definition omit_empty (empty : bool) (member : list (list ascii)) : list (list ascii) := if empty then [] else member.
Fixpoint commas (parts : list (list ascii)) : list ascii :=
  match parts with
  | [] => []
  | [part] => part
  | part :: parts' => part ++ ","%char :: commas parts'
  end.
Definition json_object (members : list (list ascii)) : list ascii := ["{"%char] ++ commas members ++ ["}"%char].
Definition json_array (values : list (list ascii)) : list ascii := ["["%char] ++ commas values ++ ["]"%char].

Definition marshal_chunk (c : blobChunk) : list ascii :=
  json_object (json_member "index" (json_int c.(ch_Index)) ++ json_member "key" (json_string c.(ch_Key))
    ++ json_member "size" (json_int c.(ch_Size)) ++ json_member "sha256" (json_string c.(ch_SHA256))).

Fixpoint marshal (m : blobManifest) : list ascii :=
  json_object (
    json_member "version" (json_int m.(bm_Version))
    ++ omit_empty (m.(bm_RuntimeID) =?s "") (json_member "runtime_id" (json_string m.(bm_RuntimeID)))
    ++ omit_empty (m.(bm_Namespace) =?s "") (json_member "namespace" (json_string m.(bm_Namespace)))
    ++ json_member "store" (json_string m.(bm_Store))
    ++ omit_empty (m.(bm_Bucket) =?s "") (json_member "bucket" (json_string m.(bm_Bucket)))
    ++ json_member "object_type" (json_string m.(bm_ObjectType))
    ++ json_member "snapshot_id" (json_string m.(bm_SnapshotID))
    ++ omit_empty (m.(bm_Generation) =? 0) (json_member "generation" (json_int m.(bm_Generation)))
    ++ json_member "created_at" (json_string m.(bm_CreatedAt))
    ++ json_member "chunk_size" (json_int m.(bm_ChunkSize))
    ++ json_member "total_bytes" (json_int m.(bm_TotalBytes))
    ++ json_member "compression" (json_string m.(bm_Compression))
    ++ json_member "encryption" (json_string m.(bm_Encryption))
    ++ json_member "chunks" (match m.(bm_Chunks) with [] => bytes_of "null" | cs => json_array (marshal_chunk <$> cs) end)
    ++ omit_empty (m.(bm_SiaObject) =?s "") (json_member "sia_object" (json_string m.(bm_SiaObject)))
    ++ omit_empty (m.(bm_ManifestMAC) =?s "") (json_member "manifest_mac" (json_string m.(bm_ManifestMAC)))
    ++ match m.(bm_MigrationFallback) with Some fallback => json_member "migration_fallback" (marshal fallback) | None => [] end).

(** ** Keys *)

Definition runtimeKeysSize : nat := 96.
Definition runtimeKeysWithNotificationSize : nat := runtimeKeysSize + 32.
Definition runtimeKeysWithFloorSize : nat := runtimeKeysWithNotificationSize + 8.

(** The keys, and the phone's snapshot floor when it sent one. *)
Definition splitSnapshotFloor (plaintext : list N) : list N * option Z :=
  if negb (length plaintext =? runtimeKeysWithFloorSize)%nat then (plaintext, None)
  else
    let raw := Z.of_N (of_big_endian (drop runtimeKeysWithNotificationSize plaintext)) in
    (take runtimeKeysWithNotificationSize plaintext, Some (if max_int64 - 1 <? raw then max_int64 - 1 else raw)).

Definition runtimeKeysOnly (material : list N) : bool :=
  (length material =? runtimeKeysSize)%nat || (length material =? runtimeKeysWithNotificationSize)%nat.

Definition runtimeNotificationKey (material : list N) : option (list N) :=
  if negb (length material =? runtimeKeysWithNotificationSize)%nat then None else Some (drop runtimeKeysSize material).

(** The MAC, under the account key, of a purpose and a runtime. *)
Definition runtime_mac (masterKey : list N) (context runtimeID : string) : list N :=
  HMAC masterKey (octets_of context ++ [0%N] ++ octets_of (TrimSpace runtimeID)).

Definition deriveRuntimeSnapshotKey (masterKey : list N) (runtimeID : string) : list N :=
  if runtimeKeysOnly masterKey then take 32 masterKey else runtime_mac masterKey runtimeSnapshotKeyContext runtimeID.
Definition deriveRuntimeBlobNamespace (masterKey : list N) (runtimeID : string) : string :=
  if runtimeKeysOnly masterKey then hex_encode (take 32 (drop 64 masterKey))
  else hex_encode (runtime_mac masterKey runtimeBlobNamespaceCtx runtimeID).
Definition runtimeManifestMACKey (masterKey : list N) (runtimeID : string) : list N :=
  if runtimeKeysOnly masterKey then take 32 (drop 32 masterKey) else runtime_mac masterKey runtimeManifestMACCtx runtimeID.

Definition runtimeViewerKeyContext : string := "VIRTROID-RUNTIME-VIEWER-KEY-V1".
Definition runtimeViewerKey (material : list N) (runtimeID : string) : list N :=
  HMAC (deriveRuntimeSnapshotKey material runtimeID) (octets_of runtimeViewerKeyContext).

Definition deriveBlobKeys (masterKey salt : list N) : list N * list N :=
  (HKDF masterKey salt (octets_of "virtroid-snapshot-encryption-v2"), HKDF masterKey salt (octets_of "virtroid-snapshot-mac-v2")).
Definition deriveBlobKeysV1 (masterKey salt : list N) : list N * list N := (Sum256 (masterKey ++ salt), Sum256 (salt ++ masterKey)).

Definition snapshotKeyForManifest (masterKey : list N) (runtimeID : string) (m : blobManifest) : list N :=
  if 2 <=? m.(bm_Version) then deriveRuntimeSnapshotKey masterKey runtimeID
  else if runtimeKeysOnly masterKey then [] else masterKey.

(** *** Manifest authentication *)

Definition blobManifestMACPayload (m : blobManifest) : list N := N_of_ascii <$> marshal (m <| bm_ManifestMAC := ""%string |>).

Definition authenticateBlobManifest (m : blobManifest) (masterKey : list N) (runtimeID : string) : blob_error + blobManifest :=
  if negb (m.(bm_Version) =? 3) then inl (ErrBlob "only version 3 blob manifests can be authenticated")
  else inr (m <| bm_ManifestMAC := hex_encode (HMAC (runtimeManifestMACKey masterKey runtimeID) (blobManifestMACPayload m)) |>).

Definition verifyBlobManifestAuthentication (m : blobManifest) (masterKey : list N) (runtimeID : string) : blob_error + unit :=
  if m.(bm_Version) <? 3 then inr tt
  else match hex_decode m.(bm_ManifestMAC) with
       | Some provided =>
         if negb (length provided =? 32)%nat then inl (ErrBlob "blob manifest authentication is invalid")
         else if negb (bool_decide (provided = HMAC (runtimeManifestMACKey masterKey runtimeID) (blobManifestMACPayload m)))
         then inl (ErrBlob "blob manifest authentication failed")
         else if negb (m.(bm_Namespace) =?s deriveRuntimeBlobNamespace masterKey runtimeID)
         then inl (ErrBlob "blob manifest namespace does not match the runtime key")
         else inr tt
       | None => inl (ErrBlob "blob manifest authentication is invalid")
       end.

(** ** Validation *)

(** [fmt.Sprintf("chunk-%05d.bin", index)]. *)
Definition pad5 (index : Z) : string :=
  let digits := fmt_d index in of_bytes (repeat "0"%char (5 - String.length digits)) +:+ digits.
Definition chunk_name (index : Z) : string := "chunk-" +:+ pad5 index +:+ ".bin".

(** [filepath.Join]. *)
Definition filepath_Join (parts : list string) : string :=
  match List.filter (λ s, negb (s =?s "")) parts with [] => ""%string | parts' => Clean (path_string parts') end.

Definition validateSnapshotID (snapshotID : string) : blob_error + unit :=
  if TrimSpace snapshotID =?s "" then inl (ErrBlob "blob manifest has empty snapshot id")
  else if negb (TrimSpace snapshotID =?s snapshotID) || (snapshotID =?s ".") || (snapshotID =?s "..")
          || Contains snapshotID "/" || Contains snapshotID backslash
  then inl (ErrBlob "invalid blob snapshot id")
  else inr tt.

Definition key_prefix (m : blobManifest) (runtimeID : string) : string := if m.(bm_Version) =? 3 then m.(bm_Namespace) else runtimeID.
Definition expected_key (m : blobManifest) (runtimeID : string) (index : Z) : string :=
  filepath_Join [key_prefix m runtimeID; m.(bm_SnapshotID); chunk_name index].

Definition validateBlobChunkKey (m : blobManifest) (runtimeID : string) (index : Z) (key : string) : blob_error + unit :=
  if TrimSpace key =?s "" then inl (ErrBlob "blob manifest chunk has empty key")
  else if negb (TrimSpace key =?s key) || IsAbs key then inl (ErrBlob "blob manifest chunk has invalid key")
  else if negb (runtimeID =?s "") && negb (key =?s expected_key m runtimeID index)
  then inl (ErrBlob "blob manifest chunk key does not match expected runtime path")
  else inr tt.

(** The loop over the chunks: their total. *)
Fixpoint validate_chunks (m : blobManifest) (runtimeID : string) (index : Z) (totalBytes : Z) (cs : list blobChunk) : blob_error + Z :=
  match cs with
  | [] => inr totalBytes
  | c :: cs' =>
    if negb (c.(ch_Index) =? index) then inl (ErrBlob "blob manifest chunk index mismatch")
    else match validateBlobChunkKey m runtimeID index c.(ch_Key) with
    | inl e => inl e
    | inr _ =>
      if (c.(ch_Size) <=? 0) || (m.(bm_ChunkSize) <? c.(ch_Size)) || (maxBlobChunkSize <? c.(ch_Size))
      then inl (ErrBlob "blob manifest chunk has invalid size")
      else if negb (str_len c.(ch_SHA256) =? 64) then inl (ErrBlob "blob manifest chunk has invalid hash")
      else if maxBlobSnapshotBytes - c.(ch_Size) <? totalBytes then inl (ErrBlob "blob manifest byte total overflows size limit")
      else validate_chunks m runtimeID (index + 1) (totalBytes + c.(ch_Size)) cs'
    end
  end.

Definition is_none {A} (o : option A) : bool := match o with None => true | Some _ => false end.

(** What version 3 adds, and what the others may not have. *)
Definition validate_version (m : blobManifest) (runtimeID : string) : blob_error + unit :=
  if negb (m.(bm_Version) =? 1) && negb (m.(bm_Version) =? 2) && negb (m.(bm_Version) =? 3)
  then inl (ErrBlob "unsupported blob manifest version")
  else if (2 <=? m.(bm_Version)) && (TrimSpace m.(bm_RuntimeID) =?s "") then inl (ErrBlob "runtime-bound blob manifest has no runtime id")
  else if (2 <=? m.(bm_Version)) && negb (runtimeID =?s "") && negb (m.(bm_RuntimeID) =?s runtimeID)
  then inl (ErrBlob "blob manifest runtime id does not match")
  else if m.(bm_Version) =? 3 then
    if m.(bm_Generation) <? 0 then inl (ErrBlob "authenticated blob manifest has an invalid generation")
    else if negb (str_len m.(bm_Namespace) =? 64) then inl (ErrBlob "authenticated blob manifest has an invalid namespace")
    else if is_none (hex_decode m.(bm_Namespace)) then inl (ErrBlob "authenticated blob manifest namespace is not hexadecimal")
    else if negb (str_len m.(bm_ManifestMAC) =? 64) then inl (ErrBlob "authenticated blob manifest has an invalid manifest MAC")
    else if is_none (hex_decode m.(bm_ManifestMAC)) then inl (ErrBlob "authenticated blob manifest MAC is not hexadecimal")
    else inr tt
  else if negb (m.(bm_Namespace) =?s "") || negb (m.(bm_ManifestMAC) =?s "")
  then inl (ErrBlob "legacy blob manifest contains authenticated-manifest fields")
  else inr tt.

Definition expected_encryption (m : blobManifest) : string :=
  if m.(bm_Version) =? 2 then runtimeBoundEncryption
  else if m.(bm_Version) =? 3 then authenticatedEncryption else "aes-ctr+hmac-sha256".

Definition validate_shape (m : blobManifest) : blob_error + unit :=
  if negb (m.(bm_ObjectType) =?s "runtime-userdata") then inl (ErrBlob "unsupported blob object type")
  else if negb (m.(bm_Encryption) =?s expected_encryption m) then inl (ErrBlob "unsupported blob encryption")
  else if negb (m.(bm_Compression) =?s "gzip") then inl (ErrBlob "unsupported blob compression")
  else if zlen m.(bm_Chunks) =? 0 then inl (ErrBlob "blob manifest has no chunks")
  else if maxBlobManifestChunks <? zlen m.(bm_Chunks) then inl (ErrBlob "blob manifest has too many chunks")
  else if (m.(bm_ChunkSize) <=? 0) || (maxBlobChunkSize <? m.(bm_ChunkSize)) then inl (ErrBlob "blob manifest has invalid chunk size")
  else if (m.(bm_TotalBytes) <=? 0) || (maxBlobSnapshotBytes <? m.(bm_TotalBytes)) then inl (ErrBlob "blob manifest has invalid total size")
  else validateSnapshotID m.(bm_SnapshotID).

(** [parseSiaObjectID]: 32 bytes in hexadecimal. *)
Definition valid_sia_object (id : string) : bool :=
  match hex_decode id with Some raw => (length raw =? 32)%nat | None => false end.
Definition validate_sia (m : blobManifest) : blob_error + unit :=
  if m.(bm_Store) =?s blobStoreSia then
    if negb (m.(bm_Version) =? 3) then inl (ErrBlob "sia blob manifest is not authenticated")
    else if negb (valid_sia_object m.(bm_SiaObject)) then inl (ErrBlob "invalid sia object id")
    else inr tt
  else if negb (m.(bm_SiaObject) =?s "") then inl (ErrBlob "only sia blob manifests name a sia object")
  else inr tt.

Notation "x ⟵ y ; z" := (match y with inl e => inl e | inr x => z end) (at level 20, y at level 100, z at level 200, only parsing).

Fixpoint validateBlobManifestForRuntime (m : blobManifest) (runtimeID : string) : blob_error + unit :=
  _ ⟵ validate_version m runtimeID;
  _ ⟵ validate_shape m;
  totalBytes ⟵ validate_chunks m runtimeID 0 0 m.(bm_Chunks);
  if negb (m.(bm_TotalBytes) =? totalBytes) then inl (ErrBlob "blob manifest byte total mismatch")
  else
    _ ⟵ validate_sia m;
    match m.(bm_MigrationFallback) with
    | None => inr tt
    | Some fallback =>
      if negb (m.(bm_Version) =? 3) then inl (ErrBlob "legacy blob manifest contains a migration fallback")
      else if negb (is_none fallback.(bm_MigrationFallback)) then inl (ErrBlob "blob manifest migration fallback cannot be nested")
      else if fallback.(bm_Store) =?s m.(bm_Store) then inl (ErrBlob "blob manifest migration fallback must use a different store")
      else validateBlobManifestForRuntime fallback runtimeID
    end.

(** ** The snapshot file *)

(** Writing a tar archive through gzip, and reading one: nothing when it is
    broken. *)
Class Packer : Type := {
  pack : list Entry → list N;
  unpack : list N → option (list Entry) }.

(** An entry whose header tar can hold as it is. *)
Definition writable (e : Entry) : Prop :=
  has_nul e.1.(hd_Name) = false ∧ has_nul e.1.(hd_Linkname) = false ∧ zlen e.2 = e.1.(hd_Size) ∧ e.1.(hd_ModTime) mod 10 ^ 9 = 0.

Section snapshot_file.
Context `{Packer}.

(** [newEncryptedWriterFormat] and what is written to it; [magic] and [derive]
    give the format. *)
Definition encrypt (magic : string) (derive : list N → list N → list N * list N) (masterKey salt nonce plain : list N) : list N :=
  let header := octets_of magic ++ salt ++ nonce in
  let '(encryptionKey, macKey) := derive masterKey salt in
  let ciphertext := CTR encryptionKey nonce plain in
  header ++ ciphertext ++ HMAC macKey (header ++ ciphertext).

(** [writeSnapshotWithContext]: the file, not longer than the bounded writer lets. *)
Definition writeSnapshot (order : list string → list string) (fs : Fs) (masterKey salt nonce : list N) : blob_error + list N :=
  match addRootToTar order fs with
  | inl e => inl (ErrFromArchive e)
  | inr archive =>
    let file := encrypt snapshotMagic deriveBlobKeys masterKey salt nonce (pack archive) in
    if maxBlobSnapshotBytes <? zlen file then inl ErrBlobSnapshotTooLarge else inr file
  end.

Definition headerLen : nat := 56.

(** The plaintext of a snapshot file. *)
Definition decrypt (masterKey file : list N) : blob_error + list N :=
  if maxBlobSnapshotBytes <? zlen file then inl (ErrBlob "snapshot size exceeds maximum")
  else if zlen file <=? Z.of_nat headerLen + snapshotTagSize then inl (ErrBlob "snapshot is truncated")
  else
    let header := take headerLen file in
    let magic := take 8 header in
    if negb (bool_decide (magic = octets_of snapshotMagic)) && negb (bool_decide (magic = octets_of snapshotMagicV1))
    then inl (ErrBlob "snapshot header mismatch")
    else
      let salt := take 32 (drop 8 header) in
      let nonce := drop 40 header in
      let '(encryptionKey, macKey) :=
        if bool_decide (magic = octets_of snapshotMagicV1) then deriveBlobKeysV1 masterKey salt else deriveBlobKeys masterKey salt in
      let ciphertext := take (length file - headerLen - 32) (drop headerLen file) in
      let tag := drop (length file - 32) file in
      if negb (bool_decide (tag = HMAC macKey (header ++ ciphertext))) then inl (ErrBlob "snapshot integrity check failed")
      else inr (CTR encryptionKey nonce ciphertext).

(** [restoreSnapshot]: the tree that takes the data directory's place. *)
Definition restoreSnapshot (now : Z) (file masterKey : list N) : blob_error + Fs :=
  plain ⟵ decrypt masterKey file;
  match unpack plain with
  | None => inl (ErrBlob "gzip or tar error")
  | Some archive => match extractTarToDir now archive with inr fs => inr fs | inl e => inl (ErrFromArchive e) end
  end.

(** ** localBlobStore *)

Notation Blobs := (gmap string (list N)).

(** Reads of [io.ReadFull] of chunks of [n] bytes, at most [fuel] of them. *)
Fixpoint read_chunks (fuel n : nat) (file : list N) : option (list (list N)) :=
  match fuel with
  | O => None
  | S fuel' =>
    match file with
    | [] => Some []
    | _ =>
      let chunk := take n file in
      if (length chunk <? n)%nat then Some [chunk]
      else rest ← read_chunks fuel' n (drop n file); Some (chunk :: rest)
    end
  end.

Definition chunk_entry (namespace snapshotID : string) (index : nat) (payload : list N) : blobChunk :=
  MkChunk (Z.of_nat index) (filepath_Join [namespace; snapshotID; chunk_name (Z.of_nat index)]) (zlen payload) (hex_encode (Sum256 payload)).

(** The names of a snapshot's directory. *)
Definition in_snapshot (namespace snapshotID : string) (key : string) : bool :=
  match Split key with a :: b :: _ :: _ => (a =?s namespace) && (b =?s snapshotID) | _ => false end.

Record Randomness := MkRandomness { rn_salt : list N; rn_nonce : list N; rn_snapshotID : string; rn_createdAt : string }.

Definition new_manifest (runtimeID namespace : string) (chunkSize totalBytes : Z) (random : Randomness) (cs : list blobChunk) : blobManifest :=
  MkManifest 3 runtimeID namespace blobStoreLocal "" "runtime-userdata" random.(rn_snapshotID) 0 random.(rn_createdAt) chunkSize totalBytes
    "gzip" authenticatedEncryption cs "" "" None.

Definition persistFromDir (chunkSize : Z) (order : list string → list string) (random : Randomness) (runtimeID : string) (fs : Fs)
    (masterKey : list N) (blobs : Blobs) : blob_error + (blobManifest * Blobs) :=
  if (chunkSize <=? 0) || (maxBlobChunkSize <? chunkSize) then inl (ErrBlob "invalid local blob chunk size")
  else
    file ⟵ writeSnapshot order fs (deriveRuntimeSnapshotKey masterKey runtimeID) random.(rn_salt) random.(rn_nonce);
    let namespace := deriveRuntimeBlobNamespace masterKey runtimeID in
    match read_chunks (Z.to_nat maxBlobManifestChunks) (Z.to_nat chunkSize) file with
    | None => inl (ErrBlob "snapshot exceeds maximum chunk count")
    | Some payloads =>
      if (length payloads =? 0)%nat then inl (ErrBlob "snapshot produced no chunks")
      else
        let cs := imap (chunk_entry namespace random.(rn_snapshotID)) payloads in
        manifest ⟵ authenticateBlobManifest (new_manifest runtimeID namespace chunkSize (zlen file) random cs) masterKey runtimeID;
        _ ⟵ validateBlobManifestForRuntime manifest runtimeID;
        if existsb (in_snapshot namespace random.(rn_snapshotID)) (map_to_list blobs).*1
        then inl (ErrBlob "commit staged local snapshot")
        else inr (manifest, list_to_map (zip (ch_Key <$> cs) payloads) ∪ blobs)
    end.

(** [blobObjectPath] and [secureJoin]: the object below the store's root. *)
Definition object_key (key : string) : blob_error + string :=
  if IsAbs (TrimSpace key) then inl (ErrBlob "invalid absolute blob object key")
  else
    let cleaned := Clean (TrimSpace key) in
    if (cleaned =?s "..") || HasPrefix cleaned "../" then inl (ErrBlob "invalid archive path") else inr cleaned.

(** [copyExpectedBlobChunk] of what is stored. *)
Definition expect_chunk (c : blobChunk) (stored : list N) : blob_error + list N :=
  if (c.(ch_Size) <=? 0) || (maxBlobChunkSize <? c.(ch_Size)) then inl (ErrBlob "blob chunk has invalid expected size")
  else match hex_decode c.(ch_SHA256) with
       | Some expectedHash =>
         if negb (length expectedHash =? 32)%nat then inl (ErrBlob "blob chunk has invalid expected hash")
         else
           let read := take (Z.to_nat c.(ch_Size) + 1) stored in
           if negb (zlen read =? c.(ch_Size)) then inl (ErrBlob "blob chunk size mismatch")
           else if negb (bool_decide (Sum256 read = expectedHash)) then inl (ErrBlob "blob chunk integrity mismatch")
           else inr read
       | None => inl (ErrBlob "blob chunk has invalid expected hash")
       end.

Fixpoint read_objects (blobs : Blobs) (cs : list blobChunk) : blob_error + list N :=
  match cs with
  | [] => inr []
  | c :: cs' =>
    key ⟵ object_key c.(ch_Key);
    match blobs !! key with
    | None => inl (ErrBlob "file does not exist")
    | Some stored =>
      read ⟵ expect_chunk c stored;
      rest ⟵ read_objects blobs cs';
      inr (read ++ rest)
    end
  end.

Definition restoreToDir (now : Z) (runtimeID : string) (m : blobManifest) (masterKey : list N) (blobs : Blobs) : blob_error + Fs :=
  if negb (m.(bm_Store) =?s blobStoreLocal) then inl (ErrBlob "unsupported blob store kind")
  else
    _ ⟵ validateBlobManifestForRuntime m runtimeID;
    _ ⟵ verifyBlobManifestAuthentication m masterKey runtimeID;
    file ⟵ read_objects blobs m.(bm_Chunks);
    restoreSnapshot now file (snapshotKeyForManifest masterKey runtimeID m).

(** An error stops it where it is. *)
Fixpoint delete_objects (blobs : Blobs) (cs : list blobChunk) : Blobs * (blob_error + unit) :=
  match cs with
  | [] => (blobs, inr tt)
  | c :: cs' =>
    match object_key c.(ch_Key) with
    | inl e => (blobs, inl e)
    | inr key => delete_objects (delete key blobs) cs'
    end
  end.
Definition deleteManifest (m : blobManifest) (blobs : Blobs) : Blobs * (blob_error + unit) := delete_objects blobs m.(bm_Chunks).

(** What is below [root/runtimeID]. *)
Definition below_runtime (runtimeID key : string) : bool := match Split key with a :: _ => a =?s runtimeID | [] => false end.
Definition clearRuntime (runtimeID : string) (blobs : Blobs) : Blobs :=
  if runtimeID =?s "" then blobs else filter (λ kv, below_runtime runtimeID kv.1 = false) blobs.

(** The snapshots below the namespace, or the runtime's ID, but one. *)
Definition pruned (prefixRoot keepSnapshotID : string) (key : string) : bool :=
  match Split key with a :: b :: _ :: _ => (a =?s prefixRoot) && negb (b =?s keepSnapshotID) | _ => false end.
Definition pruneRuntime (runtimeID namespace keepSnapshotID : string) (blobs : Blobs) : Blobs :=
  let prefixRoot := if TrimSpace namespace =?s "" then TrimSpace runtimeID else TrimSpace namespace in
  filter (λ kv, pruned prefixRoot keepSnapshotID kv.1 = false) blobs.
End snapshot_file.
Notation Blobs := (gmap string (list N)).

(** ** Facts *)

(** *** Chunk names *)

Lemma pad5_decimals i : 0 ≤ i → decimals (bytes_of (pad5 i)) = Z.to_N i ∧ Forall decimal_char (bytes_of (pad5 i)).
Proof.
  intros Hi. unfold pad5, fmt_d. rewrite (proj2 (Z.ltb_ge _ _) Hi), bytes_of_app, bytes_of_bytes.
  destruct (pretty_decimals (Z.to_N i)) as [Hv Hd]. by apply padded_decimals.
Qed.

Lemma chunk_name_inj i j : 0 ≤ i → 0 ≤ j → chunk_name i = chunk_name j → i = j.
Proof.
  intros Hi Hj E. unfold chunk_name in E. apply (f_equal bytes_of) in E. rewrite !bytes_of_app in E.
  apply app_inv_head, app_inv_tail in E. destruct (pad5_decimals i Hi) as [Ei _], (pad5_decimals j Hj) as [Ej _]. rewrite E in Ei. lia.
Qed.

Lemma chunk_name_proper i : 0 ≤ i → proper (chunk_name i).
Proof.
  intros Hi. unfold chunk_name. split_and!; try done. unfold no_slash. rewrite !bytes_of_app, !elem_of_app.
  destruct (pad5_decimals i Hi) as [_ Hd]. intros [H|[H|H]].
  - apply list_elem_of_In in H. cbn in H. repeat destruct H as [H|H]; done.
  - rewrite Forall_forall in Hd. apply Hd in H. by destruct H.
  - apply list_elem_of_In in H. cbn in H. repeat destruct H as [H|H]; done.
Qed.

(** *** Object keys *)

Lemma hex_char_proper c v : Codec.hex_value c = Some v → c ≠ "/"%char.
Proof. intros Hc ->. vm_compute in Hc. discriminate Hc. Qed.

Lemma hex_proper s raw : hex_decode s = Some raw → 64 = str_len s → proper s.
Proof.
  unfold hex_decode. destruct (mapM Codec.hex_value (bytes_of s)) as [ds|] eqn:E; [|done]. intros _ Hl.
  assert (Hns : no_slash s).
  { intros Hs. apply mapM_Some in E. apply list_elem_of_lookup in Hs as [i Hi]. apply (Forall2_lookup_l _ _ _ _ _ E) in Hi as (v & _ & Hv).
    by apply hex_char_proper in Hv. }
  split_and!; try done; intros ->; vm_compute in Hl; discriminate Hl.
Qed.

Lemma snapshot_id_proper id : validateSnapshotID id = inr tt → proper id ∧ TrimSpace id = id.
Proof.
  unfold validateSnapshotID. destruct (TrimSpace id =?s "") eqn:E0; [done|]. destruct (_ || _) eqn:E1; [done|]. intros _.
  rewrite !orb_false_iff, negb_false_iff, str_eqb_eq, !str_eqb_neq in E1. destruct E1 as [[[[E1 E2] E3] E4] _].
  rewrite E1 in E0. apply str_eqb_neq in E0. split; [|done]. split_and!; try done. unfold Contains in E4. change (bytes_of "/") with ["/"%char] in E4.
  rewrite contains_one in E4. intros Hc%list_elem_of_In. apply not_true_iff_false in E4. apply E4, existsb_exists. exists "/"%char. split; [done|]. done.
Qed.

Lemma filepath_Join_proper parts : parts ≠ [] → Forall proper parts → filepath_Join parts = path_string parts.
Proof.
  intros Hne Hp. unfold filepath_Join.
  assert (List.filter (λ s, negb (s =?s "")) parts = parts) as ->.
  { induction Hp as [|x l (Hx & _) Hp IH]; [done|]. cbn. apply str_eqb_neq in Hx. rewrite Hx. cbn. f_equal. destruct l; [done | by apply IH]. }
  destruct parts as [|x l]; [done|]. by apply Clean_proper.
Qed.

(** A key of proper names is its own object. *)
Lemma object_key_proper parts :
  parts ≠ [] → Forall proper parts → TrimSpace (path_string parts) = path_string parts → object_key (path_string parts) = inr (path_string parts).
Proof.
  intros Hne Hp Ht. unfold object_key. rewrite Ht, IsAbs_path_string, Clean_proper by done.
  assert (Hs := Split_path_string parts Hne (proper_no_slash _ Hp)).
  destruct ((path_string parts =?s "..") || HasPrefix (path_string parts) "../") eqn:E; [|done]. exfalso.
  assert (Hfirst : ∃ rest, Split (path_string parts) = ".."%string :: rest).
  { apply orb_true_iff in E as [E|E]; [apply str_eqb_eq in E; rewrite E; by exists []|].
    unfold HasPrefix in E. apply bool_decide_eq_true in E. unfold Split. rewrite <-(take_drop 3 (bytes_of (path_string parts))).
    change (length (bytes_of "../")) with 3%nat in E. rewrite E.
    change (bytes_of "../" ++ ?l) with (["."; "."]%char ++ "/"%char :: l).
    rewrite split_list_app by (apply (bool_decide_unpack _); vm_compute; exact I). by eexists. }
  destruct Hfirst as [rest Hf]. rewrite Hf in Hs. subst parts. inversion Hp as [|?? (_ & _ & Hx & _)]. done.
Qed.

(** *** The snapshot file *)

Lemma octets_of_length s : length (octets_of s) = String.length s.
Proof. unfold octets_of. rewrite length_fmap. induction s as [|c s IH]; cbn; [done | by rewrite IH]. Qed.

Lemma encrypt_length magic derive key salt nonce plain :
  length (encrypt magic derive key salt nonce plain) = (String.length magic + length salt + length nonce + length plain + 32)%nat.
Proof. unfold encrypt. destruct (derive key salt) as [ek mk]. rewrite !length_app, HMAC_length, CTR_length, octets_of_length. lia. Qed.

Lemma decrypt_encrypt key salt nonce plain :
  length salt = 32%nat → length nonce = 16%nat → plain ≠ [] →
  zlen (encrypt snapshotMagic deriveBlobKeys key salt nonce plain) ≤ maxBlobSnapshotBytes →
  decrypt key (encrypt snapshotMagic deriveBlobKeys key salt nonce plain) = inr plain.
Proof.
  intros Hs Hn Hp Hmax. assert (Hlen := encrypt_length snapshotMagic deriveBlobKeys key salt nonce plain).
  change (String.length snapshotMagic) with 8%nat in Hlen. unfold decrypt. rewrite (proj2 (Z.ltb_ge _ _)) by done. unfold zlen at 1. rewrite Hlen, Hs, Hn.
  rewrite (proj2 (Z.leb_gt _ _)) by (unfold headerLen, snapshotTagSize; destruct plain; [done | cbn [length]; lia]).
  unfold encrypt. set (header := octets_of snapshotMagic ++ salt ++ nonce). destruct (deriveBlobKeys key salt) as [ek mk] eqn:Ek.
  set (ct := CTR ek nonce plain). set (tag := HMAC mk (header ++ ct)).
  assert (Hh : length header = headerLen) by (unfold header; rewrite !length_app, octets_of_length, Hs, Hn; done).
  assert (Ht : length tag = 32%nat) by apply HMAC_length. assert (Hc : length ct = length plain) by apply CTR_length.
  assert (take headerLen (header ++ ct ++ tag) = header) as -> by (by apply take_app_length').
  assert (drop headerLen (header ++ ct ++ tag) = ct ++ tag) as -> by (by apply drop_app_length').
  assert (Hm : take 8 header = octets_of snapshotMagic) by (unfold header; by apply take_app_length').
  assert (Hsalt : take 32 (drop 8 header) = salt) by (unfold header; rewrite drop_app_length' by done; by apply take_app_length').
  assert (Hnonce : drop 40 header = nonce).
  { unfold header. rewrite app_assoc, drop_app_length'; [done|]. rewrite length_app, octets_of_length, Hs. done. }
  rewrite Hm, Hsalt, Hnonce. rewrite (bool_decide_eq_true_2 (octets_of snapshotMagic = _)) by done. cbn [negb andb].
  rewrite (bool_decide_eq_false_2 (octets_of snapshotMagic = octets_of snapshotMagicV1)) by (vm_compute; discriminate). rewrite Ek.
  assert (take (8 + 32 + 16 + length plain + 32 - headerLen - 32) (ct ++ tag) = ct) as -> by (apply take_app_length'; unfold headerLen; lia).
  assert (drop (8 + 32 + 16 + length plain + 32 - 32) (header ++ ct ++ tag) = tag) as ->.
  { rewrite app_assoc. apply drop_app_length'. rewrite length_app, Hh, Hc. unfold headerLen. lia. }
  rewrite bool_decide_eq_true_2 by done. cbn [negb]. unfold ct. by rewrite CTR_twice.
Qed.

(** *** Chunks *)

Lemma read_chunks_spec fuel n file payloads :
  (0 < n)%nat → read_chunks fuel n file = Some payloads →
  concat payloads = file ∧ Forall (λ p, (0 < length p ≤ n)%nat) payloads ∧ (length payloads ≤ fuel)%nat.
Proof.
  intros Hn. revert file payloads. induction fuel as [|fuel IH]; intros file payloads; cbn [read_chunks]; [done|].
  destruct file as [|b file]; [intros [= <-]; split_and!; [done | constructor | cbn; lia]|].
  set (whole := b :: file). assert (Htake : length (take n whole) = (n `min` length whole)%nat) by apply length_take.
  assert (Hw : (0 < length whole)%nat) by (cbn; lia). destruct (length (take n whole) <? n)%nat eqn:E.
  - apply Nat.ltb_lt in E. intros [= <-]. cbn [concat length]. rewrite app_nil_r, take_ge by lia. split_and!; [done | | lia].
    constructor; [|constructor]. lia.
  - apply Nat.ltb_ge in E. destruct (read_chunks fuel n (drop n whole)) as [rest|] eqn:Er; [|done]. intros [= <-].
    destruct (IH _ _ Er) as (Hc & Hf & Hl). cbn [concat length]. rewrite Hc, take_drop. split_and!; [done | | lia]. constructor; [lia | done].
Qed.

(** *** Hexadecimal *)

Lemma hex_digit_value n : (n < 16)%N → Codec.hex_value (hex_digit n) = Some n.
Proof.
  intros Hn. assert (Hc : n ∈ (N.of_nat <$> seq 0 16)) by (apply list_elem_of_fmap; exists (N.to_nat n); split; [lia | apply elem_of_seq; lia]).
  cbn in Hc. repeat (apply elem_of_cons in Hc as [->|Hc]; [reflexivity|]). by apply not_elem_of_nil in Hc.
Qed.

Lemma hex_roundtrip raw : octets raw → hex_decode (hex_encode raw) = Some raw ∧ str_len (hex_encode raw) = 2 * zlen raw.
Proof.
  intros Ho. unfold hex_decode, hex_encode, zlen, str_len. rewrite bytes_of_bytes.
  assert (Hs : ∀ l, String.length (of_bytes l) = length l) by (induction l as [|c l IH]; cbn; congruence). rewrite Hs. clear Hs.
  induction Ho as [|b l Hb Ho [IH1 IH2]]; [done|]. cbn [flat_map app length].
  assert (b / 16 < 16)%N by (apply N.Div0.div_lt_upper_bound; lia). assert (b mod 16 < 16)%N by (by apply N.mod_lt).
  cbn [mapM]. rewrite !hex_digit_value by done. cbn [mbind option_bind]. destruct (mapM Codec.hex_value _) as [ds|]; [|done].
  cbn [mbind option_bind hex_pairs mret option_ret] in *. rewrite IH1. cbn [mbind option_bind]. split; [|lia]. do 2 f_equal.
  pose proof (N.div_mod b 16 ltac:(done)). lia.
Qed.

(** *** Manifests *)

(** What a valid manifest says of a chunk. *)
Definition chunk_ok (m : blobManifest) (runtimeID : string) (index : Z) (c : blobChunk) : Prop :=
  c.(ch_Index) = index ∧ TrimSpace c.(ch_Key) = c.(ch_Key) ∧ IsAbs c.(ch_Key) = false
  ∧ (runtimeID ≠ ""%string → c.(ch_Key) = expected_key m runtimeID index)
  ∧ 0 < c.(ch_Size) ≤ m.(bm_ChunkSize) ∧ c.(ch_Size) ≤ maxBlobChunkSize ∧ str_len c.(ch_SHA256) = 64.

Lemma validate_chunks_spec m runtimeID index total cs t :
  validate_chunks m runtimeID index total cs = inr t → total ≤ maxBlobSnapshotBytes →
  t = total + foldr (λ c acc, c.(ch_Size) + acc) 0 cs ∧ t ≤ maxBlobSnapshotBytes
  ∧ ∀ i c, cs !! i = Some c → chunk_ok m runtimeID (index + Z.of_nat i) c.
Proof.
  revert index total. induction cs as [|c cs IH]; intros index total; cbn [validate_chunks foldr]; [intros [= <-] Ht; split_and!; [lia | done | done]|].
  destruct (negb (ch_Index c =? index)) eqn:E1; [done|]. destruct (validateBlobChunkKey m runtimeID index (ch_Key c)) as [e|[]] eqn:E2; [done|].
  destruct (_ || _) eqn:E3; [done|]. destruct (negb (str_len _ =? 64)) eqn:E4; [done|]. destruct (_ <? total) eqn:E5; [done|]. intros Hrec Ht.
  apply Z.ltb_ge in E5. rewrite !orb_false_iff, Z.leb_gt, !Z.ltb_ge in E3. destruct (IH _ _ Hrec ltac:(lia)) as (Et & Hmax & Hcs). split_and!; [lia | done |].
  intros [|i] c'; cbn; [intros [= <-] | intros Hc; replace (index + Z.of_nat (S i)) with (index + 1 + Z.of_nat i) by lia; by apply Hcs].
  rewrite Z.add_0_r. unfold validateBlobChunkKey in E2. destruct (_ =?s "") in E2; [done|]. destruct (_ || _) eqn:E6 in E2; [done|].
  destruct (_ && _) eqn:E7 in E2; [done|]. apply negb_false_iff, Z.eqb_eq in E1, E4. rewrite orb_false_iff, negb_false_iff, str_eqb_eq in E6.
  destruct E6 as [E6 E8]. split_and!; try done; try lia. intros Hr. apply str_eqb_neq in Hr. rewrite Hr in E7. cbn in E7.
  by apply negb_false_iff, str_eqb_eq in E7.
Qed.

Lemma validate_spec m runtimeID :
  validateBlobManifestForRuntime m runtimeID = inr tt →
  validate_version m runtimeID = inr tt ∧ validate_shape m = inr tt
  ∧ validate_chunks m runtimeID 0 0 m.(bm_Chunks) = inr m.(bm_TotalBytes) ∧ validate_sia m = inr tt
  ∧ match m.(bm_MigrationFallback) with
    | None => True
    | Some fallback => m.(bm_Version) = 3 ∧ fallback.(bm_MigrationFallback) = None ∧ fallback.(bm_Store) ≠ m.(bm_Store)
                       ∧ validateBlobManifestForRuntime fallback runtimeID = inr tt
    end.
Proof.
  destruct m. cbn [validateBlobManifestForRuntime]. destruct (validate_version _ _) as [|[]]; [done|]. destruct (validate_shape _) as [|[]]; [done|].
  destruct (validate_chunks _ _ _ _ _) as [|t] eqn:Ec; [done|]. destruct (negb _) eqn:Et; [done|]. apply negb_false_iff, Z.eqb_eq in Et. subst t.
  destruct (validate_sia _) as [|[]]; [done|]. cbn [bm_MigrationFallback]. destruct (bm_MigrationFallback0) as [fallback|]; [|intros _; by split_and!].
  destruct (negb _) eqn:Ev; [done|]. destruct (negb (is_none _)) eqn:En; [done|]. destruct (_ =?s _) eqn:Es; [done|]. intros Hf.
  apply negb_false_iff, Z.eqb_eq in Ev. apply str_eqb_neq in Es. split_and!; try done. by destruct (bm_MigrationFallback fallback).
Qed.

(** The parts of a version 3 manifest's keys. *)
Lemma valid_prefix m runtimeID :
  validateBlobManifestForRuntime m runtimeID = inr tt → m.(bm_Version) = 3 →
  proper m.(bm_Namespace) ∧ proper m.(bm_SnapshotID).
Proof.
  intros Hv%validate_spec H3. destruct Hv as (Hver & Hshape & _). split.
  - unfold validate_version in Hver. rewrite H3 in Hver. cbn -[hex_decode str_len] in Hver.
    repeat match type of Hver with (if ?b then _ else _) = _ => destruct b eqn:?; try done end.
    match goal with H : negb (str_len (bm_Namespace m) =? 64) = false |- _ => apply negb_false_iff, Z.eqb_eq in H end.
    destruct (hex_decode (bm_Namespace m)) eqn:Eh; [by eapply hex_proper | done].
  - unfold validate_shape in Hshape. repeat match type of Hshape with (if ?b then _ else _) = _ => destruct b; try done end.
    by apply snapshot_id_proper in Hshape as [? _].
Qed.

Lemma expected_key_parts m runtimeID i :
  validateBlobManifestForRuntime m runtimeID = inr tt → m.(bm_Version) = 3 → 0 ≤ i →
  expected_key m runtimeID i = path_string [m.(bm_Namespace); m.(bm_SnapshotID); chunk_name i]
  ∧ Forall proper [m.(bm_Namespace); m.(bm_SnapshotID); chunk_name i].
Proof.
  intros Hv H3 Hi. destruct (valid_prefix _ _ Hv H3) as [Hn Hs].
  assert (Hp : Forall proper [bm_Namespace m; bm_SnapshotID m; chunk_name i]) by (constructor; [done|]; constructor; [done|]; constructor; [by apply chunk_name_proper | constructor]).
  split; [|done]. unfold expected_key, key_prefix. rewrite H3. by apply filepath_Join_proper.
Qed.

Lemma read_objects_back blobs payloads k (f : nat → list N → blobChunk) :
  (∀ i p, payloads !! i = Some p → ∃ key, object_key (f (k + i)%nat p).(ch_Key) = inr key ∧ blobs !! key = Some p
     ∧ (f (k + i)%nat p).(ch_Size) = zlen p ∧ (f (k + i)%nat p).(ch_SHA256) = hex_encode (Sum256 p) ∧ 0 < zlen p ≤ maxBlobChunkSize) →
  read_objects blobs (imap (λ i, f (k + i)%nat) payloads) = inr (concat payloads).
Proof.
  revert k. induction payloads as [|p payloads IH]; intros k Hf; [done|]. cbn [imap concat].
  destruct (Hf O p eq_refl) as (key & Hk & Hb & Hs & Hh & Hp).
  assert (Hx : expect_chunk (f (k + 0)%nat p) p = inr p).
  { unfold expect_chunk. rewrite Hs, Hh. rewrite (proj2 (Z.leb_gt _ _)) by lia. rewrite (proj2 (Z.ltb_ge _ _)) by lia. cbn [orb].
    destruct (hex_roundtrip (Sum256 p) (Sum256_octets p)) as [-> _]. rewrite Sum256_length. cbn [Nat.eqb negb].
    unfold zlen. rewrite Nat2Z.id, take_ge by lia. rewrite Z.eqb_refl. cbn [negb]. by rewrite bool_decide_eq_true_2. }
  cbn [read_objects]. rewrite Hk, Hb, Hx.
  replace (imap ((λ i, f (k + i)%nat) ∘ S) payloads) with (imap (λ i, f (S k + i)%nat) payloads)
    by (apply imap_ext; intros i x _; cbn; by replace (k + S i)%nat with (S (k + i))%nat by lia).
  rewrite IH; [done|]. intros i q Hi. replace (S k + i)%nat with (k + S i)%nat by lia. by apply (Hf (S i)).
Qed.

Lemma with_mac m x : let m' := m <| bm_ManifestMAC := x |> in
  m'.(bm_Version) = m.(bm_Version) ∧ m'.(bm_ManifestMAC) = x ∧ m'.(bm_Namespace) = m.(bm_Namespace)
  ∧ blobManifestMACPayload m' = blobManifestMACPayload m.
Proof. split_and!; reflexivity. Qed.

Lemma authenticated_verifies m masterKey runtimeID m' :
  authenticateBlobManifest m masterKey runtimeID = inr m' → m.(bm_Namespace) = deriveRuntimeBlobNamespace masterKey runtimeID →
  verifyBlobManifestAuthentication m' masterKey runtimeID = inr tt ∧ m'.(bm_Version) = 3.
Proof.
  unfold authenticateBlobManifest. destruct (negb (bm_Version m =? 3)) eqn:E; [done|]. intros Hm Hn. apply negb_false_iff, Z.eqb_eq in E.
  injection Hm as <-. set (mac := HMAC _ (blobManifestMACPayload m)). destruct (with_mac m (hex_encode mac)) as (Ev & Em & En & Ep).
  unfold verifyBlobManifestAuthentication. rewrite Ev, Em, En, Ep, E. split; [|reflexivity].
  destruct (hex_roundtrip mac (HMAC_octets _ _)) as [-> _]. unfold mac. rewrite HMAC_length. cbn [Z.ltb Z.compare Pos.compare Pos.compare_cont Nat.eqb negb].
  rewrite bool_decide_eq_true_2 by reflexivity. cbn [negb]. rewrite Hn, str_eqb_refl. reflexivity.
Qed.

(** *** Saving and restoring *)

(** What compress/gzip and archive/tar write they read back, and it is not empty. *)
Class PackerLaws `{Packer} : Prop := {
  unpack_pack es : Forall writable es → unpack (pack es) = Some es;
  pack_nonempty es : pack es ≠ [] }.

Lemma canonical_no_nul name directory n : canonicalArchiveRelativePath name directory = inr n → has_nul name = false.
Proof. unfold canonicalArchiveRelativePath. destruct (_ || has_nul name) eqn:E; [done|]. apply orb_false_iff in E as [_ ->]. done. Qed.

Lemma packed_writable p i e : packable p i → entry_of p i = Some e → writable e.
Proof.
  intros Hp He. unfold packable, entry_of, writable in *.
  assert (Ht : ∀ t, tar_time t mod 10 ^ 9 = 0) by (intros t; apply Z_mod_mult).
  destruct (in_node i) as [c| |target| |] eqn:Ek; try done; injection He as <-; cbn [fst snd tar_header FileInfoHeader hd_Name hd_Linkname hd_Size hd_ModTime]; rewrite Ek.
  - split_and!; [by eapply canonical_no_nul | done | done | apply Ht].
  - split_and!; [rewrite has_nul_slash; by eapply canonical_no_nul | done | done | apply Ht].
  - destruct Hp as [Hp Hv]. split_and!; [by eapply canonical_no_nul | | done | apply Ht].
    unfold validateArchiveSymlinkTarget in Hv. destruct (_ || has_nul target) eqn:E; [done|]. by apply orb_false_iff in E as [_ ->].
Qed.

Section saving.
Context `{PackerLaws}.

Lemma writeSnapshot_back order fs key salt nonce file now :
  tree_ok fs → (∀ l, order l ≡ₚ l) → short_directories fs → length salt = 32%nat → length nonce = 16%nat →
  writeSnapshot order fs key salt nonce = inr file → restoreSnapshot now file key = inr (omap (saved now) fs).
Proof.
  intros Hok Ho Hshort Hsalt Hnonce. unfold writeSnapshot. destruct (addRootToTar order fs) as [e|archive] eqn:Ea; [done|].
  destruct (maxBlobSnapshotBytes <? _) eqn:Em; [done|]. intros [= <-]. apply Z.ltb_ge in Em. unfold restoreSnapshot.
  rewrite decrypt_encrypt by (done || apply pack_nonempty). rewrite unpack_pack.
  - by rewrite (archive_back fs order archive now).
  - pose proof (addRootToTar_run fs order Hok Ho) as Hrun. rewrite Ea in Hrun. destruct Hrun as (paths & _ & _ & _ & Hpack & -> & _).
    apply Forall_forall. intros e (p & _ & He)%list_elem_of_omap. destruct (fs !! p) as [i|] eqn:Hi; [|done]. by eapply packed_writable; [apply Hpack|].
Qed.

(** The snapshot a manifest lists, as the store holds it. *)
Definition stored (blobs : Blobs) (cs : list blobChunk) (payloads : list (list N)) : Prop :=
  length cs = length payloads ∧ ∀ i c p, cs !! i = Some c → payloads !! i = Some p →
    blobs !! c.(ch_Key) = Some p ∧ c.(ch_Size) = zlen p ∧ c.(ch_SHA256) = hex_encode (Sum256 p).

Lemma stored_read m runtimeID blobs payloads :
  runtimeID ≠ ""%string → validateBlobManifestForRuntime m runtimeID = inr tt → m.(bm_Version) = 3 → stored blobs m.(bm_Chunks) payloads →
  read_objects blobs m.(bm_Chunks) = inr (concat payloads).
Proof using Type.
  intros Hr Hv H3 [Hl Hst]. destruct (validate_spec _ _ Hv) as (_ & _ & Hcs & _).
  apply validate_chunks_spec in Hcs as (_ & _ & Hok); [|done].
  assert (E : bm_Chunks m = imap (λ i p, nth (0 + i) (bm_Chunks m) (MkChunk 0 "" 0 "")) payloads).
  { apply list_eq. intros i. rewrite list_lookup_imap. destruct (payloads !! i) as [p|] eqn:Hp; cbn.
    - apply lookup_lt_Some in Hp. rewrite <-Hl in Hp. apply lookup_lt_is_Some_2 in Hp as [c Hc]. rewrite Hc. f_equal. symmetry. by apply nth_lookup_Some.
    - apply lookup_ge_None in Hp. apply lookup_ge_None. lia. }
  rewrite E. apply (read_objects_back blobs payloads 0 (λ i p, nth i (bm_Chunks m) (MkChunk 0 "" 0 ""))). intros i p Hp. assert (Hi := lookup_lt_Some _ _ _ Hp). rewrite <-Hl in Hi.
  apply lookup_lt_is_Some_2 in Hi as [c Hc]. assert (Ec : nth (0 + i) (bm_Chunks m) (MkChunk 0 "" 0 "") = c) by (by apply nth_lookup_Some).
  rewrite Ec. destruct (Hst i c p Hc Hp) as (Hb & Hs & Hh). destruct (Hok i c Hc) as (_ & Ht & _ & Hk & Hsz & Hmax & _).
  exists c.(ch_Key). destruct (expected_key_parts m runtimeID (Z.of_nat i) Hv H3 ltac:(lia)) as [Ek Hp3]. specialize (Hk Hr). rewrite Z.add_0_l in Hk.
  split_and!; try done; try lia. rewrite Hk, Ek in Ht |- *. by apply object_key_proper.
Qed.

Lemma stored_agree blobs blobs' cs payloads :
  (∀ c, c ∈ cs → blobs' !! c.(ch_Key) = blobs !! c.(ch_Key)) → stored blobs cs payloads → stored blobs' cs payloads.
Proof using Type.
  intros Ha [Hl Hst]. split; [done|]. intros i c p Hc Hp. rewrite Ha by (by eapply list_elem_of_lookup_2). by eapply Hst.
Qed.

(** A snapshot's data, and the manifest of it that a store holds. *)
Definition snapshot_of (runtimeID : string) (masterKey : list N) (fs : Fs) (m : blobManifest) (blobs : Blobs) : Prop :=
  runtimeID ≠ ""%string ∧ validateBlobManifestForRuntime m runtimeID = inr tt
  ∧ verifyBlobManifestAuthentication m masterKey runtimeID = inr tt ∧ m.(bm_Version) = 3 ∧ m.(bm_Store) = blobStoreLocal
  ∧ ∃ payloads, stored blobs m.(bm_Chunks) payloads
    ∧ ∀ now, restoreSnapshot now (concat payloads) (deriveRuntimeSnapshotKey masterKey runtimeID) = inr (omap (saved now) fs).

Lemma snapshot_restores runtimeID masterKey fs m blobs now :
  snapshot_of runtimeID masterKey fs m blobs → restoreToDir now runtimeID m masterKey blobs = inr (omap (saved now) fs).
Proof using Type.
  intros (Hr & Hv & Ha & H3 & Hs & payloads & Hst & Hrest). unfold restoreToDir. rewrite Hs, str_eqb_refl, Hv, Ha. cbn [negb].
  rewrite (stored_read m runtimeID blobs payloads) by done. unfold snapshotKeyForManifest. rewrite H3. apply Hrest.
Qed.

(** Another manifest of the same chunks. *)
Lemma snapshot_of_same runtimeID masterKey fs m m' blobs :
  snapshot_of runtimeID masterKey fs m blobs → m'.(bm_Chunks) = m.(bm_Chunks) → m'.(bm_Store) = blobStoreLocal → m'.(bm_Version) = 3 →
  validateBlobManifestForRuntime m' runtimeID = inr tt → verifyBlobManifestAuthentication m' masterKey runtimeID = inr tt →
  snapshot_of runtimeID masterKey fs m' blobs.
Proof using Type. intros (Hr & _ & _ & _ & _ & payloads & Hst & Hrest) Ec Es Ev Hv Ha. split_and!; try done. exists payloads. by rewrite Ec. Qed.

Lemma chunk_keys_split m runtimeID namespace id i p :
  validateBlobManifestForRuntime m runtimeID = inr tt → m.(bm_Version) = 3 → m.(bm_Namespace) = namespace → m.(bm_SnapshotID) = id →
  Split (chunk_entry namespace id i p).(ch_Key) = [namespace; id; chunk_name (Z.of_nat i)].
Proof using Type.
  intros Hv H3 <- <-. destruct (expected_key_parts m runtimeID (Z.of_nat i) Hv H3 ltac:(lia)) as [Ek Hp]. unfold expected_key, key_prefix in Ek.
  rewrite H3 in Ek. cbn [chunk_entry ch_Key Z.eqb Pos.eqb] in *. rewrite Ek. by apply Split_path_string; [|apply proper_no_slash].
Qed.

Lemma saved_lookup m runtimeID namespace id payloads :
  validateBlobManifestForRuntime m runtimeID = inr tt → m.(bm_Version) = 3 → m.(bm_Namespace) = namespace → m.(bm_SnapshotID) = id →
  let cs := imap (chunk_entry namespace id) payloads in
  let new := list_to_map (zip (ch_Key <$> cs) payloads) : Blobs in
  stored new cs payloads ∧ ∀ key, is_Some (new !! key) → in_snapshot namespace id key = true.
Proof using Type.
  intros Hv H3 Hn Hi cs new. assert (Hlen : length cs = length payloads) by apply length_imap.
  assert (Hkey : ∀ i c, cs !! i = Some c → ∃ p, payloads !! i = Some p ∧ c = chunk_entry namespace id i p).
  { intros i c. unfold cs. rewrite list_lookup_imap. destruct (payloads !! i) as [p|]; [|done]. intros [= <-]. by exists p. }
  assert (Hfst : (zip (ch_Key <$> cs) payloads).*1 = ch_Key <$> cs) by (apply fst_zip; rewrite length_fmap; lia).
  assert (Hnd : NoDup (zip (ch_Key <$> cs) payloads).*1).
  { rewrite Hfst. apply NoDup_alt. intros i j key. rewrite !list_lookup_fmap. destruct (cs !! i) as [c|] eqn:Ec; [|done].
    destruct (cs !! j) as [c'|] eqn:Ec'; [|done]. intros [= <-] [= E]. destruct (Hkey _ _ Ec) as (p & _ & ->), (Hkey _ _ Ec') as (p' & _ & ->).
    apply (f_equal Split) in E. rewrite !(chunk_keys_split m runtimeID) in E by done.
    apply (f_equal (λ l, nth 2 l ""%string)) in E. cbn [nth] in E. apply chunk_name_inj in E; lia. }
  split; [split; [done|]|].
  - intros i c p Hc Hp. destruct (Hkey _ _ Hc) as (p' & Hp' & ->). rewrite Hp in Hp'. injection Hp' as <-. split_and!; try done.
    apply elem_of_list_to_map_1; [done|]. apply list_elem_of_lookup. exists i. apply lookup_zip_with_Some. exists (ch_Key (chunk_entry namespace id i p)), p.
    split_and!; try done. by rewrite list_lookup_fmap, Hc.
  - intros key [p Hk]. apply elem_of_list_to_map_2, list_elem_of_lookup in Hk as [i Hk]. apply lookup_zip_with_Some in Hk as (k' & p' & [= -> ->] & Hk' & _).
    rewrite list_lookup_fmap in Hk'. destruct (cs !! i) as [c|] eqn:Ec; [|done]. injection Hk' as <-. destruct (Hkey _ _ Ec) as (q & _ & ->).
    unfold in_snapshot. rewrite (chunk_keys_split m runtimeID) by done. by rewrite !str_eqb_refl.
Qed.

(** A saved snapshot: the manifest is of the data, nothing of the store is lost,
    and what is new is in the snapshot's directory. *)
Lemma persist_spec chunkSize order random runtimeID fs masterKey blobs m blobs' :
  tree_ok fs → (∀ l, order l ≡ₚ l) → short_directories fs → length random.(rn_salt) = 32%nat → length random.(rn_nonce) = 16%nat →
  runtimeID ≠ ""%string → persistFromDir chunkSize order random runtimeID fs masterKey blobs = inr (m, blobs') →
  snapshot_of runtimeID masterKey fs m blobs'
  ∧ m.(bm_Namespace) = deriveRuntimeBlobNamespace masterKey runtimeID ∧ m.(bm_SnapshotID) = random.(rn_snapshotID)
  ∧ m.(bm_MigrationFallback) = None ∧ m.(bm_RuntimeID) = runtimeID
  ∧ blobs ⊆ blobs'
  ∧ (∀ key, blobs' !! key ≠ blobs !! key → in_snapshot m.(bm_Namespace) m.(bm_SnapshotID) key = true ∧ blobs !! key = None)
  ∧ ∀ key, is_Some (blobs !! key) → in_snapshot m.(bm_Namespace) m.(bm_SnapshotID) key = false.
Proof.
  intros Hok Ho Hshort Hsalt Hnonce Hr. unfold persistFromDir. destruct (_ || _) eqn:Esz; [done|].
  apply orb_false_iff in Esz as [Esz _]. apply Z.leb_gt in Esz.
  destruct (writeSnapshot _ _ _ _ _) as [e|file] eqn:Ew; [done|].
  destruct (read_chunks _ _ _) as [payloads|] eqn:Er; [|done]. apply read_chunks_spec in Er as (Hcat & _ & _); [|lia].
  destruct (length payloads =? 0)%nat; [done|]. set (namespace := deriveRuntimeBlobNamespace masterKey runtimeID).
  set (cs := imap (chunk_entry namespace (rn_snapshotID random)) payloads).
  destruct (authenticateBlobManifest _ _ _) as [e|m1] eqn:Ea; [done|].
  destruct (validateBlobManifestForRuntime m1 runtimeID) as [e|[]] eqn:Ev; [done|]. destruct (existsb _ _) eqn:Ex; [done|]. intros Heq.
  injection Heq as <- <-. destruct (authenticated_verifies _ _ _ _ Ea eq_refl) as [Hver H3].
  assert (Hm : m1.(bm_Namespace) = namespace ∧ m1.(bm_SnapshotID) = random.(rn_snapshotID) ∧ m1.(bm_Store) = blobStoreLocal
    ∧ m1.(bm_Chunks) = cs ∧ m1.(bm_MigrationFallback) = None ∧ m1.(bm_RuntimeID) = runtimeID).
  { unfold authenticateBlobManifest in Ea. destruct (negb _) in Ea; [done|]. injection Ea as <-. split_and!; reflexivity. }
  destruct Hm as (Hn & Hid & Hs & Hc & Hf & Hri).
  destruct (saved_lookup m1 runtimeID namespace _ payloads Ev H3 Hn Hid) as [Hst Hin]. fold cs in Hst, Hin.
  set (new := list_to_map (zip (ch_Key <$> cs) payloads) : Blobs) in *.
  assert (Hfresh : ∀ key, is_Some (blobs !! key) → in_snapshot namespace (rn_snapshotID random) key = false).
  { intros key [p Hp]. destruct (in_snapshot _ _ key) eqn:E; [|done]. exfalso. apply not_true_iff_false in Ex. apply Ex, existsb_exists.
    exists key. split; [|done]. apply list_elem_of_In, list_elem_of_fmap. exists (key, p). split; [done|]. by apply elem_of_map_to_list. }
  assert (Hnone : ∀ key, is_Some (new !! key) → blobs !! key = None).
  { intros key Hk. destruct (blobs !! key) eqn:E; [|done]. apply Hin in Hk. rewrite Hfresh in Hk by (by eexists). done. }
  rewrite Hn, Hid. split_and!; try done.
  - split_and!; try done. exists payloads. rewrite Hc, Hcat. split; [|intros now; by eapply writeSnapshot_back].
    eapply stored_agree; [|exact Hst]. intros c [i Hi]%list_elem_of_lookup. destruct Hst as [Hl Hst].
    assert (Hp := lookup_lt_Some _ _ _ Hi). rewrite Hl in Hp. apply lookup_lt_is_Some_2 in Hp as [p Hp]. destruct (Hst _ _ _ Hi Hp) as (Hb & _).
    rewrite Hb. by apply lookup_union_Some_l.
  - apply map_union_subseteq_r. apply map_disjoint_spec. intros key p q Hp Hq. rewrite (Hnone key) in Hq by (by eexists). done.
  - intros key Hk. destruct (new !! key) as [p|] eqn:Ep; [|by rewrite lookup_union_r in Hk].
    split; [apply Hin; by eexists | apply Hnone; by eexists].
Qed.
End saving.

(** *** What a restore has checked *)

Lemma expect_chunk_spec c stored_bytes read :
  expect_chunk c stored_bytes = inr read →
  read = stored_bytes ∧ zlen stored_bytes = c.(ch_Size) ∧ hex_decode c.(ch_SHA256) = Some (Sum256 stored_bytes).
Proof.
  unfold expect_chunk. destruct (_ || _) eqn:E0; [done|]. apply orb_false_iff in E0 as [E0 _]. apply Z.leb_gt in E0.
  destruct (hex_decode _) as [h|]; [|done]. destruct (negb _); [done|].
  destruct (negb (zlen _ =? _)) eqn:E1; [done|]. destruct (negb (bool_decide _)) eqn:E2; [done|]. intros Hr. injection Hr as <-.
  apply negb_false_iff, Z.eqb_eq in E1. apply negb_false_iff, bool_decide_eq_true in E2.
  assert (Hs : take (Z.to_nat (ch_Size c) + 1) stored_bytes = stored_bytes).
  { apply take_ge. unfold zlen in E1. rewrite length_take in E1. lia. }
  rewrite Hs in *. by rewrite <-E2.
Qed.

Lemma read_objects_spec blobs cs file :
  read_objects blobs cs = inr file →
  ∃ payloads, file = concat payloads ∧ length payloads = length cs
    ∧ ∀ i c p, cs !! i = Some c → payloads !! i = Some p →
        (∃ key, object_key c.(ch_Key) = inr key ∧ blobs !! key = Some p) ∧ zlen p = c.(ch_Size) ∧ hex_decode c.(ch_SHA256) = Some (Sum256 p).
Proof.
  revert file. induction cs as [|c cs IH]; intros file; cbn [read_objects]; [intros [= <-]; by exists []|].
  destruct (object_key (ch_Key c)) as [e|key] eqn:Ek; [done|]. destruct (blobs !! key) as [bytes|] eqn:Eb; [|done].
  destruct (expect_chunk c bytes) as [e|read] eqn:Ee; [done|]. destruct (read_objects blobs cs) as [e|rest]; [done|]. intros [= <-].
  destruct (IH rest eq_refl) as (payloads & -> & Hl & Hp). apply expect_chunk_spec in Ee as (-> & Hsz & Hh).
  exists (bytes :: payloads). split_and!; [done | cbn; lia |].
  intros [|i] c' p; cbn; [intros [= <-] [= <-] | by apply Hp]. split_and!; [by exists key | done | done].
Qed.

(** The tag at the end of the file, under a key derived from the salt in its header. *)
Definition tagged (masterKey file : list N) : Prop :=
  let salt := take 32 (drop 8 file) in
  let derived := if bool_decide (take 8 file = octets_of snapshotMagicV1) then deriveBlobKeysV1 masterKey salt else deriveBlobKeys masterKey salt in
  drop (length file - 32) file = HMAC derived.2 (take (length file - 32) file).

Lemma decrypt_tagged masterKey file plain : decrypt masterKey file = inr plain → tagged masterKey file.
Proof.
  unfold decrypt, tagged. destruct (_ <? _); [done|]. destruct (_ <=? _) eqn:Hl; [done|]. apply Z.leb_gt in Hl. unfold zlen, headerLen, snapshotTagSize in Hl.
  destruct (_ && _); [done|]. rewrite take_take, (Nat.min_l 8) by (unfold headerLen; lia).
  assert (take 32 (drop 8 (take headerLen file)) = take 32 (drop 8 file)) as ->.
  { rewrite !take_drop_commute, take_take. done. }
  assert (Hh : take headerLen file ++ take (length file - headerLen - 32) (drop headerLen file) = take (length file - 32) file).
  { rewrite take_drop_commute. replace (headerLen + (length file - headerLen - 32))%nat with (length file - 32)%nat by (unfold headerLen; lia).
    rewrite <-(take_drop headerLen (take (length file - 32) file)) at 2. rewrite take_take, Nat.min_l by (unfold headerLen; lia). done. }
  rewrite Hh. destruct (if bool_decide _ then _ else _) as [ek mk]. cbn [snd]. destruct (negb (bool_decide _)) eqn:Et; [done|]. intros _.
  by apply negb_false_iff, bool_decide_eq_true in Et.
Qed.

Lemma verified_spec m masterKey runtimeID :
  m.(bm_Version) = 3 → verifyBlobManifestAuthentication m masterKey runtimeID = inr tt →
  hex_decode m.(bm_ManifestMAC) = Some (HMAC (runtimeManifestMACKey masterKey runtimeID) (blobManifestMACPayload m))
  ∧ m.(bm_Namespace) = deriveRuntimeBlobNamespace masterKey runtimeID.
Proof.
  intros H3. unfold verifyBlobManifestAuthentication. rewrite H3. cbn [Z.ltb Z.compare Pos.compare Pos.compare_cont].
  destruct (hex_decode (bm_ManifestMAC m)) as [mac|]; [|done]. destruct (negb (length mac =? 32)%nat); [done|].
  destruct (negb (bool_decide _)) eqn:E1; [done|]. destruct (negb (_ =?s _)) eqn:E2; [done|]. intros _.
  apply negb_false_iff, bool_decide_eq_true in E1. apply negb_false_iff, str_eqb_eq in E2. by rewrite E1.
Qed.

(** ** Theorems *)

(** C13: what a stop saves, the next start restores: for any directory tree whose
    snapshot is saved, restoring the manifest from the same store with the same
    key gives the tree back, through packing, compression, encryption, chunks,
    hashes and the manifest's authentication (with what packing leaves out).  The
    store may have changed, as long as it still holds the manifest's chunks. *)
Theorem snapshot_roundtrip `{PackerLaws} chunkSize order random runtimeID fs masterKey blobs m blobs' later now
    (Hok : tree_ok fs) (Ho : ∀ l, order l ≡ₚ l) (Hshort : short_directories fs)
    (Hsalt : length random.(rn_salt) = 32%nat) (Hnonce : length random.(rn_nonce) = 16%nat) (Hr : runtimeID ≠ ""%string)
    (Hsave : persistFromDir chunkSize order random runtimeID fs masterKey blobs = inr (m, blobs'))
    (Hkept : ∀ c, c ∈ m.(bm_Chunks) → later !! c.(ch_Key) = blobs' !! c.(ch_Key)) :
  restoreToDir now runtimeID m masterKey later = inr (omap (saved now) fs).
Proof.
  destruct (persist_spec _ _ _ _ _ _ _ _ _ Hok Ho Hshort Hsalt Hnonce Hr Hsave) as ((Hr' & Hv & Ha & H3 & Hs & payloads & Hst & Hrest) & _).
  apply snapshot_restores. split_and!; try done. exists payloads. split; [by eapply stored_agree | done].
Qed.

(** C14: a restore of an authenticated manifest that succeeds has checked
    everything with the runtime's own keys: the manifest's MAC over all its fields,
    that its namespace is the one the key gives, that each chunk is at its own
    place below that namespace and has the length and hash the manifest lists, and
    the tag at the end of the snapshot; and the data is what that snapshot unpacks
    to. *)
Theorem restored_data_authentic `{Packer} now runtimeID m masterKey blobs fs
    (Hr : runtimeID ≠ ""%string) (H3 : m.(bm_Version) = 3) (Hrestore : restoreToDir now runtimeID m masterKey blobs = inr fs) :
  hex_decode m.(bm_ManifestMAC) = Some (HMAC (runtimeManifestMACKey masterKey runtimeID) (blobManifestMACPayload m))
  ∧ m.(bm_Namespace) = deriveRuntimeBlobNamespace masterKey runtimeID
  ∧ ∃ payloads, length payloads = length m.(bm_Chunks)
    ∧ (∀ i c p, m.(bm_Chunks) !! i = Some c → payloads !! i = Some p →
         blobs !! path_string [m.(bm_Namespace); m.(bm_SnapshotID); chunk_name (Z.of_nat i)] = Some p
         ∧ zlen p = c.(ch_Size) ∧ hex_decode c.(ch_SHA256) = Some (Sum256 p))
    ∧ tagged (deriveRuntimeSnapshotKey masterKey runtimeID) (concat payloads)
    ∧ restoreSnapshot now (concat payloads) (deriveRuntimeSnapshotKey masterKey runtimeID) = inr fs.
Proof.
  unfold restoreToDir in Hrestore. destruct (negb _); [done|]. destruct (validateBlobManifestForRuntime m runtimeID) as [e|[]] eqn:Hv; [done|].
  destruct (verifyBlobManifestAuthentication m masterKey runtimeID) as [e|[]] eqn:Ha; [done|].
  destruct (read_objects blobs m.(bm_Chunks)) as [e|file] eqn:Ho; [done|]. unfold snapshotKeyForManifest in Hrestore. rewrite H3 in Hrestore.
  destruct (verified_spec _ _ _ H3 Ha) as [Hmac Hns]. split; [done|]. split; [done|].
  destruct (read_objects_spec _ _ _ Ho) as (payloads & -> & Hl & Hp). exists payloads. split_and!; try done.
  - intros i c p Hc Hi. destruct (Hp i c p Hc Hi) as ((key & Hk & Hb) & Hsz & Hh). split_and!; try done.
    destruct (validate_spec _ _ Hv) as (_ & _ & Hcs & _). apply validate_chunks_spec in Hcs as (_ & _ & Hok); [|done].
    destruct (Hok i c Hc) as (_ & Ht & _ & Hkey & _). specialize (Hkey Hr). rewrite Z.add_0_l in Hkey.
    destruct (expected_key_parts m runtimeID (Z.of_nat i) Hv H3 ltac:(lia)) as [Ek Hparts]. rewrite Hkey, Ek in Ht, Hk.
    rewrite object_key_proper in Hk by done. by injection Hk as <-.
  - unfold restoreSnapshot in Hrestore. destruct (decrypt _ _) as [e|plain] eqn:Hd; [done|]. by eapply decrypt_tagged.
Qed.

(** ** Witnesses *)

#[local] Instance typeflag_eq : EqDecision typeflag.
Proof. solve_decision. Defined.
#[local] Instance header_eq : EqDecision Header.
Proof. solve_decision. Defined.
#[local] Instance typeflag_countable : Countable typeflag :=
  inj_countable' (λ f, match f with TypeReg => inl 0%nat | TypeRegA => inl 1%nat | TypeLink => inl 2%nat | TypeSymlink => inl 3%nat
                               | TypeDir => inl 4%nat | TypeOther z => inr z end)
    (λ x, match x with inl 0%nat => TypeReg | inl 1%nat => TypeRegA | inl 2%nat => TypeLink | inl 3%nat => TypeSymlink
                  | inl _ => TypeDir | inr z => TypeOther z end) ltac:(by intros []).
#[local] Instance header_countable : Countable Header :=
  inj_countable' (λ h, (h.(hd_Name), h.(hd_Typeflag), h.(hd_Size), h.(hd_Linkname), (h.(hd_Mode), h.(hd_Uid), h.(hd_Gid), h.(hd_ModTime))))
    (λ '(n, f, s, l, (m, u, g, t)), MkHeader n f s l m u g t) ltac:(by intros []).

(** An archive as one number. *)
Definition toy_packer : Packer := {|
  pack es := [N.pos (encode es)];
  unpack l := match l with [N.pos p] => decode p | _ => None end |}.
Lemma toy_packer_laws : @PackerLaws toy_packer.
Proof. split; [intros es _; cbn; apply decode_encode | done]. Qed.

Definition sample_random : Randomness := MkRandomness (repeat 7%N 32) (repeat 9%N 16) "20260101T000000Z-000000000001" "2026-01-01T00:00:00Z".
Definition sample_master : list N := repeat 5%N 32.
Definition sample_saved : blob_error + (blobManifest * Blobs) :=
  @persistFromDir toy_packer 16 (λ l, l) sample_random "rt-1" sample_tree sample_master ∅.

Lemma snapshot_roundtrip_witness : ∃ m blobs', sample_saved = inr (m, blobs') ∧ (2 <= length m.(bm_Chunks))%nat
  ∧ @restoreToDir toy_packer 5 "rt-1" m sample_master blobs' = inr (omap (saved 5) sample_tree).
Proof.
  assert (E : match sample_saved with inr (m, _) => (2 <=? length m.(bm_Chunks))%nat | inl _ => false end = true) by (vm_compute; reflexivity).
  destruct sample_saved as [e|[m blobs']] eqn:Es; [discriminate E|]. exists m, blobs'. split; [reflexivity|]. split; [by apply Nat.leb_le|].
  destruct sample_tree_ok as [Hok Hs].
  exact (@snapshot_roundtrip toy_packer toy_packer_laws 16 (λ l, l) sample_random "rt-1" sample_tree sample_master ∅ m blobs' blobs' 5
    Hok (λ l, reflexivity l) Hs eq_refl eq_refl ltac:(discriminate) Es (λ c _, eq_refl)).
Defined.

Lemma restored_data_authentic_witness : ∃ m blobs', sample_saved = inr (m, blobs')
  ∧ hex_decode m.(bm_ManifestMAC) = Some (HMAC (runtimeManifestMACKey sample_master "rt-1") (blobManifestMACPayload m)).
Proof.
  assert (E : match sample_saved with
              | inr (m, b) => (m.(bm_Version) =? 3) && match @restoreToDir toy_packer 5 "rt-1" m sample_master b with inr _ => true | inl _ => false end
              | inl _ => false end = true) by (vm_compute; reflexivity).
  destruct sample_saved as [e|[m blobs']]; [discriminate E|]. apply andb_prop in E as [E3 E]. apply Z.eqb_eq in E3.
  destruct (@restoreToDir toy_packer 5 "rt-1" m sample_master blobs') as [e|fs] eqn:Er; [discriminate E|]. exists m, blobs'. split; [reflexivity|].
  destruct (@restored_data_authentic toy_packer 5 "rt-1" m sample_master blobs' fs ltac:(discriminate) E3 Er) as [Hmac _]. exact Hmac.
Defined.
