(* ===== verification/NodeSessions.v ===== *)
(** * A runtime's data on a node

    Models what the node agent does with a runtime's data when it starts, stops,
    wipes or deletes the runtime (cmd/virtnoded/blobstore.go: [prepareSessionData],
    [prepareSessionPersistence], [persistSessionData], [cleanupBlobStorage],
    [clearSnapshot]; cmd/virtnoded/main.go: the cold start of
    [ensureRuntimeRunning], [ensureRuntimeStopped], [discardTaintedRuntime],
    [wipeRuntime], [deleteRuntime]), on a node that keeps snapshots on its own
    disk (no renterd or Sia configured).

    The node's state is its directories and files for each runtime; the control
    plane's is the manifest and the status it last committed for the runtime.
    What else can happen is an argument: whether a call to Docker, to the disk or
    to the network succeeded ([StartOutcome], [StopOutcome]), and whether a report
    reached the control plane, was refused, or got lost before or after it was
    committed ([outcome]).  A failed call ends the operation there, as a crash of
    the node would.  Log lines, ports, personas, the location feed and networks
    are left out; what is written into the data before the container starts (the
    node's adb key, reset device IDs) is a function of the data. *)

From Stdlib Require Import Ascii.
From S2P Require Import Prelude.
From S2P Require Import GoLib.
From S2P Require Import Codec.
From S2P Require Import Crypto.
From S2P Require Import Archive.
From S2P Require Import Snapshots.
Open Scope Z_scope.

(** ** State *)

Record Node := MkNode {
  nd_data : gmap string Fs; (** RuntimeRoot/<id>/data *)
  nd_unsaved : gset string; (** the unsaved-session markers *)
  nd_legacy : gmap string (list N); (** RuntimeRoot/<id>/blob/userdata.enc *)
  nd_blobs : Blobs;
  nd_containers : gset string;
  nd_keys : gmap string (list N); (** runtimeBlobKeys *)
  nd_floors : gmap string Z (** snapshotFloors *) }.
#[export] Instance node_eta : Eta Node := λ n,
  MkNode n.(nd_data) n.(nd_unsaved) n.(nd_legacy) n.(nd_blobs) n.(nd_containers) n.(nd_keys) n.(nd_floors).

(** What the control plane has committed for the runtime: its manifest, whether it
    is to run, whether its status is "stopped", and whether a cleanup is pending. *)
Record Cp := MkCp { cp_manifest : option blobManifest; cp_running : bool; cp_stopped : bool; cp_cleanup : bool }.
#[export] Instance cp_eta : Eta Cp := λ c, MkCp c.(cp_manifest) c.(cp_running) c.(cp_stopped) c.(cp_cleanup).

Record World := MkWorld { w_node : Node; w_cp : Cp }.
#[export] Instance world_eta : Eta World := λ w, MkWorld w.(w_node) w.(w_cp).

Inductive node_error := NBlob (e : blob_error) | NFs (e : fs_error) | NText (text : string) | NTooLarge.
Notation Op := (M World node_error).

(** The manifest of an assignment: none, one that is no JSON, or one. *)
Inductive manifest_json := NoManifest | BadManifest | Decoded (m : blobManifest).
Record Assignment := MkAssignment {
  as_ID : string; as_Status : string; as_CleanupPending : bool; as_BlobAutoSnapshot : bool; as_BlobManifestJSON : manifest_json;
  as_StorageBytesLimit : option Z; as_StorageBytesUsed : option Z }.

Definition parseBlobManifest (raw : manifest_json) : blob_error + option blobManifest :=
  match raw with
  | NoManifest => inr None
  | BadManifest => inl (ErrBlob "decode blob manifest")
  | Decoded m => inr (Some (if m.(bm_Store) =?s "" then m <| bm_Store := blobStoreLocal |> else m))
  end.

Notation blob_call x := (match x with inl e => throw (NBlob e) | inr a => mret a end).
Notation in_node_op f := (modify (λ w : World, w <| w_node ::= f |>)).
(** A call that can fail for reasons outside the model. *)
Definition external (ok : bool) (text : string) : Op unit := refuse_if (negb ok) (NText text).

(** ** Markers and directories *)

Definition markUnsavedSession (id : string) : Op unit := in_node_op (λ n, n <| nd_unsaved ::= union {[id]} |>).
Definition clearUnsavedSession (id : string) : Op unit := in_node_op (λ n, n <| nd_unsaved ::= (λ s, s ∖ {[id]}) |>).
Definition hasUnsavedSession (n : Node) (id : string) : bool := bool_decide (id ∈ n.(nd_unsaved)).
Definition directoryHasEntries (n : Node) (id : string) : bool :=
  match n.(nd_data) !! id with Some fs => negb (bool_decide (fs = ∅)) | None => false end.
Definition set_data (id : string) (fs : Fs) : Op unit := in_node_op (λ n, n <| nd_data ::= <[id := fs]> |>).
Definition remove_data (id : string) : Op unit := in_node_op (λ n, n <| nd_data ::= delete id |>).
(** [os.MkdirAll(dataDir)]. *)
Definition make_data (id : string) : Op unit :=
  in_node_op (λ n, n <| nd_data ::= λ d, match d !! id with Some _ => d | None => <[id := ∅]> d end |>).

(** ** Keys and floors *)

Definition noteSnapshotFloor (id : string) (floor : Z) (n : Node) : Node :=
  match n.(nd_floors) !! id with
  | Some current => if current <? floor then n <| nd_floors ::= <[id := floor]> |> else n
  | None => n <| nd_floors ::= <[id := floor]> |>
  end.
Definition snapshotFloor (id : string) (n : Node) : option Z := n.(nd_floors) !! TrimSpace id.

Definition cachedRuntimeBlobKey (id : string) (n : Node) : option (list N) :=
  if TrimSpace id =?s "" then None
  else match n.(nd_keys) !! TrimSpace id with Some [] | None => None | Some key => Some key end.
Definition cacheRuntimeBlobKey (id : string) (key : list N) (n : Node) : Node :=
  if (TrimSpace id =?s "") || (length key =? 0)%nat then n else n <| nd_keys ::= <[TrimSpace id := key]> |>.
Definition clearCachedRuntimeBlobKey (id : string) : Op unit := in_node_op (λ n, n <| nd_keys ::= delete (TrimSpace id) |>).

(** [handed] is what the control plane hands over, decrypted; nothing when that fails. *)
Definition runtimeBlobKeyWithContext (id : string) (handed : option (list N)) : Op (list N) :=
  w ← gets Datatypes.id;
  match cachedRuntimeBlobKey id w.(w_node) with
  | Some key => mret key
  | None =>
    plaintext ← require handed (NText "fetch active blob key envelope");
    let '(key, floor) := splitSnapshotFloor plaintext in
    in_node_op (λ n, match floor with Some f => noteSnapshotFloor id f n | None => n end);;
    in_node_op (cacheRuntimeBlobKey id key);;
    mret key
  end.

Definition nextSnapshotGeneration (previous : option blobManifest) (floor : option Z) : blob_error + Z :=
  match (match previous with
         | None => inr 1
         | Some p => if (p.(bm_Generation) <? 0) || (p.(bm_Generation) =? max_int64)
                     then inl (ErrBlob "blob manifest generation cannot be advanced") else inr (p.(bm_Generation) + 1)
         end) with
  | inl e => inl e
  | inr generation =>
    match floor with
    | Some f => inr (if generation <=? f then f + 1 else generation)
    | None => inr generation
    end
  end.

Definition checkSnapshotFloor (manifest : option blobManifest) (floor : Z) : blob_error + unit :=
  match manifest with
  | None => inr tt
  | Some m =>
    if negb (m.(bm_Version) =? 3) then inl (ErrBlob "this runtime's phone accepts only authenticated snapshots")
    else if m.(bm_Generation) <? floor then inl (ErrBlob "snapshot generation is older than the phone has already seen")
    else inr tt
  end.

(** [blobStoreForManifest]: only the local store is configured. *)
Definition blobStoreForManifest (m : blobManifest) : blob_error + unit :=
  if (TrimSpace m.(bm_Store) =?s "") || (TrimSpace m.(bm_Store) =?s blobStoreLocal) then inr tt else inl (ErrBlob "unsupported blob store kind").

Definition delete_chunks (m : blobManifest) : Op unit := λ w,
  let '(blobs, r) := deleteManifest m w.(w_node).(nd_blobs) in
  (w <| w_node ::= (λ n, n <| nd_blobs := blobs |>) |>, match r with inl e => inl (NBlob e) | inr _ => inr tt end).

(** ** Preparing the data of a start *)

Definition RemoveAll (fs : Fs) (p : Path) : fs_error + Fs :=
  match resolve fs [] p with
  | inl NotExist => inr fs
  | inl e => inl e
  | inr _ => inr (filter (λ kv, ¬ (p `prefix_of` kv.1)) fs)
  end.

Definition prune_one (acc : fs_error + Fs) (target : Path) : fs_error + Fs :=
  match acc with
  | inl e => inl e
  | inr fs => match ensureRootPathHasNoSymlinks fs target false with inl _ => inr fs | inr _ => RemoveAll fs target end
  end.
Definition pruneEphemeralAndroidState (fs : Fs) : fs_error + Fs :=
  foldl prune_one (inr fs) [["anr"%string]; ["system"%string; "dropbox"%string]; ["tombstones"%string]].

Section sessions.
Context `{Packer}.
(** Whether a link's target exists on the node, and the order of listings. *)
Variables (link_exists : string → bool) (order : list string → list string).

(** [fileExists] and the walk over a directory: the owner of all below it. *)
Definition repair_one (fs : Fs) (relative : string) : Fs :=
  let exists_there := match fs !! [relative] with
                      | Some (MkInode (NLink target) _) => link_exists target
                      | Some _ => true
                      | None => false
                      end in
  if exists_there
  then map_imap (λ p i, Some (if bool_decide ([relative] `prefix_of` p)
                              then i <| in_meta := MkMeta i.(in_meta).(me_mode) 1000 1000 i.(in_meta).(me_mtime) |> else i)) fs
  else fs.
Definition repairLegacyAndroidSystemOwnership (fs : Fs) : Fs := foldl repair_one fs ["system"%string; "system_ce"%string; "system_de"%string].

Inductive sessionDataSource := sessionDataFresh | sessionDataRestored | sessionDataUnsaved.

(** The last steps of a restore. *)
Definition finish_restore (id : string) (fs : Fs) : Op sessionDataSource :=
  set_data id fs;;
  let fs := repairLegacyAndroidSystemOwnership fs in
  set_data id fs;;
  match pruneEphemeralAndroidState fs with
  | inl e => throw (NFs e)
  | inr fs => set_data id fs;; mret sessionDataRestored
  end.

Definition restore_manifest (now : Z) (id : string) (m : blobManifest) (masterKey : list N) (floor : option Z) : Op sessionDataSource :=
  blob_call (blobStoreForManifest m);;
  remove_data id;; make_data id;;
  w ← gets Datatypes.id;
  match restoreToDir now id m masterKey w.(w_node).(nd_blobs) with
  | inr fs =>
    (match m.(bm_MigrationFallback) with
     | Some fallback =>
       match blobStoreForManifest fallback with
       | inr _ => in_node_op (λ n, n <| nd_blobs ::= λ b, (deleteManifest fallback b).1 |>)
       | inl _ => mret tt
       end
     | None => mret tt
     end);;
    finish_restore id fs
  | inl e =>
    fallback ← require m.(bm_MigrationFallback) (NBlob e);
    (match floor with Some f => blob_call (checkSnapshotFloor (Some fallback) f) | None => mret tt end);;
    blob_call (blobStoreForManifest fallback);;
    remove_data id;; make_data id;;
    match restoreToDir now id fallback masterKey w.(w_node).(nd_blobs) with
    | inl e' => throw (NBlob e')
    | inr fs => finish_restore id fs
    end
  end.

Definition prepareSessionData (now : Z) (runtime : Assignment) (handed : option (list N)) : Op sessionDataSource :=
  let id := runtime.(as_ID) in
  manifest ← blob_call (parseBlobManifest runtime.(as_BlobManifestJSON));
  masterKey ← runtimeBlobKeyWithContext id handed;
  w ← gets Datatypes.id;
  let floor := snapshotFloor id w.(w_node) in
  (match floor with Some f => blob_call (checkSnapshotFloor manifest f) | None => mret tt end);;
  make_data id;;
  w ← gets Datatypes.id;
  if hasUnsavedSession w.(w_node) id && directoryHasEntries w.(w_node) id then mret sessionDataUnsaved
  else match manifest with
  | Some m => restore_manifest now id m masterKey floor
  | None =>
    match w.(w_node).(nd_legacy) !! id with
    | Some file =>
      remove_data id;; make_data id;;
      match restoreSnapshot now file masterKey with
      | inl e => throw (NBlob e)
      | inr fs => finish_restore id fs
      end
    | None => mret (if directoryHasEntries w.(w_node) id then sessionDataRestored else sessionDataFresh)
    end
  end.

(** ** Saving the data of a stop *)

Definition manifestStorageBytes (manifest : option blobManifest) : blob_error + Z :=
  match manifest with
  | None => inr 0
  | Some m =>
    if (m.(bm_TotalBytes) <=? 0) || (maxBlobSnapshotBytes <? m.(bm_TotalBytes)) then inl (ErrBlob "blob manifest has invalid total size")
    else match m.(bm_MigrationFallback) with
    | None => inr m.(bm_TotalBytes)
    | Some fallback =>
      if negb (is_none fallback.(bm_MigrationFallback)) then inl (ErrBlob "blob manifest migration fallback cannot be nested")
      else if (fallback.(bm_TotalBytes) <=? 0) || (maxBlobSnapshotBytes <? fallback.(bm_TotalBytes))
      then inl (ErrBlob "blob migration fallback has invalid total size")
      else if max_int64 - fallback.(bm_TotalBytes) <? m.(bm_TotalBytes) then inl (ErrBlob "blob manifest storage usage overflows")
      else inr (m.(bm_TotalBytes) + fallback.(bm_TotalBytes))
    end
  end.

Definition enforceRuntimeStorageQuota (runtime : Assignment) (candidate : blobManifest) : blob_error + unit :=
  match runtime.(as_StorageBytesLimit), runtime.(as_StorageBytesUsed) with
  | Some limit, Some used =>
    if (limit <? 0) || (used <? 0) then inl (ErrBlob "control plane returned invalid runtime storage quota metadata")
    else match manifestStorageBytes (Some candidate) with
    | inl e => inl e
    | inr candidateBytes =>
      match parseBlobManifest runtime.(as_BlobManifestJSON) with
      | inl e => inl e
      | inr current =>
        match manifestStorageBytes current with
        | inl e => inl e
        | inr currentBytes =>
          let otherRuntimeBytes := if used - currentBytes <? 0 then 0 else used - currentBytes in
          if (limit <=? 0) || (limit - otherRuntimeBytes <? candidateBytes) then inl ErrRuntimeStorageQuotaExceeded else inr tt
        end
      end
    end
  | _, _ => inr tt
  end.

Record persistedBlob := MkPersisted { pb_Manifest : option blobManifest; pb_ClearExisting : bool }.

(** A step of [persistSessionData] after which a failure deletes the new snapshot. *)
Definition or_discard {A} (manifest : blobManifest) (x : blob_error + A) : Op A :=
  match x with
  | inr a => mret a
  | inl e => in_node_op (λ n, n <| nd_blobs ::= λ b, (deleteManifest manifest b).1 |>);; throw (NBlob e)
  end.

(** The manifest kept beside one of another store. *)
Definition fallback_of (previous : option blobManifest) (manifest : blobManifest) (masterKey : list N) (id : string)
    : blob_error + option blobManifest :=
  match previous with
  | None => inr None
  | Some p =>
    if p.(bm_Store) =?s manifest.(bm_Store) then inr None
    else match p.(bm_MigrationFallback) with
    | None => inr (Some p)
    | Some _ => match authenticateBlobManifest (p <| bm_MigrationFallback := None |>) masterKey id with
                | inl e => inl e
                | inr fallback => inr (Some fallback)
                end
    end
  end.

(** [plan] is the key of the plan, when one was prepared with a store. *)
Definition persistSessionData (random : Randomness) (runtime : Assignment) (plan : option (list N)) : Op persistedBlob :=
  let id := runtime.(as_ID) in
  w ← gets Datatypes.id;
  if negb (directoryHasEntries w.(w_node) id) || negb runtime.(as_BlobAutoSnapshot) then mret (MkPersisted None true)
  else
    masterKey ← require plan (NText "session persistence store is not prepared");
    '(manifest, blobs) ← blob_call (persistFromDir blobChunkSize order random id (default ∅ (w.(w_node).(nd_data) !! id)) masterKey
                                      w.(w_node).(nd_blobs));
    in_node_op (λ n, n <| nd_blobs := blobs |>);;
    previous ← or_discard manifest (parseBlobManifest runtime.(as_BlobManifestJSON));
    generation ← or_discard manifest (nextSnapshotGeneration previous (snapshotFloor id w.(w_node)));
    fallback ← or_discard manifest (fallback_of previous manifest masterKey id);
    let manifest := manifest <| bm_Generation := generation |> <| bm_MigrationFallback := fallback |> in
    authenticated ← or_discard manifest (authenticateBlobManifest manifest masterKey id);
    or_discard authenticated (enforceRuntimeStorageQuota runtime authenticated);;
    mret (MkPersisted (Some authenticated) false).

(** The plan of a stop: its key, unless the runtime does not keep its data. *)
Definition prepareSessionPersistence (runtime : Assignment) (handed : option (list N)) (ready : bool) : Op (option (list N)) :=
  if negb runtime.(as_BlobAutoSnapshot) then mret None
  else
    masterKey ← runtimeBlobKeyWithContext runtime.(as_ID) handed;
    external ready "blob store local-disk is not ready";;
    mret (Some masterKey).

(** ** Cleaning up *)

Definition clearManifestChunks (runtime : Assignment) : Op unit :=
  manifest ← blob_call (parseBlobManifest runtime.(as_BlobManifestJSON));
  match manifest with
  | None => mret tt
  | Some m =>
    if (length m.(bm_Chunks) =? 0)%nat then mret tt
    else
      blob_call (validateBlobManifestForRuntime m runtime.(as_ID));;
      blob_call (blobStoreForManifest m);;
      delete_chunks m;;
      match m.(bm_MigrationFallback) with
      | None => mret tt
      | Some fallback => blob_call (blobStoreForManifest fallback);; delete_chunks fallback
      end
  end.

Definition clear_blobs (id : string) : Op unit := in_node_op (λ n, n <| nd_blobs ::= clearRuntime id |>).
Definition remove_legacy (id : string) : Op unit := in_node_op (λ n, n <| nd_legacy ::= delete id |>).

Definition clearSnapshot (runtime : Assignment) : Op unit :=
  clearManifestChunks runtime;;
  clear_blobs runtime.(as_ID);;
  remove_legacy runtime.(as_ID).

Definition sameBlobGeneration (left_ right_ : option blobManifest) : bool :=
  match left_, right_ with
  | None, None => true
  | Some l, Some r => (l.(bm_Store) =?s r.(bm_Store)) && (l.(bm_Bucket) =?s r.(bm_Bucket)) && (l.(bm_RuntimeID) =?s r.(bm_RuntimeID))
                      && (l.(bm_Namespace) =?s r.(bm_Namespace)) && (l.(bm_SnapshotID) =?s r.(bm_SnapshotID))
  | _, _ => false
  end.

Definition differs (previous retained : blobManifest) : bool :=
  negb (previous.(bm_Store) =?s retained.(bm_Store)) || negb (previous.(bm_Bucket) =?s retained.(bm_Bucket))
  || negb (previous.(bm_SnapshotID) =?s retained.(bm_SnapshotID)).

Definition cleanupBlobStorage (runtime : Assignment) (retained : option blobManifest) : Op unit :=
  let id := runtime.(as_ID) in
  remove_legacy id;;
  match retained with
  | None => clearManifestChunks runtime;; clear_blobs id
  | Some m =>
    blob_call (blobStoreForManifest m);;
    previous ← blob_call (parseBlobManifest runtime.(as_BlobManifestJSON));
    (match previous with
     | Some p =>
       if negb (sameBlobGeneration previous m.(bm_MigrationFallback)) && differs p m
       then blob_call (validateBlobManifestForRuntime p id);; blob_call (blobStoreForManifest p);; delete_chunks p
       else mret tt
     | None => mret tt
     end);;
    in_node_op (λ n, n <| nd_blobs ::= pruneRuntime id m.(bm_Namespace) m.(bm_SnapshotID) |>)
  end.

(** ** Reports *)

(** Committed and acknowledged; refused as too large; lost before or after it was
    committed. *)
Inductive outcome := Acknowledged | RefusedTooLarge | LostBefore | LostAfter.
Definition report (o : outcome) (update : Cp → Cp) : Op unit :=
  match o with
  | Acknowledged => modify (λ w, w <| w_cp ::= update |>)
  | RefusedTooLarge => throw NTooLarge
  | LostBefore => throw (NText "report runtime status")
  | LostAfter => modify (λ w, w <| w_cp ::= update |>);; throw (NText "report runtime status")
  end.

Definition discardUncommittedBlob (persisted : persistedBlob) : Op unit :=
  match persisted.(pb_Manifest) with
  | None => mret tt
  | Some m => blob_call (blobStoreForManifest m);; delete_chunks m
  end.
(** [errors.Join]: the first error, after the second call. *)
Definition failing_after {A} (e : node_error) (cleanup : Op unit) : Op A := λ w, let '(w', _) := cleanup w in (w', inl e).

(** What the stopped report commits. *)
Definition stopped_report (persisted : persistedBlob) (cleanupComplete : bool) (c : Cp) : Cp :=
  MkCp (match persisted.(pb_Manifest) with
        | Some m => Some m
        | None => if persisted.(pb_ClearExisting) then None else c.(cp_manifest)
        end) c.(cp_running) true (if cleanupComplete then false else if c.(cp_running) then c.(cp_cleanup) else true).

(** ** Stopping *)

Record StopOutcome := MkStop {
  so_inspect : bool; so_ready : bool; so_stop : bool; so_remove : bool; so_report : outcome; so_removeData : bool; so_clearMark : bool;
  so_network : bool; so_acknowledge : outcome }.

Definition is_stopped (status : string) : bool := EqualFold (TrimSpace status) "stopped".

(** Up to the report: what was saved, and whether anything was to be. *)
Definition save_session (o : StopOutcome) (random : Randomness) (runtime : Assignment) (handed : option (list N)) : Op (persistedBlob * bool) :=
  let id := runtime.(as_ID) in
  external o.(so_inspect) "inspect container";;
  w ← gets Datatypes.id;
  let hadContainer := bool_decide (id ∈ w.(w_node).(nd_containers)) in
  let cleanupPending := runtime.(as_CleanupPending) || is_stopped runtime.(as_Status) in
  let shouldPersist := negb cleanupPending && (hadContainer || directoryHasEntries w.(w_node) id) in
  plan ← (if shouldPersist then markUnsavedSession id;; prepareSessionPersistence runtime handed o.(so_ready) else mret None);
  (if hadContainer then external o.(so_stop) "quiesce runtime container before persistence" else mret tt);;
  persisted ← (if shouldPersist then persistSessionData random runtime plan else mret (MkPersisted None false));
  (if hadContainer
   then if o.(so_remove) then in_node_op (λ n, n <| nd_containers ::= (λ s, s ∖ {[id]}) |>)
        else failing_after (NText "remove runtime container after durable persistence") (discardUncommittedBlob persisted)
   else mret tt);;
  mret (persisted, shouldPersist).

(** The report of the stop; a refusal for its size discards the snapshot. *)
Definition commit_session (o : outcome) (persisted : persistedBlob) : Op unit :=
  match o with
  | RefusedTooLarge => failing_after NTooLarge (discardUncommittedBlob persisted)
  | _ => report o (stopped_report persisted false)
  end.

(** After the report. *)
Definition clean_session (o : StopOutcome) (runtime : Assignment) (persisted : persistedBlob) (shouldPersist : bool) : Op unit :=
  let id := runtime.(as_ID) in
  let cleanupPending := runtime.(as_CleanupPending) || is_stopped runtime.(as_Status) in
  external o.(so_removeData) "remove plaintext userdata after manifest commit";;
  remove_data id;;
  external o.(so_clearMark) "clear the unsaved-session mark after manifest commit";;
  clearUnsavedSession id;;
  external o.(so_network) "remove isolated runtime network after manifest commit";;
  retained ← (if cleanupPending && is_none persisted.(pb_Manifest) then blob_call (parseBlobManifest runtime.(as_BlobManifestJSON))
              else mret persisted.(pb_Manifest));
  (if shouldPersist || cleanupPending then cleanupBlobStorage runtime retained else mret tt);;
  clearCachedRuntimeBlobKey id;;
  report o.(so_acknowledge) (stopped_report persisted true).

Definition ensureRuntimeStopped (o : StopOutcome) (random : Randomness) (runtime : Assignment) (handed : option (list N)) : Op unit :=
  '(persisted, shouldPersist) ← save_session o random runtime handed;
  commit_session o.(so_report) persisted;;
  clean_session o runtime persisted shouldPersist.

(** ** Starting *)

(** [st_prepare] is what is written into the data before the container starts. *)
Record StartOutcome := MkStart {
  st_headroom : bool; st_removeStale : bool; st_prepare : option (Fs → Fs); st_create : bool; st_mark : bool; st_start : bool; st_report : outcome }.

(** From the check of the disk on: the container does not run. *)
Definition start_session (now : Z) (o : StartOutcome) (runtime : Assignment) (handed : option (list N)) : Op unit :=
  let id := runtime.(as_ID) in
  external o.(st_headroom) "insufficient host disk headroom";;
  w ← gets Datatypes.id;
  (if bool_decide (id ∈ w.(w_node).(nd_containers))
   then external o.(st_removeStale) "remove stale offline container";; in_node_op (λ n, n <| nd_containers ::= (λ s, s ∖ {[id]}) |>)
   else mret tt);;
  source ← prepareSessionData now runtime handed;
  prepare ← require o.(st_prepare) (NText "authorize the node's adb key");
  w ← gets Datatypes.id;
  set_data id (prepare (default ∅ (w.(w_node).(nd_data) !! id)));;
  external o.(st_create) "create container";;
  external o.(st_mark) "mark the session unsaved before starting its container";;
  markUnsavedSession id;;
  external o.(st_start) "start container";;
  in_node_op (λ n, n <| nd_containers ::= union {[id]} |>);;
  report o.(st_report) (λ c, c <| cp_stopped := false |>).

(** ** Discarding, wiping and deleting *)

Definition discardTaintedRuntime (removed network dataRemoved : bool) (runtime : Assignment) : Op unit :=
  let id := runtime.(as_ID) in
  (if removed then in_node_op (λ n, n <| nd_containers ::= (λ s, s ∖ {[id]}) |>) else mret tt);;
  (if dataRemoved then remove_data id;; clearUnsavedSession id else mret tt);;
  clearCachedRuntimeBlobKey id;;
  external (removed && network && dataRemoved) "remove tainted runtime".

Definition wipeRuntime (removed network : bool) (o : outcome) (runtime : Assignment) (handed : option (list N)) : Op unit :=
  let id := runtime.(as_ID) in
  runtimeBlobKeyWithContext id handed;;
  external removed "remove runtime container before wipe";;
  in_node_op (λ n, n <| nd_containers ::= (λ s, s ∖ {[id]}) |>);;
  external network "remove isolated runtime network before wipe";;
  remove_data id;; clearUnsavedSession id;; clearSnapshot runtime;; clearCachedRuntimeBlobKey id;;
  report o (λ c, MkCp None c.(cp_running) true false).

Definition deleteRuntime (removed network : bool) (o : outcome) (runtime : Assignment) : Op unit :=
  let id := runtime.(as_ID) in
  external removed "remove runtime container";;
  in_node_op (λ n, n <| nd_containers ::= (λ s, s ∖ {[id]}) |>);;
  external network "remove isolated runtime network";;
  remove_data id;; clearUnsavedSession id;; remove_legacy id;; clearSnapshot runtime;; clearCachedRuntimeBlobKey id;;
  report o (λ c, MkCp None c.(cp_running) true false).
End sessions.

(** ** Facts *)

(** *** What the user has in a tree *)

(** A tree that can be saved and restored. *)
Definition good (fs : Fs) : Prop := tree_ok fs ∧ short_directories fs.

Definition ephemeral : list Path := [["anr"%string]; ["system"%string; "dropbox"%string]; ["tombstones"%string]].
(** What is at a path: a file with its content, a directory or a link with its
    target; sockets, pipes and devices are not kept. *)
Definition content (fs : Fs) (p : Path) : option node :=
  match in_node <$> fs !! p with Some NSpecial | Some NIrregular => None | x => x end.
(** The same at every path but those the node writes itself and those Android
    rebuilds. *)
Definition same_content (own : Path → bool) (fs fs' : Fs) : Prop :=
  ∀ p, own p = false → (∀ d, d ∈ ephemeral → ¬ (d `prefix_of` p)) → content fs' p = content fs p.

#[export] Instance same_content_equiv own : Equivalence (same_content own).
Proof.
  split; [intros fs p _ _; done | intros fs fs' H p Ho He; symmetry; by apply H |].
  intros fs fs1 fs2 H1 H2 p Ho He. by rewrite H2, H1.
Qed.

(** An operation that keeps the kind of every inode but some it drops. *)
Lemma good_sub (fs fs' : Fs) :
  good fs → (∀ p i, fs' !! p = Some i → ∃ j, fs !! p = Some j ∧ in_node i = in_node j) →
  (∀ p i j, fs' !! p = Some i → parent p ≠ [] → fs !! parent p = Some j → is_dir j → ∃ k, fs' !! parent p = Some k ∧ is_dir k) → good fs'.
Proof.
  intros [Hok Hshort] Hsub Hup. split.
  - intros p i Hi. destruct (Hsub p i Hi) as (j & Hj & _). destruct (Hok p j Hj) as (Hne & Hp & Hd). split_and!; try done.
    destruct (decide (parent p = [])) as [?|Hnr]; [by left|]. right. destruct Hd as [?|(k & Hk & Hkd)]; [done|]. by eapply Hup.
  - intros p i Hi Hd. destruct (Hsub p i Hi) as (j & Hj & E). apply (Hshort p j Hj). unfold is_dir in *. by rewrite <-E.
Qed.

Lemma saved_node now i j : saved now i = Some j → in_node j = in_node i ∧ in_node i ≠ NSpecial ∧ in_node i ≠ NIrregular.
Proof. unfold saved. destruct i as [n me]. cbn. destruct n; intros [= <-]; by split_and!. Qed.

Lemma good_saved now fs : good fs → good (omap (saved now) fs).
Proof.
  intros Hg. eapply good_sub; [exact Hg | |].
  - intros p i. rewrite lookup_omap. destruct (fs !! p) as [j|]; [|done]. cbn. intros [E _]%saved_node. by exists j.
  - intros p i j _ _ Hj Hd. rewrite lookup_omap, Hj. cbn. unfold saved, is_dir in *. rewrite Hd. eexists. split; [done|]. by destruct j.
Qed.

Lemma content_saved now fs p : content (omap (saved now) fs) p = content fs p.
Proof.
  unfold content. rewrite lookup_omap. destruct (fs !! p) as [[n me]|]; [|done]. unfold saved. cbn. by destruct n.
Qed.

Section repairing.
Variable link_exists : string → bool.

Lemma repair_one_node fs r p : in_node <$> repair_one link_exists fs r !! p = in_node <$> fs !! p.
Proof.
  unfold repair_one. cbv zeta. generalize (match fs !! [r] with Some (MkInode (NLink target) _) => link_exists target | Some _ => true | None => false end).
  intros []; [|done]. rewrite map_lookup_imap. destruct (fs !! p) as [i|]; [|done]. cbn.
  by case_bool_decide.
Qed.

Lemma repair_node fs p : in_node <$> repairLegacyAndroidSystemOwnership link_exists fs !! p = in_node <$> fs !! p.
Proof. unfold repairLegacyAndroidSystemOwnership. cbn [foldl]. by rewrite !repair_one_node. Qed.

Lemma good_repaired fs : good fs → good (repairLegacyAndroidSystemOwnership link_exists fs).
Proof.
  intros Hg. set (fs' := repairLegacyAndroidSystemOwnership _ _). assert (Hn : ∀ p, in_node <$> fs' !! p = in_node <$> fs !! p) by apply repair_node.
  eapply good_sub; [exact Hg | |].
  - intros p i Hi. specialize (Hn p). rewrite Hi in Hn. destruct (fs !! p) as [j|]; [|done]. exists j. split; [done|]. cbn in Hn. congruence.
  - intros p i j _ _ Hj Hd. specialize (Hn (parent p)). rewrite Hj in Hn. destruct (fs' !! parent p) as [k|]; [|done].
    exists k. split; [done|]. unfold is_dir in *. cbn in Hn. congruence.
Qed.
End repairing.

Lemma RemoveAll_spec fs d fs' :
  RemoveAll fs d = inr fs' → good fs → good fs' ∧ ∀ p, ¬ (d `prefix_of` p) → fs' !! p = fs !! p.
Proof.
  unfold RemoveAll. destruct (resolve fs [] d) as [e|[]]; [destruct e; try done; intros [= <-]; by split|].
  intros [= <-] Hg. split; [|intros p Hp; rewrite map_lookup_filter; destruct (fs !! p) as [i|]; cbn; [by rewrite option_guard_True|done]].
  eapply good_sub; [exact Hg | |].
  - intros p i [Hi _]%map_lookup_filter_Some. by exists i.
  - intros p i j [Hi Hp]%map_lookup_filter_Some Hne Hj Hd. exists j. split; [|done]. apply map_lookup_filter_Some. split; [done|].
    cbn in *. intros Hpre. apply Hp. destruct Hg as [Hok _]. destruct (Hok p i Hi) as (Hpn & _ & _). destruct (path_snoc p Hpn) as [n E]. rewrite E.
    by apply prefix_app_r.
Qed.

Lemma prune_spec fs fs' : pruneEphemeralAndroidState fs = inr fs' → good fs →
  good fs' ∧ ∀ p, (∀ d, d ∈ ephemeral → ¬ (d `prefix_of` p)) → fs' !! p = fs !! p.
Proof.
  unfold pruneEphemeralAndroidState. fold ephemeral.
  enough (H : ∀ ds acc, foldl prune_one acc ds = inr fs' → ∃ fs0, acc = inr fs0 ∧
    (good fs0 → good fs' ∧ ∀ p, (∀ d, d ∈ ds → ¬ (d `prefix_of` p)) → fs' !! p = fs0 !! p)).
  { intros Hf Hg. destruct (H _ _ Hf) as (fs0 & [= <-] & H0). by apply H0. }
  intros ds. induction ds as [|d ds IH]; intros acc; cbn [foldl]; [intros ->; exists fs'; by split|].
  intros Hf. destruct (IH _ Hf) as (fs1 & E & H1). destruct acc as [e|fs0]; [done|]. exists fs0. split; [done|]. intros Hg.
  cbn [prune_one] in E. destruct (ensureRootPathHasNoSymlinks fs0 d false).
  - injection E as ->. destruct (H1 Hg) as [? H2]. split; [done|]. intros p Hp. apply H2. intros d' Hd'. apply Hp. by apply list_elem_of_further.
  - destruct (RemoveAll_spec _ _ _ E Hg) as [Hg1 H3]. destruct (H1 Hg1) as [? H2]. split; [done|]. intros p Hp.
    rewrite H2, H3; [done | apply Hp; by apply list_elem_of_here | intros d' Hd'; apply Hp; by apply list_elem_of_further].
Qed.

(** *** The manifest a stop commits *)

(** A manifest this node writes. *)
Definition ours (m : blobManifest) : Prop :=
  m.(bm_Version) = 3 ∧ m.(bm_Store) = blobStoreLocal ∧ m.(bm_Bucket) = ""%string ∧ m.(bm_MigrationFallback) = None.

Lemma validate_chunks_same m m' runtimeID index total cs :
  m'.(bm_Version) = m.(bm_Version) → m'.(bm_Namespace) = m.(bm_Namespace) → m'.(bm_SnapshotID) = m.(bm_SnapshotID) →
  m'.(bm_ChunkSize) = m.(bm_ChunkSize) → validate_chunks m' runtimeID index total cs = validate_chunks m runtimeID index total cs.
Proof.
  intros Ev En Ei Es. revert index total. induction cs as [|c cs IH]; intros index total; [done|]. cbn [validate_chunks].
  unfold validateBlobChunkKey, expected_key, key_prefix. rewrite Ev, En, Ei, Es. by rewrite IH.
Qed.

(** A new generation and its MAC leave a valid manifest valid. *)
Lemma valid_generation m g mac runtimeID :
  validateBlobManifestForRuntime m runtimeID = inr tt → m.(bm_Version) = 3 → 0 ≤ g → length mac = 32%nat → octets mac →
  validateBlobManifestForRuntime (m <| bm_Generation := g |> <| bm_MigrationFallback := None |> <| bm_ManifestMAC := hex_encode mac |>) runtimeID = inr tt.
Proof.
  intros Hv H3 Hg Hl Ho. destruct (validate_spec _ _ Hv) as (Hver & Hsh & Hcs & Hsia & _). destruct (hex_roundtrip mac Ho) as [Hh Hhl].
  unfold zlen in Hhl. rewrite Hl in Hhl. set (m' := m <| bm_Generation := g |> <| bm_MigrationFallback := None |> <| bm_ManifestMAC := hex_encode mac |>).
  assert (Hf : m'.(bm_Version) = m.(bm_Version) ∧ m'.(bm_Namespace) = m.(bm_Namespace) ∧ m'.(bm_SnapshotID) = m.(bm_SnapshotID)
    ∧ m'.(bm_ChunkSize) = m.(bm_ChunkSize) ∧ m'.(bm_RuntimeID) = m.(bm_RuntimeID) ∧ m'.(bm_Generation) = g ∧ m'.(bm_ManifestMAC) = hex_encode mac
    ∧ m'.(bm_Chunks) = m.(bm_Chunks) ∧ m'.(bm_TotalBytes) = m.(bm_TotalBytes) ∧ m'.(bm_MigrationFallback) = None)
    by (unfold m'; clear; destruct m; split_and!; reflexivity).
  destruct Hf as (Ev & En & Ei & Es & Er & Eg & Em & Ec & Et & Ef).
  assert (Hver' : validate_version m' runtimeID = inr tt).
  { revert Hver. unfold validate_version. rewrite Ev, En, Er, Eg, Em, Hh, Hhl, H3. cbn [Z.eqb Z.leb Z.compare Pos.compare Pos.compare_cont Pos.eqb negb andb is_none].
    rewrite (proj2 (Z.ltb_ge g 0) Hg). destruct (TrimSpace _ =?s _); [done|]. destruct (negb _ && negb _); [done|].
    destruct (bm_Generation m <? 0); [done|]. destruct (negb (str_len (bm_Namespace m) =? 64)); [done|]. by destruct (is_none (hex_decode (bm_Namespace m))). }
  assert (Hsh' : validate_shape m' = inr tt) by (unfold m'; clear -Hsh; destruct m; exact Hsh).
  assert (Hsia' : validate_sia m' = inr tt) by (unfold m'; clear -Hsia; destruct m; exact Hsia).
  assert (Hcs' : validate_chunks m' runtimeID 0 0 m'.(bm_Chunks) = inr m'.(bm_TotalBytes)) by (rewrite Ec, Et, (validate_chunks_same m) by done; exact Hcs).
  clearbody m'. destruct m' as [? ? ? ? ? ? ? ? ? ? ? ? ? ? ? ? fb]. cbn [validateBlobManifestForRuntime]. rewrite Hver', Hsh', Hcs', Z.eqb_refl, Hsia'.
  cbn [bm_MigrationFallback negb] in *. by subst fb.
Qed.

(** *** Snapshots in the store *)

Section store.
Context `{PackerLaws}.

Lemma chunk_key_shape m runtimeID c :
  runtimeID ≠ ""%string → validateBlobManifestForRuntime m runtimeID = inr tt → m.(bm_Version) = 3 → c ∈ m.(bm_Chunks) →
  (∃ name, Split c.(ch_Key) = [m.(bm_Namespace); m.(bm_SnapshotID); name]) ∧ object_key c.(ch_Key) = inr c.(ch_Key).
Proof using Type.
  intros Hr Hv H3 [i Hc]%list_elem_of_lookup. destruct (validate_spec _ _ Hv) as (_ & _ & Hcs & _).
  apply validate_chunks_spec in Hcs as (_ & _ & Hok); [|done]. destruct (Hok i c Hc) as (_ & Ht & _ & Hk & _). specialize (Hk Hr). rewrite Z.add_0_l in Hk.
  destruct (expected_key_parts m runtimeID (Z.of_nat i) Hv H3 ltac:(lia)) as [Ek Hp]. rewrite Hk, Ek in *. split; [|by apply object_key_proper].
  exists (chunk_name (Z.of_nat i)). by apply Split_path_string; [|apply proper_no_slash].
Qed.

Lemma delete_objects_other cs blobs key :
  (∀ c, c ∈ cs → object_key c.(ch_Key) ≠ inr key) → (delete_objects blobs cs).1 !! key = blobs !! key.
Proof using Type.
  revert blobs. induction cs as [|c cs IH]; intros blobs Hk; [done|]. cbn [delete_objects].
  assert (Hc := Hk c (list_elem_of_here _ _)). destruct (object_key (ch_Key c)) as [e|k]; [done|]. rewrite IH by (intros c' Hc'; apply Hk; by apply list_elem_of_further).
  apply lookup_delete_ne. congruence.
Qed.

Lemma snapshot_agree runtimeID key fs m blobs blobs' :
  snapshot_of runtimeID key fs m blobs → (∀ c, c ∈ m.(bm_Chunks) → blobs' !! c.(ch_Key) = blobs !! c.(ch_Key)) → snapshot_of runtimeID key fs m blobs'.
Proof using Type.
  intros (Hr & Hv & Ha & H3 & Hs & payloads & Hst & Hrest) Hag. split_and!; try done. exists payloads. split; [by eapply stored_agree | done].
Qed.

(** Deleting another snapshot, and pruning all the others. *)
Lemma snapshot_delete_other runtimeID key fs m p blobs :
  snapshot_of runtimeID key fs m blobs → validateBlobManifestForRuntime p runtimeID = inr tt → p.(bm_Version) = 3 →
  p.(bm_SnapshotID) ≠ m.(bm_SnapshotID) → snapshot_of runtimeID key fs m (deleteManifest p blobs).1.
Proof using Type.
  intros Hs Hp Hp3 Hne. eapply snapshot_agree; [exact Hs|]. intros c Hc. unfold deleteManifest. apply delete_objects_other. intros c' Hc' E.
  destruct Hs as (Hr & Hv & _ & H3 & _). destruct (chunk_key_shape m _ c Hr Hv H3 Hc) as [[n Hn] _].
  destruct (chunk_key_shape p _ c' Hr Hp Hp3 Hc') as [[n' Hn'] Ho]. rewrite Ho in E. injection E as E. rewrite E, Hn in Hn'.
  apply Hne. symmetry. exact (f_equal (λ l, nth 1 l ""%string) Hn').
Qed.

Lemma snapshot_prune runtimeID key fs m blobs :
  snapshot_of runtimeID key fs m blobs → snapshot_of runtimeID key fs m (pruneRuntime runtimeID m.(bm_Namespace) m.(bm_SnapshotID) blobs).
Proof using Type.
  intros Hs. eapply snapshot_agree; [exact Hs|]. intros c Hc. destruct Hs as (Hr & Hv & _ & H3 & _).
  destruct (chunk_key_shape m _ c Hr Hv H3 Hc) as [[n Hn] _]. unfold pruneRuntime. rewrite map_lookup_filter. destruct (blobs !! ch_Key c) as [b|]; [|done].
  cbn [mbind option_bind]. rewrite option_guard_True; [done|]. cbn [fst]. unfold pruned. rewrite Hn, str_eqb_refl. by rewrite andb_false_r.
Qed.
End store.

(** *** Where a session is kept *)

Lemma good_empty : good ∅.
Proof. split; intros p i; rewrite lookup_empty; done. Qed.

Lemma directory_entries n id D : n.(nd_data) !! id = Some D → D ≠ ∅ → directoryHasEntries n id = true.
Proof. intros Hd Hne. unfold directoryHasEntries. by rewrite Hd, bool_decide_eq_false_2. Qed.
Lemma directory_entries_inv n id : directoryHasEntries n id = true → ∃ D, n.(nd_data) !! id = Some D ∧ D ≠ ∅.
Proof. unfold directoryHasEntries. destruct (nd_data n !! id) as [D|]; [|done]. intros Hn%negb_true_iff%bool_decide_eq_false. by exists D. Qed.

Lemma not_in_removed (id : string) (s : gset string) : id ∉ s ∖ {[id]}.
Proof. set_solver. Qed.
Lemma in_marked (id : string) (s : gset string) : id ∈ {[id]} ∪ s.
Proof. set_solver. Qed.

Lemma with_generation m g fallback : let m' := m <| bm_Generation := g |> <| bm_MigrationFallback := fallback |> in
  m'.(bm_Version) = m.(bm_Version) ∧ m'.(bm_Namespace) = m.(bm_Namespace) ∧ m'.(bm_Store) = m.(bm_Store)
  ∧ m'.(bm_Bucket) = m.(bm_Bucket) ∧ m'.(bm_Chunks) = m.(bm_Chunks) ∧ m'.(bm_SnapshotID) = m.(bm_SnapshotID)
  ∧ m'.(bm_Generation) = g ∧ m'.(bm_MigrationFallback) = fallback.
Proof. destruct m. split_and!; reflexivity. Qed.

Section keeping.
Context `{PackerLaws} (link_exists : string → bool) (order : list string → list string) (own : Path → bool) (id : string) (key : list N).
Hypothesis order_perm : ∀ l, order l ≡ₚ l.
Hypothesis id_named : id ≠ ""%string.

(** The session [L] in a manifest's snapshot. *)
Definition snapshot_holds (L : Fs) (manifest : option blobManifest) (blobs : Blobs) : Prop :=
  match manifest with
  | Some m => ∃ L', same_content own L L' ∧ good L' ∧ snapshot_of id key L' m blobs
  | None => same_content own L ∅
  end.

(** In the data directory, which is marked, and which the next stop saves. *)
Definition unsaved (L : Fs) (w : World) : Prop :=
  id ∈ w.(w_node).(nd_unsaved)
  ∧ (∃ D, w.(w_node).(nd_data) !! id = Some D ∧ D ≠ ∅ ∧ good D ∧ same_content own L D)
  ∧ (w.(w_cp).(cp_running) = true ∨ w.(w_cp).(cp_stopped) = false) ∧ w.(w_cp).(cp_cleanup) = false.

(** In the committed snapshot, with nothing else in the data directory. *)
Definition committed (L : Fs) (w : World) : Prop :=
  id ∉ w.(w_node).(nd_containers)
  ∧ snapshot_holds L w.(w_cp).(cp_manifest) w.(w_node).(nd_blobs)
  ∧ ∀ D, w.(w_node).(nd_data) !! id = Some D → good D ∧ (D ≠ ∅ → same_content own L D).

Definition tidy (w : World) : Prop :=
  (∀ k, cachedRuntimeBlobKey id w.(w_node) = Some k → k = key) ∧ w.(w_node).(nd_legacy) !! id = None
  ∧ (∀ m, w.(w_cp).(cp_manifest) = Some m → ours m) ∧ (w.(w_cp).(cp_running) = true → w.(w_cp).(cp_cleanup) = false).

Definition kept (L : Fs) (w : World) : Prop := tidy w ∧ (unsaved L w ∨ committed L w).

(** The assignment the node has fetched. *)
Definition assigned (runtime : Assignment) (w : World) : Prop :=
  runtime.(as_ID) = id ∧ runtime.(as_CleanupPending) = w.(w_cp).(cp_cleanup) ∧ is_stopped runtime.(as_Status) = w.(w_cp).(cp_stopped)
  ∧ runtime.(as_BlobAutoSnapshot) = true
  ∧ runtime.(as_BlobManifestJSON) = match w.(w_cp).(cp_manifest) with Some m => Decoded m | None => NoManifest end.

Definition hands (handed : option (list N)) : Prop := ∀ plaintext, handed = Some plaintext → (splitSnapshotFloor plaintext).1 = key.

Lemma assigned_manifest runtime w : assigned runtime w → tidy w → parseBlobManifest runtime.(as_BlobManifestJSON) = inr w.(w_cp).(cp_manifest).
Proof using Type.
  intros (_ & _ & _ & _ & ->) (_ & _ & Ho & _). destruct (cp_manifest (w_cp w)) as [m|]; [|done]. cbn [parseBlobManifest].
  destruct (Ho m eq_refl) as (_ & -> & _). done.
Qed.

(** Only keys and floors differ. *)
Definition keys_apart (w w' : World) : Prop :=
  w'.(w_cp) = w.(w_cp) ∧ w'.(w_node).(nd_data) = w.(w_node).(nd_data) ∧ w'.(w_node).(nd_unsaved) = w.(w_node).(nd_unsaved)
  ∧ w'.(w_node).(nd_legacy) = w.(w_node).(nd_legacy) ∧ w'.(w_node).(nd_blobs) = w.(w_node).(nd_blobs)
  ∧ w'.(w_node).(nd_containers) = w.(w_node).(nd_containers).

Lemma keys_apart_unsaved L w w' : keys_apart w w' → unsaved L w → unsaved L w'.
Proof using Type. intros (E1 & E2 & E3 & _ & E5 & E6) (H1 & H2 & H3). unfold unsaved. by rewrite E1, E2, E3. Qed.
Lemma keys_apart_committed L w w' : keys_apart w w' → committed L w → committed L w'.
Proof using Type. intros (E1 & E2 & E3 & _ & E5 & E6) (H1 & H2 & H3). unfold committed. by rewrite E1, E2, E5, E6. Qed.

Lemma key_fetched handed w : tidy w → hands handed →
  wp (runtimeBlobKeyWithContext id handed) (λ k w', k = key ∧ tidy w' ∧ keys_apart w w') (λ _ w', tidy w' ∧ keys_apart w w') w.
Proof using Type.
  intros Ht Hh. assert (Hr : keys_apart w w) by (split_and!; done). unfold runtimeBlobKeyWithContext. wp_steps. cbn [Datatypes.id].
  destruct (cachedRuntimeBlobKey id (w_node w)) as [k|] eqn:Ek; [wp_steps; split; [by apply Ht | done]|].
  wp_steps; [|done]. specialize (Hh _ ltac:(eassumption)). destruct (splitSnapshotFloor _) as [k floor]. cbn in Hh. subst k.
  destruct Ht as (Hk & Hl & Hm & Hc). split; [done|].
  assert (Hfloor : ∀ n, match floor with Some f => noteSnapshotFloor id f n | None => n end = n <| nd_floors := (match floor with Some f => noteSnapshotFloor id f n | None => n end).(nd_floors) |>).
  { intros n. destruct floor as [f|]; [|by destruct n]. unfold noteSnapshotFloor. destruct (nd_floors n !! id) as [c|]; [destruct (c <? f)|]; by destruct n. }
  assert (Hcache : ∀ n, cacheRuntimeBlobKey id key n = n <| nd_keys := (cacheRuntimeBlobKey id key n).(nd_keys) |>)
    by (intros n; unfold cacheRuntimeBlobKey; destruct (_ || _); by destruct n).
  split.
  - split_and!; try done; [|cbn; by rewrite Hcache, Hfloor]. cbn. intros k. rewrite Hfloor. unfold cacheRuntimeBlobKey.
    destruct (_ || _); [apply Hk|]. unfold cachedRuntimeBlobKey. cbn. rewrite lookup_insert_eq. destruct (TrimSpace id =?s ""); [done|]. by destruct key; intros [= <-].
  - unfold keys_apart. cbn. rewrite Hcache, Hfloor. by split_and!.
Qed.

(** **** Starting *)

(** The data directory holds the session. *)
Definition data_holds (L : Fs) (w : World) : Prop := ∃ D, w.(w_node).(nd_data) !! id = Some D ∧ good D ∧ same_content own L D.

Lemma committed_data (L : Fs) (w : World) (data : gmap string Fs) :
  committed L w → (∀ D, data !! id = Some D → good D ∧ (D ≠ ∅ → same_content own L D)) → committed L (w <| w_node ::= λ n, n <| nd_data := data |> |>).
Proof using Type. intros (H1 & H2 & _) Hd. by split_and!. Qed.

Lemma committed_set (L : Fs) (w : World) (D : Fs) : committed L w → good D → (D ≠ ∅ → same_content own L D) → committed L (w <| w_node ::= λ n, n <| nd_data ::= <[id := D]> |> |>).
Proof using Type.
  intros Hc Hg Hs. apply committed_data; [done|]. intros D'. rewrite lookup_insert_eq. intros [= <-]. done.
Qed.

Lemma finish_restored (L fs : Fs) (w : World) : tidy w → committed L w → good fs → same_content own L fs →
  wp (finish_restore link_exists id fs) (λ _ w', tidy w' ∧ committed L w' ∧ data_holds L w' ∧ w'.(w_cp) = w.(w_cp))
    (λ _ w', tidy w' ∧ committed L w') w.
Proof using Type.
  intros Ht Hc Hg Hs. unfold finish_restore, set_data. wp_steps.
  set (fs1 := repairLegacyAndroidSystemOwnership link_exists fs).
  assert (Hg1 : good fs1) by (by apply good_repaired).
  assert (Hs1 : same_content own L fs1).
  { etransitivity; [exact Hs|]. intros p _ _. unfold content, fs1. by rewrite (repair_node link_exists). }
  assert (Hc1 : committed L (w <| w_node ::= λ n, n <| nd_data ::= <[id := fs]> |> |> <| w_node ::= λ n, n <| nd_data ::= <[id := fs1]> |> |>)).
  { apply committed_set; [by apply committed_set | done | done]. }
  destruct (pruneEphemeralAndroidState fs1) as [e|fs2] eqn:Ep; [rewrite wp_throw; split; done|].
  destruct (prune_spec _ _ Ep Hg1) as [Hg2 H2]. assert (Hs2 : same_content own L fs2).
  { etransitivity; [exact Hs1|]. intros p _ He. unfold content. by rewrite H2. }
  wp_steps. split_and!; [done | by apply committed_set | | done]. exists fs2. split; [|done]. cbn. by rewrite lookup_insert_eq.
Qed.

Lemma restored (L : Fs) now m floor (w : World) : tidy w → committed L w → w.(w_cp).(cp_manifest) = Some m →
  wp (restore_manifest link_exists now id m key floor) (λ _ w', tidy w' ∧ committed L w' ∧ data_holds L w' ∧ w'.(w_cp) = w.(w_cp))
    (λ _ w', tidy w' ∧ committed L w') w.
Proof using H0.
  intros Ht Hc Hm. assert (Ho : ours m) by (by apply Ht). destruct Ho as (H3 & Hs & _ & Hf). unfold restore_manifest, blobStoreForManifest.
  rewrite Hs.
  assert ((TrimSpace blobStoreLocal =?s "") || (TrimSpace blobStoreLocal =?s blobStoreLocal) = true) as -> by reflexivity.
  unfold remove_data, make_data. wp_steps. cbn [Datatypes.id].
  set (w1 := w <| w_node ::= _ |> <| w_node ::= _ |>).
  assert (Hc1 : committed L w1).
  { unfold w1. destruct Hc as (Hc1 & Hc2 & Hc3). split_and!; [done | done |]. cbn. rewrite lookup_delete_eq, lookup_insert_eq.
    intros D [= <-]. split; [apply good_empty | done]. }
  assert (Ht1 : tidy w1) by exact Ht. assert (Hcp : w_cp w1 = w_cp w) by done. clearbody w1.
  destruct Hc1 as (Hn & Hh & Hd). assert (Hh' := Hh). rewrite Hcp, Hm in Hh'. destruct Hh' as (L' & HL & Hg & Hsn).
  rewrite (snapshot_restores _ _ _ _ _ now Hsn), Hf. wp_steps.
  eapply wp_mono; [apply (finish_restored L (omap (saved now) L') w1) | |]; try done.
  - by apply good_saved.
  - etransitivity; [exact HL|]. intros p _ _. apply content_saved.
  - intros _ w' (? & ? & ? & ?). split_and!; try done. congruence.
Qed.

(** What a failed check leaves. *)
Lemma wp_blob_call {A} (x : blob_error + A) (Q : A → World → Prop) (X : node_error → World → Prop) (w : World) :
  (∀ a, x = inr a → Q a w) → (∀ e, X e w) → wp (blob_call x) Q X w.
Proof using Type. intros HQ HX. destruct x as [e|a]; [rewrite wp_throw; by apply HX | rewrite wp_ret; by apply HQ]. Qed.

Lemma make_data_kept (L : Fs) (w : World) : unsaved L w ∨ committed L w →
  wp (make_data id) (λ _ w', (unsaved L w' ∨ committed L w') ∧ w' = w <| w_node ::= λ n, n <| nd_data := w'.(w_node).(nd_data) |> |>
    ∧ ∃ D, w'.(w_node).(nd_data) !! id = Some D ∧ default ∅ (w.(w_node).(nd_data) !! id) = D) (λ _ _, False) w.
Proof using Type.
  intros Hk. unfold make_data. wp_steps. split_and!; [| by destruct w as [[] []] |].
  - destruct Hk as [(Hm & (D & Hd & Hr) & Hs)|(Hn & Hh & Hd)].
    + left. split_and!; try done; [exists D; cbn; rewrite Hd; done | apply Hs | apply Hs].
    + right. split_and!; try done. cbn. intros D'. destruct (nd_data (w_node w) !! id) as [D|] eqn:E.
      * rewrite E. intros Hx. apply Hd. congruence.
      * rewrite lookup_insert_eq. intros [= <-]. split; [apply good_empty | done].
  - cbn. destruct (nd_data (w_node w) !! id) as [D|] eqn:E; [by exists D|]. exists ∅. by rewrite lookup_insert_eq.
Qed.

Lemma prepared (L : Fs) now runtime handed (w : World) : kept L w → assigned runtime w → hands handed → id ∉ w.(w_node).(nd_containers) →
  wp (prepareSessionData link_exists now runtime handed)
    (λ _ w', tidy w' ∧ (unsaved L w' ∨ committed L w') ∧ data_holds L w' ∧ w'.(w_cp) = w.(w_cp)) (λ _ w', kept L w') w.
Proof using H0.
  intros [Ht Hk] Ha Hh Hn. unfold prepareSessionData. cbv zeta. assert (Hid : as_ID runtime = id) by apply Ha. rewrite Hid.
  rewrite (assigned_manifest _ _ Ha Ht). wp_steps. eapply wp_mono; [by apply key_fetched | | intros _ w' [Ht' Hs]; cbn].
  2:{ split; [done|]. destruct Hk; [left; by eapply keys_apart_unsaved | right; by eapply keys_apart_committed]. }
  intros k w1 (-> & Ht1 & Hs1). cbn beta.
  assert (Hk1 : unsaved L w1 ∨ committed L w1) by (destruct Hk; [left; by eapply keys_apart_unsaved | right; by eapply keys_apart_committed]).
  destruct Hs1 as (Ecp & _ & _ & _ & _ & Econ). wp_steps. cbn [Datatypes.id].
  apply (wp_mono _ (λ _ w2, w2 = w1) _ (λ _ w2, w2 = w1)); [|intros [] w2 -> | intros e w2 ->; by split].
  { destruct (snapshotFloor id (w_node w1)); [apply wp_blob_call; done | by rewrite wp_ret]. }
  wp_steps. eapply wp_mono; [by apply (make_data_kept L) | | done].
  intros [] w2 (Hk2 & E2 & D & Hd2 & HD). cbn beta. rewrite wp_bind, wp_gets. cbn [Datatypes.id].
  assert (Ht2 : tidy w2) by (rewrite E2; exact Ht1). assert (Ecp2 : w_cp w2 = w_cp w) by (by rewrite E2).
  rewrite wp_if. split; intros Hb.
  - wp_steps. split_and!; try done. apply andb_prop in Hb as [_ Hb]. apply directory_entries_inv in Hb as (D' & Hd' & Hne).
    destruct Hk2 as [(_ & (D2 & HD2 & _ & Hg & Hs) & _)|(_ & _ & Hd)]; [by exists D2|]. exists D'. destruct (Hd D' Hd'). auto.
  - assert (Hc2 : committed L w2).
    { destruct Hk2 as [(Hm & (D2 & HD2 & Hne & _) & _)|?]; [|done]. unfold hasUnsavedSession in Hb.
      by rewrite bool_decide_eq_true_2, (directory_entries _ _ D2) in Hb by done. }
    destruct (cp_manifest (w_cp w)) as [m|] eqn:Em.
    + eapply wp_mono; [apply (restored L); [done | done | congruence] | |].
      * intros _ w' (? & ? & ? & E). split_and!; [done | by right | done | congruence].
      * intros _ w' [? ?]. split; [done | by right].
    + destruct Ht2 as (Hk2' & Hl2 & Hrest). rewrite Hl2. wp_steps. split_and!; try done.
      exists D. split; [done|]. destruct Hc2 as (_ & Hh2 & Hd). destruct (Hd D Hd2) as [Hg Hs]. split; [done|].
      destruct (decide (D = ∅)) as [->|]; [|by apply Hs]. by rewrite Ecp2, Em in Hh2.
Qed.

(** What is written into the data before a start is the node's own. *)
Definition prepares (f : Fs → Fs) : Prop := ∀ fs, good fs → good (f fs) ∧ f fs ≠ ∅ ∧ same_content own fs (f fs).

Lemma remove_container_kept (L : Fs) (w : World) : kept L w → kept L (w <| w_node ::= λ n, n <| nd_containers ::= (λ s, s ∖ {[id]}) |> |>).
Proof using Type.
  intros [Ht [Hu|(Hn & Hr)]]; (split; [exact Ht|]); [left; exact Hu | right]. split; [apply not_in_removed | done].
Qed.

Lemma mark_unsaved (L : Fs) (w : World) D :
  w.(w_node).(nd_data) !! id = Some D → D ≠ ∅ → good D → same_content own L D → w.(w_cp).(cp_running) = true ∨ w.(w_cp).(cp_stopped) = false →
  w.(w_cp).(cp_cleanup) = false → unsaved L (w <| w_node ::= λ n, n <| nd_unsaved ::= union {[id]} |> |>).
Proof using Type. intros Hd Hne Hg Hs Hr Hc. split_and!; try done; [apply in_marked | by exists D]. Qed.

Lemma started (L : Fs) now o runtime handed (w : World) :
  kept L w → assigned runtime w → hands handed → w.(w_cp).(cp_running) = true → (∀ f, o.(st_prepare) = Some f → prepares f) →
  wp (start_session link_exists now o runtime handed) (λ _ w', kept L w' ∧ data_holds L w' ∧ id ∈ w'.(w_node).(nd_containers)) (λ _ w', kept L w') w.
Proof using H0.
  intros Hk Ha Hh Hr Hprep. unfold start_session, external. cbv zeta. assert (Hid : as_ID runtime = id) by apply Ha. rewrite Hid.
  rewrite wp_bind, wp_refuse. split; intros _; [done|]. rewrite wp_bind, wp_gets. cbn [Datatypes.id]. rewrite wp_bind.
  apply (wp_mono _ (λ _ w1, kept L w1 ∧ id ∉ w1.(w_node).(nd_containers) ∧ w1.(w_cp) = w.(w_cp)) _ (λ _ w1, kept L w1)); [| |done].
  { case_bool_decide; wp_steps; try done. split_and!; [by apply remove_container_kept | apply not_in_removed | done]. }
  intros [] w1 (Hk1 & Hn1 & Ec1). rewrite wp_bind. eapply wp_mono; [apply (prepared L); try done | | done].
  { unfold assigned in *. by rewrite Ec1. }
  intros source w2 (Ht2 & Hk2 & (D & Hd & Hg & Hs) & Ec2). cbn beta. rewrite wp_bind, wp_require. split; [intros f Hf | intros _; by split].
  rewrite wp_bind, wp_gets. cbn [Datatypes.id]. rewrite Hd. cbn [default]. destruct (Hprep f Hf D Hg) as (Hg' & Hne & Hs'). unfold set_data. rewrite wp_bind, wp_modify.
  assert (Hs2 : same_content own L (f D)) by (by etransitivity).
  set (w3 := w2 <| w_node ::= _ |>). assert (Ht3 : tidy w3) by exact Ht2. assert (Hd3 : nd_data (w_node w3) !! id = Some (f D)) by apply lookup_insert_eq.
  assert (Ec3 : w_cp w3 = w_cp w) by (cbn; congruence).
  assert (Hk3 : kept L w3).
  { split; [done|]. destruct Hk2 as [(Hm & _ & Hx)|Hc]; [left | right; by apply committed_set]. split_and!; [done | by exists (f D) | apply Hx | apply Hx]. }
  clearbody w3. unfold markUnsavedSession. wp_steps; try done.
  all: assert (Hcl : cp_cleanup (w_cp w3) = false) by (apply Ht3; congruence).
  all: assert (Hk4 := mark_unsaved L w3 (f D) Hd3 Hne Hg' Hs2 ltac:(left; congruence) Hcl).
  { split; [exact Ht3 | by left]. }
  set (w4 := w3 <| w_node ::= _ |> <| w_node ::= _ |>). assert (Ht4 : tidy w4) by exact Ht3. assert (Hu4 : unsaved L w4) by exact Hk4.
  assert (Hd4 : data_holds L w4) by (exists (f D); split; [exact Hd3 | done]). assert (Hin : id ∈ nd_containers (w_node w4)) by apply in_marked. clearbody w4.
  assert (Hk5 : kept L (w4 <| w_cp ::= λ c, c <| cp_stopped := false |> |>)).
  { split; [exact Ht4 | left]. destruct Hu4 as (Hu1 & Hu2 & _ & Hu4). split_and!; try done. by right. }
  unfold report. destruct (st_report o); wp_steps; try done; split; try done; by left.
Qed.

(** **** Stopping *)

(** Only the store's objects differ. *)
Definition blobs_apart (w w' : World) : Prop := w' = w <| w_node ::= λ n, n <| nd_blobs := w'.(w_node).(nd_blobs) |> |>.
#[local] Instance blobs_apart_preorder : PreOrder blobs_apart.
Proof using Type.
  unfold blobs_apart. split; [intros [[] []]; done|]. intros w1 w2 w3 -> E. rewrite E. by destruct w1 as [[] []].
Qed.
Lemma blobs_apart_set (w : World) f : blobs_apart w (w <| w_node ::= λ n, n <| nd_blobs ::= f |> |>).
Proof using Type. by destruct w as [[] []]. Qed.
Lemma delete_chunks_apart m : stable blobs_apart (delete_chunks m).
Proof using Type. intros w. unfold delete_chunks. destruct (deleteManifest m _). by destruct w as [[] []]. Qed.
Lemma blob_call_apart {A} (x : blob_error + A) : stable blobs_apart (blob_call x : Op A).
Proof using Type. destruct x; intros w; by destruct w as [[] []]. Qed.

Lemma clearManifestChunks_apart runtime : stable blobs_apart (clearManifestChunks runtime).
Proof using Type.
  unfold clearManifestChunks. apply stable_bind; [apply _ | apply blob_call_apart|]. intros [m|]; [|apply stable_ret; apply _].
  destruct (_ =? _)%nat; [apply stable_ret; apply _|].
  repeat (apply stable_bind; [apply _ | solve [apply blob_call_apart | apply delete_chunks_apart] | intros []]).
  destruct (bm_MigrationFallback m); [|apply stable_ret; apply _]. apply stable_bind; [apply _ | apply blob_call_apart | intros []; apply delete_chunks_apart].
Qed.

Lemma blobs_apart_tidy w w' : blobs_apart w w' → tidy w → tidy w'.
Proof using Type. intros ->. done. Qed.
Lemma blobs_apart_unsaved L w w' : blobs_apart w w' → unsaved L w → unsaved L w'.
Proof using Type. intros ->. done. Qed.
Lemma blobs_apart_committed (L : Fs) (w w' : World) : blobs_apart w w' → committed L w →
  (∀ m L', w.(w_cp).(cp_manifest) = Some m → snapshot_of id key L' m w.(w_node).(nd_blobs) → snapshot_of id key L' m w'.(w_node).(nd_blobs)) → committed L w'.
Proof using Type.
  intros E (Hn & Hh & Hd) Hs. rewrite E. split_and!; [done | | done]. cbn. unfold snapshot_holds in *. destruct (cp_manifest (w_cp w)) as [m|]; [|done].
  destruct Hh as (L' & HL & Hg & Hsn). exists L'. split_and!; auto.
Qed.

Lemma blobStoreForManifest_ours m : ours m → blobStoreForManifest m = inr tt.
Proof using Type. intros (_ & Hs & _). unfold blobStoreForManifest. rewrite Hs. reflexivity. Qed.

Lemma differs_ours p m : ours p → ours m → differs p m = true → p.(bm_SnapshotID) ≠ m.(bm_SnapshotID).
Proof using Type.
  intros (_ & Hs & Hb & _) (_ & Hs' & Hb' & _). unfold differs. rewrite Hs, Hs', Hb, Hb', !str_eqb_refl. cbn [negb orb].
  intros Hd%negb_true_iff. by apply str_eqb_neq.
Qed.

Lemma cleaned (L : Fs) runtime previous (w : World) :
  tidy w → committed L w → runtime.(as_ID) = id → parseBlobManifest runtime.(as_BlobManifestJSON) = inr previous → (∀ p, previous = Some p → ours p) →
  wp (cleanupBlobStorage runtime w.(w_cp).(cp_manifest)) (λ _ w', tidy w' ∧ committed L w' ∧ w'.(w_cp) = w.(w_cp)) (λ _ w', tidy w' ∧ committed L w') w.
Proof using Type.
  intros Ht Hc Hid Hp Hours. unfold cleanupBlobStorage, remove_legacy. cbv zeta. rewrite Hid, wp_bind, wp_modify.
  set (w1 := w <| w_node ::= _ |>). assert (Ec : w_cp w1 = w_cp w) by done.
  assert (Ht1 : tidy w1).
  { destruct Ht as (H1 & H2 & H3). split_and!; try done; cbn; [by rewrite lookup_delete_eq | apply H3 | apply H3]. }
  assert (Hc1 : committed L w1) by exact Hc. clearbody w1. clear Ht Hc. rewrite <-Ec. clear Ec w. rename w1 into w.
  destruct (cp_manifest (w_cp w)) as [m|] eqn:Em.
  - assert (Hm : ours m) by (by apply Ht1). rewrite (blobStoreForManifest_ours m Hm), Hp, wp_bind, wp_ret, wp_bind, wp_ret, wp_bind.
    apply (wp_mono _ (λ _ w', tidy w' ∧ committed L w' ∧ w_cp w' = w_cp w) _ (λ _ w', tidy w' ∧ committed L w')); [| |done].
    + destruct previous as [p|]; cbv beta iota; [|by rewrite wp_ret]. rewrite wp_if. split; intros Hd; [|by rewrite wp_ret].
      apply andb_prop in Hd as [_ Hd]. assert (Hpo := Hours p eq_refl). assert (Hne := differs_ours _ _ Hpo Hm Hd). rewrite wp_bind.
      apply wp_blob_call; [intros [] Hv | intros; by split]. rewrite (blobStoreForManifest_ours p Hpo), wp_bind, wp_ret.
      unfold delete_chunks, wp. destruct (deleteManifest p (nd_blobs (w_node w))) as [blobs r] eqn:Ed.
      set (w' := w <| w_node ::= λ n, n <| nd_blobs := blobs |> |>).
      assert (Hc' : committed L w').
      { eapply blobs_apart_committed; [by apply blobs_apart_set | exact Hc1 |]. intros m' L'. rewrite Em. intros [= <-] Hsn. cbn.
        replace blobs with (deleteManifest p (nd_blobs (w_node w))).1 by (by rewrite Ed). destruct Hpo as (Hv3 & _). by apply snapshot_delete_other. }
      destruct r as [e|[]]; by split_and!.
    + intros [] w2 (Ht2 & Hc2 & Ec2). rewrite wp_modify. split_and!; [done | | done].
      eapply blobs_apart_committed; [by apply blobs_apart_set | exact Hc2 |]. intros m' L'. rewrite Ec2, Em. intros [= <-] Hsn. cbn. by apply snapshot_prune.
  - unfold clear_blobs. rewrite wp_bind. pose proof (clearManifestChunks_apart runtime w) as Ha.
    assert (Hw : ∀ w', blobs_apart w w' → tidy w' ∧ committed L w').
    { intros w' Hw. split; [by eapply blobs_apart_tidy|]. eapply blobs_apart_committed; [done | done |]. intros m L'. by rewrite Em. }
    unfold wp. destruct (clearManifestChunks runtime w) as [w' [e|[]]]; cbn [fst] in Ha; [by apply Hw|]. cbn.
    assert (Hw2 : blobs_apart w (w' <| w_node ::= λ n, n <| nd_blobs ::= clearRuntime id |> |>)) by (etransitivity; [exact Ha | apply blobs_apart_set]).
    split; [by apply Hw | split; [by apply Hw|]]. cbn. by rewrite Ha.
Qed.

Lemma or_discard_wp {A} m (x : blob_error + A) (Q : A → World → Prop) (X : node_error → World → Prop) w0 (w : World) :
  blobs_apart w0 w → (∀ a, x = inr a → Q a w) → (∀ e w', blobs_apart w0 w' → X e w') → wp (or_discard m x) Q X w.
Proof using Type.
  intros Hw HQ HX. destruct x as [e|a]; cbn [or_discard]; [|rewrite wp_ret; by apply HQ]. wp_steps. apply HX. etransitivity; [exact Hw | apply blobs_apart_set].
Qed.

Lemma next_generation_positive previous floor g : nextSnapshotGeneration previous floor = inr g → 0 < g.
Proof using Type.
  unfold nextSnapshotGeneration. destruct previous as [p|]; [destruct (_ || _) eqn:E; [done|]; apply orb_false_iff in E as [E%Z.ltb_ge _]|];
    (destruct floor as [f|]; [match goal with |- context [?x <=? f] => destruct (Z.leb_spec x f) end|]; intros [= <-]; lia).
Qed.

Definition random_ok (random : Randomness) : Prop := length random.(rn_salt) = 32%nat ∧ length random.(rn_nonce) = 16%nat.

(** What is committed of a saved snapshot. *)
Lemma finished_manifest D random blobs m blobs' g m' :
  good D → random_ok random → persistFromDir blobChunkSize order random id D key blobs = inr (m, blobs') → 0 ≤ g →
  authenticateBlobManifest (m <| bm_Generation := g |> <| bm_MigrationFallback := None |>) key id = inr m' →
  ours m' ∧ snapshot_of id key D m' blobs' ∧ m'.(bm_Generation) = g.
Proof using H0 order_perm id_named.
  intros [Hok Hshort] [Hsalt Hnonce] Hp Hg Ha.
  assert (Hb : m.(bm_Bucket) = ""%string).
  { revert Hp. unfold persistFromDir. destruct (_ || _); [done|]. destruct (writeSnapshot _ _ _ _ _); [done|]. destruct (read_chunks _ _ _); [|done].
    destruct (_ =? _)%nat; [done|]. unfold authenticateBlobManifest. destruct (negb _); [done|]. destruct (validateBlobManifestForRuntime _ _); [done|].
    destruct (existsb _ _); [done|]. intros Heq. injection Heq as <- _. reflexivity. }
  destruct (persist_spec _ _ _ _ _ _ _ _ _ Hok order_perm Hshort Hsalt Hnonce id_named Hp) as (Hsn & Hns & _).
  assert (Hsn' := Hsn). destruct Hsn' as (_ & Hv & _ & H3 & Hs & _).
  destruct (with_generation m g None) as (E1 & E2 & E3 & E4 & E5 & E6 & E7 & E8). cbv zeta in *.
  set (m1 := m <| bm_Generation := g |> <| bm_MigrationFallback := None |>) in *.
  destruct (authenticated_verifies m1 key id m' Ha ltac:(congruence)) as [Hver Hv3].
  set (mac := HMAC (runtimeManifestMACKey key id) (blobManifestMACPayload m1)).
  assert (Em : m' = m1 <| bm_ManifestMAC := hex_encode mac |>).
  { unfold authenticateBlobManifest in Ha. destruct (negb _); [done|]. by injection Ha as <-. }
  assert (Hval : validateBlobManifestForRuntime m' id = inr tt).
  { rewrite Em. apply valid_generation; [exact Hv | exact H3 | exact Hg | apply HMAC_length | apply HMAC_octets]. }
  assert (Hf : m'.(bm_Store) = m1.(bm_Store) ∧ m'.(bm_Bucket) = m1.(bm_Bucket) ∧ m'.(bm_Chunks) = m1.(bm_Chunks)
    ∧ m'.(bm_Generation) = m1.(bm_Generation) ∧ m'.(bm_MigrationFallback) = m1.(bm_MigrationFallback)) by (rewrite Em; clearbody mac m1; clear; by destruct m1).
  clear Em. clearbody mac m1. destruct Hf as (F1 & F2 & F3 & F4 & F5). split; [|split; [|congruence]].
  - split_and!; congruence.
  - eapply snapshot_of_same; [exact Hsn | congruence | congruence | exact Hv3 | exact Hval | exact Hver].
Qed.

Lemma persisted_saved L random runtime w : tidy w → unsaved L w → runtime.(as_ID) = id → runtime.(as_BlobAutoSnapshot) = true →
  parseBlobManifest runtime.(as_BlobManifestJSON) = inr w.(w_cp).(cp_manifest) → random_ok random →
  wp (persistSessionData order random runtime (Some key))
    (λ persisted w', blobs_apart w w' ∧ ∃ m D, persisted = MkPersisted (Some m) false ∧ ours m ∧ good D ∧ same_content own L D
       ∧ snapshot_of id key D m w'.(w_node).(nd_blobs)) (λ _ w', blobs_apart w w') w.
Proof using H0 order_perm id_named.
  intros Ht (_ & (D & Hd & Hne & Hg & Hs) & _) Hid Hauto Hparse Hrandom. unfold persistSessionData. cbv zeta. rewrite Hid, Hauto, wp_bind, wp_gets.
  cbn [Datatypes.id]. rewrite (directory_entries _ _ D Hd Hne). cbn [negb orb]. rewrite Hd. cbn [default require]. rewrite wp_bind, wp_ret, wp_bind.
  apply wp_blob_call; [|intros; reflexivity]. intros [m blobs'] Hp. cbv beta iota. rewrite wp_bind, wp_modify.
  set (w1 := w <| w_node ::= _ |>). assert (Ha : blobs_apart w w1) by apply (blobs_apart_set w (λ _, blobs')).
  assert (Hb1 : nd_blobs (w_node w1) = blobs') by done. clearbody w1. rewrite Hparse.
  rewrite wp_bind. eapply or_discard_wp; [exact Ha | intros previous Hprev | done]. injection Hprev as <-.
  rewrite wp_bind. eapply or_discard_wp; [exact Ha | intros g Hgen | done]. apply next_generation_positive in Hgen.
  assert (Hm : m.(bm_Store) = blobStoreLocal).
  { destruct Hg as [Hok Hshort], Hrandom as [Hsalt Hnonce].
    destruct (persist_spec _ _ _ _ _ _ _ _ _ Hok order_perm Hshort Hsalt Hnonce id_named Hp) as ((_ & _ & _ & _ & Hst & _) & _). done. }
  assert (fallback_of (cp_manifest (w_cp w)) m key id = inr None) as ->.
  { unfold fallback_of. destruct (cp_manifest (w_cp w)) as [p|] eqn:Ep; [|done]. destruct Ht as (_ & _ & Ho & _). destruct (Ho p Ep) as (_ & Hps & _).
    by rewrite Hps, Hm, str_eqb_refl. }
  cbn [or_discard]. rewrite wp_bind, wp_ret, wp_bind. eapply or_discard_wp; [exact Ha | intros m' Hauth | done].
  destruct (finished_manifest D random _ m blobs' g m' Hg Hrandom Hp ltac:(lia) Hauth) as (Hours & Hsn & _).
  rewrite wp_bind. eapply or_discard_wp; [exact Ha | intros _ _ | done]. rewrite wp_ret. split; [exact Ha|]. exists m', D. split_and!; try done. by rewrite Hb1.
Qed.

(** What a stop has when it reports: a snapshot of the unsaved session, or
    nothing to save. *)
Definition saved_as (L : Fs) (persisted : persistedBlob) (shouldPersist : bool) (w : World) : Prop :=
  if shouldPersist
  then unsaved L w ∧ ∃ m D, persisted = MkPersisted (Some m) false ∧ ours m ∧ good D ∧ same_content own L D ∧ snapshot_of id key D m w.(w_node).(nd_blobs)
  else persisted = MkPersisted None false ∧ committed L w.

Lemma discard_apart persisted : stable blobs_apart (discardUncommittedBlob persisted).
Proof using Type.
  unfold discardUncommittedBlob. destruct (pb_Manifest persisted); [|apply stable_ret; apply _].
  apply stable_bind; [apply _ | apply blob_call_apart | intros []; apply delete_chunks_apart].
Qed.

Lemma kept_discard L persisted (w : World) : tidy w → unsaved L w → kept L (discardUncommittedBlob persisted w).1.
Proof using Type.
  intros Ht Hu. pose proof (discard_apart persisted w) as Ha. split; [by eapply blobs_apart_tidy | left; by eapply blobs_apart_unsaved].
Qed.

Lemma to_persist (L : Fs) runtime (w : World) : kept L w → assigned runtime w → w.(w_cp).(cp_running) = false →
  let cleanupPending := runtime.(as_CleanupPending) || is_stopped runtime.(as_Status) in
  if negb cleanupPending && (bool_decide (id ∈ w.(w_node).(nd_containers)) || directoryHasEntries w.(w_node) id)
  then unsaved L (w <| w_node ::= λ n, n <| nd_unsaved ::= union {[id]} |> |>)
  else committed L w.
Proof using Type.
  intros [Ht Hk] (_ & Ec & Es & _) Hr cleanupPending. unfold cleanupPending. rewrite Ec, Es. destruct (_ && _) eqn:E.
  - apply andb_prop in E as [E1 E2]. apply negb_true_iff, orb_false_iff in E1 as [E1 E1'].
    destruct Hk as [(_ & (D & Hd & Hne & Hg & Hs) & _)|(Hn & _ & Hd)]; [by eapply mark_unsaved; try done; right|].
    rewrite bool_decide_eq_false_2 in E2 by done. apply directory_entries_inv in E2 as (D & HD & Hne). destruct (Hd D HD) as [Hg Hs].
    eapply mark_unsaved; try done; [by apply Hs | by right].
  - destruct Hk as [(_ & (D & Hd & Hne & _) & Hst & Hcl)|Hc]; [|done]. exfalso. destruct Hst as [Hst|Hst]; [congruence|].
    by rewrite Hcl, Hst, (directory_entries _ _ D Hd Hne), orb_true_r in E.
Qed.

Lemma session_saved (L : Fs) o random runtime handed (w : World) :
  kept L w → assigned runtime w → hands handed → w.(w_cp).(cp_running) = false → random_ok random →
  wp (save_session order o random runtime handed)
    (λ '(persisted, shouldPersist) w', tidy w' ∧ id ∉ w'.(w_node).(nd_containers) ∧ w'.(w_cp) = w.(w_cp) ∧ saved_as L persisted shouldPersist w')
    (λ _ w', kept L w') w.
Proof using H0 order_perm id_named.
  intros Hk Ha Hh Hr Hrandom. assert (Hto := to_persist L runtime w Hk Ha Hr). destruct Hk as [Ht Hk]. unfold save_session, external. cbv zeta in *.
  assert (Hid : as_ID runtime = id) by apply Ha. assert (Hp := assigned_manifest _ _ Ha Ht). rewrite Hid.
  rewrite wp_bind, wp_refuse. split; intros _; [by split|]. rewrite wp_bind, wp_gets. cbn [Datatypes.id].
  destruct (negb _ && _) eqn:Esp.
  - rewrite wp_bind. unfold markUnsavedSession. rewrite wp_bind, wp_modify. set (w1 := w <| w_node ::= _ |>) in *. assert (Ht1 : tidy w1) by exact Ht.
    assert (Ec1 : w_cp w1 = w_cp w) by done. assert (En1 : nd_containers (w_node w1) = nd_containers (w_node w)) by done. clearbody w1.
    assert (Hauto : as_BlobAutoSnapshot runtime = true) by apply Ha. unfold prepareSessionPersistence, external. rewrite Hauto, Hid. cbn [negb].
    rewrite wp_bind. eapply wp_mono; [by apply key_fetched | | intros e w' [? ?]; split; [done | left; by eapply keys_apart_unsaved]].
    intros k w2 (-> & Ht2 & Ea2). cbn beta. assert (Hu2 : unsaved L w2) by (by eapply keys_apart_unsaved). destruct Ea2 as (Ec2 & _ & _ & _ & _ & En2).
    rewrite wp_bind, wp_refuse. split; intros _; [split; [done | by left]|]. rewrite wp_ret.
    rewrite wp_bind. apply (wp_mono _ (λ _ w', w' = w2) _ (λ _ w', w' = w2)); [| |intros e w' ->; split; [done | by left]].
    { case_bool_decide; wp_steps; done. }
    intros [] w' ->. rewrite wp_bind. eapply wp_mono; [apply (persisted_saved L); try done; congruence | |].
    2:{ intros e w' Hw'. cbv beta in Hw'. split; [by eapply blobs_apart_tidy | left; by eapply blobs_apart_unsaved]. }
    intros persisted w3 (Ea3 & Hsaved). cbn beta. assert (Ht3 : tidy w3) by (by eapply blobs_apart_tidy). assert (Hu3 : unsaved L w3) by (by eapply blobs_apart_unsaved).
    assert (Ec3 : w_cp w3 = w_cp w) by (rewrite Ea3; cbn; congruence). assert (En3 : nd_containers (w_node w3) = nd_containers (w_node w)) by (rewrite Ea3; cbn; congruence).
    clear Ea3. rewrite wp_bind. case_bool_decide as Hcon.
    + destruct (so_remove o).
      * rewrite wp_modify, wp_ret. split_and!; try done. apply not_in_removed.
      * unfold wp, failing_after. pose proof (kept_discard L persisted w3 Ht3 Hu3) as Hd. by destruct (discardUncommittedBlob persisted w3).
    + rewrite !wp_ret. split_and!; try done. by rewrite En3.
  - rewrite wp_bind, wp_ret, wp_bind.
    apply (wp_mono _ (λ _ w', w' = w) _ (λ _ w', w' = w)); [case_bool_decide; wp_steps; done | | intros e w' ->; by split].
    intros [] w' ->. rewrite wp_bind, wp_ret, wp_bind. destruct (bool_decide (id ∈ nd_containers (w_node w))) eqn:Hcon.
    { apply bool_decide_eq_true in Hcon. by destruct Hto as [? _]. }
    rewrite !wp_ret. split_and!; try done. by apply bool_decide_eq_false in Hcon.
Qed.

(** The manifest after the report, and that it commits the session. *)
Lemma session_committed (L : Fs) o persisted (sp : bool) (w : World) :
  tidy w → id ∉ w.(w_node).(nd_containers) → w.(w_cp).(cp_running) = false → saved_as L persisted sp w →
  wp (commit_session o persisted)
    (λ _ w', tidy w' ∧ committed L w' ∧ w'.(w_cp).(cp_manifest) = (if sp then persisted.(pb_Manifest) else w.(w_cp).(cp_manifest)))
    (λ _ w', kept L w') w.
Proof using Type.
  intros Ht Hn Hr Hs.
  assert (Hk : kept L w) by (split; [done|]; destruct sp; [left; apply Hs | right; apply Hs]).
  assert (Hup : let w' := w <| w_cp ::= stopped_report persisted false |> in tidy w' ∧ committed L w'
    ∧ w'.(w_cp).(cp_manifest) = (if sp then persisted.(pb_Manifest) else w.(w_cp).(cp_manifest))).
  { destruct Ht as (Hkey & Hl & Hm & Hc). cbv zeta. unfold tidy, committed. destruct sp.
    - destruct Hs as ((_ & (D' & HD' & Hne' & Hg' & Hs') & _) & m & D & -> & Ho & Hg & Hsc & Hsn). split_and!; try done; cbn.
      + by intros m' [= <-].
      + by rewrite Hr.
      + by exists D.
      + intros D1 HD1. rewrite HD' in HD1. injection HD1 as <-. done.
    - destruct Hs as [-> (Hn' & Hh & Hd)]. split_and!; try done; cbn. by rewrite Hr. }
  unfold commit_session, report. destruct o; wp_steps.
  - exact Hup.
  - destruct sp.
    + unfold wp, failing_after. pose proof (kept_discard L persisted w Ht ltac:(apply Hs)) as Hd. by destruct (discardUncommittedBlob persisted w).
    + destruct Hs as [-> Hs]. unfold wp, failing_after. cbn. done.
  - done.
  - destruct Hup as (? & ? & _). split; [done | by right].
Qed.

Lemma session_cleaned (L : Fs) o runtime persisted (sp : bool) previous (w : World) :
  tidy w → committed L w → runtime.(as_ID) = id → parseBlobManifest runtime.(as_BlobManifestJSON) = inr previous → (∀ p, previous = Some p → ours p) →
  w.(w_cp).(cp_manifest) = (if sp then persisted.(pb_Manifest) else previous) → (if sp then is_Some persisted.(pb_Manifest) else persisted = MkPersisted None false) →
  wp (clean_session o runtime persisted sp) (λ _ w', kept L w') (λ _ w', kept L w') w.
Proof using Type.
  intros Ht Hc Hid Hparse Hours Hm Hpers. unfold clean_session, external, remove_data, clearUnsavedSession, clearCachedRuntimeBlobKey. cbv zeta. rewrite Hid.
  rewrite wp_bind, wp_refuse. split; intros _; [split; [done | by right]|]. rewrite wp_bind, wp_modify. set (w1 := w <| w_node ::= _ |>).
  assert (Ht1 : tidy w1) by exact Ht. assert (Hc1 : committed L w1) by (destruct Hc as (? & ? & _); split_and!; try done; cbn; rewrite lookup_delete_eq; done).
  assert (Ec1 : w_cp w1 = w_cp w) by done. clearbody w1.
  rewrite wp_bind, wp_refuse. split; intros _; [split; [done | by right]|]. rewrite wp_bind, wp_modify. set (w2 := w1 <| w_node ::= _ |>).
  assert (Ht2 : tidy w2) by exact Ht1. assert (Hc2 : committed L w2) by exact Hc1. assert (Ec2 : w_cp w2 = w_cp w) by exact Ec1. clearbody w2.
  rewrite wp_bind, wp_refuse. split; intros _; [split; [done | by right]|].
  set (pending := as_CleanupPending runtime || is_stopped (as_Status runtime)).
  rewrite wp_bind. apply (wp_mono _ (λ r w', w' = w2 ∧ (sp || pending = true → r = cp_manifest (w_cp w2))) _ (λ _ w', w' = w2)).
  { rewrite Hparse, Ec2, Hm. destruct sp; [destruct Hpers as [m ->] | subst persisted]; destruct pending; cbn [pb_Manifest is_none andb orb]; by rewrite wp_ret. }
  2:{ intros e w' ->. split; [done | by right]. }
  intros retained w' [-> Hret]. rewrite wp_bind.
  apply (wp_mono _ (λ _ w', tidy w' ∧ committed L w' ∧ w_cp w' = w_cp w2) _ (λ _ w', tidy w' ∧ committed L w')).
  { destruct (sp || pending); [|by rewrite wp_ret]. rewrite Hret by done. by eapply cleaned. }
  2:{ intros e w' [? ?]. split; [done | by right]. }
  intros [] w3 (Ht3 & Hc3 & Ec3). rewrite wp_bind, wp_modify. set (w4 := w3 <| w_node ::= _ |>).
  assert (Ht4 : tidy w4).
  { destruct Ht3 as (Hk & Hrest). split; [|exact Hrest]. intros k. unfold cachedRuntimeBlobKey, w4. cbn. rewrite lookup_delete_eq. by destruct (_ =?s _). }
  assert (Hc4 : committed L w4) by exact Hc3. assert (Ec4 : w_cp w4 = w_cp w) by (cbn; congruence). clearbody w4.
  assert (Hup : kept L (w4 <| w_cp ::= stopped_report persisted true |>)).
  { assert (Em4 : (stopped_report persisted true (w_cp w4)).(cp_manifest) = cp_manifest (w_cp w4)).
    { cbn. rewrite Ec4, Hm. destruct sp; [destruct Hpers as [m ->]; done | by subst persisted]. }
    destruct Ht4 as (Hk & Hl & Ho & Hcl), Hc4 as (Hn4 & Hh4 & Hd4). split; [|right]; unfold tidy, committed; cbn [w_cp w_node set_field]; rewrite ?Em4; by split_and!. }
  unfold report. destruct (so_acknowledge o); wp_steps; try exact Hup; (split; [done | by right]).
Qed.

Lemma stopped (L : Fs) o random runtime handed (w : World) :
  kept L w → assigned runtime w → hands handed → w.(w_cp).(cp_running) = false → random_ok random →
  wp (ensureRuntimeStopped order o random runtime handed) (λ _ w', kept L w') (λ _ w', kept L w') w.
Proof using H0 order_perm id_named.
  intros Hk Ha Hh Hr Hrandom. unfold ensureRuntimeStopped. rewrite wp_bind. eapply wp_mono; [by apply (session_saved L) | | done].
  intros [persisted sp] w1 (Ht1 & Hn1 & Ec1 & Hs1). cbv beta iota. rewrite wp_bind.
  assert (Hpers : if sp then is_Some persisted.(pb_Manifest) else persisted = MkPersisted None false).
  { destruct sp; [destruct Hs1 as (_ & m & D & -> & _); by eexists | apply Hs1]. }
  assert (Hparse := assigned_manifest _ _ Ha ltac:(apply Hk)).
  eapply wp_mono; [apply (session_committed L); [exact Ht1 | exact Hn1 | congruence | exact Hs1] | | done].
  intros [] w2 (Ht2 & Hc2 & Em2). apply (session_cleaned L _ _ _ _ _ w2 Ht2 Hc2 ltac:(apply Ha) Hparse); [apply Hk | by rewrite Em2, Ec1 | exact Hpers].
Qed.

(** *** Histories *)

(** What can happen to the runtime: the node starts or stops it (with whatever
    outcome), the guest writes its data, the user asks the control plane to start
    or stop it (StartRuntime refuses while a cleanup is pending), a failure is
    reported, the node agent restarts and forgets its keys and floors. *)
Inductive event :=
  | Starts (now : Z) (o : StartOutcome) (runtime : Assignment) (handed : option (list N))
  | Stops (o : StopOutcome) (random : Randomness) (runtime : Assignment) (handed : option (list N))
  | GuestWrites (fs : Fs) | RequestsStart | RequestsStop | ReportsError | Restarts.

Definition happens (e : event) (w : World) : World :=
  match e with
  | Starts now o runtime handed => (start_session link_exists now o runtime handed w).1
  | Stops o random runtime handed => (ensureRuntimeStopped order o random runtime handed w).1
  | GuestWrites fs => w <| w_node ::= λ n, n <| nd_data ::= <[id := fs]> |> |>
  | RequestsStart => w <| w_cp ::= λ c, if c.(cp_running) || c.(cp_cleanup) then c else c <| cp_running := true |> <| cp_stopped := false |> |>
  | RequestsStop => w <| w_cp ::= λ c, if c.(cp_running) then c <| cp_running := false |> <| cp_stopped := false |> else c |>
  | ReportsError => w <| w_cp ::= λ c, c <| cp_stopped := false |> |>
  | Restarts => w <| w_node ::= λ n, n <| nd_keys := ∅ |> <| nd_floors := ∅ |> |>
  end.

(** The node acts on the assignment it has just fetched and on the runtime's key;
    the guest writes while its container exists, and leaves a tree. *)
Definition possible (e : event) (w : World) : Prop :=
  match e with
  | Starts _ o runtime handed =>
    assigned runtime w ∧ hands handed ∧ w.(w_cp).(cp_running) = true ∧ ∀ f, o.(st_prepare) = Some f → prepares f
  | Stops _ random runtime handed => assigned runtime w ∧ hands handed ∧ w.(w_cp).(cp_running) = false ∧ random_ok random
  | GuestWrites fs => id ∈ w.(w_node).(nd_containers) ∧ good fs ∧ fs ≠ ∅
  | _ => True
  end.

(** The session is what the guest wrote last. *)
Inductive history (w0 : World) : Fs → World → Prop :=
  | history_start : history w0 ∅ w0
  | history_step L w e : history w0 L w → possible e w → history w0 (match e with GuestWrites fs => fs | _ => L end) (happens e w).

(** A runtime that never ran. *)
Definition never_ran (w : World) : Prop :=
  w.(w_node).(nd_data) !! id = None ∧ w.(w_node).(nd_legacy) !! id = None ∧ id ∉ w.(w_node).(nd_containers)
  ∧ cachedRuntimeBlobKey id w.(w_node) = None ∧ w.(w_cp) = MkCp None false true false.

Lemma happens_kept (L : Fs) (w : World) e : kept L w → possible e w → kept (match e with GuestWrites fs => fs | _ => L end) (happens e w).
Proof using H0 order_perm id_named.
  intros Hk Hp. destruct e; cbn [happens possible] in *.
  - destruct Hp as (Ha & Hh & Hr & Hpr). pose proof (started L now o runtime handed w Hk Ha Hh Hr Hpr) as Hs. unfold wp in Hs.
    destruct (start_session _ _ _ _ _ w) as [w' [?|?]]; [exact Hs | apply Hs].
  - destruct Hp as (Ha & Hh & Hr & Hran). pose proof (stopped L o random runtime handed w Hk Ha Hh Hr Hran) as Hs. unfold wp in Hs.
    by destruct (ensureRuntimeStopped _ _ _ _ _ w) as [w' [?|?]].
  - destruct Hp as (Hin & Hg & Hne), Hk as [Ht [(Hm & _ & Hr)|(Hn & _)]]; [|done]. split; [exact Ht | left]. split_and!; [done | | apply Hr | apply Hr].
    exists fs. split; [apply lookup_insert_eq | by split_and!].
  - destruct Hk as [Ht Hk]. assert (Ht' := Ht). destruct Ht' as (Ht1 & Ht2 & Ht3 & Ht4). destruct w as [n [m r st cl]]. cbn in *. destruct r, cl; cbn; try (by split).
    split; [by split_and!|]. destruct Hk as [(Hu1 & Hu2 & _)|Hc]; [left | right; exact Hc]. split_and!; try done. by left.
  - destruct Hk as [Ht Hk]. assert (Ht' := Ht). destruct Ht' as (Ht1 & Ht2 & Ht3 & Ht4). destruct w as [n [m r st cl]]. cbn in *. destruct r; cbn; [|by split].
    split; [by split_and!|]. destruct Hk as [(Hu1 & Hu2 & Hu3)|Hc]; [left | right; exact Hc]. split_and!; try done; [by right | apply Hu3].
  - destruct Hk as [Ht Hk]. split; [exact Ht|]. destruct Hk as [(Hu1 & Hu2 & Hu3)|Hc]; [left | right; exact Hc]. split_and!; try done; [by right | apply Hu3].
  - destruct Hk as [(Ht1 & Ht) Hk]. split; [|exact Hk]. split; [|exact Ht]. intros k. unfold cachedRuntimeBlobKey. cbn. rewrite lookup_empty. by destruct (_ =?s _).
Qed.

Lemma history_kept (w0 w : World) (L : Fs) : never_ran w0 → history w0 L w → kept L w.
Proof using H0 order_perm id_named.
  intros (Hd & Hl & Hn & Hk & Hc). induction 1 as [|L w e _ IH Hp]; [|by apply happens_kept].
  split; [|right]; unfold tidy, committed; rewrite ?Hd, ?Hl, ?Hk, ?Hc; by split_and!.
Qed.
End keeping.

(** *** Wiping *)

Lemma delete_objects_gone cs blobs blobs' : delete_objects blobs cs = (blobs', inr tt) →
  blobs' ⊆ blobs ∧ ∀ c key, c ∈ cs → object_key c.(ch_Key) = inr key → blobs' !! key = None.
Proof.
  revert blobs. induction cs as [|c cs IH]; intros blobs; cbn [delete_objects].
  - intros [= <-]. split; [done|]. intros c key Hc. by apply not_elem_of_nil in Hc.
  - destruct (object_key (ch_Key c)) as [e|k] eqn:Ek; [done|]. intros [Hsub Hgone]%IH. split; [etransitivity; [exact Hsub | apply delete_subseteq]|].
    intros c' key [->|Hc]%elem_of_cons Hk; [|by eapply Hgone]. rewrite Ek in Hk. injection Hk as <-. destruct (blobs' !! k) as [b|] eqn:E; [|done].
    pose proof (lookup_weaken _ _ _ _ E Hsub) as Hx. by rewrite lookup_delete_eq in Hx.
Qed.

(** Of the store, only a runtime's own directory and what its manifest lists go. *)
Lemma clearSnapshot_spec runtime m (w w' : World) :
  runtime.(as_ID) ≠ ""%string → parseBlobManifest runtime.(as_BlobManifestJSON) = inr (Some m) → m.(bm_Version) = 3 → m.(bm_MigrationFallback) = None →
  m.(bm_Chunks) ≠ [] → clearSnapshot runtime w = (w', inr tt) →
  w' = w <| w_node ::= λ n, n <| nd_blobs := w'.(w_node).(nd_blobs) |> <| nd_legacy ::= delete runtime.(as_ID) |> |>
  ∧ (∀ c, c ∈ m.(bm_Chunks) → w'.(w_node).(nd_blobs) !! c.(ch_Key) = None)
  ∧ (∀ key, below_runtime runtime.(as_ID) key = true → w'.(w_node).(nd_blobs) !! key = None)
  ∧ ∀ key ns snapshot name, Split key = [ns; snapshot; name] → ns ≠ runtime.(as_ID) → snapshot ≠ m.(bm_SnapshotID) →
      w'.(w_node).(nd_blobs) !! key = w.(w_node).(nd_blobs) !! key.
Proof.
  intros Hid Hp H3 Hf Hne. unfold clearSnapshot, clearManifestChunks. rewrite Hp.
  assert ((length (bm_Chunks m) =? 0)%nat = false) as Hlen by (apply Nat.eqb_neq; destruct (bm_Chunks m); done).
  cbn [mbind M_bind mret M_ret]. unfold mbind, M_bind, mret, M_ret. rewrite Hlen.
  destruct (validateBlobManifestForRuntime m (as_ID runtime)) as [e|[]] eqn:Hv; [done|]. destruct (blobStoreForManifest m) as [e|[]]; [done|]. rewrite Hf.
  unfold delete_chunks. destruct (deleteManifest m (nd_blobs (w_node w))) as [blobs [e|[]]] eqn:Ed; [done|].
  unfold clear_blobs, remove_legacy, modify. intros Hw. injection Hw as <-. unfold deleteManifest in Ed.
  destruct (delete_objects_gone _ _ _ Ed) as [Hsub Hgone]. cbn [w_node nd_blobs set_field]. unfold clearRuntime.
  apply str_eqb_neq in Hid as Hid'. rewrite Hid'. split_and!.
  - by destruct w as [[] []].
  - intros c Hc. rewrite map_lookup_filter_None. left. destruct (chunk_key_shape m _ c Hid Hv H3 Hc) as [_ Ho]. by eapply Hgone.
  - intros key Hb. rewrite map_lookup_filter_None. right. intros b _. cbn. by rewrite Hb.
  - intros key ns snapshot name Hs Hns Hsn. rewrite map_lookup_filter.
    assert (Hk : blobs !! key = nd_blobs (w_node w) !! key).
    { replace blobs with (delete_objects (nd_blobs (w_node w)) (bm_Chunks m)).1 by (by rewrite Ed). apply delete_objects_other. intros c Hc E.
      destruct (chunk_key_shape m _ c Hid Hv H3 Hc) as [[n Hn] Ho]. rewrite Ho in E. injection E as E. rewrite E, Hs in Hn.
      apply Hsn. exact (f_equal (λ l, nth 1 l ""%string) Hn). }
    rewrite <-Hk. destruct (blobs !! key) as [b|]; [|done]. cbn. rewrite option_guard_True; [done|]. unfold below_runtime. rewrite Hs. by apply str_eqb_neq.
Qed.

(** ** Theorems *)

(** C1: whatever calls to Docker, the disk, the network or the control plane
    fail, and in whatever order starts, stops, crashes and requests come, the
    session the guest wrote last is not lost: it is in the marked data directory,
    or the committed manifest's snapshot restores it with the runtime's key; and a
    start that succeeds runs the container on it.  (Up to what saving leaves out,
    what the node writes into the data itself, and what Android rebuilds.) *)
Theorem session_data_kept `{PackerLaws} link_exists order own id key w0 L w
    (Horder : ∀ l, order l ≡ₚ l) (Hid : id ≠ ""%string) (Hnew : never_ran id w0)
    (Hhistory : history link_exists order own id key w0 L w) :
  (id ∈ w.(w_node).(nd_unsaved) ∧ (∃ D, w.(w_node).(nd_data) !! id = Some D ∧ same_content own L D)
   ∨ match w.(w_cp).(cp_manifest) with
     | Some m => ∀ now, ∃ fs, restoreToDir now id m key w.(w_node).(nd_blobs) = inr fs ∧ same_content own L fs
     | None => same_content own L ∅
     end)
  ∧ ∀ now o runtime handed w', possible own id key (Starts now o runtime handed) w → start_session link_exists now o runtime handed w = (w', inr tt) →
      id ∈ w'.(w_node).(nd_containers) ∧ ∃ D, w'.(w_node).(nd_data) !! id = Some D ∧ same_content own L D.
Proof.
  assert (Hk := history_kept link_exists order own id key Horder Hid w0 w L Hnew Hhistory). split.
  - destruct Hk as [_ [(Hm & (D & Hd & _ & _ & Hs) & _)|(_ & Hh & _)]]; [left; eauto | right].
    unfold snapshot_holds in Hh. destruct (cp_manifest (w_cp w)) as [m|]; [|done]. destruct Hh as (L' & HL & _ & Hsn). intros now.
    exists (omap (saved now) L'). split; [by apply snapshot_restores|]. etransitivity; [exact HL|]. intros p _ _. apply content_saved.
  - intros now o runtime handed w' (Ha & Hh & Hr & Hp) Hrun. pose proof (started link_exists own id key L now o runtime handed w Hk Ha Hh Hr Hp) as Hs.
    unfold wp in Hs. rewrite Hrun in Hs. destruct Hs as (_ & (D & HD & _ & Hs) & Hin). eauto.
Qed.

(** C16: a snapshot that is saved is newer than the one the control plane has and
    than any the phone has seen, its number does not overflow, and with what the
    account stores elsewhere it fits the account's limit. *)
Theorem saved_snapshot_bounds `{Packer} order random runtime plan w w' m clear previous
    (Hsave : persistSessionData order random runtime plan w = (w', inr (MkPersisted (Some m) clear)))
    (Hprev : parseBlobManifest runtime.(as_BlobManifestJSON) = inr previous)
    (Hint : ∀ p, previous = Some p → p.(bm_Generation) ≤ max_int64)
    (Hfloor : ∀ f, snapshotFloor runtime.(as_ID) w.(w_node) = Some f → f < max_int64) :
  0 < m.(bm_Generation) ≤ max_int64
  ∧ (∀ p, previous = Some p → p.(bm_Generation) < m.(bm_Generation))
  ∧ (∀ f, snapshotFloor runtime.(as_ID) w.(w_node) = Some f → f < m.(bm_Generation))
  ∧ ∀ limit used current, runtime.(as_StorageBytesLimit) = Some limit → runtime.(as_StorageBytesUsed) = Some used →
      manifestStorageBytes previous = inr current →
      ∃ bytes, manifestStorageBytes (Some m) = inr bytes ∧ bytes + Z.max 0 (used - current) ≤ limit.
Proof.
  unfold persistSessionData in Hsave. apply bind_inv in Hsave as (w1 & w1' & Hg & Hsave). injection Hg as <- <-. cbn [Datatypes.id] in Hsave.
  destruct (_ || _); [done|]. apply bind_inv in Hsave as (w1 & masterKey & _ & Hsave). apply bind_inv in Hsave as (w2 & [m0 blobs] & _ & Hsave).
  apply bind_inv in Hsave as (w3 & [] & _ & Hsave). rewrite Hprev in Hsave. apply bind_inv in Hsave as (w4 & p & Hp & Hsave). injection Hp as <- <-.
  destruct (nextSnapshotGeneration previous _) as [e|g] eqn:Hgen; [done|]. apply bind_inv in Hsave as (w5 & g' & Hp & Hsave). injection Hp as <- <-.
  apply bind_inv in Hsave as (w6 & fallback & _ & Hsave).
  destruct (with_generation m0 g fallback) as (_ & _ & _ & _ & _ & _ & Eg & _). set (m1 := m0 <| bm_Generation := g |> <| bm_MigrationFallback := fallback |>) in *.
  destruct (authenticateBlobManifest m1 masterKey (as_ID runtime)) as [e|m2] eqn:Ha; [done|]. apply bind_inv in Hsave as (w7 & m2' & Hp & Hsave). injection Hp as <- <-.
  destruct (enforceRuntimeStorageQuota runtime m2) as [e|[]] eqn:Hq; [done|]. apply bind_inv in Hsave as (w8 & [] & _ & Hsave). injection Hsave as _ -> _.
  assert (Em : m.(bm_Generation) = g).
  { unfold authenticateBlobManifest in Ha. destruct (negb _); [done|]. injection Ha as <-. clearbody m1. clear -Eg. by destruct m1. }
  clear Ha. rewrite Em. split; [|split; [|split]].
  - split; [by eapply next_generation_positive|]. revert Hgen. unfold nextSnapshotGeneration. destruct previous as [p|].
    + destruct (_ || _) eqn:E; [done|]. apply orb_false_iff in E as [E1%Z.ltb_ge E2%Z.eqb_neq]. specialize (Hint p eq_refl).
      destruct (snapshotFloor _ _) as [f|]; [specialize (Hfloor f eq_refl)|]; [destruct (Z.leb_spec (bm_Generation p + 1) f)|]; intros [= <-]; lia.
    + destruct (snapshotFloor _ _) as [f|]; [specialize (Hfloor f eq_refl); destruct (Z.leb_spec 1 f)|]; intros [= <-]; [lia | done | done].
  - intros p ->. revert Hgen. unfold nextSnapshotGeneration. destruct (_ || _); [done|].
    destruct (snapshotFloor _ _) as [f|]; [destruct (Z.leb_spec (bm_Generation p + 1) f)|]; intros [= <-]; lia.
  - intros f Hf. revert Hgen. unfold nextSnapshotGeneration. rewrite Hf.
    destruct previous as [p|]; [destruct (_ || _); [done|]; destruct (Z.leb_spec (bm_Generation p + 1) f) | destruct (Z.leb_spec 1 f)]; intros [= <-]; lia.
  - intros limit used current Hl Hu Hc. revert Hq. unfold enforceRuntimeStorageQuota. rewrite Hl, Hu, Hprev, Hc. destruct (_ || _); [done|].
    destruct (manifestStorageBytes (Some m)) as [e|bytes]; [done|]. destruct (_ || _) eqn:E; [done|]. apply orb_false_iff in E as [_ E%Z.ltb_ge]. intros _.
    exists bytes. split; [done|]. destruct (Z.ltb_spec (used - current) 0); lia.
Qed.

Lemma restoreToDir_verified `{Packer} now id m masterKey blobs fs :
  restoreToDir now id m masterKey blobs = inr fs → verifyBlobManifestAuthentication m masterKey id = inr tt.
Proof.
  unfold restoreToDir. destruct (negb _); [done|]. destruct (validateBlobManifestForRuntime m id); [done|].
  by destruct (verifyBlobManifestAuthentication m masterKey id) as [|[]].
Qed.

(** The tree [D] a restore leaves of the tree [fs] it took out of a snapshot. *)
Definition tidied (link_exists : string → bool) (fs D : Fs) : Prop :=
  pruneEphemeralAndroidState (repairLegacyAndroidSystemOwnership link_exists fs) = inr D.

(** [r] is the manifest whose snapshot a start takes, and [fs] the tree in it: the
    committed one, or the one kept beside it when the committed one gives nothing. *)
Definition restored_from `{Packer} (now : Z) (id : string) (masterKey : list N) (blobs : Blobs) (m r : blobManifest) (fs : Fs) : Prop :=
  restoreToDir now id r masterKey blobs = inr fs
  ∧ (r = m ∨ m.(bm_MigrationFallback) = Some r ∧ ∃ e, restoreToDir now id m masterKey blobs = inl e).

Definition new_enough (f : Z) (m : blobManifest) : Prop := m.(bm_Version) = 3 ∧ f ≤ m.(bm_Generation).

Lemma checked_floor m f : checkSnapshotFloor (Some m) f = inr tt → new_enough f m.
Proof.
  unfold checkSnapshotFloor. destruct (negb _) eqn:E1; [done|]. destruct (_ <? _) eqn:E2; [done|]. intros _.
  apply negb_false_iff, Z.eqb_eq in E1. by apply Z.ltb_ge in E2.
Qed.

Lemma finish_restore_inv link_exists id fs w w' s : finish_restore link_exists id fs w = (w', inr s) →
  s = sessionDataRestored ∧ w'.(w_node).(nd_floors) = w.(w_node).(nd_floors)
  ∧ ∃ D, tidied link_exists fs D ∧ w'.(w_node).(nd_data) !! id = Some D.
Proof.
  unfold finish_restore, set_data. intros (w1 & [] & H1 & Hr)%bind_inv. apply bind_inv in Hr as (w2 & [] & H2 & Hr). injection H1 as <-. injection H2 as <-.
  destruct (pruneEphemeralAndroidState _) as [e|D] eqn:Ep; [done|]. apply bind_inv in Hr as (w3 & [] & H3 & Hr). injection H3 as <-. injection Hr as <- <-.
  split; [done|]. split; [done|]. exists D. split; [exact Ep|]. apply lookup_insert_eq.
Qed.

(** The floors and the stored chunks stay as they are up to the restore. *)
Notation floors_blobs := (λ w : World, (w.(w_node).(nd_floors), w.(w_node).(nd_blobs))).

Lemma blob_call_inv {A} (x : blob_error + A) (w w' : World) a :
  (match x with inl e => throw (NBlob e) | inr a => mret a end : Op A) w = (w', inr a) → w' = w ∧ x = inr a.
Proof. destruct x; intros [=]; by subst. Qed.

(** What a restore took the data from. *)
Lemma restore_manifest_inv `{Packer} link_exists now id m masterKey floor w w' s :
  restore_manifest link_exists now id m masterKey floor w = (w', inr s) →
  s = sessionDataRestored ∧ w'.(w_node).(nd_floors) = w.(w_node).(nd_floors)
  ∧ ∃ r fs D, restored_from now id masterKey w.(w_node).(nd_blobs) m r fs ∧ (r ≠ m → ∀ f, floor = Some f → new_enough f r)
    ∧ tidied link_exists fs D ∧ w'.(w_node).(nd_data) !! id = Some D.
Proof.
  unfold restore_manifest. intros (w1 & [] & [-> _]%blob_call_inv & Hr)%bind_inv. apply bind_inv in Hr as (w2 & [] & [= <-] & Hr).
  apply bind_inv in Hr as (w3 & [] & [= <-] & Hr). apply bind_inv in Hr as (w4 & w4' & [= <- <-] & Hr). cbn [Datatypes.id] in Hr.
  destruct (restoreToDir now id m masterKey _) as [e|fs] eqn:Er.
  - apply bind_inv in Hr as (w5 & fb & H5 & Hr). destruct (bm_MigrationFallback m) as [fb'|] eqn:Hfb; [|done]. injection H5 as <- <-.
    apply bind_inv in Hr as (w6 & [] & H6 & Hr). apply bind_inv in Hr as (w7 & [] & [-> _]%blob_call_inv & Hr). apply bind_inv in Hr as (w8 & [] & [= <-] & Hr).
    apply bind_inv in Hr as (w9 & [] & [= <-] & Hr). destruct (restoreToDir now id fb' masterKey _) as [e'|fs] eqn:Er2; [done|].
    assert (E6 : floors_blobs w6 = floors_blobs w ∧ ∀ f, floor = Some f → new_enough f fb').
    { destruct floor as [f|]; [apply blob_call_inv in H6 as [-> Hc] | injection H6 as <-; by split]. split; [done|]. intros f' [= <-]. by apply checked_floor. }
    destruct E6 as [[= E6 _] Hnew]. destruct (finish_restore_inv _ _ _ _ _ _ Hr) as (-> & Ef & D & HD & Hd). split; [done|]. split; [by rewrite Ef|].
    exists fb', fs, D. split_and!; [|by intros _|done..]. split; [done|]. right. split; [done|]. by exists e.
  - apply bind_inv in Hr as (w5 & [] & H5 & Hr). destruct (finish_restore_inv _ _ _ _ _ _ Hr) as (-> & Ef & D & HD & Hd). split; [done|].
    split; [|exists m, fs, D; split_and!; [split; [done | by left] | done..]]. rewrite Ef.
    destruct (bm_MigrationFallback m) as [fb|]; [destruct (blobStoreForManifest fb)|]; injection H5 as <-; done.
Qed.

Lemma runtimeBlobKey_kept id handed : stable (same (λ w, (w.(w_node).(nd_data), w.(w_node).(nd_unsaved), w.(w_node).(nd_legacy), w.(w_node).(nd_blobs))))
  (runtimeBlobKeyWithContext id handed).
Proof.
  unfold runtimeBlobKeyWithContext. stable_steps; [|unfold same, cacheRuntimeBlobKey; cbn; by destruct (_ || _)].
  destruct o as [f|]; [|done]. unfold noteSnapshotFloor. unfold same. cbn. destruct (nd_floors (w_node s) !! id) as [c|]; [|done].
  by destruct (c <? f).
Qed.

Lemma made_data id (w : World) :
  let w' := w <| w_node ::= λ n, n <| nd_data ::= λ d, match d !! id with Some _ => d | None => <[id := ∅]> d end |> |> in
  ∃ D, w'.(w_node).(nd_data) !! id = Some D ∧ (w.(w_node).(nd_data) !! id = Some D ∨ w.(w_node).(nd_data) !! id = None ∧ D = ∅).
Proof.
  cbn. destruct (nd_data (w_node w) !! id) as [D|] eqn:E; [exists D; rewrite E; by auto|]. exists ∅. rewrite lookup_insert_eq. by auto.
Qed.

(** Where the data a successful start runs on, [D], came from. *)
Definition origin `{Packer} (link_exists : string → bool) (now : Z) (id : string) (masterKey : list N) (f : Z) (w : World)
    (manifest : option blobManifest) (source : sessionDataSource) (D : Fs) : Prop :=
  match source with
  | sessionDataUnsaved => id ∈ w.(w_node).(nd_unsaved) ∧ w.(w_node).(nd_data) !! id = Some D ∧ D ≠ ∅
  | sessionDataRestored =>
    match manifest with
    | Some m => ∃ r fs, restored_from now id masterKey w.(w_node).(nd_blobs) m r fs
        ∧ verifyBlobManifestAuthentication r masterKey id = inr tt ∧ new_enough f r ∧ tidied link_exists fs D
    | None =>
      match w.(w_node).(nd_legacy) !! id with
      | Some file => ∃ fs, restoreSnapshot now file masterKey = inr fs ∧ tidied link_exists fs D
      | None => w.(w_node).(nd_data) !! id = Some D ∧ D ≠ ∅
      end
    end
  | sessionDataFresh => manifest = None ∧ w.(w_node).(nd_legacy) !! id = None ∧ D = ∅
  end.

(** A start that got past the check of the floor. *)
Lemma prepareSessionData_inv `{Packer} link_exists now runtime handed w w' source f :
  prepareSessionData link_exists now runtime handed w = (w', inr source) → snapshotFloor runtime.(as_ID) w'.(w_node) = Some f →
  ∃ w1 masterKey manifest D, parseBlobManifest runtime.(as_BlobManifestJSON) = inr manifest
    ∧ runtimeBlobKeyWithContext runtime.(as_ID) handed w = (w1, inr masterKey) ∧ w'.(w_node).(nd_data) !! runtime.(as_ID) = Some D
    ∧ (∀ m, manifest = Some m → new_enough f m) ∧ origin link_exists now runtime.(as_ID) masterKey f w manifest source D.
Proof.
  set (id := as_ID runtime). unfold prepareSessionData. fold id. intros (wa & manifest & [-> Hm]%blob_call_inv & Hrun)%bind_inv Hfloor.
  apply bind_inv in Hrun as (w1 & masterKey & Hkey & Hrun). apply bind_inv in Hrun as (wb & wb' & [= <- <-] & Hrun). cbn [Datatypes.id] in Hrun.
  apply bind_inv in Hrun as (wc & [] & Hc & Hrun). apply bind_inv in Hrun as (wd & [] & [= <-] & Hrun). apply bind_inv in Hrun as (we & we' & [= <- <-] & Hrun).
  cbn [Datatypes.id] in Hrun. pose proof (runtimeBlobKey_kept id handed w) as Hk. rewrite Hkey in Hk. injection Hk as Hdata Hmark Hleg Hblobs.
  assert (Ewc : wc = w1) by (destruct (snapshotFloor id (w_node w1)); [by apply blob_call_inv in Hc as [-> _] | by injection Hc]). subst wc.
  exists w1, masterKey, manifest. destruct (made_data id w1) as (D0 & HD0 & Hold). set (w2 := w1 <| w_node ::= _ |>) in *.
  assert (Hchecked : snapshotFloor id (w_node w1) = Some f → ∀ m, manifest = Some m → new_enough f m).
  { intros Hf m ->. rewrite Hf in Hc. apply blob_call_inv in Hc as [_ Hc]. by apply checked_floor. }
  destruct (hasUnsavedSession (w_node w2) id && directoryHasEntries (w_node w2) id) eqn:Hu.
  { injection Hrun as <- <-. apply andb_prop in Hu as [Hu He]. apply bool_decide_eq_true in Hu. apply directory_entries_inv in He as (D & HD & Hne).
    exists D. split_and!; try done; [by apply Hchecked|].
    unfold origin. rewrite Hmark, Hdata. split_and!; try done. destruct Hold as [Hold|[_ ->]]; congruence. }
  destruct manifest as [m|].
  - destruct (restore_manifest_inv _ _ _ _ _ _ _ _ _ Hrun) as (-> & Ef & r & fs & D & Hr & Hnew & HD & Hd).
    assert (Hf1 : snapshotFloor id (w_node w1) = Some f) by (unfold snapshotFloor in *; rewrite Ef in Hfloor; exact Hfloor).
    exists D. split_and!; try done; [by apply Hchecked|]. exists r, fs. split_and!; [by rewrite Hblobs | by eapply restoreToDir_verified, Hr | | done].
    destruct Hr as [Hok [->|[Hfb [e He]]]]; [by apply Hchecked|]. apply Hnew; [|done]. intros ->. congruence.
  - change (nd_legacy (w_node w2)) with (nd_legacy (w_node w1)) in Hrun. rewrite <-Hleg in Hrun. unfold origin. destruct (nd_legacy (w_node w) !! id) as [file|] eqn:Hfile.
    + apply bind_inv in Hrun as (w3 & [] & [= <-] & Hrun). apply bind_inv in Hrun as (w4 & [] & [= <-] & Hrun). destruct (restoreSnapshot now file masterKey) as [e|fs] eqn:Er; [done|].
      destruct (finish_restore_inv _ _ _ _ _ _ Hrun) as (-> & _ & D & HD & Hd). exists D. split_and!; try done. by exists fs.
    + destruct (directoryHasEntries (w_node w2) id) eqn:He; injection Hrun as <- <-.
      * apply directory_entries_inv in He as (D & HD & Hne). exists D. split_and!; try done. rewrite Hdata. destruct Hold as [Hold|[_ ->]]; congruence.
      * exists D0. split_and!; try done. unfold directoryHasEntries in He. rewrite HD0 in He. by apply negb_false_iff, bool_decide_eq_true in He.
Qed.

(** A manifest below the floor stops the start before anything is touched. *)
Lemma prepareSessionData_refuses `{Packer} link_exists now runtime handed w w' r m f :
  prepareSessionData link_exists now runtime handed w = (w', r) → snapshotFloor runtime.(as_ID) w'.(w_node) = Some f →
  parseBlobManifest runtime.(as_BlobManifestJSON) = inr (Some m) → ¬ new_enough f m → w'.(w_node).(nd_data) = w.(w_node).(nd_data).
Proof.
  unfold prepareSessionData. intros Hrun Hfloor Hm Hold. rewrite Hm in Hrun. rewrite (bind_inr _ _ w w _ eq_refl) in Hrun.
  pose proof (runtimeBlobKey_kept (as_ID runtime) handed w) as Hk. destruct (runtimeBlobKeyWithContext (as_ID runtime) handed w) as [w1 [e|masterKey]] eqn:Hkey.
  { rewrite (bind_inl _ _ _ _ _ Hkey) in Hrun. injection Hrun as <- <-. by injection Hk. }
  rewrite (bind_inr _ _ _ _ _ Hkey), (bind_inr _ _ w1 w1 w1 eq_refl) in Hrun. cbn [Datatypes.id] in Hrun. injection Hk as Hdata _ _ _.
  destruct (snapshotFloor (as_ID runtime) (w_node w1)) as [f0|] eqn:Hf0.
  1: destruct (checkSnapshotFloor (Some m) f0) as [e|[]] eqn:Hc; [injection Hrun as <- <-; done|].
  all: rewrite (bind_inr _ _ w1 w1 tt eq_refl) in Hrun; apply (stable_run (same (λ w, w.(w_node).(nd_floors)))) in Hrun;
    [unfold same in Hrun; unfold snapshotFloor in *; rewrite Hrun, Hfloor in Hf0
    | unfold restore_manifest, finish_restore, set_data, remove_data, make_data; stable_steps; done].
  - injection Hf0 as ->. by apply checked_floor in Hc.
  - done.
Qed.

Lemma bind_modify {S E B} (f : S → S) (k : unit → M S E B) s : (modify f ≫= k) s = k tt (f s).
Proof. reflexivity. Qed.
Lemma bind_gets {S E A B} (f : S → A) (k : A → M S E B) s : (gets f ≫= k) s = k (f s) s.
Proof. reflexivity. Qed.

(** With no committed manifest, a snapshot of the old format left on the node is
    restored whatever number the phone has sent. *)
Lemma legacy_ignores_floor `{Packer} link_exists now runtime handed key file fs D (w : World) :
  parseBlobManifest runtime.(as_BlobManifestJSON) = inr None → cachedRuntimeBlobKey runtime.(as_ID) w.(w_node) = Some key →
  runtime.(as_ID) ∉ w.(w_node).(nd_unsaved) → w.(w_node).(nd_legacy) !! runtime.(as_ID) = Some file →
  restoreSnapshot now file key = inr fs → tidied link_exists fs D →
  ∃ w', prepareSessionData link_exists now runtime handed w = (w', inr sessionDataRestored)
    ∧ w'.(w_node).(nd_data) !! runtime.(as_ID) = Some D ∧ w'.(w_node).(nd_floors) = w.(w_node).(nd_floors).
Proof.
  intros Hm Hkey Hmark Hfile Hfs HD. unfold prepareSessionData. rewrite Hm. rewrite (bind_inr _ _ w w _ eq_refl).
  assert (Hk : runtimeBlobKeyWithContext (as_ID runtime) handed w = (w, inr key)).
  { unfold runtimeBlobKeyWithContext. rewrite (bind_inr _ _ w w w eq_refl). by rewrite Hkey. }
  rewrite (bind_inr _ _ _ _ _ Hk), bind_gets. cbn [Datatypes.id].
  rewrite (bind_inr _ _ w w tt) by (by destruct (snapshotFloor _ _)). unfold make_data. rewrite bind_modify, bind_gets. cbn [Datatypes.id].
  unfold hasUnsavedSession. cbn [w_node set_field nd_unsaved nd_legacy]. rewrite bool_decide_eq_false_2 by exact Hmark. cbn [andb].
  rewrite Hfile.
  unfold remove_data. rewrite !bind_modify, Hfs. unfold finish_restore, set_data. rewrite !bind_modify. unfold tidied in HD. cbv zeta.
  rewrite HD, bind_modify. eexists. split; [reflexivity|]. split; [apply lookup_insert_eq | done].
Qed.

(** C15: Once a phone has sent the number of the last snapshot it saw, a start whose
    committed manifest is older, or not an authenticated one, is refused and leaves the
    data as it was; and a start that succeeds runs on one of these trees: the session
    of this VM that no stop has saved; the snapshot of the committed manifest, or, when
    that cannot be restored, of the one kept beside it, in either case authenticated
    with the runtime's key and at least as new as what the phone saw; and only when no
    manifest is committed, the snapshot of the old format left on this VM, or the data
    directory as it is.  The last two carry no number, so the phone's does not apply. *)
Theorem no_rollback `{Packer} link_exists now runtime handed w w' r f
    (Hrun : prepareSessionData link_exists now runtime handed w = (w', r)) (Hfloor : snapshotFloor runtime.(as_ID) w'.(w_node) = Some f) :
  (∀ m, parseBlobManifest runtime.(as_BlobManifestJSON) = inr (Some m) → ¬ new_enough f m →
     (∃ e, r = inl e) ∧ w'.(w_node).(nd_data) = w.(w_node).(nd_data))
  ∧ (∀ source, r = inr source → ∃ w1 masterKey manifest D,
     parseBlobManifest runtime.(as_BlobManifestJSON) = inr manifest
     ∧ runtimeBlobKeyWithContext runtime.(as_ID) handed w = (w1, inr masterKey)
     ∧ w'.(w_node).(nd_data) !! runtime.(as_ID) = Some D
     ∧ (∀ m, manifest = Some m → new_enough f m)
     ∧ origin link_exists now runtime.(as_ID) masterKey f w manifest source D).
Proof.
  split.
  - intros m Hm Hold. split; [|by eapply prepareSessionData_refuses]. destruct r as [e|source]; [by exists e|]. exfalso.
    destruct (prepareSessionData_inv _ _ _ _ _ _ _ _ Hrun Hfloor) as (_ & _ & manifest & _ & Hm' & _ & _ & Hnew & _).
    rewrite Hm in Hm'. injection Hm' as <-. by apply Hold, Hnew.
  - intros source ->. by apply prepareSessionData_inv.
Qed.

(** A wipe that succeeds leaves nothing of the runtime's data: no container,
    no data directory, no mark, no legacy snapshot, no cached key, no committed
    manifest, and no chunk the manifest listed. *)
Theorem wipe_leaves_nothing removed network o runtime handed m w w'
    (Hid : runtime.(as_ID) ≠ ""%string) (Hm : parseBlobManifest runtime.(as_BlobManifestJSON) = inr (Some m))
    (H3 : m.(bm_Version) = 3) (Hf : m.(bm_MigrationFallback) = None) (Hc : m.(bm_Chunks) ≠ [])
    (Hrun : wipeRuntime removed network o runtime handed w = (w', inr tt)) :
  runtime.(as_ID) ∉ w'.(w_node).(nd_containers) ∧ w'.(w_node).(nd_data) !! runtime.(as_ID) = None
  ∧ runtime.(as_ID) ∉ w'.(w_node).(nd_unsaved) ∧ w'.(w_node).(nd_legacy) !! runtime.(as_ID) = None
  ∧ cachedRuntimeBlobKey runtime.(as_ID) w'.(w_node) = None ∧ w'.(w_cp).(cp_manifest) = None
  ∧ (∀ c, c ∈ m.(bm_Chunks) → w'.(w_node).(nd_blobs) !! c.(ch_Key) = None)
  ∧ ∀ key, below_runtime runtime.(as_ID) key = true → w'.(w_node).(nd_blobs) !! key = None.
Proof.
  unfold wipeRuntime in Hrun. apply bind_inv in Hrun as (w1 & k & _ & Hrun). apply bind_inv in Hrun as (w2 & [] & _ & Hrun).
  apply bind_inv in Hrun as (w3 & [] & E3 & Hrun). injection E3 as E3. apply bind_inv in Hrun as (w4 & [] & E4 & Hrun).
  assert (w4 = w3) as -> by (destruct network; [by injection E4 | done]). apply bind_inv in Hrun as (w5 & [] & E5 & Hrun). injection E5 as E5.
  apply bind_inv in Hrun as (w6 & [] & E6 & Hrun). injection E6 as E6. apply bind_inv in Hrun as (w7 & [] & E7 & Hrun).
  destruct (clearSnapshot_spec _ m _ _ Hid Hm H3 Hf Hc E7) as (Ew & Hgone & Hbelow & _). apply bind_inv in Hrun as (w8 & [] & E8 & Hrun). injection E8 as E8.
  assert (Hn6 : as_ID runtime ∉ nd_containers (w_node w6) ∧ nd_data (w_node w6) !! as_ID runtime = None ∧ as_ID runtime ∉ nd_unsaved (w_node w6)).
  { subst w6 w5 w3. cbn. split_and!; [apply not_in_removed | apply lookup_delete_eq | apply not_in_removed]. }
  assert (E8n : w_node w' = w_node w8 ∧ cp_manifest (w_cp w') = None) by (destruct o; try done; injection Hrun as <-; done). destruct E8n as [-> ->].
  subst w8. destruct Hn6 as (Hn1 & Hn2 & Hn3). cbn [w_node set_field nd_containers nd_data nd_unsaved nd_legacy nd_blobs].
  assert (Hk : cachedRuntimeBlobKey (as_ID runtime) (w_node w7 <| nd_keys ::= delete (TrimSpace (as_ID runtime)) |>) = None).
  { unfold cachedRuntimeBlobKey. cbn. rewrite lookup_delete_eq. by destruct (_ =?s _). }
  rewrite Ew at 1 2 3 4. cbn. rewrite lookup_delete_eq. by split_and!.
Qed.

(** A snapshot that was saved but whose commit was lost outlives the runtime: the
    deletion clears what the committed manifest lists and the runtime's own
    directory, and the snapshot is in the directory of its namespace. *)
Theorem deletion_leaves_snapshot `{Packer} runtime key L saved_m w :
  runtime.(as_BlobManifestJSON) = NoManifest → snapshot_of runtime.(as_ID) key L saved_m w.(w_node).(nd_blobs) →
  saved_m.(bm_Namespace) ≠ runtime.(as_ID) →
  ∃ w', deleteRuntime true true Acknowledged runtime w = (w', inr tt) ∧ snapshot_of runtime.(as_ID) key L saved_m w'.(w_node).(nd_blobs).
Proof.
  intros Hm Hs Hns. unfold deleteRuntime, clearSnapshot, clearManifestChunks. rewrite Hm. cbn -[clearRuntime delete].
  eexists. split; [reflexivity|]. cbn -[clearRuntime]. eapply snapshot_agree; [exact Hs|]. intros c Hc. destruct Hs as (Hr & Hv & _ & H3 & _).
  destruct (chunk_key_shape saved_m _ c Hr Hv H3 Hc) as [[n Hn] _]. unfold clearRuntime. apply str_eqb_neq in Hr. rewrite Hr, map_lookup_filter.
  destruct (nd_blobs (w_node w) !! ch_Key c) as [b|]; [|done]. cbn. rewrite option_guard_True; [done|]. unfold below_runtime. rewrite Hn. by apply str_eqb_neq.
Qed.

(** ** Witnesses *)

(** A runtime is started, its guest writes a tree, and it is stopped; the phone
    has seen snapshot 3. *)
Definition sample_keys : list N := repeat 5%N 128.
Definition sample_handed : list N := sample_keys ++ [0; 0; 0; 0; 0; 0; 0; 3]%N.
Definition own_key : string := "adb_keys".
Definition sample_own (p : Path) : bool := bool_decide ([own_key] `prefix_of` p).
Definition sample_prepare (fs : Fs) : Fs :=
  match RemoveAll fs [own_key] with inr fs' => <[[own_key] := MkInode (NFile []) (MkMeta 416 1000 1000 0)]> fs' | inl _ => fs end.
Definition sample_assignment (w : World) : Assignment :=
  MkAssignment "rt-1" (if w.(w_cp).(cp_stopped) then "stopped" else "running") w.(w_cp).(cp_cleanup) true
    (match w.(w_cp).(cp_manifest) with Some m => Decoded m | None => NoManifest end) (Some (10 ^ 9)) (Some 0).
Definition all_well : StopOutcome := MkStop true true true true Acknowledged true true true Acknowledged.
Definition starts_well : StartOutcome := MkStart true true (Some sample_prepare) true true true Acknowledged.
Notation sample_happens := (@happens toy_packer (λ _, false) (λ l, l) "rt-1").
Definition sample_new : World := MkWorld (MkNode ∅ ∅ ∅ ∅ ∅ ∅ ∅) (MkCp None false true false).
Definition sample_requested : World := sample_happens RequestsStart sample_new.
Definition sample_start : event := Starts 5 starts_well (sample_assignment sample_requested) (Some sample_handed).
Definition sample_used : World := sample_happens RequestsStop (sample_happens (GuestWrites sample_tree) (sample_happens sample_start sample_requested)).
Definition sample_stop : event := Stops all_well sample_random (sample_assignment sample_used) (Some sample_handed).
Definition sample_stopped : World := sample_happens sample_stop sample_used.

Lemma RemoveAll_top fs name : RemoveAll fs [name] = inr (filter (λ kv, ¬ ([name] `prefix_of` kv.1)) fs).
Proof. reflexivity. Qed.

Lemma sample_prepares : prepares sample_own sample_prepare.
Proof.
  intros fs Hg. unfold sample_prepare. destruct (RemoveAll fs [own_key]) as [e|fs'] eqn:E; [done|].
  destruct (RemoveAll_spec _ _ _ E Hg) as [[Hok Hshort] Hkeep]. rewrite RemoveAll_top in E. injection E as E.
  assert (Hgone : ∀ p i, fs' !! p = Some i → ¬ ([own_key] `prefix_of` p)) by (subst fs'; by intros p i [_ Hp]%map_lookup_filter_Some).
  split_and!; [split| |].
  - intros p i [[<- <-]|[Hne Hi]]%lookup_insert_Some; [split_and!; [done | apply (bool_decide_unpack _); vm_compute; exact I | by left]|].
    destruct (Hok p i Hi) as (Hp1 & Hp2 & [Hp3|(j & Hj & Hd)]); (split; [done | split; [done|]]); [by left|]. right. exists j. split; [|done].
    rewrite lookup_insert_ne; [done|]. intros Hx. apply (Hgone p i Hi). destruct (path_snoc p Hp1) as [n ->]. rewrite <-Hx. by apply prefix_app_r.
  - intros p i [[<- <-]|[Hne Hi]]%lookup_insert_Some Hd; [done | by apply (Hshort p i)].
  - apply insert_non_empty.
  - intros p Hown _. unfold content. assert (Hp : ¬ ([own_key] `prefix_of` p)) by (by apply bool_decide_eq_false in Hown).
    rewrite lookup_insert_ne by (intros <-; by apply Hp). by rewrite Hkeep.
Qed.

Lemma sample_assigned w : assigned "rt-1" (sample_assignment w) w.
Proof. unfold assigned, sample_assignment. cbn. by destruct (cp_stopped (w_cp w)). Qed.
Lemma sample_hands : hands sample_keys (Some sample_handed).
Proof. intros p [= <-]. reflexivity. Qed.

(** The event and the states before and after it are given. *)
Lemma history_next `{Packer} link_exists order own id key w0 L w e L' w' :
  history link_exists order own id key w0 L w → possible own id key e w → w' = happens link_exists order id e w →
  L' = match e with GuestWrites fs => fs | _ => L end → history link_exists order own id key w0 L' w'.
Proof. intros Hh Hp -> ->. by apply history_step. Qed.

Lemma sample_session_history : @history toy_packer (λ _, false) (λ l, l) sample_own "rt-1" sample_keys sample_new sample_tree sample_stopped.
Proof.
  assert (Hp : ∀ f, Some sample_prepare = Some f → prepares sample_own f) by (intros f [= <-]; exact sample_prepares).
  assert (H1 : @history toy_packer (λ _, false) (λ l, l) sample_own "rt-1" sample_keys sample_new ∅ sample_requested).
  { eapply history_next; [apply history_start | | reflexivity | reflexivity]. exact I. }
  assert (H2 : @history toy_packer (λ _, false) (λ l, l) sample_own "rt-1" sample_keys sample_new ∅ (sample_happens sample_start sample_requested)).
  { eapply history_next; [exact H1 | | reflexivity | reflexivity]. split_and!; [apply sample_assigned | exact sample_hands | reflexivity | exact Hp]. }
  assert (H3 : @history toy_packer (λ _, false) (λ l, l) sample_own "rt-1" sample_keys sample_new sample_tree
    (sample_happens (GuestWrites sample_tree) (sample_happens sample_start sample_requested))).
  { eapply history_next; [exact H2 | | reflexivity | reflexivity].
    split_and!; [apply (bool_decide_unpack _); vm_compute; exact I | apply sample_tree_ok | apply (bool_decide_unpack _); vm_compute; exact I]. }
  assert (H4 : @history toy_packer (λ _, false) (λ l, l) sample_own "rt-1" sample_keys sample_new sample_tree sample_used).
  { eapply history_next; [exact H3 | | reflexivity | reflexivity]. exact I. }
  eapply history_next; [exact H4 | | reflexivity | reflexivity].
  split_and!; [apply sample_assigned | exact sample_hands | vm_compute; reflexivity | by split].
Qed.

Lemma session_data_kept_witness :
  ∃ m fs, sample_stopped.(w_cp).(cp_manifest) = Some m ∧ @restoreToDir toy_packer 9 "rt-1" m sample_keys sample_stopped.(w_node).(nd_blobs) = inr fs
    ∧ same_content sample_own sample_tree fs.
Proof.
  destruct (@session_data_kept toy_packer toy_packer_laws (λ _, false) (λ l, l) sample_own "rt-1" sample_keys sample_new sample_tree sample_stopped
    (λ l, reflexivity l) ltac:(discriminate) ltac:(split_and!; (reflexivity || set_solver)) sample_session_history) as [[[Hmark _]|Hm] _].
  { exfalso. revert Hmark. apply (bool_decide_unpack _). vm_compute. exact I. }
  assert (E : is_none sample_stopped.(w_cp).(cp_manifest) = false) by (vm_compute; reflexivity).
  destruct sample_stopped.(w_cp).(cp_manifest) as [m|]; [|discriminate E]. destruct (Hm 9) as (fs & Hfs & Hs). exists m, fs. split; [reflexivity|]. by split.
Defined.

Definition sample_marked : World := sample_used <| w_node ::= λ n, n <| nd_floors := {["rt-1" := 3]} |> |>.

Lemma saved_snapshot_bounds_witness : ∃ w' m,
  @persistSessionData toy_packer (λ l, l) sample_random (sample_assignment sample_marked) (Some sample_keys) sample_marked = (w', inr (MkPersisted (Some m) false))
  ∧ 3 < m.(bm_Generation).
Proof.
  assert (E : match @persistSessionData toy_packer (λ l, l) sample_random (sample_assignment sample_marked) (Some sample_keys) sample_marked with
              | (_, inr (MkPersisted (Some _) false)) => true | _ => false end = true) by (vm_compute; reflexivity).
  destruct (persistSessionData _ _ _ _ _) as [w' [e|[[m|] []]]] eqn:Hrun; try discriminate E. exists w', m. split; [reflexivity|].
  assert (Hp : parseBlobManifest (as_BlobManifestJSON (sample_assignment sample_marked)) = inr None) by (vm_compute; reflexivity).
  assert (Hf3 : snapshotFloor "rt-1" (w_node sample_marked) = Some 3) by (vm_compute; reflexivity).
  change "rt-1" with (as_ID (sample_assignment sample_marked)) in Hf3. clear E. generalize dependent (sample_assignment sample_marked).
  generalize dependent sample_marked. intros w runtime Hrun Hp Hf3.
  destruct (@saved_snapshot_bounds toy_packer (λ l, l) sample_random runtime (Some sample_keys) w w' m false None Hrun Hp
    ltac:(discriminate) ltac:(rewrite Hf3; intros f [= <-]; reflexivity)) as (_ & _ & Hf & _).
  exact (Hf 3 Hf3).
Defined.

Lemma no_rollback_witness : ∃ m masterKey w' fs D,
  sample_stopped.(w_cp).(cp_manifest) = Some m ∧ 3 ≤ m.(bm_Generation) ∧ verifyBlobManifestAuthentication m masterKey "rt-1" = inr tt
  ∧ @restoreToDir toy_packer 7 "rt-1" m masterKey sample_stopped.(w_node).(nd_blobs) = inr fs ∧ tidied (λ _, false) fs D
  ∧ w'.(w_node).(nd_data) !! "rt-1"%string = Some D.
Proof.
  set (w := sample_happens RequestsStart sample_stopped).
  assert (E : match w.(w_cp).(cp_manifest) with Some m => is_none m.(bm_MigrationFallback) && (m.(bm_Store) =?s blobStoreLocal) | None => false end = true) by (vm_compute; reflexivity).
  assert (Em : w.(w_cp).(cp_manifest) = sample_stopped.(w_cp).(cp_manifest)) by (vm_compute; reflexivity).
  assert (Eb : w.(w_node).(nd_blobs) = sample_stopped.(w_node).(nd_blobs)) by reflexivity.
  assert (Er : match @prepareSessionData toy_packer (λ _, false) 7 (sample_assignment w) (Some sample_handed) w with
               | (w', inr sessionDataRestored) => bool_decide (snapshotFloor "rt-1" w'.(w_node) = Some 3) | _ => false end = true) by (vm_compute; reflexivity).
  rewrite <-Em, <-Eb. clear Em Eb. clearbody w. destruct (w.(w_cp).(cp_manifest)) as [m|] eqn:Hcp; [|discriminate E]. apply andb_prop in E as [E1 E2]. apply str_eqb_eq in E2.
  destruct (prepareSessionData _ _ _ _ _) as [w' [e|[]]] eqn:Hrun; try discriminate Er. apply bool_decide_eq_true in Er.
  assert (Hparse : parseBlobManifest (as_BlobManifestJSON (sample_assignment w)) = inr (Some m)) by (cbn [sample_assignment as_BlobManifestJSON]; rewrite Hcp; cbn [parseBlobManifest]; rewrite E2; reflexivity).
  destruct (@no_rollback toy_packer (λ _, false) 7 (sample_assignment w) (Some sample_handed) w w' _ 3 Hrun Er) as [_ Hok].
  destruct (Hok sessionDataRestored eq_refl) as (w1 & masterKey & manifest & D & Hm & _ & HD & _ & Ho). rewrite Hparse in Hm. injection Hm as <-.
  destruct Ho as (r & fs & [Hr [->|[Hfb _]]] & Hv & [_ Hg] & Ht); [|rewrite Hfb in E1; discriminate E1].
  exists m, masterKey, w', fs, D. split; [reflexivity|]. split; [exact Hg|]. split; [exact Hv|]. split; [exact Hr|]. split; [exact Ht | exact HD].
Defined.

Lemma wipe_leaves_nothing_witness : ∃ m w',
  sample_stopped.(w_cp).(cp_manifest) = Some m
  ∧ wipeRuntime true true Acknowledged (sample_assignment sample_stopped) (Some sample_handed) sample_stopped = (w', inr tt)
  ∧ ∀ c, c ∈ m.(bm_Chunks) → w'.(w_node).(nd_blobs) !! c.(ch_Key) = None.
Proof.
  set (w := sample_stopped).
  assert (E : match w.(w_cp).(cp_manifest) with
              | Some m => is_none m.(bm_MigrationFallback) && (m.(bm_Version) =? 3) && (m.(bm_Store) =?s blobStoreLocal) && negb (length m.(bm_Chunks) =? 0)%nat
              | None => false end = true) by (vm_compute; reflexivity).
  assert (Er : match wipeRuntime true true Acknowledged (sample_assignment w) (Some sample_handed) w with (_, inr tt) => true | _ => false end = true)
    by (vm_compute; reflexivity).
  clearbody w. assert (Hid : as_ID (sample_assignment w) ≠ ""%string) by discriminate.
  assert (Hj : as_BlobManifestJSON (sample_assignment w) = match w.(w_cp).(cp_manifest) with Some m => Decoded m | None => NoManifest end) by reflexivity.
  generalize dependent (sample_assignment w). intros runtime Er Hid Hj.
  destruct (w.(w_cp).(cp_manifest)) as [m|] eqn:Hcp; [|discriminate E]. apply andb_prop in E as [[[E1 E2]%andb_prop E3]%andb_prop E4].
  destruct (wipeRuntime _ _ _ _ _ _) as [w' [e|[]]] eqn:Hrun; [discriminate Er|]. exists m, w'. split; [reflexivity|]. split; [reflexivity|].
  assert (Hparse : parseBlobManifest (as_BlobManifestJSON runtime) = inr (Some m)) by (rewrite Hj; cbn; by rewrite (proj1 (str_eqb_eq _ _) E3)).
  assert (Hf : bm_MigrationFallback m = None) by (destruct (bm_MigrationFallback m); [discriminate E1 | reflexivity]).
  assert (Hc : bm_Chunks m ≠ []) by (intros Hx; rewrite Hx in E4; discriminate E4).
  destruct (wipe_leaves_nothing true true Acknowledged runtime (Some sample_handed) m w w' Hid Hparse (proj1 (Z.eqb_eq _ _) E2) Hf Hc Hrun)
    as (_ & _ & _ & _ & _ & _ & Hgone & _).
  exact Hgone.
Defined.
