(* ===== verification/Requests.v ===== *)
(** * Requests: limits and signatures

    Models how the control plane admits requests (internal/httpapi): the rate
    limiter (api.go), the budget for bodies held in memory (request_budget.go),
    and the signatures that say who asks: phones' device keys, runtime
    capabilities, nodes and the internal services (api.go, provisioner.go,
    internal/nodeauth, internal/callbackauth).

    A request is its method, its URI, its headers and its body.  The crypto
    library is a parameter ([Signatures]: X.509 keys, PEM and ECDSA, with the law
    that a signature verifies); SHA-256 and base64 are executable.  Times are
    microseconds; a refusal is a status with the error's code or text. *)

From Stdlib Require Import Ascii.
From S2P Require Import Prelude.
From S2P Require Import GoLib.
From S2P Require Import Codec.
From S2P Require Import Schema.
From S2P Require Import Common.
From S2P Require Import Registry.
From S2P Require Import Devices.
From S2P Require Import Sessions.
Open Scope Z_scope.

(** ** Library functions *)

(** [int64] addition. *)
Definition wrap64 (z : Z) : Z := (z + 2 ^ 63) mod 2 ^ 64 - 2 ^ 63.

Definition decimal_value (c : ascii) : option N :=
  let n := N_of_ascii c in if ((48 <=? n) && (n <=? 57))%N then Some (n - 48)%N else None.

(** A sign and digits of the given base; the whole text. *)
Definition signed_digits (digit : ascii → option N) (base : Z) (s : string) : option Z :=
  let '(neg, ds) :=
    match bytes_of s with
    | "-"%char :: l => (true, l)
    | "+"%char :: l => (false, l)
    | l => (false, l)
    end in
  match ds with
  | [] => None
  | _ => (λ ns : list N, let v := foldl (λ acc n, acc * base + Z.of_N n) 0 ns in if (neg : bool) then - v else v)
           <$> mapM digit ds
  end.

(** [strconv.ParseInt(s, 10, 64)]. *)
Definition ParseInt (s : string) : option Z :=
  match signed_digits decimal_value 10 s with
  | Some v => if is_int64 v then Some v else None
  | None => None
  end.
(** [new(big.Int).SetString(s, 16)]. *)
Definition SetString16 (s : string) : option Z := signed_digits Codec.hex_value 16 s.


Definition upper_ascii (c : ascii) : ascii :=
  let n := N_of_ascii c in if ((97 <=? n) && (n <=? 122))%N then ascii_of_N (n - 32) else c.
Definition ToUpper (s : string) : string := of_bytes (upper_ascii <$> bytes_of s).

Definition newline : ascii := ascii_of_N 10.
Definition join_lines (parts : list string) : list N := N_of_ascii <$> Join newline parts.

(** [base64.RawStdEncoding.DecodeString]. *)
Definition raw_std_decode (value : string) : option (list N) :=
  sextets ← mapM base64std (List.filter (λ c, negb ((N_of_ascii c =? 10) || (N_of_ascii c =? 13))%N) (bytes_of value));
  decode_sextets sextets.

(** [base64.StdEncoding.EncodeToString]. *)
Definition base64std_char (n : N) : ascii :=
  if (n =? 62)%N then "+"%char else if (n =? 63)%N then "/"%char else base64url_char n.
Definition std_encode (raw : list N) : string :=
  let chars := base64std_char <$> encode_sextets raw in
  of_bytes (chars ++ repeat "="%char ((4 - length chars mod 4) mod 4)).

(** ** Limits *)

(** *** bootstrapRateLimiter *)

Record rateEntry := MkRateEntry { re_count : Z; re_reset : Z }.
Record rateLimiter := MkRateLimiter {
  rl_max : Z; rl_maxClients : Z; rl_window : Z; rl_clients : gmap string rateEntry }.
#[export] Instance rate_limiter_eta : Eta rateLimiter := λ l, MkRateLimiter l.(rl_max) l.(rl_maxClients) l.(rl_window) l.(rl_clients).

Definition bootstrapRateLimitWindow : Z := minute_us.
Definition defaultBootstrapRateLimitClients : Z := 4096.

Definition newBootstrapRateLimiter (max window : Z) : rateLimiter :=
  MkRateLimiter max defaultBootstrapRateLimitClients (if window <=? 0 then bootstrapRateLimitWindow else window) ∅.

(** [d.Round(time.Second)] of a positive duration. *)
Definition round_second (d : Z) : Z := (d + second_us / 2) / second_us * second_us.

Definition oldest_reset (clients : gmap string rateEntry) : Z :=
  default 0 (foldr (λ e acc, match acc with None => Some e.(re_reset) | Some t => Some (Z.min e.(re_reset) t) end) None
               (snd <$> map_to_list clients)).

(** Whether the client may go on, or how long it should wait. *)
Definition allow (now : Z) (client : string) (l : rateLimiter) : rateLimiter * (bool * Z) :=
  if l.(rl_max) <=? 0 then (l, (true, 0))
  else
    let client := TrimSpace client in
    let client := if client =?s "" then "unknown"%string else client in
    let clients := delete_where (λ _ e, e.(re_reset) <=? now) l.(rl_clients) in
    let l := l <| rl_clients := clients |> in
    match clients !! client with
    | None =>
      if (0 <? l.(rl_maxClients)) && (l.(rl_maxClients) <=? Z.of_nat (size clients))
      then (l, (false, round_second (oldest_reset clients - now)))
      else (l <| rl_clients := <[client := MkRateEntry 1 (now + l.(rl_window))]> clients |>, (true, 0))
    | Some e =>
      if l.(rl_max) <=? e.(re_count) then (l, (false, e.(re_reset) - now))
      else (l <| rl_clients := <[client := MkRateEntry (e.(re_count) + 1) e.(re_reset)]> clients |>, (true, 0))
    end.

(** *** byteBudget *)

Definition unchargedSignedBodyBytes : Z := Z.shiftl 16 10.
Definition signedBodyBudgetBytes : Z := Z.shiftl 96 20.
Definition signedBodyAccountBudgetBytes : Z := Z.shiftl 8 20.

Record byteBudget := MkBudget { bb_total : Z; bb_perAccount : Z; bb_used : Z; bb_byAccount : gmap string Z }.

Definition newByteBudget (total perAccount : Z) : byteBudget := MkBudget total perAccount 0 ∅.

Definition used_by (b : byteBudget) (accountID : string) : Z := default 0 (b.(bb_byAccount) !! accountID).

Definition reserve (accountID : string) (n : Z) (b : byteBudget) : option byteBudget :=
  if (b.(bb_total) <? wrap64 (b.(bb_used) + n)) || (b.(bb_perAccount) <? wrap64 (used_by b accountID + n)) then None
  else Some (MkBudget b.(bb_total) b.(bb_perAccount) (wrap64 (b.(bb_used) + n))
               (<[accountID := wrap64 (used_by b accountID + n)]> b.(bb_byAccount))).

(** The func [reserve] returns, which runs once. *)
Definition release (accountID : string) (n : Z) (b : byteBudget) : byteBudget :=
  let rest := wrap64 (used_by b accountID - n) in
  MkBudget b.(bb_total) b.(bb_perAccount) (wrap64 (b.(bb_used) - n))
    (if rest <=? 0 then delete accountID b.(bb_byAccount) else <[accountID := rest]> b.(bb_byAccount)).

Definition maxAPIRequestBodyBytes : Z := Z.shiftl 2 20.
Definition maxRuntimeFileImportBytes : Z := Z.shiftl 32 20.
Definition maxRuntimePhotoImportBytes : Z := Z.shiftl 16 20.
Definition maxRuntimeVideoImportBytes : Z := Z.shiftl 32 20.
Definition sealedImportOverhead : Z := 512.

Definition apiRequestBodyLimit (path : string) : Z :=
  if HasSuffix path "/files" then maxRuntimeFileImportBytes + sealedImportOverhead
  else if HasSuffix path "/photos" then maxRuntimePhotoImportBytes + sealedImportOverhead
  else if HasSuffix path "/videos" then maxRuntimeVideoImportBytes + sealedImportOverhead
  else maxAPIRequestBodyBytes.

(** ** Requests *)

(** [rq_header] is [r.Header.Get] and [rq_query] is [r.URL.Query().Get], empty
    when there is none; [rq_body] is what reading the body gives, nothing when
    it breaks off. *)
Record Request := MkRequest {
  rq_method : string; rq_uri : string; rq_path : string; rq_header : string → string; rq_query : string → string;
  rq_contentLength : Z; rq_body : option (list N) }.

Definition Refusal : Type := Z * string.

(** The server's state: the database and the bodies it holds. *)
Record Api := MkApi { api_db : Db; api_bodies : byteBudget }.
#[export] Instance api_eta : Eta Api := λ a, MkApi a.(api_db) a.(api_bodies).
Notation Handler := (M Api Refusal).

(** A store operation called from a handler: its errors become replies. *)
Definition store_call {A} (op : Tx A) (refusal : Err → Refusal) : Handler A := λ a,
  match op a.(api_db) with
  | (db, inr x) => (a <| api_db := db |>, inr x)
  | (db, inl e) => (a <| api_db := db |>, inl (refusal e))
  end.

Definition internal_error (code : string) : Refusal := (500, code).

(** *** withJSON *)

(** The check before a handler runs; reading past the limit fails. *)
Definition withJSON {A} (r : Request) (next : Request → Handler A) : Handler A :=
  let limit := apiRequestBodyLimit r.(rq_path) in
  refuse_if (limit <? r.(rq_contentLength)) (413, "request_body_too_large"%string);;
  next (MkRequest r.(rq_method) r.(rq_uri) r.(rq_path) r.(rq_header) r.(rq_query) r.(rq_contentLength)
          (match r.(rq_body) with
           | Some body => if limit <? Z.of_nat (length body) then None else Some body
           | None => None
           end)).

Definition signedBodyCharge (r : Request) : Z :=
  if r.(rq_contentLength) <? 0 then apiRequestBodyLimit r.(rq_path)
  else if r.(rq_contentLength) <=? unchargedSignedBodyBytes then 0
  else r.(rq_contentLength).

Definition body_hash (body : list N) : string := raw_url_encode (Sum256 body).

(** The bytes stay charged until [end_request]. *)
Definition readSignedBody (r : Request) (accountID bodyHash signer : string) : Handler (list N) :=
  let charge := signedBodyCharge r in
  (if 0 <? charge then
     a ← gets Datatypes.id;
     bodies ← require (reserve accountID charge a.(api_bodies)) (429, "request_budget_exceeded"%string);
     modify (λ a, a <| api_bodies := bodies |>)
   else mret tt);;
  body ← require r.(rq_body) (400, "read request body"%string);
  refuse_if (negb (body_hash body =?s bodyHash)) (401, signer +:+ " body hash mismatch");;
  mret body.

Definition end_request (r : Request) (accountID : string) (a : Api) : Api :=
  let charge := signedBodyCharge r in
  if 0 <? charge then a <| api_bodies := release accountID charge a.(api_bodies) |> else a.

(** ** Signatures *)

(** What [x509.ParsePKIXPublicKey] gives: an error, an ECDSA key or another. *)
Inductive pkix (K : Type) := PkixError | PkixECDSA (k : K) | PkixOther.
Arguments PkixError {K}.
Arguments PkixECDSA {K} k.
Arguments PkixOther {K}.

(** crypto/ecdsa, crypto/x509 and encoding/pem. *)
Class Signatures : Type := {
  VerifyingKey : Type;
  SigningKey : Type;
  ParsePKIXPublicKey : list N → pkix VerifyingKey;
  MarshalPKIXPublicKey : VerifyingKey → option (list N);
  (** The name of the key's curve, [Curve.Params().Name]. *)
  CurveName : VerifyingKey → string;
  PemDecode : string → option (list N);
  VerifyASN1 : VerifyingKey → list N → list N → bool;
  (** The key's public half, and a signature made with the random bytes given. *)
  PublicHalf : SigningKey → VerifyingKey;
  SignASN1 : list N → SigningKey → list N → option (list N) }.

(** Accepted clock differences. *)
Definition max_skew : Z := 5 * minute_us.
Definition unix_time (timestamp : Z) : Z := timestamp * second_us.
Definition outside_window (now timestamp : Z) : bool :=
  let skew := now - unix_time timestamp in (max_skew <? skew) || (skew <? - max_skew).

(** internal/callbackauth: what the control plane signs when it calls a node. *)
Module callbackauth.
Definition SignatureContext : string := "VIRTROID-CONTROL-CALLBACK-SIGNATURE-V1".

Definition Canonical (method requestURI timestamp nonce bodyHash : string) : list N :=
  join_lines [SignatureContext; ToUpper method; requestURI; TrimSpace timestamp; TrimSpace nonce; TrimSpace bodyHash].
End callbackauth.

Section signatures.
Context `{Signatures}.

(** *** nodeauth.go *)

Definition SignatureContext : string := "VIRTROID-NODE-SIGNATURE-V1".

Definition decodeKeyMaterial (material : string) : option (list N) :=
  let material := TrimSpace material in
  if material =?s "" then None
  else if Contains material "-----BEGIN" then PemDecode material
  else match std_decode material with
       | Some decoded => Some decoded
       | None => match raw_std_decode material with
                 | Some decoded => Some decoded
                 | None => raw_url_decode material
                 end
       end.

Definition isP256PublicKey (publicKey : VerifyingKey) : bool := CurveName publicKey =?s "P-256".

Definition ParsePublicKey (material : string) : option VerifyingKey :=
  keyDER ← decodeKeyMaterial material;
  match ParsePKIXPublicKey keyDER with
  | PkixECDSA k => if isP256PublicKey k then Some k else None
  | _ => None
  end.

(** The canonical key and its fingerprint. *)
Definition NormalizePublicKey (material : string) : option (string * string) :=
  publicKey ← ParsePublicKey material;
  der ← MarshalPKIXPublicKey publicKey;
  Some (std_encode der, hex_encode (Sum256 der)).

Definition Canonical (method requestURI nodeID timestamp nonce bodyHash : string) : list N :=
  join_lines [SignatureContext; ToUpper method; requestURI; TrimSpace nodeID; TrimSpace timestamp; TrimSpace nonce; TrimSpace bodyHash].

Definition Verify (publicKeyMaterial method requestURI nodeID timestamp nonce bodyHash signatureMaterial : string) : bool :=
  match ParsePublicKey publicKeyMaterial, raw_url_decode (TrimSpace signatureMaterial) with
  | Some publicKey, Some signatureDER =>
    VerifyASN1 publicKey (Sum256 (Canonical method requestURI nodeID timestamp nonce bodyHash)) signatureDER
  | _, _ => false
  end.

Definition PublicKeyMaterial (publicKey : VerifyingKey) : option string := std_encode <$> MarshalPKIXPublicKey publicKey.

(** The body's hash and the signature; [rnd] is [rand.Reader]. *)
Definition Sign (rnd : list N) (privateKey : SigningKey) (method requestURI nodeID timestamp nonce : string) (body : list N)
    : option (string * string) :=
  let bodyHash := body_hash body in
  signature ← SignASN1 rnd privateKey (Sum256 (Canonical method requestURI nodeID timestamp nonce bodyHash));
  Some (bodyHash, raw_url_encode signature).

Definition set_header (key value : string) (r : Request) : Request :=
  MkRequest r.(rq_method) r.(rq_uri) r.(rq_path) (λ k, if k =?s key then value else r.(rq_header) k) r.(rq_query)
    r.(rq_contentLength) r.(rq_body).

Definition ApplySignedHeaders (rnd : list N) (r : Request) (privateKey : SigningKey) (nodeID : string) (body : list N)
    (publicKey registrationSecret nowUnix nonce : string) : option Request :=
  '(bodyHash, signature) ← Sign rnd privateKey r.(rq_method) r.(rq_uri) nodeID nowUnix nonce body;
  let r := set_header "X-Virtroid-Node-ID" (TrimSpace nodeID) r in
  let r := set_header "X-Virtroid-Node-Timestamp" (TrimSpace nowUnix) r in
  let r := set_header "X-Virtroid-Node-Nonce" (TrimSpace nonce) r in
  let r := set_header "X-Virtroid-Node-Body-SHA256" bodyHash r in
  let r := set_header "X-Virtroid-Node-Signature" signature r in
  let r := if negb (TrimSpace publicKey =?s "") then set_header "X-Virtroid-Node-Public-Key" (TrimSpace publicKey) r else r in
  Some (if negb (TrimSpace registrationSecret =?s "")
        then set_header "X-Virtroid-Node-Registration-Secret" (TrimSpace registrationSecret) r else r).

(** *** callbackauth.go *)

Definition SignHash (rnd : list N) (privateKey : SigningKey) (method requestURI timestamp nonce bodyHash : string) : option string :=
  signature ← SignASN1 rnd privateKey (Sum256 (callbackauth.Canonical method requestURI timestamp nonce bodyHash));
  Some (raw_url_encode signature).

Definition VerifyCallback (publicKeyMaterial method requestURI timestamp nonce bodyHash signatureMaterial : string) : bool :=
  match ParsePublicKey publicKeyMaterial, raw_url_decode (TrimSpace signatureMaterial) with
  | Some publicKey, Some signature =>
    VerifyASN1 publicKey (Sum256 (callbackauth.Canonical method requestURI timestamp nonce bodyHash)) signature
  | _, _ => false
  end.

(** *** Phones *)

Definition deviceSignatureContext : string := "VIRTROID-DEVICE-SIGNATURE-V1".
Definition relaySignatureContext : string := "VIRTROID-RELAY-SIGNATURE-V1".

Definition signedRequestCanonicalFor (signatureContext method requestURI accountID deviceID timestamp nonce bodyHash : string) : list N :=
  join_lines [signatureContext; ToUpper method; requestURI; accountID; deviceID; timestamp; nonce; bodyHash].
Definition signedRequestCanonical : string → string → string → string → string → string → string → list N :=
  signedRequestCanonicalFor deviceSignatureContext.

(** The account and the device. *)
Definition requireSignedRequest (now : Z) (r : Request) (lookupPublicKey : string → string → Tx string) (signatureContext : string)
    : Handler (string * string * list N) :=
  let accountID := TrimSpace (r.(rq_header) "X-Virtroid-Account-ID") in
  let deviceID := TrimSpace (r.(rq_header) "X-Virtroid-Device-ID") in
  let timestampRaw := TrimSpace (r.(rq_header) "X-Virtroid-Timestamp") in
  let nonce := TrimSpace (r.(rq_header) "X-Virtroid-Nonce") in
  let bodyHash := TrimSpace (r.(rq_header) "X-Virtroid-Body-SHA256") in
  let signatureRaw := TrimSpace (r.(rq_header) "X-Virtroid-Signature") in
  refuse_if ((accountID =?s "") || (deviceID =?s "") || (timestampRaw =?s "") || (nonce =?s "") || (bodyHash =?s "")
             || (signatureRaw =?s "")) (401, "signed device request headers are required"%string);;
  timestamp ← require (ParseInt timestampRaw) (401, "invalid device signature timestamp"%string);
  refuse_if (outside_window now timestamp) (401, "device signature timestamp is outside the allowed window"%string);;
  publicKeyMaterial ← store_call (lookupPublicKey accountID deviceID)
    (λ e, match e with ErrDeviceNotFound => (404, "device not found"%string) | _ => internal_error "device_key_lookup_failed" end);
  publicKeyDER ← require (std_decode publicKeyMaterial) (401, "stored device public key is invalid"%string);
  publicKey ← match ParsePKIXPublicKey publicKeyDER with
              | PkixECDSA k => mret k
              | PkixError => throw (401, "stored device public key is invalid"%string)
              | PkixOther => throw (401, "stored device public key type is unsupported"%string)
              end;
  signatureDER ← require (raw_url_decode signatureRaw) (401, "device signature is invalid"%string);
  let canonical := signedRequestCanonicalFor signatureContext r.(rq_method) r.(rq_uri) accountID deviceID timestampRaw nonce bodyHash in
  refuse_if (negb (VerifyASN1 publicKey (Sum256 canonical) signatureDER)) (401, "device signature verification failed"%string);;
  body ← readSignedBody r accountID bodyHash "device signature";
  store_call (RememberDeviceRequestNonce now accountID deviceID nonce (unix_time timestamp + max_skew))
    (λ e, match e with ErrDeviceRequestReplay => (401, "device request nonce has already been used"%string) | _ => internal_error "device_nonce_persist_failed" end);;
  mret (accountID, deviceID, body).

Definition requireSignedDeviceRequest (now : Z) (r : Request) : Handler (string * string * list N) :=
  requireSignedRequest now r DevicePublicKey deviceSignatureContext.

(** *** Runtime capabilities *)

Record runtimeActor := MkActor { ra_accountID : string; ra_deviceID : string; ra_capabilityID : string; ra_capability : bool }.
Record signedCapabilityRequest := MkSignedCapability {
  sc_actor : runtimeActor; sc_nonce : string; sc_expires : Z; sc_bodyHash : string }.

Definition capabilityRequestCanonical (method requestURI capabilityID timestamp nonce bodyHash : string) : list N :=
  join_lines ["VIRTROID-CAPABILITY-SIGNATURE-V1"%string; ToUpper method; requestURI; capabilityID; timestamp; nonce; bodyHash].

Definition runtimeCapabilityID (runtimeID publicKeyMaterial : string) : string :=
  raw_url_encode (take 16 (Sum256 (join_lines
    ["VIRTROID-RUNTIME-CAPABILITY-ID-V1"%string; TrimSpace runtimeID; TrimSpace publicKeyMaterial]))).

Definition parseECDSAPublicKeyMaterial (publicKeyMaterial : string) : option VerifyingKey :=
  publicKeyDER ← std_decode (TrimSpace publicKeyMaterial);
  match ParsePKIXPublicKey publicKeyDER with PkixECDSA k => Some k | _ => None end.

Definition verifyRuntimeCapabilitySignature (now : Z) (r : Request) (runtimeID : string) : Handler signedCapabilityRequest :=
  let capabilityID := TrimSpace (r.(rq_header) "X-Virtroid-Capability-ID") in
  let timestampRaw := TrimSpace (r.(rq_header) "X-Virtroid-Capability-Timestamp") in
  let nonce := TrimSpace (r.(rq_header) "X-Virtroid-Capability-Nonce") in
  let bodyHash := TrimSpace (r.(rq_header) "X-Virtroid-Capability-Body-SHA256") in
  let signatureRaw := TrimSpace (r.(rq_header) "X-Virtroid-Capability-Signature") in
  refuse_if ((capabilityID =?s "") || (timestampRaw =?s "") || (nonce =?s "") || (bodyHash =?s "") || (signatureRaw =?s ""))
    (401, "runtime capability signature headers are required"%string);;
  timestamp ← require (ParseInt timestampRaw) (401, "invalid runtime capability signature timestamp"%string);
  refuse_if (outside_window now timestamp) (401, "runtime capability signature timestamp is outside the allowed window"%string);;
  '(accountID, publicKeyMaterial) ← store_call (RuntimeCapabilityPublicKey now runtimeID capabilityID)
    (λ e, match e with ErrRuntimeCapability => (401, "runtime capability is invalid or expired"%string)
                     | _ => internal_error "runtime_capability_lookup_failed" end);
  publicKey ← require (parseECDSAPublicKeyMaterial publicKeyMaterial) (401, "stored runtime capability public key is invalid"%string);
  signatureDER ← require (raw_url_decode signatureRaw) (401, "runtime capability signature is invalid"%string);
  let canonical := capabilityRequestCanonical r.(rq_method) r.(rq_uri) capabilityID timestampRaw nonce bodyHash in
  refuse_if (negb (VerifyASN1 publicKey (Sum256 canonical) signatureDER))
    (401, "runtime capability signature verification failed"%string);;
  mret (MkSignedCapability (MkActor accountID "" capabilityID true) nonce (unix_time timestamp + max_skew) bodyHash).

Definition finishRuntimeCapabilityRequest (now : Z) (signed : signedCapabilityRequest) : Handler unit :=
  let capabilityID := signed.(sc_actor).(ra_capabilityID) in
  store_call (RememberRuntimeCapabilityNonce now capabilityID signed.(sc_nonce) signed.(sc_expires))
    (λ e, match e with ErrRuntimeCapabilityReplay => (401, "runtime capability nonce has already been used"%string)
                     | _ => internal_error "runtime_capability_nonce_failed" end);;
  store_call (TouchRuntimeCapability now capabilityID) (λ _, internal_error "runtime_capability_touch_failed").

Definition requireRuntimeCapabilityRequest (now : Z) (r : Request) (runtimeID : string) : Handler (runtimeActor * list N) :=
  signed ← verifyRuntimeCapabilitySignature now r runtimeID;
  body ← readSignedBody r signed.(sc_actor).(ra_accountID) signed.(sc_bodyHash) "runtime capability signature";
  finishRuntimeCapabilityRequest now signed;;
  mret (signed.(sc_actor), body).

Definition device_actor (signed : string * string * list N) : runtimeActor * list N :=
  let '(accountID, deviceID, body) := signed in (MkActor accountID deviceID "" false, body).

Definition requireRuntimeActor (now : Z) (r : Request) (runtimeID : string) : Handler (runtimeActor * list N) :=
  if negb (TrimSpace (r.(rq_header) "X-Virtroid-Capability-ID") =?s "")
  then requireRuntimeCapabilityRequest now r runtimeID
  else signed ← requireSignedDeviceRequest now r; mret (device_actor signed).

Definition requireSessionActor (now : Z) (r : Request) : Handler (runtimeActor * list N) :=
  if TrimSpace (r.(rq_header) "X-Virtroid-Capability-ID") =?s ""
  then signed ← requireSignedDeviceRequest now r; mret (device_actor signed)
  else
    let runtimeID := TrimSpace (r.(rq_query) "runtime_id") in
    refuse_if (runtimeID =?s "") (400, "runtime_id is required for capability-authenticated session requests"%string);;
    requireRuntimeCapabilityRequest now r runtimeID.

(** A body may repeat who signed, not name another. *)
Definition validateSignedDeviceBody (signedAccountID signedDeviceID bodyAccountID bodyDeviceID : string) : Handler unit :=
  refuse_if (negb (TrimSpace bodyAccountID =?s "") && negb (TrimSpace bodyAccountID =?s signedAccountID))
    (403, "signed account does not match request body"%string);;
  refuse_if (negb (TrimSpace bodyDeviceID =?s "") && negb (TrimSpace bodyDeviceID =?s signedDeviceID))
    (403, "signed device does not match request body"%string).

(** *** Nodes and services *)

Record NodeConfig := MkNodeConfig { nc_AppEnv : string; nc_DevelopmentEnrollment : bool; nc_RegistrationSecret : string }.

(** What a node may enroll with in development. *)
Definition development_keys (cfg : NodeConfig) (r : Request) (allowDevelopmentEnrollment : bool) : Handler (list string * bool) :=
  refuse_if (negb allowDevelopmentEnrollment || negb (EqualFold (TrimSpace cfg.(nc_AppEnv)) "development")
             || negb cfg.(nc_DevelopmentEnrollment)) (401, "node is not approved"%string);;
  refuse_if (negb (cfg.(nc_RegistrationSecret) =?s "")
             && negb (r.(rq_header) "X-Virtroid-Node-Registration-Secret" =?s cfg.(nc_RegistrationSecret)))
    (401, "invalid node registration secret"%string);;
  key ← require (NormalizePublicKey (r.(rq_header) "X-Virtroid-Node-Public-Key"))
    (401, "node public key is required for registration"%string);
  mret ([key.1], true).

(** The approved keys, or those; and whether the node is to be enrolled. *)
Definition node_request_keys (cfg : NodeConfig) (now : Z) (r : Request) (nodeID : string) (allowDevelopmentEnrollment : bool)
    : Handler (list string * bool) :=
  approvedKeys ← (λ a, match AuthorizedNodeKeys now nodeID a.(api_db) with
                       | (_, inr keys) => (a, inr keys)
                       | (_, inl ErrApprovedNodeNotFound) => (a, inr [])
                       | (_, inl _) => (a, inl (internal_error "node_key_lookup_failed"))
                       end) : Handler (list (Z * NodeKey));
  match approvedKeys with
  | _ :: _ => mret ((λ k, k.2.(nk_public_key)) <$> approvedKeys, false)
  | [] => development_keys cfg r allowDevelopmentEnrollment
  end.

Definition enroll_if (developmentEnrollment : bool) (now : Z) (nodeID publicKey : string) : Handler unit :=
  if developmentEnrollment
  then store_call (EnrollDevelopmentNode NormalizePublicKey now nodeID publicKey)
         (λ _, internal_error "development_node_enrollment_failed");; mret tt
  else mret tt.

Definition requireNodeRequest (cfg : NodeConfig) (now : Z) (r : Request) (allowDevelopmentEnrollment : bool)
    : Handler (string * string * list N) :=
  let nodeID := TrimSpace (r.(rq_header) "X-Virtroid-Node-ID") in
  let timestampRaw := TrimSpace (r.(rq_header) "X-Virtroid-Node-Timestamp") in
  let nonce := TrimSpace (r.(rq_header) "X-Virtroid-Node-Nonce") in
  let bodyHash := TrimSpace (r.(rq_header) "X-Virtroid-Node-Body-SHA256") in
  let signatureRaw := TrimSpace (r.(rq_header) "X-Virtroid-Node-Signature") in
  refuse_if ((nodeID =?s "") || (timestampRaw =?s "") || (nonce =?s "") || (bodyHash =?s "") || (signatureRaw =?s ""))
    (401, "signed node request headers are required"%string);;
  timestamp ← require (ParseInt timestampRaw) (401, "invalid node signature timestamp"%string);
  refuse_if (outside_window now timestamp) (401, "node signature timestamp is outside the allowed window"%string);;
  '(keys, developmentEnrollment) ← node_request_keys cfg now r nodeID allowDevelopmentEnrollment;
  let verifiedPublicKey := default ""%string (head (List.filter
    (λ key, Verify key r.(rq_method) r.(rq_uri) nodeID timestampRaw nonce bodyHash signatureRaw) keys)) in
  refuse_if (verifiedPublicKey =?s "") (401, "node signature verification failed"%string);;
  body ← require r.(rq_body) (400, "read request body"%string);
  refuse_if (negb (bodyHash =?s body_hash body)) (401, "node signature body hash mismatch"%string);;
  enroll_if developmentEnrollment now nodeID verifiedPublicKey;;
  store_call (RememberNodeRequestNonce now nodeID nonce (unix_time timestamp + max_skew))
    (λ e, match e with ErrNodeRequestReplay => (401, "node request nonce has already been used"%string)
                     | _ => internal_error "node_nonce_persist_failed" end);;
  mret (nodeID, verifiedPublicKey, body).

Definition requireServiceRequest (now : Z) (r : Request) (signerID publicKey : string) : Handler (list N) :=
  refuse_if (negb (r.(rq_header) "X-Virtroid-Node-ID" =?s signerID)) (401, "signed " +:+ signerID +:+ " request headers are required");;
  let timestampRaw := TrimSpace (r.(rq_header) "X-Virtroid-Node-Timestamp") in
  let nonce := TrimSpace (r.(rq_header) "X-Virtroid-Node-Nonce") in
  let bodyHash := TrimSpace (r.(rq_header) "X-Virtroid-Node-Body-SHA256") in
  let signature := TrimSpace (r.(rq_header) "X-Virtroid-Node-Signature") in
  timestamp ← require (if (nonce =?s "") || (bodyHash =?s "") || (signature =?s "") then None else ParseInt timestampRaw)
    (401, "signed " +:+ signerID +:+ " request headers are required");
  refuse_if (outside_window now timestamp) (401, signerID +:+ " signature timestamp is outside the allowed window");;
  refuse_if (negb (Verify publicKey r.(rq_method) r.(rq_uri) signerID timestampRaw nonce bodyHash signature))
    (401, signerID +:+ " signature verification failed");;
  body ← require r.(rq_body) (400, "read request body"%string);
  refuse_if (negb (body_hash body =?s bodyHash)) (401, signerID +:+ " signature body hash mismatch");;
  store_call (RememberNodeRequestNonce now signerID nonce (unix_time timestamp + max_skew))
    (λ e, match e with ErrNodeRequestReplay => (401, "node request nonce has already been used"%string)
                     | _ => internal_error "service_nonce_persist_failed" end);;
  mret body.
End signatures.

(** ** Facts *)

(** *** Canonical texts *)

Definition one_line (s : string) : Prop := newline ∉ bytes_of s.

Lemma Join_cons_inj (p p' : list ascii) (l l' : list ascii) :
  newline ∉ p → newline ∉ p' → p ++ newline :: l = p' ++ newline :: l' → p = p' ∧ l = l'.
Proof.
  revert p'. induction p as [|c p IH]; intros [|c' p'] Hp Hp' E; cbn in E.
  - by injection E.
  - injection E as <- _. set_solver.
  - injection E as -> _. set_solver.
  - injection E as <- E. destruct (IH p') as [-> ->]; set_solver.
Qed.

Lemma Join_inj parts parts' : Forall one_line parts → Forall one_line parts' → parts ≠ [] → parts' ≠ [] →
  Join newline parts = Join newline parts' → parts = parts'.
Proof.
  intros H. revert parts'. induction H as [|p parts Hp Hs IH]; intros parts' H' Hn Hn' E; [done|].
  destruct H' as [|p' parts' Hp' Hs']; [done|]. cbn [Join] in E.
  destruct parts as [|q parts], parts' as [|q' parts'].
  - f_equal. rewrite <-(of_bytes_of p), E. apply of_bytes_of.
  - exfalso. apply Hp. rewrite E. set_solver.
  - exfalso. apply Hp'. rewrite <-E. set_solver.
  - apply Join_cons_inj in E as [Ep E]; [|done|done]. f_equal.
    + rewrite <-(of_bytes_of p), Ep. apply of_bytes_of.
    + apply IH; try done.
Qed.

Lemma join_lines_inj parts parts' : Forall one_line parts → Forall one_line parts' → parts ≠ [] → parts' ≠ [] →
  join_lines parts = join_lines parts' → parts = parts'.
Proof.
  intros H H' Hn Hn' E. apply Join_inj; try done. unfold join_lines in E.
  apply (f_equal (fmap ascii_of_N)) in E. rewrite <-!list_fmap_compose in E.
  assert (Hid : ∀ l : list ascii, (ascii_of_N ∘ N_of_ascii) <$> l = l).
  { induction l as [|c l IH]; [done|]. cbn. by rewrite IH, ascii_N_embedding. }
  by rewrite !Hid in E.
Qed.

(** *** Base64 with padding *)

Lemma base64std_alphabet n : (n < 64)%N → base64std (base64std_char n) = Some n.
Proof.
  intros Hn. pose proof (below_by_compute (λ n, match base64std (base64std_char n) with Some m => m =? n | None => false end)%N 64
    ltac:(by vm_compute) n Hn) as H. cbv beta in H. destruct (base64std _); [|done]. by apply N.eqb_eq in H as ->.
Qed.

Lemma base64std_printable n : (n < 64)%N →
  is_space (base64std_char n) = false ∧ is_pad (base64std_char n) = false
  ∧ negb ((N_of_ascii (base64std_char n) =? 10) || (N_of_ascii (base64std_char n) =? 13))%N = true.
Proof.
  intros Hn. pose proof (below_by_compute (λ n, negb (is_space (base64std_char n)) && negb (is_pad (base64std_char n))
    && negb ((N_of_ascii (base64std_char n) =? 10) || (N_of_ascii (base64std_char n) =? 13)))%N 64 ltac:(by vm_compute) n Hn) as H.
  cbv beta in H. by apply andb_true_iff in H as [[H1%negb_true_iff H2%negb_true_iff]%andb_true_iff H3].
Qed.

Lemma encode_sextets_three x y z l :
  encode_sextets (x :: y :: z :: l)
  = [(x / 4)%N; (x mod 4 * 16 + y / 16)%N; (y mod 16 * 4 + z / 64)%N; (z mod 64)%N] ++ encode_sextets l.
Proof. done. Qed.

Definition padded (raw : list N) : list ascii :=
  let chars := base64std_char <$> encode_sextets raw in chars ++ repeat "="%char ((4 - length chars mod 4) mod 4).

Lemma padded_three x y z l :
  padded (x :: y :: z :: l)
  = (base64std_char <$> [(x / 4)%N; (x mod 4 * 16 + y / 16)%N; (y mod 16 * 4 + z / 64)%N; (z mod 64)%N]) ++ padded l.
Proof.
  unfold padded. cbv zeta. rewrite encode_sextets_three, fmap_app, <-app_assoc. do 3 f_equal.
  rewrite length_app. cbn [length fmap list_fmap].
  replace (4 + length (base64std_char <$> encode_sextets l))%nat with (length (base64std_char <$> encode_sextets l) + 1 * 4)%nat by lia.
  by rewrite Nat.Div0.mod_add.
Qed.

Lemma std_quads_padded raw : octets raw → std_quads (padded raw) = Some raw.
Proof.
  unfold octets. induction raw as [|x|x y|x y z l IH] using list_three_ind; rewrite ?Forall_cons; intros Ho; destruct_and?; [done| | |].
  - unfold padded. cbn [encode_sextets fmap list_fmap length Nat.modulo Nat.divmod fst snd Nat.sub repeat app std_quads].
    cbn [is_pad N_of_ascii N.eqb]. rewrite !base64std_alphabet by solve_divmod. cbn. do 2 f_equal. solve_divmod.
  - unfold padded. cbn [encode_sextets fmap list_fmap length Nat.modulo Nat.divmod fst snd Nat.sub repeat app std_quads].
    rewrite (proj1 (proj2 (base64std_printable (y mod 16 * 4) ltac:(solve_divmod)))).
    rewrite !base64std_alphabet by solve_divmod. cbn. f_equal. f_equal; [solve_divmod|]. f_equal. solve_divmod.
  - rewrite padded_three. cbn [fmap list_fmap app std_quads]. rewrite (proj1 (proj2 (base64std_printable (z mod 64) ltac:(solve_divmod)))).
    rewrite !base64std_alphabet by solve_divmod. cbn [mbind option_bind]. rewrite IH by done. cbn. f_equal.
    f_equal; [solve_divmod|]. f_equal; [solve_divmod|]. f_equal. solve_divmod.
Qed.

Lemma padded_printable raw : octets raw →
  Forall (λ c, is_space c = false ∧ negb ((N_of_ascii c =? 10) || (N_of_ascii c =? 13))%N = true) (padded raw).
Proof.
  intros Ho. unfold padded. apply Forall_app_2.
  - apply Forall_fmap. eapply Forall_impl; [by apply encode_sextets_bound|]. intros s Hs. cbn.
    destruct (base64std_printable s Hs) as (? & _ & ?). done.
  - apply Forall_forall. intros c Hc. apply list_elem_of_In, repeat_spec in Hc as ->. done.
Qed.

Lemma std_encode_decode raw : octets raw → std_decode (std_encode raw) = Some raw.
Proof.
  intros Ho. unfold std_decode, std_encode. rewrite bytes_of_bytes. fold (padded raw).
  assert (List.filter (λ c, negb ((N_of_ascii c =? 10) || (N_of_ascii c =? 13))%N) (padded raw) = padded raw) as ->;
    [|by apply std_quads_padded].
  induction (padded_printable raw Ho) as [|c l [_ Hc] _ IH]; [done|]. cbn [List.filter]. by rewrite Hc, IH.
Qed.

Lemma std_encode_trim raw : octets raw → TrimSpace (std_encode raw) = std_encode raw.
Proof.
  intros Ho. apply TrimSpace_id. unfold std_encode. rewrite bytes_of_bytes. eapply Forall_impl; [by apply padded_printable|].
  by intros c [? _].
Qed.

(** *** Accepting a request *)

Lemma wp_store_call {A} (op : Tx A) refusal Q X s :
  wp op (λ x db, Q x (s <| api_db := db |>)) (λ e db, X (refusal e) (s <| api_db := db |>)) s.(api_db) →
  wp (store_call op refusal) Q X s.
Proof. unfold wp, store_call. by destruct (op s.(api_db)) as [db [e|x]]. Qed.

Lemma api_same (s : Api) : s <| api_db := s.(api_db) |> = s.
Proof. by destruct s. Qed.

(** A read: the state stays. *)
Lemma wp_store_read {A} (op : Tx A) refusal Q X s :
  (op s.(api_db)).1 = s.(api_db) →
  (∀ x, op s.(api_db) = (s.(api_db), inr x) → Q x s) → (∀ e, op s.(api_db) = (s.(api_db), inl e) → X (refusal e) s) →
  wp (store_call op refusal) Q X s.
Proof.
  intros Hr HQ HX. apply wp_store_call. unfold wp. destruct (op s.(api_db)) as [db [e|x]]; cbn in Hr; subst db; rewrite api_same; auto.
Qed.

Lemma readSignedBody_wp r a h signer s :
  wp (readSignedBody r a h signer)
     (λ body s', r.(rq_body) = Some body ∧ body_hash body = h ∧ s'.(api_db) = s.(api_db))
     (λ _ s', s'.(api_db) = s.(api_db)) s.
Proof.
  unfold readSignedBody. wp_steps; try done.
  all: split_and!; try done; match goal with Hh : negb _ = false |- _ => by apply negb_false_iff, str_eqb_eq in Hh end.
Qed.

(** The ways a request is signed. *)
Inductive signer :=
| DeviceSigner
| CapabilitySigner (runtimeID : string)
| NodeSigner (cfg : NodeConfig) (allowDevelopmentEnrollment : bool)
| ServiceSigner (signerID publicKey : string).

Section authentic.
Context `{Signatures}.

Definition authenticate (k : signer) (now : Z) (r : Request) : Handler (list N) :=
  match k with
  | DeviceSigner => x ← requireSignedDeviceRequest now r; mret x.2
  | CapabilitySigner runtimeID => x ← requireRuntimeCapabilityRequest now r runtimeID; mret x.2
  | NodeSigner cfg dev => x ← requireNodeRequest cfg now r dev; mret x.2
  | ServiceSigner id key => requireServiceRequest now r id key
  end.

Definition header_of (r : Request) (name : string) : string := TrimSpace (r.(rq_header) name).

(** What the nonce table remembers of it, and the signed time. *)
Definition request_of (k : signer) (r : Request) : request :=
  match k with
  | DeviceSigner => DeviceRequest (header_of r "X-Virtroid-Account-ID") (header_of r "X-Virtroid-Device-ID") (header_of r "X-Virtroid-Nonce")
  | CapabilitySigner _ => CapabilityRequest (header_of r "X-Virtroid-Capability-ID") (header_of r "X-Virtroid-Capability-Nonce")
  | NodeSigner _ _ => NodeRequest (header_of r "X-Virtroid-Node-ID") (header_of r "X-Virtroid-Node-Nonce")
  | ServiceSigner id _ => NodeRequest id (header_of r "X-Virtroid-Node-Nonce")
  end.
Definition timestamp_of (k : signer) (r : Request) : string :=
  match k with
  | DeviceSigner => header_of r "X-Virtroid-Timestamp"
  | CapabilitySigner _ => header_of r "X-Virtroid-Capability-Timestamp"
  | NodeSigner _ _ | ServiceSigner _ _ => header_of r "X-Virtroid-Node-Timestamp"
  end.

(** A node may come without an approved key. *)
Definition may_enroll (cfg : NodeConfig) (dev : bool) : Prop :=
  dev = true ∧ cfg.(nc_DevelopmentEnrollment) = true ∧ EqualFold (TrimSpace cfg.(nc_AppEnv)) "development" = true.

(** The keys the registry holds for a node. *)
Definition registered_keys (now : Z) (nodeID : string) (db : Db) : list string :=
  match normalizeRegistryID nodeID with
  | Some nid => (λ k, k.2.(nk_public_key)) <$> authorized_keys now nid db
  | None => []
  end.

(** The key's fingerprint is that of a key the registry holds for the node. *)
Definition enrolled_with (now : Z) (nodeID material : string) (db : Db) : Prop :=
  ∃ nid key fingerprint version n, normalizeRegistryID nodeID = Some nid ∧ NormalizePublicKey material = Some (key, fingerprint)
    ∧ (version, n) ∈ authorized_keys now nid db ∧ n.(nk_fingerprint_sha256) = fingerprint.

(** A node that the registry holds no key for brings its own in development,
    with the secret if there is one, and is enrolled with it. *)
Definition enrolls (cfg : NodeConfig) (dev : bool) (now : Z) (r : Request) (nodeID material : string) (db db' : Db) : Prop :=
  registered_keys now nodeID db = [] ∧ may_enroll cfg dev
  ∧ (cfg.(nc_RegistrationSecret) = ""%string
     ∨ r.(rq_header) "X-Virtroid-Node-Registration-Secret"%string = cfg.(nc_RegistrationSecret))
  ∧ (∃ fingerprint, NormalizePublicKey (r.(rq_header) "X-Virtroid-Node-Public-Key"%string) = Some (material, fingerprint))
  ∧ enrolled_with now nodeID material db'.

(** A key of the signer verifies the signature that the request carries, over
    the request as it is: its method, its URI, the signer, the time, the nonce
    and its body.  [db] and [db'] are the database before and after. *)
Definition signed_by (k : signer) (now : Z) (r : Request) (body : list N) (db db' : Db) : Prop :=
  match k with
  | DeviceSigner =>
    let a := header_of r "X-Virtroid-Account-ID" in let did := header_of r "X-Virtroid-Device-ID" in
    ∃ d der key signature, live_account a db = true ∧ own_device a did db = Some d
      ∧ std_decode (TrimSpace d.(dv_public_key)) = Some der ∧ ParsePKIXPublicKey der = PkixECDSA key
      ∧ raw_url_decode (header_of r "X-Virtroid-Signature") = Some signature
      ∧ VerifyASN1 key (Sum256 (signedRequestCanonical r.(rq_method) r.(rq_uri) a did (timestamp_of k r)
                                  (header_of r "X-Virtroid-Nonce") (body_hash body))) signature = true
  | CapabilitySigner runtimeID =>
    let id := header_of r "X-Virtroid-Capability-ID" in
    ∃ c rt key signature, db.(db_capabilities) !! id = Some c ∧ db.(db_runtimes) !! TrimSpace runtimeID = Some rt
      ∧ capability_serves now id (TrimSpace runtimeID) rt db = true ∧ parseECDSAPublicKeyMaterial c.(ca_public_key) = Some key
      ∧ raw_url_decode (header_of r "X-Virtroid-Capability-Signature") = Some signature
      ∧ VerifyASN1 key (Sum256 (capabilityRequestCanonical r.(rq_method) r.(rq_uri) id (timestamp_of k r)
                                  (header_of r "X-Virtroid-Capability-Nonce") (body_hash body))) signature = true
  | NodeSigner cfg dev =>
    let id := header_of r "X-Virtroid-Node-ID" in
    ∃ material, Verify material r.(rq_method) r.(rq_uri) id (timestamp_of k r) (header_of r "X-Virtroid-Node-Nonce")
                  (body_hash body) (header_of r "X-Virtroid-Node-Signature") = true
      ∧ (material ∈ registered_keys now id db ∨ enrolls cfg dev now r id material db db')
  | ServiceSigner id key =>
    r.(rq_header) "X-Virtroid-Node-ID"%string = id
    ∧ Verify key r.(rq_method) r.(rq_uri) id (timestamp_of k r) (header_of r "X-Virtroid-Node-Nonce") (body_hash body)
        (header_of r "X-Virtroid-Node-Signature") = true
  end.

(** The state at the nonce check: only a node enrolled in development is new. *)
Definition before_nonce (k : signer) (db db1 : Db) : Prop :=
  db1.(db_device_nonces) = db.(db_device_nonces) ∧ db1.(db_node_nonces) = db.(db_node_nonces)
  ∧ db1.(db_capability_nonces) = db.(db_capability_nonces)
  ∧ match k with NodeSigner _ true => True | _ => db1 = db end.

Definition accepted (k : signer) (now : Z) (r : Request) (s : Api) (body : list N) (s' : Api) : Prop :=
  ∃ ts db1 db2, ParseInt (timestamp_of k r) = Some ts ∧ outside_window now ts = false ∧ r.(rq_body) = Some body
    ∧ signed_by k now r body s.(api_db) s'.(api_db) ∧ before_nonce k s.(api_db) db1
    ∧ accept now (unix_time ts + max_skew) (request_of k r) db1 = (db2, inr tt)
    ∧ s'.(api_db) = match k with
                    | CapabilitySigner _ => (TouchRuntimeCapability now (header_of r "X-Virtroid-Capability-ID") db2).1
                    | _ => db2
                    end.

Lemma before_nonce_refl k db : before_nonce k db db.
Proof. split_and!; try done. by destruct k as [| |? []|]. Qed.

Lemma DevicePublicKey_read a d db : (DevicePublicKey a d db).1 = db.
Proof. symmetry. apply (stable_of_wp (same (λ db, db))). clear. intros db. unfold DevicePublicKey. by wp_steps. Qed.

(** The nonce check, as the last or last but one step. *)
Lemma wp_remember now e q refusal (Q : unit → Api → Prop) X s :
  (∀ db2, accept now e q s.(api_db) = (db2, inr tt) → Q tt (s <| api_db := db2 |>)) →
  (∀ err, X (refusal err) s) → wp (store_call (accept now e q) refusal) Q X s.
Proof.
  intros HQ HX. apply wp_store_call. pose proof (accept_wp now e q s.(api_db)) as Hw. unfold wp in *.
  destruct (accept now e q s.(api_db)) as [db [err|[]]] eqn:E; [subst db; rewrite api_same; apply HX | by apply HQ].
Qed.

Lemma device_accepted now r s :
  wp (authenticate DeviceSigner now r) (accepted DeviceSigner now r s) (λ _ s', s'.(api_db) = s.(api_db)) s.
Proof.
  unfold authenticate, requireSignedDeviceRequest, requireSignedRequest. wp_steps; try done.
  match goal with Ht : ParseInt _ = Some ?ts, Hw : outside_window _ _ = false |- _ => rename Ht into Hts, Hw into Hwin end.
  apply wp_store_read; [apply DevicePublicKey_read | | done]. intros material Hm. wp_steps; [|done].
  match goal with Hd : std_decode _ = Some _ |- _ => rename Hd into Hder end.
  destruct (ParsePKIXPublicKey _) as [|key|] eqn:Hk; wp_steps; try done.
  match goal with Hs : raw_url_decode _ = Some _, Hv : negb (VerifyASN1 _ _ _) = false |- _ =>
    rename Hs into Hsig; apply negb_false_iff in Hv; rename Hv into Hver end.
  eapply wp_mono; [apply readSignedBody_wp | | done]. intros body s1 (Hb & Hh & Hdb). wp_steps.
  change (RememberDeviceRequestNonce now ?x ?y ?n ?e) with (accept now e (DeviceRequest x y n)).
  apply wp_remember; [|by intros err]. intros db2 Hacc. wp_steps. cbn [snd]. rewrite Hdb in Hacc.
  eexists _, _, db2. split_and!; [exact Hts | done | done | | apply before_nonce_refl | exact Hacc | done].
  apply (wp_run _ (λ mat _, ∃ d, live_account (header_of r "X-Virtroid-Account-ID") s.(api_db) = true
    ∧ own_device (header_of r "X-Virtroid-Account-ID") (header_of r "X-Virtroid-Device-ID") s.(api_db) = Some d
    ∧ mat = TrimSpace d.(dv_public_key)) (λ _ _, True)) in Hm as (d & Hl & Hd & ->).
  - eexists d, _, key, _. split_and!; [exact Hl | exact Hd | exact Hder | exact Hk | exact Hsig | rewrite Hh; exact Hver].
  - unfold DevicePublicKey. wp_steps; try done. eexists; split_and!; try done. by apply negb_false_iff.
Qed.

Lemma RuntimeCapabilityPublicKey_run now rid cid db :
  wp (RuntimeCapabilityPublicKey now rid cid)
     (λ res db', db' = db ∧ ∃ c rt, db.(db_capabilities) !! TrimSpace cid = Some c ∧ db.(db_runtimes) !! TrimSpace rid = Some rt
        ∧ capability_serves now (TrimSpace cid) (TrimSpace rid) rt db = true ∧ res = (c.(ca_account_id), c.(ca_public_key)))
     (λ _ db', db' = db) db.
Proof.
  unfold RuntimeCapabilityPublicKey. wp_steps; try done. split; [done|].
  match goal with Hn : negb _ = false |- _ => apply negb_false_iff, andb_true_iff in Hn as [Hs _] end. eauto 6.
Qed.

Lemma capability_accepted rid now r s :
  wp (authenticate (CapabilitySigner rid) now r) (accepted (CapabilitySigner rid) now r s) (λ _ s', s'.(api_db) = s.(api_db)) s.
Proof.
  unfold authenticate, requireRuntimeCapabilityRequest, verifyRuntimeCapabilitySignature. wp_steps; try done.
  match goal with Ht : ParseInt _ = Some ?ts, Hw : outside_window _ _ = false, Ho : _ || _ = false |- _ =>
    rename Ht into Hts, Hw into Hwin; rewrite !orb_false_iff in Ho; destruct Ho as [[[[Hid _] _] _] _] end.
  apply wp_store_call. eapply wp_mono; [apply RuntimeCapabilityPublicKey_run | |by intros e ? ->].
  intros [acct material] db' (-> & c & rt & Hc & Hrt & Hserves & [= -> ->]). rewrite api_same. rewrite TrimSpace_idemp in Hc, Hserves.
  wp_steps; try done.
  match goal with Hk : parseECDSAPublicKeyMaterial _ = Some ?k, Hs : raw_url_decode _ = Some _, Hv : negb (VerifyASN1 _ _ _) = false |- _ =>
    apply negb_false_iff in Hv; rename Hk into Hkey, Hs into Hsig, Hv into Hver end.
  eapply wp_mono; [apply readSignedBody_wp | | done]. intros body s1 (Hb & Hh & Hdb). unfold finishRuntimeCapabilityRequest.
  cbn [sc_actor sc_nonce sc_expires sc_bodyHash ra_capabilityID] in *. wp_steps.
  change (RememberRuntimeCapabilityNonce now ?x ?n ?e) with (accept now e (CapabilityRequest x n)).
  apply wp_remember; [|by intros err]. intros db2 Hacc. rewrite Hdb in Hacc.
  apply wp_store_call. unfold TouchRuntimeCapability at 1. wp_steps; [by rewrite TrimSpace_idemp in *; congruence|].
  eexists _, _, db2. split_and!; [exact Hts | done | done | | apply before_nonce_refl | exact Hacc |].
  - eexists c, rt, _, _. split_and!; [exact Hc | exact Hrt | exact Hserves | exact Hkey | exact Hsig | cbn [snd]; rewrite Hh; exact Hver].
  - unfold TouchRuntimeCapability, header_of, refuse_if. rewrite TrimSpace_idemp, Hid. done.
Qed.

Lemma service_accepted id key now r s :
  wp (authenticate (ServiceSigner id key) now r) (accepted (ServiceSigner id key) now r s) (λ _ s', s'.(api_db) = s.(api_db)) s.
Proof.
  unfold authenticate, requireServiceRequest. wp_steps; try done.
  match goal with Ht : (if _ then None else _) = Some ?ts, Hw : outside_window _ _ = false, Hv : negb (Verify _ _ _ _ _ _ _ _) = false,
     Hb : rq_body r = Some _, Hh : negb (_ =?s _) = false |- _ =>
    rename Ht into Hts, Hw into Hwin; apply negb_false_iff in Hv; rename Hv into Hver; rename Hb into Hbody end.
  match goal with Hh : negb (body_hash _ =?s _) = false |- _ => apply negb_false_iff, str_eqb_eq in Hh; rename Hh into Hhash end.
  destruct (_ || _) in Hts; [done|].
  match goal with Hi : negb (rq_header r _ =?s id) = false |- _ => apply negb_false_iff, str_eqb_eq in Hi; rename Hi into Hid end.
  change (RememberNodeRequestNonce now ?x ?n ?e) with (accept now e (NodeRequest x n)).
  apply wp_remember; [|by intros err]. intros db2 Hacc. wp_steps.
  eexists _, _, db2. split_and!; [exact Hts | done | exact Hbody | | apply before_nonce_refl | exact Hacc | done].
  cbn [signed_by]. rewrite Hhash. split; [exact Hid | exact Hver].
Qed.

Lemma AuthorizedNodeKeys_run now id db :
  wp (AuthorizedNodeKeys now id)
     (λ keys db', db' = db ∧ (λ k, k.2.(nk_public_key)) <$> keys = registered_keys now id db)
     (λ e db', db' = db ∧ (e = ErrApprovedNodeNotFound → registered_keys now id db = [])) db.
Proof.
  unfold AuthorizedNodeKeys, registered_keys. destruct (normalizeRegistryID id) eqn:E; wp_steps; try done.
  split; [done|]. intros _. by destruct (authorized_keys _ _ _).
Qed.

(** Where the keys of a node's request come from. *)
Definition keys_from (cfg : NodeConfig) (dev : bool) (now : Z) (r : Request) (id : string) (db : Db) (res : list string * bool) : Prop :=
  if res.2
  then registered_keys now id db = [] ∧ may_enroll cfg dev
       ∧ (cfg.(nc_RegistrationSecret) = ""%string
          ∨ r.(rq_header) "X-Virtroid-Node-Registration-Secret"%string = cfg.(nc_RegistrationSecret))
       ∧ ∃ key fingerprint, NormalizePublicKey (r.(rq_header) "X-Virtroid-Node-Public-Key"%string) = Some (key, fingerprint)
                            ∧ res.1 = [key]
  else res.1 = registered_keys now id db.

Lemma development_keys_wp cfg r now id dev s : registered_keys now id s.(api_db) = [] →
  wp (development_keys cfg r dev) (λ res s', s' = s ∧ keys_from cfg dev now r id s.(api_db) res) (λ _ s', s' = s) s.
Proof.
  intros Hnone. unfold development_keys. wp_steps; try done. split; [done|]. unfold keys_from. cbn [fst snd].
  match goal with Ho : negb dev || _ || _ = false |- _ =>
    rewrite !orb_false_iff in Ho; destruct Ho as [[?%negb_false_iff ?%negb_false_iff] ?%negb_false_iff] end.
  split_and!; [done | done | | by match goal with k : string * string |- _ => exists k.1, k.2; rewrite <-surjective_pairing end].
  match goal with Hs : negb _ && negb _ = false |- _ =>
    apply andb_false_iff in Hs as [Hs%negb_false_iff%str_eqb_eq|Hs%negb_false_iff%str_eqb_eq]; auto end.
Qed.

Lemma node_request_keys_wp cfg now r id dev s :
  wp (node_request_keys cfg now r id dev) (λ res s', s' = s ∧ keys_from cfg dev now r id s.(api_db) res) (λ _ s', s' = s) s.
Proof.
  unfold node_request_keys. rewrite wp_bind. unfold wp at 1.
  destruct (AuthorizedNodeKeys now id s.(api_db)) as [db' res] eqn:E.
  pose proof (wp_run _ _ _ _ _ _ (AuthorizedNodeKeys_run now id s.(api_db)) E) as Hw. clear E.
  destruct res as [e|keys]; [destruct Hw as [_ Hw]; destruct e; try done; apply development_keys_wp; auto|].
  destruct Hw as [_ Hw]. destruct keys as [|k keys]; [by apply development_keys_wp|]. wp_steps. split; [done|]. exact Hw.
Qed.

Definition nonces (db : Db) := (db.(db_device_nonces), db.(db_node_nonces), db.(db_capability_nonces)).

Lemma enroll_nonces N now id key : stable (same nonces) (EnrollDevelopmentNode N now id key).
Proof.
  unfold EnrollDevelopmentNode, ApproveNode, ApprovedNodeOf, registry_id, required_text, normalize_key, ensure_operator,
    approve_node_row, insert_active_key, appendNodeRegistryAuditTX, appendOperatorRegistryAuditTX, active_fingerprint.
  by stable_steps.
Qed.

Lemma EnrollDevelopmentNode_enrolls now id key db :
  wp (EnrollDevelopmentNode NormalizePublicKey now id key) (λ _ db', enrolled_with now id key db') (λ _ _, True) db.
Proof.
  eapply wp_mono; [apply ApproveNode_wp | | done]. intros v db' (nid & op & pk & fp & Hn & _ & Hk & Happ). cbn in Hn, Hk.
  destruct (node_approved_key now _ _ _ _ Happ) as (version & n & Hin & Hf). by exists nid, pk, fp, version, n.
Qed.

Lemma enroll_if_wp b now id key s :
  wp (enroll_if b now id key)
     (λ _ s', nonces s'.(api_db) = nonces s.(api_db) ∧ if b then enrolled_with now id key s'.(api_db) else s' = s)
     (λ _ s', nonces s'.(api_db) = nonces s.(api_db)) s.
Proof.
  unfold enroll_if. destruct b; wp_steps; [|done]. apply wp_store_call.
  pose proof (enroll_nonces NormalizePublicKey now id key s.(api_db)) as Hn.
  pose proof (EnrollDevelopmentNode_enrolls now id key s.(api_db)) as He. unfold wp in He |- *.
  by destruct (EnrollDevelopmentNode _ _ _ _ _) as [db [e|v]].
Qed.

Definition registry (db : Db) := (db.(db_nodes), db.(db_operators), db.(db_node_keys)).
Lemma accept_registry now e q db db' res : accept now e q db = (db', res) → registry db = registry db'.
Proof.
  intros E. assert (Hs : stable (same registry) (accept now e q)).
  { destruct q; cbn [accept]; unfold RememberDeviceRequestNonce, RememberNodeRequestNonce, RememberRuntimeCapabilityNonce; by stable_steps. }
  specialize (Hs db). rewrite E in Hs. done.
Qed.
Lemma enrolled_registry now id key db db' : registry db = registry db' → enrolled_with now id key db → enrolled_with now id key db'.
Proof.
  intros [= H1 H2 H3] (nid & pk & fp & v & n & Hid & Hk & Hin & Hf). exists nid, pk, fp, v, n. split_and!; try done.
  revert Hin. unfold authorized_keys, node_keys. by rewrite H1, H2, H3.
Qed.

Lemma node_accepted cfg dev now r s :
  wp (authenticate (NodeSigner cfg dev) now r) (accepted (NodeSigner cfg dev) now r s)
     (λ _ s', nonces s'.(api_db) = nonces s.(api_db)) s.
Proof.
  unfold authenticate, requireNodeRequest. wp_steps; try done.
  match goal with Ht : ParseInt _ = Some ?ts, Hw : outside_window _ _ = false |- _ => rename Ht into Hts, Hw into Hwin end.
  eapply wp_mono; [apply node_request_keys_wp | | by intros ? ? ->]. intros [keys enroll] s' [-> Hkeys].
  unfold keys_from in Hkeys. cbn [fst snd] in Hkeys. wp_steps; try done.
  match goal with Hb : rq_body r = Some ?b, Hh : negb (_ =?s body_hash _) = false, Hv : (default _ _ =?s "") = false |- _ =>
    rename Hb into Hbody, Hv into Hne; apply negb_false_iff, str_eqb_eq in Hh; rename Hh into Hhash end.
  destruct (List.filter _ keys) as [|material l] eqn:Ef in Hne; [done|]. rewrite Ef. cbn [head default].
  assert (Hm : material ∈ material :: l) by (by left). rewrite <-Ef in Hm. apply list_elem_of_In, filter_In in Hm as [Hin Hver].
  eapply wp_mono; [apply enroll_if_wp | | done]. intros [] s1 [Hnon Hsame].
  change (RememberNodeRequestNonce now ?x ?n ?e) with (accept now e (NodeRequest x n)).
  wp_steps. apply wp_remember; [|by intros err]. intros db2 Hacc. wp_steps. injection Hnon as Hn1 Hn2 Hn3.
  eexists _, s1.(api_db), db2. split_and!; [exact Hts | done | exact Hbody | | | exact Hacc | done].
  - exists material. cbn [snd]. rewrite <-Hhash. split; [exact Hver|]. destruct enroll.
    + right. destruct Hkeys as (Hnone & Hmay & Hsec & key & fp & Hnorm & ->). apply list_elem_of_In, list_elem_of_singleton in Hin as ->.
      split_and!; [done | done | done | by exists fp |]. eapply enrolled_registry; [|exact Hsame]. exact (accept_registry _ _ _ _ _ _ Hacc).
    + left. unfold header_of. rewrite <-Hkeys. by apply list_elem_of_In.
  - split_and!; [done | done | done |]. destruct dev; [done|]. destruct enroll; [by destruct Hkeys as (_ & [? _] & _)|]. by rewrite Hsame.
Qed.

Lemma remembered_nonces q db db' : nonces db = nonces db' → remembered q db = remembered q db'.
Proof. unfold nonces. intros [= H1 H2 H3]. destruct q; cbn; congruence. Qed.
Lemma touch_nonces now id : stable (same nonces) (TouchRuntimeCapability now id).
Proof. unfold TouchRuntimeCapability. by stable_steps. Qed.

(** A request the signer's table remembers is not accepted again. *)
Lemma accept_once now e e' q db db' : remembered q db = Some e → now ≤ e → accept now e' q db ≠ (db', inr tt).
Proof.
  intros Hr Hn Ha. destruct q; cbn [accept remembered] in *.
  - apply (wp_run _ (λ _ _, False) (λ _ _, True)) in Ha; [done|]. unfold RememberDeviceRequestNonce. wp_steps; try done.
    rewrite (remember_refuses _ _ _ _ _ Hr Hn) in *. done.
  - apply (wp_run _ (λ _ _, False) (λ _ _, True)) in Ha; [done|]. unfold RememberNodeRequestNonce. wp_steps; try done.
    rewrite (remember_refuses _ _ _ _ _ Hr Hn) in *. done.
  - apply (wp_run _ (λ _ _, False) (λ _ _, True)) in Ha; [done|]. unfold RememberRuntimeCapabilityNonce. wp_steps; try done.
    rewrite (remember_refuses _ _ _ _ _ Hr Hn) in *. done.
Qed.

Lemma accepted_wp k now r s :
  wp (authenticate k now r) (accepted k now r s)
     (λ _ s', nonces s'.(api_db) = nonces s.(api_db) ∧ match k with NodeSigner _ _ => True | _ => s'.(api_db) = s.(api_db) end) s.
Proof.
  destruct k; (eapply wp_mono; [first [apply device_accepted | apply capability_accepted | apply node_accepted | apply service_accepted]
    | done | by intros e s' ->]).
Qed.
End authentic.

(** *** What is signed *)

(** A text somebody signs, by who signs it. *)
Inductive signed_text :=
| DeviceText (method uri account device timestamp nonce bodyHash : string)
| RelayText (method uri account device timestamp nonce bodyHash : string)
| CapabilityText (method uri capability timestamp nonce bodyHash : string)
| NodeText (method uri node timestamp nonce bodyHash : string)
| CallbackText (method uri timestamp nonce bodyHash : string).

Definition signed_bytes (x : signed_text) : list N :=
  match x with
  | DeviceText m u a d t n h => signedRequestCanonical m u a d t n h
  | RelayText m u a d t n h => signedRequestCanonicalFor relaySignatureContext m u a d t n h
  | CapabilityText m u c t n h => capabilityRequestCanonical m u c t n h
  | NodeText m u i t n h => Canonical m u i t n h
  | CallbackText m u t n h => callbackauth.Canonical m u t n h
  end.

(** The same text, as the signature takes it: nodes' and callbacks' headers are
    trimmed, and methods are in capitals. *)
Definition as_signed (x : signed_text) : signed_text :=
  match x with
  | DeviceText m u a d t n h => DeviceText (ToUpper m) u a d t n h
  | RelayText m u a d t n h => RelayText (ToUpper m) u a d t n h
  | CapabilityText m u c t n h => CapabilityText (ToUpper m) u c t n h
  | NodeText m u i t n h => NodeText (ToUpper m) u (TrimSpace i) (TrimSpace t) (TrimSpace n) (TrimSpace h)
  | CallbackText m u t n h => CallbackText (ToUpper m) u (TrimSpace t) (TrimSpace n) (TrimSpace h)
  end.

Definition text_fields (x : signed_text) : list string :=
  match x with
  | DeviceText m u a d t n h | RelayText m u a d t n h => [m; u; a; d; t; n; h]
  | CapabilityText m u c t n h => [m; u; c; t; n; h]
  | NodeText m u i t n h => [m; u; i; t; n; h]
  | CallbackText m u t n h => [m; u; t; n; h]
  end.
Definition text_context (x : signed_text) : string :=
  match x with
  | DeviceText _ _ _ _ _ _ _ => deviceSignatureContext
  | RelayText _ _ _ _ _ _ _ => relaySignatureContext
  | CapabilityText _ _ _ _ _ _ => "VIRTROID-CAPABILITY-SIGNATURE-V1"
  | NodeText _ _ _ _ _ _ => SignatureContext
  | CallbackText _ _ _ _ _ => callbackauth.SignatureContext
  end.

Lemma signed_bytes_lines x : signed_bytes x = join_lines (text_context x :: text_fields (as_signed x)).
Proof. by destruct x. Qed.

Lemma text_of_fields x y : text_context x = text_context y → text_fields (as_signed x) = text_fields (as_signed y) → as_signed x = as_signed y.
Proof. destruct x, y; intros Hc Hf; try done; cbn -[TrimSpace ToUpper] in *; congruence. Qed.

Lemma one_line_context x : one_line (text_context x).
Proof. unfold one_line. destruct x; apply (bool_decide_unpack _); vm_compute; done. Qed.

(** *** The rate limiter *)

(** A client's key in the table. *)
Definition client_key (client : string) : string :=
  let client := TrimSpace client in if client =?s "" then "unknown"%string else client.

(** Requests of clients at given times, and how many of one client's pass. *)
Fixpoint limited_run (l : rateLimiter) (calls : list (Z * string)) : rateLimiter :=
  match calls with
  | [] => l
  | (now, client) :: calls' => limited_run (allow now client l).1 calls'
  end.
Fixpoint passed (key : string) (l : rateLimiter) (calls : list (Z * string)) : Z :=
  match calls with
  | [] => 0
  | (now, client) :: calls' =>
    (if (client_key client =?s key) && (allow now client l).2.1 then 1 else 0) + passed key (allow now client l).1 calls'
  end.
Fixpoint calls_within (t until : Z) (calls : list (Z * string)) : Prop :=
  match calls with
  | [] => t ≤ until
  | (now, _) :: calls' => t ≤ now ∧ calls_within now until calls'
  end.

(** What a call does to the entry of [key], which is read as none once it is over. *)
Definition live_entry (now : Z) (o : option rateEntry) : option rateEntry :=
  match o with Some e => if e.(re_reset) <=? now then None else Some e | None => None end.

Lemma allow_entry now client key l : 0 < l.(rl_max) →
  let o := live_entry now (l.(rl_clients) !! key) in
  let '(l', (ok, _)) := allow now client l in
  l'.(rl_max) = l.(rl_max) ∧ l'.(rl_window) = l.(rl_window) ∧ l'.(rl_maxClients) = l.(rl_maxClients) ∧
  if (client_key client =?s key) && ok
  then l'.(rl_clients) !! key = Some (match o with Some e => MkRateEntry (e.(re_count) + 1) e.(re_reset) | None => MkRateEntry 1 (now + l.(rl_window)) end)
       ∧ match o with Some e => e.(re_count) < l.(rl_max) | None => True end
  else l'.(rl_clients) !! key = o.
Proof.
  intros Hm. cbv zeta. unfold allow. rewrite (proj2 (Z.leb_gt _ _) Hm). fold (client_key client).
  set (clients := delete_where _ _).
  assert (Hl : clients !! key = live_entry now (l.(rl_clients) !! key)).
  { unfold clients, delete_where. rewrite map_lookup_imap. by destruct (_ !! key) as [e|]. }
  destruct (clients !! client_key client) as [e|] eqn:Ec.
  - destruct (_ <=? _) eqn:El; cbn; rewrite ?andb_false_r, ?andb_true_r; [done|].
    destruct (client_key client =?s key) eqn:Ek; [apply str_eqb_eq in Ek|apply str_eqb_neq in Ek].
    + rewrite Ek in *. rewrite <-Hl, Ec, lookup_insert_eq. apply Z.leb_gt in El. done.
    + rewrite lookup_insert_ne by done. done.
  - destruct (_ && _) eqn:El; cbn; rewrite ?andb_false_r, ?andb_true_r; [done|].
    destruct (client_key client =?s key) eqn:Ek; [apply str_eqb_eq in Ek|apply str_eqb_neq in Ek].
    + rewrite Ek in *. by rewrite <-Hl, Ec, lookup_insert_eq.
    + rewrite lookup_insert_ne by done. done.
Qed.

(** [n] requests of the key passed since [t0], [k] windows before the current one. *)
Definition rate_ok (max window t0 t k n : Z) (o : option rateEntry) : Prop :=
  0 ≤ k ∧ match o with
          | Some e => n ≤ max * k + e.(re_count) ∧ e.(re_count) ≤ max ∧ t0 + (k + 1) * window ≤ e.(re_reset) ∧ e.(re_reset) ≤ t + window
          | None => n ≤ max * k ∧ t0 + k * window ≤ t
          end.

Lemma rate_ok_bound max window t0 t k n o : 0 < max → 0 < window → t0 ≤ t → rate_ok max window t0 t k n o →
  n ≤ max * ((t - t0) / window + 1).
Proof.
  intros Hm Hw Ht [Hk Ho]. destruct o as [e|].
  - destruct Ho as (Hn & Hc & Hr & Hrt). assert (k ≤ (t - t0) / window) by (apply Z.div_le_lower_bound; lia). nia.
  - destruct Ho as [Hn Hr]. assert (k ≤ (t - t0) / window) by (apply Z.div_le_lower_bound; lia). nia.
Qed.

(** Waiting may end the current window. *)
Lemma rate_ok_wait max window t0 t t' k n o : 0 < window → t ≤ t' → rate_ok max window t0 t k n o →
  ∃ k', rate_ok max window t0 t' k' n (live_entry t' o).
Proof.
  intros Hw Ht [Hk Ho]. destruct o as [e|]; cbn [live_entry].
  - destruct Ho as (Hn & Hc & Hr & Hrt). destruct (Z.leb_spec e.(re_reset) t').
    + exists (k + 1). split; [lia|]. split; [nia | nia].
    + exists k. split; [lia|]. split_and!; lia.
  - exists k. split; [lia|]. destruct Ho. split; lia.
Qed.

Lemma limited_bound key calls t0 t until k n l : 0 < l.(rl_max) → 0 < l.(rl_window) → t0 ≤ t → calls_within t until calls →
  rate_ok l.(rl_max) l.(rl_window) t0 t k n (l.(rl_clients) !! key) →
  n + passed key l calls ≤ l.(rl_max) * ((until - t0) / l.(rl_window) + 1).
Proof.
  revert t k n l. induction calls as [|[now client] calls IH]; intros t k n l Hm Hw Ht Hc Hok; cbn [passed calls_within] in *.
  { destruct (rate_ok_wait _ _ _ _ _ _ _ _ Hw Hc Hok) as [k' Hok']. rewrite Z.add_0_r.
    eapply rate_ok_bound; [done | done | | exact Hok']. lia. }
  destruct Hc as [Hnow Hc]. destruct (rate_ok_wait _ _ _ _ _ _ _ _ Hw Hnow Hok) as [k' [Hk' Hok']].
  pose proof (allow_entry now client key l Hm) as Ha. destruct (allow now client l) as [l' [ok wait]]; cbn [fst snd].
  destruct Ha as (Em & Ew & _ & He). rewrite <-Em, <-Ew. rewrite <-Em in Hm. rewrite <-Ew in Hw.
  destruct ((client_key client =?s key) && ok).
  - destruct He as [He Hlt]. rewrite Z.add_assoc. apply (IH now k' (n + 1)); [lia | lia | lia | done |]. rewrite He, Em, Ew.
    split; [lia|]. destruct (live_entry now _) as [e|]; cbn in *; split_and!; lia.
  - rewrite Z.add_0_l. apply (IH now k' n); [lia | lia | lia | done |]. rewrite He, Em, Ew. by split.
Qed.

(** *** The budget for bodies *)

(** Reservations are made and given back in any order; [held] are those out. *)
Inductive budget_step : byteBudget * list (string * Z) → byteBudget * list (string * Z) → Prop :=
| budget_reserve b b' held a n : 0 ≤ n < 2 ^ 62 → reserve a n b = Some b' → budget_step (b, held) (b', (a, n) :: held)
| budget_release b l1 l2 a n : budget_step (b, l1 ++ (a, n) :: l2) (release a n b, l1 ++ l2).

Definition held_bytes (held : list (string * Z)) : Z := foldr (λ r acc, r.2 + acc) 0 held.
Definition held_by (a : string) (held : list (string * Z)) : Z := held_bytes (List.filter (λ r, r.1 =?s a) held).

Definition budget_ok (total perAccount : Z) (st : byteBudget * list (string * Z)) : Prop :=
  st.1.(bb_total) = total ∧ st.1.(bb_perAccount) = perAccount ∧ Forall (λ r, 0 ≤ r.2) st.2
  ∧ st.1.(bb_used) = held_bytes st.2 ∧ held_bytes st.2 ≤ total
  ∧ ∀ a, used_by st.1 a = held_by a st.2 ∧ held_by a st.2 ≤ perAccount.

Lemma wrap64_id z : is_int64 z = true → wrap64 z = z.
Proof.
  unfold is_int64, min_int64, max_int64, wrap64. intros [H1%Z.leb_le H2%Z.leb_le]%andb_true_iff.
  rewrite Z.mod_small; lia.
Qed.

Lemma held_bytes_app l l' : held_bytes (l ++ l') = held_bytes l + held_bytes l'.
Proof. unfold held_bytes. induction l as [|r l IH]; cbn [app foldr]; lia. Qed.
Lemma held_by_app a l l' : held_by a (l ++ l') = held_by a l + held_by a l'.
Proof. unfold held_by. by rewrite List.filter_app, held_bytes_app. Qed.
Lemma held_bytes_nonneg l : Forall (λ r : string * Z, 0 ≤ r.2) l → 0 ≤ held_bytes l.
Proof. unfold held_bytes. induction 1; cbn [foldr]; lia. Qed.
Lemma held_by_le a l : Forall (λ r : string * Z, 0 ≤ r.2) l → 0 ≤ held_by a l ≤ held_bytes l.
Proof.
  unfold held_by, held_bytes. induction 1 as [|r l Hr _ IH]; cbn [List.filter foldr]; [lia|]. destruct (r.1 =?s a); cbn [foldr]; lia.
Qed.

Lemma held_by_cons a b n l : held_by a ((b, n) :: l) = (if b =?s a then n else 0) + held_by a l.
Proof. unfold held_by, held_bytes. cbn [List.filter fst]. by destruct (b =?s a). Qed.

Lemma used_by_write b total per u t a a' : used_by (MkBudget total per u (<[a := t]> b)) a' = if a =?s a' then t else used_by (MkBudget total per u b) a'.
Proof.
  unfold used_by. cbn. destruct (a =?s a') eqn:E; [apply str_eqb_eq in E as ->; by rewrite lookup_insert_eq|].
  apply str_eqb_neq in E. by rewrite lookup_insert_ne.
Qed.

Lemma budget_ok_step total perAccount st st' : total < 2 ^ 62 → perAccount < 2 ^ 62 →
  budget_step st st' → budget_ok total perAccount st → budget_ok total perAccount st'.
Proof.
  intros Ht Hp Hs (Et & Ep & Hf & Hu & Hle & Ha). destruct Hs as [b b' held a n Hn Hr|b l1 l2 a n]; cbn [fst snd] in *.
  - unfold reserve in Hr. destruct (Ha a) as [Hua Hla]. pose proof (held_by_le a held Hf).
    rewrite !wrap64_id in Hr by (unfold is_int64, min_int64, max_int64; lia).
    destruct (_ || _) eqn:El; [done|]. injection Hr as <-. apply orb_false_iff in El as [El1%Z.ltb_ge El2%Z.ltb_ge].
    unfold budget_ok. cbn [fst snd bb_total bb_perAccount bb_used bb_byAccount].
    assert (Hh : held_bytes ((a, n) :: held) = n + held_bytes held) by done.
    split_and!; [done | done | constructor; [cbn; lia | done] | lia | lia |].
    intros a'. rewrite used_by_write, held_by_cons. destruct (Ha a') as [Hua' Hla']. destruct (a =?s a') eqn:E.
    + apply str_eqb_eq in E as ->. lia.
    + unfold used_by in *. cbn. lia.
  - rewrite held_bytes_app in *. assert (Hh : held_bytes ((a, n) :: l2) = n + held_bytes l2) by done. rewrite Hh in *.
    apply Forall_app in Hf as [Hf1 Hf2]. apply Forall_cons in Hf2 as [Hn Hf2]. cbn in Hn.
    pose proof (held_bytes_nonneg l1 Hf1). pose proof (held_bytes_nonneg l2 Hf2).
    destruct (Ha a) as [Hua Hla]. rewrite held_by_app, held_by_cons, str_eqb_refl in Hua.
    pose proof (held_by_le a l1 Hf1). pose proof (held_by_le a l2 Hf2).
    unfold budget_ok, release. cbn [fst snd bb_total bb_perAccount bb_used bb_byAccount].
    rewrite !wrap64_id by (unfold is_int64, min_int64, max_int64; lia).
    split_and!; [done | done | by apply Forall_app | rewrite held_bytes_app; lia | rewrite held_bytes_app; lia |].
    intros a'. destruct (Ha a') as [Hua' Hla']. rewrite held_by_app, held_by_cons in Hua', Hla'. rewrite held_by_app.
    pose proof (held_by_le a' l1 Hf1). pose proof (held_by_le a' l2 Hf2).
    destruct (Z.leb_spec (used_by b a - n) 0) as [Hz|Hz].
    + unfold used_by in *. cbn. destruct (a =?s a') eqn:E; [apply str_eqb_eq in E as ->; rewrite lookup_delete_eq; cbn; lia|].
      pose proof E as E'. apply str_eqb_neq in E'. rewrite lookup_delete_ne by done. lia.
    + rewrite used_by_write. destruct (a =?s a') eqn:E; [apply str_eqb_eq in E as ->; lia|]. unfold used_by in *. cbn. lia.
Qed.

(** *** Signing and checking *)

(** A signature verifies with the public half; a marshalled key is read back. *)
Class SignatureLaws `{Signatures} : Prop := {
  sign_verifies rnd k digest signature : SignASN1 rnd k digest = Some signature →
    octets signature ∧ signature ≠ [] ∧ VerifyASN1 (PublicHalf k) digest signature = true;
  marshal_parses k der : MarshalPKIXPublicKey k = Some der → octets der ∧ der ≠ [] ∧ ParsePKIXPublicKey der = PkixECDSA k }.

Lemma contains_absent c needle l : c ∉ l → contains_list (c :: needle) l = false.
Proof.
  induction l as [|x l IH]; intros Hc; cbn; [done|]. rewrite IH by set_solver. rewrite orb_false_r.
  apply bool_decide_eq_false. intros [= -> _]. set_solver.
Qed.

Lemma padded_no_dash raw : octets raw → "-"%char ∉ padded raw.
Proof.
  intros Ho. unfold padded. rewrite elem_of_app. intros [(s & Hs & Hin)%list_elem_of_fmap|Hin%list_elem_of_In%repeat_spec]; [|done].
  pose proof (encode_sextets_bound raw Ho) as Hb. rewrite Forall_forall in Hb. specialize (Hb s Hin).
  pose proof (below_by_compute (λ n, negb (bool_decide ("-"%char = base64std_char n))) 64 ltac:(by vm_compute) s Hb) as Hc.
  cbv beta in Hc. apply negb_true_iff, bool_decide_eq_false in Hc. done.
Qed.

Lemma std_encode_nonempty raw : raw ≠ [] → std_encode raw ≠ ""%string.
Proof.
  intros Hn E. apply (f_equal bytes_of) in E. unfold std_encode in E. rewrite bytes_of_bytes in E.
  destruct raw as [|x [|y [|z l]]]; done.
Qed.

Lemma ParsePublicKey_marshalled `{SignatureLaws} k material :
  PublicKeyMaterial k = Some material → isP256PublicKey k = true → ParsePublicKey material = Some k.
Proof.
  unfold PublicKeyMaterial. intros (der & Hm & ->)%fmap_Some Hp. destruct (marshal_parses k der Hm) as (Ho & Hne & Hparse).
  unfold ParsePublicKey, decodeKeyMaterial. rewrite std_encode_trim by done.
  rewrite (proj2 (str_eqb_neq _ _) (std_encode_nonempty der Hne)).
  unfold Contains. change (bytes_of "-----BEGIN"%string) with ("-"%char :: bytes_of "----BEGIN"%string).
  rewrite contains_absent; [|unfold std_encode; rewrite bytes_of_bytes; by apply padded_no_dash].
  rewrite std_encode_decode by done. cbn [mbind option_bind]. by rewrite Hparse, Hp.
Qed.

Lemma Sign_Verify `{SignatureLaws} rnd k material method uri id timestamp nonce body h signature :
  PublicKeyMaterial (PublicHalf k) = Some material → isP256PublicKey (PublicHalf k) = true →
  Sign rnd k method uri id timestamp nonce body = Some (h, signature) →
  h = body_hash body ∧ Verify material method uri id (TrimSpace timestamp) (TrimSpace nonce) h signature = true
  ∧ TrimSpace signature = signature ∧ signature ≠ ""%string.
Proof.
  intros Hm Hp. unfold Sign. intros (raw & Hs & [= <- <-])%bind_Some. split; [done|].
  destruct (sign_verifies _ _ _ _ Hs) as (Ho & Hne & Hv). unfold Verify.
  rewrite (ParsePublicKey_marshalled _ _ Hm Hp), raw_url_encode_trim, raw_url_roundtrip by done. split_and!; [|done|].
  - unfold Canonical in *. rewrite !TrimSpace_idemp. exact Hv.
  - intros E. apply (f_equal bytes_of) in E. unfold raw_url_encode in E. rewrite bytes_of_bytes in E. by destruct raw as [|x [|y [|z l]]].
Qed.

Lemma header_set key key' value r : (set_header key value r).(rq_header) key' = if key' =?s key then value else r.(rq_header) key'.
Proof. done. Qed.

(** The headers of a signed request. *)
Lemma ApplySignedHeaders_headers `{Signatures} rnd r k id body pk secret ts nonce r' :
  ApplySignedHeaders rnd r k id body pk secret ts nonce = Some r' →
  ∃ h signature, Sign rnd k r.(rq_method) r.(rq_uri) id ts nonce body = Some (h, signature)
    ∧ r'.(rq_method) = r.(rq_method) ∧ r'.(rq_uri) = r.(rq_uri) ∧ r'.(rq_body) = r.(rq_body)
    ∧ r'.(rq_header) "X-Virtroid-Node-ID"%string = TrimSpace id ∧ r'.(rq_header) "X-Virtroid-Node-Timestamp"%string = TrimSpace ts
    ∧ r'.(rq_header) "X-Virtroid-Node-Nonce"%string = TrimSpace nonce ∧ r'.(rq_header) "X-Virtroid-Node-Body-SHA256"%string = h
    ∧ r'.(rq_header) "X-Virtroid-Node-Signature"%string = signature.
Proof.
  unfold ApplySignedHeaders. intros ([h signature] & Hs & [= <-])%bind_Some. exists h, signature. split; [done|].
  destruct (negb (TrimSpace pk =?s "")), (negb (TrimSpace secret =?s "")); cbn -[TrimSpace str_eqb]; done.
Qed.

Lemma body_hash_trim body : TrimSpace (body_hash body) = body_hash body ∧ body_hash body ≠ ""%string.
Proof.
  unfold body_hash. split; [apply raw_url_encode_trim, Sum256_octets|]. intros E. apply (f_equal bytes_of) in E.
  unfold raw_url_encode in E. rewrite bytes_of_bytes in E. pose proof (Sum256_length body) as Hl.
  destruct (Sum256 body) as [|x [|y [|z l]]]; done.
Qed.

(** ** Properties *)

(** C9: A request is accepted only from its signer.  Whether a phone, a runtime
    capability, a node or an internal service signs it, an accepted request has
    the body that was signed, and the signature in its own header verifies, with
    a key that the database (or the configuration) holds for that signer at that
    moment, over the method, the URI, the signer, the time, the nonce and the
    body's hash; the request is at most five minutes off the clock and its nonce
    is remembered.  The one exception is a node for which the registry holds no
    key: with development enrolment on, and with the registration secret if one
    is set, the key is the one it sends, and the registry holds that key for it
    afterwards.  A refused request spends no nonce and, unless a node signs it,
    leaves the database as it was. *)
Theorem authentic_requests `{Signatures} k now r s :
  match authenticate k now r s with
  | (s', inr body) =>
    r.(rq_body) = Some body ∧ signed_by k now r body s.(api_db) s'.(api_db)
    ∧ ∃ ts, ParseInt (timestamp_of k r) = Some ts ∧ Z.abs (now - unix_time ts) ≤ 5 * minute_us
        ∧ remembered (request_of k r) s'.(api_db) = Some (unix_time ts + 5 * minute_us)
  | (s', inl _) =>
    nonces s'.(api_db) = nonces s.(api_db) ∧ (match k with NodeSigner _ _ => False | _ => True end → s'.(api_db) = s.(api_db))
  end.
Proof.
  destruct (authenticate k now r s) as [s' res] eqn:E. apply (wp_run _ _ _ _ _ _ (accepted_wp k now r s)) in E.
  destruct res as [e|body]; [destruct E as [Hn Hs]; split; [done|]; by destruct k|].
  destruct E as (ts & db1 & db2 & Hts & Hwin & Hb & Hsig & _ & Hacc & Hs'). split_and!; [done | done |]. exists ts.
  split_and!; [done | |].
  - unfold outside_window, max_skew in Hwin. apply orb_false_iff in Hwin as [H1%Z.ltb_ge H2%Z.ltb_ge]. lia.
  - apply (wp_run _ _ _ _ _ _ (accept_wp _ _ _ _)) in Hacc as [Hrem _]. rewrite Hs'. destruct k; try done.
    by rewrite <-(remembered_nonces _ _ _ (touch_nonces _ _ db2)).
Qed.

(** C23: What a signature binds.  The texts that phones, their relay keys,
    capabilities, nodes and the control plane itself sign are told apart by
    their bytes: equal bytes come from the same kind of signer with the same
    method, URI, signer, time, nonce and body hash, as long as no field contains
    a line break. *)
Theorem signed_text_unambiguous x y :
  Forall one_line (text_fields (as_signed x)) → Forall one_line (text_fields (as_signed y)) →
  signed_bytes x = signed_bytes y → as_signed x = as_signed y.
Proof.
  intros Hx Hy. rewrite !signed_bytes_lines. intros E.
  apply join_lines_inj in E; [|by constructor; [apply one_line_context|] ..| done | done].
  injection E as Hc Hf. by apply text_of_fields.
Qed.

(** Rate limits.  From a new limiter, whatever other clients do, at most
    [max] requests of one client pass for each window begun since the start. *)
Theorem rate_limited max window key calls t until :
  0 < max → calls_within t until calls →
  let l := newBootstrapRateLimiter max window in
  passed key l calls ≤ max * ((until - t) / l.(rl_window) + 1).
Proof.
  intros Hm Hc l. assert (Hw : 0 < l.(rl_window)).
  { unfold l, newBootstrapRateLimiter. cbn. destruct (Z.leb_spec window 0); [done | lia]. }
  apply (limited_bound key calls t t until 0 0 l); try done. split; [lia|].
  change (l.(rl_clients)) with (∅ : gmap string rateEntry). rewrite lookup_empty. lia.
Qed.

(** The budget for request bodies.  However reservations and releases of
    requests in flight interleave, from a new budget the bytes held stay within
    the total and each account's within its share, and both counters equal what
    is held: when everything is released, nothing is counted. *)
Theorem request_bodies_bounded total perAccount b held :
  0 ≤ total < 2 ^ 62 → 0 ≤ perAccount < 2 ^ 62 → rtc budget_step (newByteBudget total perAccount, []) (b, held) →
  b.(bb_used) = held_bytes held ∧ held_bytes held ≤ total
  ∧ ∀ a, used_by b a = held_by a held ∧ held_by a held ≤ perAccount.
Proof.
  intros Ht Hp Hsteps. assert (H0 : budget_ok total perAccount (newByteBudget total perAccount, [])).
  { split_and!; try done; [cbn; lia|]. intros a. unfold used_by. cbn. rewrite lookup_empty. cbn. lia. }
  remember (newByteBudget total perAccount, []) as st. remember (b, held) as st'.
  assert (Hok : budget_ok total perAccount st').
  { clear Heqst Heqst'. induction Hsteps as [|x y z Hxy _ IH]; [done|]. apply IH. eapply budget_ok_step; [| | exact Hxy | done]; lia. }
  subst st'. destruct Hok as (_ & _ & _ & ? & ? & ?). done.
Qed.

(** What a service signs is accepted.  A request to which an internal
    service applied its headers, with its own key and name, a time within five
    minutes and a nonce not remembered, is accepted with its body. *)
Theorem signed_service_request_accepted `{SignatureLaws} rnd key material id r body ts timestamp nonce r' now s :
  PublicKeyMaterial (PublicHalf key) = Some material → isP256PublicKey (PublicHalf key) = true →
  TrimSpace id = id → id ≠ ""%string → TrimSpace nonce ≠ ""%string → ParseInt (TrimSpace timestamp) = Some ts →
  Z.abs (now - unix_time ts) ≤ 5 * minute_us → remembered (NodeRequest id nonce) s.(api_db) = None → r.(rq_body) = Some body →
  ApplySignedHeaders rnd r key id body "" "" timestamp nonce = Some r' →
  ∃ s', requireServiceRequest now r' id material s = (s', inr body).
Proof.
  intros Hm Hp Hid Hidn Hnn Hts Hnow Hrem Hb Hr'.
  destruct (ApplySignedHeaders_headers _ _ _ _ _ _ _ _ _ _ Hr') as (h & sg & Hs & Em & Eu & Eb & E1 & E2 & E3 & E4 & E5).
  destruct (Sign_Verify _ _ _ _ _ _ _ _ _ _ _ Hm Hp Hs) as (-> & Hv & Hsg & Hsgn). destruct (body_hash_trim body) as [Hbh Hbhn].
  assert (Hw : wp (requireServiceRequest now r' id material) (λ x _, x = body) (λ _ _, False) s).
  { unfold requireServiceRequest. rewrite E1, E2, E3, E4, E5, Em, Eu, Eb, Hid, !TrimSpace_idemp, Hsg, Hbh.
    rewrite str_eqb_refl. rewrite (proj2 (str_eqb_neq _ _) Hnn), (proj2 (str_eqb_neq _ _) Hbhn), (proj2 (str_eqb_neq _ _) Hsgn).
    cbn [orb]. rewrite Hts, Hv, Hb. wp_steps; simplify_eq; try done.
    - unfold outside_window, max_skew in *. lia.
    - rewrite str_eqb_refl in *. done.
    - apply wp_store_call. unfold RememberNodeRequestNonce. rewrite Hid, TrimSpace_idemp, (proj2 (str_eqb_neq _ _) Hnn), (proj2 (str_eqb_neq _ _) Hidn).
      cbn [orb]. wp_steps; try done. cbn [remembered] in Hrem. rewrite Hid in Hrem. unfold remember in *.
      destruct (delete_where _ _ !! _) eqn:El; [|done]. apply lookup_delete_where in El as [El _]. congruence. }
  unfold wp in Hw. destruct (requireServiceRequest now r' id material s) as [s' [e|x]]; [done|]. subst x. by exists s'.
Qed.

(** *** Witnesses *)

(** A signature scheme whose signatures spell out the key and the digest. *)
Definition toy_signatures : Signatures := {|
  VerifyingKey := ascii;
  SigningKey := ascii;
  ParsePKIXPublicKey der := match der with [n] => PkixECDSA (ascii_of_N n) | _ => PkixError end;
  MarshalPKIXPublicKey k := Some [N_of_ascii k];
  CurveName _ := "P-256";
  PemDecode _ := None;
  VerifyASN1 k digest signature := bool_decide (signature = N_of_ascii k :: ((λ b, b mod 256)%N <$> digest));
  PublicHalf k := k;
  SignASN1 _ k digest := Some (N_of_ascii k :: ((λ b, b mod 256)%N <$> digest)) |}.

Lemma toy_signature_laws : @SignatureLaws toy_signatures.
Proof.
  split; cbn.
  - intros _ k digest signature [= <-]. split_and!; [|done|by apply bool_decide_eq_true].
    constructor; [apply N_ascii_bounded|]. apply Forall_fmap, Forall_forall. intros b _. cbn. apply N.mod_lt. done.
  - intros k der [= <-]. split_and!; [|done | by rewrite ascii_N_embedding]. constructor; [apply N_ascii_bounded | constructor].
Qed.

Definition sample_service_request : Request :=
  MkRequest "GET" "/api/v1/internal/payments/watch" "/api/v1/internal/payments/watch" (λ _, ""%string) (λ _, ""%string) 0 (Some []).
Definition sample_material : string := std_encode [75%N].
Definition sample_signed : Request :=
  default sample_service_request (@ApplySignedHeaders toy_signatures [] sample_service_request "K"%char "virtroid-payments" [] "" "" "1000" "n1").
Definition sample_api : Api := MkApi sample_devices (newByteBudget signedBodyBudgetBytes signedBodyAccountBudgetBytes).
Definition sample_now : Z := unix_time 1000.
Definition sample_signer : signer := ServiceSigner "virtroid-payments" sample_material.

Lemma sample_accepted : (@authenticate toy_signatures sample_signer sample_now sample_signed sample_api).2 = inr [].
Proof. vm_compute. reflexivity. Qed.

Lemma signed_text_unambiguous_witness :
  as_signed (NodeText "get" "/x" " n " "1" "2" "h") = as_signed (NodeText "GET" "/x" "n" "1" "2" "h").
Proof.
  apply (signed_text_unambiguous (NodeText "get" "/x" " n " "1" "2" "h") (NodeText "GET" "/x" "n" "1" "2" "h")).
  - repeat constructor; apply (bool_decide_unpack _); vm_compute; exact I.
  - repeat constructor; apply (bool_decide_unpack _); vm_compute; exact I.
  - vm_compute. reflexivity.
Defined.

Lemma rate_limited_witness :
  let l := newBootstrapRateLimiter 2 minute_us in
  let calls := [(0, "a"%string); (1, "a"%string); (2, " a "%string); (3, "b"%string)] in
  passed "a" l calls = 2 ∧ passed "a" l calls ≤ 2 * ((3 - 0) / minute_us + 1).
Proof.
  split; [vm_compute; reflexivity|].
  apply (rate_limited 2 minute_us "a" [(0, "a"%string); (1, "a"%string); (2, " a "%string); (3, "b"%string)] 0 3); [lia | cbn; lia].
Defined.

Lemma request_bodies_bounded_witness :
  let b := release "x" 40 (MkBudget 100 60 90 (<["y"%string := 50]> {["x"%string := 40]})) in
  b.(bb_used) = 50 ∧ used_by b "y" ≤ 60.
Proof.
  assert (Hs : rtc budget_step (newByteBudget 100 60, [])
    (release "x" 40 (MkBudget 100 60 90 (<["y"%string := 50]> {["x"%string := 40]})), [("y"%string, 50)])).
  { eapply rtc_l; [apply (budget_reserve _ (MkBudget 100 60 40 {["x"%string := 40]}) [] "x" 40); [lia | vm_compute; reflexivity]|].
    eapply rtc_l; [apply (budget_reserve _ (MkBudget 100 60 90 (<["y"%string := 50]> {["x"%string := 40]})) _ "y" 50); [lia | vm_compute; reflexivity]|].
    eapply rtc_l; [apply (budget_release _ [("y"%string, 50)] [] "x" 40)|]. apply rtc_refl. }
  destruct (request_bodies_bounded 100 60 _ _ ltac:(lia) ltac:(lia) Hs) as (Hu & _ & Ha). split; [exact Hu|].
  destruct (Ha "y"%string) as [Hy Hle]. cbv zeta. rewrite Hy. exact Hle.
Defined.

Lemma signed_service_request_accepted_witness :
  ∃ s', @requireServiceRequest toy_signatures sample_now sample_signed "virtroid-payments" sample_material sample_api = (s', inr []).
Proof.
  eapply (@signed_service_request_accepted toy_signatures toy_signature_laws [] "K"%char sample_material "virtroid-payments"
    sample_service_request [] 1000 "1000" "n1" sample_signed sample_now sample_api); try (vm_compute; reflexivity); try (vm_compute; congruence).
Defined.
