(* ===== verification/Replay.v ===== *)
(** * Requests are accepted once

    Puts the authentication of signed requests (internal/httpapi/api.go) next
    to what else the store does in between: the operations on viewer sessions and
    runtimes (among them revoking a device, deleting an account and erasing it
    with everything that refers to it, the reaper's pruning of nonces, and the
    touching of capabilities), opening accounts, blob-key verifiers and recovery,
    and any other operation that leaves nonces, devices and capabilities alone and
    revives no account.  Over any such history an accepted request stays spent. *)

From S2P Require Import Prelude.
From S2P Require Import GoLib.
From S2P Require Import Codec.
From S2P Require Import Schema.
From S2P Require Import Common.
From S2P Require Import Billing.
From S2P Require Import Wallet.
From S2P Require Import Registry.
From S2P Require Import Provisioning.
From S2P Require Import Entitlements.
From S2P Require Import Apps.
From S2P Require Import Profiles.
From S2P Require Import Devices.
From S2P Require Import Recovery.
From S2P Require Import Runtimes.
From S2P Require Import Sessions.
From S2P Require Import Requests.
Open Scope Z_scope.

(** ** What happens in between *)

(** Nonces stay, devices stay with their account and stay revoked, no account
    that is not live becomes live, and the same capabilities exist. *)
Definition calm (db db' : Db) : Prop :=
  nonces db' = nonces db
  ∧ (∀ id d, db.(db_devices) !! id = Some d →
       ∃ d', db'.(db_devices) !! id = Some d' ∧ d'.(dv_account_id) = d.(dv_account_id)
             ∧ (d.(dv_revoked_at) ≠ None → d'.(dv_revoked_at) ≠ None))
  ∧ (∀ a, live_account a db = false → live_account a db' = false)
  ∧ (∀ id, db.(db_capabilities) !! id = None ↔ db'.(db_capabilities) !! id = None).

Section calls.
Context `{Signatures}.
Variable pricing : Pricing.
Variable uuid_parse : string → option string.
Variable uuid_ok : string → bool.
Variable is_p256 : list N → bool.

Inductive call :=
| CallRequest (k : signer) (r : Request) (bodies : byteBudget)
| CallNonce (q : request) (expiresAt : Z)
| CallSession (op : session_op)
| CallAccount (op : account_op)
| CallVerifier (accountID deviceID verifier current : string) (requireCurrent : bool)
| CallRecovery (op : RecoveryOp).

(** The database after a call, whether it succeeds or not. *)
Definition run_call (now : Z) (c : call) (db : Db) : Db :=
  match c with
  | CallRequest k r bodies => (authenticate k now r (MkApi db bodies)).1.(api_db)
  | CallNonce q expiresAt => (accept now expiresAt q db).1
  | CallSession op => (run_session pricing now op db).1
  | CallAccount op => (run_account uuid_parse now op db).1
  | CallVerifier a d v current req => (setDeviceBlobKeyVerifier now a d v current req db).1
  | CallRecovery op => run_recovery uuid_ok is_p256 op db
  end.

(** The signer's account or capability was erased and is there again. *)
Definition brought_back (q : request) (db db' : Db) : Prop :=
  match q with
  | DeviceRequest a _ _ => db.(db_accounts) !! TrimSpace a = None ∧ db'.(db_accounts) !! TrimSpace a ≠ None
  | CapabilityRequest c _ => db.(db_capabilities) !! TrimSpace c = None ∧ db'.(db_capabilities) !! TrimSpace c ≠ None
  | NodeRequest _ _ => False
  end.

(** Calls by the time [until], and other operations, that do not bring the
    request's signer back. *)
Inductive since (until : Z) (q : request) : Db → Db → Prop :=
| since_none db : since until q db db
| since_call db db' now c :
    since until q db db' → now ≤ until → ¬ brought_back q db' (run_call now c db') → since until q db (run_call now c db')
| since_other db db' db'' : since until q db db' → calm db' db'' → since until q db db''.
End calls.

(** ** A spent request *)

(** The nonce is known under a signer that still exists, or the signer was
    revoked, deleted or erased. *)
Definition spent_request (q : request) (e : Z) (db : Db) : Prop :=
  match q with
  | DeviceRequest a d _ =>
    (∃ row, db.(db_devices) !! TrimSpace d = Some row ∧ row.(dv_account_id) = TrimSpace a
            ∧ (remembered q db = Some e ∨ row.(dv_revoked_at) ≠ None))
    ∨ live_account (TrimSpace a) db = false
  | NodeRequest _ _ => remembered q db = Some e
  | CapabilityRequest c _ => remembered q db = Some e ∨ db.(db_capabilities) !! TrimSpace c = None
  end.
Abbreviation spends q e := (holds_after (spent_request q e)).

Lemma calm_spent q e db db' : calm db db' → spends q e db db'.
Proof.
  intros (Hn & Hd & Ha & Hc). pose proof (remembered_nonces q _ _ Hn) as Hr.
  destruct q as [a d n|id n|c n]; cbn [holds_after spent_request]; unfold holds_after, spent_request; rewrite Hr.
  - intros [(row & Hrow & Hacc & Hs)|Hl]; [left | right; by apply Ha]. destruct (Hd _ _ Hrow) as (row' & Hrow' & Hacc' & Hrev).
    exists row'. split_and!; [done | congruence |]. destruct Hs; auto.
  - done.
  - by rewrite Hc.
Qed.

Lemma calm_refl db : calm db db.
Proof. split_and!; eauto. Qed.
#[export] Instance calm_preorder : PreOrder calm.
Proof.
  split; [exact calm_refl|]. intros x y z (N1 & D1 & A1 & C1) (N2 & D2 & A2 & C2). split_and!.
  - congruence.
  - intros id d Hd. destruct (D1 _ _ Hd) as (d1 & H1 & E1 & R1). destruct (D2 _ _ H1) as (d2 & H2 & E2 & R2).
    exists d2. split_and!; [done | congruence | auto].
  - auto.
  - intros id. by rewrite C1.
Qed.

Lemma calm_stable {A} q e (m : Tx A) : stable calm m → stable (spends q e) m.
Proof. intros Hm db. apply calm_spent, Hm. Qed.

(** Which accounts are live, which capabilities exist. *)
Definition liveness (db : Db) : gmap string bool := (λ a : Account, is_null a.(ac_deleted_at)) <$> db.(db_accounts).
Definition capability_ids (db : Db) : gmap string unit := (λ _, tt) <$> db.(db_capabilities).

Lemma calm_same db db' :
  nonces db' = nonces db → db'.(db_devices) = db.(db_devices) → liveness db' = liveness db → capability_ids db' = capability_ids db →
  calm db db'.
Proof.
  intros Hn Hd Hl Hc. split_and!; [done | rewrite Hd; eauto | |].
  - intros a. unfold live_account. apply (f_equal (lookup a)) in Hl. unfold liveness in Hl. rewrite !lookup_fmap in Hl.
    destruct (db_accounts db !! a), (db_accounts db' !! a); cbn in Hl; congruence.
  - intros c. apply (f_equal (lookup c)) in Hc. unfold capability_ids in Hc. rewrite !lookup_fmap in Hc.
    destruct (db_capabilities db !! c), (db_capabilities db' !! c); cbn in Hc; done.
Qed.

Lemma fmap_alter_same {K V W} `{Countable K} (g : V → W) f k (t : gmap K V) : (∀ v, g (f v) = g v) → g <$> alter f k t = g <$> t.
Proof.
  intros Hg. apply map_eq. intros k'. rewrite !lookup_fmap. destruct (decide (k = k')) as [->|?].
  - rewrite lookup_alter_eq. destruct (t !! k'); cbn; by rewrite ?Hg.
  - by rewrite lookup_alter_ne.
Qed.
Lemma fmap_update_same {K V W} `{Countable K} (g : V → W) p f (t : gmap K V) :
  (∀ v, g (f v) = g v) → g <$> update_where p f t = g <$> t.
Proof.
  intros Hg. apply map_eq. intros k. rewrite !lookup_fmap, lookup_update_where. destruct (t !! k) as [v|]; cbn; [|done].
  destruct (p k v); cbn; by rewrite ?Hg.
Qed.
Lemma fmap_insert_same {K V W} `{Countable K} (g : V → W) k v w (t : gmap K V) :
  t !! k = Some w → g v = g w → g <$> <[k := v]> t = g <$> t.
Proof. intros Hk Hg. rewrite fmap_insert, Hg. apply insert_id. by rewrite lookup_fmap, Hk. Qed.

(** A step whose tables are rewritten without touching what [calm] looks at. *)
Ltac same_rows :=
  first [ reflexivity | apply fmap_alter_same; by intros [] | apply fmap_update_same; by intros [] ].
Ltac calm_frame := apply calm_same; [reflexivity | reflexivity | same_rows | same_rows].
#[local] Hint Extern 1 (calm _ _) => calm_frame : ops.

(** *** Operations that are calm *)

Lemma appendRuntimeLogTX_calm now rid s l m : stable calm (appendRuntimeLogTX now rid s l m).
Proof. unfold appendRuntimeLogTX. stable_steps. calm_frame. Qed.
Lemma closeRuntimeSessionsTX_calm now rid reason : stable calm (closeRuntimeSessionsTX now rid reason).
Proof. unfold closeRuntimeSessionsTX. stable_steps. calm_frame. Qed.
Lemma revoke_where_calm now p : stable calm (revoke_capabilities_where now p).
Proof. unfold revoke_capabilities_where. stable_steps. calm_frame. Qed.
Lemma revokeForRuntime_calm now rid : stable calm (revokeRuntimeCapabilitiesForRuntimeTX now rid).
Proof. apply revoke_where_calm. Qed.
#[local] Hint Resolve appendRuntimeLogTX_calm closeRuntimeSessionsTX_calm revoke_where_calm revokeForRuntime_calm : ops.

Lemma cut_off_viewers_calm now rid reason : stable calm (cut_off_viewers now rid reason).
Proof. unfold cut_off_viewers. stable_steps. Qed.
Lemma queueRuntimeStopsTX_calm now cand sr lm : stable calm (queueRuntimeStopsTX now cand sr lm).
Proof. unfold queueRuntimeStopsTX. stable_steps; calm_frame. Qed.
#[local] Hint Resolve cut_off_viewers_calm queueRuntimeStopsTX_calm : ops.

Lemma MeterUsage_calm pricing now : stable calm (MeterUsage pricing now).
Proof.
  unfold MeterUsage, meterRuntimeTimeTX, meter_one, charge_parts, chargeStorageTX, charge_storage_one, addUsageChargeTX,
    set_entitlement, set_runtime, set_account. stable_steps; calm_frame.
Qed.

Lemma CreditDeposit_calm now dep : stable calm (CreditDeposit now dep).
Proof. unfold CreditDeposit, end_trial, set_entitlement. stable_steps; calm_frame. Qed.

Lemma spare_loop_calm fuel now fresh region warm maxVMs spares live created :
  stable calm (spare_loop fuel now fresh region warm maxVMs spares live created).
Proof.
  revert spares live created. induction fuel as [|fuel IH]; intros; cbn [spare_loop]; [apply stable_ret; apply _|].
  unfold insert_vm. stable_steps; calm_frame.
Qed.

Lemma ReconcileProvisionedVMs_calm now fresh policy : stable calm (ReconcileProvisionedVMs now fresh policy).
Proof.
  unfold ReconcileProvisionedVMs, retireVMsTX, retireSilentNodeVMsTX, update_vms, resetStrandedTX, insert_log, topUpSparesTX,
    top_up_region. stable_steps; try calm_frame. apply spare_loop_calm.
Qed.

Lemma startRuntime_calm pricing now a rid req fresh : stable calm (startRuntime pricing now a rid req fresh).
Proof.
  apply stable_of_wp. intros db. eapply wp_mono; [apply startRuntime_wp | |by intros e ? [-> _]].
  intros r' db' (r & _ & [(_ & _ & ->)|(_ & _ & _ & h & ho & p & _ & _ & _ & _ & _ & ->)]); [reflexivity | calm_frame].
Qed.

Lemma CreateRuntime_calm now rid version a input : stable calm (CreateRuntime now rid version a input).
Proof.
  unfold CreateRuntime, normalizedCreateInput, normalizeEgressMode, validateClientAndroidImage, validateClientAndroidVersion,
    validateRuntimeProfile, ensureRuntimeCreateEntitlementTX, accountEntitlementTX, replaceRuntimeAppSelectionsTX,
    validRuntimeAppSelectionsTX, writeRuntimeAppSelectionsTX. stable_steps; calm_frame.
Qed.

Lemma UpdateRuntimeSettings_calm now version a rid input : stable calm (UpdateRuntimeSettings now version a rid input).
Proof.
  unfold UpdateRuntimeSettings, GetRuntime, changed_settings, normalizeEgressMode, validateClientAndroidImage,
    validateClientAndroidVersion, set_runtime, read_runtime. stable_steps; calm_frame.
Qed.

Lemma ListAssignedRuntimes_calm now h : stable calm (ListAssignedRuntimes now h).
Proof.
  unfold ListAssignedRuntimes, allocateMissingViewerPortsForHostTX, restore_port, allocateViewerPortTX, set_runtime.
  stable_steps; calm_frame.
Qed.

(** *** Deleting an account *)

Lemma delete_account_live b a db : live_account b (delete_account a db) = negb (b =?s a) && live_account b db.
Proof.
  unfold live_account. change (db_accounts (delete_account a db)) with (delete a db.(db_accounts)).
  destruct (b =?s a) eqn:E; [apply str_eqb_eq in E as ->; by rewrite lookup_delete_eq|].
  apply str_eqb_neq in E. by rewrite lookup_delete_ne.
Qed.

(** A device's row and nonces go only with its account. *)
Lemma delete_account_device e a b d n db : spends (DeviceRequest b d n) e db (delete_account a db).
Proof.
  unfold holds_after, spent_request, remembered. rewrite delete_account_live.
  intros [(row & Hrow & Hacc & Hs)|Hl]; [|right; rewrite Hl; apply andb_false_r].
  destruct (TrimSpace b =?s a) eqn:E; [by right|]. left. exists row. unfold delete_account. cbn -[lookup delete_where].
  split_and!; [|done|].
  - apply lookup_delete_where. by rewrite Hacc.
  - destruct Hs as [Hs|Hs]; [left|by right]. apply lookup_delete_where. cbn [fst snd]. by rewrite Hrow, Hacc, E.
Qed.

(** A capability's nonces go with the capability. *)
Lemma delete_account_capability e a c n db : spends (CapabilityRequest c n) e db (delete_account a db).
Proof.
  unfold holds_after, spent_request, remembered, delete_account. cbn -[lookup delete_where].
  match goal with |- context [delete_where (λ c _, @?f c) (db_capabilities db)] => set (p := f) end.
  intros [Hr|Hc].
  - destruct (p (TrimSpace c)) eqn:E.
    + right. destruct (delete_where _ (db_capabilities db) !! _) eqn:El; [|done]. apply lookup_delete_where in El as [_ El].
      unfold p in E. congruence.
    + left. apply lookup_delete_where. split; [done | exact E].
  - right. destruct (delete_where _ (db_capabilities db) !! _) eqn:El; [|done]. apply lookup_delete_where in El as [El _]. congruence.
Qed.

Lemma delete_account_spent q e a db : spends q e db (delete_account a db).
Proof. destruct q; [apply delete_account_device | by intros ? | apply delete_account_capability]. Qed.

Lemma cleanup_spent q e a : stable (spends q e) (deleteAccountIfRuntimeCleanupDoneTX a).
Proof. unfold deleteAccountIfRuntimeCleanupDoneTX. stable_steps. apply delete_account_spent. Qed.

(** Its devices and their nonces go, and the account is marked deleted. *)
Lemma account_marked_spent q e a db db' :
  (∀ id d, db.(db_devices) !! id = Some d → d.(dv_account_id) ≠ a → db'.(db_devices) !! id = Some d) →
  (∀ b id n d, db.(db_device_nonces) !! (b, id, n) = Some e → b ≠ a → db.(db_devices) !! id = Some d → d.(dv_account_id) ≠ a →
     db'.(db_device_nonces) !! (b, id, n) = Some e) →
  live_account a db' = false → (∀ b, live_account b db = false → live_account b db' = false) →
  db'.(db_node_nonces) = db.(db_node_nonces) → db'.(db_capability_nonces) = db.(db_capability_nonces) →
  db'.(db_capabilities) = db.(db_capabilities) → spends q e db db'.
Proof.
  intros Hd Hn Hla Hl En Ec Ecap. unfold holds_after, spent_request, remembered.
  destruct q as [b d n|id n|c n]; [|by rewrite En|by rewrite Ec, Ecap].
  intros [(row & Hrow & Hacc & Hs)|Hb]; [|right; auto]. destruct (decide (TrimSpace b = a)) as [->|Hne]; [by right|].
  left. exists row. rewrite <-Hacc in Hne. split_and!; [by apply Hd | done |].
  destruct Hs as [Hs|Hs]; [left | by right]. eapply Hn; eauto. congruence.
Qed.

Lemma DeleteAccount_spent q e now a : stable (spends q e) (DeleteAccount now a).
Proof.
  apply stable_of_wp. intros db. unfold DeleteAccount. wp_steps; try reflexivity.
  match goal with Ha : db.(db_accounts) !! _ = Some _ |- _ => rename Ha into Hrow end.
  apply (for_log_wp (λ rid, rid)). intros G. wp_steps.
  apply (wp_continue (spends q e)); [|apply cleanup_spent | done].
  apply (account_marked_spent _ _ (TrimSpace a)); unfold delete_devices; cbn -[lookup alter]; try done.
  - intros id d Hd Hne. apply lookup_delete_where. split; [done | by apply str_eqb_neq].
  - intros b id n d Hb Hne Hd Hda. apply lookup_delete_where. cbn [fst snd]. rewrite Hd. split; [|by apply str_eqb_neq].
    apply lookup_delete_where. split; [done | by apply str_eqb_neq].
  - unfold live_account. cbn -[lookup alter]. rewrite lookup_alter_eq, Hrow. done.
  - intros b. unfold live_account. cbn -[lookup alter]. destruct (decide (TrimSpace a = b)) as [<-|?].
    + by rewrite lookup_alter_eq, Hrow.
    + by rewrite lookup_alter_ne.
Qed.

Lemma UpdateRuntimeObservation_spent q e now rid o : stable (spends q e) (UpdateRuntimeObservation now rid o).
Proof.
  unfold UpdateRuntimeObservation, updateRuntimeObservationWithStorageQuota, updateRuntimeObservationRecord, set_runtime.
  stable_steps; first [apply cleanup_spent | apply calm_spent; calm_frame | apply calm_stable; auto with ops].
Qed.

Lemma run_runtime_spent q e pricing now op : stable (spends q e) (run_runtime pricing now op).
Proof.
  destruct op; cbn [run_runtime]; try (apply stable_ignore; [apply _|]);
    try apply DeleteAccount_spent; try apply UpdateRuntimeObservation_spent; apply calm_stable.
  - apply CreateRuntime_calm.
  - apply UpdateRuntimeSettings_calm.
  - apply startRuntime_calm.
  - unfold StopRuntime, set_runtime, read_runtime. stable_steps; calm_frame.
  - unfold wipeRuntime, set_runtime, read_runtime. stable_steps; calm_frame.
  - unfold deleteRuntime, GetRuntime, set_runtime, read_runtime. stable_steps; calm_frame.
  - apply ListAssignedRuntimes_calm.
  - apply MeterUsage_calm.
  - apply CreditDeposit_calm.
  - apply ReconcileProvisionedVMs_calm.
Qed.

(** *** Sessions, capabilities and devices *)

Lemma update_session_calm sid p f err : stable calm (update_session sid p f err).
Proof. unfold update_session. stable_steps. calm_frame. Qed.
Lemma open_session_calm now sid rid d c token : stable calm (open_session now sid rid d c token).
Proof. unfold open_session. stable_steps; calm_frame. Qed.
Lemma ensureSessionTimeAvailable_calm pricing a : stable calm (ensureSessionTimeAvailable pricing a).
Proof. unfold ensureSessionTimeAvailable, paidBalanceCheck. stable_steps. Qed.
Lemma stop_viewed_runtime_calm now a rid : stable calm (stop_viewed_runtime now a rid).
Proof. unfold stop_viewed_runtime. stable_steps; calm_frame. Qed.
#[local] Hint Resolve update_session_calm open_session_calm ensureSessionTimeAvailable_calm stop_viewed_runtime_calm : ops.

Lemma prune_spent q e now : now ≤ e → stable (spends q e) (pruneExpiredRuntimeCapabilityNoncesTX now).
Proof.
  intros Hn. unfold pruneExpiredRuntimeCapabilityNoncesTX. stable_steps. intros Hs.
  destruct q as [? ? ?|? ?|c ?]; [exact Hs | exact Hs |]. destruct Hs as [Hr|Hc]; [left | by right]. cbn [remembered] in *.
  apply lookup_delete_where. split; [done | by apply Z.ltb_ge].
Qed.

Lemma ReapStaleSessions_spent q e now d : now ≤ e → stable (spends q e) (ReapStaleSessions now d).
Proof.
  intros Hn. pose proof (prune_spent q e now Hn) as Hp.
  unfold ReapStaleSessions, clean_up, end_sessions_where, revokeEndedSessionCapabilitiesTX, revokeExpiredRuntimeCapabilitiesTX,
    pruneExpiredBlobKeyHandoffsTX.
  stable_steps; first [exact Hp | apply calm_spent; calm_frame | apply calm_stable; auto with ops].
Qed.

(** A revoked device's nonces go, but its row stays. *)
Lemma RevokeDevice_spent q e now a d : stable (spends q e) (RevokeDevice now a d).
Proof.
  apply stable_of_wp. intros db. eapply wp_mono; [apply RevokeDevice_wp | |by intros ? ? [-> _]].
  intros res db' (dv & Hown & _ & _ & _ & (mid & G & Hmid & ->) & _). subst mid.
  apply own_device_Some in Hown as [Hdv Hact]. unfold holds_after, spent_request, remembered.
  destruct q as [b id n|id n|c n]; cbn -[lookup insert end_session device_stop_row revoke_device_row]; [|done|].
  - intros [(row & Hrow & Hacc & Hs)|Hl]; [left | by right].
    destruct (decide (TrimSpace d = TrimSpace id)) as [E|Hne].
    + exists (revoke_device_row now dv). rewrite E in *. rewrite lookup_insert_eq. rewrite Hrow in Hdv. injection Hdv as ->.
      split_and!; [done | done | by right].
    + exists row. rewrite lookup_insert_ne by done. split_and!; [done | done |]. destruct Hs as [Hs|Hs]; [left | by right].
      apply lookup_delete_where. split; [done|]. cbn [fst snd]. apply andb_false_iff. right. by apply str_eqb_neq.
  - intros [Hr|Hc]; [by left | right]. by rewrite lookup_update_where, Hc.
Qed.

Lemma fst_ignore {A} (m : Tx A) db : (ignore m db).1 = (m db).1.
Proof. unfold ignore, mbind, M_bind, mret, M_ret. by destruct (m db) as [db' [e|x]]. Qed.

(** A grant that does not bring the capability back. *)
Lemma UpsertRuntimeCapability_spent q e now a rid c key db :
  let db' := (UpsertRuntimeCapability now a rid c key db).1 in ¬ brought_back q db db' → spent_request q e db → spent_request q e db'.
Proof.
  intros db' Hb Hs. assert (Hw : nonces db' = nonces db ∧ db'.(db_devices) = db.(db_devices) ∧ db'.(db_accounts) = db.(db_accounts)).
  { apply (stable_of_wp (λ db db', nonces db' = nonces db ∧ db'.(db_devices) = db.(db_devices) ∧ db'.(db_accounts) = db.(db_accounts))).
    intros db0. unfold UpsertRuntimeCapability. by wp_steps. }
  destruct Hw as (Hn & Hd & Ha). pose proof (remembered_nonces q _ _ Hn) as Hr.
  destruct q as [b id n|id n|cid n]; unfold spent_request in *; rewrite Hr; [by rewrite Hd; unfold live_account in *; rewrite Ha | done |].
  destruct Hs as [Hs|Hs]; [by left | right]. destruct (db'.(db_capabilities) !! TrimSpace cid) eqn:E; [|done].
  exfalso. apply Hb. cbn. by rewrite E.
Qed.

Lemma run_session_spent q e pricing now op db : now ≤ e → ¬ brought_back q db (run_session pricing now op db).1 →
  spent_request q e db → spent_request q e (run_session pricing now op db).1.
Proof.
  intros Hn. destruct op; cbn [run_session]; intros Hb.
  13: { revert Hb. rewrite fst_ignore. apply UpsertRuntimeCapability_spent. }
  all: lazymatch goal with |- _ → spent_request ?q ?e (?m ?db).1 => enough (Hst : stable (spends q e) m) by exact (Hst db); clear Hb db end.
  all: try (apply stable_ignore; [apply _|]).
  all: try (by apply ReapStaleSessions_spent); try apply RevokeDevice_spent; try apply run_runtime_spent; apply calm_stable.
  - unfold CreateSession. stable_steps.
  - unfold CreateSessionWithCapability. stable_steps.
  - unfold AbortPendingSession. stable_steps. calm_frame.
  - unfold ResolveSessionRelayTarget. stable_steps.
  - unfold IssueSessionRelayToken. stable_steps.
  - unfold IssueSessionRelayTokenWithCapability. stable_steps.
  - unfold HeartbeatSession. stable_steps.
  - unfold HeartbeatSessionWithCapability. stable_steps.
  - unfold CloseSession. stable_steps.
  - unfold CloseSessionWithCapability, revokeRuntimeCapabilityTX. stable_steps.
  - unfold EndSessionAndStopRuntime. stable_steps.
  - unfold EndSessionAndStopRuntimeWithCapability. stable_steps.
  - unfold TouchRuntimeCapability. stable_steps. calm_frame.
Qed.

(** *** Accounts, verifiers, recovery and requests *)

(** Opening an account adds rows under new ids. *)
Lemma run_account_adds uuid_parse now op db :
  let db' := (run_account uuid_parse now op db).1 in
  nonces db' = nonces db ∧ db'.(db_capabilities) = db.(db_capabilities)
  ∧ (∀ id d, db.(db_devices) !! id = Some d → db'.(db_devices) !! id = Some d)
  ∧ (∀ a, db'.(db_accounts) !! a = db.(db_accounts) !! a ∨ db.(db_accounts) !! a = None ∧ db'.(db_accounts) !! a ≠ None).
Proof.
  cbv zeta. destruct op as [region fa fd fi a d name key how|fi token label actor expiresAt]; cbn [run_account].
  - change (?m;; mret tt) with (ignore m). rewrite fst_ignore.
    assert (Hf : stable (same (λ db, (nonces db, db.(db_capabilities)))) (bootstrapAccountWithIdentity uuid_parse now region fa fd fi a d name key how)).
    { unfold bootstrapAccountWithIdentity, check, take_invitation, insert_invitation, consume_invitation. by stable_steps. }
    specialize (Hf db). pose proof (bootstrap_wp uuid_parse now region fa fd fi a d name key how db) as Hw. unfold wp in Hw.
    destruct (bootstrapAccountWithIdentity _ _ _ _ _ _ _ _ _ _ _ _) as [db' [err|res]]; cbn [fst] in *; [subst; eauto|].
    destruct Hw as [(Ha & Ea & Hd & Ed & _) _]. injection Hf as E1 E2 E3 E4.
    split_and!; [unfold nonces; congruence | done | |].
    + intros id d' Hd'. rewrite Ed, lookup_insert_ne; [done | congruence].
    + intros b. rewrite Ea. destruct (decide (br_AccountID res = b)) as [<-|?]; [right; by rewrite lookup_insert_eq | left; by rewrite lookup_insert_ne].
  - change (?m;; mret tt) with (ignore m). rewrite fst_ignore.
    assert (Hf : stable (same (λ db, (nonces db, db.(db_capabilities), db.(db_devices), db.(db_accounts)))) (CreateBootstrapInvitation now fi token label actor expiresAt)).
    { unfold CreateBootstrapInvitation, insert_invitation. by stable_steps. }
    specialize (Hf db). unfold same, nonces in *. injection Hf as -> -> -> -> -> ->. eauto.
Qed.

Lemma run_account_spent q e uuid_parse now op db : ¬ brought_back q db (run_account uuid_parse now op db).1 →
  spent_request q e db → spent_request q e (run_account uuid_parse now op db).1.
Proof.
  set (db' := (run_account uuid_parse now op db).1). intros Hb Hs.
  assert (Hw : nonces db' = nonces db ∧ db'.(db_capabilities) = db.(db_capabilities)
    ∧ (∀ id d, db.(db_devices) !! id = Some d → db'.(db_devices) !! id = Some d)
    ∧ (∀ a, db'.(db_accounts) !! a = db.(db_accounts) !! a ∨ db.(db_accounts) !! a = None ∧ db'.(db_accounts) !! a ≠ None)).
  { apply run_account_adds. }
  destruct Hw as (Hn & Hc & Hd & Ha). pose proof (remembered_nonces q _ _ Hn) as Hr.
  destruct q as [a d n|id n|c n]; unfold spent_request in *; rewrite Hr; [|done|by rewrite Hc].
  destruct Hs as [(row & Hrow & Hs)|Hl]; [left; exists row; split; auto | right].
  destruct (Ha (TrimSpace a)) as [E|E]; [unfold live_account in *; by rewrite E | by destruct Hb].
Qed.

Lemma device_update_calm db id d d' : db.(db_devices) !! id = Some d → d'.(dv_account_id) = d.(dv_account_id) →
  d'.(dv_revoked_at) = d.(dv_revoked_at) → calm db (db <| db_devices ::= <[id := d']> |>).
Proof.
  intros Hd Ha Hr. split_and!; [done | | done | done]. intros id' d1 Hd1. cbn -[lookup insert].
  destruct (decide (id = id')) as [<-|?]; [|rewrite lookup_insert_ne by done; eauto].
  rewrite lookup_insert_eq. exists d'. rewrite Hd in Hd1. injection Hd1 as <-. by rewrite Hr.
Qed.

Lemma setVerifier_calm now a d v current req : stable calm (setDeviceBlobKeyVerifier now a d v current req).
Proof.
  apply stable_of_wp. intros db. eapply wp_mono; [apply setVerifier_wp | |by intros ? ? ->].
  intros _ db' (k & dv & _ & [Hd _]%own_device_Some & -> & _). by eapply device_update_calm.
Qed.

Lemma device_new_calm db id d : db.(db_devices) !! id = None → calm db (db <| db_devices ::= <[id := d]> |>).
Proof.
  intros Hd. split_and!; [done | | done | done]. intros id' d1 Hd1. cbn -[lookup insert].
  rewrite lookup_insert_ne; [eauto | congruence].
Qed.

Lemma device_alter_calm db id f : (∀ d, (f d).(dv_account_id) = d.(dv_account_id)) → (∀ d, (f d).(dv_revoked_at) = d.(dv_revoked_at)) →
  calm db (db <| db_devices ::= alter f id |>).
Proof.
  intros Ha Hr. split_and!; [done | | done | done]. intros id' d Hd. cbn -[lookup alter].
  destruct (decide (id = id')) as [<-|?]; [|rewrite lookup_alter_ne by done; eauto].
  rewrite lookup_alter_eq, Hd. eexists. split; [done|]. by rewrite Ha, Hr.
Qed.

Lemma calm_devices db db' : nonces db' = nonces db → db'.(db_accounts) = db.(db_accounts) → db'.(db_capabilities) = db.(db_capabilities) →
  calm db (db <| db_devices := db'.(db_devices) |>) → calm db db'.
Proof. intros Hn Ha Hc (_ & Hd & _ & _). split_and!; [done | exact Hd | unfold live_account; by rewrite Ha | by rewrite Hc]. Qed.

Lemma CompleteAccountRecoveryEnrollment_calm now cid : stable calm (CompleteAccountRecoveryEnrollment now cid).
Proof.
  intros db. pose proof (complete_wp now cid db) as Hw. unfold wp in Hw.
  assert (Hf : stable (same (λ db, (nonces db, db.(db_accounts), db.(db_capabilities)))) (CompleteAccountRecoveryEnrollment now cid)).
  { unfold CompleteAccountRecoveryEnrollment, getAccountRecoveryCredential. by stable_steps. }
  specialize (Hf db). destruct (CompleteAccountRecoveryEnrollment now cid db) as [db' [err|res]]; cbn [fst] in *; [by subst|].
  destruct Hw as (ch & row & _ & _ & _ & Hnew & _ & Hd & _). injection Hf as E1 E2 E3 E4 E5.
  apply calm_devices; [unfold nonces; congruence | done | done |]. rewrite Hd. by apply device_new_calm.
Qed.

Lemma run_recovery_calm uuid_ok is_p256 op db : calm db (run_recovery uuid_ok is_p256 op db).
Proof.
  destruct op; cbn [run_recovery].
  - enough (Hs : stable calm (RegisterAccountRecoveryCredential is_p256 now accountID deviceID input)) by apply Hs.
    unfold RegisterAccountRecoveryCredential, check, check_as. stable_steps; first [calm_frame | by apply device_alter_calm].
  - enough (Hs : stable calm (RewrapAccountRecoveryCredential is_p256 now accountID deviceID input)) by apply Hs.
    unfold RewrapAccountRecoveryCredential, check. stable_steps. calm_frame.
  - enough (Hs : stable calm (CreateAccountRecoveryChallenge uuid_ok now challengeID nonce accountID deviceID deviceName devicePublicKey authKey)) by apply Hs.
    unfold CreateAccountRecoveryChallenge, recoverable, getAccountRecoveryCredential, checkRecoveryLoginKey, insert_challenge.
    stable_steps; calm_frame.
  - apply CompleteAccountRecoveryEnrollment_calm.
Qed.

Lemma accept_spent q e now e' q' : now ≤ e → stable (spends q e) (accept now e' q').
Proof.
  intros Hn. apply stable_of_wp. intros db. eapply wp_mono; [apply accept_wp | |by intros ? ? ->].
  intros _ db' (_ & Hp & Hk). injection Hp as Ha Hd Hc. unfold holds_after, spent_request.
  destruct q as [a d n|id n|c n].
  - unfold live_account. rewrite Ha, Hd. intros [(row & Hrow & Hacc & Hs)|Hl]; [left; exists row; split_and!; try done | by right].
    destruct Hs; auto.
  - auto.
  - rewrite Hc. intros [Hr|Hnone]; auto.
Qed.

Section requests_between.
Context `{Signatures}.

(** The same of a handler, whose state holds the database. *)
Definition spends_api (q : request) (e : Z) : relation Api := λ s s', spends q e s.(api_db) s'.(api_db).
#[local] Instance spends_api_preorder q e : PreOrder (spends_api q e).
Proof. split; unfold spends_api, holds_after; [intros s; tauto | intros x y z; tauto]. Qed.

Lemma store_call_spent {A} q e (op : Tx A) refusal : stable (spends q e) op → stable (spends_api q e) (store_call op refusal).
Proof. intros Hop s. specialize (Hop s.(api_db)). unfold store_call. by destruct (op s.(api_db)) as [db [err|x]]. Qed.
Lemma api_kept q e s s' : s'.(api_db) = s.(api_db) → spends_api q e s s'.
Proof. unfold spends_api, holds_after. by intros ->. Qed.

Lemma enroll_calm now id key : stable calm (EnrollDevelopmentNode NormalizePublicKey now id key).
Proof.
  unfold EnrollDevelopmentNode, ApproveNode, ApprovedNodeOf, registry_id, required_text, normalize_key, ensure_operator,
    approve_node_row, insert_active_key, appendNodeRegistryAuditTX, appendOperatorRegistryAuditTX, active_fingerprint.
  stable_steps; calm_frame.
Qed.

Lemma authenticate_spent q e k now r : now ≤ e → stable (spends_api q e) (authenticate k now r).
Proof.
  intros Hn.
  assert (Hbody : ∀ a h who, stable (spends_api q e) (readSignedBody r a h who)).
  { intros. apply stable_of_wp. intros s. eapply wp_mono; [apply readSignedBody_wp | |]; [intros ? ? (_ & _ & ?) | intros]; by apply api_kept. }
  assert (Hacc : ∀ q' e' refusal, stable (spends_api q e) (store_call (accept now e' q') refusal)).
  { intros. by apply store_call_spent, accept_spent. }
  assert (Hcalm : ∀ A (op : Tx A) refusal, stable calm op → stable (spends_api q e) (store_call op refusal)).
  { intros. by apply store_call_spent, calm_stable. }
  assert (Hkeys : ∀ cfg id dev, stable (spends_api q e) (node_request_keys cfg now r id dev)).
  { intros. apply stable_of_wp. intros s. eapply wp_mono; [apply node_request_keys_wp | |]; [intros ? ? [-> _] | intros ? ? ->]; by apply api_kept. }
  destruct k; unfold authenticate, requireSignedDeviceRequest, requireSignedRequest, requireRuntimeCapabilityRequest,
    verifyRuntimeCapabilitySignature, finishRuntimeCapabilityRequest, requireNodeRequest, requireServiceRequest, enroll_if.
  all: stable_steps.
  all: try first [apply Hbody | apply Hkeys].
  all: try (apply (Hacc (DeviceRequest _ _ _)) || apply (Hacc (CapabilityRequest _ _)) || apply (Hacc (NodeRequest _ _))).
  all: apply Hcalm; try apply enroll_calm; unfold DevicePublicKey, RuntimeCapabilityPublicKey, TouchRuntimeCapability; stable_steps; calm_frame.
Qed.
End requests_between.

(** *** Histories *)

Section histories.
Context `{Signatures}.
Variable pricing : Pricing.
Variable uuid_parse : string → option string.
Variable uuid_ok : string → bool.
Variable is_p256 : list N → bool.

Lemma run_call_spent q e now c db : now ≤ e → ¬ brought_back q db (run_call pricing uuid_parse uuid_ok is_p256 now c db) →
  spent_request q e db → spent_request q e (run_call pricing uuid_parse uuid_ok is_p256 now c db).
Proof.
  intros Hn. destruct c; cbn [run_call].
  - intros _. exact (authenticate_spent q e k now r Hn (MkApi db bodies)).
  - intros _. by apply accept_spent.
  - by apply run_session_spent.
  - apply run_account_spent.
  - intros _. apply calm_spent, setVerifier_calm.
  - intros _. apply calm_spent, run_recovery_calm.
Qed.

Lemma since_spent q e until db db' : since pricing uuid_parse uuid_ok is_p256 until q db db' → until ≤ e →
  spent_request q e db → spent_request q e db'.
Proof.
  intros Hs He. induction Hs as [db|db db' now c _ IH Hn Hb|db db' db'' _ IH Hc]; intros H0; [done| |].
  - apply run_call_spent; [lia | done | auto].
  - by apply (calm_spent _ _ _ _ Hc), IH.
Qed.

(** An accepted request is spent. *)
Lemma accepted_spent k now r s body s' ts : accepted k now r s body s' → ParseInt (timestamp_of k r) = Some ts →
  spent_request (request_of k r) (unix_time ts + max_skew) s'.(api_db).
Proof.
  intros (ts' & db1 & db2 & Hts & _ & _ & Hsig & Hbefore & Hacc & Hs') Hts'. rewrite Hts in Hts'. injection Hts' as ->.
  apply (wp_run _ _ _ _ _ _ (accept_wp _ _ _ _)) in Hacc as (Hrem & Hp & _). rewrite Hs'.
  destruct k as [|rid|cfg dev|id key]; cbn [request_of spent_request] in *; [|left|done|done].
  - left. destruct Hsig as (d & _ & _ & _ & _ & [Hd Hact]%own_device_Some & _). destruct Hbefore as (_ & _ & _ & ->).
    injection Hp as _ Hp _. exists d. unfold header_of in *. rewrite !TrimSpace_idemp, Hp.
    apply andb_true_iff in Hact as [?%str_eqb_eq _]. auto.
  - by rewrite <-(remembered_nonces _ _ _ (touch_nonces _ _ db2)).
Qed.

(** A spent request is not accepted within its time. *)
Lemma spent_refused k now r s body s' e : accepted k now r s body s' → now ≤ e →
  spent_request (request_of k r) e s.(api_db) → False.
Proof.
  intros (ts & db1 & db2 & _ & _ & _ & Hsig & (N1 & N2 & N3 & Hsame) & Hacc & _) Hn Hs.
  assert (Hrem : remembered (request_of k r) s.(api_db) = Some e → False).
  { intros Hr. eapply accept_once; [|exact Hn | exact Hacc]. rewrite <-Hr. apply remembered_nonces. unfold nonces. congruence. }
  destruct k as [|rid|cfg dev|id key]; cbn [request_of spent_request signed_by] in *; [| |auto|auto].
  - destruct Hsig as (d & _ & _ & _ & Hl & [Hd Hact]%own_device_Some & _). unfold header_of in *. rewrite !TrimSpace_idemp in Hs.
    destruct Hs as [(row & Hrow & _ & [Hr|Hrev])|Hdead]; [auto | | congruence]. rewrite Hd in Hrow. injection Hrow as <-.
    apply andb_true_iff in Hact as [_ Hact]. by destruct (dv_revoked_at d).
  - destruct Hsig as (c & _ & _ & _ & Hc & _). unfold header_of in *. rewrite TrimSpace_idemp in Hs.
    destruct Hs as [Hr|Hnone]; [auto | congruence].
Qed.
End histories.

(** ** Properties *)

(** C22: No request is accepted twice.  Once a signed request was accepted,
    presenting it again is refused at any later time, whatever comes in between:
    other requests, accepted or not, and the prunings of nonces they bring; the
    reaper; revoking the device or the capability; deleting and erasing the
    account with its devices, capabilities and nonces; opening accounts and
    enrolling devices; and any operation that deletes no nonce, device or capability
    and brings back nothing revoked or deleted.  While the nonce is remembered it is a replay; once the nonce is gone, its time is too old or
    its signer is revoked or gone.  The one thing excluded is that an account or
    a capability that was erased since is opened again under the same id. *)
Theorem signed_request_once `{Signatures} pricing uuid_parse uuid_ok is_p256 k now r s s1 body s2 now' :
  authenticate k now r s = (s1, inr body) →
  since pricing uuid_parse uuid_ok is_p256 now' (request_of k r) s1.(api_db) s2.(api_db) →
  ∃ s3 refusal, authenticate k now' r s2 = (s3, inl refusal).
Proof.
  intros E Hsince. apply (wp_run _ _ _ _ _ _ (accepted_wp k now r s)) in E. pose proof E as (ts & _ & _ & Hts & _).
  pose proof (accepted_spent _ _ _ _ _ _ _ E Hts) as Hspent.
  destruct (authenticate k now' r s2) as [s3 [e|body']] eqn:E2; [by eauto|]. exfalso.
  apply (wp_run _ _ _ _ _ _ (accepted_wp k now' r s2)) in E2. pose proof E2 as (ts' & _ & _ & Hts' & Hwin & _).
  rewrite Hts in Hts'. injection Hts' as <-. unfold outside_window in Hwin. apply orb_false_iff in Hwin as [Hw%Z.ltb_ge _].
  eapply (spent_refused k now' r s2 _ _ (unix_time ts + max_skew)); [exact E2 | lia |].
  eapply since_spent; [exact Hsince | lia | exact Hspent].
Qed.

(** *** Witness *)

(** A phone's request, signed with the toy scheme; in between the phone is
    revoked, a capability is touched and the account is deleted. *)
Definition sample_canonical : list N := signedRequestCanonical "GET" "/api/v1/runtimes" "acct" "d1" "1000" "n1" (body_hash []).
Definition sample_headers (name : string) : string :=
  if name =?s "X-Virtroid-Account-ID" then "acct"%string
  else if name =?s "X-Virtroid-Device-ID" then "d1"%string
  else if name =?s "X-Virtroid-Timestamp" then "1000"%string
  else if name =?s "X-Virtroid-Nonce" then "n1"%string
  else if name =?s "X-Virtroid-Body-SHA256" then body_hash []
  else if name =?s "X-Virtroid-Signature" then raw_url_encode (75%N :: ((λ b, b mod 256)%N <$> Sum256 sample_canonical))
  else ""%string.
Definition sample_phone_request : Request :=
  MkRequest "GET" "/api/v1/runtimes" "/api/v1/runtimes" sample_headers (λ _, ""%string) 0 (Some []).
Definition sample_phone_api : Api :=
  sample_api <| api_db ::= (λ db, db <| db_devices ::= <["d1"%string := MkDevice "acct" "phone" sample_material None None 0 None]> |>) |>.
Definition sample_phone_after : Api := (@authenticate toy_signatures DeviceSigner sample_now sample_phone_request sample_phone_api).1.
Definition sample_call : Z → call → Db → Db := @run_call toy_signatures sample_pricing Some (λ _, true) (λ _, true).
Definition sample_between : Db :=
  sample_call sample_now (CallSession (OpRuntime (OpDeleteAccount "acct")))
    (sample_call sample_now (CallSession (OpTouch "cap"))
      (sample_call sample_now (CallSession (OpRevokeDevice "acct" "d1")) sample_phone_after.(api_db))).

Definition sample_phone_later : Api := MkApi sample_between (newByteBudget signedBodyBudgetBytes signedBodyAccountBudgetBytes).

Lemma sample_phone_accepted : (@authenticate toy_signatures DeviceSigner sample_now sample_phone_request sample_phone_api).2 = inr [].
Proof. vm_compute. reflexivity. Qed.

Lemma sample_phone_run :
  @authenticate toy_signatures DeviceSigner sample_now sample_phone_request sample_phone_api = (sample_phone_after, inr []).
Proof. unfold sample_phone_after. apply run_of. exact sample_phone_accepted. Qed.

Lemma sample_since : @since toy_signatures sample_pricing Some (λ _, true) (λ _, true) (sample_now + 60)
  (request_of DeviceSigner sample_phone_request) sample_phone_after.(api_db) sample_phone_later.(api_db).
Proof.
  unfold sample_phone_later. cbn [api_db]. unfold sample_between, sample_call.
  apply since_call; [apply since_call; [apply since_call; [apply since_none | lia |]| lia |]| lia |].
  all: intros [Hgone _]; vm_compute in Hgone; discriminate Hgone.
Qed.

Lemma signed_request_once_witness :
  ∃ s3 refusal, @authenticate toy_signatures DeviceSigner (sample_now + 60) sample_phone_request
    sample_phone_later = (s3, inl refusal).
Proof.
  exact (@signed_request_once toy_signatures sample_pricing Some (λ _, true) (λ _, true) DeviceSigner sample_now
    sample_phone_request sample_phone_api sample_phone_after [] sample_phone_later (sample_now + 60)
    sample_phone_run sample_since).
Defined.
