(* ===== verification/Notifications.v ===== *)
(** * Notifications and security events

    Models the notification part of the store (store.go 3212-3564, 4408-4473,
    6811-6881, aleph_credits.go 107-169) and of the HTTP API
    (httpapi/notifications.go, operator_notices.go, api.go's securityEventAppend):
    subscriptions of phones, the three queues of encrypted notices, the agents that
    send a runtime's notifications, the limit on security events, and the stream
    that carries notices to a phone.

    The tables of this part are the record [Notices]; the other tables are read and
    given as an argument, so they may change from one call to the next.  Rows that
    refer to rows which are gone are removed by [cascade], as ON DELETE CASCADE
    does.  [uuid.Parse] is a parameter; new ids, token digests, envelopes
    (push.EncryptEnvelope) and event ids (uuid.NewHash) are arguments. *)

From Stdlib Require Import Ascii.
From S2P Require Import Prelude.
From S2P Require Import GoLib.
From S2P Require Import Codec.
From S2P Require Import Archive.
From S2P Require Import Schema.
From S2P Require Import Common.
From S2P Require Import Entitlements.
From S2P Require Import Devices.
From S2P Require Import Requests.
Open Scope Z_scope.

(** ** Tables *)

Record DeviceNotificationSubscription := MkSubscription {
  sb_AccountID : string; sb_EncryptionPublicKey : string; sb_RelayPublicKey : option string;
  sb_CreatedAt : Z; sb_UpdatedAt : Z; sb_LastConnectedAt : option Z }.
#[export] Instance subscription_eta : Eta DeviceNotificationSubscription := λ s,
  MkSubscription s.(sb_AccountID) s.(sb_EncryptionPublicKey) s.(sb_RelayPublicKey) s.(sb_CreatedAt) s.(sb_UpdatedAt) s.(sb_LastConnectedAt).

(** runtime_notification_deliveries, security_notice_deliveries and
    operator_notice_deliveries, in the order in which acknowledgements look. *)
Inductive queue := RuntimeQueue | SecurityQueue | OperatorQueue.
#[export] Instance queue_eq_dec : EqDecision queue.
Proof. solve_decision. Defined.
#[export] Instance queue_countable : Countable queue.
Proof.
  refine (inj_countable' (λ q, match q with RuntimeQueue => 0 | SecurityQueue => 1 | OperatorQueue => 2 end)%nat
    (λ n, match n with O => RuntimeQueue | S O => SecurityQueue | _ => OperatorQueue end) _). by intros [].
Defined.

(** [dl_Source] is the runtime, the node, or "" for a notice of the operator. *)
Record Delivery := MkDelivery {
  dl_Source : string; dl_EventID : string; dl_DeviceID : string; dl_EnvelopeCiphertext : string;
  dl_CreatedAt : Z; dl_ExpiresAt : Z; dl_delivered_at : option Z }.
#[export] Instance delivery_eta : Eta Delivery := λ d,
  MkDelivery d.(dl_Source) d.(dl_EventID) d.(dl_DeviceID) d.(dl_EnvelopeCiphertext) d.(dl_CreatedAt) d.(dl_ExpiresAt) d.(dl_delivered_at).

Record NotificationAgent := MkAgent {
  na_account_id : string; na_token_sha256 : list N; na_version_code : Z; na_configured_at : Z; na_last_seen_at : option Z }.
#[export] Instance agent_eta : Eta NotificationAgent := λ a,
  MkAgent a.(na_account_id) a.(na_token_sha256) a.(na_version_code) a.(na_configured_at) a.(na_last_seen_at).

Record SecurityEvent := MkSecurityEvent {
  sv_node_id : string; sv_source : string; sv_rule : string; sv_priority : string; sv_output : string; sv_tags : list string;
  sv_event_json : string; sv_event_time : option Z; sv_created_at : Z }.

Record Notices := MkNotices {
  nt_subscriptions : gmap string DeviceNotificationSubscription;
  nt_deliveries : gmap (queue * string) Delivery;
  nt_agents : gmap string NotificationAgent;
  nt_events : list SecurityEvent;
  nt_limits : gmap (string * Z) Z }.
#[export] Instance notices_eta : Eta Notices := λ n,
  MkNotices n.(nt_subscriptions) n.(nt_deliveries) n.(nt_agents) n.(nt_events) n.(nt_limits).
Definition no_notices : Notices := MkNotices ∅ ∅ ∅ [] ∅.

Inductive NoticeErr :=
| ErrNotificationSubscription | ErrNotificationDelivery | ErrNotificationAgent | ErrSecurityEventRateLimit
| StoreErr (e : Err).
Abbreviation Nx := (M Notices NoticeErr).

(** ** Rows that go with others *)

(** What stays when the tables referred to are as in [db]. *)
Definition cascade (db : Db) (n : Notices) : Notices :=
  let subscriptions := delete_where (λ device s, is_null (db.(db_devices) !! device) || is_null (db.(db_accounts) !! s.(sb_AccountID)))
    n.(nt_subscriptions) in
  n <| nt_subscriptions := subscriptions |>
    <| nt_deliveries ::= delete_where (λ k d,
         is_null (subscriptions !! d.(dl_DeviceID))
         || match k.1 with
            | RuntimeQueue => is_null (db.(db_runtimes) !! d.(dl_Source))
            | SecurityQueue => is_null (db.(db_hosts) !! d.(dl_Source))
            | OperatorQueue => false
            end) |>
    <| nt_agents ::= delete_where (λ runtime a, is_null (db.(db_runtimes) !! runtime) || is_null (db.(db_accounts) !! a.(na_account_id))) |>.

(** ** Subscriptions *)

(** [d.revoked_at IS NULL AND a.deleted_at IS NULL] for the device of the account. *)
Definition may_receive (db : Db) (accountID deviceID : string) : bool :=
  not_null (own_device accountID deviceID db) && live_account accountID db.

Definition NotificationRelayPublicKey (db : Db) (accountID deviceID : string) : Nx string :=
  n ← gets Datatypes.id;
  s ← require (n.(nt_subscriptions) !! deviceID) (StoreErr ErrDeviceNotFound);
  refuse_if (negb ((s.(sb_AccountID) =?s accountID) && present s.(sb_RelayPublicKey) && may_receive db accountID deviceID)) (StoreErr ErrDeviceNotFound);;
  mret (TrimSpace (coalesce s.(sb_RelayPublicKey) "")).

(** The subscription asked for. *)
Record SubscriptionInput := MkSubscriptionInput {
  si_DeviceID : string; si_AccountID : string; si_EncryptionPublicKey : string; si_RelayPublicKey : string }.

Definition UpsertDeviceNotificationSubscription (db : Db) (now : Z) (subscription : SubscriptionInput) : Nx unit :=
  let '(MkSubscriptionInput deviceID accountID encryptionPublicKey relayPublicKey) := subscription in
  refuse_if ((TrimSpace accountID =?s "") || (TrimSpace deviceID =?s "") || (TrimSpace encryptionPublicKey =?s "")) ErrNotificationSubscription;;
  refuse_if (negb (may_receive db accountID deviceID)) (StoreErr ErrDeviceNotFound);;
  let relay := let key := TrimSpace relayPublicKey in if key =?s "" then None else Some key in
  modify (λ n, n <| nt_subscriptions ::= partial_alter (λ old,
    Some (match old with
          | None => MkSubscription accountID (TrimSpace encryptionPublicKey) relay now now None
          | Some s => s <| sb_EncryptionPublicKey := TrimSpace encryptionPublicKey |> <| sb_RelayPublicKey := relay |>
                        <| sb_AccountID := accountID |> <| sb_UpdatedAt := now |>
          end)) deviceID |>).

Definition own_subscription (accountID deviceID : string) (n : Notices) : option DeviceNotificationSubscription :=
  s ← n.(nt_subscriptions) !! deviceID; if s.(sb_AccountID) =?s accountID then Some s else None.

Definition DeleteDeviceNotificationSubscription (accountID deviceID : string) : Nx unit :=
  let accountID := TrimSpace accountID in
  let deviceID := TrimSpace deviceID in
  n ← gets Datatypes.id;
  refuse_if (is_null (own_subscription accountID deviceID n)) ErrNotificationSubscription;;
  modify (λ n, n <| nt_subscriptions ::= delete deviceID |>
                 <| nt_deliveries ::= delete_where (λ _ d, d.(dl_DeviceID) =?s deviceID) |>).

(** The subscriptions a query lists, by device. *)
Definition subscriptions_where (db : Db) (p : DeviceNotificationSubscription → bool) (n : Notices) : list (string * DeviceNotificationSubscription) :=
  select (λ device s, p s && may_receive db s.(sb_AccountID) device) n.(nt_subscriptions).

Definition ListDeviceNotificationSubscriptions (db : Db) (accountID : string) : Notices → list (string * DeviceNotificationSubscription) :=
  subscriptions_where db (λ s, s.(sb_AccountID) =?s TrimSpace accountID).

Definition ListDeviceNotificationSubscriptionsForNode (db : Db) (nodeID : string) : Notices → list (string * DeviceNotificationSubscription) :=
  subscriptions_where db (λ s, exists_where (λ _ r, (r.(rt_account_id) =?s s.(sb_AccountID)) && null_eqb r.(rt_host_id) (TrimSpace nodeID) && rt_live r)
    db.(db_runtimes)).

Definition ListOperatorNotificationSubscriptions (db : Db) : Notices → list (string * DeviceNotificationSubscription) :=
  subscriptions_where db (λ s, match db.(db_entitlements) !! s.(sb_AccountID) with Some e => e.(en_source) =?s "operator" | None => false end).

Definition TouchDeviceNotificationSubscription (db : Db) (now : Z) (accountID deviceID : string) : Nx unit :=
  let accountID := TrimSpace accountID in
  let deviceID := TrimSpace deviceID in
  n ← gets Datatypes.id;
  refuse_if (is_null (own_subscription accountID deviceID n) || negb (may_receive db accountID deviceID)) ErrNotificationSubscription;;
  modify (λ n, n <| nt_subscriptions ::= alter (λ s, s <| sb_LastConnectedAt := Some now |> <| sb_UpdatedAt := now |>) deviceID |>).

(** ** Queues *)

Definition hour24 : Z := 24 * 60 * minute_us.

(** [DELETE ... WHERE expires_at < NOW() OR ...]. *)
Definition purge (q : queue) (now : Z) : Nx unit :=
  modify (λ n, n <| nt_deliveries ::= delete_where (λ k d, bool_decide (k.1 = q)
    && ((d.(dl_ExpiresAt) <? now) || match d.(dl_delivered_at) with Some t => t <? now - hour24 | None => false end)) |>).

(** The columns that must be new. *)
Definition same_event (q : queue) (source event device : string) (k : queue * string) (d : Delivery) : bool :=
  bool_decide (k.1 = q) && (d.(dl_Source) =?s source) && (d.(dl_EventID) =?s event) && (d.(dl_DeviceID) =?s device).

(** Whether the rows a delivery refers to are there. *)
Definition refers (q : queue) (db : Db) (source : string) : bool :=
  match q with
  | RuntimeQueue => not_null (db.(db_runtimes) !! source)
  | SecurityQueue => not_null (db.(db_hosts) !! source)
  | OperatorQueue => true
  end.

(** [INSERT ... ON CONFLICT (source, event_id, device_id) DO NOTHING]. *)
Definition insert_delivery (q : queue) (db : Db) (now : Z) (id source event device envelope : string) (expiresAt : Z) : Nx bool :=
  n ← gets Datatypes.id;
  if exists_where (same_event q source event device) n.(nt_deliveries) then mret false
  else
    refuse_if (not_null (n.(nt_deliveries) !! (q, id))) (StoreErr (ErrUnique "deliveries_pkey"));;
    refuse_if (negb (refers q db source) || is_null (n.(nt_subscriptions) !! device)) (StoreErr (ErrCheck "deliveries"));;
    modify (λ n, n <| nt_deliveries ::= <[(q, id) := MkDelivery source event device envelope now expiresAt None]> |>);;
    mret true.

(** ** The server's state *)

(** The server's part of it: the tables, the limiter of runtimes' notifications, and
    the devices whose streams were woken. *)
Record NoticeApi := MkNoticeApi { ap_notices : Notices; ap_limiter : rateLimiter; ap_woken : list string }.
#[export] Instance notice_api_eta : Eta NoticeApi := λ a, MkNoticeApi a.(ap_notices) a.(ap_limiter) a.(ap_woken).
Abbreviation NHandler := (M NoticeApi Refusal).

Definition notice_call {A} (op : Nx A) (refusal : NoticeErr → Refusal) : NHandler A := λ a,
  match op a.(ap_notices) with
  | (n, inr x) => (a <| ap_notices := n |>, inr x)
  | (n, inl e) => (a <| ap_notices := n |>, inl (refusal e))
  end.
Definition notify (deviceID : string) : NHandler unit := modify (λ a, a <| ap_woken ::= (λ l, l ++ [deviceID]) |>).

Section uuids.
Variable uuid_parse : string → option string.
Definition is_uuid (s : string) : bool := not_null (uuid_parse (TrimSpace s)).

Record DeliveryInput := MkDeliveryInput {
  di_ID : string; di_Source : string; di_EventID : string; di_DeviceID : string; di_EnvelopeCiphertext : string; di_ExpiresAt : Z }.

(** The checks the three enqueueing methods make; only the operator's notices have no
    source. *)
Definition check_delivery (q : queue) (now : Z) (delivery : DeliveryInput) : Nx unit :=
  refuse_if (negb (is_uuid delivery.(di_ID)) || negb (is_uuid delivery.(di_EventID))) ErrNotificationDelivery;;
  refuse_if (negb (bool_decide (q = OperatorQueue)) && (TrimSpace delivery.(di_Source) =?s "")
             || (TrimSpace delivery.(di_DeviceID) =?s "") || (TrimSpace delivery.(di_EnvelopeCiphertext) =?s "")
             || (delivery.(di_ExpiresAt) <=? now)) ErrNotificationDelivery.

Definition EnqueueRuntimeNotificationDelivery (db : Db) (now : Z) (delivery : DeliveryInput) : Nx bool :=
  check_delivery RuntimeQueue now delivery;;
  atomically (
    purge RuntimeQueue now;;
    insert_delivery RuntimeQueue db now delivery.(di_ID) delivery.(di_Source) delivery.(di_EventID) delivery.(di_DeviceID)
      delivery.(di_EnvelopeCiphertext) delivery.(di_ExpiresAt)).

Definition EnqueueSecurityNoticeDelivery (db : Db) (now : Z) (delivery : DeliveryInput) : Nx bool :=
  check_delivery SecurityQueue now delivery;;
  atomically (
    purge SecurityQueue now;;
    insert_delivery SecurityQueue db now delivery.(di_ID) (TrimSpace delivery.(di_Source)) delivery.(di_EventID) delivery.(di_DeviceID)
      delivery.(di_EnvelopeCiphertext) delivery.(di_ExpiresAt)).

Definition EnqueueOperatorNoticeDelivery (db : Db) (now : Z) (delivery : DeliveryInput) : Nx bool :=
  check_delivery OperatorQueue now delivery;;
  purge OperatorQueue now;;
  insert_delivery OperatorQueue db now delivery.(di_ID) "" delivery.(di_EventID) delivery.(di_DeviceID)
    delivery.(di_EnvelopeCiphertext) delivery.(di_ExpiresAt).

(** *** Reading and acknowledging *)

Definition is_pending (now : Z) (d : Delivery) : bool := is_null d.(dl_delivered_at) && (now <? d.(dl_ExpiresAt)).

(** [ORDER BY q.created_at ASC, q.id ASC]. *)
Definition oldest_first (x y : queue * string * Delivery) : bool :=
  (x.2.(dl_CreatedAt) <? y.2.(dl_CreatedAt)) || ((x.2.(dl_CreatedAt) =? y.2.(dl_CreatedAt)) && String.leb x.1.2 y.1.2).

(** All that is pending for the device, oldest first. *)
Definition pending_for (db : Db) (now : Z) (accountID deviceID : string) (n : Notices) : list (queue * string * Delivery) :=
  if not_null (own_subscription accountID deviceID n) && may_receive db accountID deviceID
  then order_by oldest_first (select (λ _ d, is_pending now d && (d.(dl_DeviceID) =?s deviceID)) n.(nt_deliveries))
  else [].

Definition delivery_id (x : queue * string * Delivery) : string := x.1.2.

Definition ListPendingNotificationDeliveries (db : Db) (now : Z) (accountID deviceID : string) (limit : Z) (excludeIDs : list string) (n : Notices)
    : list (queue * string * Delivery) :=
  let limit := if (limit <=? 0) || (100 <? limit) then 20 else limit in
  take (Z.to_nat limit) (List.filter (λ x, negb (bool_decide (delivery_id x ∈ excludeIDs)))
    (pending_for db now (TrimSpace accountID) (TrimSpace deviceID) n)).

(** The UPDATE of one table: whether a row matched. *)
Definition mark_in (q : queue) (db : Db) (now : Z) (accountID deviceID deliveryID : string) : Nx bool :=
  n ← gets Datatypes.id;
  if match n.(nt_deliveries) !! (q, deliveryID) with Some d => d.(dl_DeviceID) =?s deviceID | None => false end
     && not_null (own_subscription accountID deviceID n) && may_receive db accountID deviceID
  then modify (λ n, n <| nt_deliveries ::= alter (λ d, d <| dl_delivered_at ::= (λ t, Some (coalesce t now)) |>) (q, deliveryID) |>);; mret true
  else mret false.

Definition MarkNotificationDeliveryDelivered (db : Db) (now : Z) (accountID deviceID deliveryID : string) : Nx unit :=
  refuse_if (negb (is_uuid deliveryID)) ErrNotificationDelivery;;
  let mark q := mark_in q db now (TrimSpace accountID) (TrimSpace deviceID) (TrimSpace deliveryID) in
  atomically (
    found ← mark RuntimeQueue;
    if found : bool then mret tt
    else
      found ← mark SecurityQueue;
      if found : bool then mret tt
      else
        found ← mark OperatorQueue;
        if found : bool then mret tt else throw ErrNotificationDelivery).

(** ** Agents *)

Definition RegisterRuntimeNotificationAgent (db : Db) (now : Z) (runtimeID hostID : string) (tokenSHA256 : list N) (versionCode : Z) : Nx unit :=
  refuse_if ((TrimSpace runtimeID =?s "") || (TrimSpace hostID =?s "") || negb (length tokenSHA256 =? 32)%nat || (versionCode <=? 0)) ErrNotificationAgent;;
  match db.(db_runtimes) !! runtimeID with
  | Some r =>
    refuse_if (negb (null_eqb r.(rt_host_id) hostID && rt_live r && (r.(rt_desired_state) =?s "running"))) (StoreErr ErrRuntimeNotFound);;
    n ← gets Datatypes.id;
    refuse_if (exists_where (λ k a, negb (k =?s runtimeID) && bool_decide (a.(na_token_sha256) = tokenSHA256)) n.(nt_agents))
      (StoreErr (ErrUnique "token_sha256"));;
    modify (λ n, n <| nt_agents ::= <[runtimeID := MkAgent r.(rt_account_id) tokenSHA256 versionCode now None]> |>)
  | None => throw (StoreErr ErrRuntimeNotFound)
  end.

Record RuntimeNotificationTarget := MkTarget { tg_AccountID : string; tg_RuntimeID : string; tg_RuntimeName : string; tg_Confidential : bool }.

(** [EXISTS (SELECT 1 FROM hosts h WHERE h.id = r.host_id AND h.snp_attestation <> '')]. *)
Definition confidential (db : Db) (r : Runtime) : bool :=
  match r.(rt_host_id) with
  | Some h => match db.(db_hosts) !! h with Some host => negb (host.(ho_snp_attestation) =?s "") | None => false end
  | None => false
  end.

Definition AuthenticateRuntimeNotificationAgent (db : Db) (now : Z) (runtimeID : string) (tokenSHA256 : list N)
    : Nx RuntimeNotificationTarget :=
  refuse_if ((TrimSpace runtimeID =?s "") || negb (length tokenSHA256 =? 32)%nat) ErrNotificationAgent;;
  n ← gets Datatypes.id;
  a ← require (n.(nt_agents) !! runtimeID) ErrNotificationAgent;
  r ← require (db.(db_runtimes) !! runtimeID) ErrNotificationAgent;
  refuse_if (negb (bool_decide (a.(na_token_sha256) = tokenSHA256) && (r.(rt_account_id) =?s a.(na_account_id)) && rt_live r
                   && (r.(rt_desired_state) =?s "running"))) ErrNotificationAgent;;
  modify (λ n, n <| nt_agents ::= alter (λ a, a <| na_last_seen_at := Some now |>) runtimeID |>);;
  mret (MkTarget a.(na_account_id) runtimeID r.(rt_name) (confidential db r)).

(** ** Security events *)

Record SecurityEventInput := MkSecurityEventInput {
  sei_NodeID : string; sei_Source : string; sei_Rule : string; sei_Priority : string; sei_Output : string; sei_Tags : list string;
  sei_EventJSON : string; sei_EventTime : option Z }.

Definition bucket_of (now : Z) : Z := now / minute_us * minute_us.

(** [INSERT ... ON CONFLICT ... DO UPDATE ... WHERE event_count < max]. *)
Definition count_event (now : Z) (nodeID : string) (maxPerMinute : Z) : Nx unit :=
  n ← gets Datatypes.id;
  let count := match n.(nt_limits) !! (nodeID, bucket_of now) with
               | None => Some 1
               | Some c => if c <? maxPerMinute then Some (c + 1) else None
               end in
  c ← require count ErrSecurityEventRateLimit;
  modify (λ n, n <| nt_limits ::= <[(nodeID, bucket_of now) := c]> |>).

Definition AppendSecurityEventLimited (now : Z) (event : SecurityEventInput) (maxPerMinute retention : Z) : Nx unit :=
  atomically (
    (if 0 <? retention then
       modify (λ n, n <| nt_events ::= List.filter (λ e, negb (e.(sv_created_at) <? now - retention)) |>
                      <| nt_limits ::= delete_where (λ k _, k.2 <? now - retention) |>)
     else mret tt);;
    let nodeID := TrimSpace event.(sei_NodeID) in
    (if 0 <? maxPerMinute then count_event now nodeID maxPerMinute else mret tt);;
    modify (λ n, n <| nt_events ::= (λ l, l ++ [MkSecurityEvent nodeID (defaultString event.(sei_Source) "falco")
      (defaultString event.(sei_Rule) "security event") (defaultString event.(sei_Priority) "notice") (TrimSpace event.(sei_Output))
      event.(sei_Tags) (defaultString event.(sei_EventJSON) "{}") event.(sei_EventTime) now]) |>)).

Definition AppendSecurityEvent (now : Z) (event : SecurityEventInput) : Nx unit := AppendSecurityEventLimited now event 0 0.

(** ** The HTTP API *)

Definition maxNotificationPackageChars : nat := 255.
Definition maxNotificationLabelRunes : nat := 100.
Definition maxNotificationTitleRunes : nat := 200.
Definition notificationDeliveryTTL : Z := 7 * hour24.
Definition notificationStreamBatchSize : Z := 20.
Definition notificationStreamSentLimit : nat := 500.
Definition minSealedNotificationBytes : nat := 30.
Definition maxSealedNotificationBytes : nat := Nat.pow 2 12.

(** *** What an agent may send *)

(** [posted_at] is [None] for Go's zero time. *)
Record runtimeNotificationEvent := MkNotification {
  ne_EventID : string; ne_PackageName : string; ne_AppLabel : string; ne_PostedAt : option Z; ne_Title : string; ne_Sealed : string }.

(** [notificationPackagePattern]: names separated by dots, two or more, each a letter
    followed by letters, digits and underscores. *)
Definition letter (c : ascii) : bool :=
  let n := N_of_ascii c in ((65 <=? n) && (n <=? 90) || (97 <=? n) && (n <=? 122))%N.
Definition name_char (c : ascii) : bool :=
  let n := N_of_ascii c in letter c || ((48 <=? n) && (n <=? 57))%N || (n =? 95)%N.
(** What may follow, by where the name stands: at its start or after a letter, and
    whether there was a dot. *)
Fixpoint package_rest (start dotted : bool) (l : list ascii) : bool :=
  match l with
  | [] => negb start && dotted
  | c :: l' =>
    if start then letter c && package_rest false dotted l'
    else if Ascii.eqb c "."%char then package_rest true true l'
    else name_char c && package_rest false dotted l'
  end.
Definition notificationPackagePattern (name : string) : bool := package_rest true false (bytes_of name).

(** Texts are valid UTF-8, as decoded from JSON. *)
Definition validRuntimeNotification (now : Z) (event : runtimeNotificationEvent) : bool :=
  if negb (is_uuid event.(ne_EventID)) then false
  else if negb (event.(ne_Sealed) =?s "") then
    (event.(ne_PackageName) =?s "") && (event.(ne_AppLabel) =?s "") && (event.(ne_Title) =?s "") && is_null event.(ne_PostedAt)
    && match std_decode event.(ne_Sealed) with
       | Some sealed => (minSealedNotificationBytes <=? length sealed)%nat && (length sealed <=? maxSealedNotificationBytes)%nat
       | None => false
       end
  else
    negb (event.(ne_PackageName) =?s "") && (String.length event.(ne_PackageName) <=? maxNotificationPackageChars)%nat
    && notificationPackagePattern event.(ne_PackageName)
    && negb (rune_count (bytes_of event.(ne_AppLabel)) =? 0)%nat
    && (rune_count (bytes_of event.(ne_AppLabel)) <=? maxNotificationLabelRunes)%nat
    && (rune_count (bytes_of event.(ne_Title)) <=? maxNotificationTitleRunes)%nat
    && match event.(ne_PostedAt) with
       | Some t => (now - 7 * hour24 <? t) && (t <? now + 5 * minute_us)
       | None => false
       end.

(** *** Queueing for subscribers *)

(** One delivery to each subscription: [envelope] is what [push.EncryptEnvelope] makes
    of the payload for a key, [fresh] the new ids. *)
Definition queue_for (enqueue : DeliveryInput → Nx bool) (source event : string) (expiresAt : Z) (envelope : string → option string)
    (fresh : nat → string) (subscriptions : list (string * DeviceNotificationSubscription)) : NHandler nat :=
  fold_each (λ queued i_sub,
    let '(i, (device, s)) := i_sub in
    sealed ← require (envelope s.(sb_EncryptionPublicKey)) (internal_error "notification_payload_encrypt_failed");
    inserted ← notice_call (enqueue (MkDeliveryInput (fresh i) source event device sealed expiresAt))
      (λ _, internal_error "notification_delivery_enqueue_failed");
    notify device;;
    mret (if inserted : bool then S queued else queued)) 0%nat (zip (seq 0 (length subscriptions)) subscriptions).

Definition receiveRuntimeNotification (db : Db) (now : Z) (authorization runtimeID : string)
    (decoded : option runtimeNotificationEvent) (envelope : string → option string) (fresh : nat → string) : NHandler (nat * nat) :=
  let authorization := TrimSpace authorization in
  refuse_if (negb (HasPrefix authorization "Bearer ")) (401, "notification agent authorization is required"%string);;
  token ← require (raw_url_decode (TrimSpace (of_bytes (drop 7 (bytes_of authorization))))) (401, "notification agent authorization is invalid"%string);
  refuse_if (negb (length token =? 32)%nat) (401, "notification agent authorization is invalid"%string);;
  target ← notice_call (AuthenticateRuntimeNotificationAgent db now runtimeID (Sum256 token))
    (λ e, match e with ErrNotificationAgent => (401, "runtime notification agent is not authorized"%string) | _ => internal_error "notification_agent_auth_failed" end);
  a ← gets Datatypes.id;
  let '(limiter, (ok, _)) := allow now target.(tg_RuntimeID) a.(ap_limiter) in
  modify (λ a, a <| ap_limiter := limiter |>);;
  refuse_if (negb ok) (429, "runtime_notification_rate_limited"%string);;
  event ← require decoded (400, "invalid metadata-only notification event"%string);
  refuse_if (negb (validRuntimeNotification now event)) (400, "invalid metadata-only notification event"%string);;
  refuse_if (target.(tg_Confidential) && (event.(ne_Sealed) =?s "")) (400, "runtime_notification_not_sealed"%string);;
  a ← gets Datatypes.id;
  let subscriptions := ListDeviceNotificationSubscriptions db target.(tg_AccountID) a.(ap_notices) in
  queued ← queue_for (EnqueueRuntimeNotificationDelivery db now) target.(tg_RuntimeID) event.(ne_EventID) (now + notificationDeliveryTTL)
    envelope fresh subscriptions;
  mret (queued, length subscriptions).

(** *** Notices of a node's security events *)

Definition clientSecuritySeverity (priority : string) : string :=
  let p := ToLower (TrimSpace priority) in
  if existsb (str_eqb p) ["emergency"; "alert"; "critical"; "error"]%string then "critical"
  else if existsb (str_eqb p) ["warning"; "warn"]%string then "warning"
  else "notice".

Definition clientSecuritySummary (source rule : string) : string :=
  let rule := ToLower (TrimSpace rule) in
  if source =?s "suricata" then "Network-security anomaly detected on the Virtroid host"
  else if Contains rule "shell spawned" then "Unexpected shell activity detected on the Virtroid host"
  else if Contains rule "runtime root access" then "Unexpected access to protected runtime storage detected"
  else if Contains rule "docker socket" then "Unexpected container-management access detected"
  else "Host-security anomaly detected on the Virtroid host".

(** What the phone is told: source, severity, summary, time. *)
Record securityNoticeEvent := MkSecurityNotice { sn_EventID : string; sn_Source : string; sn_Severity : string; sn_Summary : string; sn_ObservedAt : Z }.

(** [eventID] is the hash of the node's id and the fingerprint; [envelope] seals the
    notice for a key. *)
Definition enqueueNodeSecurityNotice (db : Db) (now : Z) (nodeID source rule priority eventID : string) (observedAt : option Z)
    (envelope : securityNoticeEvent → string → option string) (fresh : nat → string) : NHandler nat :=
  let source := ToLower (TrimSpace source) in
  if negb (source =?s "falco") && negb (source =?s "suricata") then mret 0%nat
  else
    let observedAt := coalesce observedAt now in
    let observedAt := if (observedAt <? now - notificationDeliveryTTL) || (now + 5 * minute_us <? observedAt) then now else observedAt in
    let event := MkSecurityNotice eventID source (clientSecuritySeverity priority) (clientSecuritySummary source rule) observedAt in
    a ← gets Datatypes.id;
    queue_for (EnqueueSecurityNoticeDelivery db now) nodeID eventID (now + notificationDeliveryTTL) (envelope event) fresh
      (ListDeviceNotificationSubscriptionsForNode db nodeID a.(ap_notices)).

Definition trimForStorage (value : string) (maxRunes : nat) : string :=
  let value := TrimSpace value in
  if (maxRunes =? 0)%nat then value
  else if (rune_count (bytes_of value) <=? maxRunes)%nat then value else of_bytes (take_runes maxRunes (bytes_of value)).

Definition maxSecurityEventOutputRunes : nat := Nat.pow 2 12.
Definition maxSecurityEventJSONRunes : nat := Nat.pow 2 16.
Definition maxSecurityEventTags : nat := 16.
Definition maxSecurityEventTagRunes : nat := 64.
Definition defaultSecurityEventRateLimitPerMinute : Z := 120.
Definition defaultSecurityEventRetention : Z := 7 * hour24.

Fixpoint normalize_tags (tags normalized : list string) : list string :=
  match tags with
  | [] => normalized
  | tag :: tags' =>
    let tag := trimForStorage tag maxSecurityEventTagRunes in
    if (tag =?s "") || existsb (str_eqb tag) normalized then normalize_tags tags' normalized
    else
      let normalized := normalized ++ [tag] in
      if (maxSecurityEventTags <=? length normalized)%nat then normalized else normalize_tags tags' normalized
  end.
Definition normalizeSecurityEventTags (tags : list string) : list string := normalize_tags tags [].

(** The decoded report of a node; [eventJSON] is the event's text, or the text made of
    the other fields when there is none. *)
Record securityEventRequest := MkEventRequest {
  eq_Source : string; eq_Rule : string; eq_Priority : string; eq_Output : string; eq_Tags : list string; eq_Time : option Z; eq_eventJSON : string }.

(** [None] when the node is over its limit, which is not an error. *)
Definition securityEventAppend (db : Db) (now cfgRateLimit cfgRetention : Z) (nodeID : string) (decoded : option securityEventRequest)
    (eventID : string) (envelope : securityNoticeEvent → string → option string) (fresh : nat → string) : NHandler (option nat) :=
  req ← require decoded (400, "invalid json"%string);
  let rule := trimForStorage req.(eq_Rule) 256 in
  let output := trimForStorage req.(eq_Output) maxSecurityEventOutputRunes in
  refuse_if ((rule =?s "") && (output =?s "")) (400, "rule or output is required"%string);;
  let eventJSON := trimForStorage req.(eq_eventJSON) maxSecurityEventJSONRunes in
  let rateLimit := if cfgRateLimit <=? 0 then defaultSecurityEventRateLimitPerMinute else cfgRateLimit in
  let retention := if cfgRetention <=? 0 then defaultSecurityEventRetention else cfgRetention in
  a ← gets Datatypes.id;
  match AppendSecurityEventLimited now (MkSecurityEventInput nodeID (trimForStorage req.(eq_Source) 64) rule (trimForStorage req.(eq_Priority) 32) output
          (normalizeSecurityEventTags req.(eq_Tags)) eventJSON req.(eq_Time)) rateLimit retention a.(ap_notices) with
  | (n, inl ErrSecurityEventRateLimit) => modify (λ a, a <| ap_notices := n |>);; mret None
  | (n, inl _) => modify (λ a, a <| ap_notices := n |>);; throw (internal_error "security_event_append_failed")
  | (n, inr _) =>
    modify (λ a, a <| ap_notices := n |>);;
    queued ← enqueueNodeSecurityNotice db now nodeID req.(eq_Source) req.(eq_Rule) req.(eq_Priority) eventID
      (Some (coalesce req.(eq_Time) now)) envelope fresh;
    mret (Some queued)
  end.

(** *** Notices of the operator *)

Definition boundedNoticeTitle (title : string) : string :=
  if (rune_count (bytes_of title) <=? maxNotificationTitleRunes)%nat then title
  else of_bytes (take_runes (maxNotificationTitleRunes - 1) (bytes_of title)) +:+ of_bytes [ascii_of_N 226; ascii_of_N 128; ascii_of_N 166].

(** Failures are only logged: the next device's notice is queued all the same.  What is
    not done in a transaction stays done. *)
Definition enqueueOperatorNotice (db : Db) (now : Z) (eventID : string) (envelope : string → option string) (fresh : nat → string)
    : NHandler unit :=
  a ← gets Datatypes.id;
  let subscriptions := ListOperatorNotificationSubscriptions db a.(ap_notices) in
  for_each (λ i_sub,
    let '(i, (device, s)) := i_sub in
    match envelope s.(sb_EncryptionPublicKey) with
    | None => mret tt
    | Some sealed =>
      a ← gets Datatypes.id;
      match EnqueueOperatorNoticeDelivery db now (MkDeliveryInput (fresh i) "" eventID device sealed (now + notificationDeliveryTTL)) a.(ap_notices) with
      | (n, inl _) => modify (λ a, a <| ap_notices := n |>)
      | (n, inr _) => modify (λ a, a <| ap_notices := n |>);; notify device
      end
    end) (zip (seq 0 (length subscriptions)) subscriptions).

(** *** The stream and its acknowledgements *)

Definition notificationRelaySigningKey : string := "notification-relay".

(** The relay key's requests; its owner reads [n]. *)
Definition requireSignedRelayRequest `{Signatures} (now : Z) (n : Notices) (r : Request) : Handler (string * string * list N) :=
  let signingKey := TrimSpace (r.(rq_header) "X-Virtroid-Signing-Key") in
  if signingKey =?s "" then requireSignedDeviceRequest now r
  else if signingKey =?s notificationRelaySigningKey then
    requireSignedRequest now r (λ accountID deviceID db,
      (db, match (NotificationRelayPublicKey db accountID deviceID n).2 with
           | inr key => inr key
           | inl (StoreErr e) => inl e
           | inl _ => inl ErrNoRows
           end)) relaySignatureContext
  else throw (401, "unknown signing key"%string).

Definition ackMyNotificationDelivery (db : Db) (now : Z) (accountID deviceID deliveryID : string) : NHandler unit :=
  let deliveryID := TrimSpace deliveryID in
  refuse_if (negb (is_uuid deliveryID)) (400, "invalid notification delivery"%string);;
  notice_call (MarkNotificationDeliveryDelivered db now accountID deviceID deliveryID)
    (λ e, match e with ErrNotificationDelivery => (404, "notification delivery not found"%string) | _ => internal_error "notification_delivery_ack_failed" end);;
  notify deviceID.

(** A round of the stream's loop: what was sent before, and what is written now. *)
Definition stream_round (db : Db) (now : Z) (accountID deviceID : string) (n : Notices) (sent : gset string)
    : gset string * list (queue * string * Delivery) :=
  let sent := if (notificationStreamSentLimit <? size sent)%nat then ∅ else sent in
  foldl (λ acc delivery,
    if bool_decide (delivery_id delivery ∈ acc.1) then acc else ({[delivery_id delivery]} ∪ acc.1, acc.2 ++ [delivery]))
    (sent, []) (ListPendingNotificationDeliveries db now accountID deviceID notificationStreamBatchSize (elements sent) n).

(** The stream as it sees the tables from round to round: everything written. *)
Fixpoint stream_rounds (accountID deviceID : string) (sent : gset string) (seen : list (Db * Z * Notices)) : list (queue * string * Delivery) :=
  match seen with
  | [] => []
  | (db, now, n) :: seen' =>
    let '(sent, written) := stream_round db now accountID deviceID n sent in
    written ++ stream_rounds accountID deviceID sent seen'
  end.

(** The subscription is touched, then the rounds begin; a write that fails ends it. *)
Definition streamMyNotifications (db : Db) (now : Z) (accountID deviceID : string) : NHandler (list (Db * Z * Notices) → list (queue * string * Delivery)) :=
  notice_call (TouchDeviceNotificationSubscription db now accountID deviceID)
    (λ e, match e with ErrNotificationSubscription => (409, "notification subscription is required"%string) | _ => internal_error "notification_subscription_touch_failed" end);;
  mret (stream_rounds accountID deviceID ∅).
End uuids.

(** *** Subscribing and registering *)

Section keys.
Context `{Signatures}.

Definition maxNotificationPublicKeyChars : Z := Z.shiftl 2 10.

Definition parseEncryptionPublicKey (publicKeyMaterial : string) : option VerifyingKey :=
  decoded ← raw_url_decode (TrimSpace publicKeyMaterial);
  match ParsePKIXPublicKey decoded with
  | PkixECDSA key => if isP256PublicKey key then Some key else None
  | _ => None
  end.

(** The decoded body: the device, the encryption key and the relay key. *)
Definition upsertMyNotificationSubscription (db : Db) (now : Z) (accountID deviceID : string) (decoded : option (string * string * string)) : NHandler unit :=
  let invalid : Refusal := (400, "invalid notification subscription"%string) in
  '(device, encryptionKey, relayKey) ← require decoded invalid;
  refuse_if (negb (TrimSpace device =?s deviceID) || (encryptionKey =?s "") || (maxNotificationPublicKeyChars <? str_len encryptionKey)
             || is_null (parseEncryptionPublicKey encryptionKey)) invalid;;
  let relayPublicKey := TrimSpace relayKey in
  refuse_if (negb (relayPublicKey =?s "")
             && ((maxNotificationPublicKeyChars <? str_len relayPublicKey)
                 || match parseECDSAPublicKeyMaterial relayPublicKey with Some key => negb (isP256PublicKey key) | None => true end)) invalid;;
  notice_call (UpsertDeviceNotificationSubscription db now (MkSubscriptionInput deviceID accountID (TrimSpace encryptionKey) relayPublicKey))
    (λ e, match e with StoreErr ErrDeviceNotFound => (404, "device not found"%string) | _ => internal_error "notification_subscription_update_failed" end).

Definition deleteMyNotificationSubscription (accountID deviceID : string) : NHandler unit := λ a,
  match DeleteDeviceNotificationSubscription accountID deviceID a.(ap_notices) with
  | (n, inr _) | (n, inl ErrNotificationSubscription) => (a <| ap_notices := n |>, inr tt)
  | (n, inl _) => (a <| ap_notices := n |>, inl (internal_error "notification_subscription_delete_failed"))
  end.

(** The decoded body: the token's digest and the version. *)
Definition registerRuntimeNotificationAgent (db : Db) (now : Z) (runtimeID nodeID : string) (decoded : option (string * Z)) : NHandler unit :=
  let invalid : Refusal := (400, "invalid notification agent registration"%string) in
  '(tokenSHA256, versionCode) ← require decoded invalid;
  digest ← require (raw_url_decode (TrimSpace tokenSHA256)) invalid;
  refuse_if (negb (length digest =? 32)%nat || (versionCode <=? 0)) invalid;;
  notice_call (RegisterRuntimeNotificationAgent db now runtimeID nodeID digest versionCode)
    (λ e, match e with StoreErr ErrRuntimeNotFound => (404, "runtime not found"%string) | _ => internal_error "notification_agent_registration_failed" end).
End keys.

(** ** The stream reaches every notice *)

Section stream.
Variables (accountID deviceID : string).

Definition pending_at (st : Db * Z * Notices) : list (queue * string * Delivery) :=
  pending_for st.1.1 st.1.2 (TrimSpace accountID) (TrimSpace deviceID) st.2.
Definition unsent (sent : gset string) (l : list (queue * string * Delivery)) : list (queue * string * Delivery) :=
  List.filter (λ x, negb (bool_decide (delivery_id x ∈ sent))) l.
Definition ids (l : list (queue * string * Delivery)) : list string := delivery_id <$> l.

Lemma write_all l sent acc : NoDup (ids l) → Forall (λ x, delivery_id x ∉ sent) l →
  foldl (λ acc delivery, if bool_decide (delivery_id delivery ∈ acc.1) then acc else ({[delivery_id delivery]} ∪ acc.1, acc.2 ++ [delivery]))
    (sent, acc) l = (list_to_set (ids l) ∪ sent : gset string, acc ++ l).
Proof.
  revert sent acc. induction l as [|x l IH]; intros sent acc Hnd Hs; cbn [foldl ids fmap list_fmap].
  { rewrite app_nil_r. f_equal. set_solver. }
  apply NoDup_cons in Hnd as [Hx Hnd]. apply Forall_cons in Hs as [Hxs Hs]. cbn [fst snd]. rewrite bool_decide_false by done.
  rewrite IH; [| done |].
  - rewrite <-app_assoc. f_equal. cbn. set_solver.
  - rewrite Forall_forall in *. intros y Hy. apply not_elem_of_union. split; [|by apply Hs]. intros E%elem_of_singleton.
    apply Hx. rewrite <-E. by apply list_elem_of_fmap_2.
Qed.

Lemma unsent_NoDup sent l : NoDup (ids l) → NoDup (ids (unsent sent l)).
Proof.
  induction l as [|x l IH]; [done|]. cbn. intros [Hx Hl]%NoDup_cons. case_bool_decide; cbn; [by apply IH|].
  apply NoDup_cons. split; [|by apply IH]. intros (y & Ey & Hy)%list_elem_of_fmap. apply Hx. rewrite Ey. apply list_elem_of_fmap_2.
  apply list_elem_of_In. apply list_elem_of_In, filter_In in Hy. apply Hy.
Qed.

Lemma unsent_not_sent sent l : Forall (λ x, delivery_id x ∉ sent) (unsent sent l).
Proof.
  apply Forall_forall. intros x Hx%list_elem_of_In. apply filter_In in Hx as [_ Hx]. by apply negb_true_iff, bool_decide_eq_false in Hx.
Qed.

(** A round writes the oldest twenty that were not sent yet. *)
Lemma stream_round_spec st (sent : gset string) : NoDup (ids (pending_at st)) →
  let sent' := if (notificationStreamSentLimit <? size sent)%nat then ∅ else sent in
  let written := take 20 (unsent sent' (pending_at st)) in
  stream_round st.1.1 st.1.2 accountID deviceID st.2 sent = (list_to_set (ids written) ∪ sent', written).
Proof.
  intros Hnd sent' written. unfold stream_round. fold sent'.
  assert (E : ListPendingNotificationDeliveries st.1.1 st.1.2 accountID deviceID notificationStreamBatchSize (elements sent') st.2 = written).
  { unfold ListPendingNotificationDeliveries, written, unsent. f_equal. apply List.filter_ext. intros x. f_equal.
    apply bool_decide_ext. by rewrite elem_of_elements. }
  rewrite E. rewrite write_all; [done | |].
  - unfold written, ids. rewrite fmap_take. eapply sublist_NoDup; [by apply unsent_NoDup | apply sublist_take].
  - apply Forall_take, unsent_not_sent.
Qed.

(** The notice [id] is pending, and what is pending before it is among [older]. *)
Definition waits (id : string) (older : gset string) (st : Db * Z * Notices) : Prop :=
  NoDup (ids (pending_at st)) ∧ ∃ pre x post, pending_at st = pre ++ x :: post ∧ delivery_id x = id ∧ Forall (λ y, delivery_id y ∈ older) pre.

Lemma unsent_app sent l1 l2 : unsent sent (l1 ++ l2) = unsent sent l1 ++ unsent sent l2.
Proof. apply List.filter_app. Qed.
Lemma unsent_in sent l x : x ∈ unsent sent l → x ∈ l.
Proof. intros Hx%list_elem_of_In. apply filter_In in Hx as [Hx _]. by apply list_elem_of_In. Qed.

(** A round that does not write it writes twenty older ones. *)
Lemma round_progress id older st sent : waits id older st → id ∉ sent → (size sent ≤ 500)%nat →
  let '(sent', written) := stream_round st.1.1 st.1.2 accountID deviceID st.2 sent in
  id ∈ ids written
  ∨ size sent' = (size sent + 20)%nat ∧ (sent ⊆ older → sent' ⊆ older).
Proof.
  intros (Hnd & pre & x & post & Hp & Hx & Hold) Hid Hsize. rewrite stream_round_spec by done. cbv zeta.
  assert ((notificationStreamSentLimit <? size sent)%nat = false) as -> by (apply Nat.ltb_ge; exact Hsize).
  assert (Eu : unsent sent (pending_at st) = unsent sent pre ++ x :: unsent sent post).
  { rewrite Hp, unsent_app. f_equal. cbn. by rewrite Hx, bool_decide_false. }
  assert (Hnd' : NoDup (ids (unsent sent pre))).
  { apply unsent_NoDup. rewrite Hp in Hnd. unfold ids in Hnd. rewrite fmap_app in Hnd. by apply NoDup_app in Hnd as [? _]. }
  rewrite Eu. destruct (decide (20 ≤ length (unsent sent pre))%nat) as [Hlen|Hlen].
  - right. rewrite take_app_le by done. split.
    + rewrite size_union.
      * rewrite size_list_to_set; [|unfold ids; rewrite fmap_take; eapply sublist_NoDup; [exact Hnd' | apply sublist_take]].
        unfold ids. rewrite length_fmap, length_take. lia.
      * intros y Hy%elem_of_list_to_set Hy'. apply list_elem_of_fmap in Hy as (z & -> & Hz%elem_of_take).
        destruct Hz as (i & Hz & _). apply list_elem_of_lookup_2 in Hz. pose proof (unsent_not_sent sent pre) as Hf.
        rewrite Forall_forall in Hf. by apply (Hf z).
    + intros Hsub y [Hy%elem_of_list_to_set|Hy]%elem_of_union; [|by apply Hsub]. apply list_elem_of_fmap in Hy as (z & -> & (i & Hz & _)%elem_of_take).
      apply list_elem_of_lookup_2, unsent_in in Hz. rewrite Forall_forall in Hold. by apply Hold.
  - left. rewrite <-Hx. apply list_elem_of_fmap_2. apply elem_of_take. exists (length (unsent sent pre)). split; [|lia].
    by rewrite lookup_app_r, Nat.sub_diag by lia.
Qed.

Lemma stream_reaches id older seen : ∀ sent : gset string, Forall (waits id older) seen → id ∉ older → (size older < 520)%nat →
  sent ⊆ older → (size sent `mod` 20 = 0)%nat → (size older < size sent + 20 * length seen)%nat →
  id ∈ ids (stream_rounds accountID deviceID sent seen).
Proof.
  induction seen as [|[[db now] n] seen IH]; intros sent Hw Hid Hbound Hsub Hmod Hlen.
  { pose proof (subseteq_size sent older Hsub). cbn in Hlen. lia. }
  apply Forall_cons in Hw as [Hw Hws]. pose proof (subseteq_size sent older Hsub) as Hss.
  assert (Hs500 : (size sent ≤ 500)%nat).
  { pose proof (Nat.div_mod_eq (size sent) 20). lia. }
  pose proof (round_progress id older (db, now, n) sent Hw ltac:(set_solver) Hs500) as Hround. cbn [fst snd] in Hround.
  cbn [stream_rounds]. destruct (stream_round db now accountID deviceID n sent) as [sent' written]. unfold ids. rewrite fmap_app, elem_of_app.
  destruct Hround as [?|[Hsize Hsub']]; [by left | right]. apply IH; try done.
  - by apply Hsub'.
  - rewrite Hsize. rewrite <-Nat.Div0.add_mod_idemp_r. by rewrite Nat.add_0_r.
  - cbn [length] in Hlen. lia.
Qed.

(** When nothing is acknowledged, the rounds go through the first 520 and start over. *)
Definition sent_first (m : nat) (l : list (queue * string * Delivery)) : gset string := list_to_set (ids (take m l)).

Lemma unsent_first m l : NoDup (ids l) → unsent (sent_first m l) l = drop m l.
Proof.
  intros Hnd. rewrite <-(take_drop m l) at 2. rewrite unsent_app.
  assert (unsent (sent_first m l) (take m l) = []) as ->.
  { unfold unsent. rewrite (List.filter_ext_in _ (λ _, false)); [apply List.filter_false|]. intros x Hx. apply negb_false_iff, bool_decide_true.
    apply elem_of_list_to_set, list_elem_of_fmap_2. by apply list_elem_of_In. }
  unfold unsent. rewrite (List.filter_ext_in _ (λ _, true)); [apply List.filter_true|]. intros x Hx. apply negb_true_iff, bool_decide_false.
  intros Hin%elem_of_list_to_set.
  rewrite <-(take_drop m l) in Hnd. unfold ids in *. rewrite fmap_app in Hnd. apply NoDup_app in Hnd as (_ & Hdis & _).
  apply (Hdis _ Hin). apply list_elem_of_fmap_2. by apply list_elem_of_In.
Qed.

Lemma size_sent_first m l : NoDup (ids l) → (m ≤ length l)%nat → size (sent_first m l) = m.
Proof.
  intros Hnd Hm. unfold sent_first. rewrite size_list_to_set.
  - unfold ids. rewrite length_fmap, length_take. lia.
  - unfold ids. rewrite fmap_take. eapply sublist_NoDup; [exact Hnd | apply sublist_take].
Qed.

Lemma sent_first_next m l : list_to_set (ids (take 20 (drop m l))) ∪ sent_first m l = sent_first (m + 20) l.
Proof.
  unfold sent_first, ids. rewrite <-(take_take_drop l m 20), fmap_app, list_to_set_app_L. set_solver.
Qed.

(** From the first [20 * j] sent, a round writes the twenty after them, or starts over. *)
Lemma starving_round st j : NoDup (ids (pending_at st)) → (520 ≤ length (pending_at st))%nat → (j ≤ 26)%nat →
  ∃ i, (i < 26)%nat ∧ stream_round st.1.1 st.1.2 accountID deviceID st.2 (sent_first (20 * j) (pending_at st))
    = (sent_first (20 * S i) (pending_at st), take 20 (drop (20 * i) (pending_at st))).
Proof.
  intros Hnd Hlen Hj. rewrite stream_round_spec by done. cbv zeta. rewrite size_sent_first by (done || lia).
  assert (E0 : ∅ = sent_first (20 * 0) (pending_at st)) by done.
  destruct (decide (j = 26)%nat) as [->|Hne].
  - exists 0%nat. split; [lia|]. change ((notificationStreamSentLimit <? 20 * 26)%nat) with true. cbv iota. rewrite E0, unsent_first by done. f_equal.
    rewrite sent_first_next. f_equal.
  - exists j. split; [lia|]. assert ((notificationStreamSentLimit <? 20 * j)%nat = false) as -> by (apply Nat.ltb_ge; unfold notificationStreamSentLimit; lia).
    rewrite unsent_first by done. f_equal. rewrite sent_first_next. f_equal. lia.
Qed.

Lemma starving_rounds st k : NoDup (ids (pending_at st)) → (520 ≤ length (pending_at st))%nat → ∀ j, (j ≤ 26)%nat →
  ∀ x, x ∈ stream_rounds accountID deviceID (sent_first (20 * j) (pending_at st)) (replicate k st) → x ∈ take 520 (pending_at st).
Proof.
  intros Hnd Hlen. induction k as [|k IH]; intros j Hj x; [by intros ?%not_elem_of_nil|]. destruct st as [[db now] n].
  cbn [replicate stream_rounds]. destruct (starving_round (db, now, n) j Hnd Hlen Hj) as (i & Hi & E). cbn [fst snd] in E. rewrite E.
  intros [Hx|Hx]%elem_of_app; [|by apply (IH (S i))].
  apply elem_of_take in Hx as (m & Hm & Hlt). rewrite lookup_drop in Hm. apply elem_of_take. exists (20 * i + m)%nat. split; [done | lia].
Qed.
End stream.

(** ** Security events per minute *)

Section limited.
Variables (maxPerMinute retention : Z) (node : string) (bucket : Z).

Definition in_bucket (call : Z * SecurityEventInput) : bool := (TrimSpace call.2.(sei_NodeID) =?s node) && (bucket_of call.1 =? bucket).

(** How many of the calls store an event of the node in the minute. *)
Fixpoint stored_in (calls : list (Z * SecurityEventInput)) (n : Notices) : Z :=
  match calls with
  | [] => 0
  | call :: calls' =>
    let '(n', r) := AppendSecurityEventLimited call.1 call.2 maxPerMinute retention n in
    (match r with inr _ => if in_bucket call then 1 else 0 | inl _ => 0 end) + stored_in calls' n'
  end.

Definition counted (n : Notices) : Z := default 0 (n.(nt_limits) !! (node, bucket)).

Lemma minute_value : minute_us = 60000000.
Proof. reflexivity. Qed.

Lemma bucket_bounds now : bucket_of now ≤ now < bucket_of now + minute_us.
Proof. unfold bucket_of. rewrite minute_value. pose proof (Z.div_mod now 60000000 ltac:(done)). pose proof (Z.mod_pos_bound now 60000000 ltac:(done)). lia. Qed.

Lemma bucket_mono a b : a ≤ b → bucket_of a ≤ bucket_of b.
Proof. unfold bucket_of. rewrite minute_value. intros H. pose proof (Z.div_le_mono a b 60000000 ltac:(done) H). lia. Qed.

(** Old rows are removed, but not those of a minute that is not over. *)
Lemma counted_purged now n : minute_us ≤ retention → bucket_of now ≤ bucket →
  counted (n <| nt_events ::= List.filter (λ e, negb (e.(sv_created_at) <? now - retention)) |>
             <| nt_limits ::= delete_where (λ k _, k.2 <? now - retention) |>) = counted n.
Proof.
  intros Hret Hb. pose proof (bucket_bounds now). unfold counted. cbn. unfold delete_where. rewrite map_lookup_imap. cbn.
  assert (bucket <? now - retention = false) as -> by (apply Z.ltb_ge; lia). by destruct (_ !! _).
Qed.

(** Counting an event, and nothing else. *)
Lemma count_event_counts now id n : 0 < maxPerMinute → counted n ≤ maxPerMinute →
  match count_event now id maxPerMinute n with
  | (n', inr _) => (if (id =?s node) && (bucket_of now =? bucket) then 1 else 0) + counted n = counted n' ∧ counted n' ≤ maxPerMinute
  | (n', inl _) => n' = n
  end.
Proof.
  intros Hmax Hc. unfold count_event, gets, mbind, M_bind, Datatypes.id. cbn beta iota.
  destruct (n.(nt_limits) !! (id, bucket_of now)) as [c|] eqn:E; cbn.
  - destruct (Z.ltb_spec c maxPerMinute); cbn; [|done]. unfold counted in *. cbn.
    destruct (id =?s node) eqn:Ei; cbn; [apply str_eqb_eq in Ei; subst id|].
    + destruct (Z.eqb_spec (bucket_of now) bucket) as [<-|Hne]; [rewrite lookup_insert_eq, E in *; cbn in *; lia|].
      rewrite lookup_insert_ne by congruence. lia.
    + apply str_eqb_neq in Ei. rewrite lookup_insert_ne by congruence. lia.
  - unfold counted in *. cbn. destruct (id =?s node) eqn:Ei; cbn; [apply str_eqb_eq in Ei; subst id|].
    + destruct (Z.eqb_spec (bucket_of now) bucket) as [<-|Hne]; [rewrite lookup_insert_eq, E in *; cbn in *; lia|].
      rewrite lookup_insert_ne by congruence. lia.
    + apply str_eqb_neq in Ei. rewrite lookup_insert_ne by congruence. lia.
Qed.

(** A call counts, and stays within the limit. *)
Lemma append_counts now event n : 0 < maxPerMinute → retention ≤ 0 ∨ minute_us ≤ retention → bucket_of now ≤ bucket → counted n ≤ maxPerMinute →
  let '(n', r) := AppendSecurityEventLimited now event maxPerMinute retention n in
  (match r with inr _ => if in_bucket (now, event) then 1 else 0 | inl _ => 0 end) + counted n = counted n' ∧ counted n' ≤ maxPerMinute.
Proof.
  intros Hmax Hret Hb Hc. unfold AppendSecurityEventLimited, atomically.
  set (n0 := if 0 <? retention then n <| nt_events ::= List.filter (λ e, negb (e.(sv_created_at) <? now - retention)) |>
                 <| nt_limits ::= delete_where (λ k _, k.2 <? now - retention) |> else n).
  assert (Hn0 : counted n0 = counted n).
  { unfold n0. destruct (Z.ltb_spec 0 retention); [|done]. apply counted_purged; [|done]. pose proof minute_value. lia. }
  match goal with |- context [((if 0 <? retention then modify ?f else mret tt) ≫= ?k) n] =>
    assert (Erun : ((if 0 <? retention then modify f else mret tt) ≫= k) n = k tt n0) by (unfold n0, mbind, M_bind; by destruct (0 <? retention)) end.
  rewrite Erun. clear Erun. cbn beta zeta. apply Z.ltb_lt in Hmax as Hmax'. rewrite Hmax'. unfold mbind at 1, M_bind at 1.
  pose proof (count_event_counts now (TrimSpace event.(sei_NodeID)) n0 Hmax ltac:(lia)) as Hcount.
  destruct (count_event now (TrimSpace event.(sei_NodeID)) maxPerMinute n0) as [n1 [e|[]]]; [lia|].
  cbn. unfold in_bucket. cbn. unfold counted in *. cbn. rewrite <-Hn0. exact Hcount.
Qed.

Lemma stored_later calls : ∀ t n, bucket < bucket_of t → Forall (λ call, t ≤ call.1) calls → stored_in calls n = 0.
Proof.
  induction calls as [|[now event] calls IH]; intros t n Ht Hcalls; cbn [stored_in]; [done|]. apply Forall_cons in Hcalls as [Hc Hcalls]. cbn in *.
  destruct (AppendSecurityEventLimited _ _ _ _ n) as [n' r]. rewrite (IH t n') by done. pose proof (bucket_mono t now Hc).
  assert (in_bucket (now, event) = false) as ->; [|by destruct r].
  unfold in_bucket. cbn. assert (bucket_of now =? bucket = false) as -> by (apply Z.eqb_neq; lia). apply andb_false_r.
Qed.

Lemma stored_bound calls : 0 < maxPerMinute → retention ≤ 0 ∨ minute_us ≤ retention → ∀ n, counted n ≤ maxPerMinute →
  StronglySorted (λ x y, x.1 ≤ y.1) calls → stored_in calls n + counted n ≤ maxPerMinute.
Proof.
  intros Hmax Hret. induction calls as [|[now event] calls IH]; intros n Hc Hsort; [cbn; lia|].
  apply StronglySorted_inv in Hsort as [Hsort Hlater].
  destruct (decide (bucket_of now ≤ bucket)) as [Hb|Hb].
  - pose proof (append_counts now event n Hmax Hret Hb Hc) as Hstep. cbn [stored_in fst snd].
    destruct (AppendSecurityEventLimited _ _ _ _ n) as [n' r]. destruct Hstep as [Hstep Hc']. specialize (IH n' Hc' Hsort). lia.
  - rewrite (stored_later _ now); [lia | lia |]. by apply Forall_cons.
Qed.
End limited.

(** ** What happens to a notice *)

(** [OpCascade] is any change of the other tables. *)
Inductive NoticeOp :=
| OpCascade (db : Db)
| OpUpsert (db : Db) (now : Z) (subscription : SubscriptionInput)
| OpDelete (accountID deviceID : string)
| OpTouch (db : Db) (now : Z) (accountID deviceID : string)
| OpEnqueueRuntime (db : Db) (now : Z) (delivery : DeliveryInput)
| OpEnqueueSecurity (db : Db) (now : Z) (delivery : DeliveryInput)
| OpEnqueueOperator (db : Db) (now : Z) (delivery : DeliveryInput)
| OpMark (db : Db) (now : Z) (accountID deviceID deliveryID : string)
| OpRegister (db : Db) (now : Z) (runtimeID hostID : string) (tokenSHA256 : list N) (versionCode : Z)
| OpAuthenticate (db : Db) (now : Z) (runtimeID : string) (tokenSHA256 : list N)
| OpEvent (now : Z) (event : SecurityEventInput) (maxPerMinute retention : Z).

Section lifecycle.
Variable uuid_parse : string → option string.

Definition run_notice (op : NoticeOp) (n : Notices) : Notices :=
  match op with
  | OpCascade db => cascade db n
  | OpUpsert db now subscription => (UpsertDeviceNotificationSubscription db now subscription n).1
  | OpDelete accountID deviceID => (DeleteDeviceNotificationSubscription accountID deviceID n).1
  | OpTouch db now accountID deviceID => (TouchDeviceNotificationSubscription db now accountID deviceID n).1
  | OpEnqueueRuntime db now delivery => (EnqueueRuntimeNotificationDelivery uuid_parse db now delivery n).1
  | OpEnqueueSecurity db now delivery => (EnqueueSecurityNoticeDelivery uuid_parse db now delivery n).1
  | OpEnqueueOperator db now delivery => (EnqueueOperatorNoticeDelivery uuid_parse db now delivery n).1
  | OpMark db now accountID deviceID deliveryID => (MarkNotificationDeliveryDelivered uuid_parse db now accountID deviceID deliveryID n).1
  | OpRegister db now runtimeID hostID token version => (RegisterRuntimeNotificationAgent db now runtimeID hostID token version n).1
  | OpAuthenticate db now runtimeID token => (AuthenticateRuntimeNotificationAgent db now runtimeID token n).1
  | OpEvent now event maxPerMinute retention => (AppendSecurityEventLimited now event maxPerMinute retention n).1
  end.

(** The queue an operation adds to, and when. *)
Definition enqueues (op : NoticeOp) : option (queue * Z) :=
  match op with
  | OpEnqueueRuntime _ now _ => Some (RuntimeQueue, now)
  | OpEnqueueSecurity _ now _ => Some (SecurityQueue, now)
  | OpEnqueueOperator _ now _ => Some (OperatorQueue, now)
  | _ => None
  end.

Definition outdated (now : Z) (d : Delivery) : Prop :=
  d.(dl_ExpiresAt) < now ∨ ∃ t, d.(dl_delivered_at) = Some t ∧ t < now - hour24.

(** The row an enqueueing operation adds, with its key. *)
Definition new_row (op : NoticeOp) : option (queue * string * Delivery) :=
  match op with
  | OpEnqueueRuntime _ now v =>
    Some ((RuntimeQueue, v.(di_ID)),
      MkDelivery v.(di_Source) v.(di_EventID) v.(di_DeviceID) v.(di_EnvelopeCiphertext) now v.(di_ExpiresAt) None)
  | OpEnqueueSecurity _ now v =>
    Some ((SecurityQueue, v.(di_ID)),
      MkDelivery (TrimSpace v.(di_Source)) v.(di_EventID) v.(di_DeviceID) v.(di_EnvelopeCiphertext) now v.(di_ExpiresAt) None)
  | OpEnqueueOperator _ now v =>
    Some ((OperatorQueue, v.(di_ID)), MkDelivery "" v.(di_EventID) v.(di_DeviceID) v.(di_EnvelopeCiphertext) now v.(di_ExpiresAt) None)
  | _ => None
  end.

(** A row that the notice refers to is gone: the device, the subscription or its
    account, the runtime or the node. *)
Definition orphaned (db : Db) (n : Notices) (k : queue * string) (d : Delivery) : Prop :=
  match n.(nt_subscriptions) !! d.(dl_DeviceID) with
  | None => True
  | Some s => db.(db_devices) !! d.(dl_DeviceID) = None ∨ db.(db_accounts) !! s.(sb_AccountID) = None
  end
  ∨ match k.1 with
    | RuntimeQueue => db.(db_runtimes) !! d.(dl_Source) = None
    | SecurityQueue => db.(db_hosts) !! d.(dl_Source) = None
    | OperatorQueue => False
    end.

(** The account unsubscribes the notice's device, which is its own. *)
Definition unsubscribes (accountID deviceID : string) (n : Notices) (d : Delivery) : Prop :=
  TrimSpace deviceID = d.(dl_DeviceID) ∧ ∃ s, own_subscription (TrimSpace accountID) (TrimSpace deviceID) n = Some s.

(** What may become of the notice [d] with key [k] in the tables [n]. *)
Definition fate (op : NoticeOp) (n : Notices) (k : queue * string) (d : Delivery) (after : option Delivery) : Prop :=
  after = Some d
  (* acknowledged by its device *)
  ∨ (∃ db now accountID deviceID deliveryID, op = OpMark db now accountID deviceID deliveryID
      ∧ TrimSpace deliveryID = k.2 ∧ TrimSpace deviceID = d.(dl_DeviceID)
      ∧ (∃ s, own_subscription (TrimSpace accountID) (TrimSpace deviceID) n = Some s)
      ∧ may_receive db (TrimSpace accountID) (TrimSpace deviceID) = true
      ∧ after = Some (d <| dl_delivered_at := Some (coalesce d.(dl_delivered_at) now) |>))
  (* outdated when another was queued, which may have taken its id *)
  ∨ (∃ now, enqueues op = Some (k.1, now) ∧ outdated now d
      ∧ (after = None ∨ ∃ d', new_row op = Some (k, d') ∧ after = Some d'))
  (* no longer wanted *)
  ∨ (∃ accountID deviceID, op = OpDelete accountID deviceID ∧ unsubscribes accountID deviceID n d ∧ after = None)
  (* its device, subscription, account, runtime or node is gone *)
  ∨ (∃ db, op = OpCascade db ∧ orphaned db n k d ∧ after = None).

Abbreviation untouched := (same nt_deliveries).

Lemma untouched_ops op n : match op with OpUpsert _ _ _ | OpTouch _ _ _ _ | OpRegister _ _ _ _ _ _ | OpAuthenticate _ _ _ _ | OpEvent _ _ _ _ => True | _ => False end →
  (run_notice op n).(nt_deliveries) = n.(nt_deliveries).
Proof.
  intros Hop. symmetry. change (untouched n (run_notice op n)). revert n.
  assert (Hst : ∀ A (m : Nx A), stable untouched m → ∀ n, untouched n (m n).1) by (intros A m Hm n; apply Hm).
  destruct op; try done; cbn [run_notice]; apply Hst.
  - unfold UpsertDeviceNotificationSubscription. destruct subscription. stable_steps; done.
  - unfold TouchDeviceNotificationSubscription. stable_steps; done.
  - unfold RegisterRuntimeNotificationAgent. stable_steps; done.
  - unfold AuthenticateRuntimeNotificationAgent. stable_steps; done.
  - unfold AppendSecurityEventLimited, count_event. stable_steps; done.
Qed.

(** Rows stay but for those outdated. *)
Definition kept_in (q : queue) (now : Z) : relation Notices := λ n n',
  ∀ k d, n.(nt_deliveries) !! k = Some d → n'.(nt_deliveries) !! k = Some d ∨ k.1 = q ∧ outdated now d.
#[local] Instance kept_in_preorder q now : PreOrder (kept_in q now).
Proof.
  split; [by intros n k d Hd; left|]. intros n1 n2 n3 H1 H2 k d Hd. destruct (H1 k d Hd) as [Hd2|?]; [by apply H2 | by right].
Qed.

Lemma delete_where_kept {K V} `{Countable K} (p : K → V → bool) (t : gmap K V) k r : t !! k = Some r → p k r = false → delete_where p t !! k = Some r.
Proof. intros Hk Hp. by apply lookup_delete_where. Qed.

Lemma delete_where_or {K V} `{Countable K} (p : K → V → bool) (t : gmap K V) k r : t !! k = Some r → delete_where p t !! k = Some r ∨ delete_where p t !! k = None.
Proof. intros Hk. unfold delete_where. rewrite map_lookup_imap, Hk. cbn. destruct (p k r); auto. Qed.

Lemma purge_kept q now : stable (kept_in q now) (purge q now).
Proof.
  apply stable_modify. intros n k d Hd. cbn.
  destruct (bool_decide (k.1 = q) && ((d.(dl_ExpiresAt) <? now) || match d.(dl_delivered_at) with Some t => t <? now - hour24 | None => false end)) eqn:E.
  - right. apply andb_true_iff in E as [E1%bool_decide_eq_true E2]. split; [done|]. apply orb_true_iff in E2 as [E2%Z.ltb_lt|E2]; [by left | right].
    destruct d.(dl_delivered_at) as [t|]; [|done]. exists t. split; [done|]. by apply Z.ltb_lt.
  - left. by apply delete_where_kept.
Qed.

Lemma insert_kept q db now id source event device envelope expiresAt now' : stable (kept_in q now') (insert_delivery q db now id source event device envelope expiresAt).
Proof.
  apply stable_of_wp. intros n. unfold insert_delivery. wp_steps; try reflexivity.
  intros k d Hd. left. cbn. destruct (decide (k = (q, id))) as [->|Hne]; [|by rewrite lookup_insert_ne].
  rewrite Hd in *. done.
Qed.

Lemma enqueue_kept op q now n : enqueues op = Some (q, now) → kept_in q now n (run_notice op n).
Proof.
  assert (Hst : ∀ A (m : Nx A), stable (kept_in q now) m → kept_in q now n (m n).1) by (intros A m Hm; apply Hm).
  pose proof (purge_kept q now). pose proof (insert_kept q).
  destruct op; try done; intros [= <- <-]; cbn [run_notice]; apply Hst;
    unfold EnqueueRuntimeNotificationDelivery, EnqueueSecurityNoticeDelivery, EnqueueOperatorNoticeDelivery, check_delivery; stable_steps; auto.
Qed.

(** New rows are as [P] says. *)
Definition adds (P : queue * string → Delivery → Prop) : relation Notices := λ n n',
  ∀ k d, n'.(nt_deliveries) !! k = Some d → n.(nt_deliveries) !! k = Some d ∨ P k d.
#[local] Instance adds_preorder P : PreOrder (adds P).
Proof.
  split; [by intros n k d Hd; left|]. intros n1 n2 n3 H1 H2 k d Hd. destruct (H2 k d Hd) as [Hd2|?]; [by apply H1 | by right].
Qed.

Lemma purge_adds P q now : stable (adds P) (purge q now).
Proof. apply stable_modify. intros n k d Hd. left. cbn in Hd. by apply lookup_delete_where in Hd as [? _]. Qed.
Lemma insert_adds P q db now id source event device envelope expiresAt :
  P (q, id) (MkDelivery source event device envelope now expiresAt None) →
  stable (adds P) (insert_delivery q db now id source event device envelope expiresAt).
Proof.
  intros HP. apply stable_of_wp. intros n. unfold insert_delivery. wp_steps; try reflexivity.
  intros k d Hd. cbn in Hd. apply lookup_insert_Some in Hd as [[<- <-]|[_ ?]]; [by right | by left].
Qed.

Lemma enqueue_adds_row op n key row : new_row op = Some (key, row) → adds (λ k d, (k, d) = (key, row)) n (run_notice op n).
Proof.
  set (P := λ k d, (k, d) = (key, row)).
  assert (Hst : ∀ A (m : Nx A), stable (adds P) m → adds P n (m n).1) by (intros A m Hm; apply Hm).
  destruct op; try done; intros [= <- <-]; cbn [run_notice]; apply Hst;
    unfold EnqueueRuntimeNotificationDelivery, EnqueueSecurityNoticeDelivery, EnqueueOperatorNoticeDelivery, check_delivery; stable_steps;
    first [apply purge_adds | by apply insert_adds].
Qed.

Definition marked (now : Z) (d : Delivery) : Delivery := d <| dl_delivered_at := Some (coalesce d.(dl_delivered_at) now) |>.

(** The row of the device was acknowledged. *)
Definition acknowledged (db : Db) (now : Z) (accountID deviceID deliveryID : string) (q : queue) (n n' : Notices) : Prop :=
  ∃ d, n.(nt_deliveries) !! (q, deliveryID) = Some d ∧ d.(dl_DeviceID) = deviceID
    ∧ (∃ s, own_subscription accountID deviceID n = Some s) ∧ may_receive db accountID deviceID = true
    ∧ n'.(nt_deliveries) = <[(q, deliveryID) := marked now d]> n.(nt_deliveries).

Lemma mark_in_run q db now accountID deviceID deliveryID n :
  let '(n', r) := mark_in q db now accountID deviceID deliveryID n in
  (r = inr true ∧ acknowledged db now accountID deviceID deliveryID q n n') ∨ (r = inr false ∧ n' = n).
Proof.
  unfold mark_in, gets, mbind, M_bind, Datatypes.id. cbn beta iota.
  destruct (n.(nt_deliveries) !! (q, deliveryID)) as [d|] eqn:Ed; [|by right].
  destruct (_ && _) eqn:E; [|by right]. left. split; [done|]. apply andb_true_iff in E as [[E1%str_eqb_eq E2]%andb_true_iff E3].
  exists d. split_and!; [done | done | by destruct (own_subscription _ _ _); [eexists|] | done |]. cbn. apply map_eq. intros k. rewrite lookup_alter, lookup_insert. case_decide; [|done].
  subst k. by rewrite Ed.
Qed.

Lemma Mark_run db now accountID deviceID deliveryID n :
  let '(n', r) := MarkNotificationDeliveryDelivered uuid_parse db now accountID deviceID deliveryID n in
  (r = inr tt ∧ ∃ q, acknowledged db now (TrimSpace accountID) (TrimSpace deviceID) (TrimSpace deliveryID) q n n') ∨ ((∃ e, r = inl e) ∧ n' = n).
Proof.
  unfold MarkNotificationDeliveryDelivered. unfold mbind at 1, M_bind at 1, refuse_if. destruct (negb _); [right; cbn; eauto|].
  cbn. unfold atomically, mbind, M_bind.
  pose proof (mark_in_run RuntimeQueue db now (TrimSpace accountID) (TrimSpace deviceID) (TrimSpace deliveryID) n) as H1.
  destruct (mark_in RuntimeQueue _ _ _ _ _ n) as [n1 r1]. destruct H1 as [[-> ?]|[-> ->]]; [left; eauto|].
  pose proof (mark_in_run SecurityQueue db now (TrimSpace accountID) (TrimSpace deviceID) (TrimSpace deliveryID) n) as H2.
  destruct (mark_in SecurityQueue _ _ _ _ _ n) as [n2 r2]. destruct H2 as [[-> ?]|[-> ->]]; [left; eauto|].
  pose proof (mark_in_run OperatorQueue db now (TrimSpace accountID) (TrimSpace deviceID) (TrimSpace deliveryID) n) as H3.
  destruct (mark_in OperatorQueue _ _ _ _ _ n) as [n3 r3]. destruct H3 as [[-> ?]|[-> ->]]; [left; eauto | right; eauto].
Qed.

(** Unsubscribing removes exactly the device's notices. *)
Lemma Delete_run accountID deviceID n k d : n.(nt_deliveries) !! k = Some d →
  let after := (DeleteDeviceNotificationSubscription accountID deviceID n).1.(nt_deliveries) !! k in
  after = Some d ∧ ¬ unsubscribes accountID deviceID n d ∨ after = None ∧ unsubscribes accountID deviceID n d.
Proof.
  intros Hd. unfold unsubscribes, DeleteDeviceNotificationSubscription, gets, mbind, M_bind, refuse_if, Datatypes.id. cbn beta iota zeta.
  destruct (own_subscription _ _ n) as [s|]; cbn; [|left; split; [done|]; by intros [_ [? ?]]].
  unfold delete_where. rewrite map_lookup_imap, Hd. cbn.
  destruct (d.(dl_DeviceID) =?s TrimSpace deviceID) eqn:E; [right; apply str_eqb_eq in E; eauto | left].
  split; [done|]. intros [E' _]. by rewrite <-E', str_eqb_refl in E.
Qed.

Lemma delete_where_at {K V} `{Countable K} (p : K → V → bool) (t : gmap K V) k r :
  t !! k = Some r → delete_where p t !! k = if p k r then None else Some r.
Proof. intros Hk. unfold delete_where. by rewrite map_lookup_imap, Hk. Qed.

Lemma null_iff {A} (o : option A) : is_null o = true ↔ o = None.
Proof. by destruct o. Qed.

(** A change of the other tables removes exactly the notices it leaves without a row
    they refer to. *)
Lemma cascade_run db n k d : n.(nt_deliveries) !! k = Some d →
  let after := (cascade db n).(nt_deliveries) !! k in after = Some d ∧ ¬ orphaned db n k d ∨ after = None ∧ orphaned db n k d.
Proof.
  intros Hd. unfold cascade. cbn -[delete_where lookup]. rewrite (delete_where_at _ _ _ _ Hd).
  match goal with |- context [if ?b then None else Some d] => enough (Hb : b = true ↔ orphaned db n k d) end.
  { match goal with |- context [if ?b then None else Some d] => destruct b end; [right | left]; (split; [done|]); [by apply Hb | intros Ho; by apply Hb in Ho]. }
  rewrite orb_true_iff. unfold orphaned. f_equiv.
  - rewrite null_iff. unfold delete_where. rewrite map_lookup_imap. destruct (n.(nt_subscriptions) !! _) as [s|]; [|done]. cbn.
    destruct (is_null (db_devices db !! _)) eqn:E1, (is_null (db_accounts db !! _)) eqn:E2; cbn; rewrite <-!null_iff, ?E1, ?E2; naive_solver.
  - destruct k.1; [apply null_iff | apply null_iff | done].
Qed.

Lemma notice_fate op n k d : n.(nt_deliveries) !! k = Some d → fate op n k d ((run_notice op n).(nt_deliveries) !! k).
Proof.
  intros Hd. unfold fate. destruct (enqueues op) as [[q now]|] eqn:Eq.
  { destruct (enqueue_kept op q now n Eq k d Hd) as [?|[<- Ho]]; [by left|].
    assert (∃ row, new_row op = Some row) as [[key row] Hrow] by (destruct op; try done; eauto).
    destruct ((run_notice op n).(nt_deliveries) !! k) as [d'|] eqn:Ea; [|right; right; left; exists now; auto].
    destruct (enqueue_adds_row op n key row Hrow k d' Ea) as [Hd'|[= -> ->]]; [left; congruence|]. right; right; left. exists now. eauto 8. }
  destruct op; try done; try (by left; rewrite untouched_ops).
  - destruct (cascade_run db n k d Hd) as [[? _]|[? ?]]; [by left | right; right; right; right; eauto].
  - destruct (Delete_run accountID deviceID n k d Hd) as [[? _]|[? ?]]; [by left | right; right; right; left; eauto 6].
  - cbn [run_notice]. pose proof (Mark_run db now accountID deviceID deliveryID n) as Hm.
    destruct (MarkNotificationDeliveryDelivered _ _ _ _ _ _ n) as [n' r]. cbn [fst].
    destruct Hm as [(_ & q & d' & Hd' & Hdev & Hsub & Hmay & Hn')|(_ & ->)]; [|by left]. rewrite Hn'.
    destruct (decide (k = (q, TrimSpace deliveryID))) as [->|Hne]; [|left; by rewrite lookup_insert_ne].
    rewrite Hd in Hd'. injection Hd' as <-. rewrite lookup_insert_eq. right. left. exists db, now, accountID, deviceID, deliveryID. by split_and!.
Qed.

(** *** Where a row comes from *)

Definition enqueued_key (op : NoticeOp) : option (queue * string) := fst <$> new_row op.

Lemma enqueue_only_new op key n : enqueued_key op = Some key → adds (λ k _, k = key) n (run_notice op n).
Proof.
  unfold enqueued_key. destruct (new_row op) as [[k0 d0]|] eqn:E; [|done]. intros [= <-] k d Hd.
  destruct (enqueue_adds_row op n k0 d0 E k d Hd) as [?|[= -> ->]]; auto.
Qed.

Lemma row_origin op n k d' : (run_notice op n).(nt_deliveries) !! k = Some d' →
  enqueued_key op = Some k ∨ ∃ d, n.(nt_deliveries) !! k = Some d ∧ (d' = d ∨ ∃ now, d' = marked now d).
Proof.
  intros Hd'. destruct (enqueued_key op) as [key|] eqn:Ek.
  { destruct (enqueue_only_new op key n Ek k d' Hd') as [?|E]; [right; eauto | left; by rewrite E]. }
  right. destruct op; try done; try (rewrite untouched_ops in Hd' by done; by eauto).
  - cbn in Hd'. apply lookup_delete_where in Hd' as [? _]. eauto.
  - cbn [run_notice] in Hd'. unfold DeleteDeviceNotificationSubscription, gets, mbind, M_bind, refuse_if, Datatypes.id in Hd'. cbn beta iota zeta in Hd'.
    destruct (is_null _); cbn in Hd'; [by eauto|]. apply lookup_delete_where in Hd' as [? _]. eauto.
  - cbn [run_notice] in Hd'. pose proof (Mark_run db now accountID deviceID deliveryID n) as Hm.
    destruct (MarkNotificationDeliveryDelivered _ _ _ _ _ _ n) as [n' r]. cbn [fst] in Hd'.
    destruct Hm as [(_ & q & d & Hd & _ & _ & _ & Hn')|(_ & ->)]; [|by eauto]. rewrite Hn' in Hd'.
    apply lookup_insert_Some in Hd' as [[<- <-]|[_ ?]]; eauto.
Qed.

(** Acknowledged once, for good. *)
Definition settled (k : queue * string) (n : Notices) : Prop := ∀ d, n.(nt_deliveries) !! k = Some d → d.(dl_delivered_at) ≠ None.

Lemma settled_step op k n : enqueued_key op ≠ Some k → settled k n → settled k (run_notice op n).
Proof.
  intros Hop Hs d' Hd'. destruct (row_origin op n k d' Hd') as [?|(d & Hd & [->|(now & ->)])]; [done | by apply Hs | done].
Qed.

Definition run_notices (ops : list NoticeOp) (n : Notices) : Notices := foldl (λ n op, run_notice op n) n ops.

Lemma settled_run ops k : Forall (λ op, enqueued_key op ≠ Some k) ops → ∀ n, settled k n → settled k (run_notices ops n).
Proof. induction 1 as [|op ops Hop _ IH]; intros n Hs; [done|]. cbn. by apply IH, settled_step. Qed.

Lemma listed_spec db now accountID deviceID limit exclude n x : x ∈ ListPendingNotificationDeliveries db now accountID deviceID limit exclude n →
  n.(nt_deliveries) !! x.1 = Some x.2 ∧ is_pending now x.2 = true ∧ x.2.(dl_DeviceID) = TrimSpace deviceID
    ∧ not_null (own_subscription (TrimSpace accountID) (TrimSpace deviceID) n) = true
    ∧ may_receive db (TrimSpace accountID) (TrimSpace deviceID) = true ∧ delivery_id x ∉ exclude.
Proof.
  unfold ListPendingNotificationDeliveries. intros (i & Hx & _)%elem_of_take. apply list_elem_of_lookup_2, list_elem_of_In, filter_In in Hx as [Hx He].
  apply list_elem_of_In in Hx. apply negb_true_iff, bool_decide_eq_false in He. unfold pending_for in Hx.
  destruct (not_null _ && may_receive _ _ _) eqn:E; [|by apply not_elem_of_nil in Hx]. apply andb_true_iff in E as [E1 E2].
  rewrite elem_of_order_by in Hx. destruct x as [k d]. apply elem_of_select in Hx as [Hk [Hp Hdev%str_eqb_eq]%andb_true_iff]. done.
Qed.

(** ** A runtime's notifications *)

Section receive.
Variables (db : Db) (now : Z) (source event : string) (envelope : string → option string).

(** A row of the event for the device that stays when others are queued at [now]. *)
Definition has_row (device : string) (n : Notices) : Prop :=
  ∃ k d, n.(nt_deliveries) !! k = Some d ∧ same_event RuntimeQueue source event device k d = true ∧ ¬ outdated now d.

Lemma kept_has_row device n n' : kept_in RuntimeQueue now n n' → has_row device n → has_row device n'.
Proof. intros Hk (k & d & Hd & He & Ho). destruct (Hk k d Hd) as [?|[_ ?]]; [by exists k, d | done]. Qed.

(** After the purge no row of the queue is outdated. *)
Lemma purged q n k d : (purge q now n).1.(nt_deliveries) !! k = Some d → k.1 = q → ¬ outdated now d.
Proof.
  intros Hd Hq. cbn in Hd. apply lookup_delete_where in Hd as [_ Hp]. rewrite bool_decide_true in Hp by done. cbn in Hp.
  apply orb_false_iff in Hp as [H1%Z.ltb_ge H2]. intros [?|(t & Et & ?)]; [lia|]. rewrite Et in H2. apply Z.ltb_ge in H2. lia.
Qed.

Lemma enqueue_has_row id device sealed n : now < now + notificationDeliveryTTL →
  let '(n', r) := EnqueueRuntimeNotificationDelivery uuid_parse db now (MkDeliveryInput id source event device sealed (now + notificationDeliveryTTL)) n in
  match r with inr _ => has_row device n' | inl _ => True end.
Proof.
  intros Httl. unfold EnqueueRuntimeNotificationDelivery, mbind at 1, M_bind at 1.
  destruct (check_delivery _ _ _ _ n) as [n0 [e|[]]]; [done|]. unfold atomically, mbind at 1, M_bind at 1.
  pose proof (purged RuntimeQueue n0) as Hpurged. destruct (purge RuntimeQueue now n0) as [n1 [e|[]]] eqn:Ep; [done|]. cbn [fst] in Hpurged.
  unfold insert_delivery, gets, mbind, M_bind, Datatypes.id, refuse_if. cbn [di_ID di_Source di_EventID di_DeviceID di_EnvelopeCiphertext di_ExpiresAt].
  destruct (exists_where _ _) eqn:Ee.
  - cbn. unfold exists_where in Ee. destruct (select _ _) as [|[k d] l] eqn:Es; [done|].
    assert (Hin : (k, d) ∈ select (same_event RuntimeQueue source event device) n1.(nt_deliveries)) by (rewrite Es; by left).
    apply elem_of_select in Hin as [Hk Hs]. exists k, d. split_and!; [done | done |]. apply (Hpurged k d Hk).
    unfold same_event in Hs. apply andb_true_iff in Hs as [[[?%bool_decide_eq_true _]%andb_true_iff _]%andb_true_iff _]. done.
  - destruct (not_null _); [done|]. cbn. destruct (_ || _); [done|]. cbn. exists (RuntimeQueue, id). eexists. split_and!.
    + apply lookup_insert_eq.
    + unfold same_event. cbn. rewrite bool_decide_true by done. by rewrite !str_eqb_refl.
    + intros [?|(t & ? & _)]; [cbn in *; lia | done].
Qed.

(** What may be queued: for a device subscribed under the account, sealed for its key. *)
Definition queued_for (account : string) (subs : gmap string DeviceNotificationSubscription) (k : queue * string) (d : Delivery) : Prop :=
  k.1 = RuntimeQueue ∧ d.(dl_Source) = source ∧ d.(dl_EventID) = event ∧ ∃ s, subs !! d.(dl_DeviceID) = Some s ∧ s.(sb_AccountID) = account
    ∧ may_receive db account d.(dl_DeviceID) = true ∧ envelope s.(sb_EncryptionPublicKey) = Some d.(dl_EnvelopeCiphertext).

Lemma enqueue_adds P id device sealed expiresAt : P (RuntimeQueue, id) (MkDelivery source event device sealed now expiresAt None) →
  stable (adds P) (EnqueueRuntimeNotificationDelivery uuid_parse db now (MkDeliveryInput id source event device sealed expiresAt)).
Proof.
  intros HP. pose proof (purge_adds P RuntimeQueue now). unfold EnqueueRuntimeNotificationDelivery, check_delivery. stable_steps. by apply insert_adds.
Qed.

Lemma enqueue_keeps id device sealed expiresAt n :
  kept_in RuntimeQueue now n (EnqueueRuntimeNotificationDelivery uuid_parse db now (MkDeliveryInput id source event device sealed expiresAt) n).1.
Proof. by apply (enqueue_kept (OpEnqueueRuntime db now (MkDeliveryInput id source event device sealed expiresAt))). Qed.

Lemma queue_for_wp account subs fresh (devices : list (string * DeviceNotificationSubscription)) a :
  (∀ device s, (device, s) ∈ devices → subs !! device = Some s ∧ s.(sb_AccountID) = account ∧ may_receive db account device = true) →
  wp (queue_for (EnqueueRuntimeNotificationDelivery uuid_parse db now) source event (now + notificationDeliveryTTL) envelope fresh devices)
    (λ _ a', adds (queued_for account subs) a.(ap_notices) a'.(ap_notices) ∧ ∀ device s, (device, s) ∈ devices → has_row device a'.(ap_notices))
    (λ _ a', adds (queued_for account subs) a.(ap_notices) a'.(ap_notices)) a.
Proof.
  intros Hdev. unfold queue_for.
  assert (Hzip : ∀ i device s, (i, (device, s)) ∈ zip (seq 0 (length devices)) devices → (device, s) ∈ devices) by (intros i device s; apply elem_of_zip_r).
  assert (Hall : ∀ device s, (device, s) ∈ devices → ∃ i, (i, (device, s)) ∈ zip (seq 0 (length devices)) devices).
  { intros device s [i Hi]%list_elem_of_lookup. exists i. apply list_elem_of_lookup. exists i. apply lookup_zip_with_Some. exists i, (device, s).
    split_and!; [done | | done]. apply lookup_seq. split; [done|]. by apply lookup_lt_Some in Hi. }
  eapply wp_mono; [apply wp_fold with (Inv := λ (_ : nat) rest a', adds (queued_for account subs) a.(ap_notices) a'.(ap_notices)
      ∧ (∀ x, x ∈ rest → x ∈ zip (seq 0 (length devices)) devices)
      ∧ ∀ i device s, (i, (device, s)) ∈ zip (seq 0 (length devices)) devices → (i, (device, s)) ∈ rest ∨ has_row device a'.(ap_notices))
    (X := λ _ a', adds (queued_for account subs) a.(ap_notices) a'.(ap_notices)) | |done].
  - split_and!; [reflexivity | done | by left].
  - intros queued [i [device s]] rest a' (Hadds & Hrest & Hrows). destruct (Hdev device s (Hzip i device s (Hrest _ ltac:(by left)))) as (Hs & Hacc & Hmay).
    rewrite wp_bind. unfold require. destruct (envelope s.(sb_EncryptionPublicKey)) as [sealed|] eqn:Es; [|by rewrite wp_throw]. rewrite wp_ret, wp_bind.
    unfold wp at 1, notice_call.
    pose proof (enqueue_adds (queued_for account subs) (fresh i) device sealed (now + notificationDeliveryTTL)) as Hnew.
    pose proof (enqueue_keeps (fresh i) device sealed (now + notificationDeliveryTTL) a'.(ap_notices)) as Hkept.
    pose proof (enqueue_has_row (fresh i) device sealed a'.(ap_notices)) as Hhas.
    specialize (Hnew ltac:(split_and!; try done; by exists s) a'.(ap_notices)).
    destruct (EnqueueRuntimeNotificationDelivery _ _ _ _ _) as [n' [e|b]]; cbn [fst] in Hnew, Hkept.
    + cbn. by etrans.
    + rewrite wp_bind. unfold notify. rewrite wp_modify, wp_ret. cbn [ap_notices]. split_and!; [by etrans | intros x Hx; apply Hrest; by right |].
      intros j dev t Hj. destruct (Hrows j dev t Hj) as [[[= <- <- <-]|Hin]%elem_of_cons|Hrow]; [right | by left | right].
      * apply Hhas. assert (0 < notificationDeliveryTTL) by done. lia.
      * by eapply kept_has_row.
  - intros queued a' (Hadds & _ & Hrows). split; [done|]. intros device s Hin. destruct (Hall device s Hin) as [i Hi].
    destruct (Hrows i device s Hi) as [Hn%not_elem_of_nil|?]; done.
Qed.
End receive.

Definition bearer_token (authorization : string) : option (list N) :=
  if HasPrefix (TrimSpace authorization) "Bearer "
  then raw_url_decode (TrimSpace (of_bytes (drop 7 (bytes_of (TrimSpace authorization))))) else None.

(** The agent and the runtime a request was accepted for. *)
Definition agent_of (db : Db) (authorization runtimeID : string) (n : Notices) (r : Runtime) : Prop :=
  ∃ token agent, bearer_token authorization = Some token ∧ n.(nt_agents) !! runtimeID = Some agent ∧ agent.(na_token_sha256) = Sum256 token
    ∧ db.(db_runtimes) !! runtimeID = Some r ∧ r.(rt_account_id) = agent.(na_account_id) ∧ rt_live r = true ∧ r.(rt_desired_state) = "running"%string.

Lemma Authenticate_run db now runtimeID digest n :
  let '(n', res) := AuthenticateRuntimeNotificationAgent db now runtimeID digest n in
  n'.(nt_deliveries) = n.(nt_deliveries) ∧ n'.(nt_subscriptions) = n.(nt_subscriptions)
  ∧ match res with
    | inl _ => True
    | inr target => ∃ agent r, n.(nt_agents) !! runtimeID = Some agent ∧ agent.(na_token_sha256) = digest
        ∧ db.(db_runtimes) !! runtimeID = Some r ∧ r.(rt_account_id) = agent.(na_account_id) ∧ rt_live r = true ∧ r.(rt_desired_state) = "running"%string
        ∧ target = MkTarget agent.(na_account_id) runtimeID r.(rt_name) (confidential db r)
    end.
Proof.
  enough (Hwp : wp (AuthenticateRuntimeNotificationAgent db now runtimeID digest)
    (λ target n', n'.(nt_deliveries) = n.(nt_deliveries) ∧ n'.(nt_subscriptions) = n.(nt_subscriptions) ∧
       ∃ agent r, n.(nt_agents) !! runtimeID = Some agent ∧ agent.(na_token_sha256) = digest
        ∧ db.(db_runtimes) !! runtimeID = Some r ∧ r.(rt_account_id) = agent.(na_account_id) ∧ rt_live r = true ∧ r.(rt_desired_state) = "running"%string
        ∧ target = MkTarget agent.(na_account_id) runtimeID r.(rt_name) (confidential db r)) (λ _ n', n' = n) n).
  { unfold wp in Hwp. destruct (AuthenticateRuntimeNotificationAgent _ _ _ _ n) as [n' [e|target]]; [by subst | done]. }
  unfold AuthenticateRuntimeNotificationAgent. wp_steps; try done. cbn. split_and!; [done | done |]. exists a, a0.
  repeat match goal with H : negb _ = false |- _ => apply negb_false_iff in H | H : _ && _ = true |- _ => apply andb_true_iff in H as [? H]
    | H : (_ =?s _) = true |- _ => apply str_eqb_eq in H | H : bool_decide _ = true |- _ => apply bool_decide_eq_true in H end.
  by split_and!.
Qed.

Lemma listed_subscriptions db account n device s : (device, s) ∈ ListDeviceNotificationSubscriptions db account n →
  n.(nt_subscriptions) !! device = Some s ∧ s.(sb_AccountID) = TrimSpace account ∧ may_receive db (TrimSpace account) device = true.
Proof. intros [Hs [Ha%str_eqb_eq Hm]%andb_true_iff]%elem_of_select. rewrite Ha in Hm. done. Qed.

(** What a request may add, and what an accepted one has done. *)
Definition notification_reason (db : Db) (now : Z) (authorization runtimeID : string)
    (decoded : option runtimeNotificationEvent) (envelope : string → option string) (n : Notices) (k : queue * string) (d : Delivery) : Prop :=
  ∃ event r, decoded = Some event ∧ validRuntimeNotification uuid_parse now event = true ∧ agent_of db authorization runtimeID n r
    ∧ (confidential db r = true → event.(ne_Sealed) ≠ ""%string)
    ∧ queued_for db runtimeID event.(ne_EventID) envelope (TrimSpace r.(rt_account_id)) n.(nt_subscriptions) k d.

Definition all_notified (db : Db) (now : Z) (runtimeID : string) (decoded : option runtimeNotificationEvent) (n n' : Notices) : Prop :=
  ∃ event r, decoded = Some event ∧ db.(db_runtimes) !! runtimeID = Some r
    ∧ ∀ device s, (device, s) ∈ ListDeviceNotificationSubscriptions db r.(rt_account_id) n → has_row now runtimeID event.(ne_EventID) device n'.

Lemma receive_wp db now authorization runtimeID decoded envelope fresh a :
  wp (receiveRuntimeNotification uuid_parse db now authorization runtimeID decoded envelope fresh)
    (λ _ a', adds (notification_reason db now authorization runtimeID decoded envelope a.(ap_notices)) a.(ap_notices) a'.(ap_notices)
       ∧ all_notified db now runtimeID decoded a.(ap_notices) a'.(ap_notices))
    (λ _ a', adds (notification_reason db now authorization runtimeID decoded envelope a.(ap_notices)) a.(ap_notices) a'.(ap_notices)) a.
Proof.
  unfold receiveRuntimeNotification. cbv zeta. set (P := notification_reason _ _ _ _ _ _ _).
  assert (Hsame : ∀ n', n'.(nt_deliveries) = a.(ap_notices).(nt_deliveries) → adds P a.(ap_notices) n').
  { intros n' E k d Hd. left. by rewrite <-E. }
  rewrite wp_bind. unfold refuse_if at 1. destruct (HasPrefix _ _) eqn:Eprefix; cbn [negb]; [rewrite wp_ret | rewrite wp_throw; by apply Hsame].
  rewrite wp_bind. unfold require at 1. destruct (raw_url_decode _) as [token|] eqn:Etoken; [rewrite wp_ret | rewrite wp_throw; by apply Hsame].
  rewrite wp_bind. unfold refuse_if at 1. destruct (negb _); [rewrite wp_throw; by apply Hsame | rewrite wp_ret].
  rewrite wp_bind. unfold wp at 1, notice_call at 1.
  pose proof (Authenticate_run db now runtimeID (Sum256 token) a.(ap_notices)) as Hauth.
  destruct (AuthenticateRuntimeNotificationAgent _ _ _ _ _) as [n1 [e|target]]; [by apply Hsame, Hauth|].
  destruct Hauth as (Hd1 & Hs1 & agent & r & Hagent & Htok & Hr & Hacc & Hlive & Hrun & ->).
  rewrite wp_bind, wp_gets. unfold Datatypes.id. destruct (allow _ _ _) as [limiter [ok wait]]. rewrite wp_bind, wp_modify.
  rewrite wp_bind. unfold refuse_if at 1. destruct ok; cbn [negb]; [rewrite wp_ret | rewrite wp_throw; by apply Hsame].
  rewrite wp_bind. unfold require at 1. destruct decoded as [event|]; [rewrite wp_ret | rewrite wp_throw; by apply Hsame].
  rewrite wp_bind. unfold refuse_if at 1. destruct (validRuntimeNotification _ _ _) eqn:Evalid; cbn [negb]; [rewrite wp_ret | rewrite wp_throw; by apply Hsame].
  rewrite wp_bind. unfold refuse_if at 1. cbn [tg_Confidential tg_AccountID tg_RuntimeID]. destruct (_ && _) eqn:Esealed; [rewrite wp_throw; by apply Hsame | rewrite wp_ret].
  rewrite wp_bind, wp_gets, wp_bind. cbn [ap_notices]. rewrite <-Hacc.
  assert (HP : ∀ k d, queued_for db runtimeID event.(ne_EventID) envelope (TrimSpace r.(rt_account_id)) n1.(nt_subscriptions) k d → P k d).
  { intros k d Hq. rewrite Hs1 in Hq. exists event, r. split_and!; [done | done | | | done].
    - exists token, agent. unfold bearer_token. rewrite Eprefix. by split_and!.
    - intros Hc E. rewrite Hc in Esealed. cbn in Esealed. by apply str_eqb_neq in Esealed. }
  assert (Hlist : ListDeviceNotificationSubscriptions db r.(rt_account_id) n1 = ListDeviceNotificationSubscriptions db r.(rt_account_id) a.(ap_notices)).
  { unfold ListDeviceNotificationSubscriptions, subscriptions_where. by rewrite Hs1. }
  eapply wp_mono; [apply (queue_for_wp db now runtimeID event.(ne_EventID) envelope (TrimSpace r.(rt_account_id)) n1.(nt_subscriptions)) | |].
  - intros device s Hin. by apply listed_subscriptions in Hin.
  - cbn [ap_notices]. intros queued a' [Hadds Hrows]. rewrite wp_ret. split.
    + intros k d Hd. destruct (Hadds k d Hd) as [?|?]; [left; by rewrite <-Hd1 | right; by apply HP].
    + exists event, r. split_and!; [done | done |]. intros device s Hin. apply (Hrows device s). change (ap_notices _) with n1. by rewrite Hlist.
  - cbn [ap_notices]. intros e a' Hadds k d Hd. destruct (Hadds k d Hd) as [?|?]; [left; by rewrite <-Hd1 | right; by apply HP].
Qed.
End lifecycle.

(** ** Theorems *)

(** C29: Whatever is sent to a runtime's notification endpoint, a notice is queued only
    when the request carries the token of the runtime's agent and the runtime is
    running; only for devices subscribed under the runtime's own account that may
    receive, sealed for their keys; and never unsealed from a confidential runtime.
    After an accepted request every subscribed device of the account has the event
    in its queue. *)
Theorem notifications_reach_owner uuid_parse db now authorization runtimeID decoded envelope fresh a :
  let '(a', res) := receiveRuntimeNotification uuid_parse db now authorization runtimeID decoded envelope fresh a in
  (∀ k d, a'.(ap_notices).(nt_deliveries) !! k = Some d →
     a.(ap_notices).(nt_deliveries) !! k = Some d
     ∨ notification_reason uuid_parse db now authorization runtimeID decoded envelope a.(ap_notices) k d)
  ∧ match res with inr _ => all_notified db now runtimeID decoded a.(ap_notices) a'.(ap_notices) | inl _ => True end.
Proof.
  pose proof (receive_wp uuid_parse db now authorization runtimeID decoded envelope fresh a) as Hwp. unfold wp in Hwp.
  destruct (receiveRuntimeNotification _ _ _ _ _ _ _ _ a) as [a' [e|x]]; [by split|]. by destruct Hwp.
Qed.

(** C30: A stream that starts with nothing sent writes a pending notice within one round
    per twenty that are older, plus one, however many the phone leaves
    unacknowledged, as long as fewer than 520 older ones are pending over these
    rounds; the tables may change in any other way in between. *)
Theorem stream_delivers accountID deviceID id (older : gset string) seen :
  Forall (waits accountID deviceID id older) seen → id ∉ older → (size older < 520)%nat → (size older < 20 * length seen)%nat →
  id ∈ ids (stream_rounds accountID deviceID ∅ seen).
Proof. intros Hw Hid Hb Hl. by apply (stream_reaches _ _ id older). Qed.

(** When 520 older ones stay unacknowledged, a notice is never written: the stream
    starts over before it gets there. *)
Theorem stream_starves accountID deviceID st k pre x post : NoDup (ids (pending_at accountID deviceID st)) →
  pending_at accountID deviceID st = pre ++ x :: post → (520 ≤ length pre)%nat →
  x ∉ stream_rounds accountID deviceID ∅ (replicate k st).
Proof.
  intros Hnd Hp Hlen Hin. apply (starving_rounds accountID deviceID st k Hnd ltac:(rewrite Hp, length_app; cbn; lia) 0 ltac:(lia)) in Hin.
  rewrite Hp, take_app_le in Hin by done. rewrite Hp in Hnd. unfold ids in Hnd. rewrite fmap_app in Hnd. apply NoDup_app in Hnd as (_ & Hdis & _).
  apply elem_of_take in Hin as (i & Hi & _). apply list_elem_of_lookup_2 in Hi. apply (Hdis (delivery_id x)); [by apply list_elem_of_fmap_2 | by left].
Qed.

(** C31: A queued notice stays as it is through every operation, with these
    exceptions: its own device, subscribed by the account and allowed to receive,
    acknowledges it; it expired or was acknowledged a day ago when another one is
    queued, and then it is gone or its id was given to that one; its account
    unsubscribes its device; or a row it refers to (its device, subscription or
    account, its runtime or its node) is gone.  In the last two cases it does go. *)
Theorem notice_lifecycle uuid_parse op n k d (Hd : n.(nt_deliveries) !! k = Some d) :
  let after := (run_notice uuid_parse op n).(nt_deliveries) !! k in
  fate op n k d after
  ∧ (∀ accountID deviceID, op = OpDelete accountID deviceID → unsubscribes accountID deviceID n d → after = None)
  ∧ (∀ db, op = OpCascade db → orphaned db n k d → after = None).
Proof.
  cbv zeta. split_and!; [by apply notice_fate | |].
  - intros a dev -> Hu. by destruct (Delete_run a dev n k d Hd) as [[_ ?]|[? _]].
  - intros db -> Ho. by destruct (cascade_run db n k d Hd) as [[_ ?]|[? _]].
Qed.

(** A notice that was acknowledged is not listed again, whatever comes after, and
    what is listed is pending, not expired, for the device that asks, subscribed and
    allowed to receive. *)
Theorem acknowledged_for_good uuid_parse db now accountID deviceID deliveryID n n1
    (Hack : MarkNotificationDeliveryDelivered uuid_parse db now accountID deviceID deliveryID n = (n1, inr tt)) :
  ∃ q, ∀ ops, Forall (λ op, enqueued_key op ≠ Some (q, TrimSpace deliveryID)) ops →
    ∀ db' now' accountID' deviceID' limit exclude x,
      x ∈ ListPendingNotificationDeliveries db' now' accountID' deviceID' limit exclude (run_notices uuid_parse ops n1) →
      x.1 ≠ (q, TrimSpace deliveryID) ∧ is_pending now' x.2 = true ∧ x.2.(dl_DeviceID) = TrimSpace deviceID'
      ∧ may_receive db' (TrimSpace accountID') (TrimSpace deviceID') = true ∧ delivery_id x ∉ exclude.
Proof.
  pose proof (Mark_run uuid_parse db now accountID deviceID deliveryID n) as Hm. rewrite Hack in Hm.
  destruct Hm as [(_ & q & d & Hd & _ & _ & _ & Hn1)|((e & [=]) & _)]. exists q. intros ops Hops db' now' accountID' deviceID' limit exclude x Hx.
  apply listed_spec in Hx as (Hrow & Hpend & Hdev & _ & Hmay & Hex). split_and!; try done. intros E. rewrite E in Hrow.
  assert (Hs : settled (q, TrimSpace deliveryID) n1).
  { intros d' Hd'. rewrite Hn1, lookup_insert_eq in Hd'. by injection Hd' as <-. }
  apply (settled_run uuid_parse ops _ Hops) in Hs. unfold is_pending in Hpend. specialize (Hs _ Hrow). by destruct (dl_delivered_at x.2).
Qed.

(** In any sequence of calls in time order, at most [maxPerMinute] security events
    of a node are stored in a minute. *)
Theorem security_events_limited maxPerMinute retention node bucket calls n :
  0 < maxPerMinute → retention ≤ 0 ∨ minute_us ≤ retention → n.(nt_limits) !! (node, bucket) = None →
  StronglySorted (λ x y, x.1 ≤ y.1) calls → stored_in maxPerMinute retention node bucket calls n ≤ maxPerMinute.
Proof.
  intros Hmax Hret Hn Hsort. pose proof (stored_bound maxPerMinute retention node bucket calls Hmax Hret n) as Hb. unfold counted in Hb.
  rewrite Hn in Hb. cbn in Hb. specialize (Hb ltac:(lia) Hsort). lia.
Qed.

(** ** Samples *)

Definition notice_uuid (s : string) : option string := Some s.
Definition notice_db : Db :=
  empty_db <| db_accounts := {["a"%string := default_account 0]} |>
           <| db_devices := {["d"%string := MkDevice "a" "phone" "" None None 0 None]} |>
           <| db_runtimes := {["r"%string := default_runtime "a" "running" 0 <| rt_desired_state := "running"%string |>]} |>.
Definition notice_key (i : nat) : string := fmt_d (Z.of_nat i).
(** Twenty-five notices for the phone. *)
Definition notice_tables : Notices :=
  no_notices <| nt_subscriptions := {["d"%string := MkSubscription "a" "key" None 0 0 None]} |>
             <| nt_deliveries := list_to_map ((λ i, ((RuntimeQueue, notice_key i), MkDelivery "r" (notice_key i) "d" "sealed" (Z.of_nat i) 1000 None)) <$> seq 0 25) |>
             <| nt_agents := {["r"%string := MkAgent "a" (Sum256 (repeat 0%N 32)) 1 0 None]} |>.
Definition notice_seen : Db * Z * Notices := (notice_db, 100, notice_tables).

(** A request with the agent's token queues its event for the phone. *)
Lemma sample_notification :
  (receiveRuntimeNotification notice_uuid notice_db 100 ("Bearer " +:+ raw_url_encode (repeat 0%N 32)) "r"
    (Some (MkNotification "e" "org.example.app" "App" (Some 100) "Hello" "")) (λ _, Some "sealed"%string) (λ _, "new"%string)
    (MkNoticeApi notice_tables (newBootstrapRateLimiter 10 0) [])).2 = inr (1%nat, 1%nat).
Proof. vm_compute. reflexivity. Qed.

Lemma stream_delivers_witness :
  length (pending_at "a" "d" notice_seen) = 25%nat ∧ notice_key 24 ∈ ids (stream_rounds "a" "d" ∅ [notice_seen; notice_seen]).
Proof.
  split; [vm_compute; reflexivity|].
  apply (stream_delivers "a" "d" (notice_key 24) (list_to_set (notice_key <$> seq 0 24))).
  - assert (Hw : waits "a" "d" (notice_key 24) (list_to_set (notice_key <$> seq 0 24)) notice_seen).
    { split; [apply (bool_decide_unpack _); vm_compute; exact I|].
      exists (take 24 (pending_at "a" "d" notice_seen)), ((RuntimeQueue, notice_key 24), MkDelivery "r" (notice_key 24) "d" "sealed" 24 1000 None), [].
      split_and!; [vm_compute; reflexivity | reflexivity |]. apply (bool_decide_unpack _). vm_compute. exact I. }
    do 2 (apply Forall_cons; split; [exact Hw|]). by apply Forall_nil.
  - apply (bool_decide_unpack _). vm_compute. exact I.
  - apply Nat.ltb_lt. vm_compute. reflexivity.
  - apply Nat.ltb_lt. vm_compute. reflexivity.
Defined.

Definition notice_purge : NoticeOp := OpEnqueueRuntime notice_db 2000 (MkDeliveryInput "x" "r" "e" "d" "sealed" 3000).

(** The runtime's row is gone. *)
Definition notice_orphan : NoticeOp := OpCascade (notice_db <| db_runtimes := ∅ |>).

Lemma notice_lifecycle_witness :
  let k := (RuntimeQueue, notice_key 3) in let d := MkDelivery "r" (notice_key 3) "d" "sealed" 3 1000 None in
  notice_tables.(nt_deliveries) !! k = Some d
  ∧ fate notice_purge notice_tables k d ((run_notice notice_uuid notice_purge notice_tables).(nt_deliveries) !! k)
  ∧ (run_notice notice_uuid notice_orphan notice_tables).(nt_deliveries) !! k = None.
Proof.
  split_and!; [vm_compute; reflexivity | |].
  - apply notice_lifecycle. vm_compute. reflexivity.
  - eapply (notice_lifecycle notice_uuid notice_orphan notice_tables (RuntimeQueue, notice_key 3)); [vm_compute; reflexivity | reflexivity |].
    right. vm_compute. reflexivity.
Defined.

Lemma acknowledged_for_good_witness :
  ∃ n1, MarkNotificationDeliveryDelivered notice_uuid notice_db 200 "a" "d" (notice_key 3) notice_tables = (n1, inr tt) ∧
  ∃ q, ∀ x, x ∈ ListPendingNotificationDeliveries notice_db 300 "a" "d" 20 [] (run_notices notice_uuid [notice_purge] n1) → x.1 ≠ (q, TrimSpace (notice_key 3)).
Proof.
  assert (E : MarkNotificationDeliveryDelivered notice_uuid notice_db 200 "a" "d" (notice_key 3) notice_tables
    = ((MarkNotificationDeliveryDelivered notice_uuid notice_db 200 "a" "d" (notice_key 3) notice_tables).1, inr tt)) by (vm_compute; reflexivity).
  eexists. split; [exact E|].
  destruct (acknowledged_for_good notice_uuid notice_db 200 "a" "d" (notice_key 3) notice_tables _ E) as [q Hq]. exists q.
  intros x Hx. refine (proj1 (Hq [notice_purge] _ notice_db 300 "a"%string "d"%string 20 [] x Hx)).
  apply Forall_singleton. destruct q; vm_compute; discriminate.
Defined.

Definition notice_event : SecurityEventInput := MkSecurityEventInput "n" "falco" "rule" "error" "out" [] "{}" None.

Lemma security_events_limited_witness :
  stored_in 2 hour24 "n" 0 [(1, notice_event); (2, notice_event); (3, notice_event)] no_notices = 2
  ∧ stored_in 2 hour24 "n" 0 [(1, notice_event); (2, notice_event); (3, notice_event)] no_notices ≤ 2.
Proof.
  split; [vm_compute; reflexivity|]. apply (security_events_limited 2 hour24 "n" 0).
  - lia.
  - right. vm_compute. discriminate.
  - reflexivity.
  - repeat constructor; cbn; lia.
Defined.
