(* ===== verification/Rationals.v ===== *)
(** * Decimal amounts

    What cmd/virtroid-payments/treasury.go uses of math/big: [Rat.SetString],
    which reads decimals, fractions and the other notations of Go's numbers,
    [Rat.FloatString], and the treasury's amounts in millionths built on them
    ([decimalToMicro], [microToDecimal], [sunToTRX]).  A [*big.Rat] is a [Q]. *)

From Stdlib Require Import Ascii QArith Qreduction.
From Stdlib Require Qcanon.
From S2P Require Import Prelude.
From S2P Require Import GoLib.
From S2P Require Import Requests.
From stdpp Require Import pretty.
Open Scope Z_scope.

(** ** math/big *)

(** The value of a digit in bases up to 36; 63 of what is none. *)
Definition digit_value (c : ascii) : N :=
  let n := N_of_ascii c in
  (if (48 <=? n) && (n <=? 57) then n - 48
   else if (97 <=? n) && (n <=? 122) then n - 87
   else if (65 <=? n) && (n <=? 90) then n - 55
   else 63)%N.

(** What was scanned last: a separator, a digit, or neither. *)
Inductive scanned := Separator | Digit | Other.
#[export] Instance scanned_eq_dec : EqDecision scanned.
Proof. solve_decision. Defined.

Record Scan := MkScan {
  sc_value : N; sc_count : Z; sc_point : option Z; sc_prev : scanned; sc_bad : bool; sc_rest : list ascii }.

(** The loop of [nat.scan] with base 0: digits, separators, and one point when
    [fracOk]; it stops before what is neither. *)
Fixpoint scan_digits (base : N) (fracOk : bool) (value : N) (count : Z) (point : option Z) (prev : scanned) (bad : bool)
    (l : list ascii) : Scan :=
  match l with
  | [] => MkScan value count point prev bad []
  | c :: l' =>
    if bool_decide (c = "."%char) && fracOk
    then scan_digits base false value count (Some count) Other (bad || bool_decide (prev = Separator)) l'
    else if bool_decide (c = "_"%char)
    then scan_digits base fracOk value count point Separator (bad || negb (bool_decide (prev = Digit))) l'
    else
      let d := digit_value c in
      if (base <=? d)%N then MkScan value count point prev bad l
      else scan_digits base fracOk (value * base + d) (count + 1) point Digit bad l'
  end.

Inductive prefix := NoPrefix | Octal | Letter.

(** The base, from a prefix, and where the digits start. *)
Definition scan_prefix (fracOk : bool) (l : list ascii) : N * prefix * scanned * Z * list ascii :=
  match l with
  | "0"%char :: l1 =>
    match l1 with
    | [] => (10%N, NoPrefix, Digit, 1, [])
    | c :: l2 =>
      if bool_decide (c = "b"%char ∨ c = "B"%char) then (2%N, Letter, Digit, 0, l2)
      else if bool_decide (c = "o"%char ∨ c = "O"%char) then (8%N, Letter, Digit, 0, l2)
      else if bool_decide (c = "x"%char ∨ c = "X"%char) then (16%N, Letter, Digit, 0, l2)
      else if fracOk then (10%N, NoPrefix, Digit, 1, l1) else (8%N, Octal, Digit, 0, l1)
    end
  | _ => (10%N, NoPrefix, Other, 0, l)
  end.

(** [nat.scan(r, 0, fracOk)]: the value, its base, the number of digits (minus
    the digits after the point, when there is one), and what is left. *)
Definition scan (fracOk : bool) (l : list ascii) : option (N * N * Z * list ascii) :=
  let '(base, p, prev, count, l) := scan_prefix fracOk l in
  let s := scan_digits base fracOk 0 count None prev false l in
  if s.(sc_bad) || bool_decide (s.(sc_prev) = Separator) then None
  else if s.(sc_count) =? 0
  then match p with Octal => Some (0%N, 10%N, 1, s.(sc_rest)) | _ => None end
  else Some (s.(sc_value), base, match s.(sc_point) with Some dp => dp - s.(sc_count) | None => s.(sc_count) end, s.(sc_rest)).

Definition scanSign (l : list ascii) : bool * list ascii :=
  match l with "-"%char :: l' => (true, l') | "+"%char :: l' => (false, l') | _ => (false, l) end.

(** The exponent's digits and separators. *)
Fixpoint exponent_digits (digits : list ascii) (prev : scanned) (bad : bool) (l : list ascii)
    : list ascii * bool * list ascii :=
  match l with
  | [] => (digits, bad || bool_decide (prev = Separator), [])
  | c :: l' =>
    if bool_decide (is_Some (decimal_value c)) then exponent_digits (digits ++ [c]) Digit bad l'
    else if bool_decide (c = "_"%char) then exponent_digits digits Separator (bad || negb (bool_decide (prev = Digit))) l'
    else (digits, bad || bool_decide (prev = Separator), l)
  end.

(** [scanExponent(r, true, true)]: the exponent, its base, and what is left. *)
Definition scanExponent (l : list ascii) : option (Z * N * list ascii) :=
  let exponent base l :=
    let '(neg, l) := scanSign l in
    let '(digits, bad, rest) := exponent_digits [] Other false l in
    if (length digits =? 0)%nat then None
    else match ParseInt (of_bytes ((if (neg : bool) then ["-"%char] else []) ++ digits)) with
         | Some e => if bad : bool then None else Some (e, base, rest)
         | None => None
         end in
  match l with
  | c :: l' =>
    if bool_decide (c = "e"%char ∨ c = "E"%char) then exponent 10%N l'
    else if bool_decide (c = "p"%char ∨ c = "P"%char) then exponent 2%N l'
    else Some (0, 10%N, l)
  | [] => Some (0, 10%N, [])
  end.

(** [z.a.SetString(s, 0)]. *)
Definition SetString0 (l : list ascii) : option Z :=
  let '(neg, l) := scanSign l in
  match scan false l with
  | Some (v, _, _, []) => Some (if (neg : bool) then - Z.of_N v else Z.of_N v)
  | _ => None
  end.

Definition signed (neg : bool) (z : Z) : Z := if neg then - z else z.

(** The number [value * 5^exp5 * 2^exp2]. *)
Definition scaled_rat (neg : bool) (value : N) (exp5 exp2 : Z) : Q :=
  Qred (Qmake (signed neg (Z.of_N value * 5 ^ Z.max 0 exp5 * 2 ^ Z.max 0 exp2))
              (Z.to_pos (5 ^ Z.max 0 (- exp5) * 2 ^ Z.max 0 (- exp2)))).

(** The bytes before and after the first slash. *)
Fixpoint split_slash (l : list ascii) : option (list ascii * list ascii) :=
  match l with
  | [] => None
  | c :: l' => if bool_decide (c = "/"%char) then Some ([], l') else (λ p : list ascii * list ascii, (c :: p.1, p.2)) <$> split_slash l'
  end.

(** [new(big.Rat).SetString(s)]. *)
Definition RatSetString (s : string) : option Q :=
  match bytes_of s with
  | [] => None
  | l =>
    match split_slash l with
    | Some (before, after) =>
      match SetString0 before, scan false after with
      | Some a, Some (b, _, _, []) => if (b =? 0)%N then None else Some (Qred (Qmake a (N.succ_pos (b - 1))))
      | _, _ => None
      end
    | None =>
      let '(neg, l) := scanSign l in
      match scan true l with
      | None => None
      | Some (value, base, fcount, l) =>
        match scanExponent l with
        | Some (exp, ebase, []) =>
          if (value =? 0)%N then Some 0%Q
          else
            let d := Z.min 0 fcount in
            let exp5 := if (base =? 10)%N then d else 0 in
            let exp2 := if (base =? 8)%N then d * 3 else if (base =? 16)%N then d * 4 else d in
            let exp5 := if (ebase =? 10)%N then exp5 + exp else exp5 in
            let exp2 := exp2 + exp in
            if 10 ^ 6 <? Z.abs exp5 then None
            else if (exp2 <? - 10 ^ 7) || (10 ^ 7 <? exp2) then None
            else Some (scaled_rat neg value exp5 exp2)
        | _ => None
        end
      end
    end
  end.

(** [x.FloatString(prec)]: rounded to nearest, halves away from zero. *)
Definition FloatString (x : Q) (prec : nat) : string :=
  let den := Zpos (Qden x) in
  let q := Z.abs (Qnum x) / den in
  let p := 10 ^ Z.of_nat prec in
  let r := (Z.abs (Qnum x) mod den) * p in
  let r' := r / den in
  let up := den <=? 2 * (r mod den) in
  let r' := if up then r' + 1 else r' in
  let '(q, r') := if up && (p <=? r') then (q + 1, r' - p) else (q, r') in
  let rs := fmt_d r' in
  (if Qnum x <? 0 then "-" else "") +:+ fmt_d q +:+
  (if (0 <? prec)%nat then "." +:+ of_bytes (repeat "0"%char (prec - String.length rs)) +:+ rs else "").

(** [x.Sign() <= 0] and [x.Sign() < 0]. *)
Definition not_positive (x : Q) : bool := Qnum x <=? 0.
Definition negative (x : Q) : bool := Qnum x <? 0.

(** ** treasury.go *)

Definition microToDecimal (micro : Z) : string := FloatString (Qmake micro 1000000) 6.
Definition sunToTRX (sun : Z) : string := FloatString (Qmake sun 1000000) 6.

Definition decimalToMicro (value : string) (roundUp : bool) : string + Z :=
  match RatSetString (TrimSpace value) with
  | None => inl "unreadable amount"%string
  | Some amount =>
    if negative amount then inl "unreadable amount"%string
    else
      let scaled := Qred (amount * (1000000 # 1)) in
      let quotient := Z.quot (Qnum scaled) (Zpos (Qden scaled)) in
      let remainder := Z.rem (Qnum scaled) (Zpos (Qden scaled)) in
      let quotient := if roundUp && (0 <? remainder) then quotient + 1 else quotient in
      if is_int64 quotient then inr quotient else inl "amount is too large"%string
  end.

(** ** Facts *)

Lemma decimal_char_facts c : decimal_char c →
  c ≠ "."%char ∧ c ≠ "_"%char ∧ c ≠ "/"%char ∧ c ≠ "-"%char ∧ c ≠ "+"%char
  ∧ is_space c = false ∧ digit_value c = (N_of_ascii c - 48)%N ∧ (digit_value c < 10)%N.
Proof.
  unfold decimal_char. intros [H1 H2]. split_and!; try (intros ->; vm_compute in H1, H2; congruence).
  - unfold is_space. destruct (N.leb_spec 9 (N_of_ascii c)), (N.leb_spec (N_of_ascii c) 13), (N.eqb_spec (N_of_ascii c) 32); cbn; try done; lia.
  - unfold digit_value. rewrite (proj2 (N.leb_le _ _) H1), (proj2 (N.leb_le _ _) H2). done.
  - unfold digit_value. rewrite (proj2 (N.leb_le _ _) H1), (proj2 (N.leb_le _ _) H2). cbn. lia.
Qed.

(** Scanning decimal digits. *)
Lemma scan_digits_run ds : Forall decimal_char ds → ∀ fracOk value count point prev bad rest, ds ≠ [] →
  scan_digits 10 fracOk value count point prev bad (ds ++ rest)
  = scan_digits 10 fracOk (value * 10 ^ N.of_nat (length ds) + decimals ds) (count + Z.of_nat (length ds)) point Digit bad rest.
Proof.
  induction 1 as [|c ds Hc Hds IH]; intros fracOk value count point prev bad rest Hne; [done|].
  destruct (decimal_char_facts c Hc) as (Hp & Hu & _ & _ & _ & _ & Hv & Hlt). cbn [app scan_digits].
  rewrite (bool_decide_false (c = "."%char)), (bool_decide_false (c = "_"%char)) by done. cbn [andb].
  rewrite (proj2 (N.leb_gt 10 (digit_value c))) by done. unfold decimals at 1. cbn [foldl]. rewrite decimals_from.
  destruct ds as [|c' ds].
  - cbn [app length]. rewrite Hv. f_equal; cbn; lia.
  - rewrite IH by done. rewrite Hv. cbn [length]. rewrite !Nat2N.inj_succ, !N.pow_succ_r'. f_equal; lia.
Qed.

Lemma split_slash_none l : "/"%char ∉ l → split_slash l = None.
Proof. induction l as [|c l IH]; intros H; [done|]. cbn. rewrite bool_decide_false by set_solver. rewrite IH by set_solver. done. Qed.

(** A decimal with a point is read as the number it writes. *)
Definition plain (whole : list ascii) : Prop := whole = ["0"%char] ∨ ∃ c l, whole = c :: l ∧ N_of_ascii c ≠ 48%N.

Lemma scan_decimal whole frac : plain whole → Forall decimal_char whole → Forall decimal_char frac → frac ≠ [] →
  scan true (whole ++ "."%char :: frac)
  = Some (decimals whole * 10 ^ N.of_nat (length frac) + decimals frac, 10, - Z.of_nat (length frac), [])%N.
Proof.
  intros Hw Hdw Hdf Hne. unfold scan.
  assert (E : ∃ prev count l, scan_prefix true (whole ++ "."%char :: frac) = (10%N, NoPrefix, prev, count, l) ∧ 0 ≤ count
    ∧ scan_digits 10 true 0 count None prev false l
      = scan_digits 10 true (decimals whole) (Z.of_nat (length whole)) None Digit false ("."%char :: frac)).
  { destruct Hw as [->|(c & l & -> & Hc)].
    - by exists Digit, 1, ("."%char :: frac).
    - exists Other, 0, ((c :: l) ++ "."%char :: frac). split; [|split; [done|]].
      + cbn [app scan_prefix]. destruct (decide (c = "0"%char)) as [->|Hn]; [done|].
        destruct c as [[] [] [] [] [] [] [] []]; try done.
      + by rewrite scan_digits_run. }
  destruct E as (prev & count & l & -> & _ & ->). cbn [scan_digits]. rewrite bool_decide_true by done. cbn [andb orb].
  rewrite bool_decide_false by done.
  pose proof (scan_digits_run frac Hdf false (decimals whole) (Z.of_nat (length whole)) (Some (Z.of_nat (length whole))) Other false [] Hne) as Er.
  rewrite app_nil_r in Er. rewrite Er. cbn [scan_digits sc_bad sc_prev sc_count sc_value sc_point sc_rest].
  rewrite bool_decide_false by done. cbn [orb].
  destruct frac as [|f frac]; [done|].
  destruct (Z.eqb_spec (Z.of_nat (length whole) + Z.of_nat (length (f :: frac))) 0); [cbn [length] in *; lia|]. do 3 f_equal. lia.
Qed.

(** *** Amounts *)

Lemma microToDecimal_form m : 0 ≤ m → ∃ whole frac,
  bytes_of (microToDecimal m) = whole ++ "."%char :: frac ∧ plain whole ∧ Forall decimal_char whole ∧ Forall decimal_char frac
  ∧ length frac = 6%nat ∧ decimals whole = Z.to_N (m / 10 ^ 6) ∧ decimals frac = Z.to_N (m mod 10 ^ 6).
Proof.
  intros Hm. unfold microToDecimal, FloatString. cbn [Qnum Qden].
  rewrite Z.abs_eq by done. replace (10 ^ Z.of_nat 6) with 1000000 by done. rewrite Z.mod_mul, Z.div_mul by done.
  change (10 ^ 6) with 1000000.
  change (1000000 <=? 2 * 0) with false. cbn [andb]. rewrite (proj2 (Z.ltb_ge m 0)) by done.
  pose proof (Z.mod_pos_bound m 1000000 ltac:(done)) as Hr. pose proof (Z.div_pos m 1000000 Hm ltac:(done)) as Hq.
  unfold fmt_d. rewrite !(proj2 (Z.ltb_ge _ 0)) by lia.
  set (q := m / 1000000) in *. set (r := m mod 1000000) in *. clearbody q r.
  destruct (pretty_decimals (Z.to_N q)) as [Hqv Hqd], (pretty_decimals (Z.to_N r)) as [Hrv Hrd].
  exists (bytes_of (pretty (Z.to_N q))), (repeat "0"%char (6 - String.length (pretty (Z.to_N r))) ++ bytes_of (pretty (Z.to_N r))).
  destruct (padded_decimals (6 - String.length (pretty (Z.to_N r))) _ _ Hrv Hrd) as [Hfv Hfd].
  split_and!; try done.
  - cbn [Nat.ltb Nat.leb]. change (bytes_of ("" +:+ ?x)) with (bytes_of x). rewrite !bytes_of_app. cbn [bytes_of].
    by rewrite bytes_of_bytes.
  - destruct (decide (Z.to_N q = 0%N)) as [->|Hn]; [by left | right; by apply pretty_head].
  - assert (El : String.length (pretty (Z.to_N r)) = length (bytes_of (pretty (Z.to_N r))))
      by (generalize (pretty (Z.to_N r)); intros t; induction t as [|c t IH]; cbn; congruence).
    pose proof (pretty_length (Z.to_N r) 6 ltac:(lia) ltac:(lia)) as Hl. rewrite length_app, repeat_length, El. lia.
Qed.

Lemma decimal_read whole frac s : bytes_of s = whole ++ "."%char :: frac → plain whole → Forall decimal_char whole →
  Forall decimal_char frac → length frac = 6%nat →
  ∃ x, RatSetString s = Some x ∧ (x == Z.of_N (decimals whole * 10 ^ 6 + decimals frac) # 1000000)%Q.
Proof.
  intros E Hp Hw Hf Hl. unfold RatSetString. rewrite E.
  assert (Hne : whole ++ "."%char :: frac ≠ []) by (by destruct whole).
  assert (Hs : "/"%char ∉ whole ++ "."%char :: frac).
  { intros [Hi|[Hi|Hi]%elem_of_cons]%elem_of_app; [|done|].
    - eapply Forall_forall in Hi; [|exact Hw]. by apply decimal_char_facts in Hi as (_ & _ & ? & _).
    - eapply Forall_forall in Hi; [|exact Hf]. by apply decimal_char_facts in Hi as (_ & _ & ? & _). }
  assert (Hsign : scanSign (whole ++ "."%char :: frac) = (false, whole ++ "."%char :: frac)).
  { destruct Hp as [->|(c & l & -> & _)]; [done|]. apply Forall_cons in Hw as [Hc _].
    apply decimal_char_facts in Hc as (_ & _ & _ & Hm & Hpl & _). cbn [app scanSign].
    destruct c as [[] [] [] [] [] [] [] []]; done. }
  destruct (whole ++ "."%char :: frac) eqn:El; [done|]. rewrite <-El in *. clear Hne El.
  rewrite split_slash_none, Hsign, scan_decimal by (done || by intros ->). cbn [scanExponent]. rewrite Hl.
  set (v := (decimals whole * 10 ^ N.of_nat 6 + decimals frac)%N).
  change (decimals whole * 10 ^ 6 + decimals frac)%N with v. clearbody v.
  destruct (N.eqb_spec v 0) as [->|Hv]; [by exists 0%Q|]. eexists. split; [reflexivity|].
  unfold scaled_rat, signed. rewrite Qred_correct. unfold Qeq. cbn -[Z.mul Z.max Z.min Z.pow Z.of_nat].
  change (0 `max` (0 `min` (- Z.of_nat 6) + 0)) with 0. change (0 `max` (- (0 `min` (- Z.of_nat 6) + 0))) with 6.
  change (Z.pos (Z.to_pos (5 ^ 6 * 2 ^ 6))) with 1000000. lia.
Qed.

(** ** Properties *)

(** What is written out is read back, whichever way amounts are rounded: SimpleSwap
    is asked for exactly the amount that is paid. *)
Theorem amounts_roundtrip m up (Hm : 0 ≤ m ≤ max_int64) : decimalToMicro (microToDecimal m) up = inr m.
Proof.
  destruct (microToDecimal_form m ltac:(lia)) as (whole & frac & E & Hp & Hw & Hf & Hl & Ew & Ef).
  unfold decimalToMicro. rewrite TrimSpace_id.
  2:{ rewrite E. apply Forall_app. split; [|constructor; [done|]];
      (eapply Forall_impl; [eassumption|]; intros c Hc; by apply decimal_char_facts in Hc as (_ & _ & _ & _ & _ & ? & _)). }
  destruct (decimal_read _ _ _ E Hp Hw Hf Hl) as (x & -> & Hx).
  replace (Z.of_N (decimals whole * 10 ^ 6 + decimals frac)) with m in Hx
    by (rewrite Ew, Ef; pose proof (Z.div_mod m (10 ^ 6) ltac:(done)); pose proof (Z.mod_pos_bound m (10 ^ 6) ltac:(done));
        pose proof (Z.div_pos m (10 ^ 6) ltac:(lia) ltac:(done)); lia).
  unfold negative. destruct (Z.ltb_spec (Qnum x) 0) as [Hn|_].
  { unfold Qeq in Hx. cbn in Hx. nia. }
  assert (Hs : Qred (x * (1000000 # 1)) = Qred (m # 1)).
  { apply Qred_complete. rewrite Hx. unfold Qeq. cbn. lia. }
  rewrite Hs. assert (E1 : Qred (m # 1) = (m # 1)%Q).
  { rewrite Qcanon.Qred_identity; [done|]. cbn. apply Z.gcd_1_r. }
  rewrite E1. cbn [Qnum Qden]. rewrite Z.quot_1_r, Z.rem_1_r, andb_false_r.
  unfold is_int64, min_int64. rewrite (proj2 (Z.leb_le _ m)), (proj2 (Z.leb_le m _)) by (unfold max_int64 in *; lia). done.
Qed.

(** Twenty-five USDT. *)
Lemma amounts_roundtrip_witness : microToDecimal 25000000 = "25.000000"%string ∧ decimalToMicro (microToDecimal 25000000) true = inr 25000000.
Proof. split; [vm_compute; reflexivity | apply (amounts_roundtrip 25000000 true); unfold max_int64; lia]. Defined.

(** Other notations that [SetString] reads. *)
Example read_notations :
  RatSetString "1.50" = Some (3 # 2)%Q ∧ RatSetString "3/4" = Some (3 # 4)%Q ∧ RatSetString "010/0b11" = Some (8 # 3)%Q
  ∧ RatSetString "-0.25e-1" = Some (-1 # 40)%Q ∧ RatSetString "1_0.5" = Some (21 # 2)%Q ∧ RatSetString "0x1p-2" = Some (1 # 4)%Q
  ∧ RatSetString "1__0" = None ∧ RatSetString "09/1" = None ∧ RatSetString "1e" = None ∧ RatSetString "." = None.
Proof. vm_compute. split_and!; reflexivity. Qed.
