(* ===== verification/Deposits.v ===== *)
(** * Finding deposits

    Models the deposit side of cmd/virtroid-payments: listing the transfers to
    an address (tronapi.go, [transfers]), checking one on a second node
    (tronapi.go, [verifyTransfer]), the watcher that goes through the accounts'
    addresses and reports what it finds (watch.go), and the control plane's
    handlers that serve the watch list and credit reports (internal/httpapi/
    wallet.go), which call the store ([Wallet]).

    HTTP and JSON are not modelled: a service is a function on a world [W] that
    answers with data or an error, and the watcher is a function of such services
    ([WatchServices], the Go interfaces); a handler gets the decoded body beside
    the signed request.  Errors are their texts; log lines, and the heartbeat a
    service leaves for the operator console, are left out.  Times are nanoseconds,
    the control plane's microseconds. *)

From Stdlib Require Import Ascii.
From S2P Require Import Prelude.
From S2P Require Import GoLib.
From S2P Require Import Codec.
From S2P Require Import Schema.
From S2P Require Import Wallet.
From S2P Require Import Devices.
From S2P Require Import Tron.
From S2P Require Import Requests.
Open Scope Z_scope.

(** ** Library functions *)

(** [time.UnixMilli]. *)
Definition of_UnixMilli (ms : Z) : Z := ms * 10 ^ 6.
Definition second_ns : Z := 10 ^ 9.
Definition hour_ns : Z := 3600 * second_ns.
(** [time.Time{}], the year 1. *)
Definition zero_time : Z := -62135596800 * second_ns.

(** A call to a service, in a world that it may change. *)
Notation Svc W := (M W string).

(** ** tronapi.go *)

Definition transferEventTopic : string := "ddf252ad1be2c89b69c2b068fc378daa952ba7f163c4a11628f55a4df523b3ef".

Record usdtTransfer := MkTransfer { ut_TxID : string; ut_To : string; ut_AmountMicro : Z; ut_BlockTime : Z }.

(** TronGrid's answer, decoded. *)
Record trc20Item := MkItem {
  it_TransactionID : string; it_BlockTimestamp : Z; it_From : string; it_To : string; it_Type : string;
  it_Value : string; it_TokenAddress : string; it_TokenDecimals : Z }.
Record trc20Page := MkPage { pg_Success : bool; pg_Data : list trc20Item; pg_Fingerprint : string }.

Definition transfer_of (incoming : bool) (address : string) (item : trc20Item) : option usdtTransfer :=
  let party := if incoming then item.(it_To) else item.(it_From) in
  if negb (item.(it_Type) =?s "Transfer") || negb (party =?s address)
     || negb (item.(it_TokenAddress) =?s USDTContract) || negb (item.(it_TokenDecimals) =? 6)
  then None
  else match ParseInt item.(it_Value) with
       | Some amount =>
         if amount <=? 0 then None
         else Some (MkTransfer (ToLower item.(it_TransactionID)) item.(it_To) amount (of_UnixMilli item.(it_BlockTimestamp)))
       | None => None
       end.

Section grid.
Context {W : Type}.
(** One request: the query's address, [min_timestamp], [only_to] and, from the
    second page on, the fingerprint. *)
Variable getPage : string → Z → bool → option string → Svc W trc20Page.

Fixpoint transfer_pages (pages : nat) (address : string) (since : Z) (incoming : bool) (fingerprint : option string)
    (transfers : list usdtTransfer) : Svc W (list usdtTransfer) :=
  match pages with
  | O => throw "too many pages of transfers"%string
  | S pages' =>
    response ← getPage address (UnixMilli since) incoming fingerprint;
    refuse_if (negb response.(pg_Success)) "trongrid reported a failure"%string;;
    let transfers := transfers ++ omap (transfer_of incoming address) response.(pg_Data) in
    if (response.(pg_Fingerprint) =?s "") || (length response.(pg_Data) =? 0)%nat then mret transfers
    else transfer_pages pages' address since incoming (Some response.(pg_Fingerprint)) transfers
  end.

Definition transfers (address : string) (since : Z) (incoming : bool) : Svc W (list usdtTransfer) :=
  transfer_pages 50 address since incoming None [].
Definition transfersTo (address : string) (since : Z) : Svc W (list usdtTransfer) := transfers address since true.
Definition transfersFrom (address : string) (since : Z) : Svc W (list usdtTransfer) := transfers address since false.
End grid.

(** A full node's record of a transaction, decoded. *)
Record txLog := MkLog { lo_Address : string; lo_Topics : list string; lo_Data : string }.
Record txInfo := MkInfo {
  in_ID : string; in_BlockTimeStamp : Z; in_ContractAddress : string; in_Result : string; in_Log : list txLog }.

Section node.
Context `{Base58}.

Definition usdt_bytes : list N := match AddressBytes USDTContract with inr b => b | inl _ => [] end.

Definition transfer_entry (wantTopic : string) (entry : txLog) : bool :=
  EqualFold entry.(lo_Address) (hex_encode (drop 1 usdt_bytes))
  && match entry.(lo_Topics) with
     | [topic0; _; topic2] => EqualFold topic0 transferEventTopic && EqualFold topic2 wantTopic
     | _ => false
     end.

(** The sum of the transfers to the topic; nothing when an amount is unreadable. *)
Fixpoint logged_total (wantTopic : string) (total : Z) (log : list txLog) : option Z :=
  match log with
  | [] => Some total
  | entry :: log' =>
    if transfer_entry wantTopic entry
    then match SetString16 entry.(lo_Data) with
         | Some value => logged_total wantTopic (total + value) log'
         | None => None
         end
    else logged_total wantTopic total log'
  end.

Definition topic_of (recipient : list N) : string :=
  of_bytes (repeat "0"%char 24) +:+ hex_encode (drop 1 recipient).

(** [verifyTransfer] of the node's answer. *)
Definition check_transfer (info : txInfo) (txID address : string) (amountMicro : Z) : string + Z :=
  if negb (EqualFold info.(in_ID) txID) then inl "the transaction is not solidified yet"%string
  else if negb (info.(in_Result) =?s "SUCCESS") then inl "the transaction did not succeed"%string
  else if negb (EqualFold info.(in_ContractAddress) (hex_encode usdt_bytes))
  then inl "the transaction did not call the USDT contract"%string
  else match AddressBytes address with
       | inl _ => inl "invalid address"%string
       | inr recipient =>
         match logged_total (topic_of recipient) 0 info.(in_Log) with
         | None => inl "the transfer amount is unreadable"%string
         | Some total =>
           if negb (is_int64 total) || negb (total =? amountMicro) then inl "the node shows another amount"%string
           else inr (of_UnixMilli info.(in_BlockTimeStamp))
         end
       end.

Definition node_verifyTransfer {W} (getInfo : string → Svc W txInfo) (txID address : string) (amountMicro : Z) : Svc W Z :=
  info ← getInfo txID;
  match check_transfer info txID address amountMicro with inl e => throw e | inr t => mret t end.
End node.

(** ** watch.go *)

Definition recentlyViewed : Z := 24 * hour_ns.
Definition idleCheckEvery : Z := 30 * 60 * second_ns.
Definition firstScanWindow : Z := 30 * 24 * hour_ns.
Definition scanOverlap : Z := hour_ns.

Record watchedAddress := MkWatched { wd_Index : Z; wd_Address : string; wd_ViewedAt : option Z }.
Record depositReport := MkReport { dr_TxID : string; dr_Address : string; dr_Index : Z; dr_AmountMicro : Z; dr_BlockTime : Z }.

(** The interfaces [controlPlane], [transferSource] and [transferVerifier]. *)
Class WatchServices (W : Type) : Type := {
  watchList : Svc W (list watchedAddress);
  reportDeposit : depositReport → Svc W bool;
  listTransfers : string → Z → Svc W (list usdtTransfer);
  verifyTransfer : string → string → Z → Svc W Z }.

Record Watcher (W : Type) := MkWatcher { w_scanned : gmap string Z; w_nextCheck : gmap string Z; w_world : W }.
Arguments MkWatcher {W}.
Arguments w_scanned {W}.
Arguments w_nextCheck {W}.
Arguments w_world {W}.
#[export] Instance watcher_eta W : Eta (Watcher W) := λ s, MkWatcher s.(w_scanned) s.(w_nextCheck) s.(w_world).

(** A service called from the watcher. *)
Definition call {W A} (svc : Svc W A) : M (Watcher W) string A := λ s,
  let '(w, r) := svc s.(w_world) in (s <| w_world := w |>, r).

(** An error that is logged, not returned. *)
Definition attempt {S E A} (m : M S E A) : M S E (option A) := λ s,
  match m s with
  | (s', inr a) => (s', inr (Some a))
  | (s', inl _) => (s', inr None)
  end.

Definition newWatcher {W} (w : W) : Watcher W := MkWatcher ∅ ∅ w.

(** The transactions that pay the address, in order of appearance, what each
    pays it in all, and the latest block time. *)
Record Found := MkFound { fo_order : list string; fo_totals : gmap string Z; fo_latest : Z }.

Definition add_transfer (address : string) (f : Found) (t : usdtTransfer) : Found :=
  if negb (t.(ut_To) =?s address) then f
  else MkFound (match f.(fo_totals) !! t.(ut_TxID) with Some _ => f.(fo_order) | None => f.(fo_order) ++ [t.(ut_TxID)] end)
               (<[t.(ut_TxID) := wrap64 (default 0 (f.(fo_totals) !! t.(ut_TxID)) + t.(ut_AmountMicro))]> f.(fo_totals))
               (if f.(fo_latest) <? t.(ut_BlockTime) then t.(ut_BlockTime) else f.(fo_latest)).

Definition found (address : string) (since : Z) (transfers : list usdtTransfer) : Found :=
  foldl (add_transfer address) (MkFound [] ∅ since) transfers.

Section watcher.
Context {W : Type} `{!WatchServices W}.
(** [w.wallet.Address]. *)
Variable walletAddress : N → tron_error + string.

Definition report_found (watched : watchedAddress) (totals : gmap string Z) (txID : string) : M (Watcher W) string unit :=
  let total := default 0 (totals !! txID) in
  blockTime ← call (verifyTransfer txID watched.(wd_Address) total);
  credited ← call (reportDeposit (MkReport txID watched.(wd_Address) watched.(wd_Index) total blockTime));
  mret tt.

Definition checkAddress (watched : watchedAddress) (now : Z) : M (Watcher W) string unit :=
  s ← gets Datatypes.id;
  let since := default (now - firstScanWindow) (s.(w_scanned) !! watched.(wd_Address)) in
  transfers ← call (listTransfers watched.(wd_Address) since);
  let f := found watched.(wd_Address) since transfers in
  for_each (report_found watched f.(fo_totals)) f.(fo_order);;
  modify (λ s, s <| w_scanned ::= <[watched.(wd_Address) := f.(fo_latest) - scanOverlap]> |>).

Definition recently_viewed (watched : watchedAddress) (now : Z) : bool :=
  match watched.(wd_ViewedAt) with Some t => now - t <? recentlyViewed | None => false end.

Definition skips (watched : watchedAddress) (now : Z) (s : Watcher W) : bool :=
  match s.(w_nextCheck) !! watched.(wd_Address) with
  | Some next => negb (recently_viewed watched now) && (now <? next)
  | None => false
  end.

(** The index is one the wallet has, and the address is the wallet's. *)
Definition ours (watched : watchedAddress) : bool :=
  negb ((watched.(wd_Index) <? 1) || (2 ^ 31 <=? watched.(wd_Index)))
  && match walletAddress (Z.to_N watched.(wd_Index)) with inr derived => derived =?s watched.(wd_Address) | inl _ => false end.

Definition visit (now : Z) (watched : watchedAddress) : M (Watcher W) string unit :=
  if negb (ours watched) then mret tt
  else
    s ← gets Datatypes.id;
    if skips watched now s then mret tt
    else
      done ← attempt (checkAddress watched now);
      match done with
      | None => mret tt
      | Some _ => modify (λ s, s <| w_nextCheck ::= <[watched.(wd_Address) := now + idleCheckEvery]> |>)
      end.

Definition cycle (now : Z) : M (Watcher W) string unit :=
  addresses ← call watchList;
  for_each (visit now) addresses.
End watcher.

(** ** internal/httpapi/wallet.go *)

Definition maxWatchedDeposits : Z := 5000.

Definition paymentsRequestID : string := "virtroid-payments".

Record PaymentsConfig := MkPaymentsConfig { pc_TronDepositXPub : string; pc_PaymentsPublicKey : string }.

Section handlers.
Context `{Base58} `{Curve} `{!HDKeys} `{Signatures}.
Variable cfg : PaymentsConfig.

Definition depositKey : option DepositKey :=
  if TrimSpace cfg.(pc_TronDepositXPub) =?s "" then None
  else match ParseDepositXPub cfg.(pc_TronDepositXPub) with inr key => Some key | inl _ => None end.

Definition requirePaymentsRequest (now : Z) (r : Request) : Handler DepositKey :=
  deposits ← require depositKey (404, "payments_disabled"%string);
  refuse_if (TrimSpace cfg.(pc_PaymentsPublicKey) =?s "") (404, "payments_disabled"%string);;
  requireServiceRequest now r paymentsRequestID cfg.(pc_PaymentsPublicKey);;
  mret deposits.

Definition watch_entries (deposits : DepositKey) (watched : list DepositWatch) : Refusal + list watchedAddress :=
  foldr (λ watch rest,
    match DepositAddress deposits (Z.to_N (watch.(dw_index) mod 2 ^ 32)), rest with
    | inr address, inr entries =>
      inr (MkWatched watch.(dw_index) address ((λ t, t * 1000) <$> watch.(dw_viewed_at)) :: entries)
    | inr _, inl e => inl e
    | inl _, _ => inl (500, "deposit_address_failed"%string)
    end) (inr []) watched.

Definition paymentsWatchList (now : Z) (r : Request) : Handler (list watchedAddress) :=
  deposits ← requirePaymentsRequest now r;
  a ← gets Datatypes.id;
  match watch_entries deposits (DepositWatchList maxWatchedDeposits a.(api_db)) with inl e => throw e | inr entries => mret entries end.

(** [request] is the decoded body. *)
Definition paymentsDeposit (now : Z) (r : Request) (request : option depositReport) : Handler bool :=
  deposits ← requirePaymentsRequest now r;
  request ← require request (400, "invalid_deposit"%string);
  let txID := ToLower (TrimSpace request.(dr_TxID)) in
  refuse_if (negb (valid_tx_id txID) || (request.(dr_AmountMicro) <=? 0) || (request.(dr_BlockTime) =? zero_time)
             || (request.(dr_Index) <? 1) || (2 ^ 31 - 1 <? request.(dr_Index))) (400, "invalid_deposit"%string);;
  match DepositAddress deposits (Z.to_N (request.(dr_Index) mod 2 ^ 32)) with
  | inl _ => throw (400, "deposit_address_mismatch"%string)
  | inr expected =>
    refuse_if (negb (expected =?s TrimSpace request.(dr_Address))) (400, "deposit_address_mismatch"%string);;
    store_call (CreditDeposit now (MkDepositCredit txID expected request.(dr_Index) request.(dr_AmountMicro)
                                     (request.(dr_BlockTime) / 1000)))
      (λ e, match e with ErrDepositAccountNotFound => (404, "deposit_account_not_found"%string)
                       | _ => internal_error "deposit_credit_failed" end)
  end.

(** The wallet as the app shows it: the address, and what the store keeps. *)
Definition getMyWallet (now : Z) (r : Request) : Handler (string * Wallet.Wallet) :=
  '(accountID, _, _) ← requireSignedDeviceRequest now r;
  deposits ← require depositKey (404, "wallet_unavailable"%string);
  wallet ← store_call (AccountWallet now accountID)
    (λ e, match e with ErrAccountNotFound => (404, "account_not_found"%string) | _ => internal_error "wallet_lookup_failed" end);
  match DepositAddress deposits (Z.to_N (wallet.(wl_deposit_index) mod 2 ^ 32)) with
  | inl _ => throw (internal_error "deposit_address_failed")
  | inr address => mret (address, wallet)
  end.

(** ** The payments service against this control plane *)

(** The world: the control plane's state, and the rest, [R], which holds the
    transfer source, the clock and what requests are made of; the second node
    answers the same every time. *)
Section deployed.
Context {R : Type}.
Variables (grid : string → Z → Svc R (list usdtTransfer)) (node : string → option txInfo) (clock : R → Z).
(** [httpControlPlane.do]: the request it makes, with its time and nonce. *)
Variable sign : string → R → R * Request.

Definition World : Type := Api * R.

(** The answer of a handler to a request; a status of 300 or more is an error. *)
Definition do_request {A} (path : string) (h : Z → Request → Handler A) : Svc World A := λ w,
  let '(rest, request) := sign path w.2 in
  match h (clock rest) request w.1 with
  | (api, inr a) => ((api, rest), inr a)
  | (api, inl refusal) => ((api, rest), inl ("status " +:+ fmt_d refusal.1 +:+ " " +:+ refusal.2))
  end.

(** [httpControlPlane.watchList]. *)
Definition http_watchList : Svc World (list watchedAddress) :=
  addresses ← do_request "/api/v1/internal/payments/watch" paymentsWatchList;
  refuse_if (negb (forallb (λ watched, ValidAddress watched.(wd_Address)) addresses))
    "the control plane listed an invalid address"%string;;
  mret addresses.
(** [httpControlPlane.reportDeposit]. *)
Definition http_reportDeposit (report : depositReport) : Svc World bool :=
  do_request "/api/v1/internal/payments/deposits" (λ now r, paymentsDeposit now r (Some report)).

Definition deployed_services : WatchServices World := {|
  watchList := http_watchList;
  reportDeposit := http_reportDeposit;
  listTransfers address since := λ w, let '(r, answer) := grid address since w.2 in ((w.1, r), answer);
  verifyTransfer := node_verifyTransfer (λ txID w, (w, match node txID with
                                                       | Some info => inr info
                                                       | None => inl "unavailable"%string
                                                       end)) |}.
End deployed.
End handlers.

(** ** Facts *)

(** *** Grouping transfers *)

(** The first occurrences, in order. *)
Fixpoint first_seen (l : list string) : list string :=
  match l with
  | [] => []
  | x :: l' => x :: List.filter (λ y, negb (y =?s x)) (first_seen l')
  end.

Definition paying (address : string) (transfers : list usdtTransfer) : list usdtTransfer :=
  List.filter (λ t, t.(ut_To) =?s address) transfers.
Definition paid_in (txID : string) (transfers : list usdtTransfer) : Z :=
  foldr (λ t acc, (if t.(ut_TxID) =?s txID then t.(ut_AmountMicro) else 0) + acc) 0 transfers.

(** What the address was paid: each transaction once, with all it pays. *)
Definition payments (address : string) (transfers : list usdtTransfer) : list (string * Z) :=
  (λ txID, (txID, wrap64 (paid_in txID (paying address transfers)))) <$> first_seen (ut_TxID <$> paying address transfers).
Definition latest_block (since : Z) (transfers : list usdtTransfer) : Z :=
  foldr (λ t acc, Z.max t.(ut_BlockTime) acc) since transfers.

Lemma first_seen_elem l x : x ∈ first_seen l ↔ x ∈ l.
Proof.
  revert x. induction l as [|y l IH]; intros x; cbn [first_seen]; [done|]. rewrite !elem_of_cons, list_elem_of_In, filter_In, <-list_elem_of_In, IH.
  rewrite negb_true_iff, str_eqb_neq. destruct (decide (x = y)); naive_solver.
Qed.

Lemma first_seen_snoc l x : first_seen (l ++ [x]) = if decide (x ∈ l) then first_seen l else first_seen l ++ [x].
Proof.
  induction l as [|y l IH]; [done|]. cbn [app first_seen]. rewrite IH.
  destruct (decide (x ∈ l)) as [Hx|Hx], (decide (x ∈ y :: l)) as [Hy|Hy]; try done; try set_solver.
  - assert (x = y) as -> by set_solver. rewrite List.filter_app. cbn. rewrite str_eqb_refl. cbn. by rewrite app_nil_r.
  - rewrite List.filter_app. cbn. assert (x ≠ y) by set_solver. rewrite (proj2 (str_eqb_neq x y)) by done. done.
Qed.

Lemma first_seen_NoDup l : NoDup (first_seen l).
Proof.
  induction l as [|x l IH]; cbn [first_seen]; constructor.
  - rewrite list_elem_of_In, filter_In, str_eqb_refl. by intros [_ ?].
  - apply NoDup_ListNoDup, List.NoDup_filter, NoDup_ListNoDup, IH.
Qed.

Lemma paid_in_snoc txID l t : paid_in txID (l ++ [t]) = paid_in txID l + (if t.(ut_TxID) =?s txID then t.(ut_AmountMicro) else 0).
Proof. unfold paid_in. induction l as [|t' l IH]; cbn [app foldr]; [lia | rewrite IH; lia]. Qed.

Lemma wrap64_add a b : wrap64 (wrap64 a + b) = wrap64 (a + b).
Proof.
  unfold wrap64. replace ((a + 2 ^ 63) mod 2 ^ 64 - 2 ^ 63 + b + 2 ^ 63) with ((a + 2 ^ 63) mod 2 ^ 64 + b) by lia.
  rewrite Zplus_mod_idemp_l. do 2 f_equal. lia.
Qed.

Lemma paid_in_absent txID l : txID ∉ (ut_TxID <$> l) → paid_in txID l = 0.
Proof.
  unfold paid_in. induction l as [|t l IH]; intros H; [done|]. cbn [foldr fmap list_fmap] in *.
  rewrite (proj2 (str_eqb_neq _ _)) by set_solver. rewrite IH by set_solver. lia.
Qed.

(** The loop collects exactly that. *)
Definition found_spec (address : string) (since : Z) (transfers : list usdtTransfer) (f : Found) : Prop :=
  f.(fo_order) = first_seen (ut_TxID <$> paying address transfers)
  ∧ (∀ txID, f.(fo_totals) !! txID = if decide (txID ∈ (ut_TxID <$> paying address transfers))
                                     then Some (wrap64 (paid_in txID (paying address transfers))) else None)
  ∧ f.(fo_latest) = latest_block since (paying address transfers).

Lemma latest_snoc since l t : latest_block since (l ++ [t]) = Z.max t.(ut_BlockTime) (latest_block since l).
Proof. unfold latest_block. induction l as [|t' l IH]; cbn [app foldr]; [lia | rewrite IH; lia]. Qed.

Lemma found_ok address since transfers : found_spec address since transfers (found address since transfers).
Proof.
  unfold found. induction transfers as [|t l IH] using rev_ind; [split_and!; [done | intros txID; done | done]|].
  rewrite foldl_snoc. destruct IH as (Ho & Ht & Hl). unfold add_transfer at 1, found_spec.
  assert (Hp : paying address (l ++ [t]) = if t.(ut_To) =?s address then paying address l ++ [t] else paying address l).
  { unfold paying. rewrite List.filter_app. cbn. destruct (_ =?s _); [done | by rewrite app_nil_r]. }
  rewrite Hp. destruct (t.(ut_To) =?s address); cbn [negb]; [|by split_and!].
  set (f := foldl _ _ l) in *. cbn [fo_order fo_totals fo_latest]. rewrite fmap_app. cbn [fmap list_fmap].
  rewrite first_seen_snoc, (Ht t.(ut_TxID)). split_and!.
  - destruct (decide _); by rewrite Ho.
  - intros txID. rewrite paid_in_snoc. destruct (decide (t.(ut_TxID) = txID)) as [<-|Hne].
    + rewrite lookup_insert_eq, str_eqb_refl.
      destruct (decide (ut_TxID t ∈ (ut_TxID <$> paying address l) ++ [ut_TxID t])) as [_|Hn];
        [|exfalso; apply Hn, elem_of_app; right; by left]. f_equal.
      destruct (decide (ut_TxID t ∈ _)) as [Hin|Hin]; cbn [default].
      * apply wrap64_add.
      * rewrite paid_in_absent by done. done.
    + rewrite lookup_insert_ne, Ht by done. rewrite (proj2 (str_eqb_neq _ _) Hne), Z.add_0_r.
      destruct (decide (txID ∈ ut_TxID <$> paying address l)) as [H1|H1],
        (decide (txID ∈ (ut_TxID <$> paying address l) ++ [ut_TxID t])) as [H2|H2]; try done; exfalso.
      * apply H2, elem_of_app. by left.
      * apply elem_of_app in H2 as [H2|H2%list_elem_of_singleton]; [done | congruence].
  - rewrite latest_snoc, Hl. destruct (Z.ltb_spec (latest_block since (paying address l)) t.(ut_BlockTime)); lia.
Qed.

(** *** The watcher *)

(** Verify and report payments, one after the other. *)
Definition report_one {W} `{WatchServices W} (watched : watchedAddress) (p : string * Z) : Svc W unit :=
  blockTime ← verifyTransfer p.1 watched.(wd_Address) p.2;
  credited ← reportDeposit (MkReport p.1 watched.(wd_Address) watched.(wd_Index) p.2 blockTime);
  mret tt.
Definition report_each {W} `{WatchServices W} (watched : watchedAddress) (l : list (string * Z)) : Svc W unit :=
  for_each (report_one watched) l.

Lemma call_run {W A} (svc : Svc W A) s : call svc s = (s <| w_world := (svc s.(w_world)).1 |>, (svc s.(w_world)).2).
Proof. unfold call. by destruct (svc s.(w_world)). Qed.

Lemma call_bind {W A B} (svc : Svc W A) (f : A → Svc W B) s :
  call (svc ≫= f) s = (call svc ≫= λ a, call (f a)) s.
Proof.
  unfold mbind, M_bind. rewrite !call_run. cbn. destruct (svc (w_world s)) as [w [e|a]]; [done|]. cbn.
  rewrite call_run. cbn. by destruct (f a w).
Qed.

Lemma report_found_one {W} `{WatchServices W} watched totals txID s :
  report_found watched totals txID s = call (report_one watched (txID, default 0 (totals !! txID))) s.
Proof.
  unfold report_found, report_one. cbv zeta. rewrite call_bind. apply bind_ext; [done|]. intros t s'. rewrite call_bind.
  apply bind_ext; [done|]. intros b s''. by destruct s''.
Qed.

Lemma report_found_each {W} `{WatchServices W} watched totals l s :
  for_each (report_found watched totals) l s
  = call (report_each watched ((λ txID, (txID, default 0 (totals !! txID))) <$> l)) s.
Proof.
  unfold report_each. revert s. induction l as [|txID l IH]; intros s; [by destruct s|].
  cbn [fmap list_fmap]. rewrite for_each_cons.
  transitivity ((call (report_one watched (txID, default 0 (totals !! txID)))
    ≫= λ _, call (for_each (report_one watched) ((λ txID, (txID, default 0 (totals !! txID))) <$> l))) s).
  - apply bind_ext; [apply report_found_one | intros _ s'; apply IH].
  - rewrite <-call_bind. unfold call. by rewrite (for_each_cons (report_one watched)).
Qed.

Lemma checkAddress_run {W} `{WatchServices W} watched now s :
  let a := watched.(wd_Address) in
  let since := default (now - firstScanWindow) (s.(w_scanned) !! a) in
  checkAddress watched now s =
  match call (listTransfers a since) s with
  | (s1, inl e) => (s1, inl e)
  | (s1, inr transfers) =>
    match call (report_each watched (payments a transfers)) s1 with
    | (s2, inl e) => (s2, inl e)
    | (s2, inr _) => (s2 <| w_scanned ::= <[a := latest_block since (paying a transfers) - scanOverlap]> |>, inr tt)
    end
  end.
Proof.
  intros a since. unfold checkAddress. unfold mbind at 1, M_bind at 1, gets, Datatypes.id. fold a.
  change (from_option (λ x : Z, x) (now - firstScanWindow) (w_scanned s !! a)) with since.
  unfold mbind at 1, M_bind at 1. destruct (call (listTransfers a since) s) as [s1 [e|transfers]]; [done|].
  destruct (found_ok a since transfers) as (Ho & Ht & Hl). unfold mbind at 1, M_bind at 1. rewrite report_found_each.
  assert ((λ txID, (txID, default 0 (fo_totals (found a since transfers) !! txID))) <$> fo_order (found a since transfers)
          = payments a transfers) as ->.
  { unfold payments. rewrite Ho. apply list_fmap_ext. intros i txID Hi%list_elem_of_lookup_2. rewrite first_seen_elem in Hi.
    rewrite Ht, decide_True by done. done. }
  rewrite Hl. by destruct (call (report_each _ _) s1) as [s2 [e|[]]].
Qed.

(** *** What is credited *)

(** A relation seen through a function. *)
Definition seen_by {A B} (f : A → B) (R : relation B) : relation A := λ x y, R (f x) (f y).
#[export] Instance seen_by_preorder {A B} (f : A → B) (R : relation B) `{!PreOrder R} : PreOrder (seen_by f R).
Proof. split; unfold seen_by; [intros ?; reflexivity | intros ???; apply transitivity]. Qed.

(** The accounts stay, and a deposit is an old one or one that [P] allows. *)
Definition new_deposits (P : gmap string Account → string * string → Deposit → Prop) : relation Db := λ db db',
  db'.(db_accounts) = db.(db_accounts)
  ∧ ∀ k d, db'.(db_deposits) !! k = Some d → db.(db_deposits) !! k = Some d ∨ P db.(db_accounts) k d.
#[export] Instance new_deposits_preorder P : PreOrder (new_deposits P).
Proof.
  split; [by intros db; split; [|left]|]. intros db1 db2 db3 [E1 H1] [E2 H2]. split; [congruence|].
  intros k d [Hk|Hk]%H2; [by apply H1 | right; by rewrite <-E1].
Qed.
Lemma new_deposits_same P db db' :
  db'.(db_accounts) = db.(db_accounts) → db'.(db_deposits) = db.(db_deposits) → new_deposits P db db'.
Proof. intros Ea Ed. split; [done|]. intros k d. rewrite Ed. by left. Qed.
Lemma new_deposits_mono (P Q : gmap string Account → string * string → Deposit → Prop) db db' :
  (∀ k d, P db.(db_accounts) k d → Q db.(db_accounts) k d) → new_deposits P db db' → new_deposits Q db db'.
Proof. intros HPQ [E H]. split; [done|]. intros k d [?|?]%H; [by left | right; by apply HPQ]. Qed.

Lemma nonce_frame now id n e db : let db' := (RememberNodeRequestNonce now id n e db).1 in
  db'.(db_accounts) = db.(db_accounts) ∧ db'.(db_deposits) = db.(db_deposits).
Proof.
  cbv zeta. pose (f := λ db, (db.(db_accounts), db.(db_deposits))).
  assert (Hs : stable (same f) (RememberNodeRequestNonce now id n e)).
  { unfold RememberNodeRequestNonce. stable_steps. all: done. }
  specialize (Hs db). unfold same, f in Hs. by injection Hs as <- <-.
Qed.

(** Crediting adds the transfer, to an account that owns the index. *)
Lemma CreditDeposit_new now dep db :
  wp (CreditDeposit now dep)
    (λ _, new_deposits (λ accounts k d, k = deposit_key dep ∧ ∃ account, accounts !! d.(de_account_id) = Some account
            ∧ account.(ac_deposit_index) = Some dep.(dc_index) ∧ 0 < d.(de_amount_micro) ∧ d.(de_amount_micro) = dep.(dc_amount_micro)) db)
    (λ _ db', db' = db) db.
Proof.
  eapply wp_mono; [apply CreditDeposit_run | | by intros e db' [-> _]].
  intros [] db' (id & Ho & [Hpos _] & Hcase); [|destruct Hcase as [-> _]; by apply new_deposits_same].
  destruct Hcase as [_ ->]. unfold deposit_owner in Ho. destruct (head _) as [[id' acc]|] eqn:Hh; [|done]. injection Ho as <-.
  apply head_Some_elem_of, elem_of_select in Hh as [Hacc [Hown%bool_decide_eq_true _]%andb_true_iff].
  match goal with |- new_deposits _ _ (end_trial _ ?i ?d).1 => destruct (credited_frame now i d) as (Ea & _ & Ed) end.
  split; [by rewrite Ea|]. intros k d. rewrite Ed. cbn. intros [[<- <-]|[_ Hk]]%lookup_insert_Some; [right | by left].
  split; [done|]. exists acc. split_and!; done.
Qed.

Section credited.
Context `{Base58} `{Curve} `{!HDKeys} `{Signatures}.
Variable cfg : PaymentsConfig.

(** The deposit a report asks for, on an account that owns the address. *)
Definition reported (report : depositReport) (accounts : gmap string Account) (k : string * string) (d : Deposit) : Prop :=
  ∃ deposits account, depositKey cfg = Some deposits ∧ k = (ToLower (TrimSpace report.(dr_TxID)), TrimSpace report.(dr_Address))
    ∧ DepositAddress deposits (Z.to_N report.(dr_Index)) = inr k.2 ∧ 1 <= report.(dr_Index) < 2 ^ 31
    ∧ accounts !! d.(de_account_id) = Some account ∧ account.(ac_deposit_index) = Some report.(dr_Index)
    ∧ 0 < d.(de_amount_micro) ∧ d.(de_amount_micro) = report.(dr_AmountMicro).

Lemma requirePaymentsRequest_wp now r s :
  let kept := λ s', (s'.(api_db)).(db_accounts) = (s.(api_db)).(db_accounts) ∧ (s'.(api_db)).(db_deposits) = (s.(api_db)).(db_deposits) in
  wp (requirePaymentsRequest cfg now r) (λ deposits s', depositKey cfg = Some deposits ∧ kept s') (λ _, kept) s.
Proof.
  intros kept. unfold requirePaymentsRequest. wp_steps; try done.
  pose proof (service_accepted paymentsRequestID cfg.(pc_PaymentsPublicKey) now r s) as Hs. unfold authenticate in Hs.
  eapply wp_mono; [exact Hs | | unfold kept; by intros e s' ->].
  intros body s' (ts & db1 & db2 & _ & _ & _ & _ & (_ & _ & _ & ->) & Hacc & Hdb). wp_steps. split; [done|].
  unfold accept, request_of in Hacc. pose proof (nonce_frame now paymentsRequestID (header_of r "X-Virtroid-Node-Nonce")
    (unix_time ts + max_skew) s.(api_db)) as Hf. rewrite Hacc in Hf. unfold kept. by rewrite Hdb.
Qed.

Lemma paymentsDeposit_reports now r report s :
  let R := new_deposits (reported report) s.(api_db) in
  wp (paymentsDeposit cfg now r (Some report)) (λ _ s', R s'.(api_db)) (λ _ s', R s'.(api_db)) s.
Proof.
  intros R. unfold paymentsDeposit. rewrite wp_bind.
  assert (HR : ∀ s' : Api, (s'.(api_db)).(db_accounts) = (s.(api_db)).(db_accounts) ∧
    (s'.(api_db)).(db_deposits) = (s.(api_db)).(db_deposits) → R s'.(api_db)) by (intros s' [??]; by apply new_deposits_same).
  eapply wp_mono; [apply requirePaymentsRequest_wp | | intros e s'; apply HR]. intros deposits s1 [Hk Hs1].
  wp_steps; try by apply HR. match goal with Hr : Some report = Some _ |- _ => injection Hr as <- end.
  match goal with Hg : _ || _ = false |- _ => rewrite !orb_false_iff in Hg; destruct Hg as [[[[Htx Hpos] Ht] Hlow] Hhigh] end.
  apply Z.ltb_ge in Hlow, Hhigh. apply Z.leb_gt in Hpos. rewrite Z.mod_small by lia.
  destruct (DepositAddress deposits (Z.to_N (dr_Index report))) as [|expected] eqn:Haddr; [by apply HR|].
  wp_steps; try by apply HR.
  match goal with Hg : negb (expected =?s _) = false |- _ => apply negb_false_iff, str_eqb_eq in Hg; subst expected end.
  apply wp_store_call. eapply wp_mono; [apply CreditDeposit_new | | intros e db' ->; by apply HR].
  intros fresh db' Hnew. unfold R. transitivity s1.(api_db); [by apply (HR s1)|]. revert Hnew. apply new_deposits_mono.
  intros k d (-> & account & ? & ? & ? & ?). exists deposits, account. unfold deposit_key.
  cbn [dc_tx_id dc_address dc_index dc_amount_micro snd] in *.
  rewrite ToLower_idemp. split_and!; try done; lia.
Qed.

(** *** The service and the control plane together *)

Context {R : Type}.
Variables (grid : string → Z → Svc R (list usdtTransfer)) (node : string → option txInfo) (clock : R → Z).
Variables (sign : string → R → R * Request) (walletAddress : N → tron_error + string).
#[local] Instance services : WatchServices World := deployed_services cfg grid node clock sign.

(** A deposit on the account that owns the address, which is the wallet's and
    the control plane's own, of an amount the second node finds in its record. *)
Definition confirmed (accounts : gmap string Account) (k : string * string) (d : Deposit) : Prop :=
  ∃ txID address info blockTime deposits account i,
    k = (ToLower (TrimSpace txID), TrimSpace address)
    ∧ node txID = Some info ∧ check_transfer info txID address d.(de_amount_micro) = inr blockTime
    ∧ accounts !! d.(de_account_id) = Some account ∧ account.(ac_deposit_index) = Some i ∧ 0 < d.(de_amount_micro)
    ∧ walletAddress (Z.to_N i) = inr address
    ∧ depositKey cfg = Some deposits ∧ DepositAddress deposits (Z.to_N i) = inr (TrimSpace address).

Definition db_of (w : World (R:=R)) : Db := w.1.(api_db).
Notation only_confirmed := (seen_by db_of (new_deposits confirmed)).

Lemma do_request_stable {A} path (h : Z → Request → Handler A) P :
  (∀ now r s, new_deposits P s.(api_db) (h now r s).1.(api_db)) →
  stable (seen_by db_of (new_deposits P)) (do_request clock sign path h).
Proof.
  intros Hh w. unfold seen_by, db_of, do_request. destruct (sign path w.2) as [rest request].
  specialize (Hh (clock rest) request w.1). by destruct (h (clock rest) request w.1) as [api [e|a]].
Qed.

Lemma watchList_stable : stable only_confirmed watchList.
Proof.
  cbn. unfold http_watchList. stable_steps. apply do_request_stable. intros now r s.
  apply (stable_of_wp (seen_by api_db (new_deposits confirmed))). clear s. intros s. unfold paymentsWatchList. rewrite wp_bind.
  eapply wp_mono; [apply requirePaymentsRequest_wp | | intros e s' [??]; by apply new_deposits_same].
  intros deposits s' [_ [??]]. wp_steps. destruct (watch_entries _ _); wp_steps; by apply new_deposits_same.
Qed.

Lemma listTransfers_stable address since : stable only_confirmed (listTransfers address since).
Proof. intros w. cbn. destruct (grid address since w.2). by apply new_deposits_same. Qed.

Lemma reportDeposit_stable report : stable (seen_by db_of (new_deposits (reported report))) (reportDeposit report).
Proof.
  cbn. apply do_request_stable. intros now r s. pose proof (paymentsDeposit_reports now r report s) as Hw. unfold wp in Hw.
  by destruct (paymentsDeposit cfg now r (Some report) s) as [s' [e|b]].
Qed.

(** What is reported has been found on the second node. *)
Lemma report_one_stable watched p : ours walletAddress watched = true → stable only_confirmed (report_one watched p).
Proof.
  intros [_ Hours]%andb_true_iff w. destruct (walletAddress _) as [|derived] eqn:Hd; [done|]. apply str_eqb_eq in Hours. subst derived.
  unfold report_one, mbind, M_bind. cbn [verifyTransfer services deployed_services]. unfold node_verifyTransfer, mbind, M_bind.
  destruct (node p.1) as [info|] eqn:Hnode; [|reflexivity].
  destruct (check_transfer info p.1 (wd_Address watched) p.2) as [e|blockTime] eqn:Hcheck; [reflexivity|].
  cbn [mret M_ret].
  set (report := MkReport p.1 watched.(wd_Address) watched.(wd_Index) p.2 blockTime).
  pose proof (reportDeposit_stable report w) as Hrep. unfold seen_by in *.
  assert (Hnew : new_deposits confirmed (db_of w) (db_of (reportDeposit report w).1)).
  { revert Hrep. apply new_deposits_mono. intros k d (deposits & account & Hk & Hkey & Haddr & Hi & Hacc & Hidx & Hpos & Ham).
    exists p.1, watched.(wd_Address), info, blockTime, deposits, account, watched.(wd_Index).
    rewrite Ham. subst k. split_and!; try done. by rewrite Ham in Hpos. }
  by destruct (reportDeposit report w) as [w' [e|b]].
Qed.

Lemma call_stable {A} (svc : Svc World A) : stable only_confirmed svc → stable (seen_by w_world only_confirmed) (call svc).
Proof. intros Hs s. unfold seen_by at 1. rewrite call_run. cbn. apply Hs. Qed.

Lemma attempt_stable {S E A} (Rel : relation S) (m : M S E A) : stable Rel m → stable Rel (attempt m).
Proof. intros Hm s. specialize (Hm s). unfold attempt. by destruct (m s) as [s' [e|a]]. Qed.

Lemma checkAddress_stable watched now :
  ours walletAddress watched = true → stable (seen_by w_world only_confirmed) (checkAddress watched now).
Proof.
  intros Ho s. rewrite checkAddress_run. cbv zeta.
  match goal with |- context [call (listTransfers ?a ?t) s] =>
    pose proof (call_stable _ (listTransfers_stable a t) s) as Hl; destruct (call (listTransfers a t) s) as [s1 [e|transfers]]; [done|] end.
  pose proof (call_stable _ (stable_for _ _ (payments watched.(wd_Address) transfers) (λ p, report_one_stable watched p Ho)) s1) as Hr.
  fold (report_each watched (payments watched.(wd_Address) transfers)) in Hr.
  destruct (call (report_each _ _) s1) as [s2 [e|u]]; cbn in *; by transitivity s1.
Qed.

Lemma cycle_stable now : stable (seen_by w_world only_confirmed) (cycle walletAddress now).
Proof.
  unfold cycle. apply stable_bind; [apply _ | apply call_stable, watchList_stable|]. intros addresses. apply stable_for; [apply _|].
  intros watched. unfold visit. destruct (ours walletAddress watched) eqn:Ho; cbn [negb]; [|stable_steps].
  apply stable_bind; [apply _ | stable_steps|]. intros s.
  apply stable_if; intros _; [stable_steps|]. apply stable_bind; [apply _ | by apply attempt_stable, checkAddress_stable|].
  intros [u|]; stable_steps. by apply new_deposits_same.
Qed.

(** Cycles, one after the other; what a cycle fails with is logged. *)
Definition run_cycles (nows : list Z) (s : Watcher World) : Watcher World :=
  foldl (λ s now, (cycle walletAddress now s).1) s nows.

Lemma run_cycles_confirmed nows s : new_deposits confirmed (db_of s.(w_world)) (db_of (run_cycles nows s).(w_world)).
Proof.
  revert s. induction nows as [|now nows IH]; intros s; cbn [run_cycles foldl]; [reflexivity|].
  transitivity (db_of (cycle walletAddress now s).1.(w_world)); [apply cycle_stable | apply IH].
Qed.
End credited.

(** ** Theorems *)

(** A check of an address asks for the transfers since the last scan less
    an hour (a month back the first time), then verifies and reports each
    transaction that pays the address exactly once, in the order of the list,
    with the sum of its transfers to the address; on success the next scan starts
    an hour before the latest block seen, and on any error the scan position and
    the schedule stay, so the next cycle repeats the check. *)
Theorem checkAddress_reports {W} `{WatchServices W} watched now (s : Watcher W) :
  let a := watched.(wd_Address) in
  let since := default (now - firstScanWindow) (s.(w_scanned) !! a) in
  checkAddress watched now s =
  (match listTransfers a since s.(w_world) with
   | (w1, inl e) => (MkWatcher s.(w_scanned) s.(w_nextCheck) w1, inl e)
   | (w1, inr transfers) =>
     match report_each watched (payments a transfers) w1 with
     | (w2, inl e) => (MkWatcher s.(w_scanned) s.(w_nextCheck) w2, inl e)
     | (w2, inr _) => (MkWatcher (<[a := latest_block since (paying a transfers) - scanOverlap]> s.(w_scanned)) s.(w_nextCheck) w2, inr tt)
     end
   end)
  ∧ ∀ transfers, NoDup (payments a transfers).*1
    ∧ ∀ txID, txID ∈ (payments a transfers).*1 ↔ ∃ t, t ∈ transfers ∧ t.(ut_To) = a ∧ t.(ut_TxID) = txID.
Proof.
  intros a since. split.
  - rewrite checkAddress_run. fold a since. rewrite call_run. destruct (listTransfers a since (w_world s)) as [w1 [e|transfers]]; [done|].
    cbn. rewrite call_run. cbn. by destruct (report_each watched (payments a transfers) w1) as [w2 [e|u]].
  - intros transfers. assert (E : (payments a transfers).*1 = first_seen (ut_TxID <$> paying a transfers)).
    { unfold payments. rewrite <-list_fmap_compose. apply list_fmap_id. }
    rewrite E. split; [apply first_seen_NoDup|]. intros txID. rewrite first_seen_elem, list_elem_of_fmap. unfold paying.
    split; [intros (t & -> & [Hin Ht]%list_elem_of_In%filter_In) | intros (t & Hin & Ht & <-)]; exists t; split_and!; try done.
    + by apply list_elem_of_In.
    + by apply str_eqb_eq.
    + apply list_elem_of_In, filter_In. split; [by apply list_elem_of_In | by apply str_eqb_eq].
Qed.

(** C4: however many cycles the payments service runs against the control plane
    and whatever the transfer source answers, every deposit it adds is credited to
    the account that owns the address's index, the address is both the one the
    service's seed derives and the one the control plane derives for it, and the
    amount is what the second node's record of the transaction shows as paid in
    USDT to that address: the transfer source alone cannot invent a deposit. *)
Theorem credited_deposits_confirmed `{Base58} `{Curve} `{!HDKeys} `{Signatures} cfg {R} (grid : string → Z → Svc R (list usdtTransfer))
    node clock sign walletAddress nows (s : Watcher World) k d :
  (db_of (run_cycles cfg grid node clock sign walletAddress nows s).(w_world)).(db_deposits) !! k = Some d →
  (db_of s.(w_world)).(db_deposits) !! k = Some d
  ∨ confirmed cfg node walletAddress (db_of s.(w_world)).(db_accounts) k d.
Proof. intros Hd. by destruct (run_cycles_confirmed cfg grid node clock sign walletAddress nows s) as [_ Hn]; apply Hn. Qed.

(** ** Witnesses *)

Definition sample_txid : string := of_bytes (repeat "a"%char 64).
Definition sample_payments : PaymentsConfig := MkPaymentsConfig sample_xpub sample_material.
Definition sample_grid (address : string) (since : Z) : Svc nat (list usdtTransfer) :=
  mret [MkTransfer sample_txid sample_deposit 1000000 (of_UnixMilli 5000); MkTransfer sample_txid sample_deposit 500000 (of_UnixMilli 5000)].
Definition sample_topic : string :=
  match @AddressBytes base58.check sample_deposit with inr recipient => topic_of recipient | inl _ => "" end.
Definition sample_entry (data : string) : txLog :=
  MkLog (hex_encode (drop 1 (@usdt_bytes base58.check))) [transferEventTopic; sample_topic; sample_topic] data.
(** 1000000 and 500000 in hexadecimal. *)
Definition sample_info : txInfo :=
  MkInfo sample_txid 5000 (hex_encode (@usdt_bytes base58.check)) "SUCCESS" [sample_entry "0f4240"; sample_entry "07a120"].
Definition sample_sign (path : string) (n : nat) : nat * Request :=
  (S n, default sample_service_request
          (@ApplySignedHeaders toy_signatures [] sample_service_request "K"%char "virtroid-payments" [] "" "" "1000" (fmt_d (Z.of_nat n)))).
Definition sample_watcher : Watcher (World (R:=nat)) :=
  newWatcher (MkApi (empty_db <| db_accounts := {["a" := default_account 0 <| ac_deposit_index := Some 3 |>]} |>)
                    (newByteBudget signedBodyBudgetBytes signedBodyAccountBudgetBytes), O).
Definition sample_run : Watcher (World (R:=nat)) :=
  @run_cycles base58.check toy_curve toy_hd toy_signatures sample_payments nat sample_grid (λ _, Some sample_info) (λ _, sample_now) sample_sign
    (@WalletAddress base58.check toy_curve toy_hd sample_wallet) [0; recentlyViewed] sample_watcher.

Lemma credited_deposits_confirmed_witness :
  ∃ d, (db_of sample_run.(w_world)).(db_deposits) !! (sample_txid, sample_deposit) = Some d ∧ d.(de_amount_micro) = 1500000
    ∧ @confirmed base58.check toy_curve toy_hd sample_payments (λ _, Some sample_info)
        (@WalletAddress base58.check toy_curve toy_hd sample_wallet) (db_of sample_watcher.(w_world)).(db_accounts)
        (sample_txid, sample_deposit) d.
Proof.
  assert (E : ∃ d, (db_of sample_run.(w_world)).(db_deposits) !! (sample_txid, sample_deposit) = Some d ∧ d.(de_amount_micro) = 1500000)
    by (eexists; split; vm_compute; reflexivity).
  destruct E as (d & Hd & Ha). exists d. split; [exact Hd|]. split; [exact Ha|].
  destruct (@credited_deposits_confirmed base58.check toy_curve toy_hd toy_signatures sample_payments nat sample_grid (λ _, Some sample_info)
    (λ _, sample_now) sample_sign (@WalletAddress base58.check toy_curve toy_hd sample_wallet) [0; recentlyViewed] sample_watcher
    (sample_txid, sample_deposit) d Hd) as [Hold|Hc]; [discriminate Hold | exact Hc].
Defined.
