(* ===== verification/Treasury.v ===== *)
(** * The treasury

    Models cmd/virtroid-payments/treasury.go, treasury_chain.go,
    treasury_config.go, the types of simpleswap.go and aleph_credits.go's ETH
    balance: sweeping deposits into the wallet's address 0, and swapping USDT
    there into TRX, Siacoin and ETH within the caps.

    The Go interfaces the treasury is built from ([treasuryControl],
    [treasuryChain], [swapService], [creditSource], [etherSource]) and the clock
    are one class, [TreasuryServices], of calls that answer or fail in a world
    [W] of their own; the wallet and the transactions are those of [Tron].  HTTP
    and JSON are not modelled: what TronGrid, SimpleSwap and an Ethereum node
    answer is given decoded to the functions that check it.  Errors are texts;
    log lines, and [told], which only guards one, are left out.  Times are
    nanoseconds.  [*budget], a local of [convert] that [swap] changes, is a field
    of the state. *)

From Stdlib Require Import Ascii QArith Qreduction.
From S2P Require Import Prelude.
From S2P Require Import GoLib.
From S2P Require Import Codec.
From S2P Require Import Tron.
From S2P Require Import Requests.
From S2P Require Import Rationals.
From S2P Require Import Deposits.
Open Scope Z_scope.

(** ** simpleswap.go *)

Record swapCurrency := MkCurrency { cu_Ticker : string; cu_Network : string }.
#[export] Instance swapCurrency_eq_dec : EqDecision swapCurrency.
Proof. solve_decision. Defined.

Definition currency_string (c : swapCurrency) : string := c.(cu_Ticker) +:+ ":" +:+ c.(cu_Network).

Definition usdtOnTron : swapCurrency := MkCurrency "usdt" "trx".
Definition tronTRX : swapCurrency := MkCurrency "trx" "trx".
Definition siacoin : swapCurrency := MkCurrency "sc" "sc".
Definition ether : swapCurrency := MkCurrency "eth" "eth".

Record swapExchange := MkExchange {
  ex_ID : string; ex_Status : string; ex_CreatedAt : string; ex_TickerFrom : string; ex_NetworkFrom : string;
  ex_TickerTo : string; ex_NetworkTo : string; ex_AmountFrom : string; ex_ExpectedAmount : string;
  ex_AddressFrom : string; ex_AddressTo : string }.

Definition from_currency (e : swapExchange) : swapCurrency := MkCurrency e.(ex_TickerFrom) e.(ex_NetworkFrom).
Definition to_currency (e : swapExchange) : swapCurrency := MkCurrency e.(ex_TickerTo) e.(ex_NetworkTo).
Definition final (e : swapExchange) : bool :=
  bool_decide (e.(ex_Status) ∈ ["finished"; "failed"; "refunded"; "expired"]%string).

(** [simpleSwap.estimate], of the decoded answer. *)
Definition estimate_of (estimatedAmount : string) : string + string :=
  if estimatedAmount =?s "" then inl "SimpleSwap gave no estimate"%string else inr estimatedAmount.

(** ** treasury_chain.go *)

Record accountBalance := MkBalance { ab_TRXSun : Z; ab_USDTMicro : Z }.

(** TronGrid's answer about an account, decoded. *)
Record accountAnswer := MkAccountAnswer { aa_Success : bool; aa_Data : list (Z * list (gmap string string)) }.

Fixpoint usdt_balance (micro : Z) (tokens : list (gmap string string)) : string + Z :=
  match tokens with
  | [] => inr micro
  | token :: tokens' =>
    match token !! USDTContract with
    | Some raw => match ParseInt raw with Some value => usdt_balance value tokens' | None => inl "unreadable USDT balance"%string end
    | None => usdt_balance micro tokens'
    end
  end.

Definition account_of (answer : accountAnswer) : string + accountBalance :=
  if negb answer.(aa_Success) then inl "TronGrid did not answer for the account"%string
  else match answer.(aa_Data) with
       | [] => inr (MkBalance 0 0)
       | (balance, tokens) :: _ =>
         match usdt_balance 0 tokens with inl e => inl e | inr micro => inr (MkBalance balance micro) end
       end.

(** [getnowblock]'s answer: the block's ID and number. *)
Definition nowBlock_of (blockID : string) (number : Z) : string + BlockRef :=
  match hex_decode blockID with
  | Some id => if negb (length id =? 32)%nat || (number <=? 0) then inl "TronGrid gave an unreadable newest block"%string
               else inr (MkBlockRef number id)
  | None => inl "TronGrid gave an unreadable newest block"%string
  end.

Record broadcastAnswer := MkBroadcastAnswer { ba_Result : bool; ba_TxID : string; ba_Code : string; ba_Message : string }.

Definition broadcast_of (rawData : list N) (answer : broadcastAnswer) : string + string :=
  let want := hex_encode (TxID rawData) in
  if negb answer.(ba_Result) then inl "broadcast refused"%string
  else if negb (answer.(ba_TxID) =?s "") && negb (EqualFold answer.(ba_TxID) want)
  then inl "broadcast answered for another transaction"%string
  else inr want.

Record outcomeAnswer := MkOutcome { oa_ID : string; oa_Result : string; oa_ReceiptResult : string }.

(** Solidified, and succeeded. *)
Definition txOutcome_of (txID : string) (info : outcomeAnswer) : bool * bool :=
  if negb (EqualFold info.(oa_ID) txID) then (false, false)
  else (true, negb (info.(oa_Result) =?s "FAILED") && ((info.(oa_ReceiptResult) =?s "") || (info.(oa_ReceiptResult) =?s "SUCCESS"))).

Definition answered {W A B} (svc : Svc W A) (f : A → string + B) : Svc W B :=
  a ← svc; match f a with inl e => throw e | inr b => mret b end.

Section tronGrid.
Context {W : Type}.
Variable getAccount : string → Svc W accountAnswer.
Variable getNowBlock : Svc W (string * Z).
(** The transaction's bytes, in hex. *)
Variable postTransaction : string → Svc W broadcastAnswer.
Variable getOutcome : string → Svc W outcomeAnswer.

Definition grid_account (address : string) : Svc W accountBalance := answered (getAccount address) account_of.
Definition grid_nowBlock : Svc W BlockRef := answered getNowBlock (λ a, nowBlock_of a.1 a.2).
Definition grid_broadcast (rawData signature : list N) : Svc W string :=
  answered (postTransaction (hex_encode (SignedTransaction rawData signature))) (broadcast_of rawData).
Definition grid_txOutcome (txID : string) : Svc W (bool * bool) := answered (getOutcome txID) (λ a, inr (txOutcome_of txID a)).
End tronGrid.

(** ** aleph_credits.go *)

Definition trim_0x (s : string) : string :=
  match bytes_of s with "0"%char :: "x"%char :: l => of_bytes l | _ => s end.

(** [eth_getBalance]'s answer: an error's message, and a result. *)
Definition balanceWei_of (error : option string) (result : string) : string + Z :=
  match error with
  | Some message => inl message
  | None => match SetString16 (trim_0x result) with Some wei => inr wei | None => inl "unreadable ETH balance"%string end
  end.

(** ** treasury.go: data *)

Definition treasuryIndex : N := 0.
Definition treasuryOff : string := "off".
Definition treasuryDryRun : string := "dry-run".
Definition treasuryLive : string := "live".
Definition pendingTimeout : Z := 10 * 60 * second_ns.
(** [int64(refillShare*100)]. *)
Definition refillPercent : Z := 10.
Definition day_ns : Z := 24 * hour_ns.

Record treasuryConfig := MkTreasuryConfig {
  tc_Mode : string;
  tc_SweepMinMicro : Z; tc_SweepFeeSun : Z; tc_SweepFeeLimitSun : Z;
  tc_TreasuryTRXFloorSun : Z; tc_TreasuryTRXTargetSun : Z;
  tc_SiaAddress : string; tc_SiaTargetSC : Z;
  tc_AlephFundAddress : string; tc_AlephSpendAddress : string; tc_AlephDays : Z; tc_EthGasReserveWei : Z;
  tc_MinSwapMicro : Z; tc_MaxSwapMicro : Z; tc_MaxDailyMicro : Z }.
#[export] Instance treasuryConfig_eta : Eta treasuryConfig := λ c,
  MkTreasuryConfig c.(tc_Mode) c.(tc_SweepMinMicro) c.(tc_SweepFeeSun) c.(tc_SweepFeeLimitSun) c.(tc_TreasuryTRXFloorSun)
    c.(tc_TreasuryTRXTargetSun) c.(tc_SiaAddress) c.(tc_SiaTargetSC) c.(tc_AlephFundAddress) c.(tc_AlephSpendAddress)
    c.(tc_AlephDays) c.(tc_EthGasReserveWei) c.(tc_MinSwapMicro) c.(tc_MaxSwapMicro) c.(tc_MaxDailyMicro).

Definition defaultTreasuryConfig : treasuryConfig :=
  MkTreasuryConfig treasuryDryRun 20000000 15000000 30000000 50000000 150000000 "" 20000 "" "" 7 2000000000000000
    25000000 200000000 500000000.

Record siaWalletState := MkSiaWallet { sw_Address : string; sw_ConfirmedHastings : string }.

Class TreasuryServices (W : Type) : Type := {
  clock : W → Z;
  pace : W → W;
  sweepList : Svc W (list watchedAddress);
  siaWallet : Svc W siaWalletState;
  account : string → Svc W accountBalance;
  usdtSent : string → Z → Svc W (list usdtTransfer);
  nowBlock : Svc W BlockRef;
  broadcast : list N → list N → Svc W string;
  txOutcome : string → Svc W (bool * bool);
  estimate : swapCurrency → swapCurrency → string → bool → Svc W string;
  ranges : swapCurrency → swapCurrency → Svc W (string * string);
  create : swapCurrency → swapCurrency → string → string → string → Svc W swapExchange;
  recent : Z → Svc W (list swapExchange);
  creditBalance : string → Svc W Z;
  dailySpend : string → Z → Z → Svc W Z;
  balanceWei : string → Svc W Z }.

Record pendingTx := MkPending { pt_txID : string; pt_kind : string; pt_at : Z }.
Record exchangePayment := MkPayment { ep_txID : string; ep_micro : Z; ep_at : Z }.

Record Treasury (W : Type) := MkTreasury {
  tr_pending : gmap string pendingTx; tr_paid : list exchangePayment; tr_budget : Z; tr_world : W }.
Arguments MkTreasury {W}.
Arguments tr_pending {W}.
Arguments tr_paid {W}.
Arguments tr_budget {W}.
Arguments tr_world {W}.
#[export] Instance treasury_eta W : Eta (Treasury W) :=
  λ s, MkTreasury s.(tr_pending) s.(tr_paid) s.(tr_budget) s.(tr_world).

Definition newTreasury {W} (w : W) : Treasury W := MkTreasury ∅ [] 0 w.

(** What should be bought. *)
Record swapNeed := MkNeed { ne_to : swapCurrency; ne_amount : string; ne_addressTo : string }.

(** ** treasury.go: operations *)

Section treasury.
Context `{Base58} `{Curve} `{!HDKeys} {W : Type} `{!TreasuryServices W}.
Variable cfg : treasuryConfig.
Variable wallet : Tron.Wallet.
Abbreviation T := (M (Treasury W) string).

(** A service called from the treasury, and the time. *)
Definition ask {A} (svc : Svc W A) : T A := λ s,
  let '(w, r) := svc s.(tr_world) in (s <| tr_world := w |>, r).
Definition read_clock : T Z := gets (λ s, clock s.(tr_world)).
Definition succeed {A} (r : string + A) : T A := match r with inl e => throw e | inr a => mret a end.

Definition live : bool := cfg.(tc_Mode) =?s treasuryLive.

Definition key (index : N) (address : string) : string + PrivateKey :=
  match Key wallet index with
  | inl _ => inl "derive key"%string
  | inr key => if negb (AddressFromPublicKey (PubKey key) =?s address) then inl "index does not derive the address"%string
               else inr key
  end.

Definition sendTRX (index : N) (from to : string) (sun : Z) : T string :=
  key ← succeed (key index from);
  ref ← ask nowBlock;
  now ← read_clock;
  match SendTRX from to sun ref now with
  | inl _ => throw "cannot build the transfer"%string
  | inr raw => let encoded := Encode raw in ask (broadcast encoded (Tron.Sign encoded key))
  end.

Definition sendUSDT (index : N) (from to : string) (micro : Z) : T string :=
  key ← succeed (key index from);
  ref ← ask nowBlock;
  now ← read_clock;
  match SendTRC20 from USDTContract to (Some micro) cfg.(tc_SweepFeeLimitSun) ref now with
  | inl _ => throw "cannot build the transfer"%string
  | inr raw => let encoded := Encode raw in ask (broadcast encoded (Tron.Sign encoded key))
  end.

(** The address waits for an earlier transaction; one that is settled or too old
    is forgotten. *)
Definition still_pending (address : string) (now : Z) : T bool :=
  s ← gets Datatypes.id;
  match s.(tr_pending) !! address with
  | None => mret false
  | Some pending =>
    outcome ← attempt (ask (txOutcome pending.(pt_txID)));
    let done := match outcome with Some (done, _) => done | None => false end in
    if negb done && (now - pending.(pt_at) <? pendingTimeout) then mret true
    else modify (λ s, s <| tr_pending ::= delete address |>);; mret false
  end.

Definition remember_pending (address txID kind : string) (now : Z) : T unit :=
  modify (λ s, s <| tr_pending ::= <[address := MkPending txID kind now]> |>).

Definition sweep (watched : watchedAddress) (treasuryAddress : string) : T unit :=
  now ← read_clock;
  waits ← still_pending watched.(wd_Address) now;
  if waits : bool then mret tt
  else
    balance ← ask (account watched.(wd_Address));
    if balance.(ab_USDTMicro) <? cfg.(tc_SweepMinMicro) then mret tt
    else if balance.(ab_TRXSun) <? cfg.(tc_SweepFeeSun) then
      let topUp := wrap64 (cfg.(tc_SweepFeeSun) - balance.(ab_TRXSun)) in
      if negb live then mret tt
      else
        txID ← sendTRX treasuryIndex treasuryAddress watched.(wd_Address) topUp;
        remember_pending watched.(wd_Address) txID "fee top-up" now
    else if negb live then mret tt
    else
      txID ← sendUSDT (Z.to_N (watched.(wd_Index) mod 2 ^ 32)) watched.(wd_Address) treasuryAddress balance.(ab_USDTMicro);
      remember_pending watched.(wd_Address) txID "sweep" now.

Definition swap (need : swapNeed) (treasuryAddress : string) : T unit :=
  quote ← ask (estimate usdtOnTron need.(ne_to) "100" false);
  per100 ← require (RatSetString quote) "unreadable quote"%string;
  refuse_if (not_positive per100) "unreadable quote"%string;;
  wantedAmount ← require (RatSetString need.(ne_amount)) "unreadable amount"%string;
  let usdt := (wantedAmount * (102 # 1) / per100)%Q in
  wanted ← succeed (decimalToMicro (FloatString usdt 6) true);
  '(low, _) ← ask (ranges usdtOnTron need.(ne_to));
  let minimum :=
    if low =?s "" then cfg.(tc_MinSwapMicro)
    else match decimalToMicro low true with inr pairMin => Z.max cfg.(tc_MinSwapMicro) pairMin | inl _ => cfg.(tc_MinSwapMicro) end in
  s ← gets Datatypes.id;
  let amount := Z.min (Z.min (Z.max wanted minimum) cfg.(tc_MaxSwapMicro)) s.(tr_budget) in
  if amount <? minimum then mret tt
  else
    expected ← ask (estimate usdtOnTron need.(ne_to) (microToDecimal amount) false);
    modify (λ s, s <| tr_budget := wrap64 (s.(tr_budget) - amount) |>);;
    if negb live then mret tt
    else
      exchange ← ask (create usdtOnTron need.(ne_to) (microToDecimal amount) need.(ne_addressTo) treasuryAddress);
      sent ← succeed (decimalToMicro exchange.(ex_AmountFrom) false);
      refuse_if (negb (bool_decide (from_currency exchange = usdtOnTron)) || negb (bool_decide (to_currency exchange = need.(ne_to))))
        "the exchange is for other currencies"%string;;
      refuse_if (negb (EqualFold exchange.(ex_AddressTo) need.(ne_addressTo))) "the exchange pays another address"%string;;
      refuse_if (negb (sent =? amount)) "the exchange asks for another amount"%string;;
      refuse_if (negb (ValidAddress exchange.(ex_AddressFrom))) "the exchange gave an invalid deposit address"%string;;
      txID ← sendUSDT treasuryIndex treasuryAddress exchange.(ex_AddressFrom) amount;
      at_ ← read_clock;
      modify (λ s, s <| tr_paid ::= λ paid, paid ++ [MkPayment (ToLower txID) amount at_] |>).

Definition sentSince (treasuryAddress : string) (since : Z) : T Z :=
  transfers ← ask (usdtSent treasuryAddress since);
  s ← gets Datatypes.id;
  let confirmed := (λ t, ToLower t.(ut_TxID)) <$> transfers in
  let total := foldl (λ total t, wrap64 (total + t.(ut_AmountMicro))) 0 transfers in
  let kept := List.filter (λ p, negb (p.(ep_at) <? since)) s.(tr_paid) in
  let total := foldl (λ total p, if bool_decide (p.(ep_txID) ∈ confirmed) then total else wrap64 (total + p.(ep_micro))) total kept in
  modify (λ s, s <| tr_paid := kept |>);;
  mret total.

Definition siaNeed : T (option swapNeed) :=
  if cfg.(tc_SiaTargetSC) <=? 0 then mret None
  else
    answer ← attempt (ask siaWallet);
    match answer with
    | None => mret None
    | Some wallet =>
      if wallet.(sw_Address) =?s "" then mret None
      else
        let destination :=
          if cfg.(tc_SiaAddress) =?s "" then (if live then None else Some wallet.(sw_Address))
          else if negb (EqualFold cfg.(tc_SiaAddress) wallet.(sw_Address)) then None
          else Some cfg.(tc_SiaAddress) in
        match destination, signed_digits decimal_value 10 (TrimSpace wallet.(sw_ConfirmedHastings)) with
        | Some destination, Some hastings =>
          let have := Qmake hastings (10 ^ 24) in
          let target := inject_Z cfg.(tc_SiaTargetSC) in
          let short := (target - have)%Q in
          if negb (Qle_bool (target * Qmake refillPercent 100) short) then mret None
          else mret (Some (MkNeed siacoin (FloatString short 0) destination))
        | _, _ => mret None
        end
    end.

(** Asking for something the need depends on; without it the need waits. *)
Definition or_wait {A B} (svc : Svc W A) (f : A → T (option B)) : T (option B) :=
  answer ← attempt (ask svc);
  match answer with Some a => f a | None => mret None end.

Definition alephNeed : T (option swapNeed) :=
  if (cfg.(tc_AlephFundAddress) =?s "") || (cfg.(tc_AlephDays) <=? 0) then mret None
  else
    let spender := if cfg.(tc_AlephSpendAddress) =?s "" then cfg.(tc_AlephFundAddress) else cfg.(tc_AlephSpendAddress) in
    now ← read_clock;
    or_wait (dailySpend spender cfg.(tc_AlephDays) now) (λ perDay,
    or_wait (creditBalance cfg.(tc_AlephFundAddress)) (λ have,
    or_wait (if negb (EqualFold spender cfg.(tc_AlephFundAddress))
             then charged ← creditBalance spender; mret (wrap64 (have + charged)) else mret have) (λ have,
    or_wait (balanceWei cfg.(tc_AlephFundAddress)) (λ wei,
    or_wait (estimate usdtOnTron ether "100" false) (λ quote,
    match RatSetString quote with
    | None => mret None
    | Some ethPer100 =>
      if not_positive ethPer100 then mret None
      else
        let usdPerETH := ((100 # 1) / ethPer100)%Q in
        let spare := Z.max 0 (wei - cfg.(tc_EthGasReserveWei)) in
        let waiting := (Qmake spare (10 ^ 18) * usdPerETH * (1000000 # 1))%Q in
        let target := inject_Z (wrap64 (perDay * cfg.(tc_AlephDays))) in
        let short := (target - (inject_Z have + waiting))%Q in
        if (Qnum target =? 0) || negb (Qle_bool (target * Qmake refillPercent 100) short) then mret None
        else
          let ethNeeded := (short / (1000000 # 1) / usdPerETH)%Q in
          let ethNeeded := if spare =? 0 then (ethNeeded + Qmake cfg.(tc_EthGasReserveWei) (10 ^ 18))%Q else ethNeeded in
          mret (Some (MkNeed ether (FloatString ethNeeded 6) cfg.(tc_AlephFundAddress)))
    end))))).

Definition needs (balance : accountBalance) (treasuryAddress : string) : T (list swapNeed) :=
  let fees := if balance.(ab_TRXSun) <? cfg.(tc_TreasuryTRXFloorSun)
              then [MkNeed tronTRX (sunToTRX (wrap64 (cfg.(tc_TreasuryTRXTargetSun) - balance.(ab_TRXSun)))) treasuryAddress] else [] in
  sia ← siaNeed;
  aleph ← alephNeed;
  mret (fees ++ option_list sia ++ option_list aleph).

(** What SimpleSwap says was swapped, and which currencies are on their way. *)
Definition count_exchange (acc : Z * list string) (exchange : swapExchange) : T (Z * list string) :=
  if negb (bool_decide (from_currency exchange = usdtOnTron)) then mret acc
  else
    swapped ← (if exchange.(ex_Status) =?s "expired" then mret acc.1
               else micro ← succeed (decimalToMicro exchange.(ex_AmountFrom) false); mret (wrap64 (acc.1 + micro)));
    mret (swapped, if final exchange then acc.2 else acc.2 ++ [currency_string (to_currency exchange)]).

Definition buy (inFlight : list string) (treasuryAddress : string) (need : swapNeed) : T unit :=
  if bool_decide (currency_string need.(ne_to) ∈ inFlight) then mret tt
  else _ ← attempt (swap need treasuryAddress); mret tt.

Definition convert (treasuryAddress : string) : T unit :=
  now ← read_clock;
  balance ← ask (account treasuryAddress);
  sentToday ← sentSince treasuryAddress (now - day_ns);
  exchanges ← ask (recent (now - day_ns));
  '(swappedToday, inFlight) ← fold_each count_exchange (0, []) exchanges;
  let spentToday := Z.max swappedToday sentToday in
  modify (λ s, s <| tr_budget := Z.min (wrap64 (cfg.(tc_MaxDailyMicro) - spentToday)) balance.(ab_USDTMicro) |>);;
  needs ← needs balance treasuryAddress;
  if negb (length needs =? 0)%nat && (balance.(ab_TRXSun) <? cfg.(tc_SweepFeeSun)) then mret tt
  else for_each (buy inFlight treasuryAddress) needs.

Definition sweep_one (treasuryAddress : string) (address : watchedAddress) : T unit :=
  if (address.(wd_Index) <=? Z.of_N treasuryIndex) || (2 ^ 31 - 1 <? address.(wd_Index)) then mret tt
  else
    _ ← attempt (sweep address treasuryAddress);
    modify (λ s, s <| tr_world ::= pace |>).

Definition treasury_cycle : T unit :=
  if cfg.(tc_Mode) =?s treasuryOff then mret tt
  else match WalletAddress wallet treasuryIndex with
       | inl _ => throw "derive address"%string
       | inr treasuryAddress =>
         watched ← ask sweepList;
         for_each (sweep_one treasuryAddress) watched;;
         convert treasuryAddress
       end.
End treasury.

(** ** treasury_config.go *)

Definition siaAddressPattern (s : string) : bool :=
  (String.length s =? 76)%nat
  && forallb (λ c, let n := N_of_ascii c in ((48 <=? n) && (n <=? 57) || (97 <=? n) && (n <=? 102))%N) (bytes_of s).
Definition ethAddressPattern (s : string) : bool :=
  match bytes_of s with
  | "0"%char :: "x"%char :: l => (length l =? 40)%nat && forallb is_hex l
  | _ => false
  end.

Section config.
(** [os.Getenv], and [time.ParseDuration] in nanoseconds, whose fractions are
    floating-point numbers. *)
Variable Getenv : string → string.
Variable ParseDuration : string → option Z.

Definition envOrDefault (name fallback : string) : string :=
  let value := TrimSpace (Getenv name) in if negb (value =?s "") then value else fallback.

(** An amount that may be set. *)
Definition amount_setting (name : string) (current : Z) : string + Z :=
  let raw := TrimSpace (Getenv name) in
  if raw =?s "" then inr current
  else match decimalToMicro raw false with
       | inr micro => if micro <=? 0 then inl (name +:+ " must be a positive USDT amount") else inr micro
       | inl _ => inl (name +:+ " must be a positive USDT amount")
       end.

(** A whole number that may be set. *)
Definition number_setting (name : string) (current most : Z) (message : string) : string + Z :=
  let raw := TrimSpace (Getenv name) in
  if raw =?s "" then inr current
  else match ParseInt raw with
       | Some n => if (n <? 0) || (most <? n) then inl message else inr n
       | None => inl message
       end.

#[local] Instance sum_bind : MBind (sum string) := λ A B f m, match m with inl e => inl e | inr a => f a end.

Definition treasuryConfigFromEnv : string + treasuryConfig * Z :=
  let cfg := defaultTreasuryConfig <| tc_Mode := envOrDefault "PAYMENTS_TREASURY" treasuryDryRun |> in
  if negb (bool_decide (cfg.(tc_Mode) ∈ [treasuryOff; treasuryDryRun; treasuryLive]))
  then inl "PAYMENTS_TREASURY must be off, dry-run or live"%string
  else match ParseDuration (envOrDefault "PAYMENTS_TREASURY_INTERVAL" "30m") with
  | None => inl "PAYMENTS_TREASURY_INTERVAL must be a duration of at least 1m"%string
  | Some every =>
    if every <? 60 * second_ns then inl "PAYMENTS_TREASURY_INTERVAL must be a duration of at least 1m"%string
    else
      sweepMin ← amount_setting "PAYMENTS_SWEEP_MIN_USDT" cfg.(tc_SweepMinMicro);
      minSwap ← amount_setting "PAYMENTS_MIN_SWAP_USDT" cfg.(tc_MinSwapMicro);
      maxSwap ← amount_setting "PAYMENTS_MAX_SWAP_USDT" cfg.(tc_MaxSwapMicro);
      maxDaily ← amount_setting "PAYMENTS_MAX_DAILY_USDT" cfg.(tc_MaxDailyMicro);
      siaTarget ← number_setting "PAYMENTS_SIA_TARGET_SC" cfg.(tc_SiaTargetSC) max_int64
                    "PAYMENTS_SIA_TARGET_SC must be a whole number of SC (0 turns Siacoin off)";
      days ← number_setting "PAYMENTS_ALEPH_DAYS" cfg.(tc_AlephDays) 90 "PAYMENTS_ALEPH_DAYS must be 0 to 90 (0 turns ETH off)";
      let siaAddress := ToLower (TrimSpace (Getenv "PAYMENTS_SIA_ADDRESS")) in
      if negb (siaAddress =?s "") && negb (siaAddressPattern siaAddress)
      then inl "PAYMENTS_SIA_ADDRESS must be a 76-character Sia address"%string
      else
        let fund := TrimSpace (Getenv "PAYMENTS_ALEPH_FUND_ADDRESS") in
        let spend := TrimSpace (Getenv "PAYMENTS_ALEPH_SPEND_ADDRESS") in
        if negb (fund =?s "") && negb (ethAddressPattern fund) || negb (spend =?s "") && negb (ethAddressPattern spend)
        then inl "the address must be an 0x Ethereum address"%string
        else if (maxSwap <? minSwap) || (maxDaily <? maxSwap)
        then inl "swap caps must satisfy minimum <= per swap <= per day"%string
        else inr (cfg <| tc_SweepMinMicro := sweepMin |> <| tc_MinSwapMicro := minSwap |> <| tc_MaxSwapMicro := maxSwap |>
                      <| tc_MaxDailyMicro := maxDaily |> <| tc_SiaTargetSC := siaTarget |> <| tc_AlephDays := days |>
                      <| tc_SiaAddress := siaAddress |> <| tc_AlephFundAddress := fund |> <| tc_AlephSpendAddress := spend |>, every)
  end.
End config.

(** ** Facts *)

(** *** What leaves the process *)

(** A transaction that was broadcast, with the time of the answer, or an exchange
    that was created. *)
Inductive effect :=
| Sent (time : Z) (rawData signature : list N) (answer : string + string)
| Created (to : swapCurrency) (amount addressTo refundAddress : string) (answer : string + swapExchange).

(** Services that keep a record of both. *)
Definition Traced (W : Type) : Type := W * list effect.

Section recorded.
Context {W : Type} `{TreasuryServices W}.

Definition unseen {A} (svc : Svc W A) : Svc (Traced W) A := λ w, let '(w', r) := svc w.1 in ((w', w.2), r).
Definition noted {A} (svc : Svc W A) (note : W → string + A → effect) : Svc (Traced W) A := λ w,
  let '(w', r) := svc w.1 in ((w', w.2 ++ [note w' r]), r).

Definition recorded : TreasuryServices (Traced W) := {|
  clock w := clock w.1;
  pace w := (pace w.1, w.2);
  sweepList := unseen sweepList;
  siaWallet := unseen siaWallet;
  account address := unseen (account address);
  usdtSent address since := unseen (usdtSent address since);
  nowBlock := unseen nowBlock;
  broadcast rawData signature := noted (broadcast rawData signature) (λ w' r, Sent (clock w') rawData signature r);
  txOutcome txID := unseen (txOutcome txID);
  estimate from to amount reverse := unseen (estimate from to amount reverse);
  ranges from to := unseen (ranges from to);
  create from to amount addressTo refund :=
    noted (create from to amount addressTo refund) (λ _ r, Created to amount addressTo refund r);
  recent since := unseen (recent since);
  creditBalance address := unseen (creditBalance address);
  dailySpend address days now := unseen (dailySpend address days now);
  balanceWei address := unseen (balanceWei address) |}.
End recorded.

(** A relation that every service keeps: time passes, the chain grows. *)
Class Moves (W : Type) `{TreasuryServices W} (later : relation W) : Prop := {
  moves_preorder :: PreOrder later;
  moves_pace w : later w (pace w);
  moves_sweepList : stable later sweepList;
  moves_siaWallet : stable later siaWallet;
  moves_account address : stable later (account address);
  moves_usdtSent address since : stable later (usdtSent address since);
  moves_nowBlock : stable later nowBlock;
  moves_broadcast rawData signature : stable later (broadcast rawData signature);
  moves_txOutcome txID : stable later (txOutcome txID);
  moves_estimate from to amount reverse : stable later (estimate from to amount reverse);
  moves_ranges from to : stable later (ranges from to);
  moves_create from to amount addressTo refund : stable later (create from to amount addressTo refund);
  moves_recent since : stable later (recent since);
  moves_creditBalance address : stable later (creditBalance address);
  moves_dailySpend address days now : stable later (dailySpend address days now);
  moves_balanceWei address : stable later (balanceWei address) }.

#[export] Instance moves_anywhere W `{TreasuryServices W} : Moves W (λ _ _, True).
Proof. by repeat split. Qed.

#[export] Hint Resolve moves_sweepList moves_siaWallet moves_account moves_usdtSent moves_nowBlock moves_broadcast
  moves_txOutcome moves_estimate moves_ranges moves_create moves_recent moves_creditBalance moves_dailySpend moves_balanceWei : moves.

Section traced.
Context `{Base58} `{Curve} `{!HDKeys} {W : Type} `{HS : !TreasuryServices W} (later : relation W) `{!Moves W later}.
Variable cfg : treasuryConfig.
Variable wallet : Tron.Wallet.
#[local] Existing Instance recorded.
Abbreviation State := (Treasury (Traced W)).

Definition base (s : State) : W := s.(tr_world).1.
Definition trace (s : State) : list effect := s.(tr_world).2.

(** Nothing left the process, and the accounts are as they were. *)
Definition calm : relation State := λ s s',
  later (base s) (base s') ∧ trace s' = trace s ∧ s'.(tr_paid) = s.(tr_paid) ∧ s'.(tr_budget) = s.(tr_budget).
#[export] Instance calm_preorder : PreOrder calm.
Proof.
  split; [intros s; by split_and!|]. intros s1 s2 s3 (L1 & T1 & P1 & B1) (L2 & T2 & P2 & B2).
  split_and!; [by transitivity (base s2) | congruence..].
Qed.

(** The same of the services. *)
Definition quiet : relation (Traced W) := λ w w', later w.1 w'.1 ∧ w'.2 = w.2.
#[export] Instance quiet_preorder : PreOrder quiet.
Proof. split; [by intros w; split|]. intros w1 w2 w3 [L1 E1] [L2 E2]. split; [by transitivity w2.1 | congruence]. Qed.

Lemma unseen_quiet {A} (svc : Svc W A) : stable later svc → stable quiet (unseen svc).
Proof. intros Hs w. specialize (Hs w.1). unfold unseen. destruct (svc w.1) as [w' r]. by split. Qed.
Lemma ask_calm {A} (svc : Svc (Traced W) A) : stable quiet svc → stable calm (ask svc).
Proof. intros Hs s. destruct (Hs s.(tr_world)) as [L E]. unfold ask. destruct (svc s.(tr_world)) as [w r]. by split_and!. Qed.
#[local] Hint Extern 1 (stable quiet _) => apply unseen_quiet; auto with moves : ops.

Lemma succeed_stable {S A} (R : relation (Treasury S)) `{!PreOrder R} (r : string + A) : stable R (succeed r).
Proof. destruct r; [apply stable_throw | apply stable_ret]; apply _. Qed.

#[local] Hint Extern 1 (stable calm (ask _)) => apply ask_calm, unseen_quiet; auto with moves : ops.
#[local] Hint Extern 1 (stable calm (attempt _)) => apply attempt_stable; eauto 2 with ops : ops.
#[local] Hint Extern 1 (stable calm (succeed _)) => apply succeed_stable; apply _ : ops.
#[local] Hint Extern 1 (stable calm read_clock) => apply stable_gets; apply _ : ops.

Lemma wp_attempt {S E A} (m : M S E A) Q (X : E → S → Prop) s :
  wp m (λ a, Q (Some a)) (λ _, Q None) s → wp (attempt m) Q X s.
Proof. unfold wp, attempt. by destruct (m s) as [s' [e|a]]. Qed.

(** A calm step, then the rest. *)
Lemma calm_then {A B} (m : M State string A) (k : A → M State string B) s0 s Q X :
  calm s0 s → stable calm m → (∀ e s', calm s0 s' → X e s') → (∀ a s', calm s0 s' → wp (k a) Q X s') → wp (m ≫= k) Q X s.
Proof.
  intros Hc0 Hm HX Hk. rewrite wp_bind. eapply wp_mono; [apply (wp_continue calm m X s0 s Hc0 Hm HX) | intros a s' Hs; by apply Hk | done].
Qed.

(** A service's answer, as it gave it. *)
Lemma wp_ask {A} (svc : Svc W A) Q (X : string → State → Prop) s :
  stable later svc → (∀ w r, svc (base s) = (w, r) → later (base s) w →
    let s' := s <| tr_world := (w, trace s) |> in match r with inr a => Q a s' | inl e => X e s' end) →
  wp (ask (unseen svc)) Q X s.
Proof.
  intros Hs HQ. specialize (Hs (base s)). unfold wp, ask, unseen. fold (base s). destruct (svc (base s)) as [w r] eqn:E.
  specialize (HQ w r eq_refl Hs). by destruct r.
Qed.

(** *** Transactions *)

(** [tx], which does [act], was signed with the key of [index], which has the
    address [from], and broadcast; [r] is the answer. *)
Definition emitted (index : N) (from : string) (act : action) (r : string + string) (s s' : State) : Prop :=
  ∃ key tx fee now ref w,
    Key wallet index = inr key ∧ AddressFromPublicKey (PubKey key) = from ∧ says tx act fee now ref
    ∧ later (base s) w ∧ later w (base s') ∧ broadcast (Encode tx) (Tron.Sign (Encode tx) key) w = (base s', r)
    ∧ trace s' = trace s ++ [Sent (clock (base s')) (Encode tx) (Tron.Sign (Encode tx) key) r]
    ∧ s'.(tr_paid) = s.(tr_paid) ∧ s'.(tr_budget) = s.(tr_budget).

Definition trx_action (from to : string) (sun : Z) (act : action) : Prop :=
  0 < sun ∧ ∃ owner receiver, AddressBytes from = inr owner ∧ AddressBytes to = inr receiver ∧ act = Transfer owner receiver sun.
Definition usdt_action (from to : string) (micro : Z) (act : action) : Prop :=
  0 < micro ∧ ∃ owner contract account, AddressBytes from = inr owner ∧ AddressBytes USDTContract = inr contract
    ∧ AddressBytes to = inr (addressVersion :: account) ∧ act = TokenTransfer owner contract account (Z.to_N micro).

(** The clock shows times [UnixMilli] can hold. *)
Hypothesis clock_range : ∀ w : W, 0 ≤ clock w < 2 ^ 63.

Lemma key_inv index from k : key wallet index from = inr k → Key wallet index = inr k ∧ AddressFromPublicKey (PubKey k) = from.
Proof.
  unfold key. destruct (Key wallet index) as [|k'] eqn:E; [done|]. destruct (_ =?s from) eqn:Ef; [|done].
  cbn [negb]. intros [= <-]. apply str_eqb_eq in Ef. done.
Qed.

Lemma broadcast_wp tx index from k act fee now ref s0 s :
  key wallet index from = inr k → says tx act fee now ref → calm s0 s →
  wp (ask (broadcast (Encode tx) (Tron.Sign (Encode tx) k))) (λ id, emitted index from act (inr id) s0)
     (λ e, emitted index from act (inl e) s0) s.
Proof.
  intros [Hk Ha]%key_inv Hsays (L & Tr & P & B). unfold wp, ask. cbn [broadcast recorded]. unfold noted. fold (base s).
  pose proof (moves_broadcast (Encode tx) (Tron.Sign (Encode tx) k) (base s)) as Hm.
  destruct (broadcast (Encode tx) (Tron.Sign (Encode tx) k) (base s)) as [w r] eqn:Eb. cbn [fst] in Hm.
  assert (He : emitted index from act r s0 (s <| tr_world := (w, s.(tr_world).2 ++ [Sent (clock w) (Encode tx) (Tron.Sign (Encode tx) k) r]) |>)).
  { exists k, tx, fee, now, ref, (base s). split_and!; try done. cbn. unfold trace in Tr. by rewrite Tr. }
  by destruct r.
Qed.

Lemma sendTRX_wp index from to sun s : sun < 2 ^ 63 →
  wp (sendTRX wallet index from to sun) (λ id s', ∃ act, trx_action from to sun act ∧ emitted index from act (inr id) s s')
     (λ e s', calm s s' ∨ ∃ act, trx_action from to sun act ∧ emitted index from act (inl e) s s') s.
Proof.
  intros Hsun. unfold sendTRX. destruct (key wallet index from) as [e|k] eqn:Hk; [by left|].
  rewrite wp_bind. cbn [succeed]. rewrite wp_ret. eapply calm_then; [reflexivity | eauto with ops | by left |].
  intros ref s1 Hc1. rewrite wp_bind. unfold read_clock. rewrite wp_gets. cbn [clock recorded].
  pose proof (SendTRX_run from to sun ref (clock (base s1)) (clock_range _) Hsun) as Hrun. unfold base in Hrun.
  destruct (SendTRX from to sun ref _) as [e|tx]; [by left|].
  destruct Hrun as (Hpos & _ & owner & receiver & Ef & Et & Hs).
  assert (Ha : trx_action from to sun (Transfer owner receiver sun)) by (split; [done | by exists owner, receiver]).
  eapply wp_mono; [by eapply broadcast_wp | |]; cbv beta; eauto.
Qed.

Lemma sendUSDT_wp index from to micro s : cfg.(tc_SweepFeeLimitSun) < 2 ^ 63 →
  wp (sendUSDT cfg wallet index from to micro) (λ id s', ∃ act, usdt_action from to micro act ∧ emitted index from act (inr id) s s')
     (λ e s', calm s s' ∨ ∃ act, usdt_action from to micro act ∧ emitted index from act (inl e) s s') s.
Proof.
  intros Hfee. unfold sendUSDT. destruct (key wallet index from) as [e|k] eqn:Hk; [by left|].
  rewrite wp_bind. cbn [succeed]. rewrite wp_ret. eapply calm_then; [reflexivity | eauto with ops | by left |].
  intros ref s1 Hc1. rewrite wp_bind. unfold read_clock. rewrite wp_gets. cbn [clock recorded].
  pose proof (SendTRC20_run from USDTContract to (Some micro) cfg.(tc_SweepFeeLimitSun) ref (clock (base s1)) (clock_range _) Hfee) as Hrun.
  unfold base in Hrun. destruct (SendTRC20 _ _ _ _ _ _ _) as [e|tx]; [by left|].
  destruct Hrun as (units & owner & contract & acct & [= <-] & Hpos & _ & _ & Ef & Ec & Et & Hs).
  assert (Ha : usdt_action from to micro (TokenTransfer owner contract acct (Z.to_N micro))) by (split; [lia | by exists owner, contract, acct]).
  eapply wp_mono; [by eapply broadcast_wp | |]; cbv beta; eauto.
Qed.

Lemma emitted_after index from act r s s1 s2 : calm s s1 → emitted index from act r s1 s2 → emitted index from act r s s2.
Proof.
  intros (L & Tr & P & B) (k & tx & fee & now & ref & w & Hk & Ha & Hs & Lw & Lw' & Hb & Tr' & P' & B').
  exists k, tx, fee, now, ref, w. split_and!; try done; [by transitivity (base s1) | congruence..].
Qed.

(** *** Sweeping *)

Lemma still_pending_calm address now : stable calm (still_pending address now).
Proof. unfold still_pending. stable_steps. by split_and!. Qed.
#[local] Hint Resolve still_pending_calm : ops.

(** What a sweep may do. *)
Definition swept (watched : watchedAddress) (treasuryAddress : string) (s s' : State) : Prop :=
  calm s s' ∨ live cfg = true ∧ ∃ act r,
    (∃ sun, sun ≤ cfg.(tc_SweepFeeSun) ∧ trx_action treasuryAddress watched.(wd_Address) sun act)
      ∧ emitted treasuryIndex treasuryAddress act r s s'
    ∨ (∃ micro, usdt_action watched.(wd_Address) treasuryAddress micro act)
      ∧ emitted (Z.to_N (watched.(wd_Index) mod 2 ^ 32)) watched.(wd_Address) act r s s'.

(** TronGrid shows no negative balance of TRX. *)
Hypothesis account_range : ∀ address w w' balance, account address w = (w', inr balance) → 0 ≤ balance.(ab_TRXSun).
Hypothesis fee_range : cfg.(tc_SweepFeeSun) < 2 ^ 63 ∧ cfg.(tc_SweepFeeLimitSun) < 2 ^ 63.

Lemma swept_calm watched T s s1 s2 : calm s s1 → swept watched T s1 s2 → swept watched T s s2.
Proof.
  intros Hc [Hc'|(Hl & act & r & Hcase)]; [left; by transitivity s1 | right]. split; [done|]. exists act, r.
  destruct Hcase as [[? He]|[? He]]; [left | right]; (split; [done|]); by eapply emitted_after.
Qed.

Lemma sweep_wp watched T s :
  wp (sweep cfg wallet watched T) (λ _, swept watched T s) (λ _, swept watched T s) s.
Proof.
  unfold sweep. eapply calm_then; [reflexivity | eauto with ops | by left |]. intros now s1 C1.
  eapply calm_then; [exact C1 | eauto with ops | by left |]. intros waits s2 C2.
  destruct waits; [by left|]. rewrite wp_bind. apply wp_ask; [auto with moves|]. intros w r Ha Lw s3.
  assert (C3 : calm s s3) by (transitivity s2; [done|]; by split_and!).
  destruct r as [e|balance]; [by left|]. apply account_range in Ha.
  destruct (_ <? _); [by left|]. destruct (Z.ltb_spec balance.(ab_TRXSun) cfg.(tc_SweepFeeSun)) as [Hlow|_].
  - destruct (live cfg) eqn:Hlive; [|by left]. cbn [negb]. rewrite wrap64_id
      by (unfold is_int64, min_int64, max_int64; apply andb_true_iff; split; apply Z.leb_le; lia).
    rewrite wp_bind. eapply wp_mono; [apply sendTRX_wp; lia | |]; cbv beta.
    + intros id s4 (act & Hact & He). unfold remember_pending. rewrite wp_modify. eapply swept_calm; [exact C3|]. right. split; [done|].
      exists act, (inr id). left. split; [|exact He]. exists (cfg.(tc_SweepFeeSun) - balance.(ab_TRXSun)). split; [lia | done].
    + intros e s4 [C4|(act & Hact & He)]; (eapply swept_calm; [exact C3|]); [by left | right]. split; [done|].
      exists act, (inl e). left. split; [|exact He]. exists (cfg.(tc_SweepFeeSun) - balance.(ab_TRXSun)). split; [lia | done].
  - destruct (live cfg) eqn:Hlive; [|by left]. cbn [negb].
    rewrite wp_bind. eapply wp_mono; [apply sendUSDT_wp; lia | |]; cbv beta.
    + intros id s4 (act & Hact & He). unfold remember_pending. rewrite wp_modify. eapply swept_calm; [exact C3|]. right. split; [done|].
      exists act, (inr id). right. split; [by eexists | exact He].
    + intros e s4 [C4|(act & Hact & He)]; (eapply swept_calm; [exact C3|]); [by left | right]. split; [done|].
      exists act, (inl e). right. split; [by eexists | exact He].
Qed.

(** *** Needs *)

Lemma siaNeed_wp s :
  wp (siaNeed cfg) (λ need s', calm s s' ∧ ∀ n, need = Some n → live cfg = true → n.(ne_to) = siacoin ∧ n.(ne_addressTo) = cfg.(tc_SiaAddress))
     (λ _, calm s) s.
Proof.
  unfold siaNeed. destruct (_ <=? 0); [by rewrite wp_ret|].
  eapply calm_then; [reflexivity | eauto with ops | done |]. intros [sia|] s1 C1; [|by rewrite wp_ret].
  destruct (_ =?s ""); [by rewrite wp_ret|]. cbv zeta.
  destruct (cfg.(tc_SiaAddress) =?s ""), (live cfg) eqn:Hl, (EqualFold cfg.(tc_SiaAddress) sia.(sw_Address)); cbn [negb];
    try match goal with |- context [signed_digits ?d ?b ?t] => destruct (signed_digits d b t) end; try (by rewrite wp_ret); destruct (Qle_bool _ _); cbn [negb]; rewrite wp_ret;
    (split; [done|]); intros n [= <-] ?; done.
Qed.

Lemma alephNeed_wp s :
  wp (alephNeed cfg) (λ need s', calm s s' ∧ ∀ n, need = Some n → n.(ne_to) = ether ∧ n.(ne_addressTo) = cfg.(tc_AlephFundAddress))
     (λ _, calm s) s.
Proof.
  set (Q := λ (need : option swapNeed) s', calm s s' ∧ ∀ n, need = Some n → n.(ne_to) = ether ∧ n.(ne_addressTo) = cfg.(tc_AlephFundAddress)).
  assert (Hw : ∀ A (svc : Svc (Traced W) A) (f : A → M State string (option swapNeed)) s0,
    calm s s0 → stable quiet svc → (∀ a s', calm s s' → wp (f a) Q (λ _, calm s) s') → wp (or_wait svc f) Q (λ _, calm s) s0).
  { intros A svc f s0 C0 Hs Hf. unfold or_wait. eapply calm_then; [exact C0 | by apply attempt_stable, ask_calm | done |].
    intros [a|] s' C'; [by apply Hf | by rewrite wp_ret]. }
  unfold alephNeed. destruct (_ || _); [by rewrite wp_ret|]. cbv zeta.
  eapply calm_then; [reflexivity | eauto with ops | done |]. intros now s0 C0.
  apply Hw; [exact C0 | eauto with ops |]. intros perDay s1 C1.
  apply Hw; [exact C1 | eauto with ops |]. intros have s2 C2.
  apply Hw; [exact C2 | |]. { apply stable_if; intros _; stable_steps. }
  intros total s3 C3. apply Hw; [exact C3 | eauto with ops |]. intros wei s4 C4.
  apply Hw; [exact C4 | eauto with ops |]. intros quote s5 C5.
  destruct (RatSetString quote); [|by rewrite wp_ret]. destruct (not_positive _); [by rewrite wp_ret|].
  destruct (_ || _); rewrite wp_ret; (split; [done|]); intros n [= <-]. done.
Qed.

(** Where a purchase may go. *)
Definition destination_ok (treasuryAddress : string) (need : swapNeed) : Prop :=
  (need.(ne_to), need.(ne_addressTo)) ∈ [(tronTRX, treasuryAddress); (siacoin, cfg.(tc_SiaAddress)); (ether, cfg.(tc_AlephFundAddress))].

Lemma needs_wp balance T s :
  wp (needs cfg balance T) (λ ns s', calm s s' ∧ (live cfg = true → Forall (destination_ok T) ns)) (λ _, calm s) s.
Proof.
  unfold needs. rewrite wp_bind. eapply wp_mono; [apply siaNeed_wp | | done]. intros sia s1 [C1 Hsia].
  rewrite wp_bind. eapply wp_mono; [apply alephNeed_wp | | intros e s' C; by transitivity s1]. intros aleph s2 [C2 Hal]. cbv beta.
  rewrite wp_ret. split; [by transitivity s1|]. intros Hl. apply Forall_app. split; [|apply Forall_app; split].
  - destruct (_ <? _); constructor; [|constructor]. unfold destination_ok. cbn. set_solver.
  - destruct sia as [n|]; constructor; [|constructor]. destruct (Hsia n eq_refl Hl) as [E1 E2]. unfold destination_ok. rewrite E1, E2. set_solver.
  - destruct aleph as [n|]; constructor; [|constructor]. destruct (Hal n eq_refl) as [E1 E2]. unfold destination_ok. rewrite E1, E2. set_solver.
Qed.

(** *** Swapping *)

Hypothesis minimum_positive : 0 < cfg.(tc_MinSwapMicro).

(** An exchange was created and, when it is what was asked for, paid. *)
Definition exchanged (need : swapNeed) (treasuryAddress : string) (amount : Z) (s s' : State) : Prop :=
  ∃ answer s1,
    later (base s) (base s1)
    ∧ trace s1 = trace s ++ [Created need.(ne_to) (microToDecimal amount) need.(ne_addressTo) treasuryAddress answer]
    ∧ s1.(tr_paid) = s.(tr_paid) ∧ s1.(tr_budget) = s.(tr_budget) - amount
    ∧ (calm s1 s' ∨ ∃ exchange act r s2,
         answer = inr exchange ∧ to_currency exchange = need.(ne_to) ∧ EqualFold exchange.(ex_AddressTo) need.(ne_addressTo) = true
         ∧ usdt_action treasuryAddress exchange.(ex_AddressFrom) amount act ∧ emitted treasuryIndex treasuryAddress act r s1 s2
         ∧ s' = match r with
                | inr txID => s2 <| tr_paid ::= λ paid, paid ++ [MkPayment (ToLower txID) amount (clock (base s2))] |>
                | inl _ => s2
                end).

Definition bought (need : swapNeed) (treasuryAddress : string) (s s' : State) : Prop :=
  calm s s' ∨ ∃ amount, 0 < amount ≤ cfg.(tc_MaxSwapMicro) ∧ amount ≤ s.(tr_budget) ∧
    (later (base s) (base s') ∧ trace s' = trace s ∧ s'.(tr_paid) = s.(tr_paid) ∧ s'.(tr_budget) = s.(tr_budget) - amount
     ∨ live cfg = true ∧ exchanged need treasuryAddress amount s s').

(** The exchange is checked before it is paid. *)
Lemma pay_wp need T amount exchange s s1 :
  live cfg = true → 0 < amount ≤ cfg.(tc_MaxSwapMicro) → amount ≤ s.(tr_budget) →
  later (base s) (base s1) →
  trace s1 = trace s ++ [Created need.(ne_to) (microToDecimal amount) need.(ne_addressTo) T (inr exchange)] →
  s1.(tr_paid) = s.(tr_paid) → s1.(tr_budget) = s.(tr_budget) - amount →
  let X := bought need T s in
  wp (sent ← succeed (decimalToMicro exchange.(ex_AmountFrom) false);
      refuse_if (negb (bool_decide (from_currency exchange = usdtOnTron)) || negb (bool_decide (to_currency exchange = need.(ne_to))))
        "the exchange is for other currencies"%string;;
      refuse_if (negb (EqualFold exchange.(ex_AddressTo) need.(ne_addressTo))) "the exchange pays another address"%string;;
      refuse_if (negb (sent =? amount)) "the exchange asks for another amount"%string;;
      refuse_if (negb (ValidAddress exchange.(ex_AddressFrom))) "the exchange gave an invalid deposit address"%string;;
      txID ← sendUSDT cfg wallet treasuryIndex T exchange.(ex_AddressFrom) amount;
      at_ ← read_clock;
      modify (λ s, s <| tr_paid ::= λ paid, paid ++ [MkPayment (ToLower txID) amount at_] |>))
    (λ _, X) (λ _, X) s1.
Proof.
  intros Hl Ham Hb L Tr P B X.
  assert (HX : ∀ s', (calm s1 s' ∨ ∃ act r s2, to_currency exchange = need.(ne_to) ∧ EqualFold exchange.(ex_AddressTo) need.(ne_addressTo) = true
         ∧ usdt_action T exchange.(ex_AddressFrom) amount act ∧ emitted treasuryIndex T act r s1 s2
         ∧ s' = match r with
                | inr txID => s2 <| tr_paid ::= λ paid, paid ++ [MkPayment (ToLower txID) amount (clock (base s2))] |>
                | inl _ => s2
                end) → X s').
  { intros s' Hc. right. exists amount. split_and!; try lia. right. split; [done|]. exists (inr exchange), s1. split_and!; try done.
    destruct Hc as [Hc|(act & r & s2 & Hc)]; [by left | right]. by exists exchange, act, r, s2. }
  eapply calm_then; [reflexivity | eauto with ops | intros e s' Hc; apply HX; by left |]. intros sent s2 C2.
  rewrite wp_bind, wp_refuse. split; [intros _; apply HX; by left|]. intros [_ Hto%negb_false_iff%bool_decide_eq_true]%orb_false_iff.
  rewrite wp_bind, wp_refuse. split; [intros _; apply HX; by left|]. intros Hfold%negb_false_iff.
  rewrite wp_bind, wp_refuse. split; [intros _; apply HX; by left|]. intros _.
  rewrite wp_bind, wp_refuse. split; [intros _; apply HX; by left|]. intros _.
  rewrite wp_bind. eapply wp_mono; [apply sendUSDT_wp; lia | |]; cbv beta.
  - intros txID s3 (act & Hact & He). rewrite wp_bind. unfold read_clock. rewrite wp_gets, wp_modify. apply HX. right.
    exists act, (inr txID), s3. split_and!; try done. by eapply emitted_after.
  - intros e s3 [C3|(act & Hact & He)]; apply HX; [left; by transitivity s2|]. right.
    exists act, (inl e), s3. split_and!; try done. by eapply emitted_after.
Qed.

Lemma swap_wp need T s : s.(tr_budget) < 2 ^ 63 →
  wp (swap cfg wallet need T) (λ _, bought need T s) (λ _, bought need T s) s.
Proof.
  intros Hrange. assert (HX : ∀ s', calm s s' → bought need T s s') by (by left).
  unfold swap. eapply calm_then; [reflexivity | eauto with ops | auto |]. intros quote s1 C1.
  rewrite wp_bind, wp_require. split; [|auto]. intros per100 _. rewrite wp_bind, wp_refuse. split; [auto|]. intros _.
  rewrite wp_bind, wp_require. split; [|auto]. intros wantedAmount _. cbv zeta.
  eapply calm_then; [exact C1 | eauto with ops | auto |]. intros wanted s2 C2.
  eapply calm_then; [exact C2 | eauto with ops | auto |]. intros [low high] s3 C3.
  set (minimum := if low =?s "" then _ else _). assert (Hmin : 0 < minimum).
  { unfold minimum. destruct (low =?s ""); [done|]. destruct (decimalToMicro low true); lia. }
  clearbody minimum. rewrite wp_bind, wp_gets. unfold Datatypes.id. destruct C3 as (L3 & T3 & P3 & B3). rewrite B3.
  set (amount := Z.min _ _). destruct (Z.ltb_spec amount minimum) as [_|Hge]; [rewrite wp_ret; by left|].
  assert (Ham : 0 < amount ≤ cfg.(tc_MaxSwapMicro) ∧ amount ≤ s.(tr_budget)) by lia. destruct Ham as [Ham Hb]. clearbody amount.
  assert (C3 : calm s s3) by (by split_and!).
  eapply calm_then; [exact C3 | eauto with ops | auto |]. intros expected s4 (L4 & T4 & P4 & B4).
  rewrite wp_bind, wp_modify. set (s5 := s4 <| tr_budget := _ |>).
  assert (B5 : s5.(tr_budget) = s.(tr_budget) - amount).
  { unfold s5. cbn. rewrite B4. apply wrap64_id. unfold is_int64, min_int64, max_int64. apply andb_true_iff. split; apply Z.leb_le; lia. }
  destruct (live cfg) eqn:Hl; cbn [negb].
  2:{ rewrite wp_ret. right. exists amount. split_and!; try lia. left. by split_and!. }
  rewrite wp_bind. unfold wp at 1, ask. cbn [create recorded]. unfold noted.
  pose proof (moves_create (later:=later) usdtOnTron need.(ne_to) (microToDecimal amount) need.(ne_addressTo) T (base s5)) as Hm.
  fold (base s5). destruct (create _ _ _ _ _ (base s5)) as [w answer] eqn:Ec. cbn [fst] in Hm.
  set (s6 := s5 <| tr_world := _ |>).
  assert (L6 : later (base s) (base s6)) by (by transitivity (base s4)).
  assert (T6 : trace s6 = trace s ++ [Created need.(ne_to) (microToDecimal amount) need.(ne_addressTo) T answer]) by (cbn; by rewrite <-T4).
  destruct answer as [e|exchange].
  - right. exists amount. split_and!; try lia. right. split; [done|]. exists (inl e), s6. split_and!; try done. by left.
  - by apply pay_wp.
Qed.

Lemma bought_budget need T s s' : bought need T s s' → s'.(tr_budget) ≤ s.(tr_budget).
Proof.
  intros [(_ & _ & _ & ->)|(amount & Ham & _ & [(_ & _ & _ & ->)|(_ & answer & s1 & _ & _ & _ & B1 & Hcase)])]; [lia..|].
  destruct Hcase as [(_ & _ & _ & ->)|(exchange & act & r & s2 & _ & _ & _ & _ & He & ->)]; [lia|].
  destruct He as (? & ? & ? & ? & ? & ? & _ & _ & _ & _ & _ & _ & _ & _ & B2). destruct r; cbn; lia.
Qed.

Lemma wrap64_range z : - 2 ^ 63 ≤ wrap64 z < 2 ^ 63.
Proof. unfold wrap64. pose proof (Z.mod_pos_bound (z + 2 ^ 63) (2 ^ 64) ltac:(lia)). lia. Qed.

Lemma count_exchange_wp acc exchange s0 s : calm s0 s → acc.1 < 2 ^ 63 →
  wp (count_exchange acc exchange) (λ acc' s', calm s0 s' ∧ acc'.1 < 2 ^ 63) (λ _, calm s0) s.
Proof.
  intros C0 Hacc. unfold count_exchange. destruct (negb _); [by rewrite wp_ret|]. rewrite wp_bind.
  destruct (_ =?s _); [by rewrite !wp_ret|]. eapply calm_then; [exact C0 | eauto with ops | done |].
  intros micro s1 C1. rewrite !wp_ret. split; [done|]. cbn. apply wrap64_range.
Qed.

(** A conversion: what is spent counts, and then purchases. *)
Lemma convert_wp T s (K0 K : State → Prop) :
  (∀ s1 s2, K s1 → calm s1 s2 → K s2) → (∀ s1, K s1 → K0 s1) →
  (∀ s1, calm s s1 → K0 s1) →
  (∀ s1, calm s s1 → wp (sentSince T (clock (base s) - day_ns))
     (λ sent s2, sent < 2 ^ 63 ∧ ∀ s3, calm s2 s3 → K0 s3 ∧ ∀ spent held, sent ≤ spent < 2 ^ 63 →
        K (s3 <| tr_budget := Z.min (wrap64 (cfg.(tc_MaxDailyMicro) - spent)) held |>)) (λ _, K0) s1) →
  (∀ need s1 s2, (live cfg = true → destination_ok T need) → K s1 → bought need T s1 s2 → K s2) →
  wp (convert cfg wallet T) (λ _, K0) (λ _, K0) s.
Proof.
  intros HKc HK0 Hearly Hsent Hbuy. unfold convert. rewrite wp_bind. unfold read_clock at 1. rewrite wp_gets.
  change (clock (tr_world s)) with (clock (base s)).
  eapply calm_then; [reflexivity | eauto with ops | auto |]. intros balance s1 C1.
  rewrite wp_bind. eapply wp_mono; [by apply Hsent | | done]. intros sent s2 [Hr2 H2].
  eapply calm_then; [reflexivity | eauto with ops | intros e s' C'; by apply H2 |]. intros exchanges s3 C3.
  rewrite wp_bind. eapply wp_mono.
  { eapply (wp_fold _ (λ acc _ s', calm s2 s' ∧ acc.1 < 2 ^ 63) (λ _, calm s2)); [by split|].
    intros acc exchange rest s' [C' Hacc]. eapply wp_mono; [by apply count_exchange_wp | done | done]. }
  2:{ intros e s' C'. by apply H2. }
  intros [swapped inFlight] s4 [C4 Hsw]. cbn [fst] in Hsw. rewrite wp_bind, wp_modify.
  set (s5 := s4 <| tr_budget := _ |>).
  assert (K5 : K s5 ∧ s5.(tr_budget) < 2 ^ 63).
  { split; [apply H2; [done | lia]|]. unfold s5. cbn [tr_budget set_field]. pose proof (wrap64_range (cfg.(tc_MaxDailyMicro) - Z.max swapped sent)). cbn. lia. }
  destruct K5 as [K5 B5]. rewrite wp_bind. eapply wp_mono; [apply needs_wp | | intros e s' C'; apply HK0; by eapply HKc].
  intros ns s6 [C6 Hns]. cbv beta. destruct (_ && _); [rewrite wp_ret; apply HK0; by eapply HKc|].
  assert (K6 : K s6 ∧ s6.(tr_budget) < 2 ^ 63) by (split; [by eapply HKc | destruct C6 as (_ & _ & _ & ->); exact B5]).
  unfold for_each. eapply wp_mono.
  { eapply (wp_fold _ (λ _ rest s', (live cfg = true → Forall (destination_ok T) rest) ∧ K s' ∧ s'.(tr_budget) < 2 ^ 63) (λ _, K0));
      [split; [exact Hns | exact K6]|].
    intros _ need rest s' (Hd & Ks & Hb). unfold buy. destruct (bool_decide _).
    { rewrite wp_ret. split; [|done]. intros Hl. by apply Hd, Forall_cons in Hl as [_ ?]. }
    rewrite wp_bind. apply wp_attempt.
    eapply wp_mono; [by apply swap_wp | |]; intros ? s7 Hbo; cbv beta; rewrite wp_ret;
      (split; [intros Hl; by apply Hd, Forall_cons in Hl as [_ ?]|]); (split; [|pose proof (bought_budget _ _ _ _ Hbo); lia]);
      (eapply Hbuy; [|exact Ks|exact Hbo]); intros Hl; by apply Hd, Forall_cons in Hl as [? _]. }
  - intros _ s' (_ & Ks & _). by apply HK0.
  - done.
Qed.

(** Sweeps, then a conversion. *)
Lemma treasury_cycle_wp s (K0 : State → Prop) :
  K0 s → (∀ s1 s2, K0 s1 → calm s1 s2 → K0 s2) →
  (∀ T watched s1 s2, WalletAddress wallet treasuryIndex = inr T → 0 < watched.(wd_Index) < 2 ^ 31 →
     K0 s1 → swept watched T s1 s2 → K0 s2) →
  (∀ T s1, WalletAddress wallet treasuryIndex = inr T → K0 s1 → wp (convert cfg wallet T) (λ _, K0) (λ _, K0) s1) →
  wp (treasury_cycle cfg wallet) (λ _, K0) (λ _, K0) s.
Proof.
  intros Hs Hcalm Hsweep Hconv. unfold treasury_cycle. destruct (_ =?s _); [done|].
  destruct (WalletAddress wallet treasuryIndex) as [e|T] eqn:HT; [done|].
  eapply calm_then; [reflexivity | eauto with ops | intros e s' C'; by eapply Hcalm |]. intros watched s1 C1.
  rewrite wp_bind. unfold for_each. eapply wp_mono.
  - eapply (wp_fold _ (λ _ _ s', K0 s') (λ _, K0)); [by eapply Hcalm|]. intros _ address rest s2 K2. unfold sweep_one.
    destruct (_ || _) eqn:Hidx; [by rewrite wp_ret|]. apply orb_false_iff in Hidx as [Hlow%Z.leb_gt Hhigh%Z.ltb_ge].
    rewrite wp_bind. apply wp_attempt.
    assert (Hp : ∀ s3, swept address T s2 s3 → K0 (s3 <| tr_world ::= pace |>)).
    { intros s3 Hsw. eapply Hcalm; [eapply (Hsweep T address s2 s3); try done; cbn in Hlow; lia|].
      split_and!; try done. apply moves_pace. }
    eapply wp_mono; [apply sweep_wp | |]; cbv beta; intros ? s3 Hsw; rewrite wp_modify; by apply Hp.
  - intros u s2 K2. by apply Hconv.
  - done.
Qed.
End traced.

(** *** Every transaction and exchange *)

Section safety.
Context `{Base58} `{Curve} `{!HDKeys}.
Variable cfg : treasuryConfig.
Variable wallet : Tron.Wallet.

(** The bytes [rawData] say [act] and are signed with the key of [index]. *)
Definition signed_action (index : N) (rawData signature : list N) (act : action) : Prop :=
  ∃ key tx fee now ref, Key wallet index = inr key ∧ rawData = Encode tx ∧ signature = Tron.Sign rawData key ∧ says tx act fee now ref.

(** What may leave the process, after the effects [before]. *)
Definition legit (before : list effect) (e : effect) : Prop :=
  live cfg = true ∧ ∃ T, WalletAddress wallet treasuryIndex = inr T ∧
  match e with
  | Created to amount addressTo refundAddress _ =>
    (to, addressTo) ∈ [(tronTRX, T); (siacoin, cfg.(tc_SiaAddress)); (ether, cfg.(tc_AlephFundAddress))] ∧ refundAddress = T
  | Sent _ rawData signature _ => ∃ index act, signed_action index rawData signature act ∧
    (* the fee of a sweep *)
    (index = treasuryIndex ∧ (∃ to sun, sun ≤ cfg.(tc_SweepFeeSun) ∧ trx_action T to sun act)
     (* a sweep *)
     ∨ (0 < index < HardenedKeyStart)%N ∧ (∃ from micro, WalletAddress wallet index = inr from ∧ usdt_action from T micro act)
     (* a payment of the exchange that was just created *)
     ∨ index = treasuryIndex ∧ ∃ to addressTo exchange micro, micro ≤ cfg.(tc_MaxSwapMicro)
       ∧ last before = Some (Created to (microToDecimal micro) addressTo T (inr exchange))
       ∧ to_currency exchange = to ∧ EqualFold exchange.(ex_AddressTo) addressTo = true
       ∧ usdt_action T exchange.(ex_AddressFrom) micro act)
  end.

Definition legit_trace (tr : list effect) : Prop := ∀ before e after, tr = before ++ e :: after → legit before e.

Lemma legit_nil : legit_trace [].
Proof. intros before x after E. by destruct before. Qed.

Lemma legit_snoc tr e : legit_trace tr → legit tr e → legit_trace (tr ++ [e]).
Proof.
  intros Htr He before e' after E. destruct after as [|a after _] using rev_ind.
  - by apply app_inj_tail in E as [<- <-].
  - rewrite app_comm_cons, app_assoc in E. apply app_inj_tail in E as [-> _]. by eapply Htr.
Qed.

Context {W : Type} `{HS : !TreasuryServices W}.
Abbreviation anywhere := (λ _ _ : W, True).
#[local] Existing Instance recorded.

Lemma emitted_signed index from act r (s s' : Treasury (Traced W)) : emitted anywhere wallet index from act r s s' →
  WalletAddress wallet index = inr from ∧
  ∃ time rawData signature, trace s' = trace s ++ [Sent time rawData signature r] ∧ signed_action index rawData signature act.
Proof.
  intros (k & tx & fee & now & ref & w & Hk & Ha & Hsays & _ & _ & _ & Tr & _).
  split; [unfold WalletAddress; rewrite Hk; cbn; by rewrite Ha|].
  eexists _, _, _. split; [exact Tr|]. exists k, tx, fee, now, ref. by split_and!.
Qed.

Lemma swept_legit watched T (s s' : Treasury (Traced W)) :
  WalletAddress wallet treasuryIndex = inr T → 0 < watched.(wd_Index) < 2 ^ 31 →
  legit_trace (trace s) → swept anywhere cfg wallet watched T s s' → legit_trace (trace s').
Proof.
  intros HT Hidx Hs [(_ & -> & _)|(Hl & act & r & [[(sun & Hsun & Hact) He]|[(micro & Hact) He]])]; [done|..];
    apply emitted_signed in He as (Hw & time & rawData & signature & -> & Hsig); apply legit_snoc; try done; split; try done;
    exists T; (split; [done|]); eexists _, act; (split; [exact Hsig|]).
  - left. split; [done|]. by exists watched.(wd_Address), sun.
  - right. left. rewrite Z.mod_small by lia. split; [unfold HardenedKeyStart; lia|]. exists watched.(wd_Address), micro.
    rewrite Z.mod_small in Hw by lia. done.
Qed.

Lemma bought_legit need T (s s' : Treasury (Traced W)) :
  WalletAddress wallet treasuryIndex = inr T → (live cfg = true → destination_ok cfg T need) →
  legit_trace (trace s) → bought anywhere cfg wallet need T s s' → legit_trace (trace s').
Proof.
  intros HT Hd Hs [(_ & -> & _)|(amount & Ham & _ & [(_ & -> & _)|(Hl & answer & s1 & _ & T1 & _ & _ & Hcase)])]; [done..|].
  assert (Hs1 : legit_trace (trace s1)).
  { rewrite T1. apply legit_snoc; [done|]. split; [done|]. exists T. split; [done|]. split; [by apply Hd | done]. }
  destruct Hcase as [(_ & -> & _)|(exchange & act & r & s2 & -> & Hto & Hfold & Hact & He & ->)]; [done|].
  apply emitted_signed in He as (_ & time & rawData & signature & T2 & Hsig).
  assert (Hs2 : legit_trace (trace s2)).
  { rewrite T2. apply legit_snoc; [done|]. split; [done|]. exists T. split; [done|]. exists treasuryIndex, act. split; [done|].
    right. right. split; [done|]. exists need.(ne_to), need.(ne_addressTo), exchange, amount. rewrite T1, last_snoc.
    split_and!; try done; lia. }
  by destruct r.
Qed.

(** The treasury's cycles, one after the other; what a cycle fails with is logged. *)
Fixpoint run_treasury (n : nat) (s : Treasury (Traced W)) : Treasury (Traced W) :=
  match n with O => s | S n' => (treasury_cycle cfg wallet (run_treasury n' s)).1 end.

Lemma run_treasury_inv (K0 : Treasury (Traced W) → Prop) n s :
  (∀ s, K0 s → wp (treasury_cycle cfg wallet) (λ _, K0) (λ _, K0) s) → K0 s → K0 (run_treasury n s).
Proof.
  intros Hstep Hs. induction n as [|n IH]; [done|]. cbn [run_treasury].
  specialize (Hstep _ IH). revert Hstep. generalize (run_treasury n s). intros s1.
  unfold wp. by destruct (treasury_cycle cfg wallet s1) as [s' [e|[]]].
Qed.

Lemma sentSince_trace T since (s : Treasury (Traced W)) :
  let Q := λ s', trace s' = trace s in
  wp (sentSince T since) (λ sent s', sent < 2 ^ 63 ∧ Q s') (λ _, Q) s.
Proof.
  intros Q. unfold sentSince. rewrite wp_bind. apply (wp_ask anywhere); [done|]. intros w [e|transfers] _ _ s'; [done|].
  rewrite wp_bind, wp_gets, wp_bind, wp_modify, wp_ret. split; [|done].
  set (total := foldl _ _ transfers). assert (Ht : total < 2 ^ 63).
  { unfold total. destruct transfers as [|t l _] using rev_ind; [done|]. rewrite foldl_snoc. apply wrap64_range. }
  clearbody total. revert total Ht. induction (List.filter _ _) as [|p l IH]; intros total Ht; [done|]. cbn [foldl].
  apply IH. destruct (bool_decide _); [done | apply wrap64_range].
Qed.
End safety.

(** *** The daily cap *)

Definition total (l : list exchangePayment) : Z := foldr (λ p acc, p.(ep_micro) + acc) 0 l.
Definition since (t : Z) (l : list exchangePayment) : list exchangePayment := List.filter (λ p, t <=? p.(ep_at)) l.
Definition within (from to : Z) (l : list exchangePayment) : list exchangePayment :=
  List.filter (λ p, (from <=? p.(ep_at)) && (p.(ep_at) <=? to)) l.

Lemma total_app l1 l2 : total (l1 ++ l2) = total l1 + total l2.
Proof. unfold total. induction l1 as [|p l1 IH]; cbn [app foldr]; [lia | rewrite IH; lia]. Qed.

Lemma total_nonneg l : Forall (λ p, 0 ≤ p.(ep_micro)) l → 0 ≤ total l.
Proof. unfold total. induction 1; cbn [foldr]; lia. Qed.

Lemma total_sublist l1 l2 : l1 `sublist_of` l2 → Forall (λ p, 0 ≤ p.(ep_micro)) l2 → total l1 ≤ total l2.
Proof.
  induction 1 as [|p l1 l2 _ IH|p l1 l2 _ IH]; [done|..]; intros [Hp Hl]%Forall_cons; cbn [total foldr]; fold (total l1) (total l2);
    specialize (IH Hl); lia.
Qed.

Lemma filter_sublist {A} (f : A → bool) l : List.filter f l `sublist_of` l.
Proof. induction l as [|x l IH]; cbn; [done|]. destruct (f x); by constructor. Qed.

Lemma filter_sublist_mono {A} (f g : A → bool) l : (∀ x, f x = true → g x = true) → List.filter f l `sublist_of` List.filter g l.
Proof.
  intros Hfg. induction l as [|x l IH]; cbn; [done|]. destruct (f x) eqn:Ef.
  - rewrite (Hfg x Ef). by constructor.
  - destruct (g x); [by constructor | done].
Qed.

Lemma sublist_filter {A} (f : A → bool) l1 l2 : l1 `sublist_of` l2 → List.filter f l1 `sublist_of` List.filter f l2.
Proof. induction 1 as [|x l1 l2 _ IH|x l1 l2 _ IH]; cbn; [done|..]; destruct (f x); by try constructor. Qed.

Lemma since_since t t' l : t ≤ t' → since t' (since t l) = since t' l.
Proof.
  intros Ht. unfold since. induction l as [|p l IH]; [done|]. cbn. destruct (Z.leb_spec t p.(ep_at)); cbn.
  - by rewrite IH.
  - rewrite (proj2 (Z.leb_gt _ _)) by lia. done.
Qed.

(** Sums that stay in range do not wrap. *)
Lemma foldl_wrap {A} (f : A → Z) l acc : 0 ≤ acc → Forall (λ x, 0 ≤ f x) l → acc + foldr (λ x s, f x + s) 0 l < 2 ^ 63 →
  foldl (λ t x, wrap64 (t + f x)) acc l = acc + foldr (λ x s, f x + s) 0 l.
Proof.
  intros Hacc Hl. revert acc Hacc. induction Hl as [|x l Hx Hl IH]; intros acc Hacc Hsum; cbn [foldl foldr] in *; [lia|].
  assert (0 ≤ foldr (λ x s, f x + s) 0 l) by (clear -Hl; induction Hl; cbn; lia).
  rewrite wrap64_id by (unfold is_int64, min_int64, max_int64; apply andb_true_iff; split; apply Z.leb_le; lia).
  rewrite IH; lia.
Qed.

(** The transfers show the payment. *)
Definition shown (ts : list usdtTransfer) (p : exchangePayment) : bool :=
  bool_decide (p.(ep_txID) ∈ ((λ t, ToLower t.(ut_TxID)) <$> ts)).
Definition total_sent (ts : list usdtTransfer) : Z := foldr (λ t s, t.(ut_AmountMicro) + s) 0 ts.

Lemma total_sent_perm ts ts' : ts ≡ₚ ts' → total_sent ts = total_sent ts'.
Proof. unfold total_sent. induction 1; cbn [foldr]; lia. Qed.

Lemma total_sent_nonneg ts : Forall (λ t, 0 ≤ t.(ut_AmountMicro)) ts → 0 ≤ total_sent ts.
Proof. unfold total_sent. induction 1; cbn [foldr]; lia. Qed.

(** Payments with IDs of their own that the transfers show are in their sum. *)
Lemma shown_total l : NoDup (ep_txID <$> l) → ∀ ts, Forall (λ t, 0 ≤ t.(ut_AmountMicro)) ts →
  (∀ p t, p ∈ l → t ∈ ts → p.(ep_txID) = ToLower t.(ut_TxID) → t.(ut_AmountMicro) = p.(ep_micro)) →
  total (List.filter (shown ts) l) ≤ total_sent ts.
Proof.
  induction l as [|p l IH]; intros Hnd ts Hts Htrue; [by apply total_sent_nonneg|].
  cbn [fmap list_fmap] in Hnd. apply NoDup_cons in Hnd as [Hp Hnd]. cbn [List.filter]. destruct (shown ts p) eqn:Hs.
  2:{ apply IH; [done..|]. intros q t Hq. apply Htrue. by right. }
  apply bool_decide_eq_true, list_elem_of_fmap in Hs as (t & Et & [ts' Hperm]%elem_of_Permutation).
  rewrite (total_sent_perm _ _ Hperm). rewrite Hperm in Hts. apply Forall_cons in Hts as [Ht Hts].
  assert (Ef : List.filter (shown ts) l = List.filter (shown ts') l).
  { apply List.filter_ext_in. intros q Hq%list_elem_of_In. unfold shown. apply bool_decide_ext.
    rewrite Hperm. cbn [fmap list_fmap]. rewrite elem_of_cons. split; [|by right]. intros [E|?]; [|done].
    destruct Hp. rewrite Et, <-E. apply list_elem_of_fmap. eauto. }
  rewrite Ef. cbn [total foldr total_sent]. fold (total (List.filter (shown ts') l)) (total_sent ts').
  rewrite <-(Htrue p t) by first [done | by left | rewrite Hperm; by left].
  assert (total (List.filter (shown ts') l) ≤ total_sent ts'); [|lia].
  apply IH; [done..|]. intros q u Hq Hu. apply Htrue; [by right | rewrite Hperm; by right].
Qed.

Lemma foldl_skip {A B} (f : A → bool) (g : B → A → B) l acc :
  foldl (λ b x, if f x then b else g b x) acc l = foldl g acc (List.filter (λ x, negb (f x)) l).
Proof. revert acc. induction l as [|x l IH]; intros acc; cbn; [done|]. rewrite IH. by destruct (f x). Qed.

Lemma total_split (f : exchangePayment → bool) l : total l = total (List.filter f l) + total (List.filter (λ p, negb (f p)) l).
Proof.
  unfold total. induction l as [|p l IH]; [done|]. cbn [foldr List.filter]. rewrite IH. destruct (f p); cbn [negb foldr]; lia.
Qed.

Lemma NoDup_filter_ids f l : NoDup (ep_txID <$> l) → NoDup (ep_txID <$> List.filter f l).
Proof. intros Hnd. eapply sublist_NoDup; [exact Hnd|]. apply fmap_sublist, filter_sublist. Qed.

Lemma Forall_filter_b {A} (P : A → Prop) f l : Forall P l → Forall P (List.filter f l).
Proof. induction 1; cbn; [done|]. destruct (f _); by try constructor. Qed.

Definition action_of (rawData : list N) : option action := decode_raw rawData ≫= decode_action.

(** What the code relies on of the clock and of Tron: time does not go back; a
    transaction that was accepted has the ID of its bytes, and is accepted once
    ([seen] are the IDs of those accepted); a transfer that is listed for it has the
    amount its bytes say; transfers are not negative, and those of a day are fewer
    than there are dollars. *)
Class ChainLaws (W : Type) `{TreasuryServices W} (seen : W → gset string) : Prop := {
  chain_moves :: Moves W (λ w w', clock w ≤ clock w' ∧ seen w ⊆ seen w');
  chain_broadcast rawData signature w w' id : broadcast rawData signature w = (w', inr id) →
    id = hex_encode (TxID rawData) ∧ id ∉ seen w ∧ id ∈ seen w';
  chain_sent address since w w' ts : usdtSent address since w = (w', inr ts) →
    Forall (λ t, 0 ≤ t.(ut_AmountMicro)) ts ∧ total_sent ts ≤ 2 ^ 62
    ∧ ∀ t rawData owner token acct units, t ∈ ts → ToLower t.(ut_TxID) = hex_encode (TxID rawData) →
        action_of rawData = Some (TokenTransfer owner token acct units) → t.(ut_AmountMicro) = Z.of_N units }.

(** The payment an effect is: USDT that was sent from [T] to another address. *)
Definition outgoing `{Base58} (T : string) (e : effect) : option exchangePayment :=
  match e with
  | Sent time rawData _ (inr id) =>
    match action_of rawData, AddressBytes T with
    | Some (TokenTransfer owner _ acct units), inr own =>
      if bool_decide (owner = own ∧ own ≠ addressVersion :: acct) then Some (MkPayment (ToLower id) (Z.of_N units) time) else None
    | _, _ => None
    end
  | _ => None
  end.

(** The USDT that left [T] between two times. *)
Definition left_between `{Base58} (T : string) (from to : Z) (tr : list effect) : Z := total (within from to (omap (outgoing T) tr)).


Lemma ToLower_hex raw : octets raw → ToLower (hex_encode raw) = hex_encode raw.
Proof.
  assert (Hd : ∀ n, (n < 16)%N → lower_ascii (hex_digit n) = hex_digit n).
  { intros n Hn. assert (Hin : n ∈ (N.of_nat <$> seq 0 16)) by (apply list_elem_of_fmap; exists (N.to_nat n); split; [lia | apply elem_of_seq; lia]).
    assert (Hall : Forall (λ n, lower_ascii (hex_digit n) = hex_digit n) (N.of_nat <$> seq 0 16)) by (by repeat constructor).
    by eapply Forall_forall in Hin; [|exact Hall]. }
  intros Hraw. unfold ToLower, hex_encode. rewrite bytes_of_bytes. f_equal.
  induction Hraw as [|b raw Hb _ IH]; [done|]. cbn [flat_map app fmap list_fmap]. rewrite IH, !Hd; [done | solve_divmod | solve_divmod].
Qed.

Section cap.
Context `{Base58} `{Curve} `{!HDKeys} {W : Type} `{HS : !TreasuryServices W} (seen : W → gset string) `{!ChainLaws W seen}.
Variable cfg : treasuryConfig.
Variable wallet : Tron.Wallet.
Variable T : string.
Hypothesis treasury_address : WalletAddress wallet treasuryIndex = inr T.
Hypothesis caps : 0 < cfg.(tc_MinSwapMicro) ≤ cfg.(tc_MaxSwapMicro) ∧ cfg.(tc_MaxSwapMicro) ≤ cfg.(tc_MaxDailyMicro) < 2 ^ 62.
#[local] Existing Instance recorded.
Abbreviation State := (Treasury (Traced W)).
Abbreviation later := (λ w w' : W, clock w ≤ clock w' ∧ seen w ⊆ seen w').

(** A payment in the books. *)
Definition entry (w : W) (p : exchangePayment) : Prop :=
  p.(ep_txID) ∈ seen w ∧ 0 ≤ p.(ep_micro) ∧ p.(ep_at) ≤ clock w
  ∧ ∃ rawData owner token acct, p.(ep_txID) = hex_encode (TxID rawData)
      ∧ action_of rawData = Some (TokenTransfer owner token acct (Z.to_N p.(ep_micro))).

Definition sent_from (s : State) : list exchangePayment := omap (outgoing T) (trace s).
Definition capped (s : State) : Prop := ∀ t, left_between T (t - day_ns) t (trace s) ≤ cfg.(tc_MaxDailyMicro).
Definition booked (s : State) : Prop := NoDup (ep_txID <$> s.(tr_paid)) ∧ Forall (entry (base s)) s.(tr_paid).

(** Between conversions: what was paid since [c] is in the books, and the books
    are within the cap. *)
Definition kept_books (s : State) : Prop :=
  capped s ∧ booked s ∧ (∀ t, total (within (t - day_ns) t s.(tr_paid)) ≤ cfg.(tc_MaxDailyMicro))
  ∧ ∃ c, c ≤ clock (base s) - day_ns ∧ since c (sent_from s) `sublist_of` s.(tr_paid).

(** During one that began at [now]: the books, and what may still be spent. *)
Definition open_books (now : Z) (s : State) : Prop :=
  capped s ∧ booked s ∧ now ≤ clock (base s) ∧ since (now - day_ns) (sent_from s) `sublist_of` s.(tr_paid)
  ∧ total s.(tr_paid) + Z.max 0 s.(tr_budget) ≤ cfg.(tc_MaxDailyMicro).

Lemma entry_later w w' p : later w w' → entry w p → entry w' p.
Proof. intros [Hc Hs] (Hseen & Hpos & Hat & Hraw). split_and!; [set_solver | done | lia | done]. Qed.

Lemma booked_later s s' : later (base s) (base s') → s'.(tr_paid) = s.(tr_paid) → booked s → booked s'.
Proof. intros L E [Hnd Hent]. split; rewrite E; [done|]. eapply Forall_impl; [exact Hent|]. intros p. by apply entry_later. Qed.

Lemma booked_nonneg s : booked s → Forall (λ p, 0 ≤ p.(ep_micro)) s.(tr_paid).
Proof. intros [_ Hent]. eapply Forall_impl; [exact Hent|]. by intros p (_ & ? & _). Qed.

Lemma kept_calm s s' : kept_books s → calm later s s' → kept_books s'.
Proof.
  intros (Hcap & Hb & Hw & c & Hc & Hsub) (L & Tr & P & _). unfold kept_books, capped, sent_from. rewrite Tr, P.
  split_and!; [done | by eapply booked_later | done|]. exists c. split; [destruct L; lia | done].
Qed.

Lemma open_calm now s s' : open_books now s → calm later s s' → open_books now s'.
Proof.
  intros (Hcap & Hb & Hc & Hsub & Htot) (L & Tr & P & B). unfold open_books, capped, sent_from. rewrite Tr, P, B.
  split_and!; try done; [by eapply booked_later | destruct L; lia].
Qed.

Lemma open_kept now s : open_books now s → kept_books s.
Proof.
  intros (Hcap & Hb & Hc & Hsub & Htot). split_and!; [done | done | |].
  - intros t. etransitivity; [apply (total_sublist _ s.(tr_paid)); [apply filter_sublist | by apply booked_nonneg] | lia].
  - exists (now - day_ns). split; [lia | done].
Qed.

(** Reading what was sent opens the books. *)
Lemma sentSince_books s s1 : kept_books s → calm later s s1 →
  wp (sentSince T (clock (base s) - day_ns))
    (λ sent s2, sent < 2 ^ 63 ∧ ∀ s3, calm later s2 s3 → kept_books s3 ∧ ∀ spent held, sent ≤ spent < 2 ^ 63 →
       open_books (clock (base s)) (s3 <| tr_budget := Z.min (wrap64 (cfg.(tc_MaxDailyMicro) - spent)) held |>))
    (λ _, kept_books) s1.
Proof.
  intros Hk C1. unfold sentSince. rewrite wp_bind. apply (wp_ask later); [apply moves_usdtSent|]. intros w r Hr Lw s2.
  assert (C2 : calm later s s2) by (transitivity s1; [done|]; split; [exact Lw | by split_and!]).
  destruct r as [e|ts]; [by eapply kept_calm|]. apply (chain_sent (seen:=seen)) in Hr as (Hpos & Hsum & Htrue).
  rewrite wp_bind, wp_gets, wp_bind, wp_modify, wp_ret. unfold Datatypes.id.
  destruct Hk as (Hcap & Hb & Hw & c & Hc & Hsub), C2 as (L2 & T2 & P2 & B2). rewrite P2.
  set (now := clock (base s)) in *.
  replace (List.filter (λ p, negb (p.(ep_at) <? now - day_ns)) s.(tr_paid)) with (since (now - day_ns) s.(tr_paid))
    by (apply List.filter_ext; intros p; apply Z.leb_antisym).
  set (kept := since (now - day_ns) s.(tr_paid)).
  assert (Hnn : Forall (λ p, 0 ≤ p.(ep_micro)) kept) by (by apply Forall_filter_b, booked_nonneg).
  assert (Hkept : total kept ≤ cfg.(tc_MaxDailyMicro)).
  { etransitivity; [|apply (Hw now)]. apply Z.eq_le_incl. f_equal. apply List.filter_ext_in. intros p Hp%list_elem_of_In.
    destruct Hb as [_ Hent]. eapply Forall_forall in Hent; [|exact Hp]. destruct Hent as (_ & _ & Hat & _).
    rewrite (proj2 (Z.leb_le p.(ep_at) now)) by done. by rewrite andb_true_r. }
  assert (Hshown : total (List.filter (shown ts) kept) ≤ total_sent ts).
  { apply shown_total; [by apply NoDup_filter_ids, Hb | done |]. intros p t Hp Ht E.
    apply list_elem_of_In, filter_In in Hp as [Hp%list_elem_of_In _]. destruct Hb as [_ Hent]. eapply Forall_forall in Hent; [|exact Hp].
    destruct Hent as (_ & Hm & _ & rawData & owner & token & acct & Eid & Hact).
    rewrite (Htrue t rawData owner token acct (Z.to_N p.(ep_micro))) by congruence || done. lia. }
  set (sent := foldl _ _ kept). assert (Hsent : sent = total_sent ts + total (List.filter (λ p, negb (shown ts p)) kept)).
  { unfold sent. rewrite (foldl_wrap ut_AmountMicro) by (done || (fold (total_sent ts); lia)). fold (total_sent ts).
    rewrite (foldl_skip (shown ts) (λ t p, wrap64 (t + p.(ep_micro)))).
    pose proof (total_split (shown ts) kept). pose proof (total_nonneg _ (Forall_filter_b _ (shown ts) _ Hnn)).
    rewrite (foldl_wrap ep_micro); [done | pose proof (total_sent_nonneg ts Hpos); lia | by apply Forall_filter_b |].
    fold (total (List.filter (λ p, negb (shown ts p)) kept)). lia. }
  clearbody sent. pose proof (total_split (shown ts) kept) as Hsplit. pose proof (total_nonneg _ Hnn) as Hk0.
  pose proof (total_nonneg _ (Forall_filter_b _ (shown ts) _ Hnn)). split; [lia|].
  intros s3 (L3 & T3 & P3 & B3). cbn [tr_paid set_field] in P3.
  assert (Hsub3 : since (now - day_ns) (sent_from s3) `sublist_of` s3.(tr_paid)).
  { rewrite P3. unfold sent_from. rewrite T3. change (trace (s2 <| tr_paid := kept |>)) with (trace s2). rewrite T2.
    rewrite <-(since_since c (now - day_ns)) by lia. by apply sublist_filter. }
  assert (L : later (base s) (base s3)).
  { change (base (s2 <| tr_paid := kept |>)) with (base s2) in L3. destruct L2, L3. split; [lia | set_solver]. }
  assert (Hcap3 : capped s3).
  { unfold capped. rewrite T3. change (trace (s2 <| tr_paid := kept |>)) with (trace s2). by rewrite T2. }
  assert (Hb3 : booked s3).
  { split; rewrite P3; cbn; [by apply NoDup_filter_ids, Hb|]. apply Forall_filter_b. eapply Forall_impl; [apply Hb|].
    intros p. by apply entry_later. }
  split.
  - split_and!; [done | done | |].
    + intros t. rewrite P3. etransitivity; [apply (total_sublist _ kept); [apply filter_sublist | done] | done].
    + exists (now - day_ns). split; [destruct L; unfold now; lia | done].
  - intros spent held Hspent. split_and!; try done; [apply L|].
    change (total s3.(tr_paid) + Z.max 0 (Z.min (wrap64 (cfg.(tc_MaxDailyMicro) - spent)) held) ≤ cfg.(tc_MaxDailyMicro)).
    rewrite P3. change (tr_paid (s2 <| tr_paid := kept |>)) with kept.
    rewrite wrap64_id by (unfold is_int64, min_int64, max_int64; apply andb_true_iff; split; apply Z.leb_le; lia). lia.
Qed.

(** A broadcast, in the books' terms. *)
Lemma emitted_sent index from act r s s' : emitted later wallet index from act r s s' →
  ∃ w rawData signature, later (base s) w ∧ later w (base s') ∧ broadcast rawData signature w = (base s', r)
    ∧ action_of rawData = Some act ∧ sent_from s' = sent_from s ++ option_list (outgoing T (Sent (clock (base s')) rawData signature r))
    ∧ s'.(tr_paid) = s.(tr_paid) ∧ s'.(tr_budget) = s.(tr_budget).
Proof.
  intros (k & tx & fee & now & ref & w & _ & _ & (Hraw & Hact & _) & L1 & L2 & Hb & Tr & P & B).
  exists w, (Encode tx), (Tron.Sign (Encode tx) k). split_and!; try done; [apply L1 | apply L1 | apply L2 | apply L2 | |].
  - unfold action_of. by rewrite Hraw.
  - unfold sent_from. by rewrite Tr, omap_app.
Qed.

Lemma kept_silent s s' : kept_books s → later (base s) (base s') → sent_from s' = sent_from s → s'.(tr_paid) = s.(tr_paid) → kept_books s'.
Proof.
  intros (Hcap & Hb & Hw & c & Hc & Hsub) L E P. unfold kept_books, capped, left_between. fold (sent_from s'). rewrite E, P.
  split_and!; [done | by eapply booked_later | done|]. exists c. split; [destruct L; lia | done].
Qed.

Lemma swept_books watched s s' : kept_books s → swept later cfg wallet watched T s s' → kept_books s'.
Proof.
  intros Hk [Hc|(_ & act & r & [[(sun & _ & _ & owner & receiver & _ & _ & ->) He]|[(micro & _ & owner & contract & acct & _ & _ & Hto & ->) He]])];
    [by eapply kept_calm|..]; apply emitted_sent in He as (w & rawData & signature & L1 & L2 & _ & Hact & Hsent & P & _);
    (apply (kept_silent s); [done | destruct L1, L2; split; [lia | set_solver] | | done]);
    rewrite Hsent; cbn [outgoing]; rewrite Hact; destruct r as [e|id]; try (by rewrite app_nil_r).
  rewrite Hto, bool_decide_false by naive_solver. by rewrite app_nil_r.
Qed.

(** One more payment that the budget allows. *)
Lemma pay_books now amount id rawData signature w s s' owner token acct :
  open_books now s → 0 < amount →
  later (base s) w → broadcast rawData signature w = (base s', inr id) → later w (base s') →
  action_of rawData = Some (TokenTransfer owner token acct (Z.to_N amount)) →
  let p := MkPayment (ToLower id) amount (clock (base s')) in
  sent_from s' = sent_from s ++ option_list (outgoing T (Sent (clock (base s')) rawData signature (inr id))) →
  s'.(tr_paid) = s.(tr_paid) ++ [p] → total s'.(tr_paid) + Z.max 0 s'.(tr_budget) ≤ cfg.(tc_MaxDailyMicro) →
  open_books now s'.
Proof.
  intros (Hcap & Hb & Hc & Hsub & _) Ham L1 Hbr L2 Hact p Hsent P Hbud.
  apply (chain_broadcast (seen:=seen)) in Hbr as (Eid & Hnew & Hseen).
  assert (Hlow : ToLower id = id) by (rewrite Eid; apply ToLower_hex, Sum256_octets).
  assert (Hp : outgoing T (Sent (clock (base s')) rawData signature (inr id)) = Some p
            ∨ outgoing T (Sent (clock (base s')) rawData signature (inr id)) = None).
  { cbn [outgoing]. rewrite Hact. destruct (AddressBytes T); [by right|]. destruct (bool_decide _); [left | by right].
    unfold p. by rewrite Z2N.id by lia. }
  assert (Ep : p.(ep_txID) = id ∧ p.(ep_micro) = amount ∧ p.(ep_at) = clock (base s')) by done. destruct Ep as (Ep & Em & Ea). clearbody p.
  assert (L : later (base s) (base s')) by (destruct L1, L2; split; [lia | set_solver]).
  assert (Hb' : booked s').
  { destruct Hb as [Hnd Hent]. split; rewrite P.
    - rewrite fmap_app. apply NoDup_app. split_and!; [done | | apply NoDup_singleton]. cbn [fmap list_fmap]. rewrite Ep.
      intros i (q & -> & Hq)%list_elem_of_fmap Hi%list_elem_of_singleton.
      eapply Forall_forall in Hent; [|exact Hq]. destruct Hent as (Hin & _), L1 as [_ Hss]. apply Hnew. rewrite <-Hi. by apply Hss.
    - apply Forall_app. split; [eapply Forall_impl; [exact Hent|]; intros q; by apply entry_later|]. constructor; [|done].
      unfold entry. rewrite Ep, Em, Ea. split_and!; [done | lia | lia |]. by exists rawData, owner, token, acct. }
  assert (Hsub' : since (now - day_ns) (sent_from s') `sublist_of` s'.(tr_paid)).
  { rewrite Hsent, P. unfold since. rewrite List.filter_app. apply sublist_app; [done|].
    etransitivity; [apply filter_sublist|]. destruct Hp as [->| ->]; cbn; [done | constructor; constructor]. }
  split_and!; try done; [|destruct L; lia].
  intros t. unfold left_between. fold (sent_from s'). destruct Hp as [Hp|Hp]; rewrite Hp in Hsent; cbn [option_list] in Hsent.
  2:{ rewrite Hsent, app_nil_r. apply (Hcap t). }
  destruct ((t - day_ns <=? p.(ep_at)) && (p.(ep_at) <=? t)) eqn:Hin.
  - apply andb_true_iff in Hin as [_ Hin%Z.leb_le]. rewrite Ea in Hin.
    etransitivity; [apply (total_sublist _ s'.(tr_paid)); [|by apply booked_nonneg]|lia].
    etransitivity; [|exact Hsub']. apply filter_sublist_mono. intros q [Hq%Z.leb_le _]%andb_true_iff. apply Z.leb_le. destruct L1, L2. lia.
  - rewrite Hsent. unfold within. rewrite List.filter_app. change (option_list (Some p)) with [p]. cbn [List.filter]. rewrite Hin, app_nil_r. apply (Hcap t).
Qed.

Lemma bought_books now need s s' : open_books now s → bought later cfg wallet need T s s' → open_books now s'.
Proof.
  intros Ho [Hc|(amount & Ham & Hbud & [(L & Tr & P & B)|(_ & answer & s1 & L1 & T1 & P1 & B1 & Hcase)])]; [by eapply open_calm|..];
    pose proof Ho as (Hcap & Hb & Hc & Hsub & Htot).
  - unfold open_books, capped, sent_from. rewrite Tr, P, B. split_and!; try done; [by eapply booked_later | destruct L; lia | lia].
  - assert (E1 : sent_from s1 = sent_from s) by (unfold sent_from; rewrite T1, omap_app; apply app_nil_r).
    assert (Ho1 : open_books now s1).
    { unfold open_books, capped, left_between. fold (sent_from s1). rewrite E1, P1, B1.
      split_and!; try done; [by apply (booked_later s) | destruct L1; lia | lia]. }
    destruct Hcase as [Hcalm|(exchange & act & r & s2 & _ & _ & _ & (_ & owner & token & acct & _ & _ & _ & ->) & He & ->)];
      [by eapply open_calm|].
    apply emitted_sent in He as (w & rawData & signature & L2 & L3 & Hbr & Hact & Hsent & P2 & B2).
    destruct r as [e|id].
    + cbn [outgoing option_list] in Hsent. rewrite app_nil_r in Hsent. destruct Ho1 as (Hcap1 & Hb1 & Hc1 & Hsub1 & Htot1).
      assert (L : later (base s1) (base s2)) by (destruct L2, L3; split; [lia | set_solver]).
      unfold open_books, capped, left_between. fold (sent_from s2). rewrite Hsent, P2, B2.
      split_and!; try done; [by apply (booked_later s1) | destruct L; lia].
    + eapply (pay_books now amount id rawData signature w s1); try done; [lia | cbn; by rewrite P2 |].
      cbn. rewrite P2, B2, P1, B1, total_app. cbn. lia.
Qed.

Hypothesis clock_range : ∀ w : W, 0 ≤ clock w < 2 ^ 63.
Hypothesis account_range : ∀ address w w' balance, account address w = (w', inr balance) → 0 ≤ balance.(ab_TRXSun).
Hypothesis fee_range : cfg.(tc_SweepFeeSun) < 2 ^ 63 ∧ cfg.(tc_SweepFeeLimitSun) < 2 ^ 63.

Lemma cycle_books s : kept_books s → wp (treasury_cycle cfg wallet) (λ _, kept_books) (λ _, kept_books) s.
Proof.
  intros Hk. apply (treasury_cycle_wp later); try done; [apply kept_calm | |].
  - intros T' watched s1 s2 HT _ Hk1. assert (T' = T) as -> by congruence. by apply swept_books.
  - intros T' s1 HT Hk1. assert (T' = T) as -> by congruence.
    apply (convert_wp later cfg wallet clock_range) with (K := open_books (clock (base s1))); try done; [lia | apply open_calm | apply open_kept | | |].
    + intros s2. by apply kept_calm.
    + intros s2 C2. by apply sentSince_books.
    + intros need s2 s3 _. apply bought_books.
Qed.

Lemma run_books n w : kept_books (run_treasury cfg wallet n (newTreasury (w, []))).
Proof.
  apply run_treasury_inv; [apply cycle_books|].
  assert (0 ≤ cfg.(tc_MaxDailyMicro)) by lia. split_and!; [by intros t | split; constructor | by intros t|].
  exists (clock w - day_ns). split; [done | constructor].
Qed.
End cap.

(** *** The configuration *)

Lemma amount_setting_ok Getenv name current n :
  0 < current ≤ max_int64 → amount_setting Getenv name current = inr n → 0 < n ≤ max_int64.
Proof.
  intros Hcur. unfold amount_setting. destruct (_ =?s ""); [intros [= <-]; done|]. unfold decimalToMicro.
  destruct (RatSetString _) as [x|]; [|done]. destruct (negative x); [done|]. cbv zeta.
  destruct (is_int64 _) eqn:Hr; [|done]. apply andb_true_iff in Hr as [_ Hr%Z.leb_le].
  match goal with |- context [?m <=? 0] => destruct (Z.leb_spec m 0) as [|Hpos] end; [done|]. intros [= <-]. done.
Qed.

(** What the caps and fees may be. *)
Definition config_ok (cfg : treasuryConfig) : Prop :=
  cfg.(tc_Mode) ∈ [treasuryOff; treasuryDryRun; treasuryLive]
  ∧ 0 < cfg.(tc_MinSwapMicro) ≤ cfg.(tc_MaxSwapMicro) ∧ cfg.(tc_MaxSwapMicro) ≤ cfg.(tc_MaxDailyMicro) ≤ max_int64
  ∧ 0 < cfg.(tc_SweepMinMicro) ∧ cfg.(tc_SweepFeeSun) = 15000000 ∧ cfg.(tc_SweepFeeLimitSun) = 30000000
  ∧ (cfg.(tc_SiaAddress) = ""%string ∨ siaAddressPattern cfg.(tc_SiaAddress) = true)
  ∧ (cfg.(tc_AlephFundAddress) = ""%string ∨ ethAddressPattern cfg.(tc_AlephFundAddress) = true).

Lemma config_from_env Getenv ParseDuration cfg every :
  treasuryConfigFromEnv Getenv ParseDuration = inr (cfg, every) → config_ok cfg.
Proof.
  unfold treasuryConfigFromEnv. cbv zeta. destruct (bool_decide _) eqn:Hmode; [|done]. apply bool_decide_eq_true in Hmode. cbn [negb].
  destruct (ParseDuration _) as [d|]; [|done]. destruct (d <? _); [done|]. unfold mbind, sum_bind.
  destruct (amount_setting _ "PAYMENTS_SWEEP_MIN_USDT" _) as [|sweepMin] eqn:E1; [done|]. apply amount_setting_ok in E1; [|done].
  destruct (amount_setting _ "PAYMENTS_MIN_SWAP_USDT" _) as [|minSwap] eqn:E2; [done|]. apply amount_setting_ok in E2; [|done].
  destruct (amount_setting _ "PAYMENTS_MAX_SWAP_USDT" _) as [|maxSwap] eqn:E3; [done|]. apply amount_setting_ok in E3; [|done].
  destruct (amount_setting _ "PAYMENTS_MAX_DAILY_USDT" _) as [|maxDaily] eqn:E4; [done|]. apply amount_setting_ok in E4; [|done].
  destruct (number_setting _ "PAYMENTS_SIA_TARGET_SC" _ _ _) as [|target]; [done|].
  destruct (number_setting _ "PAYMENTS_ALEPH_DAYS" _ _ _) as [|days]; [done|].
  match goal with |- context [siaAddressPattern ?a] => set (sia := a) end.
  match goal with |- context [ethAddressPattern (TrimSpace (Getenv "PAYMENTS_ALEPH_FUND_ADDRESS"))] => set (fund := TrimSpace (Getenv "PAYMENTS_ALEPH_FUND_ADDRESS")) end.
  destruct (_ && _) eqn:Es; [done|]. destruct (_ || _) eqn:Ea; [done|]. destruct ((maxSwap <? minSwap) || _) eqn:Ec; [done|].
  apply orb_false_iff in Ea as [Ea _], Ec as [Ec1%Z.ltb_ge Ec2%Z.ltb_ge].
  intros [= <- <-]. clearbody sia fund. unfold config_ok. cbn in *. split_and!; try done; try lia.
  - apply andb_false_iff in Es as [Es%negb_false_iff%str_eqb_eq|Es%negb_false_iff]; [by left | by right].
  - apply andb_false_iff in Ea as [Ea%negb_false_iff%str_eqb_eq|Ea%negb_false_iff]; [by left | by right].
Qed.

(** ** Theorems *)

(** C5: whatever the control plane, TronGrid and SimpleSwap answer, in whatever
    state and however many cycles run, nothing leaves the process unless the
    treasury is live, and then every transaction it broadcasts is signed with a key
    of the wallet and is one of three: TRX from the treasury, at most the fee of a
    sweep; the USDT of a deposit address that the wallet derives, to the treasury;
    or a payment of at most the largest swap from the treasury to the exchange that
    was created just before for this amount, whose answer confirms the currency and
    the address that are bought for, one of the treasury's own, the configured Sia
    address and the configured Aleph address. *)
Theorem treasury_spends_as_configured `{Base58} `{Curve} `{!HDKeys} {W : Type} `{!TreasuryServices W} Getenv ParseDuration cfg every wallet n w
    (Hcfg : treasuryConfigFromEnv Getenv ParseDuration = inr (cfg, every))
    (Hclock : ∀ w : W, 0 ≤ clock w < 2 ^ 63)
    (Haccount : ∀ address w w' balance, account address w = (w', inr balance) → 0 ≤ balance.(ab_TRXSun)) :
  legit_trace cfg wallet (trace (run_treasury cfg wallet n (newTreasury (w, [])))).
Proof.
  apply config_from_env in Hcfg as (_ & Hcaps & _ & _ & Hfee & Hlimit & _).
  apply (run_treasury_inv cfg wallet (λ s, legit_trace cfg wallet (trace s))); [|apply legit_nil].
  intros s Hs. apply (treasury_cycle_wp (λ _ _, True)); try done; [lia | by intros s1 s2 Hs1 (_ & -> & _) | |].
  { intros T watched s1 s2 HT Hidx Hs1. by apply swept_legit. }
  intros T s1 HT Hs1. apply (convert_wp (λ _ _, True)) with (K := λ s, legit_trace cfg wallet (trace s)); try done; [lia | lia | | | |].
  - by intros s2 s3 Hs2 (_ & -> & _).
  - by intros s2 (_ & -> & _).
  - intros s2 (_ & T2 & _). eapply wp_mono; [apply sentSince_trace | |]; cbv beta.
    + intros sent s3 [Hr T3]. split; [done|]. intros s4 (_ & T4 & _).
      assert (Hs4 : legit_trace cfg wallet (trace s4)) by (by rewrite T4, T3, T2). split; [exact Hs4 | by intros spent held _].
    + intros _ s3 T3. by rewrite T3, T2.
  - intros need s2 s3 Hd Hs2. by apply bought_legit.
Qed.

(** C6: whatever SimpleSwap and the control plane answer, in every 24 hours the
    treasury sends exchanges at most the daily cap: the transfers TronGrid
    confirmed, the ones only this process knows of, and the budget of the cycle
    that runs add up to it. *)
Theorem daily_cap_kept `{Base58} `{Curve} `{!HDKeys} {W : Type} `{!TreasuryServices W} (seen : W → gset string)
    Getenv ParseDuration cfg every wallet T n w t
    (Hcfg : treasuryConfigFromEnv Getenv ParseDuration = inr (cfg, every))
    (Hdaily : cfg.(tc_MaxDailyMicro) < 2 ^ 62)
    (HT : WalletAddress wallet treasuryIndex = inr T)
    (Hchain : ChainLaws W seen)
    (Hclock : ∀ w : W, 0 ≤ clock w < 2 ^ 63)
    (Haccount : ∀ address w w' balance, account address w = (w', inr balance) → 0 ≤ balance.(ab_TRXSun)) :
  left_between T (t - day_ns) t (trace (run_treasury cfg wallet n (newTreasury (w, [])))) ≤ cfg.(tc_MaxDailyMicro).
Proof.
  apply config_from_env in Hcfg as (_ & Hcaps & Hcaps' & _ & Hfee & Hlimit & _).
  assert (Hk : kept_books seen cfg T (run_treasury cfg wallet n (newTreasury (w, [])))); [|apply Hk].
  apply run_books; try done; lia.
Qed.

(** ** Samples *)

Module sample.
(** Time in nanoseconds, which every call takes, and the transactions accepted. *)
Record world := MkWorld { time : N; accepted : gset string }.
Definition answer {A} (a : string + A) : Svc world A := λ w, (MkWorld (w.(time) + 10 ^ 8) w.(accepted), a).

Definition env (name : string) : string :=
  if name =?s "PAYMENTS_TREASURY" then "live"
  else if name =?s "PAYMENTS_SIA_ADDRESS" then of_bytes (repeat "a"%char 76)
  else if name =?s "PAYMENTS_MAX_DAILY_USDT" then "200.5" else "".
Definition ParseDuration (s : string) : option Z := if s =?s "30m" then Some (1800 * second_ns) else None.
Definition cfg : treasuryConfig :=
  match treasuryConfigFromEnv env ParseDuration with inr (cfg, _) => cfg | inl _ => defaultTreasuryConfig end.

#[local] Existing Instance base58.check.
#[local] Existing Instance toy_curve.
#[local] Existing Instance toy_hd.
Definition address (index : N) : string := match WalletAddress sample_wallet index with inr a => a | inl _ => ""%string end.
Definition treasury_address : string := Eval vm_compute in address 0.
Definition deposit_address : string := Eval vm_compute in address 1.
(** Not the wallet's. *)
Definition other_address : string := Eval vm_compute in sample_payee.

(** [listed] is what the control plane lists as address 1. *)
Definition services (listed : string) : TreasuryServices world := {|
  clock w := Z.min (Z.of_N w.(time)) (2 ^ 63 - 1);
  pace w := MkWorld (w.(time) + 2 * 10 ^ 8) w.(accepted);
  sweepList := answer (inr [MkWatched 1 listed None]);
  siaWallet := answer (inr (MkSiaWallet (of_bytes (repeat "a"%char 76)) "0"));
  account address := answer (inr (if address =?s treasury_address then MkBalance 60000000 900000000
                                  else if address =?s deposit_address then MkBalance 15000000 30000000
                                  else MkBalance 0 30000000));
  usdtSent _ _ := answer (inr []);
  nowBlock := answer (inr sample_block);
  broadcast rawData _ := λ w,
    let id := hex_encode (TxID rawData) in
    if bool_decide (id ∈ w.(accepted)) then (w, inl "DUP_TRANSACTION_ERROR"%string)
    else (MkWorld (w.(time) + 10 ^ 8) ({[id]} ∪ w.(accepted)), inr id);
  txOutcome _ := answer (inl "not found"%string);
  estimate _ _ _ _ := answer (inr "25000"%string);
  ranges _ _ := answer (inr (""%string, ""%string));
  create from to amount addressTo _ := answer (inr (MkExchange "1" "waiting" "" from.(cu_Ticker) from.(cu_Network)
    to.(cu_Ticker) to.(cu_Network) amount "0" other_address addressTo));
  recent _ := answer (inr []);
  creditBalance _ := answer (inr 0);
  dailySpend _ _ _ := answer (inr 0);
  balanceWei _ := answer (inr 0) |}.

Definition start : world := MkWorld (1700000000 * 10 ^ 9) ∅.
#[local] Existing Instance services.
Definition run (listed : string) (n : nat) : list effect :=
  trace (W:=world) (@run_treasury _ _ _ cfg sample_wallet world (services listed) n (newTreasury (start, []))).
Definition summary (e : effect) : option action :=
  match e with Sent _ rawData _ _ => action_of rawData | Created _ _ _ _ _ => None end.

Lemma configured : treasuryConfigFromEnv env ParseDuration = inr (cfg, 1800 * second_ns).
Proof. vm_compute. reflexivity. Qed.

Lemma clock_range listed w : 0 ≤ @clock world (services listed) w < 2 ^ 63.
Proof. cbn [clock services]. lia. Qed.

Lemma account_range listed a w w' b : @account world (services listed) a w = (w', inr b) → 0 ≤ b.(ab_TRXSun).
Proof. cbn [account services]. unfold answer. intros [= _ <-]. by repeat destruct (_ =?s _). Qed.

Lemma answer_later {A} listed (a : string + A) :
  stable (λ w w', @clock world (services listed) w ≤ @clock world (services listed) w' ∧ accepted w ⊆ accepted w') (answer a).
Proof. intros w. cbn. split; [lia | done]. Qed.

Lemma chain_laws listed : @ChainLaws world (services listed) accepted.
Proof.
  split.
  - split; try (intros; apply answer_later).
    + split; [by intros w; split|]. intros w1 w2 w3 [C1 S1] [C2 S2]. split; [lia | set_solver].
    + intros w. cbn. split; [lia | done].
    + intros rawData signature w. cbn -[TxID]. generalize (hex_encode (TxID rawData)). intros id.
      destruct (bool_decide _); cbn; (split; [lia | set_solver]).
  - intros rawData signature w w' id. cbn -[TxID]. generalize (hex_encode (TxID rawData)). intros id'.
    destruct (bool_decide _) eqn:E; [done|]. apply bool_decide_eq_false in E. intros [= <- <-]. cbn. set_solver.
  - intros a from w w' ts. cbn. intros [= _ <-]. split_and!; [done | done |]. intros t rawData owner token acct units Ht. by apply not_elem_of_nil in Ht.
Qed.
End sample.

(** Four cycles: a sweep of 30 USDT, and exchanges for Siacoin of 81.6, 81.6 and
    the 37.3 that were left of the day's 200.5 USDT. *)
Lemma treasury_spends_as_configured_witness :
  List.map sample.summary (sample.run sample.deposit_address 4) !! 0%nat ≠ Some None
  ∧ length (sample.run sample.deposit_address 4) = 7%nat
  ∧ @legit_trace base58.check toy_curve toy_hd sample.cfg sample_wallet (sample.run sample.deposit_address 4).
Proof.
  split; [vm_compute; congruence|]. split; [vm_compute; reflexivity|].
  apply (@treasury_spends_as_configured base58.check toy_curve toy_hd sample.world (sample.services sample.deposit_address)
    sample.env sample.ParseDuration sample.cfg (1800 * second_ns) sample_wallet 4 sample.start sample.configured
    (sample.clock_range _) (sample.account_range _)).
Defined.

Lemma daily_cap_kept_witness :
  let noon := 1700000020 * second_ns in
  @left_between base58.check sample.treasury_address (noon - day_ns) noon (sample.run sample.deposit_address 4) = 200500000
  ∧ @left_between base58.check sample.treasury_address (noon - day_ns) noon (sample.run sample.deposit_address 4) ≤ sample.cfg.(tc_MaxDailyMicro).
Proof.
  intros noon. split; [vm_compute; reflexivity|].
  apply (@daily_cap_kept base58.check toy_curve toy_hd sample.world (sample.services sample.deposit_address) sample.accepted
    sample.env sample.ParseDuration sample.cfg (1800 * second_ns) sample_wallet sample.treasury_address 4 sample.start noon sample.configured
    ltac:(vm_compute; reflexivity) ltac:(vm_compute; reflexivity) (sample.chain_laws _) (sample.clock_range _) (sample.account_range _)).
Defined.

(** An address that the control plane lists but the wallet does not derive is sent
    the fee of a sweep; only the sweep itself asks whether the wallet has its key. *)
Theorem fee_sent_to_foreign_address :
  @WalletAddress base58.check toy_curve toy_hd sample_wallet 1 = inr sample.deposit_address
  ∧ sample.deposit_address ≠ sample.other_address
  ∧ ∃ owner receiver, @AddressBytes base58.check sample.other_address = inr receiver
    ∧ (sample.run sample.other_address 1) !! 0%nat ≫= sample.summary = Some (Transfer owner receiver 15000000).
Proof.
  split; [vm_compute; reflexivity|]. split; [intros E; vm_compute in E; congruence|].
  eexists _, _. split; [vm_compute; reflexivity | vm_compute; reflexivity].
Qed.
