(* ===== verification/Provisioner.v ===== *)
(** * The provisioner

    Models cmd/virtroid-provisioner/reconcile.go, which rents and unlocks the VMs
    the control plane asks for: its rounds ([runOnce]), the steps of a VM, what it
    writes to disk before it submits a create, attested unlocking and unlocking
    again after a restart, and deleting what nobody claims.  Also aleph.go's
    reading of what the `aleph` command prints, and internal/alephapi's wording of
    a rejection.

    The control plane, the command, the compute nodes, the clock and the disk are
    the class [CloudServices] of calls that answer or fail in a world [W].  A call
    may also fail with [Crashed]: the process stops there, which nothing catches;
    its memory is lost and its files stay.  The control plane's data is given
    decoded; JSON on disk is kept as the record it encodes.  Log lines are left out.
    Times are nanoseconds. *)

From Stdlib Require Import Ascii QArith.
From S2P Require Import Prelude.
From S2P Require Import GoLib.
From S2P Require Import Codec.
From S2P Require Import NetIP.
From S2P Require Import Archive.
From S2P Require Import Requests.
From S2P Require Import Rationals.
From S2P Require Import Deposits.
Open Scope Z_scope.

(** ** Errors *)

(** [errCreateRefused] and [errAttestation], other errors, and the process stopping. *)
Inductive fault := Failed (e : string) | CreateRefused | AttestationFailed (e : string) | Crashed.
#[export] Instance fault_eq_dec : EqDecision fault.
Proof. solve_decision. Defined.
Abbreviation Ext W := (M W fault).

(** An error that is logged or looked at, not returned. *)
Definition survive {S A} (m : M S fault A) : M S fault (fault + A) := λ s,
  match m s with
  | (s', inr a) => (s', inr (inr a))
  | (s', inl Crashed) => (s', inl Crashed)
  | (s', inl e) => (s', inr (inl e))
  end.

(** ** aleph.go *)

Record alephInstance := MkInstance { ai_ItemHash : string; ai_Name : string; ai_NodeHash : string; ai_IPv6 : string }.
Record createSpec := MkCreateSpec {
  cs_Name : string; cs_CRNHash : string; cs_Runtime : string; cs_Image : string; cs_VCPUs : Z; cs_MemoryMiB : Z;
  cs_DiskMiB : Z; cs_DataMiB : Z; cs_AMDProduct : string }.
Record unlockSpec := MkUnlockSpec {
  us_ItemHash : string; us_CRNHash : string; us_AMDProduct : string; us_PassphraseFile : string; us_Secrets : gmap string string }.

Definition isCreateRefusal (message : string) : bool := Contains message "HTTP 422".

Definition transientMessages : list string :=
  ["connection"; "timed out"; "timeout"; "dns"; "unreachable"; "failed to fetch"; "kds"; "503"; "502"; "504"; "not reachable";
   "pending"; "no networking"; "try again"].
Definition fatalMessages : list string :=
  ["measurement"; "verification failed"; "policy"; "tcb"; "vmpl"; "signature"; "ark certificate"; "debug"; "not an snp";
   "attestation report"].

Definition isAttestationFailure (message : string) : bool :=
  let message := ToLower message in
  if existsb (Contains message) transientMessages then false else existsb (Contains message) fatalMessages.

(** The documents the command printed: each an item hash, "" when it has none, or
    unreadable. *)
Fixpoint parseItemHash (docs : list (option string)) : string + string :=
  match docs with
  | [] => inl "the command submitted no message"%string
  | None :: _ => inl "parse the output"%string
  | Some itemHash :: docs' => if negb (itemHash =?s "") then inr (ToLower itemHash) else parseItemHash docs'
  end.

Definition vmAddress (raw : string) : string :=
  let raw := TrimSpace raw in
  if Contains raw "/" then "" else default ""%string (global_unicast raw).

(** A row of the listing, decoded. *)
Record instanceRow := MkRow { ro_ItemHash : string; ro_Name : option string; ro_NodeHash : option string; ro_IPv6 : option string }.
Definition parseInstanceList (rows : list instanceRow) : list alephInstance :=
  (λ row, MkInstance (ToLower row.(ro_ItemHash)) (default ""%string row.(ro_Name))
            (default ""%string (ToLower <$> row.(ro_NodeHash))) (default ""%string (vmAddress <$> row.(ro_IPv6)))) <$> rows.

Section cliDriver.
Context {W : Type}.
(** A run of the command, with the operation's arguments: what it printed, or the
    error's message. *)
Variable listCommand : Ext W (string + list instanceRow).
Variable createCommand : createSpec → Ext W (string + list (option string)).
Variable unlockCommand : unlockSpec → Ext W (option string).
Variable deleteCommand : string → Ext W (string + list (option string)).

Definition printed {A} (r : string + A) : Ext W A := match r with inl e => throw (Failed e) | inr a => mret a end.

Definition cli_List : Ext W (list alephInstance) := out ← listCommand; rows ← printed out; mret (parseInstanceList rows).

Definition cli_Create (spec : createSpec) : Ext W string :=
  out ← createCommand spec;
  match out with
  | inl message => throw (if isCreateRefusal message then CreateRefused else Failed message)
  | inr docs => printed (parseItemHash docs)
  end.

Definition cli_Unlock (spec : unlockSpec) : Ext W unit :=
  out ← unlockCommand spec;
  match out with
  | Some message => throw (if isAttestationFailure message then AttestationFailed message else Failed message)
  | None => mret tt
  end.

Definition cli_Delete (itemHash : string) : Ext W unit :=
  out ← deleteCommand itemHash;
  docs ← printed out;
  _ ← printed (parseItemHash docs);
  mret tt.
End cliDriver.

(** ** internal/alephapi *)

Definition StatusRejected : string := "rejected".
Definition errorCreditInsufficient : Z := 6.

(** [Details] as decoded: the credits of the first error, when there is one. *)
Record Message := MkMessage { mg_Status : string; mg_ErrorCode : option Z; mg_Details : option (string * string) }.

Definition wholeCredits (raw : string) : option Z :=
  match RatSetString (TrimSpace raw) with
  | None => None
  | Some amount =>
    let whole := (Qnum amount + (Zpos (Qden amount) - 1)) / Zpos (Qden amount) in
    if is_int64 whole then Some whole else None
  end.

(** A comma before every third digit from the end. *)
Fixpoint group_digits (digits : list ascii) : list ascii :=
  match digits with
  | [] => []
  | c :: rest => c :: (if negb (length rest =? 0)%nat && (length rest mod 3 =? 0)%nat then ","%char :: group_digits rest else group_digits rest)
  end.
Definition GroupDigits (value : Z) : string :=
  (if value <? 0 then "-" else "") +:+ of_bytes (group_digits (bytes_of (fmt_d (Z.abs value)))).

Definition Describe (m : Message) : string :=
  match m.(mg_ErrorCode) with
  | None => "Aleph rejected the VM's message"
  | Some code =>
    if negb (code =? errorCreditInsufficient) then "Aleph rejected the VM's message (error " +:+ fmt_d code +:+ ")"
    else match m.(mg_Details) with
         | Some (account, required) =>
           match wholeCredits account, wholeCredits required with
           | Some have, Some need =>
             "Aleph refused the VM for lack of credits: the paying account holds " +:+ GroupDigits have +:+ " and needs " +:+ GroupDigits need
           | _, _ => "Aleph refused the VM for lack of credits"
           end
         | None => "Aleph refused the VM for lack of credits"
         end
  end.

(** ** controlplane.go *)

Record provisionedVM := MkVM {
  pv_ID : string; pv_AccountID : option string; pv_Region : string; pv_State : string; pv_Desired : string;
  pv_ItemHash : string; pv_CRNHash : string; pv_PublicIP : string; pv_NodePublicKey : string; pv_NodeSeenAt : option Z }.
Record vmReport := MkVMReport {
  vr_State : string; vr_ItemHash : string; vr_CRNHash : string; vr_PublicIP : string; vr_NodePublicKey : string;
  vr_Failure : string; vr_Progress : string; vr_Refusal : string }.
#[export] Instance vmReport_eta : Eta vmReport := λ r,
  MkVMReport r.(vr_State) r.(vr_ItemHash) r.(vr_CRNHash) r.(vr_PublicIP) r.(vr_NodePublicKey) r.(vr_Failure) r.(vr_Progress) r.(vr_Refusal).
Definition no_report : vmReport := MkVMReport "" "" "" "" "" "" "" "".

(** ** reconcile.go: data *)

Definition vmStateRequested : string := "requested".
Definition vmStateCreating : string := "creating".
Definition vmStateUnlocking : string := "unlocking".
Definition vmStateBooting : string := "booting".
Definition vmStateReady : string := "ready".
Definition vmStateDeleted : string := "deleted".
Definition instanceNamePrefix : string := "virtroid-".
Definition minute_ns : Z := 60 * second_ns.
Definition unlockRetryEvery : Z := 30 * second_ns.
Definition bootCheckEvery : Z := 20 * second_ns.
Definition maxRestartsBeforeReady : Z := 3.
Definition nodeServingWithin : Z := 2 * minute_ns.
Definition forgetSettles : Z := 10 * minute_ns.
Definition createSettles : Z := 5 * minute_ns.
Definition refusalRetryEvery : Z := minute_ns.
Definition rejectionCheckEvery : Z := 30 * second_ns.

Record crnTarget := MkTarget { ct_Hash : string; ct_AMDProduct : string }.
Record provisionerConfig := MkProvisionerConfig {
  po_VMControlPlaneURL : string; po_StateDir : string; po_Runtime : string; po_Image : string; po_VCPUs : Z; po_MemoryMiB : Z;
  po_DiskMiB : Z; po_DataMiB : Z; po_PassphraseFile : string; po_RegionCRNs : gmap string (list crnTarget) }.

Record createRecord := MkCreate { cr_CRNHash : string; cr_SubmittedAt : Z; cr_ItemHash : string }.
Definition no_create : createRecord := MkCreate "" zero_time "".

(** The files of a VM, below node-keys. *)
Inductive file := KeyFile | DataFile | BootFile.
#[export] Instance file_eq_dec : EqDecision file.
Proof. solve_decision. Defined.
#[export] Instance file_countable : Countable file.
Proof.
  refine (inj_countable' (λ f, match f with KeyFile => 0 | DataFile => 1 | BootFile => 2 end)%nat
    (λ n, match n with O => KeyFile | S O => DataFile | _ => BootFile end) _). by intros [].
Defined.

(** A call to the file system. [WriteCreate] is [writeFileDurably] up to the rename,
    [SyncDirectory] what follows; [Truncate] and [Fill] are [os.WriteFile]. *)
Inductive diskop :=
| ReadFile (f : file) (name : string)
| RemoveFile (f : file) (name : string)
| MakeDirectory
| Truncate (f : file) (name : string)
| Fill (f : file) (name content : string)
| ReadCreate (name : string)
| WriteCreate (name : string) (record : createRecord)
| SyncDirectory
| RemoveCreate (name : string).

(** Texts by file and name; a create record that is [None] is unreadable. *)
Record Disk := MkDisk { dk_files : gmap (file * string) string; dk_creates : gmap string (option createRecord) }.
#[export] Instance disk_eta : Eta Disk := λ d, MkDisk d.(dk_files) d.(dk_creates).

Record Memory := MkMemory {
  me_lastUnlock : gmap string Z; me_lastProgress : gmap string string; me_lastBootCheck : gmap string Z;
  me_seenBoot : gmap string string; me_restarts : gmap string Z; me_forgotten : gmap string Z;
  me_lastRejectionCheck : gmap string Z; me_lastRefused : gmap string Z }.
#[export] Instance memory_eta : Eta Memory := λ m,
  MkMemory m.(me_lastUnlock) m.(me_lastProgress) m.(me_lastBootCheck) m.(me_seenBoot) m.(me_restarts) m.(me_forgotten)
    m.(me_lastRejectionCheck) m.(me_lastRefused).
Definition newReconciler : Memory := MkMemory ∅ ∅ ∅ ∅ ∅ ∅ ∅ ∅.

Record Reconciler (W : Type) := MkReconciler { rc_mem : Memory; rc_disk : Disk; rc_world : W }.
Arguments MkReconciler {W}.
Arguments rc_mem {W}.
Arguments rc_disk {W}.
Arguments rc_world {W}.
#[export] Instance reconciler_eta W : Eta (Reconciler W) := λ s, MkReconciler s.(rc_mem) s.(rc_disk) s.(rc_world).

(** The interfaces [controlPlane], [alephDriver], [progressReader], [bootReader] and
    [messageReader], of which the last three may be missing, the disk, and a new key:
    its base64 PKCS#8, and its public key's text. *)
Class CloudServices (W : Type) : Type := {
  now_of : W → Z;
  Work : Ext W (list provisionedVM);
  Report : string → vmReport → Ext W unit;
  ListInstances : Ext W (list alephInstance);
  CreateInstance : createSpec → Ext W string;
  UnlockInstance : unlockSpec → Ext W unit;
  DeleteInstance : string → Ext W unit;
  progress : option (string → Ext W string);
  boots : option (string → string → Ext W string);
  messages : option (string → Ext W Message);
  payerCredits : option (Ext W Z);
  disk : diskop → Ext W unit;
  generateKey : Ext W (string * option string) }.

(** [filepath.Base]. *)
Definition is_slash (c : ascii) : bool := bool_decide (c = "/"%char).
Fixpoint take_until {A} (p : A → bool) (l : list A) : list A :=
  match l with [] => [] | x :: l' => if p x then [] else x :: take_until p l' end.
Definition Base (path : string) : string :=
  let l := rev (bytes_of path) in
  match l with
  | [] => "."
  | _ => match drop_while is_slash l with
         | [] => "/"
         | l => of_bytes (rev (take_until is_slash l))
         end
  end.

(** x509's private keys; the other functions are of [Signatures]. *)
Class PrivateKeys `{Signatures} : Type := {
  ParsePKCS8PrivateKey : list N → pkix SigningKey;
  ParseECPrivateKey : list N → option SigningKey }.

(** nodeauth's [LoadPrivateKey]: the key, which an empty text is not, and its public
    key's text. *)
Section loadPrivateKey.
Context `{PrivateKeys}.

Definition p256_key (key : SigningKey) : option (option SigningKey * string) :=
  if negb (isP256PublicKey (PublicHalf key)) then None
  else publicKey ← PublicKeyMaterial (PublicHalf key); Some (Some key, publicKey).

Definition LoadPrivateKey (material : string) : option (option SigningKey * string) :=
  let material := TrimSpace material in
  if material =?s "" then Some (None, ""%string)
  else match decodeKeyMaterial material with
       | None => None
       | Some keyDER =>
         match ParsePKCS8PrivateKey keyDER with
         | PkixError => match ParseECPrivateKey keyDER with Some key => p256_key key | None => None end
         | PkixOther => None
         | PkixECDSA key => p256_key key
         end
       end.
End loadPrivateKey.

(** ** reconcile.go: operations *)

Section reconciler.
Context {W : Type} `{!CloudServices W} `{PrivateKeys}.
Variable cfg : provisionerConfig.
Abbreviation R := (M (Reconciler W) fault).

(** A service called from the reconciler, and the time. *)
Definition ask {A} (svc : Ext W A) : R A := λ s,
  let '(w, r) := svc s.(rc_world) in (s <| rc_world := w |>, r).
Definition read_clock : R Z := gets (λ s, now_of s.(rc_world)).
Definition memory : R Memory := gets rc_mem.
Definition update_memory (f : Memory → Memory) : R unit := modify (λ s, s <| rc_mem ::= f |>).
Definition update_disk (f : Disk → Disk) : R unit := modify (λ s, s <| rc_disk ::= f |>).

Definition instanceName (vmID : string) : string := instanceNamePrefix +:+ vmID.

(** *** Files *)

Definition read_file (f : file) (vmID : string) : R (option string) :=
  ask (disk (ReadFile f (Base vmID)));;
  gets (λ s, s.(rc_disk).(dk_files) !! (f, Base vmID)).

Definition write_file (f : file) (vmID content : string) : R unit :=
  ask (disk MakeDirectory);;
  ask (disk (Truncate f (Base vmID)));;
  update_disk (λ d, d <| dk_files ::= <[(f, Base vmID) := ""%string]> |>);;
  ask (disk (Fill f (Base vmID) content));;
  update_disk (λ d, d <| dk_files ::= <[(f, Base vmID) := content]> |>).

Definition remove_file (f : file) (vmID : string) : R unit :=
  ask (disk (RemoveFile f (Base vmID)));;
  update_disk (λ d, d <| dk_files ::= delete (f, Base vmID) |>).

Definition newline : string := of_bytes ["010"%char].

Definition unlockedBoot (vmID : string) : R string :=
  data ← read_file BootFile vmID;
  mret (default ""%string (TrimSpace <$> data)).

Definition saveUnlockedBoot (vmID identity : string) : R unit := write_file BootFile vmID (identity +:+ newline).

Definition loadCreate (vmID : string) : R createRecord :=
  ask (disk (ReadCreate (Base vmID)));;
  s ← gets Datatypes.id;
  match s.(rc_disk).(dk_creates) !! Base vmID with
  | None => mret no_create
  | Some None => throw (Failed "create record is unreadable")
  | Some (Some record) => mret (MkCreate record.(cr_CRNHash) record.(cr_SubmittedAt) (ToLower record.(cr_ItemHash)))
  end.

Definition forgetCreate (vmID : string) : R unit :=
  ask (disk (RemoveCreate (Base vmID)));;
  update_disk (λ d, d <| dk_creates ::= delete (Base vmID) |>).

Definition saveCreate (vmID : string) (record : createRecord) : R unit :=
  ask (disk (WriteCreate (Base vmID) record));;
  update_disk (λ d, d <| dk_creates ::= <[Base vmID := Some record]> |>);;
  ask (disk SyncDirectory).

Definition nodeKey (vmID : string) : R (string * string) :=
  data ← read_file KeyFile vmID;
  match data with
  | Some data =>
    match LoadPrivateKey data with
    | None => throw (Failed "stored node key is unreadable")
    | Some (_, publicKey) => mret (TrimSpace data, publicKey)
    end
  | None =>
    '(encoded, publicKey) ← ask generateKey;
    write_file KeyFile vmID (encoded +:+ newline);;
    match publicKey with
    | Some publicKey => mret (encoded, publicKey)
    | None => throw (Failed "marshal public key")
    end
  end.

(** *** Small steps *)

Definition noteProgress (vmID note : string) : R unit :=
  m ← memory;
  if (note =?s "") || (default ""%string (m.(me_lastProgress) !! vmID) =?s note) then mret tt
  else
    sent ← survive (ask (Report vmID (no_report <| vr_Progress := note |>)));
    match sent with
    | inr _ => update_memory (λ m, m <| me_lastProgress ::= <[vmID := note]> |>)
    | inl _ => mret tt
    end.

Definition deleteInstance (itemHash : string) : R unit :=
  ask (DeleteInstance itemHash);;
  now ← read_clock;
  update_memory (λ m, m <| me_forgotten ::= <[itemHash := now]> |>).

Definition recentlyForgotten (itemHash : string) : R bool :=
  m ← memory;
  now ← read_clock;
  match m.(me_forgotten) !! itemHash with
  | None => mret false
  | Some t =>
    if forgetSettles <=? now - t then update_memory (λ m, m <| me_forgotten ::= delete itemHash |>);; mret false
    else mret true
  end.

Definition load (instances : list alephInstance) (hash : string) : nat :=
  length (List.filter (λ i, i.(ai_NodeHash) =?s hash) instances).

Definition pickCRN (region : string) (instances : list alephInstance) : option crnTarget :=
  match default [] (cfg.(po_RegionCRNs) !! region) with
  | [] => None
  | first :: rest =>
    Some (foldl (λ best target, if (load instances target.(ct_Hash) <? load instances best.(ct_Hash))%nat then target else best) first rest)
  end.

Definition amdProduct (region crnHash : string) : string :=
  match List.find (λ t, (t.(ct_Hash) =?s crnHash) && negb (t.(ct_AMDProduct) =?s "")) (default [] (cfg.(po_RegionCRNs) !! region)) with
  | Some target => target.(ct_AMDProduct)
  | None => "Genoa"
  end.

Definition bootIdentity (vm : provisionedVM) : R string :=
  match boots with
  | None => mret ""%string
  | Some read =>
    identity ← survive (ask (read vm.(pv_ItemHash) vm.(pv_PublicIP)));
    mret (match identity with inr i => i | inl _ => ""%string end)
  end.

Definition rejection (vm : provisionedVM) : R string :=
  match messages with
  | None => mret ""%string
  | Some message =>
    if vm.(pv_ItemHash) =?s "" then mret ""%string
    else
      m ← memory;
      now ← read_clock;
      if (match m.(me_lastRejectionCheck) !! vm.(pv_ID) with Some last => now - last <? rejectionCheckEvery | None => false end)
      then mret ""%string
      else
        update_memory (λ m, m <| me_lastRejectionCheck ::= <[vm.(pv_ID) := now]> |>);;
        answer ← survive (ask (message vm.(pv_ItemHash)));
        match answer with
        | inr message => mret (if message.(mg_Status) =?s StatusRejected then Describe message else ""%string)
        | inl _ => mret ""%string
        end
  end.

Definition refusedText : string := "Aleph refused the VM (HTTP 422)".
Definition describeRefusal : R string :=
  match payerCredits with
  | None => mret refusedText
  | Some credits =>
    answer ← survive (ask credits);
    mret (match answer with
          | inr credits => refusedText +:+ ", most likely for lack of credits: the paying account holds " +:+ GroupDigits credits
          | inl _ => refusedText
          end)
  end.

Definition reportRefusal (vmID state refusal : string) : R unit :=
  now ← read_clock;
  update_memory (λ m, m <| me_lastRefused ::= <[vmID := now]> |> <| me_lastProgress ::= delete vmID |>);;
  ask (Report vmID (no_report <| vr_State := state |> <| vr_Refusal := refusal |>)).

(** *** Unlocking *)

Definition unlock (vm : provisionedVM) : R unit :=
  '(privateKey, _) ← nodeKey vm.(pv_ID);
  before ← bootIdentity vm;
  ask (UnlockInstance (MkUnlockSpec vm.(pv_ItemHash) vm.(pv_CRNHash) (amdProduct vm.(pv_Region) vm.(pv_CRNHash)) cfg.(po_PassphraseFile)
         (list_to_map [("virtroid_node_id", vm.(pv_ID)); ("virtroid_node_key", privateKey); ("virtroid_region", vm.(pv_Region));
                       ("virtroid_control_plane", cfg.(po_VMControlPlaneURL))]%string)));;
  same ← (if before =?s "" then mret false else after ← bootIdentity vm; mret (after =?s before));
  if same : bool then
    update_memory (λ m, m <| me_seenBoot ::= <[vm.(pv_ID) := before]> |>);;
    saveUnlockedBoot vm.(pv_ID) before
  else remove_file BootFile vm.(pv_ID).

Definition watchBoot (vm : provisionedVM) : R unit :=
  let id := vm.(pv_ID) in
  let ready := vm.(pv_State) =?s vmStateReady in
  (if ready then update_memory (λ m, m <| me_restarts ::= delete id |>) else mret tt);;
  if match boots with None => true | Some _ => false end || (vm.(pv_PublicIP) =?s "") then mret tt
  else
    m ← memory;
    now ← read_clock;
    if match m.(me_lastBootCheck) !! id with Some last => now - last <? bootCheckEvery | None => false end then mret tt
    else
      update_memory (λ m, m <| me_lastBootCheck ::= <[id := now]> |>);;
      current ← bootIdentity vm;
      if current =?s "" then mret tt
      else
        recorded ← unlockedBoot id;
        if recorded =?s current then mret tt
        else
          now ← read_clock;
          if (recorded =?s "") && ready && match vm.(pv_NodeSeenAt) with Some seen => now - seen <? nodeServingWithin | None => false end
          then
            update_memory (λ m, m <| me_seenBoot ::= <[id := current]> |>);;
            saveUnlockedBoot id current
          else
            m ← memory;
            (if negb (default ""%string (m.(me_seenBoot) !! id) =?s current)
             then update_memory (λ m, m <| me_seenBoot ::= <[id := current]> |> <| me_restarts ::= <[id := default 0 (m.(me_restarts) !! id) + 1]> |>)
             else mret tt);;
            m ← memory;
            let restarts := default 0 (m.(me_restarts) !! id) in
            if (vm.(pv_State) =?s vmStateBooting) && (maxRestartsBeforeReady <? restarts) then
              ask (Report id (no_report <| vr_Failure := "the VM restarted " +:+ fmt_d restarts +:+
                                " times after being unlocked before its node came up" |>))
            else
              noteProgress id "The server restarted; checking its hardware again";;
              unlocked ← survive (unlock vm);
              match unlocked with
              | inr _ => mret tt
              | inl (AttestationFailed e) => ask (Report id (no_report <| vr_Failure := e |>))
              | inl e => throw e
              end.

(** *** A VM's step *)

Definition remove (vm : provisionedVM) (instance : option alephInstance) : R unit :=
  match instance with
  | Some instance =>
    recently ← recentlyForgotten instance.(ai_ItemHash);
    if negb recently then deleteInstance instance.(ai_ItemHash) else mret tt
  | None =>
    let id := vm.(pv_ID) in
    let itemHash := ToLower vm.(pv_ItemHash) in
    (if negb (itemHash =?s "") then
       recently ← recentlyForgotten itemHash;
       if negb recently then _ ← survive (deleteInstance itemHash); mret tt else mret tt
     else mret tt);;
    update_memory (λ m, m <| me_lastUnlock ::= delete id |> <| me_lastProgress ::= delete id |> <| me_lastBootCheck ::= delete id |>
      <| me_seenBoot ::= delete id |> <| me_restarts ::= delete id |> <| me_lastRejectionCheck ::= delete id |> <| me_lastRefused ::= delete id |>);;
    remove_file KeyFile id;;
    remove_file DataFile id;;
    remove_file BootFile id;;
    forgetCreate id;;
    ask (Report id (no_report <| vr_State := vmStateDeleted |>))
  end.

Definition submit_create (vm : provisionedVM) (target : crnTarget) : R unit :=
  let id := vm.(pv_ID) in
  now ← read_clock;
  let record := MkCreate target.(ct_Hash) now "" in
  saveCreate id record;;
  created ← survive (ask (CreateInstance (MkCreateSpec (instanceName id) target.(ct_Hash) cfg.(po_Runtime) cfg.(po_Image) cfg.(po_VCPUs)
                            cfg.(po_MemoryMiB) cfg.(po_DiskMiB) cfg.(po_DataMiB) target.(ct_AMDProduct))));
  match created with
  | inl CreateRefused =>
    forgetCreate id;;
    refusal ← describeRefusal;
    reportRefusal id "" refusal
  | inl e => throw e
  | inr itemHash =>
    update_memory (λ m, m <| me_lastRefused ::= delete id |>);;
    _ ← survive (saveCreate id (MkCreate target.(ct_Hash) now itemHash));
    ask (Report id (no_report <| vr_State := vmStateCreating |> <| vr_ItemHash := itemHash |> <| vr_CRNHash := target.(ct_Hash) |>))
  end.

Definition step_requested (vm : provisionedVM) (instance : option alephInstance) (all : list alephInstance) : R unit :=
  let id := vm.(pv_ID) in
  match instance with
  | Some instance =>
    ask (Report id (no_report <| vr_State := vmStateCreating |> <| vr_ItemHash := instance.(ai_ItemHash) |> <| vr_CRNHash := instance.(ai_NodeHash) |>))
  | None =>
    m ← memory;
    now ← read_clock;
    if match m.(me_lastRefused) !! id with Some t => now - t <? refusalRetryEvery | None => false end then mret tt
    else
      pending ← loadCreate id;
      now ← read_clock;
      if negb (pending.(cr_SubmittedAt) =? zero_time) && (now - pending.(cr_SubmittedAt) <? createSettles)
      then noteProgress id "Waiting for the cloud to confirm the request"
      else match pickCRN vm.(pv_Region) all with
           | None => ask (Report id (no_report <| vr_Failure := "no compute node is configured for region " +:+ vm.(pv_Region) |>))
           | Some target => submit_create vm target
           end
  end.

Definition step_creating (vm : provisionedVM) (instance : option alephInstance) : R unit :=
  let id := vm.(pv_ID) in
  let waiting := match instance with Some i => i.(ai_IPv6) =?s "" | None => true end in
  rejected ← (if is_null instance then rejection vm else mret ""%string);
  if negb (rejected =?s "") then
    forgetCreate id;;
    reportRefusal id vmStateRequested rejected
  else if waiting then
    match progress with
    | Some read => if vm.(pv_ItemHash) =?s "" then mret tt else note ← ask (read vm.(pv_ItemHash)); noteProgress id note
    | None => mret tt
    end
  else
    '(_, publicKey) ← nodeKey id;
    ask (Report id (no_report <| vr_State := vmStateUnlocking |>
                      <| vr_PublicIP := match instance with Some i => i.(ai_IPv6) | None => ""%string end |> <| vr_NodePublicKey := publicKey |>)).

Definition startingAndroid : string := "Hardware checked; starting Android".

Definition step_unlocking (vm : provisionedVM) : R unit :=
  let id := vm.(pv_ID) in
  m ← memory;
  now ← read_clock;
  if match m.(me_lastUnlock) !! id with Some last => now - last <? unlockRetryEvery | None => false end then mret tt
  else
    update_memory (λ m, m <| me_lastUnlock ::= <[id := now]> |>);;
    unlocked ← survive (unlock vm);
    match unlocked with
    | inl (AttestationFailed e) => ask (Report id (no_report <| vr_Failure := e |>))
    | inl e => noteProgress id "Waiting for the server to answer";; throw e
    | inr _ =>
      update_memory (λ m, m <| me_lastUnlock ::= delete id |> <| me_lastProgress ::= <[id := startingAndroid]> |>);;
      ask (Report id (no_report <| vr_State := vmStateBooting |> <| vr_Progress := startingAndroid |>))
    end.

Definition step (vm : provisionedVM) (instance : option alephInstance) (all : list alephInstance) : R unit :=
  if vm.(pv_Desired) =?s "absent" then remove vm instance
  else if vm.(pv_State) =?s vmStateRequested then step_requested vm instance all
  else if vm.(pv_State) =?s vmStateCreating then step_creating vm instance
  else if vm.(pv_State) =?s vmStateUnlocking then step_unlocking vm
  else if (vm.(pv_State) =?s vmStateBooting) || (vm.(pv_State) =?s vmStateReady) then watchBoot vm
  else mret tt.

(** *** A round *)

Definition byHash (instances : list alephInstance) : gmap string alephInstance :=
  foldl (λ m i, <[i.(ai_ItemHash) := i]> m) ∅ instances.
Definition byName (instances : list alephInstance) : gmap string alephInstance :=
  foldl (λ m i, if i.(ai_Name) =?s "" then m else <[i.(ai_Name) := i]> m) ∅ instances.

Definition adopt (vmID : string) (instances : list alephInstance) : R (option alephInstance) :=
  loaded ← survive (loadCreate vmID);
  match loaded with
  | inr record =>
    if negb (record.(cr_ItemHash) =?s "") then
      mret (match byHash instances !! record.(cr_ItemHash) with
            | Some instance => Some instance
            | None => Some (MkInstance record.(cr_ItemHash) (instanceName vmID) record.(cr_CRNHash) "")
            end)
    else mret (byName instances !! instanceName vmID)
  | inl _ => mret (byName instances !! instanceName vmID)
  end.

Definition round_vm (instances : list alephInstance) (claimed : gmap string string) (vm : provisionedVM) : R (gmap string string) :=
  let name := instanceName vm.(pv_ID) in
  let known := ToLower vm.(pv_ItemHash) in
  instance ← (match byHash instances !! known with
              | Some instance => mret (Some instance)
              | None => if known =?s "" then adopt vm.(pv_ID) instances else mret None
              end);
  let claimed :=
    if negb (known =?s "") then <[name := known]> claimed
    else match instance with Some i => <[name := i.(ai_ItemHash)]> claimed | None => claimed end in
  _ ← survive (step vm instance instances);
  mret claimed.

Definition delete_unclaimed (wanted : list string) (claimed : gmap string string) (instance : alephInstance) : R unit :=
  if negb (HasPrefix instance.(ai_Name) (instanceNamePrefix +:+ "pvm-")) then mret tt
  else if bool_decide (instance.(ai_Name) ∈ wanted)
          && match claimed !! instance.(ai_Name) with Some owner => owner =?s instance.(ai_ItemHash) | None => true end then mret tt
  else
    recently ← recentlyForgotten instance.(ai_ItemHash);
    if recently : bool then mret tt
    else _ ← survive (deleteInstance instance.(ai_ItemHash)); mret tt.

Definition runOnce : R unit :=
  vms ← ask Work;
  instances ← ask ListInstances;
  claimed ← fold_each (round_vm instances) ∅ vms;
  for_each (delete_unclaimed ((λ vm, instanceName vm.(pv_ID)) <$> vms) claimed) instances.
End reconciler.

(** The process from round to round: a round that crashes, and a restart, lose the
    memory. *)
Section process.
Context {W : Type} `{!CloudServices W} `{PrivateKeys}.
Variable cfg : provisionerConfig.

Definition restart (s : Reconciler W) : Reconciler W := s <| rc_mem := newReconciler |>.
Definition round (restarts : bool) (s : Reconciler W) : Reconciler W :=
  match runOnce cfg s with
  | (s', inl Crashed) => restart s'
  | (s', _) => if restarts then restart s' else s'
  end.
Definition rounds (restarts : list bool) (s : Reconciler W) : Reconciler W := foldl (λ s r, round r s) s restarts.
End process.

(** ** Facts *)

(** *** What the provisioner does, in order *)

Inductive event :=
| Worked (r : fault + list provisionedVM)
| Reported (vmID : string) (report : vmReport) (r : fault + unit)
| Listed (r : fault + list alephInstance)
| Submitted (spec : createSpec) (r : fault + string)
| Unlocked (spec : unlockSpec) (r : fault + unit)
| Deleted (itemHash : string) (r : fault + unit)
| Asked (itemHash : string) (r : fault + Message)
| DiskCall (op : diskop) (r : fault + unit).

Definition Traced (W : Type) : Type := W * list event.

Section recorded.
Context {W : Type} `{CloudServices W}.

Definition unseen {A} (svc : Ext W A) : Ext (Traced W) A := λ w, let '(w', r) := svc w.1 in ((w', w.2), r).
Definition noted {A} (svc : Ext W A) (note : fault + A → event) : Ext (Traced W) A := λ w,
  let '(w', r) := svc w.1 in ((w', w.2 ++ [note r]), r).

Definition recorded : CloudServices (Traced W) := {|
  now_of w := now_of w.1;
  Work := noted Work Worked;
  Report vmID report := noted (Report vmID report) (Reported vmID report);
  ListInstances := noted ListInstances Listed;
  CreateInstance spec := noted (CreateInstance spec) (Submitted spec);
  UnlockInstance spec := noted (UnlockInstance spec) (Unlocked spec);
  DeleteInstance itemHash := noted (DeleteInstance itemHash) (Deleted itemHash);
  progress := (λ read itemHash, unseen (read itemHash)) <$> progress;
  boots := (λ read itemHash ip, unseen (read itemHash ip)) <$> boots;
  messages := (λ message itemHash, noted (message itemHash) (Asked itemHash)) <$> messages;
  payerCredits := unseen <$> payerCredits;
  disk op := noted (disk op) (DiskCall op);
  generateKey := unseen generateKey |}.
End recorded.

(** What a trace says: the last answers of the control plane and of the listing, the
    create records on disk, and what was done in this round. *)
Record View := MkView {
  vw_work : list provisionedVM; vw_list : list alephInstance; vw_creates : gmap string (option createRecord); vw_round : list event }.

Definition see (v : View) (e : event) : View :=
  match e with
  | Worked r => MkView (match r with inr vms => vms | inl _ => [] end) [] v.(vw_creates) []
  | Listed r => MkView v.(vw_work) (match r with inr l => l | inl _ => [] end) v.(vw_creates) (v.(vw_round) ++ [e])
  | DiskCall (WriteCreate k record) (inr _) => MkView v.(vw_work) v.(vw_list) (<[k := Some record]> v.(vw_creates)) (v.(vw_round) ++ [e])
  | DiskCall (RemoveCreate k) (inr _) => MkView v.(vw_work) v.(vw_list) (delete k v.(vw_creates)) (v.(vw_round) ++ [e])
  | _ => MkView v.(vw_work) v.(vw_list) v.(vw_creates) (v.(vw_round) ++ [e])
  end.

Definition view (creates : gmap string (option createRecord)) (tr : list event) : View := foldl see (MkView [] [] creates []) tr.

Lemma view_snoc creates tr e : view creates (tr ++ [e]) = see (view creates tr) e.
Proof. unfold view. by rewrite foldl_snoc. Qed.

(** *** Why it may do so *)

Section due.
Variable cfg : provisionerConfig.
Variable creates0 : gmap string (option createRecord).

(** A record after which a create may be submitted at [t]. *)
Definition stale (old : option (option createRecord)) (t : Z) : Prop :=
  match old with
  | None => True
  | Some None => False
  | Some (Some r) => r.(cr_SubmittedAt) = zero_time ∨ r.(cr_SubmittedAt) + createSettles ≤ t
  end.

(** The record could not be read in this round. *)
Definition unread (k : string) (v : View) : Prop := ∃ e, DiskCall (ReadCreate k) (inl e) ∈ v.(vw_round).
(** No instance is recorded for the VM. *)
Definition hashless (k : string) (creates : gmap string (option createRecord)) : Prop :=
  ∀ r, creates !! k = Some (Some r) → ToLower r.(cr_ItemHash) = ""%string.

(** The instance [itemHash] may be the VM's. *)
Definition may_be (v : View) (vm : provisionedVM) (itemHash : string) : Prop :=
  itemHash = ToLower vm.(pv_ItemHash)
  ∨ (∃ i, byName v.(vw_list) !! instanceName vm.(pv_ID) = Some i ∧ i.(ai_ItemHash) = itemHash)
  ∨ (∃ r, v.(vw_creates) !! Base vm.(pv_ID) = Some (Some r) ∧ ToLower r.(cr_ItemHash) = itemHash).

(** [h] was the VM's instance: the one the control plane knows, or else the listed one
    of its name or one recorded for it. *)
Definition was_recorded (tr : list event) (k h : string) : Prop := ∃ before r,
  before `prefix_of` tr ∧ (view creates0 before).(vw_creates) !! k = Some (Some r) ∧ ToLower r.(cr_ItemHash) = h.
Definition belonged (tr : list event) (l : list alephInstance) (vm : provisionedVM) (h : string) : Prop :=
  h = ToLower vm.(pv_ItemHash)
  ∨ ToLower vm.(pv_ItemHash) = ""%string ∧
    ((∃ i, byName l !! instanceName vm.(pv_ID) = Some i ∧ i.(ai_ItemHash) = h) ∨ was_recorded tr (Base vm.(pv_ID)) h).

(** No instance of the VM is listed. *)
Definition unlisted (v : View) (vm : provisionedVM) : Prop := byHash v.(vw_list) !! ToLower vm.(pv_ItemHash) = None.

Definition due (before : list event) (e : event) : Prop :=
  let v := view creates0 before in
  match e with
  | DiskCall (WriteCreate k record) _ =>
    (* a create is about to be submitted *)
    (∃ vm, vm ∈ v.(vw_work) ∧ k = Base vm.(pv_ID) ∧ vm.(pv_Desired) ≠ "absent"%string ∧ vm.(pv_State) = vmStateRequested
       ∧ record.(cr_ItemHash) = ""%string ∧ byName v.(vw_list) !! instanceName vm.(pv_ID) = None
       ∧ stale (v.(vw_creates) !! k) record.(cr_SubmittedAt) ∧ zero_time < record.(cr_SubmittedAt) ∧ (unread k v ∨ hashless k v.(vw_creates)))
    (* or was answered *)
    ∨ (∃ spec itemHash old, last before = Some (Submitted spec (inr itemHash)) ∧ v.(vw_creates) !! k = Some (Some old)
       ∧ record = MkCreate old.(cr_CRNHash) old.(cr_SubmittedAt) itemHash)
  | Submitted spec _ =>
    ∃ vm record before', vm ∈ v.(vw_work) ∧ spec.(cs_Name) = instanceName vm.(pv_ID)
      ∧ spec.(cs_CRNHash) ∈ (ct_Hash <$> default [] (cfg.(po_RegionCRNs) !! vm.(pv_Region)))
      ∧ record.(cr_CRNHash) = spec.(cs_CRNHash)
      ∧ stale ((view creates0 before').(vw_creates) !! Base vm.(pv_ID)) record.(cr_SubmittedAt) ∧ zero_time < record.(cr_SubmittedAt)
      ∧ before = before' ++ [DiskCall (WriteCreate (Base vm.(pv_ID)) record) (inr tt); DiskCall SyncDirectory (inr tt)]
  | DiskCall (RemoveCreate k) _ =>
    ∃ vm, vm ∈ v.(vw_work) ∧ k = Base vm.(pv_ID) ∧
      (vm.(pv_Desired) = "absent"%string ∧ unlisted v vm
       ∨ (∃ spec, last before = Some (Submitted spec (inl CreateRefused)) ∧ spec.(cs_Name) = instanceName vm.(pv_ID))
       ∨ unlisted v vm ∧ ∃ m, last before = Some (Asked vm.(pv_ItemHash) (inr m)) ∧ m.(mg_Status) = StatusRejected)
  | Deleted itemHash _ =>
    (∃ vm, vm ∈ v.(vw_work) ∧ vm.(pv_Desired) = "absent"%string ∧ may_be v vm itemHash)
    ∨ (∃ i, i ∈ v.(vw_list) ∧ i.(ai_ItemHash) = itemHash ∧ HasPrefix i.(ai_Name) "virtroid-pvm-" = true
       ∧ ∀ vm, vm ∈ v.(vw_work) → instanceName vm.(pv_ID) = i.(ai_Name) → ∃ h, h ≠ itemHash ∧ belonged before v.(vw_list) vm h)
  | Reported vmID report _ =>
    (report.(vr_State) ≠ vmStateCreating → report.(vr_ItemHash) = ""%string) ∧
    (report.(vr_State) = vmStateDeleted → ∃ vm, vm ∈ v.(vw_work) ∧ vm.(pv_ID) = vmID ∧ vm.(pv_Desired) = "absent"%string
      ∧ unlisted v vm ∧ v.(vw_creates) !! Base vmID = None)
  | Unlocked spec _ =>
    ∃ vm, vm ∈ v.(vw_work) ∧ vm.(pv_Desired) ≠ "absent"%string ∧ vm.(pv_State) ∈ [vmStateUnlocking; vmStateBooting; vmStateReady]
      ∧ spec.(us_ItemHash) = vm.(pv_ItemHash) ∧ spec.(us_CRNHash) = vm.(pv_CRNHash)
      ∧ spec.(us_Secrets) !! "virtroid_node_id"%string = Some vm.(pv_ID)
  | _ => True
  end.

Definition justified (tr : list event) : Prop := ∀ before e after, tr = before ++ e :: after → due before e.

Lemma justified_nil : justified [].
Proof. intros before x after E. by destruct before. Qed.

Lemma justified_snoc tr e : justified tr → due tr e → justified (tr ++ [e]).
Proof.
  intros Htr He before e' after E. destruct after as [|a after _] using rev_ind.
  - by apply app_inj_tail in E as [<- <-].
  - rewrite app_comm_cons, app_assoc in E. apply app_inj_tail in E as [-> _]. by eapply Htr.
Qed.

(** *** A round keeps to it *)

Context {W : Type} `{HS : !CloudServices W} `{PrivateKeys}.
#[local] Existing Instance recorded.
Abbreviation State := (Reconciler (Traced W)).

Definition trace (s : State) : list event := s.(rc_world).2.
Definition now_view (s : State) : View := view creates0 (trace s).

(** So far everything was due, and the records on disk are those of the trace. *)
Definition orderly (s : State) : Prop := justified (trace s) ∧ s.(rc_disk).(dk_creates) = (now_view s).(vw_creates).

Section in_round.
Variables (base : list event) (vms : list provisionedVM) (instances : list alephInstance).

(** The round's answers, and what was done before [base]. *)
Definition ctx (s : State) : Prop :=
  orderly s ∧ (now_view s).(vw_work) = vms ∧ (now_view s).(vw_list) = instances ∧ base `prefix_of` trace s.
Abbreviation keeps := (stable (holds_after ctx)).

(** An event that changes nothing of the view but the round. *)
Definition plain_event (e : event) : Prop := ∀ v, see v e = MkView v.(vw_work) v.(vw_list) v.(vw_creates) (v.(vw_round) ++ [e]).

Lemma ctx_event s s' e : ctx s → due (trace s) e → plain_event e → trace s' = trace s ++ [e] →
  s'.(rc_disk).(dk_creates) = s.(rc_disk).(dk_creates) → ctx s'.
Proof.
  intros ((Hj & Hd) & Hw & Hl & Hb) He Hp Tr D. unfold ctx, orderly, now_view in *. rewrite Tr, view_snoc, Hp, D.
  split_and!; try done; [by apply justified_snoc | by apply prefix_app_r].
Qed.

Lemma ctx_same s s' : ctx s → trace s' = trace s → s'.(rc_disk).(dk_creates) = s.(rc_disk).(dk_creates) → ctx s'.
Proof. intros ((Hj & Hd) & Hw & Hl & Hb) Tr D. unfold ctx, orderly, now_view in *. by rewrite Tr, D. Qed.

Lemma keeps_unseen {A} (svc : Ext W A) : keeps (ask (unseen svc)).
Proof. intros s Hs. unfold ask, unseen. destruct (svc s.(rc_world).1) as [w r]. by eapply ctx_same. Qed.

Lemma keeps_noted {A} (svc : Ext W A) note : (∀ s r, ctx s → due (trace s) (note r)) → (∀ r, plain_event (note r)) →
  keeps (ask (noted svc note)).
Proof.
  intros Hd Hp s Hs. unfold ask, noted. destruct (svc s.(rc_world).1) as [w r]. by apply (ctx_event s _ (note r)); [|apply Hd|apply Hp|..].
Qed.

Lemma keeps_survive {A} (m : M State fault A) : keeps m → keeps (survive m).
Proof. intros Hm s Hs. specialize (Hm s Hs). unfold survive. by destruct (m s) as [s' [[]|a]]. Qed.

Lemma keeps_memory f : keeps (update_memory f).
Proof. apply stable_modify. intros s Hs. by eapply ctx_same. Qed.
Lemma keeps_files f : keeps (update_disk (λ d, d <| dk_files ::= f |>)).
Proof. apply stable_modify. intros s Hs. by eapply ctx_same. Qed.

(** The calls that need no reason. *)
Definition free_op (op : diskop) : Prop := match op with WriteCreate _ _ | RemoveCreate _ => False | _ => True end.
Lemma keeps_disk op : free_op op → keeps (ask (disk op)).
Proof. intros Hop. apply keeps_noted; destruct op; done. Qed.

Lemma keeps_report vmID report : report.(vr_State) ≠ vmStateDeleted → (report.(vr_State) ≠ vmStateCreating → report.(vr_ItemHash) = ""%string) →
  keeps (ask (Report vmID report)).
Proof. intros Hne Hh. apply (keeps_noted (Report vmID report) (Reported vmID report)); [intros s r _; by split | done]. Qed.

#[local] Hint Extern 1 (keeps (ask (disk _))) => apply keeps_disk; exact I : ops.
#[local] Hint Extern 1 (keeps (ask (Report _ _))) => apply keeps_report; done : ops.
#[local] Hint Extern 1 (keeps (ask generateKey)) => apply keeps_unseen : ops.
#[local] Hint Extern 1 (keeps (update_memory _)) => apply keeps_memory : ops.
#[local] Hint Extern 1 (keeps (update_disk _)) => apply keeps_files : ops.
#[local] Hint Extern 1 (keeps (survive _)) => apply keeps_survive; eauto 2 with ops : ops.
#[local] Hint Extern 1 (keeps read_clock) => apply stable_gets; apply _ : ops.
#[local] Hint Extern 1 (keeps memory) => apply stable_gets; apply _ : ops.

Lemma keeps_read_file f vmID : keeps (read_file f vmID).
Proof. unfold read_file. stable_steps. Qed.
Lemma keeps_write_file f vmID content : keeps (write_file f vmID content).
Proof. unfold write_file. stable_steps. Qed.
Lemma keeps_remove_file f vmID : keeps (remove_file f vmID).
Proof. unfold remove_file. stable_steps. Qed.
#[local] Hint Resolve keeps_read_file keeps_write_file keeps_remove_file : ops.

Lemma keeps_unlockedBoot vmID : keeps (unlockedBoot vmID).
Proof. unfold unlockedBoot. stable_steps. Qed.
Lemma keeps_saveUnlockedBoot vmID identity : keeps (saveUnlockedBoot vmID identity).
Proof. apply keeps_write_file. Qed.
Lemma keeps_loadCreate vmID : keeps (loadCreate vmID).
Proof. unfold loadCreate. stable_steps. Qed.
Lemma keeps_nodeKey vmID : keeps (nodeKey vmID).
Proof. unfold nodeKey. stable_steps. Qed.
Lemma keeps_noteProgress vmID note : keeps (noteProgress vmID note).
Proof. unfold noteProgress. stable_steps. Qed.
Lemma keeps_recentlyForgotten itemHash : keeps (recentlyForgotten itemHash).
Proof. unfold recentlyForgotten. stable_steps. Qed.
#[local] Hint Resolve keeps_unlockedBoot keeps_saveUnlockedBoot keeps_loadCreate keeps_nodeKey keeps_noteProgress keeps_recentlyForgotten : ops.

Lemma keeps_bootIdentity vm : keeps (bootIdentity vm).
Proof.
  unfold bootIdentity. cbn [boots recorded]. destruct boots as [read|]; cbn [fmap option_fmap option_map]; stable_steps.
  apply keeps_survive, keeps_unseen.
Qed.
Lemma keeps_describeRefusal : keeps describeRefusal.
Proof.
  unfold describeRefusal. cbn [payerCredits recorded]. destruct payerCredits as [credits|]; cbn [fmap option_fmap option_map]; stable_steps.
  apply keeps_survive, keeps_unseen.
Qed.
Lemma keeps_reportRefusal vmID state refusal : state ≠ vmStateDeleted → keeps (reportRefusal vmID state refusal).
Proof. intros Hne. unfold reportRefusal. stable_steps. Qed.
#[local] Hint Resolve keeps_bootIdentity keeps_describeRefusal : ops.
#[local] Hint Extern 1 (keeps (reportRefusal _ _ _)) => apply keeps_reportRefusal; done : ops.

(** *** Unlocking *)

Lemma keeps_unlock vm : vm ∈ vms → vm.(pv_Desired) ≠ "absent"%string →
  vm.(pv_State) ∈ [vmStateUnlocking; vmStateBooting; vmStateReady] → keeps (unlock cfg vm).
Proof.
  intros Hvm Hd Hst. unfold unlock. stable_steps. apply keeps_noted; [|done]. intros t r (_ & Hw & _). cbn [due].
  exists vm. unfold now_view in Hw. rewrite Hw. split_and!; try done.
Qed.

Lemma keeps_watchBoot vm : vm ∈ vms → vm.(pv_Desired) ≠ "absent"%string →
  vm.(pv_State) ∈ [vmStateUnlocking; vmStateBooting; vmStateReady] → keeps (watchBoot cfg vm).
Proof.
  intros Hvm Hd Hst. unfold watchBoot. stable_steps. all: try (by apply keeps_survive, keeps_unlock).
Qed.

Lemma keeps_step_unlocking vm : vm ∈ vms → vm.(pv_Desired) ≠ "absent"%string →
  vm.(pv_State) ∈ [vmStateUnlocking; vmStateBooting; vmStateReady] → keeps (step_unlocking cfg vm).
Proof. intros Hvm Hd Hst. unfold step_unlocking. stable_steps. all: try (by apply keeps_survive, keeps_unlock). Qed.

(** *** Create records *)

(** A call whose event has a reason in this state. *)
Lemma ask_wp {A} (svc : Ext W A) note s Q X : ctx s → (∀ r, due (trace s) (note r)) → (∀ r, plain_event (note r)) →
  (∀ r s', ctx s' → trace s' = trace s ++ [note r] → s'.(rc_disk) = s.(rc_disk) → match r with inr a => Q a s' | inl e => X e s' end) →
  wp (ask (noted svc note)) Q X s.
Proof.
  intros Hs Hd Hp HQ. unfold wp, ask, noted. destruct (svc s.(rc_world).1) as [w r].
  destruct r as [e|a]; [specialize (HQ (inl e)) | specialize (HQ (inr a))]; apply HQ; try done.
  - by apply (ctx_event s _ (note (inl e))).
  - by apply (ctx_event s _ (note (inr a))).
Qed.

(** A record written or removed. *)
Lemma ctx_records s s' e creates : ctx s → due (trace s) e → trace s' = trace s ++ [e] →
  (∀ v, v.(vw_creates) = s.(rc_disk).(dk_creates) → see v e = MkView v.(vw_work) v.(vw_list) creates (v.(vw_round) ++ [e])) →
  s'.(rc_disk).(dk_creates) = creates → ctx s'.
Proof.
  intros ((Hj & Hd) & Hw & Hl & Hb) He Tr Hsee D. unfold ctx, orderly, now_view in *. rewrite Tr, view_snoc, Hsee by done.
  split_and!; try done; [by apply justified_snoc | by apply prefix_app_r].
Qed.

Lemma forgetCreate_wp vmID s : ctx s → due (trace s) (DiskCall (RemoveCreate (Base vmID)) (inr tt)) →
  wp (forgetCreate vmID) (λ _ s', ctx s' ∧ s'.(rc_disk).(dk_creates) !! Base vmID = None) (λ _, ctx) s.
Proof.
  intros Hs Hd. unfold forgetCreate. rewrite wp_bind. unfold wp at 1, ask. cbn [disk recorded]. unfold noted.
  destruct (disk (RemoveCreate (Base vmID)) s.(rc_world).1) as [w [e|[]]].
  - by apply (ctx_event s _ (DiskCall (RemoveCreate (Base vmID)) (inl e))).
  - unfold update_disk. rewrite wp_modify. split; [|apply lookup_delete_eq].
    apply (ctx_records s _ (DiskCall (RemoveCreate (Base vmID)) (inr tt)) (delete (Base vmID) s.(rc_disk).(dk_creates))); try done.
    intros v Ev. cbn [see]. by rewrite Ev.
Qed.

Lemma saveCreate_wp vmID record s : ctx s → due (trace s) (DiskCall (WriteCreate (Base vmID) record) (inr tt)) →
  wp (saveCreate vmID record)
    (λ _ s', ctx s' ∧ s'.(rc_disk).(dk_creates) !! Base vmID = Some (Some record)
       ∧ trace s' = trace s ++ [DiskCall (WriteCreate (Base vmID) record) (inr tt); DiskCall SyncDirectory (inr tt)]) (λ _, ctx) s.
Proof.
  intros Hs Hd. unfold saveCreate. rewrite wp_bind. unfold wp at 1, ask at 1. cbn [disk recorded]. unfold noted at 1.
  destruct (disk (WriteCreate (Base vmID) record) s.(rc_world).1) as [w [e|[]]].
  - by apply (ctx_event s _ (DiskCall (WriteCreate (Base vmID) record) (inl e))).
  - unfold update_disk. rewrite wp_bind, wp_modify. match goal with |- wp _ _ _ ?t => set (s1 := t) end.
    assert (C1 : ctx s1).
    { apply (ctx_records s _ (DiskCall (WriteCreate (Base vmID) record) (inr tt)) (<[Base vmID := Some record]> s.(rc_disk).(dk_creates))); try done.
      intros v Ev. cbn [see]. by rewrite Ev. }
    apply ask_wp; [exact C1 | done | done |]. intros [e|[]] s2 C2 T2 D2; [done|]. split_and!; [done | |].
    + rewrite D2. apply lookup_insert_eq.
    + rewrite T2. change (trace s1) with (trace s ++ [DiskCall (WriteCreate (Base vmID) record) (inr tt)]). by rewrite <-app_assoc.
Qed.

Lemma keeps_wp {A} (m : M State fault A) s : keeps m → ctx s → wp m (λ _, ctx) (λ _, ctx) s.
Proof. intros Hm Hs. specialize (Hm s Hs). unfold wp. by destruct (m s) as [s' [e|a]]. Qed.

Lemma wp_survive {S A} (m : M S fault A) Q X s :
  wp m (λ a, Q (inr a)) (λ e s', match e with Crashed => X Crashed s' | _ => Q (inl e) s' end) s → wp (survive m) Q X s.
Proof. unfold wp, survive. by destruct (m s) as [s' [[]|a]]. Qed.

(** A step that keeps to it, then the rest. *)
Lemma keeps_then {A B} (m : M State fault A) (k : A → M State fault B) s :
  ctx s → keeps m → (∀ a s', ctx s' → wp (k a) (λ _, ctx) (λ _, ctx) s') → wp (m ≫= k) (λ _, ctx) (λ _, ctx) s.
Proof. intros Hs Hm Hk. rewrite wp_bind. eapply wp_mono; [by apply keeps_wp | intros a s' C'; by apply Hk | done]. Qed.

Lemma deleteInstance_wp itemHash s : ctx s → due (trace s) (Deleted itemHash (inr tt)) →
  wp (deleteInstance itemHash) (λ _, ctx) (λ _, ctx) s.
Proof.
  intros Hs Hd. unfold deleteInstance. rewrite wp_bind. apply ask_wp; [done | done | done |]. intros [e|[]] s' C' _ _; [done|].
  apply keeps_wp; [|done]. stable_steps.
Qed.

Lemma recentlyForgotten_wp itemHash s :
  wp (recentlyForgotten itemHash) (λ _ s', trace s' = trace s ∧ s'.(rc_disk) = s.(rc_disk)) (λ _ _, False) s.
Proof.
  unfold recentlyForgotten, memory, read_clock. rewrite wp_bind, wp_gets, wp_bind, wp_gets.
  destruct (_ !! itemHash); [|done]. destruct (_ <=? _); [|done]. unfold update_memory. by rewrite wp_bind, wp_modify, wp_ret.
Qed.

(** *** Where a VM's instance is *)

Definition located (s : State) (vm : provisionedVM) (instance : option alephInstance) : Prop :=
  match instance with
  | Some i => may_be (now_view s) vm i.(ai_ItemHash)
  | None => byHash instances !! ToLower vm.(pv_ItemHash) = None
      ∧ (ToLower vm.(pv_ItemHash) = ""%string → byName instances !! instanceName vm.(pv_ID) = None
         ∧ (unread (Base vm.(pv_ID)) (now_view s) ∨ hashless (Base vm.(pv_ID)) s.(rc_disk).(dk_creates)))
  end.

Lemma remove_wp vm instance s : ctx s → vm ∈ vms → vm.(pv_Desired) = "absent"%string → located s vm instance →
  wp (remove vm instance) (λ _, ctx) (λ _, ctx) s.
Proof.
  intros Hs Hvm Hd Hloc. assert (Hwork : ∀ s', ctx s' → vm ∈ (now_view s').(vw_work)) by (intros s' (_ & -> & _); done).
  unfold remove. destruct instance as [i|].
  - rewrite wp_bind. eapply wp_mono; [apply recentlyForgotten_wp | | done]. intros recently s1 [T1 D1].
    assert (C1 : ctx s1) by (eapply ctx_same; [exact Hs | done | by rewrite D1]).
    destruct recently; cbn [negb]; [by rewrite wp_ret|]. apply deleteInstance_wp; [done|]. left. exists vm.
    split_and!; [by apply (Hwork s1) | done |]. unfold located, now_view in Hloc. by rewrite T1.
  - destruct Hloc as [Hun _]. assert (Hunl : ∀ s', ctx s' → unlisted (now_view s') vm) by (intros s' (_ & _ & Hl & _); unfold unlisted; by rewrite Hl).
    rewrite wp_bind. apply wp_mono with (Q := λ _, ctx) (X := λ _, ctx); [| |done].
    { destruct (negb _); [|by rewrite wp_ret]. rewrite wp_bind. eapply wp_mono; [apply recentlyForgotten_wp | | done]. intros recently s1 [T1 D1].
      assert (C1 : ctx s1) by (eapply ctx_same; [exact Hs | done | by rewrite D1]).
      destruct recently; cbn [negb]; [by rewrite wp_ret|]. rewrite wp_bind. apply wp_survive.
      eapply wp_mono; [apply deleteInstance_wp; [exact C1|] | |].
      - left. exists vm. split_and!; [by apply (Hwork s1) | done | by left].
      - intros ? s2 C2. by rewrite wp_ret.
      - intros [] s2 C2; by rewrite ?wp_ret. }
    intros _ s1 C1. apply keeps_then; [done | apply keeps_memory|]. intros _ s2 C2.
    apply keeps_then; [done | apply keeps_remove_file|]. intros _ s3 C3.
    apply keeps_then; [done | apply keeps_remove_file|]. intros _ s4 C4.
    apply keeps_then; [done | apply keeps_remove_file|]. intros _ s5 C5.
    rewrite wp_bind. eapply wp_mono; [apply forgetCreate_wp; [done|] | |done].
    + exists vm. split_and!; [by apply (Hwork s5) | done | left]. split; [done | by apply (Hunl s5)].
    + intros _ s6 [C6 D6]. apply ask_wp; [done | | done | by intros [e|[]] s7 C7 _ _]. intros r. split; [done|]. intros _. exists vm.
      split_and!; [by apply (Hwork s6) | done | done | by apply (Hunl s6) |]. destruct C6 as ((_ & Hdisk) & _). unfold now_view in Hdisk. by rewrite <-Hdisk.
Qed.

(** *** Creating *)

Lemma rejection_wp vm s : ctx s →
  wp (rejection vm) (λ text s', ctx s' ∧ (text ≠ ""%string →
    ∃ m, last (trace s') = Some (Asked vm.(pv_ItemHash) (inr m)) ∧ m.(mg_Status) = StatusRejected)) (λ _, ctx) s.
Proof.
  intros Hs. unfold rejection. cbn [messages recorded]. destruct messages as [message|]; cbn [fmap option_fmap option_map]; [|by rewrite wp_ret].
  destruct (_ =?s ""); [by rewrite wp_ret|]. unfold memory, read_clock. rewrite wp_bind, wp_gets, wp_bind, wp_gets.
  destruct (match _ !! _ with Some _ => _ | None => _ end); [by rewrite wp_ret|].
  unfold update_memory. rewrite wp_bind, wp_modify, wp_bind. apply wp_survive.
  apply ask_wp; [by eapply ctx_same | done | done |]. intros [e|m] s' C' T' _.
  - destruct e; by rewrite ?wp_ret.
  - rewrite wp_ret. split; [done|]. destruct (m.(mg_Status) =?s StatusRejected) eqn:Em; [|done]. intros _. exists m.
    rewrite T', last_snoc. split; [done|]. by apply str_eqb_eq.
Qed.

Lemma step_creating_wp vm instance s : ctx s → vm ∈ vms → located s vm instance →
  wp (step_creating vm instance) (λ _, ctx) (λ _, ctx) s.
Proof.
  intros Hs Hvm Hloc. unfold step_creating. cbv zeta. rewrite wp_bind.
  apply wp_mono with (Q := λ text s', ctx s' ∧ (text ≠ ""%string → instance = None ∧
    ∃ m, last (trace s') = Some (Asked vm.(pv_ItemHash) (inr m)) ∧ m.(mg_Status) = StatusRejected)) (X := λ _, ctx); [| |done].
  { destruct instance as [i|]; cbn [is_null]; [by rewrite wp_ret|]. eapply wp_mono; [by apply rejection_wp | | done].
    intros text s' [C' Hm]. split; [done|]. intros Ht. split; [done | by apply Hm]. }
  intros text s1 [C1 Hm]. destruct (text =?s "") eqn:Et; cbn [negb].
  - apply keeps_wp; [|done]. apply stable_if; intros _.
    + cbn [progress recorded]. destruct progress as [read|]; cbn [fmap option_fmap option_map]; stable_steps. apply keeps_unseen.
    + stable_steps.
  - apply str_eqb_neq in Et. destruct (Hm Et) as [-> Hlast]. destruct Hloc as [Hun _].
    rewrite wp_bind. eapply wp_mono; [apply forgetCreate_wp; [done|] | | done].
    + destruct C1 as ((_ & _) & Hw & Hl & _). exists vm. unfold unlisted. unfold now_view in *. rewrite Hw, Hl. split_and!; [done | done |].
      right. right. by split.
    + intros _ s2 [C2 _]. apply keeps_wp; [|done]. by apply keeps_reportRefusal.
Qed.

Hypothesis clock_after : ∀ w : W, zero_time < now_of w.

Lemma pickCRN_in region target :
  pickCRN cfg region instances = Some target → target.(ct_Hash) ∈ (ct_Hash <$> default [] (cfg.(po_RegionCRNs) !! region)).
Proof.
  unfold pickCRN. destruct (default [] _) as [|first rest]; [done|]. intros [= <-]. apply list_elem_of_fmap_2.
  assert (Hgen : ∀ l best, foldl (λ best target, if (load instances target.(ct_Hash) <? load instances best.(ct_Hash))%nat then target else best)
    best l ∈ best :: l).
  { induction l as [|t l IH]; intros best; cbn [foldl]; [by left|]. destruct (_ <? _)%nat.
    - right. apply IH.
    - specialize (IH best). rewrite !elem_of_cons in *. tauto. }
  apply Hgen.
Qed.

Lemma submit_create_wp vm target s : ctx s → vm ∈ vms → vm.(pv_Desired) ≠ "absent"%string → vm.(pv_State) = vmStateRequested →
  target.(ct_Hash) ∈ (ct_Hash <$> default [] (cfg.(po_RegionCRNs) !! vm.(pv_Region))) →
  byName instances !! instanceName vm.(pv_ID) = None → stale (s.(rc_disk).(dk_creates) !! Base vm.(pv_ID)) (now_of s.(rc_world).1) →
  unread (Base vm.(pv_ID)) (now_view s) ∨ hashless (Base vm.(pv_ID)) s.(rc_disk).(dk_creates) →
  wp (submit_create cfg vm target) (λ _, ctx) (λ _, ctx) s.
Proof.
  intros Hs Hvm Hd Hst Htarget Hname Hstale Hless. unfold submit_create, read_clock. rewrite wp_bind, wp_gets. cbn [now_of recorded].
  rewrite wp_bind. eapply wp_mono; [apply saveCreate_wp; [done|] | | done].
  { destruct Hs as ((_ & Hdisk) & Hw & Hl & _). left. exists vm. unfold now_view in *. rewrite Hw, Hl, <-Hdisk.
    split_and!; try done. apply clock_after. }
  intros _ s1 (C1 & D1 & T1). rewrite wp_bind. apply wp_survive.
  apply ask_wp; [exact C1 | | done |].
  { intros r. exists vm, (MkCreate target.(ct_Hash) (now_of s.(rc_world).1) ""), (trace s).
    destruct C1 as (_ & Hw & _). destruct Hs as ((_ & Hdisk) & _). unfold now_view in Hw, Hdisk. rewrite Hw, <-Hdisk.
    split_and!; try done. apply clock_after. }
  intros r s2 C2 T2 D2. destruct r as [e|itemHash].
  - assert (Hthrow : ∀ e', wp (throw e') (λ _ : unit, ctx) (λ _, ctx) s2) by (by intros e'; rewrite wp_throw). destruct e; try (by apply Hthrow).
    rewrite wp_bind. eapply wp_mono; [apply forgetCreate_wp; [done|] | | done].
    + destruct C2 as (_ & Hw & _). exists vm. unfold now_view in Hw. rewrite Hw. split_and!; [done | done |]. right. left.
      eexists. split; [by rewrite T2, last_snoc | done].
    + intros _ s3 [C3 _]. apply keeps_wp; [|done]. stable_steps.
  - unfold update_memory. rewrite wp_bind, wp_modify. match goal with |- wp _ _ _ ?t => set (s3 := t) end.
    assert (C3 : ctx s3) by (by eapply ctx_same). rewrite wp_bind. apply wp_survive. eapply wp_mono; [apply saveCreate_wp; [done|] | |].
    + right. eexists _, itemHash, (MkCreate target.(ct_Hash) (now_of s.(rc_world).1) ""). split_and!; [change (trace s3) with (trace s2); by rewrite T2, last_snoc | | reflexivity].
      destruct C3 as ((_ & Hdisk) & _). unfold now_view in Hdisk. rewrite <-Hdisk. change (rc_disk s3) with (rc_disk s2). by rewrite D2.
    + intros _ s4 (C4 & _). apply keeps_wp; [|done]. by apply keeps_report.
    + intros e s4 C4. destruct e; try done; (apply keeps_wp; [|done]); by apply keeps_report.
Qed.

Lemma loadCreate_wp vmID s : ctx s →
  wp (loadCreate vmID) (λ record s', ctx s' ∧ s'.(rc_disk) = s.(rc_disk) ∧ trace s' = trace s ++ [DiskCall (ReadCreate (Base vmID)) (inr tt)]
       ∧ match s.(rc_disk).(dk_creates) !! Base vmID with
         | None => record = no_create
         | Some None => False
         | Some (Some r) => record = MkCreate r.(cr_CRNHash) r.(cr_SubmittedAt) (ToLower r.(cr_ItemHash))
         end)
     (λ e s', ctx s' ∧ s'.(rc_disk) = s.(rc_disk) ∧ (unread (Base vmID) (now_view s') ∨ s.(rc_disk).(dk_creates) !! Base vmID = Some None)) s.
Proof.
  intros Hs. unfold loadCreate. rewrite wp_bind. apply ask_wp; [done | done | done |]. intros [e|[]] s' C' T' D'.
  - split_and!; [done | done |]. left. exists e. unfold now_view. rewrite T', view_snoc. cbn. apply elem_of_app. right. by left.
  - rewrite wp_bind, wp_gets. unfold Datatypes.id. rewrite D'. destruct (_ !! Base vmID) as [[r|]|]; rewrite ?wp_ret, ?wp_throw; split_and!; try done.
    by right.
Qed.

Lemma step_requested_wp vm instance s : ctx s → vm ∈ vms → vm.(pv_Desired) ≠ "absent"%string → vm.(pv_State) = vmStateRequested →
  vm.(pv_ItemHash) = ""%string → located s vm instance → wp (step_requested cfg vm instance instances) (λ _, ctx) (λ _, ctx) s.
Proof.
  intros Hs Hvm Hd Hst Hhash Hloc. unfold step_requested. destruct instance as [i|]; [apply keeps_wp; [by apply keeps_report | done]|].
  destruct Hloc as [_ Hloc]. rewrite Hhash in Hloc. destruct (Hloc eq_refl) as [Hname Hless].
  unfold memory, read_clock. rewrite wp_bind, wp_gets, wp_bind, wp_gets.
  destruct (match _ !! _ with Some _ => _ | None => _ end); [by rewrite wp_ret|].
  rewrite wp_bind. eapply wp_mono; [by apply loadCreate_wp | | by intros e s' (? & _)]. intros pending s1 (C1 & D1 & T1 & Hp).
  rewrite wp_bind, wp_gets. destruct (_ && _) eqn:Ew; [apply keeps_wp; [apply keeps_noteProgress | done]|].
  destruct (pickCRN _ _ _) as [target|] eqn:Epick; [apply pickCRN_in in Epick|apply keeps_wp; [by apply keeps_report | done]].
  apply submit_create_wp; try done.
  - rewrite D1. destruct (_ !! Base _) as [[r|]|]; [|done|done]. subst pending. cbn [cr_SubmittedAt] in Ew.
    apply andb_false_iff in Ew as [Ez%negb_false_iff%Z.eqb_eq|Ez%Z.ltb_ge]; [by left | right]. cbn [now_of recorded] in Ez. lia.
  - rewrite D1. destruct Hless as [(e & He)|?]; [left | by right]. exists e. unfold now_view. rewrite T1, view_snoc. cbn.
    apply elem_of_app. by left.
Qed.

Lemma step_wp vm instance s : ctx s → vm ∈ vms → (vm.(pv_State) = vmStateRequested → vm.(pv_ItemHash) = ""%string) →
  located s vm instance → wp (step cfg vm instance instances) (λ _, ctx) (λ _, ctx) s.
Proof.
  intros Hs Hvm Hreq Hloc. unfold step.
  destruct (_ =?s "absent") eqn:Ea; [apply str_eqb_eq in Ea; by apply remove_wp | apply str_eqb_neq in Ea].
  destruct (_ =?s vmStateRequested) eqn:Er; [apply str_eqb_eq in Er; by apply step_requested_wp; auto|].
  destruct (_ =?s vmStateCreating); [by apply step_creating_wp|].
  destruct (_ =?s vmStateUnlocking) eqn:Eu; [apply str_eqb_eq in Eu; apply keeps_wp; [apply keeps_step_unlocking; set_solver | done]|].
  destruct (_ || _) eqn:Eb; [|by rewrite wp_ret]. apply keeps_wp; [|done]. apply orb_true_iff in Eb as [Eb|Eb];
    apply str_eqb_eq in Eb; apply keeps_watchBoot; set_solver.
Qed.

(** *** Finding a VM's instance *)

Lemma byHash_in h i : byHash instances !! h = Some i → i ∈ instances ∧ i.(ai_ItemHash) = h.
Proof.
  unfold byHash. assert (Hgen : ∀ l (m : gmap string alephInstance), foldl (λ m i, <[i.(ai_ItemHash) := i]> m) m l !! h = Some i → i ∈ l ∧ i.(ai_ItemHash) = h ∨ m !! h = Some i).
  { induction l as [|j l IH]; intros m Hi; [by right|]. cbn in Hi. apply IH in Hi as [[??]|Hi]; [left; split; [by right | done]|].
    apply lookup_insert_Some in Hi as [[? <-]|[_ ?]]; [left; split; [by left | done] | by right]. }
  intros [?|E]%Hgen; [done | by rewrite lookup_empty in E].
Qed.

Lemma adopt_wp vm s : ctx s → ToLower vm.(pv_ItemHash) = ""%string → byHash instances !! ""%string = None →
  wp (adopt vm.(pv_ID) instances) (λ instance s', ctx s' ∧ located s' vm instance) (λ _, ctx) s.
Proof.
  intros Hs Hknown Hnone. unfold adopt. rewrite wp_bind. apply wp_survive.
  assert (Hby : ∀ s', ctx s' → unread (Base vm.(pv_ID)) (now_view s') ∨ hashless (Base vm.(pv_ID)) s'.(rc_disk).(dk_creates) →
    located s' vm (byName instances !! instanceName vm.(pv_ID))).
  { intros s' C' Hl. destruct (byName instances !! _) as [i|] eqn:Ei; cbn [located].
    - right. left. exists i. destruct C' as (_ & _ & -> & _). done.
    - rewrite Hknown. split; [done|]. intros _. by split. }
  eapply wp_mono; [by apply loadCreate_wp | |].
  - intros record s' (C' & D' & T' & Hrec). destruct (record.(cr_ItemHash) =?s "") eqn:Eh; cbn [negb]; rewrite wp_ret; (split; [done|]).
    + apply Hby; [done|]. right. intros r Hr. rewrite D' in Hr. rewrite Hr in Hrec. subst record. by apply str_eqb_eq in Eh.
    + assert (Hm : may_be (now_view s') vm record.(cr_ItemHash)).
      { right. right. destruct C' as ((_ & Hdisk) & _). rewrite <-Hdisk, D'.
        destruct (_ !! Base _) as [[r|]|]; [|done|subst record; done]. exists r. split; [done|]. by subst record. }
      destruct (byHash instances !! record.(cr_ItemHash)) as [i|] eqn:Ei; [|exact Hm]. apply byHash_in in Ei as [_ Ei]. cbn. by rewrite Ei.
  - intros e s' (C' & D' & Hl). destruct e; try done; (rewrite wp_ret; split; [done|]; apply Hby; [done|]);
      (destruct Hl as [?|Hl]; [by left | right; intros r Hr; rewrite D', Hl in Hr; done]).
Qed.

End in_round.

(** What the round knows of who owns which name. *)
Definition owners (s : State) (done : list provisionedVM) (claimed : gmap string string) : Prop :=
  ∀ n h, claimed !! n = Some h →
    ∃ vm, vm ∈ done ∧ instanceName vm.(pv_ID) = n ∧ belonged (trace s) (now_view s).(vw_list) vm h.

Lemma instanceName_inj a b : instanceName a = instanceName b → a = b.
Proof.
  unfold instanceName. intros E. apply (f_equal bytes_of) in E. rewrite !bytes_of_app in E. apply app_inv_head in E.
  by rewrite <-(of_bytes_of a), <-(of_bytes_of b), E.
Qed.

Lemma owners_later s s' done claimed : owners s done claimed → trace s `prefix_of` trace s' →
  (now_view s').(vw_list) = (now_view s).(vw_list) → owners s' done claimed.
Proof.
  intros Ho Hpre Hl n h Hc. destruct (Ho n h Hc) as (vm & Hvm & Hn & Hb). exists vm. split_and!; [done..|]. unfold belonged in *. rewrite Hl.
  destruct Hb as [?|[? [?|(before & r & Hb & Hr)]]]; [by left | right; split; [done | by left] | right; split; [done | right]].
  exists before, r. split; [by etrans | done].
Qed.

Lemma owners_step s done claimed vm h : owners s done claimed → belonged (trace s) (now_view s).(vw_list) vm h →
  owners s (done ++ [vm]) (<[instanceName vm.(pv_ID) := h]> claimed).
Proof.
  intros Ho Hh n h' [[<- <-]|[_ Hc]]%lookup_insert_Some; [exists vm | destruct (Ho n h' Hc) as (v & Hv & ?); exists v]; set_solver.
Qed.

Lemma owners_skip s done claimed vm : owners s done claimed → owners s (done ++ [vm]) claimed.
Proof. intros Ho n h Hc. destruct (Ho n h Hc) as (v & Hv & ?). exists v. set_solver. Qed.

Lemma may_be_belonged s vm h : may_be (now_view s) vm h → ToLower vm.(pv_ItemHash) = ""%string →
  belonged (trace s) (now_view s).(vw_list) vm h.
Proof.
  intros [?|[?|(r & ? & ?)]] Hk; [by left | right; split; [done | by left] | right; split; [done | right]]. by exists (trace s), r.
Qed.

Lemma NoDup_same {A B} (f : A → B) l x y : NoDup (f <$> l) → x ∈ l → y ∈ l → f x = f y → x = y.
Proof.
  intros Hnd [i Hi]%list_elem_of_lookup [j Hj]%list_elem_of_lookup E.
  assert (i = j) as ->; [|congruence]. eapply NoDup_lookup; [exact Hnd | by rewrite list_lookup_fmap, Hi | by rewrite list_lookup_fmap, Hj, E].
Qed.

Lemma owner_of s vms claimed vm h : NoDup (pv_ID <$> vms) → owners s vms claimed → vm ∈ vms →
  claimed !! instanceName vm.(pv_ID) = Some h → belonged (trace s) (now_view s).(vw_list) vm h.
Proof.
  intros Hids Ho Hvm Hc. destruct (Ho _ _ Hc) as (vm' & Hvm' & E%instanceName_inj & Hb). by rewrite <-(NoDup_same pv_ID vms vm' vm).
Qed.

(** From a later starting point on, and back. *)
Lemma ctx_rebase base vms instances s : ctx base vms instances s → ctx (trace s) vms instances s.
Proof. intros (? & ? & ? & _). by split_and!. Qed.
Lemma ctx_forget base vms instances s : ctx base vms instances s → ctx [] vms instances s.
Proof. intros (? & ? & ? & _). split_and!; try done. apply prefix_nil. Qed.
Lemma ctx_owners base vms instances s s' done claimed : ctx base vms instances s → ctx (trace s) vms instances s' →
  owners s done claimed → owners s' done claimed.
Proof. intros (_ & _ & Hl & _) (_ & _ & Hl' & Hb) Ho. apply (owners_later s); [done | done | by rewrite Hl, Hl']. Qed.

Section whole_round.
Variables (vms : list provisionedVM) (instances : list alephInstance).
Hypothesis clock_after : ∀ w : W, zero_time < now_of w.

Lemma round_vm_wp done claimed vm s : ctx [] vms instances s → vm ∈ vms → (vm.(pv_State) = vmStateRequested → vm.(pv_ItemHash) = ""%string) →
  owners s done claimed →
  wp (round_vm cfg instances claimed vm) (λ claimed' s', ctx [] vms instances s' ∧ owners s' (done ++ [vm]) claimed') (λ _, ctx [] vms instances) s.
Proof.
  intros Hs Hvm Hreq Ho. unfold round_vm. cbv zeta. rewrite wp_bind.
  apply wp_mono with (Q := λ instance s', ctx (trace s) vms instances s' ∧ located instances s' vm instance) (X := λ _, ctx (trace s) vms instances);
    [| |intros e s'; apply ctx_forget].
  { apply ctx_rebase in Hs. destruct (byHash instances !! _) as [i|] eqn:Ei.
    - rewrite wp_ret. split; [done|]. left. by apply byHash_in in Ei as [_ ?].
    - destruct (_ =?s "") eqn:Ek; [apply str_eqb_eq in Ek; rewrite Ek in Ei; by apply adopt_wp|]. apply str_eqb_neq in Ek.
      rewrite wp_ret. split; [done|]. split; [done|]. intros ?; done. }
  intros instance s1 [C1 Hloc]. rewrite wp_bind. apply wp_survive. apply (ctx_owners _ _ _ s s1 _ _ Hs C1) in Ho. apply ctx_rebase in C1.
  assert (Howners : owners s1 (done ++ [vm])
    (if negb (ToLower vm.(pv_ItemHash) =?s "") then <[instanceName vm.(pv_ID) := ToLower vm.(pv_ItemHash)]> claimed
     else match instance with Some i => <[instanceName vm.(pv_ID) := i.(ai_ItemHash)]> claimed | None => claimed end)).
  { destruct (_ =?s "") eqn:Ek; cbn [negb]; [apply str_eqb_eq in Ek|].
    - destruct instance as [i|]; [apply owners_step; [done | by apply may_be_belonged] | by apply owners_skip].
    - apply owners_step; [done | by left]. }
  apply wp_mono with (Q := λ _, ctx (trace s1) vms instances) (X := λ _, ctx (trace s1) vms instances); [by apply step_wp | |].
  - intros _ s2 C2. rewrite wp_ret. split; [by eapply ctx_forget | by apply (ctx_owners (trace s1) vms instances s1)].
  - intros e s2 C2. pose proof (ctx_owners _ _ _ _ _ _ _ C1 C2 Howners). apply ctx_forget in C2. destruct e; by rewrite ?wp_ret.
Qed.

Lemma delete_unclaimed_wp claimed i s : ctx [] vms instances s → NoDup (pv_ID <$> vms) → i ∈ instances → owners s vms claimed →
  wp (delete_unclaimed ((λ vm, instanceName vm.(pv_ID)) <$> vms) claimed i)
    (λ _, ctx (trace s) vms instances) (λ _, ctx (trace s) vms instances) s.
Proof.
  intros Hs Hids Hi Ho. apply ctx_rebase in Hs. unfold delete_unclaimed. destruct (HasPrefix _ _) eqn:Hp; cbn [negb]; [|by rewrite wp_ret].
  destruct (_ && _) eqn:Ew; [by rewrite wp_ret|].
  rewrite wp_bind. eapply wp_mono; [apply recentlyForgotten_wp | | done]. intros recently s1 [T1 D1].
  assert (C1 : ctx (trace s) vms instances s1) by (eapply ctx_same; [exact Hs | done | by rewrite D1]).
  destruct recently; [by rewrite wp_ret|]. rewrite wp_bind. apply wp_survive.
  eapply wp_mono; [apply deleteInstance_wp; [exact C1|] | |].
  - right. exists i. pose proof C1 as (_ & Hw & Hl & _). unfold now_view in Hw, Hl. rewrite Hw, Hl. split_and!; [done | done | done |].
    intros vm Hvm En. rewrite bool_decide_true in Ew by (rewrite <-En; apply list_elem_of_fmap; eauto). rewrite <-En in Ew.
    destruct (claimed !! _) as [h|] eqn:Hc; [|done]. exists h. split; [by apply str_eqb_neq in Ew|]. rewrite <-Hl.
    apply (ctx_owners _ _ _ s s1 _ _ Hs C1) in Ho. by eapply owner_of.
  - intros ? s2 C2. by rewrite wp_ret.
  - intros e s2 C2. destruct e; by rewrite ?wp_ret.
Qed.

Lemma round_body_wp s : ctx [] vms instances s → NoDup (pv_ID <$> vms) →
  Forall (λ vm, vm.(pv_State) = vmStateRequested → vm.(pv_ItemHash) = ""%string) vms →
  wp (claimed ← fold_each (round_vm cfg instances) ∅ vms;
      for_each (delete_unclaimed ((λ vm, instanceName vm.(pv_ID)) <$> vms) claimed) instances) (λ _, orderly) (λ _, orderly) s.
Proof.
  intros Hs Hids Hreq. rewrite Forall_forall in Hreq. rewrite wp_bind.
  eapply wp_mono with (X := λ _, ctx [] vms instances); [| |by intros e s' [? _]].
  - apply wp_fold with (Inv := λ claimed rest s', ctx [] vms instances s' ∧ ∃ done, vms = done ++ rest ∧ owners s' done claimed).
    + split; [done|]. exists []. split; [done|]. intros n h Hn. by rewrite lookup_empty in Hn.
    + intros claimed vm rest s' [C' (done & Ev & Ho)]. assert (Hvm : vm ∈ vms) by (rewrite Ev; set_solver).
      eapply wp_mono; [apply (round_vm_wp done); auto | | done]. intros claimed' s2 [C2 Ho2]. split; [done|]. exists (done ++ [vm]).
      by rewrite <-app_assoc.
  - intros claimed s1 [C1 (done & Ev & Ho)]. rewrite app_nil_r in Ev. subst done. unfold for_each.
    eapply wp_mono with (X := λ _, ctx [] vms instances); [| |by intros e s' [? _]].
    + apply wp_fold with (Inv := λ _ rest s', ctx [] vms instances s' ∧ owners s' vms claimed ∧ ∀ i, i ∈ rest → i ∈ instances).
      * by split_and!.
      * intros _ i rest s' (C' & Ho' & Hin). eapply wp_mono; [apply delete_unclaimed_wp; [done|done| |done]; apply Hin; by left | |].
        -- intros ? s2 C2. split_and!; [by apply (ctx_forget (trace s')) | by apply (ctx_owners [] vms instances s') | set_solver].
        -- intros e s2. apply ctx_forget.
    + by intros [] s2 ([? _] & _).
Qed.
End whole_round.

(** *** Whole runs *)

(** What is relied on: the clock is past Go's zero time; the control plane's ids are
    its table's key, and a VM that is only requested has no instance. *)
Definition clock_set : Prop := ∀ w : W, zero_time < now_of w.
Definition sound_list (vms : list provisionedVM) : Prop :=
  NoDup (pv_ID <$> vms) ∧ Forall (λ vm, vm.(pv_State) = vmStateRequested → vm.(pv_ItemHash) = ""%string) vms.
Definition answers_soundly (w : W) : Prop := ∀ w' vms, Work w = (w', inr vms) → sound_list vms.
Definition work_sound : Prop := ∀ w : W, answers_soundly w.

Lemma orderly_seen (s s' : State) e : orderly s → due (trace s) e → trace s' = trace s ++ [e] → s'.(rc_disk) = s.(rc_disk) →
  (∀ v, (see v e).(vw_creates) = v.(vw_creates)) → orderly s'.
Proof.
  intros [Hj Hd] He Tr D Hsee. unfold orderly, now_view in *. rewrite Tr, view_snoc, D, Hsee. split; [by apply justified_snoc | done].
Qed.

Lemma runOnce_wp (s : State) : clock_set → answers_soundly s.(rc_world).1 → orderly s →
  wp (runOnce cfg) (λ _, orderly) (λ _, orderly) s.
Proof.
  intros Hclock Hwork Hs. unfold runOnce. rewrite wp_bind. unfold wp at 1, ask at 1. cbn [Work recorded]. unfold noted at 1.
  destruct (Work s.(rc_world).1) as [w [e|vms]] eqn:Ew; [by apply (orderly_seen s _ (Worked (inl e)))|].
  apply Hwork in Ew as [Hids Hreq]. match goal with |- wp _ _ _ ?t => set (s1 := t) end.
  assert (O1 : orderly s1) by (by apply (orderly_seen s _ (Worked (inr vms)))).
  assert (V1 : (now_view s1).(vw_work) = vms) by (unfold now_view; change (trace s1) with (trace s ++ [Worked (inr vms)]); by rewrite view_snoc).
  clearbody s1. rewrite wp_bind. unfold wp at 1, ask at 1. cbn [ListInstances recorded]. unfold noted at 1.
  destruct (ListInstances s1.(rc_world).1) as [w1 [e|instances]]; [by apply (orderly_seen s1 _ (Listed (inl e)))|].
  match goal with |- wp _ _ _ ?t => set (s2 := t) end.
  apply round_body_wp; [done | | done | done]. split_and!; [by apply (orderly_seen s1 _ (Listed (inr instances))) | | | apply prefix_nil];
    unfold now_view; change (trace s2) with (trace s1 ++ [Listed (inr instances)]); rewrite view_snoc; [exact V1 | done].
Qed.

Lemma round_orderly r (s : State) : clock_set → answers_soundly s.(rc_world).1 → orderly s →
  orderly (round cfg r s).
Proof.
  intros Hclock Hwork Hs. pose proof (runOnce_wp s Hclock Hwork Hs) as Hrun. unfold wp in Hrun. unfold round.
  destruct (runOnce cfg s) as [s' [e|[]]]; [destruct e|]; try destruct r; done.
Qed.

Lemma rounds_orderly restarts s : clock_set → work_sound → orderly s → orderly (rounds cfg restarts s).
Proof.
  intros Hclock Hwork. unfold rounds. revert s. induction restarts as [|r restarts IH]; intros s Hs; [done|]. cbn. apply IH. apply round_orderly; [done | apply Hwork | done].
Qed.

(** *** Creates of a VM *)

(** The record [k] of a create submitted at [t] or later. *)
Definition pending_since (k : string) (t : Z) (tr : list event) : Prop := ∃ r,
  (view creates0 tr).(vw_creates) !! k = Some (Some r) ∧ t ≤ r.(cr_SubmittedAt) ∧ zero_time < r.(cr_SubmittedAt).

Lemma pending_step k t tr e : due tr e → pending_since k t tr →
  pending_since k t (tr ++ [e]) ∨ e = DiskCall (RemoveCreate k) (inr tt).
Proof.
  intros He (r & Hr & Ht & Hz).
  assert (Hkeep : (see (view creates0 tr) e).(vw_creates) !! k = Some (Some r) → pending_since k t (tr ++ [e])).
  { intros E. exists r. by rewrite view_snoc. }
  destruct e as [| | | | | | |op [x|[]]]; try (left; by apply Hkeep); destruct op; try (left; by apply Hkeep).
  - destruct (decide (name = k)) as [->|Hne]; [left | left; apply Hkeep; cbn; by rewrite lookup_insert_ne].
    exists record. rewrite view_snoc. cbn [see vw_creates]. rewrite lookup_insert_eq. split; [done|].
    destruct He as [(vm & _ & _ & _ & _ & _ & _ & Hs & Hz' & _)|(spec & h & old & _ & Hold & ->)].
    + rewrite Hr in Hs. destruct Hs as [Hs|Hs]; [lia|]. unfold createSettles, minute_ns, second_ns in Hs. lia.
    + rewrite Hr in Hold. by injection Hold as <-.
  - destruct (decide (name = k)) as [->|Hne]; [by right | left; apply Hkeep; cbn; by rewrite lookup_delete_ne].
Qed.

Lemma pending_run k t mid : ∀ pre post, justified (pre ++ mid ++ post) → pending_since k t pre →
  pending_since k t (pre ++ mid)
  ∨ ∃ m1 m2, mid = m1 ++ DiskCall (RemoveCreate k) (inr tt) :: m2 ∧ due (pre ++ m1) (DiskCall (RemoveCreate k) (inr tt)).
Proof.
  induction mid as [|e mid IH]; intros pre post Hj Hp; [left; by rewrite app_nil_r|].
  assert (He : due pre e) by (by apply (Hj pre e (mid ++ post))).
  destruct (pending_step k t pre e He Hp) as [Hp'| ->].
  - assert (E : pre ++ e :: mid = (pre ++ [e]) ++ mid) by (by rewrite <-app_assoc). rewrite E.
    destruct (IH (pre ++ [e]) post) as [?|(m1 & m2 & -> & Hd)]; [|done|by left|right].
    + by rewrite <-app_assoc.
    + exists (e :: m1), m2. split; [done|]. by rewrite <-app_assoc in Hd.
  - right. exists [], mid. by rewrite app_nil_r.
Qed.
End due.

(** *** Two creates *)

Definition saved (k : string) (c : createRecord) : list event := [DiskCall (WriteCreate k c) (inr tt); DiskCall SyncDirectory (inr tt)].

Lemma saved_after a e mid b k c : (∀ r, e ≠ DiskCall SyncDirectory r) → (∀ r, e ≠ DiskCall (WriteCreate k c) r) →
  a ++ e :: mid = b ++ saved k c → ∃ mid', mid = mid' ++ saved k c ∧ b = a ++ e :: mid'.
Proof.
  intros Hs Hw E. unfold saved in *. destruct mid as [|y mid _] using rev_ind.
  { change (a ++ [e] = b ++ ([DiskCall (WriteCreate k c) (inr tt)] ++ [DiskCall SyncDirectory (inr tt)])) in E.
    rewrite app_assoc in E. apply app_inj_tail in E as [_ E]. by destruct (Hs (inr tt)). }
  rewrite app_comm_cons, app_assoc in E.
  change (b ++ _) with (b ++ ([DiskCall (WriteCreate k c) (inr tt)] ++ [DiskCall SyncDirectory (inr tt)])) in E.
  rewrite (app_assoc b) in E. apply app_inj_tail in E as [E ->].
  destruct mid as [|x mid _] using rev_ind; [apply app_inj_tail in E as [_ E]; by destruct (Hw (inr tt))|].
  rewrite app_comm_cons, app_assoc in E. apply app_inj_tail in E as [<- ->]. exists mid. by rewrite <-app_assoc.
Qed.

Lemma submitted_saved cfg creates0 before spec r id : due cfg creates0 before (Submitted spec r) → spec.(cs_Name) = instanceName id →
  ∃ c b, before = b ++ saved (Base id) c ∧ stale ((view creates0 b).(vw_creates) !! Base id) c.(cr_SubmittedAt) ∧ zero_time < c.(cr_SubmittedAt).
Proof.
  intros (vm & c & b & _ & Hn & _ & _ & Hs & Hz & ->) E. rewrite E in Hn. apply instanceName_inj in Hn as ->. by exists c, b.
Qed.

(** ** Theorems *)

Section runs.
Context {W : Type} `{HS : !CloudServices W} `{PrivateKeys}.
Variables (cfg : provisionerConfig) (disk0 : Disk) (w : W).

(** What is done by a provisioner that starts with [disk0] and runs a round for each
    flag, restarted after it when the flag says so. *)
Definition run_trace (restarts : list bool) : list event :=
  trace (@rounds (Traced W) recorded _ _ cfg restarts (MkReconciler newReconciler disk0 (w, []))).

Lemma run_justified restarts : clock_set → work_sound → justified cfg disk0.(dk_creates) (run_trace restarts).
Proof. intros Hclock Hwork. apply rounds_orderly; [done | done|]. split; [apply justified_nil | done]. Qed.

(** C7: Everything the provisioner does has its reason, however calls fail, wherever the
    process stops and however often it is started again.  A create record is
    written only for a wanted VM in [requested] that no listed instance has the name
    of, when there is no record or its create settled five minutes ago, and no
    instance is recorded (unless the record could not be read in this round); or to
    add the answer of the create just submitted.  A create is submitted only right
    after its record was written and synced, and on a node of the VM's region.  A
    record is removed only for a VM to be deleted that is gone, after a refusal, or
    after a rejected message.  An instance is deleted only when it may be a VM to be
    deleted, or is named as a VM of this service and every VM of that name has
    another instance.  A VM is reported deleted only when it is to be, is not listed
    and has no record left.  Only wanted VMs past their creation are unlocked, and
    with their own id. *)
Theorem provisioner_acts_justified restarts : clock_set → work_sound → justified cfg disk0.(dk_creates) (run_trace restarts).
Proof. apply run_justified. Qed.

(** C33: Of two creates submitted for one VM, the second was recorded at least five
    minutes after the first, or else the record of an earlier one was removed in
    between, for one of the three reasons there are. *)
Theorem creates_apart restarts id a spec1 r1 mid spec2 r2 after : clock_set → work_sound →
  run_trace restarts = a ++ Submitted spec1 r1 :: mid ++ Submitted spec2 r2 :: after →
  spec1.(cs_Name) = instanceName id → spec2.(cs_Name) = instanceName id →
  (∃ c1 c2 a' mid', a = a' ++ saved (Base id) c1 ∧ mid = mid' ++ saved (Base id) c2
     ∧ c1.(cr_SubmittedAt) + createSettles ≤ c2.(cr_SubmittedAt))
  ∨ ∃ m1 m2, mid = m1 ++ DiskCall (RemoveCreate (Base id)) (inr tt) :: m2
      ∧ due cfg disk0.(dk_creates) (a ++ Submitted spec1 r1 :: m1) (DiskCall (RemoveCreate (Base id)) (inr tt)).
Proof.
  intros Hclock Hwork Htr Hn1 Hn2. pose proof (run_justified restarts Hclock Hwork) as Hj. rewrite Htr in Hj.
  pose proof (Hj a _ _ eq_refl) as Hd1. apply (submitted_saved _ _ _ _ _ id) in Hd1 as (c1 & a' & Ha & _ & Hz1); [|done].
  assert (Hd2 : due cfg disk0.(dk_creates) (a ++ Submitted spec1 r1 :: mid) (Submitted spec2 r2)).
  { apply (Hj _ _ after). by rewrite <-app_assoc. }
  apply (submitted_saved _ _ _ _ _ id) in Hd2 as (c2 & b & Hb & Hs & Hz2); [|done].
  apply saved_after in Hb as (mid' & -> & ->); [|done|done].
  destruct (pending_run cfg disk0.(dk_creates) (Base id) c1.(cr_SubmittedAt) mid' (a ++ [Submitted spec1 r1])
    (saved (Base id) c2 ++ Submitted spec2 r2 :: after)) as [(r & Hr & Ht & Hz)|(m1 & m2 & -> & Hd)].
  - rewrite <-app_assoc. by rewrite <-app_assoc in Hj.
  - exists c1. split_and!; [|done|done]. rewrite Ha, !view_snoc. unfold saved.
    change (a' ++ _) with (a' ++ ([DiskCall (WriteCreate (Base id) c1) (inr tt)] ++ [DiskCall SyncDirectory (inr tt)])).
    rewrite app_assoc, !view_snoc. apply lookup_insert_eq.
  - left. exists c1, c2, a', mid'. split_and!; [done | done|]. rewrite <-app_assoc in Hr. cbn in Hr. rewrite Hr in Hs. cbn in Hs. lia.
  - right. exists m1, (m2 ++ saved (Base id) c2). rewrite <-!app_assoc in *. done.
Qed.
End runs.

(** An interrupted write leaves a key file with no key, and such a file is taken for
    the VM's key: the private and the public key are empty from then on. *)
Theorem empty_key_accepted {W : Type} `{HS : !CloudServices W} `{PrivateKeys} vmID (s : Reconciler W) w :
  disk (ReadFile KeyFile (Base vmID)) s.(rc_world) = (w, inr tt) →
  s.(rc_disk).(dk_files) !! (KeyFile, Base vmID) = Some ""%string →
  nodeKey vmID s = (s <| rc_world := w |>, inr (""%string, ""%string)).
Proof.
  intros Hd Hf. unfold nodeKey, read_file, ask, gets. unfold mbind, M_bind. rewrite Hd. cbn. by rewrite Hf.
Qed.

(** ** A sample cloud *)

(** One VM is requested, whose creates are not answered; an instance of a VM nobody
    knows is listed; two minutes pass from round to round. *)
Definition sample_vm : provisionedVM := MkVM "pvm-1" None "eu" "requested" "present" "" "" "" "" None.
Definition sample_stray : alephInstance := MkInstance "cc" "virtroid-pvm-9" "aa" "".
Definition sample_provisioner : provisionerConfig :=
  MkProvisionerConfig "https://vm.example" "/var/lib" "rt" "img" 4 8192 10240 0 "/pass" {["eu"%string := [MkTarget "aa" "Genoa"; MkTarget "bb" ""]]}.

Definition sample_cloud : CloudServices nat := {|
  now_of n := Z.of_nat n * (2 * minute_ns);
  Work n := (S n, inr [sample_vm]);
  Report _ _ n := (n, inr tt);
  ListInstances n := (n, inr [sample_stray]);
  CreateInstance _ n := (n, inl (Failed "timed out"));
  UnlockInstance _ n := (n, inr tt);
  DeleteInstance _ n := (n, inr tt);
  progress := None; boots := None; messages := None; payerCredits := None;
  disk _ n := (n, inr tt);
  generateKey n := (n, inr ("k"%string, Some "p"%string)) |}.

Definition sample_keys : @PrivateKeys toy_signatures :=
  @Build_PrivateKeys toy_signatures (λ _, PkixError) (λ _, None).

Definition sample_run : list event :=
  @run_trace nat sample_cloud toy_signatures sample_keys sample_provisioner (MkDisk ∅ ∅) 0%nat [false; true; false; false].

Lemma sample_clock_set : @clock_set nat sample_cloud.
Proof. intros n. cbn. unfold zero_time, minute_ns, second_ns. lia. Qed.
Lemma sample_work_sound : @work_sound nat sample_cloud.
Proof. intros w w' vms [= <- <-]. split; [apply NoDup_singleton | by repeat constructor]. Qed.

Definition is_submission (e : event) : bool := match e with Submitted _ _ => true | _ => false end.

Lemma provisioner_acts_justified_witness :
  length (List.filter is_submission sample_run) = 2%nat ∧ justified sample_provisioner ∅ sample_run.
Proof.
  split; [vm_compute; reflexivity|].
  exact (@provisioner_acts_justified nat sample_cloud toy_signatures sample_keys sample_provisioner (MkDisk ∅ ∅) 0%nat [false; true; false; false]
    sample_clock_set sample_work_sound).
Defined.

Definition sample_submission : createSpec := MkCreateSpec "virtroid-pvm-1" "bb" "rt" "img" 4 8192 10240 0 "".

Lemma creates_apart_witness :
  ∃ c1 c2 a mid, sample_run = a ++ saved "pvm-1" c1 ++ Submitted sample_submission (inl (Failed "timed out")) :: mid ++ saved "pvm-1" c2
      ++ [Submitted sample_submission (inl (Failed "timed out"))]
    ∧ c1.(cr_SubmittedAt) + createSettles ≤ c2.(cr_SubmittedAt).
Proof.
  assert (E : sample_run = take 6 sample_run ++ Submitted sample_submission (inl (Failed "timed out")) :: take 18 (drop 7 sample_run)
    ++ [Submitted sample_submission (inl (Failed "timed out"))]) by (vm_compute; reflexivity).
  destruct (@creates_apart nat sample_cloud toy_signatures sample_keys sample_provisioner (MkDisk ∅ ∅) 0%nat [false; true; false; false] "pvm-1"
    _ _ _ _ _ _ _ sample_clock_set sample_work_sound E eq_refl eq_refl) as [(c1 & c2 & a & mid & Ha & Hm & Hc)|(m1 & m2 & Hm & _)].
  - exists c1, c2, a, mid. split; [|exact Hc]. change (Base "pvm-1") with "pvm-1"%string in *. rewrite E. rewrite Ha, Hm at 1. by rewrite <-!app_assoc.
  - exfalso. assert (Hin : DiskCall (RemoveCreate (Base "pvm-1")) (inr tt) ∈ take 18 (drop 7 sample_run)).
    { rewrite Hm. apply elem_of_app. right. by left. }
    clear Hm. revert Hin. vm_compute take. rewrite !elem_of_cons, elem_of_nil. intros Hin. repeat destruct Hin as [Hin|Hin]; done.
Defined.
