(* ===== verification/Fleet.v ===== *)
(** * The provisioner and the control plane together

    Provisioner.v assumes of the list it is given ([work_sound]) that ids are
    distinct and that a VM which is only requested has no instance.  Here the
    provisioner runs against the control plane's own table (Provisioning.v): the
    list it gets is the table's, its reports are applied to the table, other
    operations of the control plane come before any call, and calls get lost on
    the way, before or after they took effect.  The assumption holds in every such
    run, because each report carries an instance only with the state creating,
    which is shown of every report whatever the provisioner is given. *)

From S2P Require Import Prelude.
From S2P Require Import GoLib.
From S2P Require Import Schema.
From S2P Require Import Common.
From S2P Require Import NetIP.
From S2P Require Import Provisioning.
From S2P Require Import Requests.
From S2P Require Import Provisioner.
Open Scope Z_scope.

(** The states' names, and a row of the list as it is sent. *)
Definition state_name (s : VMState) : string :=
  match s with
  | Requested => "requested" | Creating => "creating" | Unlocking => "unlocking" | Booting => "booting" | Ready => "ready"
  | Schema.Deleted => "deleted"
  end.
Definition desired_name (d : Desired) : string := match d with Present => "present" | Absent => "absent" end.

Definition sent_vm (row : string * ProvisionedVM * option Z) : provisionedVM :=
  let '(id, v, seen) := row in
  MkVM id v.(vm_account_id) v.(vm_region) (state_name v.(vm_state)) (desired_name v.(vm_desired)) v.(vm_item_hash) v.(vm_crn_hash)
    v.(vm_public_ip) v.(vm_node_public_key) seen.
Definition work_list (db : Db) : list provisionedVM := sent_vm <$> ProvisionerWork db.

Definition sound_vms (db : Db) : Prop :=
  ∀ id v, db.(db_vms) !! id = Some v → v.(vm_state) = Requested → v.(vm_item_hash) = ""%string.
Abbreviation sound := (holds_after sound_vms).

(** A change of a row that keeps to it. *)
Definition sound_change (f : ProvisionedVM → ProvisionedVM) : Prop := ∀ v,
  (v.(vm_state) = Requested → v.(vm_item_hash) = ""%string) → (f v).(vm_state) = Requested → (f v).(vm_item_hash) = ""%string.

Lemma sound_same db db' : db'.(db_vms) = db.(db_vms) → sound db db'.
Proof. intros E Hs id v. rewrite E. apply Hs. Qed.
Lemma stable_same_sound {A} (m : Tx A) : stable (same db_vms) m → stable sound m.
Proof. intros Hm db. apply sound_same. symmetry. apply Hm. Qed.

Lemma sound_update p f db : sound_change f → sound db (db <| db_vms ::= update_where p f |>).
Proof.
  intros Hf Hs id v Hv. cbn in Hv. apply update_where_Some in Hv as (u & Hu & ->).
  destruct (p id u); [apply Hf|]; by apply (Hs id).
Qed.
Lemma sound_alter f id db : sound_change f → sound db (db <| db_vms ::= alter f id |>).
Proof.
  intros Hf Hs i v Hv. cbn in Hv. rewrite lookup_alter in Hv. case_decide; [|by apply (Hs i)].
  subst. apply fmap_Some in Hv as (u & Hu & ->). by apply Hf, (Hs i).
Qed.
Lemma sound_insert id a region now db : sound db (db <| db_vms ::= <[id := default_vm a region now]> |>).
Proof. intros Hs i v Hv. cbn in Hv. apply lookup_insert_Some in Hv as [[_ <-]|[_ Hv]]; [done | by apply (Hs i)]. Qed.

Lemma update_vms_sound p f : sound_change f → stable sound (update_vms p f).
Proof. intros Hf db. by apply sound_update. Qed.
Lemma insert_vm_sound id a region now : stable sound (insert_vm id (default_vm a region now)).
Proof. unfold insert_vm. stable_steps. apply sound_insert. Qed.
#[local] Hint Resolve insert_vm_sound : ops.
Lemma spare_loop_sound fuel : ∀ now fresh region warm max n live created,
  stable sound (spare_loop fuel now fresh region warm max n live created).
Proof.
  induction fuel as [|fuel IH]; intros *; cbn [spare_loop]; [stable_steps|].
  apply stable_if; intros _; [|stable_steps]. apply stable_bind; [apply _ | apply insert_vm_sound | intros _; apply IH].
Qed.
#[local] Hint Resolve spare_loop_sound : ops.

Lemma ReconcileProvisionedVMs_sound now fresh policy : stable sound (ReconcileProvisionedVMs now fresh policy).
Proof.
  unfold ReconcileProvisionedVMs, retireVMsTX, retireSilentNodeVMsTX, topUpSparesTX, top_up_region, resetStrandedTX, insert_log.
  stable_steps; try (apply update_vms_sound; intros v Hv; exact Hv); by apply sound_same.
Qed.

Lemma EnsureAccountVM_sound now freshID a region policy request :
  stable sound (EnsureAccountVM now freshID a region policy request).
Proof.
  unfold EnsureAccountVM, set_vm. stable_steps; try (apply sound_update; intros v Hv; exact Hv); try (apply sound_alter; intros v Hv; exact Hv).
  apply stable_same_sound. intros db. pose proof (checkTrialVMLimitsTX_read (TrimSpace a) policy request db) as E. unfold same in *. by rewrite <-E.
Qed.

Lemma sound_row id v v' db : db.(db_vms) !! id = Some v →
  ((v.(vm_state) = Requested → v.(vm_item_hash) = ""%string) → v'.(vm_state) = Requested → v'.(vm_item_hash) = ""%string) →
  sound db (db <| db_vms ::= alter (λ _, v') id |>).
Proof.
  intros Hv Hv' Hs i u Hu. cbn in Hu. rewrite lookup_alter in Hu. case_decide; [|by apply (Hs i)].
  subst. rewrite Hv in Hu. injection Hu as <-. by apply Hv', (Hs i).
Qed.

Lemma RetireProvisionedVM_sound id reason : stable sound (RetireProvisionedVM id reason).
Proof.
  apply stable_of_wp. intros db. unfold RetireProvisionedVM, set_vm. wp_steps; [|reflexivity].
  by apply (sound_row _ a).
Qed.

Lemma MarkProvisionedVMReady_sound now nodeID : stable sound (MarkProvisionedVMReady now nodeID).
Proof. intros db. apply sound_update. by intros v Hv. Qed.

(** A report carries an instance only with the state creating. *)
Definition instance_with_creating (report : ProvisionerReport) : Prop :=
  report_state report ≠ Some Creating → TrimSpace report.(pr_ItemHash) = ""%string.

Lemma apply_report_sound now st hash crn ip key failure note refusal v : (st ≠ Some Creating → hash = ""%string) →
  (v.(vm_state) = Requested → v.(vm_item_hash) = ""%string) →
  let v' := apply_report now st hash crn ip key failure note refusal v in v'.(vm_state) = Requested → v'.(vm_item_hash) = ""%string.
Proof. intros Hh Hv. cbn. destruct st as [[]|]; cbn; try done. intros Hs. rewrite Hh by done. by apply Hv. Qed.

Lemma record_report_sound NP now vmID current st report db : db.(db_vms) !! vmID = Some current →
  (st ≠ Some Creating → TrimSpace report.(pr_ItemHash) = ""%string) →
  wp (record_report NP now vmID current st report) (λ _, sound db) (λ _, sound db) db.
Proof.
  intros Hv Hh. unfold record_report. rewrite wp_bind.
  apply wp_mono with (Q := λ _, same db_vms db) (X := λ _, same db_vms db).
  - specialize (report_checks_vms NP now vmID current st report db). unfold wp. by destruct (report_checks _ _ _ _ _ _ db) as [? []].
  - intros [ip key] db1 E. unfold same in E. unfold set_vm. wp_steps; [by apply sound_same|].
    trans db1; [by apply sound_same | apply (sound_row _ current); [by rewrite <-E|]].
    apply apply_report_sound. intros Hst. by rewrite Hh.
  - intros e db1 E. by apply sound_same.
Qed.

Lemma ApplyProvisionerReport_sound NP now vmID report :
  instance_with_creating report → stable sound (ApplyProvisionerReport NP now vmID report).
Proof.
  intros Hr. apply stable_of_wp. intros db. unfold ApplyProvisionerReport, ProvisionedVMOf. rewrite TrimSpace_idemp.
  wp_steps; try reflexivity; (apply record_report_sound; [done|]); intros Hst; apply Hr; unfold report_state; by rewrite H1, ?H2.
Qed.

(** Reports of the provisioner. *)
Definition provisioner_report (r : vmReport) : ProvisionerReport :=
  MkProvisionerReport r.(vr_State) r.(vr_ItemHash) r.(vr_CRNHash) r.(vr_PublicIP) r.(vr_NodePublicKey) r.(vr_Failure) r.(vr_Progress) r.(vr_Refusal).
Definition fair_op (op : ProvisioningOp) : Prop :=
  match op with ProvisionerReportOp _ report => instance_with_creating report | _ => True end.

Lemma run_provisioning_sound NP policy now op : fair_op op → stable sound (run_provisioning NP policy now op).
Proof.
  intros Hop. destruct op; unfold run_provisioning; [| | | apply MarkProvisionedVMReady_sound |];
    (apply stable_bind; [apply _ | | intros ?; stable_steps]).
  - apply EnsureAccountVM_sound.
  - by apply ApplyProvisionerReport_sound.
  - apply RetireProvisionedVM_sound.
  - apply ReconcileProvisionedVMs_sound.
Qed.

Lemma work_list_ids db : NoDup (pv_ID <$> work_list db).
Proof. unfold work_list, ProvisionerWork. rewrite order_by_perm, <-!list_fmap_compose. apply (select_NoDup (λ _ v, vm_live v) db.(db_vms)). Qed.

Lemma work_list_requested db : sound_vms db →
  Forall (λ vm, vm.(pv_State) = vmStateRequested → vm.(pv_ItemHash) = ""%string) (work_list db).
Proof.
  intros Hs. apply Forall_fmap, Forall_fmap, Forall_forall. intros [id v] Hin Hst. cbn in *.
  rewrite elem_of_order_by in Hin. apply elem_of_select in Hin as [Hv _]. apply (Hs id v Hv). by destruct v.(vm_state).
Qed.

(** The control plane after a history of operations at given times. *)
Definition after_ops NP policy (ops : list (Z * ProvisioningOp)) (db : Db) : Db :=
  foldl (λ db op, (run_provisioning NP policy op.1 op.2 db).1) db ops.

Lemma after_ops_sound NP policy ops : Forall (λ op, fair_op op.2) ops → ∀ db, sound db (after_ops NP policy ops db).
Proof.
  induction 1 as [|[now op] ops Hop _ IH]; intros db; [done|]. unfold after_ops in *. cbn [foldl].
  etrans; [by apply (run_provisioning_sound NP policy now op) | apply IH].
Qed.

(** ** What every call keeps *)

Definition honest (report : vmReport) : Prop := report.(vr_State) ≠ vmStateCreating → report.(vr_ItemHash) = ""%string.

Definition optionally {A} (P : A → Prop) (o : option A) : Prop := match o with Some x => P x | None => True end.

(** [I] is kept by all services, for honest reports. *)
Class Upholds {W : Type} `{CloudServices W} (I : W → Prop) : Prop := {
  upholds_Work : stable (holds_after I) Work;
  upholds_Report vmID report : honest report → stable (holds_after I) (Report vmID report);
  upholds_List : stable (holds_after I) ListInstances;
  upholds_Create spec : stable (holds_after I) (CreateInstance spec);
  upholds_Unlock spec : stable (holds_after I) (UnlockInstance spec);
  upholds_Delete itemHash : stable (holds_after I) (DeleteInstance itemHash);
  upholds_progress : optionally (λ read, ∀ h, stable (holds_after I) (read h)) progress;
  upholds_boots : optionally (λ read, ∀ h ip, stable (holds_after I) (read h ip)) boots;
  upholds_messages : optionally (λ read, ∀ h, stable (holds_after I) (read h)) messages;
  upholds_credits : optionally (stable (holds_after I)) payerCredits;
  upholds_disk op : stable (holds_after I) (disk op);
  upholds_key : stable (holds_after I) generateKey }.

Section upheld.
Context {W : Type} `{HS : !CloudServices W} `{HP : PrivateKeys} (I : W → Prop) {HU : Upholds I}.
Variable cfg : provisionerConfig.

Abbreviation keeps := (stable (holds_after (λ s : Reconciler W, I s.(rc_world)))).

Lemma keeps_ask {A} (svc : Ext W A) : stable (holds_after I) svc → keeps (ask svc).
Proof. intros Hs s Hi. specialize (Hs s.(rc_world) Hi). unfold ask. by destruct (svc s.(rc_world)) as [w r]. Qed.
Lemma keeps_tried {A} (m : M (Reconciler W) fault A) : keeps m → keeps (survive m).
Proof. intros Hm s Hi. specialize (Hm s Hi). unfold survive. by destruct (m s) as [s' [[]|a]]. Qed.
Lemma keeps_quiet (f : Reconciler W → Reconciler W) : (∀ s, (f s).(rc_world) = s.(rc_world)) → keeps (modify f : M (Reconciler W) fault unit).
Proof. intros Hf. apply stable_modify. intros s. unfold holds_after. by rewrite Hf. Qed.

#[local] Hint Extern 1 (keeps (update_memory _)) => apply keeps_quiet; done : ops.
#[local] Hint Extern 1 (keeps (update_disk _)) => apply keeps_quiet; done : ops.
#[local] Hint Extern 1 (keeps (survive _)) => apply keeps_tried; eauto 2 with ops : ops.
#[local] Hint Extern 1 (keeps read_clock) => apply stable_gets; apply _ : ops.
#[local] Hint Extern 1 (keeps memory) => apply stable_gets; apply _ : ops.
#[local] Hint Extern 1 (keeps (ask (Report _ _))) => apply keeps_ask, upholds_Report; intros Hne; first [reflexivity | by destruct Hne] : ops.
#[local] Hint Extern 2 (keeps (ask _)) =>
  apply keeps_ask; first [apply upholds_Work | apply upholds_List | apply upholds_Create | apply upholds_Unlock | apply upholds_Delete
    | apply upholds_disk | apply upholds_key] : ops.

Lemma read_file_kept f vmID : keeps (read_file f vmID).
Proof. unfold read_file. stable_steps. Qed.
Lemma write_file_kept f vmID content : keeps (write_file f vmID content).
Proof. unfold write_file. stable_steps. Qed.
Lemma remove_file_kept f vmID : keeps (remove_file f vmID).
Proof. unfold remove_file. stable_steps. Qed.
Lemma loadCreate_kept vmID : keeps (loadCreate vmID).
Proof. unfold loadCreate. stable_steps. Qed.
Lemma forgetCreate_kept vmID : keeps (forgetCreate vmID).
Proof. unfold forgetCreate. stable_steps. Qed.
Lemma saveCreate_kept vmID record : keeps (saveCreate vmID record).
Proof. unfold saveCreate. stable_steps. Qed.
#[local] Hint Resolve read_file_kept write_file_kept remove_file_kept loadCreate_kept forgetCreate_kept saveCreate_kept : ops.

Lemma nodeKey_kept vmID : keeps (nodeKey vmID).
Proof. unfold nodeKey. stable_steps. Qed.
Lemma noteProgress_kept vmID note : keeps (noteProgress vmID note).
Proof. unfold noteProgress. stable_steps. Qed.
Lemma deleteInstance_kept itemHash : keeps (deleteInstance itemHash).
Proof. unfold deleteInstance. stable_steps. Qed.
Lemma recentlyForgotten_kept itemHash : keeps (recentlyForgotten itemHash).
Proof. unfold recentlyForgotten. stable_steps. Qed.
Lemma bootIdentity_kept vm : keeps (bootIdentity vm).
Proof. unfold bootIdentity. pose proof upholds_boots as Hb. destruct boots; stable_steps. apply keeps_tried, keeps_ask, Hb. Qed.
Lemma rejection_kept vm : keeps (rejection vm).
Proof. unfold rejection. pose proof upholds_messages as Hb. destruct messages; stable_steps. apply keeps_tried, keeps_ask, Hb. Qed.
Lemma describeRefusal_kept : keeps describeRefusal.
Proof. unfold describeRefusal. pose proof upholds_credits as Hb. destruct payerCredits; stable_steps. by apply keeps_tried, keeps_ask. Qed.
Lemma reportRefusal_kept vmID state refusal : keeps (reportRefusal vmID state refusal).
Proof. unfold reportRefusal. stable_steps. Qed.
#[local] Hint Resolve nodeKey_kept noteProgress_kept deleteInstance_kept recentlyForgotten_kept bootIdentity_kept rejection_kept
  describeRefusal_kept reportRefusal_kept : ops.

Lemma unlock_kept vm : keeps (unlock cfg vm).
Proof. unfold unlock, saveUnlockedBoot. stable_steps. Qed.
#[local] Hint Resolve unlock_kept : ops.
Lemma watchBoot_kept vm : keeps (watchBoot cfg vm).
Proof. unfold watchBoot, saveUnlockedBoot, unlockedBoot. stable_steps. Qed.
Lemma remove_kept vm instance : keeps (remove vm instance).
Proof. unfold remove. stable_steps. Qed.
Lemma submit_create_kept vm target : keeps (submit_create cfg vm target).
Proof. unfold submit_create. stable_steps. Qed.
#[local] Hint Resolve watchBoot_kept remove_kept submit_create_kept : ops.
Lemma step_requested_kept vm instance all : keeps (step_requested cfg vm instance all).
Proof. unfold step_requested. stable_steps. Qed.
Lemma step_creating_kept vm instance : keeps (step_creating vm instance).
Proof. unfold step_creating. pose proof upholds_progress as Hb. destruct progress; stable_steps. apply keeps_ask, Hb. Qed.
Lemma step_unlocking_kept vm : keeps (step_unlocking cfg vm).
Proof. unfold step_unlocking. stable_steps. Qed.
#[local] Hint Resolve step_requested_kept step_creating_kept step_unlocking_kept : ops.
Lemma step_kept vm instance all : keeps (step cfg vm instance all).
Proof. unfold step. stable_steps. Qed.
Lemma adopt_kept vmID instances : keeps (adopt vmID instances).
Proof. unfold adopt. stable_steps. Qed.
#[local] Hint Resolve step_kept adopt_kept : ops.
Lemma runOnce_kept : keeps (runOnce cfg).
Proof. unfold runOnce, round_vm, delete_unclaimed. stable_steps. Qed.

Lemma round_kept r s : I s.(rc_world) → I (round cfg r s).(rc_world).
Proof.
  intros Hi. pose proof (runOnce_kept s Hi) as Hr. unfold round. destruct (runOnce cfg s) as [s' [e|[]]]; cbn in Hr; [destruct e|]; by destruct r.
Qed.
End upheld.

(** ** The provisioner on the control plane's table *)

Section loop.
(** The cloud and the network, whose [Work] and [Report] only say whether the
    call is answered. *)
Context {V : Type} `{HV : !CloudServices V} `{HP : PrivateKeys}.
Variable NP : string → option (string * string).
Variable policy : ProvisioningPolicy.
(** What others do at the control plane before a call, and its clock; and whether
    a report whose answer is lost took effect. *)
Variable others : V → list (Z * ProvisioningOp).
Variable store_now : V → Z.
Variable arrived : V → bool.

Definition Plant : Type := V * Db.

(** Only the provisioner reports. *)
Definition is_report (op : Z * ProvisioningOp) : bool := match op.2 with ProvisionerReportOp _ _ => true | _ => false end.
Definition settle (v : V) (db : Db) : Db := after_ops NP policy (List.filter (λ op, negb (is_report op)) (others v)) db.

Definition Work_http : Ext Plant (list provisionedVM) := λ w,
  let db := settle w.1 w.2 in
  let '(v, r) := Work w.1 in
  ((v, db), match r with inr _ => inr (work_list db) | inl e => inl e end).

Definition Report_http (vmID : string) (report : vmReport) : Ext Plant unit := λ w,
  let db := settle w.1 w.2 in
  let '(v, r) := Report vmID report w.1 in
  let '(db', answer) := ApplyProvisionerReport NP (store_now w.1) vmID (provisioner_report report) db in
  match r with
  | inl e => ((v, if arrived w.1 then db' else db), inl e)
  | inr _ => ((v, db'), match answer with inr _ => inr tt | inl _ => inl (Failed "status") end)
  end.

Definition elsewhere {A} (svc : Ext V A) : Ext Plant A := λ w, let '(v, r) := svc w.1 in ((v, w.2), r).

Definition plant : CloudServices Plant := {|
  now_of w := now_of w.1;
  Work := Work_http;
  Report := Report_http;
  ListInstances := elsewhere ListInstances;
  CreateInstance spec := elsewhere (CreateInstance spec);
  UnlockInstance spec := elsewhere (UnlockInstance spec);
  DeleteInstance itemHash := elsewhere (DeleteInstance itemHash);
  progress := (λ read itemHash, elsewhere (read itemHash)) <$> progress;
  boots := (λ read itemHash ip, elsewhere (read itemHash ip)) <$> boots;
  messages := (λ message itemHash, elsewhere (message itemHash)) <$> messages;
  payerCredits := elsewhere <$> payerCredits;
  disk op := elsewhere (disk op);
  generateKey := elsewhere generateKey |}.

Lemma settle_sound v db : sound db (settle v db).
Proof.
  apply after_ops_sound, Forall_forall. intros [now op] [_ Hop]%list_elem_of_In%filter_In. by destruct op.
Qed.

Lemma work_list_sound_list db : sound_vms db → sound_list (work_list db).
Proof. intros Hs. split; [apply work_list_ids | by apply work_list_requested]. Qed.

(** What holds of the table and of the answers so far. *)
Definition sound_event (e : event) : Prop := match e with Worked (inr vms) => sound_list vms | _ => True end.
Definition in_step (w : Traced Plant) : Prop := sound_vms w.1.2 ∧ Forall sound_event w.2.

Lemma elsewhere_unseen {A} (svc : Ext V A) : stable (holds_after in_step) (unseen (elsewhere svc)).
Proof. intros [[v db] tr] Hw. unfold unseen, elsewhere. cbn. by destruct (svc v) as [v' r]. Qed.

Lemma in_step_noted {A} (svc : Ext Plant A) note :
  (∀ w, sound_vms w.2 → sound_vms (svc w).1.2 ∧ sound_event (note (svc w).2)) → stable (holds_after in_step) (noted svc note).
Proof.
  intros Hs [w tr] [Hw Htr]. unfold noted. cbn in *. specialize (Hs w Hw). destruct (svc w) as [w' r]. destruct Hs as [Hs He].
  split; [done|]. apply Forall_app. split; [done | by apply Forall_singleton].
Qed.

Lemma elsewhere_noted {A} (svc : Ext V A) note : (∀ r, sound_event (note r)) → stable (holds_after in_step) (noted (elsewhere svc) note).
Proof. intros Hn. apply in_step_noted. intros [v db] Hw. unfold elsewhere. cbn. by destruct (svc v) as [v' r]. Qed.

#[local] Existing Instance plant.
#[local] Existing Instance recorded.

Lemma Work_in_step : stable (holds_after in_step) (noted Work_http Worked).
Proof.
  apply in_step_noted. intros [v db] Hw. unfold Work_http. cbn. pose proof (settle_sound v db Hw) as Hs.
  destruct (Work v) as [v' [e|vms]]; cbn; split; try done. by apply work_list_sound_list.
Qed.

Lemma Report_in_step vmID report : honest report → stable (holds_after in_step) (noted (Report_http vmID report) (Reported vmID report)).
Proof.
  intros Hh. apply in_step_noted. intros [v db] Hw. unfold Report_http. cbn. pose proof (settle_sound v db Hw) as Hs.
  assert (Hr : instance_with_creating (provisioner_report report)).
  { intros Hst. cbn. rewrite Hh; [done|]. intros E. apply Hst. unfold report_state. cbn. by rewrite E. }
  pose proof (ApplyProvisionerReport_sound NP (store_now v) vmID _ Hr _ Hs) as Ha.
  destruct (Report vmID report v) as [v' [e|[]]], (ApplyProvisionerReport _ _ _ _ _) as [db' answer]; cbn in *; [|done].
  by destruct (arrived v).
Qed.

#[local] Instance in_step_upheld : Upholds in_step.
Proof.
  split; cbn [Work Report ListInstances CreateInstance UnlockInstance DeleteInstance progress boots messages payerCredits disk generateKey recorded plant].
  - apply Work_in_step.
  - apply Report_in_step.
  - by apply elsewhere_noted.
  - intros. by apply elsewhere_noted.
  - intros. by apply elsewhere_noted.
  - intros. by apply elsewhere_noted.
  - destruct progress; cbn; [intros h; apply elsewhere_unseen | done].
  - destruct boots; cbn; [intros h ip; apply elsewhere_unseen | done].
  - destruct messages; cbn; [intros h; by apply elsewhere_noted | done].
  - destruct payerCredits; cbn; [apply elsewhere_unseen | done].
  - intros. by apply elsewhere_noted.
  - apply elsewhere_unseen.
Qed.

Lemma in_step_answers (w : Plant) : sound_vms w.2 → answers_soundly w.
Proof.
  intros Hw w' vms. destruct w as [v db]. cbn. unfold Work_http. cbn. destruct (Work v) as [v' [e|l]]; intros [= <- <-].
  by apply work_list_sound_list, settle_sound.
Qed.

Lemma rounds_in_step cfg creates0 restarts s : @clock_set V HV → orderly cfg creates0 s → in_step s.(rc_world) →
  orderly cfg creates0 (rounds cfg restarts s) ∧ in_step (rounds cfg restarts s).(rc_world).
Proof.
  intros Hclock. unfold rounds. revert s. induction restarts as [|r restarts IH]; intros s Ho Hi; [done|]. cbn. apply IH.
  - apply round_orderly; [by intros [v db]; apply Hclock | by apply in_step_answers, Hi | done].
  - by apply (round_kept in_step).
Qed.
End loop.

(** C34: The provisioner and the control plane rely on each other rightly.  When the
    provisioner runs against the control plane's table, from a table in which no
    requested VM has an instance, with any cloud, any operations of others before
    each call, restarts, and calls that fail before or after they took effect: every
    list of work it is given has distinct ids and no instance for a VM that is only
    requested, and so everything it does has its reason. *)
Theorem control_loop_closed {V : Type} `{HV : !CloudServices V} `{PrivateKeys} NP policy others store_now arrived cfg disk0 (v : V) db restarts :
  @clock_set V HV → sound_vms db →
  let tr := @run_trace Plant (plant NP policy others store_now arrived) _ _ cfg disk0 (v, db) restarts in
  (∀ before vms after, tr = before ++ Worked (inr vms) :: after →
     NoDup (pv_ID <$> vms) ∧ Forall (λ vm, vm.(pv_State) = vmStateRequested → vm.(pv_ItemHash) = ""%string) vms)
  ∧ justified cfg disk0.(dk_creates) tr.
Proof.
  intros Hclock Hdb tr.
  destruct (rounds_in_step NP policy others store_now arrived cfg disk0.(dk_creates) restarts
    (MkReconciler newReconciler disk0 ((v, db), [])) Hclock) as [[Hj _] [_ Htr]].
  - split; [apply justified_nil | done].
  - by split.
  - split; [|exact Hj]. intros before vms after E. change (Forall sound_event tr) in Htr. rewrite E in Htr.
    apply Forall_app in Htr as [_ Htr]. by apply Forall_cons in Htr as [Htr _].
Qed.

(** *** Witness *)

Definition sample_fleet : Db := empty_db <| db_vms := {["pvm-1"%string := default_vm None "eu" 0]} |>.
Definition sample_others (n : nat) : list (Z * ProvisioningOp) := if Nat.eqb n 2 then [(3, RetireProvisionedVMOp "pvm-1" "operator")] else [].
Definition sample_loop : list event :=
  @run_trace (@Plant nat) (@plant nat sample_cloud (λ _, None) sample_policy sample_others (λ n, Z.of_nat n) (λ _, true)) toy_signatures sample_keys
    sample_provisioner (MkDisk ∅ ∅) (0%nat, sample_fleet) [false; true; false; false].

Lemma control_loop_closed_witness :
  length (List.filter is_submission sample_loop) = 1%nat ∧ justified sample_provisioner ∅ sample_loop.
Proof.
  split; [vm_compute; reflexivity|].
  apply (@control_loop_closed nat sample_cloud toy_signatures sample_keys (λ _, None) sample_policy sample_others (λ n, Z.of_nat n) (λ _, true)
    sample_provisioner (MkDisk ∅ ∅) 0%nat sample_fleet [false; true; false; false]).
  - apply sample_clock_set.
  - intros id v Hv _. cbn in Hv. apply lookup_singleton_Some in Hv as [_ <-]. reflexivity.
Defined.
